(* ===== verification/_CoqProject ===== *)
-Q . S2P
Prelude.v
EasyList.v
Tiling.v
MemPage.v
EasySlab.v
EasySlabProofs.v
EasySlabTheorems.v
HttpParser.v
HttpParserProofs.v
HttpParserSplit.v
HttpParserUser.v
HttpParserTheorems.v
EasyMemPool.v
EasyMemPoolProofs.v
EasyMemPoolBuffers.v
EasyMemPoolTheorems.v
EasyMemPoolRealloc.v
EasyHash.v
EasyPool.v
CString.v
EasyString.v
HttpPath.v
EasyBuf.v
HttpHandler.v
HttpHandlerSafety.v
HttpHandlerEncode.v
HttpHeaders.v
EasyConnection.v
EasyConnectionProofs.v
EasyConnectionSafety.v
EasyConnectionTheorems.v
TdhsDefine.v
TdhsRead.v
TdhsProtocol.v
TdhsServer.v
TdhsDecode.v
TdhsFormat.v
TdhsDecodeProofs.v
TdhsDecodeTheorems.v
TdhsBatch.v
TdhsConnection.v
TdhsOptimize.v
TdhsThrottle.v
TdhsResponse.v
TdhsTable.v
TdhsMonitor.v
TdhsFind.v
TdhsEdit.v
TdhsContext.v
TdhsContextProofs.v
TdhsExecute.v
TdhsExecuteProofs.v
TdhsGroup.v
TdhsDemo.v
