(* ===== verification/Prelude.v ===== *)
(** * TDH_Socket: a verified model of the plugin and of its libeasy routines

    TDH_Socket is a plugin of the MySQL server (src/TDHSocket, src/libtdhs) that
    answers requests of a binary protocol directly from the storage engine.  It
    runs on libeasy (src/libeasy), a C library with intrusive lists, hash tables,
    region, page and object allocators, buffers, connections served by an I/O thread
    and by request threads, and an HTTP parser.  This library models the path of a
    request from the bytes received to the bytes answered and to the transaction
    committed, and the libeasy routines with an interesting state of their own.  This
    file is the prelude; the rest of this comment describes the whole.

    ** The path of a request

    - Connections are read, requests are handed to threads, answers are written:
      libeasy/io/easy_connection.c, easy_request.c, easy_message.c and easy_socket.c,
      the server side.  EasyConnection has messages, requests and connections with
      their reference counters, the I/O thread and the request threads, and events
      in any order; EasyConnectionProofs the invariant and a calculus of weakest
      preconditions, EasyConnectionSafety its preservation by each operation,
      EasyConnectionTheorems what holds after any run: nothing freed is used, the
      counters are exact, the bytes written are the answers in order, and closing
      frees everything (server_safe, answers_in_order, close_frees_all); and what
      goes wrong: refused requests are counted for ever (refused_requests_block), and,
      on example runs, requests are lost when a message is recycled and the request of
      a streamed answer is freed under its thread (recycled_requests_lost,
      streaming_use_after_free).
    - Bytes are cut into packets: libtdhs/tdh_socket_protocol.cpp, TdhsProtocol.
      tdhs_decode reads only what was received and returns exactly the packets of
      a complete frame, waits for exactly the missing bytes, and reads back what
      tdhs_encode writes (tdhs_decode_safe, tdhs_decode_partial,
      tdhs_encode_decode).  TdhsServer puts the two together with the connections, as
      TDHSocket/tdh_socket.cpp does: it does not matter how the bytes of a client are
      cut into reads, and a client is sent complete frames in order (tdhs_stream_cut,
      tdhs_replies); the time and the pool of a message are parameters that stay the
      same during a run.
    - A packet is decoded into a request structure:
      libtdhs/tdh_socket_define.hpp, libtdhs/util.hpp and
      TDHSocket/tdh_socket_decode_request_binary{,_v2}.cpp.  TdhsDefine has the
      structures and the hash of table names, TdhsRead the reading macros as a
      state transformer with early returns and the notion of an exact parser,
      TdhsDecode the decoders, TdhsFormat the format as a reference independent of
      them, TdhsDecodeProofs and TdhsDecodeTheorems the proof that the decoders
      accept the format and nothing else, TdhsBatch the entry points with batches
      (decode_request_roundtrip, decode_request_sound, decode_to_batch_exact,
      decode_message_terminates).
    - The I/O thread decides what to do with it:
      TDHSocket/tdh_socket_handler.cpp, tdh_socket_connection_context.cpp,
      tdh_socket_share.cpp, tdh_socket_optimize.cpp and
      tdh_socket_table_balance.cpp, TdhsConnection.  The handshake grants exactly
      the permissions whose code was given, and no request reaches a worker thread
      without its permission, over any history of the connection
      (shake_hands_spec, access_control).  TdhsOptimize models the statistics of
      requests that choose the pool: the bloom filters of libtdhs and their turning
      over, so that a request repeated often enough is found (bloom_filter_exact,
      hot_request).  TdhsMonitor is the thread of TDHSocket/tdh_socket_monitor.cpp that
      sets the strategy and the number of threads the dispatch reads
      (monitor_keeps_threads), TdhsThrottle the function slow_read_limit of
      tdh_socket_share.cpp, with its doubles, which the dispatch has as a parameter
      (slow_read_limit_spec; throttle_misjudges computes two of its runs).
    - A worker thread takes the requests that wait:
      TDHSocket/tdh_socket_request_thread.cpp and tdh_socket_dbcontext.cpp.
      TdhsContext has the open tables, their cache and the locks, TdhsExecute the
      execution of requests, insertions and batches and the round of the thread.
      TdhsContextProofs: no table is lost or opened twice, a request gets the table
      it names, a group locks what it uses (open_table_spec, close_table_spec,
      lock_table_spec).  TdhsExecuteProofs and TdhsGroup: a batch, and with group
      commit all the requests of a round, are durable completely or not at all, and
      no answer claims success for what is not (batch_atomic, group_commit).
      TdhsDemo instantiates the server and computes rounds, one of them with a batch
      inside a batch (nested_batch_twice).
    - Records are read, filtered, changed and counted by do_find:
      tdh_socket_dbcontext.cpp and tdh_socket_dbutil.hpp.  TdhsTable resolves names
      and evaluates filters, TdhsFind walks the index: GET and COUNT answer with the
      selection of the records in index order (parse_field_spec, filter_record_spec,
      do_get_spec, do_count_spec).  TdhsEdit has the statements that change records,
      over an engine that can be edited: UPDATE and DELETE change each selected record
      once, and answer with what was done (do_update_spec, do_delete_spec), provided
      that no record has two of the keys of an IN and that the new values of an UPDATE
      leave a record at its place in the index; where they do not, update_meets_itself
      shows one record changed again and again.
    - Responses are built and streamed: tdh_socket_encode_response.hpp,
      TdhsResponse (stream_response, number_responses).

    ** libeasy

    - EasyList: include/easy_list.h at pointer level; a list is a sequence
      (easy_list_ops_refine).  The other files model these lists as sequences.
    - Tiling, MemPage: memory/easy_mem_page.c, the buddy allocator, against the
      tilings of its page area by aligned blocks (easy_mem_zone_create_spec,
      easy_mem_alloc_pages_spec, easy_mem_free_pages_spec).
    - EasySlab, EasySlabProofs, EasySlabTheorems: memory/easy_mem_slab.c, caches of
      objects in slabs on the page allocator, found again by address
      (easy_mem_slab_init_spec, easy_mem_cache_alloc_spec, easy_mem_cache_free_spec,
      easy_mem_cache_size_spec, easy_mem_slab_realloc_spec, realloc_foreign_block).
    - EasyMemPool, EasyMemPoolProofs, EasyMemPoolBuffers, EasyMemPoolTheorems,
      EasyMemPoolRealloc: memory/easy_mem_pool.c, pools of pages that threads share
      without a lock.  Operations are programs of atomic steps.  Run alone they keep
      buffers apart and give everything back (mempool_alone, by an invariant that
      counts the references of the running operation); interleaved, two threads can
      be given the same memory (mempool_race, a schedule), and sizes wrap
      (mempool_size_wraps).
      EasyMemPoolRealloc has realloc on a pool per thread (thread_realloc_mistakes).
    - EasyHash: util/easy_hash.c with its back pointers (easy_hash_refines,
      easy_hash_create_spec) and MurmurHash (easy_hash_key_roundtrip).
    - EasyPool: util/easy_pool.c, the region allocator on any realloc
      (easy_pool_alloc_spec, easy_pool_no_leak, easy_pool_contents).
    - EasyBuf: util/easy_buf.c and util/easy_array.c on any region allocator
      (easy_buf_check_read_space_spec, easy_buf_check_write_space_spec,
      easy_array_objects).
    - CString, EasyString: byte buffers, util/easy_string.c.
    - HttpPath: URL decoding and path merging of
      packet/http/easy_http_handler.c (easy_url_decode_spec,
      easy_http_merge_path_spec).
    - HttpHandler, HttpHandlerSafety, HttpHandlerEncode, HttpHeaders: the rest of
      packet/http/easy_http_handler.c.  HttpHandler collects what the parser delivers
      into a request and has the table of headers; whatever arrives, in whatever
      pieces, the strings of a request lie in the bytes received, unless the parser
      over-reads a method's name or a header has no memory (http_decode_safe), but
      need not be the strings meant (the example http_strings_contiguous).  Responses
      and requests fit into the buffers computed for them, but for long POSTs
      (easy_http_server_on_encode_spec, easy_http_client_on_encode_spec,
      http_client_post_cut), and the table is a list of headers, the newest first
      (easy_http_header_hash_refines).
    - HttpParser, HttpParserProofs, HttpParserSplit, HttpParserUser,
      HttpParserTheorems: packet/http/http_parser.c, one definition per state of its
      switch; safety on any input (http_parser_execute_safe), and what changes when the
      stream is cut into buffers: nothing as long as there is no error and no upgrade
      (http_parser_split).  HttpParserUser shows that the parser treats the user's data
      only through the callbacks.

    ** How the code is modelled

    Integers are [Z] with the wrap-around of their width written out ([u32], [i32],
    ...).  A read or write outside an object, a null pointer dereferenced or a
    failed assertion is [None] (or [Crash] in TdhsRead, [Fault] in HttpParser), so
    "= Some ..." in a theorem says that the code stays inside its objects.  Return
    codes, early returns and errors are values.  Memory is a finite map or a list,
    at the level the component works on: pointers in EasyList and EasyHash,
    addresses in the allocators, offsets in the buffers, numbers of messages and
    places in them in the connections, where a lookup that fails is a use of
    something freed.

    Code that is not in the repository is an interface, a class, and what is
    relied on is a class of laws: [Allocator] (realloc) for the pool; [Libc] (malloc,
    realloc, free) for the slabs; [Memalign] for the pools of pages; [IoHandler], the callbacks of a service, for the
    connections; [PoolOps]
    (a region allocator) for buffers and responses, with EasyPool as an instance;
    [Fields], [Handler] and [Cursor] (columns, storage engine, and the contents of
    the index in order), [Editor] (what changing and deleting a record does to them,
    for an update that leaves the record at its place in the index),
    [Writer], [Server] and [Transactions] (the MySQL session: opening, locking,
    commit and rollback) for the database context.  Each has a concrete instance
    the witnesses use.  Other parameters are functions: whether malloc or calloc
    gives memory, what fresh memory holds, whether the connection is found closed
    when a part of a stream is sent, the answer of the bloom filter (in the
    dispatch).  What the system answers to the connections (memory, what writev
    takes) is a list that is used up.

    Fuel: the parser of HTTP takes one step per byte and the fuel is the length of
    the buffer; decode_message uses twice the length of the chain plus two
    (decode_message_terminates); do_find needs more steps than the index has
    records (do_get_spec assumes that and says so); the decoding loop of a connection
    has the number of bytes as fuel, which server_safe proves enough for decoders
    that use up bytes; execute uses
    [execute_fuel], four times the number of parts plus five, which batch_atomic
    and group_commit prove enough for batches without inner batches; the loops of
    EasyMemPool that wait for other threads go round [spins] times, of which
    mempool_alone needs two ([Enough]).  Other
    recursions are structural.

    ** Not modelled

    The event loop (ev.c, vendored), listening, connections as a client and the
    moving of connections between I/O threads, creation of the thread pools, logging,
    user threads, atomic operations: input and output, threads and assembly.  Locks
    are not modelled; a definition is one critical section, and a request thread
    processes one request per step; only EasyMemPool interleaves atomic steps.  The
    entry points of the plugin (registration with the server), starting and cancelling
    the monitor thread and opening the table it reads, the row-cache build
    (TDHS_ROW_CACHE), statistics and messages; of the HTTP handler the printf of a
    response and the terminating of strings in place.  Clients in other languages and the patches are out of scope. *)

From Stdlib Require Import Ascii.
From Stdlib Require String.
From Stdlib Require Import ZArith Lia Btauto.
From stdpp Require Import base gmap list numbers.

Declare Scope easy_scope.
Delimit Scope easy_scope with easy.

Local Open Scope Z_scope.

(** ** Machine integers

    A w-bit integer of the source is a [Z]; an assignment to a narrower or
    unsigned object is written with one of these wrap-around functions. *)

Definition wrapu (w z : Z) : Z := z mod 2 ^ w.
Definition wraps (w z : Z) : Z := (z + 2 ^ (w - 1)) mod 2 ^ w - 2 ^ (w - 1).

Abbreviation u8 := (wrapu 8).
Abbreviation u16 := (wrapu 16).
Abbreviation u32 := (wrapu 32).
Abbreviation u64 := (wrapu 64).
Abbreviation i8 := (wraps 8).
Abbreviation i32 := (wraps 32).
Abbreviation i64 := (wraps 64).

(** [easy_align(d, a)] of easy_define.h, before the result is stored. *)
Definition easy_align (d a : Z) : Z := Z.land (d + (a - 1)) (Z.lnot (a - 1)).

(** [easy_max] and [easy_min] of easy_define.h. *)
Definition easy_max (a b : Z) : Z := if b <? a then a else b.
Definition easy_min (a b : Z) : Z := if a <? b then a else b.

(** Status codes of easy_define.h. *)
Definition EASY_OK : Z := 0.
Definition EASY_ERROR : Z := -1.
Definition EASY_ABORT : Z := -2.
Definition EASY_ASYNC : Z := -3.
Definition EASY_BREAK : Z := -4.
Definition EASY_AGAIN : Z := -11.

(** The bytes of a C object, as values of [unsigned char]. *)
Definition is_byte (b : Z) : bool := (0 <=? b) && (b <? 256).
Definition bytes_ok (l : list Z) : Prop := Forall (fun b => 0 <= b < 256) l.

(** Little-endian value of a byte sequence, as the 64-bit loads of the
    source read it on the x86-64 targets the code is written for. *)
Fixpoint le_val (l : list Z) : Z :=
  match l with
  | [] => 0
  | b :: l => b + 256 * le_val l
  end.

(** ** Automation *)

Create HintDb easy.
Create Rewrite HintDb easy_rw.

(** [mlia]: linear arithmetic with quotients and remainders eliminated. *)
Ltac mlia := Z.to_euclidean_division_equations; lia.

(** [bdestruct_all]: split every boolean comparison on [Z] in the goal. *)
Ltac bdestruct_all :=
  repeat match goal with
  | |- context [?x =? ?y] => destruct (Z.eqb_spec x y)
  | |- context [?x <? ?y] => destruct (Z.ltb_spec x y)
  | |- context [?x <=? ?y] => destruct (Z.leb_spec x y)
  end; simpl.

(** ** Characters

    [chr "A"] is the character constant as a number, computed when it is
    parsed; [bytes_of s] the bytes of a string literal without terminator. *)
Definition zc (a : Ascii.ascii) : Z := Z.of_N (Ascii.N_of_ascii a).
Definition bytes_of (s : String.string) : list Z := map zc (String.list_ascii_of_string s).
Notation "'chr' s" := (ltac:(let v := eval vm_compute in (zc s%char) in exact v))
  (at level 0, s at level 0, only parsing).

(** ** Arithmetic lemmas *)

Lemma wrapu_range w z : 0 <= w -> 0 <= wrapu w z < 2 ^ w.
Proof. intros. apply Z.mod_pos_bound. lia. Qed.

Lemma wrapu_small w z : 0 <= z < 2 ^ w -> wrapu w z = z.
Proof. apply Z.mod_small. Qed.

Lemma wraps_small w z : - 2 ^ (w - 1) <= z < 2 ^ (w - 1) -> 0 < w -> wraps w z = z.
Proof.
  intros Hz Hw. unfold wraps.
  assert (2 ^ w = 2 * 2 ^ (w - 1)) as E.
  { rewrite <- Z.pow_succ_r by lia. f_equal. lia. }
  rewrite Z.mod_small; lia.
Qed.

Lemma wraps_range w z : 0 < w -> - 2 ^ (w - 1) <= wraps w z < 2 ^ (w - 1).
Proof.
  intros Hw. unfold wraps.
  assert (2 ^ w = 2 * 2 ^ (w - 1)) as E.
  { rewrite <- Z.pow_succ_r by lia. f_equal. lia. }
  pose proof (Z.mod_pos_bound (z + 2 ^ (w - 1)) (2 ^ w)). lia.
Qed.

Lemma lxor_range a b n : 0 <= n -> 0 <= a < 2 ^ n -> 0 <= b < 2 ^ n -> 0 <= Z.lxor a b < 2 ^ n.
Proof.
  intros Hn Ha Hb. assert (0 <= Z.lxor a b) as H0 by (apply Z.lxor_nonneg; lia).
  split; [done|]. destruct (decide (Z.lxor a b = 0)) as [->|Hne]; [lia|].
  assert (forall x, 0 <= x < 2 ^ n -> Z.log2 x < n \/ x = 0) as Hlog.
  { intros x Hx. destruct (decide (x = 0)); [by right|left]. apply Z.log2_lt_pow2; lia. }
  apply Z.log2_lt_pow2; [lia|]. pose proof (Z.log2_lxor a b ltac:(lia) ltac:(lia)) as Hl.
  destruct (Hlog a Ha) as [?| ->], (Hlog b Hb) as [?| ->];
    rewrite ?Z.lxor_0_l, ?Z.lxor_0_r in *; try done; lia.
Qed.

Lemma easy_align_pow2 d k :
  0 <= k -> easy_align d (2 ^ k) = (d + (2 ^ k - 1)) / 2 ^ k * 2 ^ k.
Proof.
  intros Hk. unfold easy_align.
  rewrite <- Z.ldiff_land.
  replace (2 ^ k - 1) with (Z.ones k) at 2 by (rewrite Z.ones_equiv; lia).
  rewrite Z.ldiff_ones_r, Z.shiftl_mul_pow2, Z.shiftr_div_pow2 by lia. done.
Qed.

(** Alignment to a power of two: the least multiple not below the argument. *)
Lemma easy_align_spec d k :
  0 <= k ->
  d <= easy_align d (2 ^ k) < d + 2 ^ k /\ (2 ^ k | easy_align d (2 ^ k)).
Proof.
  intros Hk. rewrite easy_align_pow2 by done.
  assert (0 < 2 ^ k) by lia.
  pose proof (Z.div_mod (d + (2 ^ k - 1)) (2 ^ k)).
  pose proof (Z.mod_pos_bound (d + (2 ^ k - 1)) (2 ^ k)).
  split; [lia|]. apply Z.divide_factor_r.
Qed.

Lemma easy_align_id d k : 0 <= k -> (2 ^ k | d) -> easy_align d (2 ^ k) = d.
Proof.
  intros Hk [q ->]. rewrite easy_align_pow2 by done.
  rewrite (Z.add_comm (q * 2 ^ k)), Z.div_add by lia.
  rewrite Z.div_small by lia. lia.
Qed.

Lemma easy_min_spec a b : easy_min a b = Z.min a b.
Proof. unfold easy_min. bdestruct_all; lia. Qed.

Lemma easy_max_spec a b : easy_max a b = Z.max a b.
Proof. unfold easy_max. bdestruct_all; lia. Qed.

#[export] Hint Rewrite easy_min_spec easy_max_spec : easy_rw.

(** ** Lists *)

Lemma le_val_range l : bytes_ok l -> 0 <= le_val l < 256 ^ Z.of_nat (length l).
Proof.
  induction 1 as [|b l Hb _ IH]; [done|].
  cbn [le_val length]. rewrite Nat2Z.inj_succ, Z.pow_succ_r by lia. lia.
Qed.

Lemma le_val_app l1 l2 :
  le_val (l1 ++ l2) = le_val l1 + 256 ^ Z.of_nat (length l1) * le_val l2.
Proof.
  induction l1 as [|b l1 IH]; cbn [le_val length app]; [lia|].
  rewrite IH, Nat2Z.inj_succ, Z.pow_succ_r by lia. lia.
Qed.

Lemma list_filter_all {A} (P : A -> Prop) `{forall x, Decision (P x)} (l : list A) :
  (forall x, x ∈ l -> P x) -> filter P l = l.
Proof.
  induction l as [|x l IH]; intros HP; [done|].
  rewrite filter_cons_True by set_solver. f_equal. apply IH. set_solver.
Qed.

(** Removing the one occurrence of an element of a duplicate-free list. *)
Lemma filter_ne_split {A} `{EqDecision A} (x : A) l1 l2 :
  NoDup (l1 ++ x :: l2) -> filter (fun y => y <> x) (l1 ++ x :: l2) = l1 ++ l2.
Proof.
  intros Hnd. apply list.NoDup_app in Hnd as (_ & Hd & Hnd).
  apply list.NoDup_cons in Hnd as [Hx _].
  rewrite list.filter_app, filter_cons_False by tauto.
  rewrite !list_filter_all; [done|..]; intros y Hy ->; set_solver.
Qed.

Lemma length_filter_ne {A} `{EqDecision A} (x : A) l :
  NoDup l -> x ∈ l -> Z.of_nat (length (filter (fun y => y <> x) l)) = Z.of_nat (length l) - 1.
Proof.
  intros Hnd Hx. apply list_elem_of_split in Hx as (l1 & l2 & ->).
  rewrite filter_ne_split by done. rewrite !length_app. simpl. lia.
Qed.

#[export] Hint Resolve wrapu_range : easy.
