(* ===== verification/EasyList.v ===== *)
(** * easy_list.h: intrusive circular doubly linked lists

    Pointer-level model of the list primitives every other component is built
    on.  The memory is a finite map from node addresses to their [next] and
    [prev] fields; an access to an address that holds no node is [None].  The
    representation predicate [is_list h head l] says that the cycle through
    [head] visits exactly the nodes of [l], in order, in both directions; the
    theorems refine each primitive to the corresponding operation on [l], which
    is how the other files of the development model these lists. *)

From Stdlib Require Import ZArith Lia.
From stdpp Require Import base gmap list numbers option.
From S2P Require Import Prelude.

Local Open Scope Z_scope.

Module EasyList.

(** ** Data: [struct easy_list_t] and the heap of nodes *)

Abbreviation addr := Z (only parsing).

Record easy_list_t := Node { next : addr; prev : addr }.

Abbreviation heap := (gmap Z easy_list_t).

(** Field writes through a pointer. *)
Definition set_next (h : heap) (p v : addr) : option heap :=
  n ← h !! p; Some (<[p := Node v (prev n)]> h).
Definition set_prev (h : heap) (p v : addr) : option heap :=
  n ← h !! p; Some (<[p := Node (next n) v]> h).
Definition get_next (h : heap) (p : addr) : option addr := next <$> h !! p.
Definition get_prev (h : heap) (p : addr) : option addr := prev <$> h !! p.

(** ** Operations *)

Definition easy_list_init (h : heap) (p : addr) : option heap :=
  h ← set_next h p p; set_prev h p p.

Definition __easy_list_add (h : heap) (list prev next : addr) : option heap :=
  h ← set_prev h next list;
  h ← set_next h list next;
  h ← set_prev h list prev;
  set_next h prev list.

Definition easy_list_add_head (h : heap) (list head : addr) : option heap :=
  n ← get_next h head; __easy_list_add h list head n.

Definition easy_list_add_tail (h : heap) (list head : addr) : option heap :=
  p ← get_prev h head; __easy_list_add h list p head.

Definition __easy_list_del (h : heap) (prev next : addr) : option heap :=
  h ← set_prev h next prev; set_next h prev next.

Definition easy_list_del (h : heap) (entry : addr) : option heap :=
  p ← get_prev h entry;
  n ← get_next h entry;
  h ← __easy_list_del h p n;
  easy_list_init h entry.

Definition easy_list_empty (h : heap) (head : addr) : option bool :=
  n ← get_next h head; Some (bool_decide (n = head)).

Definition easy_list_movelist (h : heap) (list new_list : addr) : option heap :=
  e ← easy_list_empty h list;
  if (e : bool) then easy_list_init h new_list
  else
    p ← get_prev h list;
    h ← set_prev h new_list p;
    n ← get_next h list;
    h ← set_next h new_list n;
    np ← get_prev h new_list;
    h ← set_next h np new_list;
    nn ← get_next h new_list;
    h ← set_prev h nn new_list;
    easy_list_init h list.

Definition easy_list_join (h : heap) (list head : addr) : option heap :=
  e ← easy_list_empty h list;
  if (e : bool) then Some h
  else
    first ← get_next h list;
    last ← get_prev h list;
    at_ ← get_prev h head;
    h ← set_prev h first at_;
    h ← set_next h at_ first;
    h ← set_next h last head;
    set_prev h head last.

(** [easy_list_get_last] and [easy_list_get_first]: the embedding object is
    identified with its node, [None] inside is the NULL of the macro. *)
Definition easy_list_get_last (h : heap) (list : addr) : option (option addr) :=
  e ← easy_list_empty h list;
  if (e : bool) then Some None else Some <$> get_prev h list.
Definition easy_list_get_first (h : heap) (list : addr) : option (option addr) :=
  e ← easy_list_empty h list;
  if (e : bool) then Some None else Some <$> get_next h list.

(** [easy_list_for_each_entry]: the nodes a forward walk from [p] visits before
    it is back at [head]; [fuel] bounds the number of nodes. *)
Fixpoint walk (fuel : nat) (h : heap) (head p : addr) : option (list addr) :=
  if bool_decide (p = head) then Some []
  else match fuel with
       | O => None
       | S fuel => n ← get_next h p; l ← walk fuel h head n; Some (p :: l)
       end.
Definition easy_list_for_each_entry (fuel : nat) (h : heap) (head : addr) : option (list addr) :=
  n ← get_next h head; walk fuel h head n.

(** ** The abstraction: a circular list as a sequence of addresses *)

(** [linked h xs]: consecutive elements of [xs] point at each other. *)
Fixpoint linked (h : heap) (xs : list addr) : Prop :=
  match xs with
  | a :: (b :: _) as tl => get_next h a = Some b /\ get_prev h b = Some a /\ linked h tl
  | _ => True
  end.

Definition is_list (h : heap) (head : addr) (l : list addr) : Prop :=
  NoDup (head :: l) /\ linked h (head :: l ++ [head]).

(** ** Field access lemmas *)

Lemma set_next_inv h p v h' :
  set_next h p v = Some h' ->
  (forall q, get_next h' q = if decide (q = p) then Some v else get_next h q) /\
  (forall q, get_prev h' q = get_prev h q) /\
  (forall q, is_Some (h' !! q) <-> is_Some (h !! q)) /\
  (forall q, q <> p -> h' !! q = h !! q).
Proof.
  unfold set_next, get_next, get_prev. intros E.
  destruct (h !! p) as [n|] eqn:Hp; simplify_eq/=.
  split_and!; intros q; try destruct (decide (q = p)) as [->|Hne];
    rewrite ?lookup_insert_eq, ?lookup_insert_ne, ?Hp by done; naive_solver.
Qed.

Lemma set_prev_inv h p v h' :
  set_prev h p v = Some h' ->
  (forall q, get_prev h' q = if decide (q = p) then Some v else get_prev h q) /\
  (forall q, get_next h' q = get_next h q) /\
  (forall q, is_Some (h' !! q) <-> is_Some (h !! q)) /\
  (forall q, q <> p -> h' !! q = h !! q).
Proof.
  unfold set_prev, get_next, get_prev. intros E.
  destruct (h !! p) as [n|] eqn:Hp; simplify_eq/=.
  split_and!; intros q; try destruct (decide (q = p)) as [->|Hne];
    rewrite ?lookup_insert_eq, ?lookup_insert_ne, ?Hp by done; naive_solver.
Qed.

Lemma set_next_ok h p v : is_Some (h !! p) -> exists h', set_next h p v = Some h'.
Proof. intros [n Hn]. unfold set_next. rewrite Hn. simpl. eauto. Qed.

Lemma set_prev_ok h p v : is_Some (h !! p) -> exists h', set_prev h p v = Some h'.
Proof. intros [n Hn]. unfold set_prev. rewrite Hn. simpl. eauto. Qed.

Lemma get_next_is_Some h p v : get_next h p = Some v -> is_Some (h !! p).
Proof. unfold get_next. destruct (h !! p); naive_solver. Qed.

Lemma get_prev_is_Some h p v : get_prev h p = Some v -> is_Some (h !! p).
Proof. unfold get_prev. destruct (h !! p); naive_solver. Qed.

Hint Resolve get_next_is_Some get_prev_is_Some : easy.

(** [run_set]: execute one field write whose target is known to be a node,
    keeping the description of the new heap. *)
Ltac run_set :=
  match goal with
  | |- context [set_next ?h ?p ?v] =>
      let h' := fresh "h" in let E := fresh "E" in
      destruct (set_next_ok h p v) as [h' E]; [|rewrite E; simpl;
        apply set_next_inv in E as (? & ? & ? & ?)]
  | |- context [set_prev ?h ?p ?v] =>
      let h' := fresh "h" in let E := fresh "E" in
      destruct (set_prev_ok h p v) as [h' E]; [|rewrite E; simpl;
        apply set_prev_inv in E as (? & ? & ? & ?)]
  end.

(** [fields]: rewrite with the descriptions of all heaps in the context. *)
Ltac fields :=
  repeat match goal with
  | H : forall q, get_next ?h q = _ |- context [get_next ?h _] => rewrite H
  | H : forall q, get_prev ?h q = _ |- context [get_prev ?h _] => rewrite H
  end.

(** [nodes]: a goal on the domain of a heap, or on a cell that no write of the
    context touches, by going back through the writes. *)
Ltac nodes :=
  repeat match goal with
  | H : forall q, is_Some (?h !! q) <-> _ |- context [is_Some (?h !! _)] => rewrite H
  | H : forall q, q <> _ -> ?h !! q = _ |- ?h !! _ = _ => rewrite H by congruence
  end; first [done | tauto].

Lemma easy_list_init_fields h p :
  is_Some (h !! p) ->
  exists h', easy_list_init h p = Some h' /\
    (forall q, get_next h' q = if decide (q = p) then Some p else get_next h q) /\
    (forall q, get_prev h' q = if decide (q = p) then Some p else get_prev h q) /\
    (forall q, is_Some (h' !! q) <-> is_Some (h !! q)) /\
    (forall q, q <> p -> h' !! q = h !! q).
Proof.
  intros Hp. unfold easy_list_init.
  run_set; [nodes|]. run_set; [nodes|].
  eexists; split; [done|]. split_and!; intros q; fields; intros; nodes.
Qed.

Lemma list_add_fields h x a b :
  is_Some (h !! x) -> is_Some (h !! a) -> is_Some (h !! b) -> x <> a -> x <> b ->
  exists h', __easy_list_add h x a b = Some h' /\
    (forall q, get_next h' q =
       if decide (q = a) then Some x else if decide (q = x) then Some b else get_next h q) /\
    (forall q, get_prev h' q =
       if decide (q = x) then Some a else if decide (q = b) then Some x else get_prev h q) /\
    (forall q, is_Some (h' !! q) <-> is_Some (h !! q)) /\
    (forall q, q <> x -> q <> a -> q <> b -> h' !! q = h !! q).
Proof.
  intros Hx Ha Hb Hxa Hxb. unfold __easy_list_add.
  do 4 (run_set; [nodes|]).
  eexists; split; [done|]. split_and!; intros q; fields; intros; nodes.
Qed.

Lemma list_del_fields h x a b :
  get_prev h x = Some a -> get_next h x = Some b ->
  is_Some (h !! a) -> is_Some (h !! b) ->
  exists h', easy_list_del h x = Some h' /\
    (forall q, get_next h' q =
       if decide (q = x) then Some x else if decide (q = a) then Some b else get_next h q) /\
    (forall q, get_prev h' q =
       if decide (q = x) then Some x else if decide (q = b) then Some a else get_prev h q) /\
    (forall q, is_Some (h' !! q) <-> is_Some (h !! q)) /\
    (forall q, q <> x -> q <> a -> q <> b -> h' !! q = h !! q).
Proof.
  intros Hp Hn Ha Hb. assert (is_Some (h !! x)) by eauto with easy.
  unfold easy_list_del, __easy_list_del. rewrite Hp, Hn. simpl.
  do 2 (run_set; [nodes|]).
  match goal with |- context [easy_list_init ?h x] =>
    destruct (easy_list_init_fields h x) as (h2 & -> & ? & ? & ? & ?); [nodes|] end.
  eexists; split; [done|]. split_and!; intros q; fields; intros; nodes.
Qed.

(** ** Linked segments *)

Lemma linked_cons2 h a b l :
  linked h (a :: b :: l) <-> get_next h a = Some b /\ get_prev h b = Some a /\ linked h (b :: l).
Proof. done. Qed.

Lemma linked_app h xs a ys :
  linked h (xs ++ a :: ys) <-> linked h (xs ++ [a]) /\ linked h (a :: ys).
Proof.
  induction xs as [|x xs IH]; [simpl; tauto|].
  destruct xs as [|y xs]; [simpl; tauto|].
  cbn [app] in *. rewrite !linked_cons2, IH. tauto.
Qed.

(** A segment survives writes that miss the [next] fields of all its nodes but
    the last and the [prev] fields of all but the first. *)
Lemma linked_ext h h' xs z :
  (forall q, q ∈ xs -> get_next h' q = get_next h q) ->
  (forall q, q ∈ tail (xs ++ [z]) -> get_prev h' q = get_prev h q) ->
  linked h (xs ++ [z]) -> linked h' (xs ++ [z]).
Proof.
  induction xs as [|x xs IH]; [done|]. intros Hn Hp.
  destruct xs as [|y xs]; cbn [app] in *; rewrite !linked_cons2;
    intros (Hx & Hy & Hl); (split; [|split]).
  1,4: by rewrite Hn by (by left).
  1,3: by rewrite Hp by (by left).
  - done.
  - apply IH; [set_solver|simpl in *; set_solver|done].
Qed.

Lemma cons_eq_snoc (x : addr) l : exists pre a, x :: l = pre ++ [a].
Proof.
  destruct (exists_last (l := x :: l)) as (pre & a & E); [done|]. eauto.
Qed.

Lemma snoc_eq_cons (l : list addr) (z : addr) : exists b post, l ++ [z] = b :: post.
Proof. destruct l; simpl; eauto. Qed.

(** The cycle of [is_list], cut between the [l1] and the [l2] part. *)
Lemma is_list_cut h head l1 l2 pre a b post :
  head :: l1 = pre ++ [a] -> l2 ++ [head] = b :: post ->
  is_list h head (l1 ++ l2) <->
  NoDup (head :: l1 ++ l2) /\ linked h (head :: l1) /\
  get_next h a = Some b /\ get_prev h b = Some a /\ linked h (l2 ++ [head]).
Proof.
  intros E1 E2. unfold is_list.
  replace (head :: (l1 ++ l2) ++ [head]) with (pre ++ a :: b :: post).
  2: { transitivity ((head :: l1) ++ (l2 ++ [head])).
       - by rewrite E1, E2, <- app_assoc.
       - simpl. by rewrite app_assoc. }
  rewrite linked_app, linked_cons2, E1, E2. tauto.
Qed.

Section cut.
Context (h h' : heap) (head x a b : addr) (l1 l2 pre post : list addr).
Hypothesis (E1 : head :: l1 = pre ++ [a]) (E2 : l2 ++ [head] = b :: post).

Lemma cut_facts :
  NoDup (head :: l1 ++ l2) -> a ∉ pre /\ a ∉ l2 /\ b ∉ l1 /\ b ∉ post.
Proof.
  intros Hnd.
  assert (a ∈ head :: l1) as Ha by (rewrite E1; set_solver).
  assert (b ∈ l2 ++ [head]) as Hb by (rewrite E2; set_solver).
  apply list.NoDup_cons in Hnd as [Hh Hnd]. apply list.NoDup_app in Hnd as (Hn1 & Hd & Hn2).
  assert (NoDup (pre ++ [a])) as Hpre.
  { rewrite <- E1. apply list.NoDup_cons. set_solver. }
  assert (NoDup (b :: post)) as Hpost.
  { rewrite <- E2. apply list.NoDup_app. split; [done|]. split; [set_solver|].
    apply NoDup_singleton. }
  apply list.NoDup_app in Hpre as (_ & Hpre & _). apply list.NoDup_cons in Hpost as [Hpost _].
  set_solver.
Qed.

(** Both halves of the cycle survive writes to the cells at the cut and to
    nodes outside the cycle. *)
Lemma cut_halves :
  NoDup (head :: l1 ++ l2) -> x ∉ head :: l1 ++ l2 ->
  (forall q, q <> a -> q <> x -> get_next h' q = get_next h q) ->
  (forall q, q <> b -> q <> x -> get_prev h' q = get_prev h q) ->
  linked h (head :: l1) -> linked h (l2 ++ [head]) ->
  linked h' (head :: l1) /\ linked h' (l2 ++ [head]).
Proof.
  intros Hnd Hx Hn Hp L1 L2. destruct (cut_facts Hnd) as (Fa & Fa2 & Fb & Fb2).
  assert (x ∉ pre) by (assert (x ∉ pre ++ [a]) by (rewrite <- E1; set_solver); set_solver).
  assert (x ∉ post) by (assert (x ∉ b :: post) by (rewrite <- E2; set_solver); set_solver).
  split.
  - rewrite E1 in L1 |- *. apply (linked_ext h); [| |done].
    + intros q Hq. apply Hn; intros ->; set_solver.
    + intros q Hq. rewrite <- E1 in Hq. simpl in Hq. apply Hp; intros ->; set_solver.
  - apply (linked_ext h); [| |done].
    + intros q Hq. apply Hn; intros ->; set_solver.
    + intros q Hq. rewrite E2 in Hq. simpl in Hq. apply Hp; intros ->; set_solver.
Qed.

Lemma is_list_insert :
  is_list h head (l1 ++ l2) -> x ∉ head :: l1 ++ l2 ->
  (forall q, get_next h' q =
     if decide (q = a) then Some x else if decide (q = x) then Some b else get_next h q) ->
  (forall q, get_prev h' q =
     if decide (q = x) then Some a else if decide (q = b) then Some x else get_prev h q) ->
  is_list h' head (l1 ++ x :: l2).
Proof.
  intros Hl Hx Hn Hp. apply (is_list_cut h head l1 l2 pre a b post E1 E2) in Hl
    as (Hnd & L1 & Hab & Hba & L2).
  assert (a ∈ head :: l1) as Ha by (rewrite E1; set_solver).
  assert (b ∈ l2 ++ [head]) as Hb by (rewrite E2; set_solver).
  destruct cut_halves as [L1' L2']; try done.
  { intros q ??. by rewrite Hn, !decide_False. }
  { intros q ??. by rewrite Hp, !decide_False. }
  apply (is_list_cut h' head l1 (x :: l2) pre a x (b :: post) E1);
    [simpl; by rewrite E2|].
  split_and!; [|done|by rewrite Hn, decide_True|by rewrite Hp, decide_True|].
  - rewrite app_comm_cons, <- Permutation_middle. by apply list.NoDup_cons.
  - cbn [app]. rewrite E2 in L2' |- *. rewrite linked_cons2. split_and!; [| |done].
    + rewrite Hn, decide_False, decide_True; [done..|]. intros ->. set_solver.
    + rewrite Hp, decide_False, decide_True; [done..|]. intros ->. set_solver.
Qed.

Lemma is_list_remove :
  is_list h head (l1 ++ x :: l2) ->
  (forall q, get_next h' q =
     if decide (q = x) then Some x else if decide (q = a) then Some b else get_next h q) ->
  (forall q, get_prev h' q =
     if decide (q = x) then Some x else if decide (q = b) then Some a else get_prev h q) ->
  is_list h' head (l1 ++ l2) /\ is_list h' x [].
Proof.
  intros Hl Hn Hp.
  apply (is_list_cut h head l1 (x :: l2) pre a x (b :: post) E1) in Hl
    as (Hnd & L1 & Hax & Hxa & L2); [|simpl; by rewrite E2].
  cbn [app] in L2. rewrite E2, linked_cons2, <- E2 in L2. destruct L2 as (Hxb & Hbx & L2).
  assert (a ∈ head :: l1) as Ha by (rewrite E1; set_solver).
  assert (b ∈ l2 ++ [head]) as Hb by (rewrite E2; set_solver).
  rewrite app_comm_cons, <- Permutation_middle in Hnd. apply list.NoDup_cons in Hnd as [Hx Hnd].
  destruct cut_halves as [L1' L2']; try done.
  { intros q ??. by rewrite Hn, !decide_False. }
  { intros q ??. by rewrite Hp, !decide_False. }
  split.
  - apply (is_list_cut h' head l1 l2 pre a b post E1 E2). split_and!; [done..| | |done].
    + rewrite Hn, decide_False, decide_True; [done..|]. intros ->. set_solver.
    + rewrite Hp, decide_False, decide_True; [done..|]. intros ->. set_solver.
  - split; [apply NoDup_singleton|]. simpl. rewrite Hn, Hp, !decide_True; done.
Qed.
End cut.

(** ** The primitives on represented lists *)

Lemma linked_node h xs z q : linked h (xs ++ [z]) -> q ∈ xs -> is_Some (h !! q).
Proof.
  induction xs as [|x xs IH]; [set_solver|]. intros Hl Hq.
  destruct xs as [|y xs]; cbn [app] in *; rewrite linked_cons2 in Hl;
    destruct Hl as (Hn & _ & Hl); apply elem_of_cons in Hq as [->|Hq]; eauto with easy.
Qed.

Lemma is_list_node h head l q : is_list h head l -> q ∈ head :: l -> is_Some (h !! q).
Proof. intros [_ Hl]. rewrite app_comm_cons in Hl. by eapply linked_node. Qed.

Lemma is_list_init h p :
  is_Some (h !! p) -> exists h', easy_list_init h p = Some h' /\ is_list h' p [].
Proof.
  intros Hp. destruct (easy_list_init_fields h p Hp) as (h' & -> & Hn & Hpr & _).
  eexists; split; [done|]. split; [apply NoDup_singleton|].
  simpl. rewrite Hn, Hpr, !decide_True; done.
Qed.

Lemma list_add_between h head x l1 l2 pre a b post :
  head :: l1 = pre ++ [a] -> l2 ++ [head] = b :: post ->
  is_list h head (l1 ++ l2) -> x ∉ head :: l1 ++ l2 -> is_Some (h !! x) ->
  exists h', __easy_list_add h x a b = Some h' /\ is_list h' head (l1 ++ x :: l2) /\
    (forall q, is_Some (h' !! q) <-> is_Some (h !! q)) /\
    (forall q, q ∉ x :: head :: l1 ++ l2 -> h' !! q = h !! q).
Proof.
  intros E1 E2 Hl Hx Hsx.
  assert (a ∈ head :: l1) as Ha by (rewrite E1; set_solver).
  assert (b ∈ l2 ++ [head]) as Hb by (rewrite E2; set_solver).
  destruct (list_add_fields h x a b) as (h' & E & Hn & Hp & Hs & Hf).
  1,4,5: try intros ->; set_solver.
  1,2: eapply is_list_node; [done|set_solver].
  exists h'. split_and!; [done| |done|].
  - by eapply is_list_insert.
  - intros q Hq. apply Hf; intros ->; set_solver.
Qed.

Lemma add_head_spec h head x l :
  is_list h head l -> x ∉ head :: l -> is_Some (h !! x) ->
  exists h', easy_list_add_head h x head = Some h' /\ is_list h' head (x :: l) /\
    (forall q, is_Some (h' !! q) <-> is_Some (h !! q)) /\
    (forall q, q ∉ x :: head :: l -> h' !! q = h !! q).
Proof.
  intros Hl Hx Hsx. destruct (snoc_eq_cons l head) as (b & post & E2).
  assert (get_next h head = Some b) as Hb.
  { by apply (is_list_cut h head [] l [] head b post eq_refl E2) in Hl as (_ & _ & ? & _). }
  unfold easy_list_add_head. rewrite Hb. simpl.
  by apply (list_add_between h head x [] l [] head b post eq_refl E2).
Qed.

Lemma add_tail_spec h head x l :
  is_list h head l -> x ∉ head :: l -> is_Some (h !! x) ->
  exists h', easy_list_add_tail h x head = Some h' /\ is_list h' head (l ++ [x]) /\
    (forall q, is_Some (h' !! q) <-> is_Some (h !! q)) /\
    (forall q, q ∉ x :: head :: l -> h' !! q = h !! q).
Proof.
  intros Hl Hx Hsx. destruct (cons_eq_snoc head l) as (pre & a & E1).
  rewrite <- (app_nil_r l) in Hl, Hx.
  assert (get_prev h head = Some a) as Hb.
  { by apply (is_list_cut h head l [] pre a head [] E1 eq_refl) in Hl as (_ & _ & _ & ? & _). }
  unfold easy_list_add_tail. rewrite Hb. simpl.
  destruct (list_add_between h head x l [] pre a head [] E1 eq_refl) as (h' & ? & ? & ? & Hf);
    [done..|].
  exists h'. rewrite app_nil_r in Hf. done.
Qed.

Lemma del_spec h head x l1 l2 :
  is_list h head (l1 ++ x :: l2) ->
  exists h', easy_list_del h x = Some h' /\ is_list h' head (l1 ++ l2) /\ is_list h' x [] /\
    (forall q, is_Some (h' !! q) <-> is_Some (h !! q)) /\
    (forall q, q ∉ x :: head :: l1 ++ l2 -> h' !! q = h !! q).
Proof.
  intros Hl. destruct (cons_eq_snoc head l1) as (pre & a & E1).
  destruct (snoc_eq_cons l2 head) as (b & post & E2).
  assert (a ∈ head :: l1) as Ha by (rewrite E1; set_solver).
  assert (b ∈ l2 ++ [head]) as Hb by (rewrite E2; set_solver).
  pose proof Hl as Hc. apply (is_list_cut h head l1 (x :: l2) pre a x (b :: post) E1) in Hc
    as (_ & _ & _ & Hxa & L2); [|simpl; by rewrite E2].
  cbn [app] in L2. rewrite E2, linked_cons2 in L2. destruct L2 as (Hxb & _ & _).
  destruct (list_del_fields h x a b) as (h' & E & Hn & Hp & Hs & Hf); [done..| | |].
  1,2: eapply is_list_node; [done|set_solver].
  destruct (is_list_remove h h' head x a b l1 l2 pre post E1 E2 Hl Hn Hp).
  exists h'. split_and!; [done..|]. intros q Hq. apply Hf; intros ->; set_solver.
Qed.

Lemma empty_spec h head l :
  is_list h head l -> easy_list_empty h head = Some (bool_decide (l = [])).
Proof.
  intros [Hnd Hl]. unfold easy_list_empty. destruct l as [|x l].
  - simpl in Hl. destruct Hl as (-> & _). simpl. by rewrite !bool_decide_true.
  - cbn [app] in Hl. rewrite linked_cons2 in Hl. destruct Hl as (-> & _). simpl.
    rewrite !bool_decide_false; [done|]. intros ->.
    apply list.NoDup_cons in Hnd. set_solver.
Qed.

(** ** Moving and joining whole lists *)

(** A represented non-empty list, taken apart into its first and last node. *)
Lemma is_list_ends h head l :
  is_list h head l -> l <> [] ->
  exists f m z m', l = f :: m /\ l = m' ++ [z] /\ NoDup (head :: l) /\ linked h l /\
    get_next h head = Some f /\ get_prev h head = Some z.
Proof.
  intros [Hnd Hl] Hne. destruct l as [|f m]; [done|].
  destruct (cons_eq_snoc f m) as (m' & z & E).
  assert (linked h ((head :: m') ++ z :: [head])) as Hl'.
  { replace ((head :: m') ++ z :: [head]) with (head :: (m' ++ [z]) ++ [head])
      by (simpl; by rewrite <- app_assoc). by rewrite <- E. }
  rewrite linked_app in Hl'. destruct Hl' as [L1 (_ & Hz & _)].
  rewrite <- app_comm_cons, <- E, linked_cons2 in L1.
  exists f, m, z, m'. naive_solver.
Qed.

(** Closing a segment [l] into a ring through [head]. *)
Lemma is_list_close h h' head f m z m' l :
  l = f :: m -> l = m' ++ [z] -> NoDup (head :: l) -> linked h l ->
  (forall q, q ∈ m' -> get_next h' q = get_next h q) ->
  (forall q, q ∈ m -> get_prev h' q = get_prev h q) ->
  get_next h' head = Some f -> get_prev h' f = Some head ->
  get_next h' z = Some head -> get_prev h' head = Some z ->
  is_list h' head l.
Proof.
  intros E1 E2 Hnd Hl Hn Hp Hhf Hfh Hzh Hhz. split; [done|].
  rewrite E1 in *. cbn [app]. rewrite linked_cons2. split_and!; [done..|].
  rewrite app_comm_cons, E2, <- app_assoc. cbn [app]. apply linked_app.
  split; [|simpl; done]. apply (linked_ext h); [done| |by rewrite <- E2].
  rewrite <- E2. done.
Qed.

(** [deq]: resolve the address comparisons the context decides. *)
Ltac deq :=
  repeat first [rewrite decide_True by congruence | rewrite decide_False by congruence].

Lemma ends_facts (head f : addr) m z m' l :
  l = f :: m -> l = m' ++ [z] -> NoDup (head :: l) ->
  (forall q, q ∈ m' -> q ∈ l /\ q <> head /\ q <> z) /\
  (forall q, q ∈ m -> q ∈ l /\ q <> head /\ q <> f) /\ f <> head /\ z <> head.
Proof.
  intros E1 E2 Hnd. apply list.NoDup_cons in Hnd as [Hh Hnd].
  assert (f ∈ l /\ z ∈ l) as [Hfl Hzl] by (split; [rewrite E1|rewrite E2]; set_solver).
  split_and!; [| |set_solver..].
  - rewrite E2 in Hnd. apply list.NoDup_app in Hnd as (_ & Hd & _). intros q Hq.
    assert (q ∈ l) by (rewrite E2; set_solver). set_solver.
  - rewrite E1 in Hnd. apply list.NoDup_cons in Hnd as [Hd _]. intros q Hq.
    assert (q ∈ l) by (rewrite E1; set_solver). set_solver.
Qed.

Lemma movelist_spec h list new_list l :
  is_list h list l -> new_list ∉ list :: l -> is_Some (h !! new_list) ->
  exists h', easy_list_movelist h list new_list = Some h' /\
    is_list h' new_list l /\ is_list h' list [].
Proof.
  intros Hl Hnew Hs. unfold easy_list_movelist. rewrite (empty_spec _ _ _ Hl). simpl.
  destruct (decide (l = [])) as [->|Hne].
  - rewrite bool_decide_true by done.
    destruct (easy_list_init_fields h new_list Hs) as (h' & -> & Hn & Hp & _).
    destruct Hl as [_ (Hln & Hlp & _)].
    exists h'. split_and!; [done|split..]; try apply NoDup_singleton;
      simpl; rewrite Hn, Hp; [by rewrite !decide_True|].
    rewrite !decide_False by set_solver. done.
  - rewrite bool_decide_false by done.
    destruct (is_list_ends _ _ _ Hl Hne) as (f & m & z & m' & E1 & E2 & Hnd & Hlk & Hf & Hz).
    assert (f ∈ l /\ z ∈ l) as [Hfl Hzl] by (split; [rewrite E1|rewrite E2]; set_solver).
    assert (is_Some (h !! list)) by eauto with easy.
    assert (is_Some (h !! f)) by (eapply is_list_node; [done|set_solver]).
    assert (is_Some (h !! z)) by (eapply is_list_node; [done|set_solver]).
    assert (NoDup (new_list :: l)).
    { apply list.NoDup_cons in Hnd. apply list.NoDup_cons. set_solver. }
    destruct (ends_facts list f m z m' l E1 E2 Hnd) as (Hm' & Hm & Hlf & Hlz).
    assert (forall q, q ∈ l -> q <> new_list) as Hnl by set_solver.
    assert (new_list <> list) by set_solver.
    pose proof (Hnl f Hfl). pose proof (Hnl z Hzl). clear Hnew Hne Hl.
    rewrite Hz. simpl. run_set; [nodes|]. fields. rewrite Hf. simpl. run_set; [nodes|].
    fields. rewrite decide_True by done. simpl. run_set; [nodes|].
    fields. rewrite decide_False, decide_True by congruence. simpl. run_set; [nodes|].
    match goal with |- context [easy_list_init ?h list] =>
      destruct (easy_list_init_fields h list) as (h5 & -> & ? & ? & ? & ?); [nodes|] end.
    exists h5. split; [done|]. split.
    + eapply (is_list_close h); [exact E1|exact E2|done..| | | | | |]; try intros q Hq;
        try destruct (Hm' q Hq) as (? & ? & ?); try destruct (Hm q Hq) as (? & ? & ?);
        try pose proof (Hnl q ltac:(done)); fields; deq; done.
    + split; [apply NoDup_singleton|]. simpl. fields. by rewrite !decide_True.
Qed.

(** Splicing the segment [l2] (first node [f], last node [z]) in front of the
    head of [l] (whose last node is [a]). *)
Lemma is_list_splice h h' head l l2 pre a f m z m' :
  head :: l = pre ++ [a] -> l2 = f :: m -> l2 = m' ++ [z] ->
  NoDup (head :: l ++ l2) -> linked h (head :: l) -> linked h l2 ->
  (forall q, q <> a -> q <> z -> get_next h' q = get_next h q) ->
  (forall q, q <> f -> q <> head -> get_prev h' q = get_prev h q) ->
  get_next h' a = Some f -> get_prev h' f = Some a ->
  get_next h' z = Some head -> get_prev h' head = Some z ->
  is_list h' head (l ++ l2).
Proof.
  intros Ea E1 E2 Hnd L1 L2 Hn Hp Haf Hfa Hzh Hhz. split; [done|].
  assert (NoDup (head :: l2)) as Hnd2.
  { apply list.NoDup_cons in Hnd as [Hh Hnd]. apply list.NoDup_app in Hnd as (_ & _ & ?).
    apply list.NoDup_cons. set_solver. }
  destruct (ends_facts head f m z m' l2 E1 E2 Hnd2) as (Hm' & Hm & Hhf & _).
  assert (z ∈ l2) as Hzl by (rewrite E2; set_solver).
  assert (f ∈ l2) as Hfl by (rewrite E1; set_solver).
  assert (a ∈ head :: l) as Hal by (rewrite Ea; set_solver).
  rewrite app_comm_cons in Hnd. apply list.NoDup_app in Hnd as (Hnd1 & Hd & _).
  assert (linked h' (pre ++ [a])).
  { rewrite Ea in L1. apply (linked_ext h); [| |done]; intros q Hq.
    - assert (q ∈ head :: l) by (rewrite Ea; set_solver). rewrite Ea in Hnd1.
      apply list.NoDup_app in Hnd1 as (_ & Hda & _). apply Hn; set_solver.
    - rewrite <- Ea in Hq. simpl in Hq. apply list.NoDup_cons in Hnd1 as [Hh _].
      apply Hp; set_solver. }
  assert (linked h' (m' ++ [z])).
  { rewrite E2 in L2. apply (linked_ext h); [| |done]; intros q Hq.
    - destruct (Hm' q Hq) as (? & ? & ?). apply Hn; set_solver.
    - rewrite <- E2, E1 in Hq. simpl in Hq. destruct (Hm q Hq) as (? & ? & ?).
      apply Hp; set_solver. }
  replace (head :: (l ++ l2) ++ [head]) with (pre ++ a :: f :: m ++ [head]).
  2: { transitivity ((pre ++ [a]) ++ (f :: m) ++ [head]); [by rewrite <- app_assoc|].
       rewrite <- Ea, <- E1. simpl. by rewrite app_assoc. }
  apply linked_app. split; [done|]. rewrite linked_cons2. split_and!; [done..|].
  rewrite app_comm_cons, <- E1, E2, <- app_assoc. cbn [app]. by apply linked_app.
Qed.

Lemma join_spec h list head l l2 :
  is_list h head l -> is_list h list l2 ->
  (forall q, q ∈ list :: l2 -> q ∉ head :: l) ->
  exists h', easy_list_join h list head = Some h' /\ is_list h' head (l ++ l2).
Proof.
  intros Hl Hl2 Hd. unfold easy_list_join. rewrite (empty_spec _ _ _ Hl2). simpl.
  destruct (decide (l2 = [])) as [->|Hne].
  { rewrite bool_decide_true, app_nil_r by done. eauto. }
  rewrite bool_decide_false by done.
  destruct (is_list_ends _ _ _ Hl2 Hne) as (f & m & z & m' & E1 & E2 & Hnd2 & Hlk & Hf & Hz).
  destruct (cons_eq_snoc head l) as (pre & a & Ea).
  pose proof Hl as Hc. rewrite <- (app_nil_r l) in Hc.
  apply (is_list_cut h head l [] pre a head [] Ea eq_refl) in Hc as (Hnd & L1 & _ & Ha & _).
  rewrite app_nil_r in Hnd.
  assert (f ∈ l2 /\ z ∈ l2) as [Hfl Hzl] by (split; [rewrite E1|rewrite E2]; set_solver).
  assert (is_Some (h !! f)) by (eapply is_list_node; [exact Hl2|set_solver]).
  assert (is_Some (h !! z)) by (eapply is_list_node; [exact Hl2|set_solver]).
  assert (a ∈ head :: l) as Hal by (rewrite Ea; set_solver).
  assert (is_Some (h !! a)) by (eapply is_list_node; [exact Hl|done]).
  assert (is_Some (h !! head)) by (eapply is_list_node; [exact Hl|set_solver]).
  assert (f <> head) by set_solver. assert (a <> z) by set_solver.
  assert (NoDup (head :: l ++ l2)).
  { rewrite app_comm_cons. apply list.NoDup_app. apply list.NoDup_cons in Hnd2 as [_ Hnd2].
    split_and!; [done|set_solver|done]. }
  clear Hd Hl Hl2.
  rewrite Hf, Hz, Ha. simpl. do 4 (run_set; [nodes|]).
  eexists; split; [done|].
  eapply (is_list_splice h); [exact Ea|exact E1|exact E2|done..| | | | | |];
    intros; fields; deq; done.
Qed.

Lemma is_list_prefix h head p l q post :
  linked h (p :: l ++ q :: post) -> head ∉ p :: l ->
  forall fuel tl, walk fuel h head q = Some tl ->
  walk (S (length l) + fuel) h head p = Some (p :: l ++ tl).
Proof.
  revert p. induction l as [|x l IH]; intros p Hl Hh fuel tl Hw.
  - cbn [app] in Hl. rewrite linked_cons2 in Hl. destruct Hl as (Hn & _ & _).
    simpl. rewrite bool_decide_false by set_solver. by rewrite Hn; simpl; rewrite Hw.
  - cbn [app] in Hl. rewrite linked_cons2 in Hl. destruct Hl as (Hn & _ & Hl).
    cbn [length Nat.add walk]. rewrite bool_decide_false by set_solver.
    rewrite Hn. simpl. specialize (IH x Hl ltac:(set_solver) fuel tl Hw).
    simpl in IH. by rewrite IH.
Qed.

(** The forward traversal of a represented list visits its nodes in order, and
    one step per node is enough. *)
Lemma for_each_spec h head l :
  is_list h head l -> easy_list_for_each_entry (length l) h head = Some l.
Proof.
  intros [Hnd Hl]. unfold easy_list_for_each_entry. destruct l as [|x l].
  - simpl in Hl. destruct Hl as (-> & _). simpl. by rewrite bool_decide_true.
  - cbn [app] in Hl. rewrite linked_cons2 in Hl. destruct Hl as (-> & _ & Hl). simpl mbind.
    apply list.NoDup_cons in Hnd as [Hh _].
    assert (walk 0 h head head = Some []) as Hw by (simpl; by rewrite bool_decide_true).
    pose proof (is_list_prefix h head x l head [] Hl Hh 0 [] Hw) as E.
    rewrite Nat.add_0_r, app_nil_r in E. exact E.
Qed.

(** ** Refinement: runs of primitives against sequence operations *)

Inductive list_op :=
| OpAddHead (x : addr)
| OpAddTail (x : addr)
| OpDel (x : addr).

Definition run_op (h : heap) (head : addr) (o : list_op) : option heap :=
  match o with
  | OpAddHead x => easy_list_add_head h x head
  | OpAddTail x => easy_list_add_tail h x head
  | OpDel x => easy_list_del h x
  end.

Definition apply_op (l : list addr) (o : list_op) : list addr :=
  match o with
  | OpAddHead x => x :: l
  | OpAddTail x => l ++ [x]
  | OpDel x => filter (fun y => y <> x) l
  end.

(** What the callers owe: an added node is allocated and on no list through
    [head], a deleted one is on the list. *)
Definition op_ok (h : heap) (head : addr) (l : list addr) (o : list_op) : bool :=
  match o with
  | OpAddHead x | OpAddTail x => bool_decide (x ∉ head :: l) && bool_decide (is_Some (h !! x))
  | OpDel x => bool_decide (x ∈ l)
  end.

Fixpoint run_ops (h : heap) (head : addr) (os : list list_op) : option heap :=
  match os with
  | [] => Some h
  | o :: os => h ← run_op h head o; run_ops h head os
  end.

Fixpoint ops_ok (h : heap) (head : addr) (l : list addr) (os : list list_op) : bool :=
  match os with
  | [] => true
  | o :: os => op_ok h head l o && ops_ok h head (apply_op l o) os
  end.

Lemma run_op_refines h head l o :
  is_list h head l -> op_ok h head l o = true ->
  exists h', run_op h head o = Some h' /\ is_list h' head (apply_op l o) /\
    (forall q, is_Some (h' !! q) <-> is_Some (h !! q)).
Proof.
  intros Hl Hok. destruct o as [x|x|x]; simpl in Hok.
  1,2: apply andb_true_iff in Hok as [Hx Hs]; apply bool_decide_eq_true in Hx, Hs.
  - destruct (add_head_spec h head x l) as (h' & ? & ? & ? & ?); eauto.
  - destruct (add_tail_spec h head x l) as (h' & ? & ? & ? & ?); eauto.
  - apply bool_decide_eq_true in Hok. apply list_elem_of_split in Hok as (l1 & l2 & ->).
    destruct (del_spec h head x l1 l2 Hl) as (h' & E & Hl' & _ & Hs & _).
    exists h'. split_and!; [done| |done]. simpl.
    destruct Hl as [Hnd _]. apply list.NoDup_cons in Hnd as [_ Hnd].
    by rewrite filter_ne_split.
Qed.

(** C38 (refinement).  Any sequence of [easy_list_add_head], [easy_list_add_tail]
    and [easy_list_del] calls that respects the callers' obligations runs
    without touching an unallocated node, and the circular list it leaves
    through [head] is, node for node and in both directions, the sequence that
    prepending, appending and removing produce; walking it with
    [easy_list_for_each_entry] visits exactly those nodes. *)
Theorem easy_list_ops_refine h head l os :
  is_list h head l -> ops_ok h head l os = true ->
  exists h', run_ops h head os = Some h' /\
    is_list h' head (foldl apply_op l os) /\
    easy_list_for_each_entry (length (foldl apply_op l os)) h' head
      = Some (foldl apply_op l os).
Proof.
  revert h l. induction os as [|o os IH]; intros h l Hl Hok; simpl in *.
  { eauto using for_each_spec. }
  apply andb_true_iff in Hok as [Ho Hok].
  destruct (run_op_refines h head l o Hl Ho) as (h1 & E & Hl1 & Hs). rewrite E. simpl.
  apply IH; [done|]. clear -Hok Hs. revert Hok. generalize (apply_op l o). clear l.
  induction os as [|o' os IH]; intros l; simpl; [done|].
  rewrite !andb_true_iff. intros [Ho' Hok]. split; [|by apply IH].
  destruct o' as [x|x|x]; simpl in *; try done;
    apply andb_true_iff in Ho' as [? Hx]; apply andb_true_iff; split; [done| |done|];
    apply bool_decide_eq_true in Hx; apply bool_decide_eq_true; by apply Hs.
Qed.

Lemma easy_list_ops_refine_witness :
  exists h', run_ops {[1 := Node 1 1; 2 := Node 0 0; 3 := Node 0 0; 4 := Node 0 0]} 1
      [OpAddTail 2; OpAddHead 3; OpAddTail 4; OpDel 2] = Some h' /\
    is_list h' 1 [3; 4] /\ easy_list_for_each_entry 2 h' 1 = Some [3; 4].
Proof.
  apply (easy_list_ops_refine _ 1 []).
  - split; [apply NoDup_singleton|]. done.
  - vm_compute. reflexivity.
Defined.

(** [easy_list_movelist] hands the whole list to the new head
    and leaves the old head empty; [easy_list_join] appends one list to
    another: the two bulk operations the wake-up queues use. *)
Theorem easy_list_bulk_refine h list head l l2 :
  is_list h head l -> is_list h list l2 ->
  (forall q, q ∈ list :: l2 -> q ∉ head :: l) ->
  (exists h', easy_list_join h list head = Some h' /\ is_list h' head (l ++ l2)) /\
  (l = [] -> exists h', easy_list_movelist h list head = Some h' /\
     is_list h' head l2 /\ is_list h' list []).
Proof.
  intros Hl Hl2 Hd. split; [by apply join_spec|]. intros ->.
  apply movelist_spec; [done| |].
  { intros Hh. apply (Hd head Hh). set_solver. }
  eapply is_list_node; [exact Hl|set_solver].
Qed.

Definition two_lists : heap :=
  {[1 := Node 2 2; 2 := Node 1 1; 5 := Node 6 7; 6 := Node 7 5; 7 := Node 5 6]}.

Lemma easy_list_bulk_refine_witness :
  exists h', easy_list_join two_lists 5 1 = Some h' /\ is_list h' 1 [2; 6; 7].
Proof.
  apply (easy_list_bulk_refine two_lists 5 1 [2] [6; 7]).
  - split; [apply (bool_decide_unpack _); vm_compute; exact I|]. vm_compute. done.
  - split; [apply (bool_decide_unpack _); vm_compute; exact I|]. vm_compute. done.
  - set_solver.
Defined.

End EasyList.
