(* ===== verification/Tiling.v ===== *)
(** * Tilings by naturally aligned power-of-two blocks

    The abstract state of a buddy allocator: a finite map from block start to
    its order and a payload, whose blocks are naturally aligned, pairwise
    disjoint and cover [0, n).  Splitting a block, merging two buddies,
    changing a payload and growing the range preserve tilings, and the buddy of
    a block always starts a block that is not larger. *)

From Stdlib Require Import ZArith Lia.
From stdpp Require Import base gmap list numbers option.
From S2P Require Import Prelude.

Local Open Scope Z_scope.

(** [2^k] for a block order. *)
Definition pow2 (k : nat) : Z := 2 ^ Z.of_nat k.

Record tiling {U} (mx : nat) (n : Z) (B : gmap Z (nat * U)) : Prop := {
  tl_block : forall i k u, B !! i = Some (k, u) ->
    (k <= mx)%nat /\ (pow2 k | i) /\ 0 <= i /\ i + pow2 k <= n;
  tl_disj : forall i j k k' u u',
    B !! i = Some (k, u) -> B !! j = Some (k', u') -> i < j -> i + pow2 k <= j;
  tl_cover : forall p, 0 <= p < n ->
    exists i k u, B !! i = Some (k, u) /\ i <= p < i + pow2 k }.

Definition buddy (i : Z) (k : nat) : Z := Z.lxor i (pow2 k).
Definition combined (i : Z) (k : nat) : Z := Z.land i (Z.lnot (pow2 k)).

Lemma pow2_pos k : 0 < pow2 k.
Proof. unfold pow2. lia. Qed.

Lemma pow2_S k : pow2 (S k) = 2 * pow2 k.
Proof. unfold pow2. rewrite Nat2Z.inj_succ, Z.pow_succ_r by lia. done. Qed.

Lemma pow2_divide a b : (a <= b)%nat -> (pow2 a | pow2 b).
Proof.
  intros H. unfold pow2. exists (2 ^ (Z.of_nat b - Z.of_nat a)).
  rewrite <- Z.pow_add_r by lia. f_equal. lia.
Qed.

Lemma pow2_le a b : (a <= b)%nat -> pow2 a <= pow2 b.
Proof. intros. unfold pow2. apply Z.pow_le_mono_r; lia. Qed.

Lemma divide_pow2_S i k : (pow2 (S k) | i) -> (pow2 k | i).
Proof. intros H. etransitivity; [|done]. apply pow2_divide. lia. Qed.

(** Multiples of a block size. *)
Lemma divide_gap a d : 0 < a -> (a | d) -> 0 < d -> a <= d.
Proof. intros Ha Hd Hp. by apply Z.divide_pos_le. Qed.

Lemma divide_small a d : 0 < a -> (a | d) -> 0 <= d < a -> d = 0.
Proof.
  intros Ha Hd Hr. destruct (decide (d = 0)); [done|].
  pose proof (divide_gap a d Ha Hd). lia.
Qed.

Lemma lxor_1_even m : Z.lxor (2 * m) 1 = 2 * m + 1.
Proof.
  symmetry. apply Z.add_nocarry_lxor. change 1 with (Z.ones 1) at 1.
  rewrite Z.land_ones by lia. mlia.
Qed.

Lemma lxor_1_odd m : Z.lxor (2 * m + 1) 1 = 2 * m.
Proof. by rewrite <- lxor_1_even, Z.lxor_assoc, Z.lxor_nilpotent, Z.lxor_0_r. Qed.

Lemma ldiff_1 a : Z.ldiff a 1 = a / 2 * 2.
Proof.
  change 1 with (Z.ones 1). rewrite Z.ldiff_ones_r by lia.
  by rewrite Z.shiftl_mul_pow2, Z.shiftr_div_pow2 by lia.
Qed.

(** The buddy and the merged block of an aligned block, arithmetically. *)
Lemma buddy_cases i k :
  (pow2 k | i) ->
  (buddy i k = i + pow2 k /\ combined i k = i /\ (pow2 (S k) | i)) \/
  (buddy i k = i - pow2 k /\ combined i k = i - pow2 k /\ (pow2 (S k) | i - pow2 k)).
Proof.
  intros [q ->]. unfold buddy, combined. rewrite pow2_S. unfold pow2.
  set (s := Z.of_nat k). assert (0 <= s) by lia.
  assert (Z.lxor (q * 2 ^ s) (2 ^ s) = Z.lxor q 1 * 2 ^ s) as ->.
  { rewrite <- (Z.mul_1_l (2 ^ s)) at 2.
    by rewrite <- !Z.shiftl_mul_pow2, <- Z.shiftl_lxor by lia. }
  assert (Z.land (q * 2 ^ s) (Z.lnot (2 ^ s)) = Z.ldiff q 1 * 2 ^ s) as ->.
  { rewrite <- (Z.mul_1_l (2 ^ s)) at 2.
    by rewrite <- Z.ldiff_land, <- !Z.shiftl_mul_pow2, <- Z.shiftl_ldiff by lia. }
  destruct (Z.Even_or_Odd q) as [[m ->]|[m ->]]; [left|right];
    rewrite ?lxor_1_even, ?lxor_1_odd, ldiff_1.
  - replace (2 * m / 2) with m by mlia. split_and!; [lia..|]. exists m. lia.
  - replace ((2 * m + 1) / 2) with m by mlia. split_and!; [lia..|]. exists m. lia.
Qed.

Section tiling.
Context {U : Type}.
Implicit Types (B : gmap Z (nat * U)) (n : Z) (mx : nat).

(** Two aligned blocks that overlap are nested. *)
Lemma aligned_in i j k k' :
  (k <= k')%nat -> (pow2 k | i) -> (pow2 k' | j) -> j <= i < j + pow2 k' ->
  i + pow2 k <= j + pow2 k'.
Proof.
  intros Hk Hi Hj Hin. pose proof (pow2_divide k k' Hk) as Hd.
  assert (pow2 k | (j + pow2 k') - i) as Hq.
  { apply Z.divide_sub_r; [|done]. apply Z.divide_add_r; [|done]. by etransitivity. }
  pose proof (divide_gap _ _ (pow2_pos k) Hq). lia.
Qed.

Lemma tl_unique mx n B i j k k' u u' p :
  tiling mx n B -> B !! i = Some (k, u) -> B !! j = Some (k', u') ->
  i <= p < i + pow2 k -> j <= p < j + pow2 k' -> i = j.
Proof.
  intros T Hi Hj Hpi Hpj. destruct (Z.lt_trichotomy i j) as [H|[H|H]]; [|done|].
  - pose proof (tl_disj _ _ _ T _ _ _ _ _ _ Hi Hj H). lia.
  - pose proof (tl_disj _ _ _ T _ _ _ _ _ _ Hj Hi H). lia.
Qed.

(** A point aligned to [2^k] starts its block, or that block has an order
    above [k]. *)
Lemma tl_head_or_larger mx n B p k :
  tiling mx n B -> 0 <= p < n -> (pow2 k | p) ->
  exists j k' u, B !! j = Some (k', u) /\ j <= p < j + pow2 k' /\
    (j = p /\ (k' <= k)%nat \/ (k < k')%nat).
Proof.
  intros T Hp Hd. destruct (tl_cover _ _ _ T p Hp) as (j & k' & u & Hj & Hin).
  exists j, k', u. split; [done|]. split; [done|].
  destruct (decide (k' <= k)%nat) as [Hk|]; [|lia]. left. split; [|done].
  destruct (tl_block _ _ _ T _ _ _ Hj) as (_ & Halj & _ & _).
  assert (pow2 k' | p - j) as Hq.
  { apply Z.divide_sub_r; [|done]. etransitivity; [by apply pow2_divide|done]. }
  pose proof (divide_small _ _ (pow2_pos k') Hq). lia.
Qed.

(** The buddy of a block is the start of a block that is not larger: a larger
    one would contain both buddies. *)
Lemma tl_buddy mx n B i k u :
  tiling mx n B -> (pow2 mx | n) -> B !! i = Some (k, u) -> (k < mx)%nat ->
  exists k' u', B !! buddy i k = Some (k', u') /\ (k' <= k)%nat.
Proof.
  intros T Hn Hi Hk. destruct (tl_block _ _ _ T _ _ _ Hi) as (_ & Hal & H0 & Hle).
  pose proof (pow2_pos k) as Hp.
  assert (exists c, (pow2 (S k) | c) /\ c <= i < c + pow2 (S k) /\
    c <= buddy i k < c + pow2 (S k) /\ (pow2 k | buddy i k) /\ 0 <= c)
    as (c & Hc & Hic & Hbc & Hb & Hc0).
  { rewrite pow2_S. destruct (buddy_cases i k Hal) as [(-> & _ & Hd)|(-> & _ & Hd)].
    - exists i. rewrite pow2_S in Hd. split_and!; try done; try lia.
      apply Z.divide_add_r; done.
    - exists (i - pow2 k). rewrite pow2_S in Hd. split_and!; try done; try lia.
      + apply Z.divide_sub_r; done.
      + destruct (decide (0 <= i - pow2 k)); [done|].
        pose proof (divide_small _ _ Hp Hal). destruct Hd as [d Hd].
        assert ((2 * d + 1) * pow2 k = 0) as H1 by lia. apply Z.eq_mul_0 in H1. lia. }
  assert (c + pow2 (S k) <= n).
  { rewrite <- (Z.add_0_l n). apply Z.le_add_le_sub_r, Z.le_sub_le_add_r.
    assert (pow2 (S k) | n - c) as Hdn.
    { apply Z.divide_sub_r; [|done]. etransitivity; [apply pow2_divide|done]. lia. }
    pose proof (divide_gap _ _ (pow2_pos (S k)) Hdn). lia. }
  destruct (tl_head_or_larger mx n B (buddy i k) k T ltac:(lia) Hb)
    as (j & k' & u' & Hj & Hin & [[-> ?]|Hlt]); [eauto|exfalso].
  destruct (tl_block _ _ _ T _ _ _ Hj) as (_ & Halj & _ & _).
  assert (j <= c /\ c + pow2 (S k) <= j + pow2 k') as [? ?].
  { assert (pow2 (S k) | j) as Hdj by (etransitivity; [apply pow2_divide|exact Halj]; lia).
    assert (j <= c).
    { destruct (decide (j <= c)); [done|].
      assert (pow2 (S k) | j - c) as Hjc by (by apply Z.divide_sub_r).
      pose proof (divide_gap _ _ (pow2_pos (S k)) Hjc). lia. }
    split; [done|]. apply (aligned_in c j (S k) k'); [lia|done..|lia]. }
  assert (i = j) as -> by (eapply (tl_unique mx n B i j k k' u u' i); try done; lia).
  rewrite Hi in Hj. simplify_eq. lia.
Qed.

Lemma tl_status mx n B i k u u' :
  tiling mx n B -> B !! i = Some (k, u) -> tiling mx n (<[i := (k, u')]> B).
Proof.
  intros T Hi. split.
  - intros j k' v Hj. apply lookup_insert_Some in Hj as [[<- [= <- <-]]|[? Hj]];
      by eapply (tl_block _ _ _ T).
  - intros j1 j2 k1 k2 v1 v2 H1 H2.
    apply lookup_insert_Some in H1 as [[<- [= <- <-]]|[? H1]];
      apply lookup_insert_Some in H2 as [[<- [= <- <-]]|[? H2]]; try lia;
      by eapply (tl_disj _ _ _ T).
  - intros p Hp. destruct (tl_cover _ _ _ T p Hp) as (j & k' & v & Hj & Hin).
    destruct (decide (i = j)) as [<-|Hne].
    + exists i, k, u'. rewrite lookup_insert_eq. simplify_eq. done.
    + exists j, k', v. by rewrite lookup_insert_ne.
Qed.

Lemma tl_split mx n B i k u u1 u2 :
  tiling mx n B -> B !! i = Some (S k, u) ->
  tiling mx n (<[i := (k, u1)]> (<[i + pow2 k := (k, u2)]> B)).
Proof.
  intros T Hi. destruct (tl_block _ _ _ T _ _ _ Hi) as (Hm & Hal & H0 & Hle).
  pose proof (pow2_pos k) as Hp. rewrite pow2_S in Hle.
  assert (forall j k' v, B !! j = Some (k', v) -> j <> i ->
    j + pow2 k' <= i \/ i + 2 * pow2 k <= j) as Hother.
  { intros j k' v Hj Hne. destruct (Z.lt_trichotomy j i) as [H|[H|H]]; [|done|].
    - left. by eapply (tl_disj _ _ _ T).
    - right. rewrite <- pow2_S. by eapply (tl_disj _ _ _ T). }
  split.
  - intros j k' v Hj. apply lookup_insert_Some in Hj as [[<- [= <- <-]]|[? Hj]].
    { split_and!; [lia|by apply divide_pow2_S|lia..]. }
    apply lookup_insert_Some in Hj as [[<- [= <- <-]]|[? Hj]].
    { split_and!; [lia| |lia..]. apply Z.divide_add_r; [by apply divide_pow2_S|done]. }
    by eapply (tl_block _ _ _ T).
  - intros j1 j2 k1 k2 v1 v2 H1 H2.
    repeat match goal with
    | H : <[_ := _]> _ !! _ = Some _ |- _ =>
        apply lookup_insert_Some in H as [[<- [= <- <-]]|[? H]]
    end; try lia;
    try match goal with H : B !! ?j = Some _, H' : B !! ?j' = Some _ |- ?j < ?j' -> _ =>
      by eapply (tl_disj _ _ _ T) end;
    match goal with H : B !! ?j = Some (?k', _), Hne : i <> ?j |- _ =>
      pose proof (pow2_pos k'); destruct (Hother _ _ _ H ltac:(congruence)); lia end.
  - intros p Hpp. destruct (tl_cover _ _ _ T p Hpp) as (j & k' & v & Hj & Hin).
    destruct (decide (j = i)) as [->|Hne].
    + simplify_eq. rewrite pow2_S in Hin. destruct (decide (p < i + pow2 k)).
      * exists i, k, u1. rewrite lookup_insert_eq. split; [done|lia].
      * exists (i + pow2 k), k, u2. rewrite lookup_insert_ne, lookup_insert_eq by lia.
        split; [done|lia].
    + exists j, k', v. split; [|done]. pose proof (pow2_pos k').
      destruct (Hother _ _ _ Hj Hne); rewrite !lookup_insert_ne by lia; done.
Qed.

Lemma tl_merge mx n B i k u1 u2 u :
  tiling mx n B -> (k < mx)%nat -> (pow2 (S k) | i) ->
  B !! i = Some (k, u1) -> B !! (i + pow2 k) = Some (k, u2) ->
  tiling mx n (<[i := (S k, u)]> (delete (i + pow2 k) B)).
Proof.
  intros T Hk Hal H1 H2. pose proof (pow2_pos k) as Hp.
  destruct (tl_block _ _ _ T _ _ _ H1) as (_ & _ & H0 & _).
  destruct (tl_block _ _ _ T _ _ _ H2) as (_ & _ & _ & Hle).
  assert (forall j k' v, B !! j = Some (k', v) -> j <> i -> j <> i + pow2 k ->
    j + pow2 k' <= i \/ i + 2 * pow2 k <= j) as Hother.
  { intros j k' v Hj Hne1 Hne2. pose proof (pow2_pos k').
    destruct (Z.lt_trichotomy j i) as [Hji|[Hji|Hji]]; [|done|].
    - left. by eapply (tl_disj _ _ _ T).
    - right. pose proof (tl_disj _ _ _ T _ _ _ _ _ _ H1 Hj Hji).
      assert (i + pow2 k < j) as Hlt by lia.
      pose proof (tl_disj _ _ _ T _ _ _ _ _ _ H2 Hj Hlt). lia. }
  split.
  - intros j k' v Hj. apply lookup_insert_Some in Hj as [[<- [= <- <-]]|[? Hj]].
    { rewrite pow2_S in *. split_and!; [lia|done|lia..]. }
    apply lookup_delete_Some in Hj as [? Hj]. by eapply (tl_block _ _ _ T).
  - intros j1 j2 k1 k2 v1 v2 Hj1 Hj2.
    repeat match goal with
    | H : <[_ := _]> _ !! _ = Some _ |- _ =>
        apply lookup_insert_Some in H as [[<- [= <- <-]]|[? H]]
    | H : delete _ _ !! _ = Some _ |- _ => apply lookup_delete_Some in H as [? H]
    end; try lia;
    try match goal with H : B !! ?j = Some _, H' : B !! ?j' = Some _ |- ?j < ?j' -> _ =>
      by eapply (tl_disj _ _ _ T) end;
    rewrite ?pow2_S;
    match goal with H : B !! ?j = Some (?k', _), Hne : i <> ?j |- _ =>
      pose proof (pow2_pos k'); destruct (Hother _ _ _ H ltac:(congruence) ltac:(congruence)); lia end.
  - intros p Hpp. destruct (tl_cover _ _ _ T p Hpp) as (j & k' & v & Hj & Hin).
    destruct (decide (j = i \/ j = i + pow2 k)) as [Hc|Hne].
    + exists i, (S k), u. rewrite lookup_insert_eq, pow2_S. split; [done|].
      destruct Hc as [->| ->]; simplify_eq; lia.
    + exists j, k', v. split; [|done].
      rewrite lookup_insert_ne, lookup_delete_ne by (intros <-; tauto). done.
Qed.

Lemma tl_grow mx n B u :
  tiling mx n B -> 0 <= n -> (pow2 mx | n) ->
  tiling mx (n + pow2 mx) (<[n := (mx, u)]> B).
Proof.
  intros T H0 Hd. pose proof (pow2_pos mx).
  assert (forall j k' v, B !! j = Some (k', v) -> j < n) as Hlt.
  { intros j k' v Hj. destruct (tl_block _ _ _ T _ _ _ Hj) as (_ & _ & _ & ?).
    pose proof (pow2_pos k'). lia. }
  split.
  - intros j k v Hj. apply lookup_insert_Some in Hj as [[<- [= <- <-]]|[? Hj]].
    { split_and!; [lia|done|lia..]. }
    destruct (tl_block _ _ _ T _ _ _ Hj) as (? & ? & ? & ?). split_and!; [done..|lia].
  - intros j1 j2 k1 k2 v1 v2 Hj1 Hj2.
    apply lookup_insert_Some in Hj1 as [[<- [= <- <-]]|[? Hj1]];
      apply lookup_insert_Some in Hj2 as [[<- [= <- <-]]|[? Hj2]]; intros Hlt'.
    + lia.
    + apply Hlt in Hj2. lia.
    + apply (tl_block _ _ _ T _ _ _ Hj1).
    + by eapply (tl_disj _ _ _ T).
  - intros p Hp. destruct (decide (p < n)) as [Hpn|Hpn].
    + destruct (tl_cover _ _ _ T p ltac:(lia)) as (j & k & v & Hj & Hin).
      exists j, k, v. split; [|done]. rewrite lookup_insert_ne; [done|].
      apply Hlt in Hj. lia.
    + exists n, mx, u. rewrite lookup_insert_eq. split; [done|lia].
Qed.

Lemma tl_empty mx : tiling mx 0 (∅ : gmap Z (nat * U)).
Proof. split; intros *; [by rewrite lookup_empty..|lia]. Qed.
End tiling.
