(* ===== verification/MemPage.v ===== *)
(** * memory/easy_mem_page.c: the buddy page allocator

    A zone hands out naturally aligned runs of 2^order pages of 64K.  The model
    keeps the code's representation: page addresses on the per-order free
    lists ([easy_list_t] rings, as sequences by the refinement of EasyList.v,
    head first), the per-page flag bytes, the running counters.  A flag byte
    that was never written is absent from [page_flags]; reading it is [None].

    The abstraction is a tiling of the handed-over part of the zone by blocks
    [index -> (order, used)]; [zone_inv] ties the zone to it. *)

From Stdlib Require Import ZArith Lia.
From stdpp Require Import base gmap list numbers option.
From S2P Require Import Prelude Tiling.

Local Open Scope Z_scope.

Module MemPage.

(** ** Data *)

Definition EASY_MEM_PAGE_SHIFT : Z := 16.
Definition EASY_MEM_PAGE_SIZE : Z := Z.shiftl 1 EASY_MEM_PAGE_SHIFT.
Definition EASY_MEM_MAX_ORDER : nat := 12.

(** [sizeof(easy_mem_zone_t)] on LP64: three pointers, twelve areas of 24
    bytes, two 32-bit counters and two pointers. *)
Definition sizeof_easy_mem_zone_t : Z := 336.

Record easy_mem_area_t := Area { free_list : list Z; nr_free : Z }.

Record easy_mem_zone_t := Zone {
  mem_start : Z; mem_last : Z; mem_end : Z;
  area : list easy_mem_area_t;
  max_order : nat;
  free_pages : Z;
  curr : Z; curr_end : Z;
  page_flags : gmap Z Z }.

Definition set_area (z : easy_mem_zone_t) a : easy_mem_zone_t :=
  Zone (mem_start z) (mem_last z) (mem_end z) a (max_order z) (free_pages z)
    (curr z) (curr_end z) (page_flags z).
Definition set_free_pages (z : easy_mem_zone_t) n : easy_mem_zone_t :=
  Zone (mem_start z) (mem_last z) (mem_end z) (area z) (max_order z) n
    (curr z) (curr_end z) (page_flags z).
Definition set_page_flags (z : easy_mem_zone_t) f : easy_mem_zone_t :=
  Zone (mem_start z) (mem_last z) (mem_end z) (area z) (max_order z) (free_pages z)
    (curr z) (curr_end z) f.
Definition set_mem_last (z : easy_mem_zone_t) p : easy_mem_zone_t :=
  Zone (mem_start z) p (mem_end z) (area z) (max_order z) (free_pages z)
    (curr z) (curr_end z) (page_flags z).

(** [1 << order] and the list operations on [zone->area[n]]. *)
Definition order_size (order : nat) : Z := Z.shiftl 1 (Z.of_nat order).
Definition area_add_head (page : Z) (a : easy_mem_area_t) : easy_mem_area_t :=
  Area (page :: free_list a) (nr_free a + 1).
Definition area_del (page : Z) (a : easy_mem_area_t) : easy_mem_area_t :=
  Area (filter (fun p => p <> page) (free_list a)) (nr_free a - 1).

(** ** Inline helpers *)

Definition easy_mem_page_ptr (page index : Z) : Z := page + i32 (index * EASY_MEM_PAGE_SIZE).
Definition easy_mem_page_to_index (z : easy_mem_zone_t) (page : Z) : Z :=
  i32 (Z.shiftr (page - mem_start z) EASY_MEM_PAGE_SHIFT).
Definition easy_mem_index_to_page (z : easy_mem_zone_t) (index : Z) : Z :=
  mem_start z + i32 (Z.shiftl index EASY_MEM_PAGE_SHIFT).
Definition easy_mem_find_buddy_index (page_idx : Z) (order : nat) : Z :=
  Z.lxor page_idx (order_size order).
Definition easy_mem_find_combined_index (page_idx : Z) (order : nat) : Z :=
  Z.land page_idx (Z.lnot (order_size order)).
Definition easy_mem_set_page_free (z : easy_mem_zone_t) (page : Z) (order : nat) : easy_mem_zone_t :=
  let page_idx := Z.shiftr (page - mem_start z) EASY_MEM_PAGE_SHIFT in
  set_page_flags z (<[page_idx := Z.land 15 (Z.of_nat order)]> (page_flags z)).
Definition easy_mem_set_page_used (z : easy_mem_zone_t) (page : Z) (order : nat) : easy_mem_zone_t :=
  let page_idx := Z.shiftr (page - mem_start z) EASY_MEM_PAGE_SHIFT in
  set_page_flags z (<[page_idx := u8 (Z.lor 128 (Z.of_nat order))]> (page_flags z)).

(** ** Splitting and merging *)

(** The loop of [easy_mem_expand]; [area] of the source is [zone->area + high]. *)
Fixpoint easy_mem_expand (z : easy_mem_zone_t) (page : Z) (low high : nat) (size : Z)
    : easy_mem_zone_t :=
  match high with
  | O => z
  | S h =>
      if (low <? high)%nat then
        let size := Z.shiftr size 1 in
        let newpage := easy_mem_page_ptr page size in
        let z := set_area z (alter (area_add_head newpage) h (area z)) in
        let z := easy_mem_set_page_free z newpage h in
        easy_mem_expand z page low h size
      else z
  end.

(** The loop of [easy_mem_rmqueue] from order [n] on; [fuel] is the number of
    orders left. *)
Fixpoint rmqueue_from (fuel : nat) (z : easy_mem_zone_t) (order n : nat)
    : option Z * easy_mem_zone_t :=
  match fuel with
  | O => (None, z)
  | S fuel =>
      if (max_order z <? n)%nat then (None, z)
      else match area z !! n with
           | Some (Area (page :: _) _) =>
               let z := set_area z (alter (area_del page) n (area z)) in
               let z := set_free_pages z (free_pages z - order_size order) in
               let z := easy_mem_expand z page order n (order_size n) in
               let z := easy_mem_set_page_used z page order in
               (Some page, z)
           | _ => rmqueue_from fuel z order (S n)
           end
  end.
Definition easy_mem_rmqueue (z : easy_mem_zone_t) (order : nat) : option Z * easy_mem_zone_t :=
  rmqueue_from (S (max_order z)) z order order.

(** The coalescing loop of [easy_mem_merge_buddy_page]; [fuel] bounds the
    number of orders it can climb. *)
Fixpoint merge_loop (fuel : nat) (z : easy_mem_zone_t) (page page_idx : Z) (order : nat)
    : option (easy_mem_zone_t * Z * nat) :=
  if (order <? max_order z)%nat then
    let buddy_idx := easy_mem_find_buddy_index page_idx order in
    f ← page_flags z !! buddy_idx;
    if negb (f =? Z.of_nat order) then Some (z, page, order)
    else
      match fuel with
      | O => None
      | S fuel =>
          let buddy := easy_mem_index_to_page z buddy_idx in
          let z := set_area z (alter (area_del buddy) order (area z)) in
          let z := set_page_flags z (<[buddy_idx := 0]> (page_flags z)) in
          let combined_idx := easy_mem_find_combined_index page_idx order in
          let page := easy_mem_index_to_page z combined_idx in
          merge_loop fuel z page combined_idx (S order)
      end
  else Some (z, page, order).

Definition easy_mem_merge_buddy_page (z : easy_mem_zone_t) (page : Z) (order : nat)
    : option easy_mem_zone_t :=
  let page_idx := easy_mem_page_to_index z page in
  let z := set_free_pages z (free_pages z + order_size order) in
  r ← merge_loop (max_order z) z page page_idx order;
  let '(z, page, order) := r in
  let z := easy_mem_set_page_free z page order in
  Some (set_area z (alter (area_add_head page) order (area z))).

(** ** The interface *)

(** [easy_mem_alloc_pages]; [None] is NULL. *)
Definition easy_mem_alloc_pages (z : easy_mem_zone_t) (order : nat)
    : option Z * easy_mem_zone_t :=
  if (max_order z <? order)%nat then (None, z)
  else
    let first :=
      if order_size order <=? free_pages z then easy_mem_rmqueue z order else (None, z) in
    match first with
    | (Some page, z) => (Some page, z)
    | (None, _) =>
        if mem_last z <? mem_end z then
          let page := mem_last z in
          let z := set_mem_last z
                     (mem_last z + Z.shiftl (order_size (max_order z)) EASY_MEM_PAGE_SHIFT) in
          let z := set_free_pages z (free_pages z + order_size (max_order z)) in
          let z := set_area z (alter (area_add_head page) (max_order z) (area z)) in
          easy_mem_rmqueue z order
        else (None, z)
    end.

(** [easy_mem_free_pages]; [None] is a read of a flag byte nobody wrote. *)
Definition easy_mem_free_pages (z : easy_mem_zone_t) (page : Z) : option easy_mem_zone_t :=
  if (page <? mem_start z) || (mem_last z - EASY_MEM_PAGE_SIZE <? page) then Some z
  else
    let page_idx := easy_mem_page_to_index z page in
    f ← page_flags z !! page_idx;
    if negb (Z.land f 128 =? 0) then
      easy_mem_merge_buddy_page z page (Z.to_nat (Z.land f 15))
    else Some z.

(** ** Zone creation *)

(** [while (size < max_size) { size <<= 1; order ++; }] *)
Fixpoint zone_size (fuel : nat) (max_size size : Z) (order : nat) : Z * nat :=
  match fuel with
  | O => (size, order)
  | S fuel =>
      if size <? max_size then zone_size fuel max_size (i64 (Z.shiftl size 1)) (S order)
      else (size, order)
  end.

(** [easy_mem_zone_create]: [memalign] is the C library's, a parameter. *)
Definition easy_mem_zone_create (memalign : Z -> Z -> option Z) (max_size : Z)
    : option easy_mem_zone_t :=
  let '(size, order) := zone_size 47 max_size EASY_MEM_PAGE_SIZE 0 in
  let pos := i32 (size / EASY_MEM_PAGE_SIZE + sizeof_easy_mem_zone_t) in
  let page_size := i32 (easy_align pos EASY_MEM_PAGE_SIZE) in
  let asize := i32 (Z.shiftl 1 (Z.of_nat EASY_MEM_MAX_ORDER + EASY_MEM_PAGE_SHIFT - 1)) in
  let asize := i32 (easy_max page_size (easy_min asize size)) in
  memptr ← memalign EASY_MEM_PAGE_SIZE (asize + size);
  let curr_end := memptr + page_size in
  let max_order := if (EASY_MEM_MAX_ORDER <=? order)%nat
                   then (EASY_MEM_MAX_ORDER - 1)%nat else order in
  let mem_start := easy_align curr_end asize in
  Some (Zone mem_start mem_start (mem_start + size)
          (replicate EASY_MEM_MAX_ORDER (Area [] 0)) max_order 0
          (memptr + easy_align pos 32) curr_end ∅).

(** ** Invariant *)

(** The address of page [i] of the zone. *)
Definition page_at (z : easy_mem_zone_t) (i : Z) : Z := mem_start z + i * 65536.

(** Pages on the free lists, from the list lengths: [sum 2^k * nr_free]. *)
Fixpoint sum_area (k : nat) (l : list easy_mem_area_t) : Z :=
  match l with
  | [] => 0
  | a :: l => pow2 k * nr_free a + sum_area (S k) l
  end.

(** A block is a start index with its order and whether it is handed out. *)
Abbreviation blocks := (gmap Z (nat * bool)).

Definition is_free_block (B : blocks) (i : Z) (k : nat) : bool :=
  bool_decide (B !! i = Some (k, false)).

(** The free lists hold exactly the free blocks of their order. *)
Record lists_ok (start : Z) (ar : list easy_mem_area_t) (B : blocks) : Prop := {
  lo_len : length ar = EASY_MEM_MAX_ORDER;
  lo_nodup : forall k a, ar !! k = Some a -> NoDup (free_list a);
  lo_nr : forall k a, ar !! k = Some a -> nr_free a = Z.of_nat (length (free_list a));
  lo_in : forall k a p, ar !! k = Some a ->
    p ∈ free_list a <-> exists i, p = start + i * 65536 /\ B !! i = Some (k, false) }.

(** [zone_core z n N B h d]: [z] represents the tiling [B] of its first [n] of
    [N] pages; the flag bytes of the blocks in [h] are not meaningful at this
    point of an operation, and [free_pages] is off by [d]. *)
Record zone_core (z : easy_mem_zone_t) (n N : Z) (B : blocks) (h : list Z) (d : Z) : Prop := {
  zi_order : (max_order z < EASY_MEM_MAX_ORDER)%nat;
  zi_range : 0 <= n <= N /\ N <= 32768 /\ (pow2 (max_order z) | n) /\ (pow2 (max_order z) | N);
  zi_last : mem_last z = page_at z n;
  zi_end : mem_end z = page_at z N;
  zi_tile : tiling (max_order z) n B;
  zi_lists : lists_ok (mem_start z) (area z) B;
  zi_flags : forall i k u, B !! i = Some (k, u) -> i ∉ h -> u = true \/ (k < max_order z)%nat ->
    page_flags z !! i = Some (if u then 128 + Z.of_nat k else Z.of_nat k);
  zi_free : free_pages z + d = sum_area 0 (area z);
  zi_coal : forall i k, B !! i = Some (k, false) -> (k < max_order z)%nat ->
    B !! buddy i k <> Some (k, false) }.

Definition zone_inv (z : easy_mem_zone_t) (n N : Z) (B : blocks) : Prop :=
  zone_core z n N B [] 0.

(** ** Address arithmetic *)

Lemma order_size_pow2 k : order_size k = pow2 k.
Proof. unfold order_size, pow2. apply Z.shiftl_1_l. Qed.

Lemma pow2_11 k : (k < 12)%nat -> pow2 k <= 2048.
Proof. intros. change 2048 with (pow2 11). apply pow2_le. lia. Qed.

Lemma page_at_inj z i j : page_at z i = page_at z j -> i = j.
Proof. unfold page_at. lia. Qed.

Lemma page_index z i : Z.shiftr (page_at z i - mem_start z) EASY_MEM_PAGE_SHIFT = i.
Proof.
  unfold page_at. rewrite Z.shiftr_div_pow2 by done.
  replace (mem_start z + i * 65536 - mem_start z) with (i * 2 ^ EASY_MEM_PAGE_SHIFT)
    by (unfold EASY_MEM_PAGE_SHIFT; lia).
  by apply Z.div_mul.
Qed.

Lemma page_to_index_at z i : 0 <= i < 32768 -> easy_mem_page_to_index z (page_at z i) = i.
Proof.
  intros Hi. unfold easy_mem_page_to_index. rewrite page_index.
  apply wraps_small; [|lia]. change (2 ^ (32 - 1)) with 2147483648. lia.
Qed.

Lemma index_to_page_at z i : 0 <= i < 32768 -> easy_mem_index_to_page z i = page_at z i.
Proof.
  intros Hi. unfold easy_mem_index_to_page, page_at. f_equal.
  rewrite Z.shiftl_mul_pow2 by done. change (2 ^ EASY_MEM_PAGE_SHIFT) with 65536.
  apply wraps_small; [|lia]. change (2 ^ (32 - 1)) with 2147483648. lia.
Qed.

Lemma page_ptr_at z i k :
  (k < 12)%nat -> easy_mem_page_ptr (page_at z i) (pow2 k) = page_at z (i + pow2 k).
Proof.
  intros Hk. unfold easy_mem_page_ptr, page_at. pose proof (pow2_11 k Hk). pose proof (pow2_pos k).
  change EASY_MEM_PAGE_SIZE with 65536.
  rewrite wraps_small; [lia| |lia]. change (2 ^ (32 - 1)) with 2147483648. lia.
Qed.

Lemma flag_free k : (k < 12)%nat -> Z.land 15 (Z.of_nat k) = Z.of_nat k.
Proof. intros. do 12 (destruct k as [|k]; [done|]). lia. Qed.

Lemma flag_used k : (k < 12)%nat -> u8 (Z.lor 128 (Z.of_nat k)) = 128 + Z.of_nat k.
Proof. intros. do 12 (destruct k as [|k]; [done|]). lia. Qed.

Lemma flag_used_bits k : (k < 12)%nat ->
  Z.land (128 + Z.of_nat k) 128 = 128 /\ Z.to_nat (Z.land (128 + Z.of_nat k) 15) = k.
Proof. intros. do 12 (destruct k as [|k]; [done|]). lia. Qed.

Lemma sum_area_alter f l : forall k n a,
  l !! n = Some a ->
  sum_area k (alter f n l) = sum_area k l + pow2 (k + n) * (nr_free (f a) - nr_free a).
Proof.
  induction l as [|b l IH]; intros k n a Hn; [done|].
  destruct n as [|n]; simpl in *; simplify_eq.
  - rewrite Nat.add_0_r. lia.
  - change (list_alter f n l) with (alter f n l). rewrite (IH (S k) n a Hn).
    replace (S k + n)%nat with (k + S n)%nat by lia. lia.
Qed.

(** ** Elementary steps

    Each allocator operation is a sequence of these steps on the zone and on
    the tiling it represents. *)

Lemma core_area z n N B h d k :
  zone_core z n N B h d -> (k <= max_order z)%nat -> exists a, area z !! k = Some a.
Proof.
  intros C Hk. apply lookup_lt_is_Some_2. rewrite (lo_len _ _ _ (zi_lists _ _ _ _ _ _ C)).
  pose proof (zi_order _ _ _ _ _ _ C). unfold EASY_MEM_MAX_ORDER in *. lia.
Qed.

Lemma lists_take start ar B i k a :
  lists_ok start ar B -> ar !! k = Some a -> B !! i = Some (k, false) ->
  lists_ok start (alter (area_del (start + i * 65536)) k ar) (<[i := (k, true)]> B) /\
  sum_area 0 (alter (area_del (start + i * 65536)) k ar) = sum_area 0 ar - pow2 k.
Proof.
  intros [] Ha Hi. split.
  2: { rewrite (sum_area_alter _ _ _ _ _ Ha). simpl. lia. }
  assert (start + i * 65536 ∈ free_list a) as Hin by (apply (lo_in0 k); eauto).
  split; [by rewrite length_alter|intros k' a'|intros k' a'|intros k' a' p];
    rewrite list_lookup_alter;
    case_decide as Hd; subst; rewrite ?Ha; intros Ha'; simplify_eq/=; eauto.
  - apply list.NoDup_filter. eauto.
  - rewrite length_filter_ne by eauto. rewrite (lo_nr0 _ _ Ha). done.
  - rewrite list_elem_of_filter, (lo_in0 k') by done. split.
    + intros (Hne & j & -> & Hj). exists j. rewrite lookup_insert_ne; [done|]. congruence.
    + intros (j & -> & Hj). apply lookup_insert_Some in Hj as [[<- ?]|[Hne Hj]]; [done|].
      split; [|eauto]. intros E. assert (j = i) by lia. congruence.
  - rewrite (lo_in0 k' a') by done. split; intros (j & -> & Hj); exists j; (split; [done|]).
    + rewrite lookup_insert_ne; [done|]. congruence.
    + apply lookup_insert_Some in Hj as [[<- ?]|[Hne Hj]]; done.
Qed.

Lemma lists_put start ar B i k a :
  lists_ok start ar B -> ar !! k = Some a -> (forall k', B !! i <> Some (k', false)) ->
  lists_ok start (alter (area_add_head (start + i * 65536)) k ar) (<[i := (k, false)]> B) /\
  sum_area 0 (alter (area_add_head (start + i * 65536)) k ar) = sum_area 0 ar + pow2 k.
Proof.
  intros [] Ha Hi. split.
  2: { rewrite (sum_area_alter _ _ _ _ _ Ha). simpl. lia. }
  assert (start + i * 65536 ∉ free_list a) as Hnin.
  { rewrite (lo_in0 k) by done. intros (j & E & Hj). assert (i = j) as -> by lia.
    by eapply Hi. }
  split; [by rewrite length_alter|intros k' a'|intros k' a'|intros k' a' p];
    rewrite list_lookup_alter;
    case_decide as Hd; subst; rewrite ?Ha; intros Ha'; simplify_eq/=; eauto.
  - apply list.NoDup_cons. eauto.
  - rewrite (lo_nr0 _ _ Ha). lia.
  - rewrite elem_of_cons, (lo_in0 k') by done. split.
    + intros [->|(j & -> & Hj)]; [exists i; by rewrite lookup_insert_eq|].
      exists j. rewrite lookup_insert_ne; [done|]. intros ->. by eapply Hi.
    + intros (j & -> & Hj). apply lookup_insert_Some in Hj as [[<- ?]|[Hne Hj]]; eauto.
  - rewrite (lo_in0 k' a') by done. split; intros (j & -> & Hj); exists j; (split; [done|]).
    + rewrite lookup_insert_ne; [done|]. intros ->. by eapply Hi.
    + apply lookup_insert_Some in Hj as [[<- ?]|[Hne Hj]]; congruence.
Qed.

Lemma core_block z n N B h d i k u :
  zone_core z n N B h d -> B !! i = Some (k, u) ->
  (k <= max_order z)%nat /\ (k < 12)%nat /\ 0 <= i < 32768 /\ (pow2 k | i) /\ i + pow2 k <= n.
Proof.
  intros C Hi. destruct (tl_block _ _ _ (zi_tile _ _ _ _ _ _ C) _ _ _ Hi) as (? & ? & ? & ?).
  pose proof (zi_order _ _ _ _ _ _ C). destruct (zi_range _ _ _ _ _ _ C) as (? & ? & ? & ?).
  pose proof (pow2_pos k). unfold EASY_MEM_MAX_ORDER in *. split_and!; try done; lia.
Qed.

Lemma buddy_buddy i k : buddy (buddy i k) k = i.
Proof. unfold buddy. by rewrite Z.lxor_assoc, Z.lxor_nilpotent, Z.lxor_0_r. Qed.

Lemma buddy_ne i k : (pow2 k | i) -> buddy i k <> i.
Proof. intros H. pose proof (pow2_pos k). destruct (buddy_cases i k H) as [[-> _]|[-> _]]; lia. Qed.

Lemma core_exempt z n N B h h' d :
  zone_core z n N B h d -> (forall j, is_Some (B !! j) -> j ∈ h -> j ∈ h') ->
  zone_core z n N B h' d.
Proof.
  intros [] Hh. split; try done. intros i k u Hi Hni Hu.
  apply (zi_flags0 i k u Hi); [|done]. intros Hin. apply Hni, Hh; eauto.
Qed.

Lemma core_free_pages z n N B h d v :
  zone_core z n N B h d -> zone_core (set_free_pages z v) n N B h (d + free_pages z - v).
Proof. intros []. split; simpl; try done. lia. Qed.

Lemma core_flag z n N B h d i v :
  zone_core z n N B h d -> i ∈ h ->
  zone_core (set_page_flags z (<[i := v]> (page_flags z))) n N B h d.
Proof.
  intros [] Hi. split; simpl; try done. intros j k u Hj Hnj Hu.
  rewrite lookup_insert_ne by set_solver. eauto.
Qed.

Lemma core_used z n N B h d i k :
  zone_core z n N B (i :: h) d -> B !! i = Some (k, true) ->
  zone_core (set_page_flags z (<[i := 128 + Z.of_nat k]> (page_flags z))) n N B h d.
Proof.
  intros [] Hi. split; simpl; try done. intros j k' u Hj Hnj Hu.
  destruct (decide (i = j)) as [<-|Hne].
  - rewrite lookup_insert_eq. by simplify_eq.
  - rewrite lookup_insert_ne by done. apply zi_flags0; set_solver.
Qed.

(** Taking a free block off its list. *)
Lemma core_take z n N B h d i k :
  zone_core z n N B h d -> B !! i = Some (k, false) ->
  zone_core (set_area z (alter (area_del (page_at z i)) k (area z))) n N
    (<[i := (k, true)]> B) (i :: h) (d - pow2 k).
Proof.
  intros C Hi. destruct (core_block _ _ _ _ _ _ _ _ _ C Hi) as (Hk & _).
  destruct (core_area _ _ _ _ _ _ k C Hk) as [a Ha]. destruct C.
  destruct (lists_take _ _ _ i k a zi_lists0 Ha Hi) as [Hl Hs].
  split; simpl; try done.
  - by eapply tl_status.
  - intros j k' u Hj Hnj Hu. apply lookup_insert_Some in Hj as [[<- ?]|[Hne Hj]]; [set_solver|].
    apply zi_flags0; set_solver.
  - unfold page_at in *. lia.
  - intros j k' Hj Hk'. apply lookup_insert_Some in Hj as [[<- ?]|[Hne Hj]]; [done|].
    intros Hb. apply lookup_insert_Some in Hb as [[_ ?]|[? Hb]]; [done|].
    exact (zi_coal0 _ _ Hj Hk' Hb).
Qed.

(** Putting a block on its free list, when its buddy is not free as a whole. *)
Lemma core_put z n N B h d i k :
  zone_core z n N B (i :: h) d -> B !! i = Some (k, true) ->
  ((k < max_order z)%nat -> B !! buddy i k <> Some (k, false)) ->
  zone_core (set_page_flags (set_area z (alter (area_add_head (page_at z i)) k (area z)))
               (<[i := Z.of_nat k]> (page_flags z))) n N
    (<[i := (k, false)]> B) h (d + pow2 k).
Proof.
  intros C Hi Hbd. destruct (core_block _ _ _ _ _ _ _ _ _ C Hi) as (Hk & _ & _ & Hal & _).
  destruct (core_area _ _ _ _ _ _ k C Hk) as [a Ha]. destruct C.
  destruct (lists_put _ _ _ i k a zi_lists0 Ha) as [Hl Hs]; [congruence|].
  split; simpl; try done.
  - by eapply tl_status.
  - intros j k' u Hj Hnj Hu. apply lookup_insert_Some in Hj as [[<- ?]|[Hne Hj]].
    + rewrite lookup_insert_eq. by simplify_eq.
    + rewrite lookup_insert_ne by done. apply zi_flags0; set_solver.
  - unfold page_at in *. lia.
  - intros j k' Hj Hk'. apply lookup_insert_Some in Hj as [[<- ?]|[Hne Hj]].
    + simplify_eq. rewrite lookup_insert_ne by (by apply not_eq_sym, buddy_ne). auto.
    + intros Hb. apply lookup_insert_Some in Hb as [[Eb ?]|[? Hb]]; [|exact (zi_coal0 _ _ Hj Hk' Hb)].
      simplify_eq. apply Hbd; [done|]. by rewrite buddy_buddy.
Qed.

(** Growing the zone by one free block of the largest order. *)
Lemma core_grow z n N B d :
  zone_core z n N B [] d -> n < N ->
  zone_core
    (set_area (set_mem_last z (page_at z (n + pow2 (max_order z))))
       (alter (area_add_head (page_at z n)) (max_order z) (area z)))
    (n + pow2 (max_order z)) N (<[n := (max_order z, false)]> B) [] (d + pow2 (max_order z)).
Proof.
  intros C HnN. destruct (core_area _ _ _ _ _ _ _ C (Nat.le_refl _)) as [a Ha]. destruct C.
  destruct zi_range0 as (H0 & HN & Hd1 & Hd2).
  assert (B !! n = None) as Hnone.
  { destruct (B !! n) as [[k u]|] eqn:E; [|done].
    destruct (tl_block _ _ _ zi_tile0 _ _ _ E) as (_ & _ & _ & ?). pose proof (pow2_pos k). lia. }
  destruct (lists_put _ _ _ n _ a zi_lists0 Ha) as [Hl Hs]; [congruence|].
  split; simpl; try done.
  - pose proof (pow2_pos (max_order z)). split_and!; try lia; try done.
    + assert (pow2 (max_order z) | N - n) as Hd by (by apply Z.divide_sub_r).
      pose proof (divide_gap _ _ (pow2_pos _) Hd). lia.
    + by apply Z.divide_add_r.
  - apply tl_grow; [done|lia|done].
  - intros j k' u Hj Hnj Hu. apply lookup_insert_Some in Hj as [[<- ?]|[Hne Hj]]; [|eauto].
    simplify_eq. destruct Hu; [done|lia].
  - unfold page_at in *. lia.
  - intros j k' Hj Hk'. apply lookup_insert_Some in Hj as [[<- ?]|[Hne Hj]]; [simplify_eq; lia|].
    intros Hb. apply lookup_insert_Some in Hb as [[Eb ?]|[? Hb]]; [simplify_eq; lia|].
    exact (zi_coal0 _ _ Hj Hk' Hb).
Qed.

(** Splitting a held block: nothing of the zone changes. *)
Lemma core_split z n N B h d i k :
  zone_core z n N B h d -> B !! i = Some (S k, true) -> i ∈ h ->
  zone_core z n N (<[i := (k, true)]> (<[i + pow2 k := (k, true)]> B)) (i + pow2 k :: h) d /\
  B !! (i + pow2 k) = None.
Proof.
  intros C Hi Hh. destruct C. pose proof (pow2_pos k) as Hp.
  assert (B !! (i + pow2 k) = None) as Hnone.
  { destruct (B !! (i + pow2 k)) as [[k' u]|] eqn:E; [|done].
    pose proof (tl_disj _ _ _ zi_tile0 _ _ _ _ _ _ Hi E ltac:(lia)). rewrite pow2_S in *. lia. }
  assert (forall j k', <[i := (k, true)]> (<[i + pow2 k := (k, true)]> B) !! j = Some (k', false)
            <-> B !! j = Some (k', false)) as Hfree.
  { intros j k'. destruct (decide (j = i)) as [->|]; [rewrite lookup_insert_eq; naive_solver|].
    destruct (decide (j = i + pow2 k)) as [->|].
    - rewrite lookup_insert_ne, lookup_insert_eq by done. naive_solver.
    - by rewrite !lookup_insert_ne by done. }
  split; [|done]. split; try done.
  - by eapply tl_split.
  - destruct zi_lists0. split; try done. intros k' a p Ha. rewrite (lo_in0 k' a) by done.
    by setoid_rewrite Hfree.
  - intros j k' u Hj Hnj Hu. rewrite !lookup_insert_ne in Hj by set_solver.
    apply zi_flags0; set_solver.
  - intros j k' Hj Hk'. rewrite Hfree in Hj |- *. eauto.
Qed.

(** Merging two held buddies: nothing of the zone changes. *)
Lemma core_merge z n N B h d c k :
  zone_core z n N B h d -> (k < max_order z)%nat -> (pow2 (S k) | c) ->
  B !! c = Some (k, true) -> B !! (c + pow2 k) = Some (k, true) ->
  zone_core z n N (<[c := (S k, true)]> (delete (c + pow2 k) B)) (c :: h) d.
Proof.
  intros C Hk Hc H1 H2. destruct C. pose proof (pow2_pos k) as Hp.
  assert (forall j k', <[c := (S k, true)]> (delete (c + pow2 k) B) !! j = Some (k', false)
            <-> B !! j = Some (k', false)) as Hfree.
  { intros j k'. destruct (decide (j = c)) as [->|]; [rewrite lookup_insert_eq; naive_solver|].
    rewrite lookup_insert_ne by done. destruct (decide (j = c + pow2 k)) as [->|].
    - rewrite lookup_delete_eq. naive_solver.
    - by rewrite lookup_delete_ne by done. }
  split; try done.
  - by eapply tl_merge.
  - destruct zi_lists0. split; try done. intros k' a p Ha. rewrite (lo_in0 k' a) by done.
    by setoid_rewrite Hfree.
  - intros j k' u Hj Hnj Hu. rewrite lookup_insert_ne in Hj by set_solver.
    apply lookup_delete_Some in Hj as [? Hj]. apply zi_flags0; set_solver.
  - intros j k' Hj Hk'. rewrite Hfree in Hj |- *. eauto.
Qed.

(** ** Operations against the tiling *)

(** The handed-out blocks. *)
Definition used (B : blocks) (i : Z) (k : nat) : Prop := B !! i = Some (k, true).

Lemma used_insert_true B i k k0 u0 j k' :
  B !! i = Some (k0, u0) ->
  used (<[i := (k, true)]> B) j k' <-> (j = i /\ k' = k) \/ (j <> i /\ used B j k').
Proof.
  intros Hi. unfold used. rewrite lookup_insert_Some. naive_solver.
Qed.

Lemma used_same B i k j k' :
  B !! i = Some (k, true) ->
  used B j k' <-> (j = i /\ k' = k) \/ (j <> i /\ used B j k').
Proof. intros Hi. unfold used. destruct (decide (j = i)) as [->|]; naive_solver. Qed.

(** The flag bytes inside the blocks handed out, which belong to their users: the
    operations leave them alone, but for the block [x] that is being freed. *)
Definition keeps_inner (B : blocks) (x : Z) (f f' : gmap Z Z) : Prop :=
  forall j i k, used B i k -> i <> x -> i < j < i + pow2 k -> f' !! j = f !! j.

(** A block does not start inside another one. *)
Lemma inner_not_start mo n B i k j k' u : tiling mo n B -> B !! i = Some (k, true) -> B !! j = Some (k', u) -> ~ i < j < i + pow2 k.
Proof. intros Ht Hi Hj [H1 H2]. pose proof (tl_disj _ _ _ Ht _ _ _ _ _ _ Hi Hj H1). lia. Qed.

(** Splitting writes inside the block that is split. *)
Lemma expand_flags z i low : forall high z', (high < 12)%nat -> mem_start z' = mem_start z -> forall j,
  ~ i < j < i + pow2 high -> page_flags (easy_mem_expand z' (page_at z i) low high (pow2 high)) !! j = page_flags z' !! j.
Proof.
  induction high as [|h IH]; intros z' Hh Hms j Hj; [done|]. cbn [easy_mem_expand]. destruct (Nat.ltb_spec low (S h)) as [Hlt|Hge]; [|done].
  replace (Z.shiftr (pow2 (S h)) 1) with (pow2 h) by (rewrite pow2_S, Z.shiftr_div_pow2, Z.mul_comm, Z.div_mul; done).
  rewrite page_ptr_at by lia. pose proof (pow2_pos h). rewrite pow2_S in Hj. rewrite IH; [|lia|done|lia].
  unfold easy_mem_set_page_free. cbn [page_flags set_page_flags set_area mem_start]. rewrite Hms, page_index, lookup_insert_ne by lia. done.
Qed.

Lemma expand_core n N i low : forall high z B d,
  zone_core z n N B [i] d -> B !! i = Some (high, true) -> (low <= high)%nat ->
  exists B', zone_core (easy_mem_expand z (page_at z i) low high (pow2 high)) n N B' [i]
               (d + (pow2 high - pow2 low)) /\
    (forall j k, used B' j k <-> (j = i /\ k = low) \/ (j <> i /\ used B j k)) /\
    mem_start (easy_mem_expand z (page_at z i) low high (pow2 high)) = mem_start z /\
    max_order (easy_mem_expand z (page_at z i) low high (pow2 high)) = max_order z.
Proof.
  induction high as [|h IH]; intros z B d C Hi Hlow.
  { assert (low = 0%nat) as -> by lia. exists B. rewrite Z.sub_diag, Z.add_0_r. simpl.
    split_and!; [done| |done|done]. intros. by apply used_same. }
  cbn [easy_mem_expand]. destruct (Nat.ltb_spec low (S h)) as [Hlt|Hge].
  2: { assert (low = S h) as -> by lia. exists B. rewrite Z.sub_diag, Z.add_0_r.
       split_and!; [done| |done|done]. intros. by apply used_same. }
  destruct (core_block _ _ _ _ _ _ _ _ _ C Hi) as (Hk & Hk12 & _ & Hal & _).
  replace (Z.shiftr (pow2 (S h)) 1) with (pow2 h)
    by (rewrite pow2_S, Z.shiftr_div_pow2, Z.mul_comm, Z.div_mul; done).
  rewrite page_ptr_at by lia. unfold easy_mem_set_page_free. simpl.
  rewrite page_index, flag_free by lia.
  destruct (core_split _ _ _ _ _ _ _ _ C Hi) as [C1 Hnone]; [set_solver|].
  pose proof (pow2_pos h) as Hp.
  assert (buddy (i + pow2 h) h = i) as Hb.
  { destruct (buddy_cases i h (divide_pow2_S _ _ Hal)) as [(Eb & _)|(_ & _ & Hd)].
    - by rewrite <- Eb, buddy_buddy.
    - exfalso. assert (pow2 (S h) | i - (i - pow2 h)) as Hd' by (by apply Z.divide_sub_r).
      pose proof (divide_gap _ _ (pow2_pos (S h)) Hd'). rewrite pow2_S in *. lia. }
  apply (core_put z n N _ [i] d (i + pow2 h) h) in C1.
  2: { rewrite lookup_insert_ne, lookup_insert_eq by lia. done. }
  2: { rewrite Hb, lookup_insert_eq. naive_solver. }
  match type of C1 with zone_core ?z1 _ _ ?B1 _ _ =>
    destruct (IH z1 B1 _ C1) as (B' & C' & Hu & Hms & Hmo); [|lia|] end.
  { rewrite lookup_insert_ne, lookup_insert_eq by lia. done. }
  simpl in *. exists B'. split_and!; [|clear -Hu Hi Hnone Hp|done|done].
  { match goal with |- zone_core _ _ _ _ _ ?d1 =>
      replace d1 with (d + pow2 h + (pow2 h - pow2 low)) by (rewrite pow2_S; lia) end. done. }
  intros j k. rewrite Hu. unfold used. rewrite !lookup_insert_Some. naive_solver.
Qed.

(** What [easy_mem_rmqueue] does on a zone without pending repairs. *)
Lemma rmqueue_from_core n N B d order : forall fuel z m,
  zone_core z n N B [] d -> (order <= m)%nat -> (max_order z < m + fuel)%nat ->
  (forall i k, (order <= k < m)%nat -> B !! i <> Some (k, false)) ->
  match rmqueue_from fuel z order m with
  | (Some page, z') => exists i m' B', page = page_at z i /\ B !! i = Some (m', false) /\
      (order <= m')%nat /\ zone_core z' n N B' [] d /\
      (forall j k, used B' j k <-> (j = i /\ k = order) \/ used B j k) /\
      mem_start z' = mem_start z /\ max_order z' = max_order z
  | (None, z') => z' = z /\ forall i k, (order <= k)%nat -> B !! i <> Some (k, false)
  end.
Proof.
  induction fuel as [|fuel IH]; intros z m C Hm Hfuel Hno; cbn [rmqueue_from].
  { split; [done|]. intros i k Hk Hi.
    destruct (core_block _ _ _ _ _ _ _ _ _ C Hi) as (Hkm & _). apply (Hno i k); [lia|done]. }
  destruct (Nat.ltb_spec (max_order z) m) as [Hlt|Hge].
  { split; [done|]. intros i k Hk Hi.
    destruct (core_block _ _ _ _ _ _ _ _ _ C Hi) as (Hkm & _). apply (Hno i k); [lia|done]. }
  destruct (core_area _ _ _ _ _ _ m C Hge) as [[fl nr] Ha]. rewrite Ha.
  pose proof (fun p => lo_in _ _ _ (zi_lists _ _ _ _ _ _ C) m _ p Ha) as Hin. simpl in Hin.
  destruct fl as [|page fl].
  { apply IH; [done|lia|lia|]. intros i k Hk Hi. destruct (decide (k = m)) as [->|].
    - assert (page_at z i ∈ ([] : list Z)) as Hf by (apply Hin; eauto). set_solver.
    - apply (Hno i k); [lia|done]. }
  destruct (proj1 (Hin page)) as (i & -> & Hi); [set_solver|].
  fold (page_at z i). exists i, m.
  pose proof (core_take _ _ _ _ _ _ _ _ C Hi) as C1.
  apply (core_free_pages _ _ _ _ _ _ (free_pages z - order_size order)) in C1. simpl in C1.
  destruct (core_block _ _ _ _ _ _ _ _ _ C Hi) as (_ & Hm12 & _).
  rewrite (order_size_pow2 m). rewrite (order_size_pow2 order) in C1 |- *.
  match type of C1 with zone_core ?z1 _ _ _ _ _ =>
    destruct (expand_core n N i order m z1 _ _ C1) as (B' & C' & Hu & Hms & Hmo);
      [by rewrite lookup_insert_eq|done|] end.
  assert (B' !! i = Some (order, true)) as Hi' by (apply Hu; auto).
  exists B'. split_and!; [done..| | |done|done].
  - apply (core_used _ _ _ _ _ _ i order) in C'; [|done].
    unfold easy_mem_set_page_used. unfold page_at in *. simpl in *.
    rewrite Hms. fold (page_at z i). rewrite page_index, flag_used by lia.
    match type of C' with zone_core _ _ _ _ _ ?d1 => replace d1 with d in C' by lia end. done.
  - intros j k. rewrite Hu, (used_insert_true _ _ _ _ _ _ _ Hi). unfold used.
    split; [naive_solver|]. intros [?|Hj]; [naive_solver|].
    right. assert (j <> i) by congruence. naive_solver.
Qed.

(** Taking a block writes inside it. *)
Lemma rmqueue_from_inner n N B d order : forall fuel z m page z', zone_core z n N B [] d -> (order <= m)%nat ->
  rmqueue_from fuel z order m = (Some page, z') -> forall x, keeps_inner B x (page_flags z) (page_flags z').
Proof.
  induction fuel as [|fuel IH]; intros z m page z' C Hm E x; cbn [rmqueue_from] in E; [done|].
  destruct (Nat.ltb_spec (max_order z) m) as [?|Hge]; [done|].
  destruct (core_area _ _ _ _ _ _ m C Hge) as [[fl nr] Ha]. rewrite Ha in E. destruct fl as [|p fl]; [by apply (IH z (S m) page z' C); [lia|]|].
  destruct (proj1 (lo_in _ _ _ (zi_lists _ _ _ _ _ _ C) m _ p Ha)) as (i & Ep & Hi); [left|]. fold (page_at z i) in Ep.
  injection E as _ <-. destruct (core_block _ _ _ _ _ _ _ _ _ C Hi) as (_ & Hm12 & _). pose proof (pow2_pos m).
  intros j i0 k Hu _ Hj.
  assert (~ i <= j < i + pow2 m) as Hout.
  { intros Hin. assert (i0 = i) as -> by (eapply (tl_unique _ _ _ _ _ _ _ _ _ j (zi_tile _ _ _ _ _ _ C)); [exact Hu|exact Hi|lia|lia]).
    unfold used in Hu. congruence. }
  unfold easy_mem_set_page_used. rewrite Ep, (order_size_pow2 m). cbn [page_flags set_page_flags].
  set (z1 := set_free_pages _ _). assert (mem_start (easy_mem_expand z1 (page_at z i) order m (pow2 m)) = mem_start z) as Hms.
  { assert (forall h z0 p sz, mem_start (easy_mem_expand z0 p order h sz) = mem_start z0) as He.
    { clear. induction h as [|h IH]; intros z0 p sz; [done|]. cbn [easy_mem_expand]. case_match; [|done]. by rewrite IH. }
    by rewrite He. }
  rewrite Hms, page_index, lookup_insert_ne by lia. rewrite (expand_flags z i order m z1) by (done || lia). done.
Qed.

Lemma rmqueue_core z n N B d order :
  zone_core z n N B [] d ->
  match easy_mem_rmqueue z order with
  | (Some page, z') => exists i m' B', page = page_at z i /\ B !! i = Some (m', false) /\
      (order <= m')%nat /\ zone_core z' n N B' [] d /\
      (forall j k, used B' j k <-> (j = i /\ k = order) \/ used B j k) /\
      mem_start z' = mem_start z /\ max_order z' = max_order z
  | (None, z') => z' = z /\ forall i k, (order <= k)%nat -> B !! i <> Some (k, false)
  end.
Proof. intros C. apply rmqueue_from_core; [done|lia..|]. intros i k ?. lia. Qed.

(** One round of the coalescing loop: the free buddy is taken off its list and
    the two halves become one held block. *)
Lemma merge_step_core z n N B d i k :
  zone_core z n N B [i] d -> B !! i = Some (k, true) -> (k < max_order z)%nat ->
  B !! buddy i k = Some (k, false) ->
  let z1 := set_area z (alter (area_del (page_at z (buddy i k))) k (area z)) in
  let z2 := set_page_flags z1 (<[buddy i k := 0]> (page_flags z1)) in
  exists B', zone_core z2 n N B' [combined i k] (d - pow2 k) /\
    B' !! combined i k = Some (S k, true) /\
    (forall j m, used B' j m <-> (j = combined i k /\ m = S k) \/ (j <> i /\ used B j m)) /\
    (forall j m, B' !! j = Some (m, false) -> B !! j = Some (m, false)) /\
    (combined i k = i \/ combined i k = buddy i k).
Proof.
  intros C Hi Hk Hb z1 z2. destruct (core_block _ _ _ _ _ _ _ _ _ C Hi) as (_ & _ & _ & Hal & _).
  pose proof (core_take _ _ _ _ _ _ _ _ C Hb) as C1.
  apply (core_flag _ _ _ _ _ _ (buddy i k) 0) in C1; [|set_solver]. fold z1 z2 in C1.
  pose proof (buddy_ne i k Hal) as Hbne. pose proof (pow2_pos k) as Hp.
  destruct (buddy_cases i k Hal) as [(Eb & -> & Hd)|(Eb & -> & Hd)]; rewrite Eb in *.
  - apply (core_merge _ _ _ _ _ _ i k) in C1; [|done|done| |by rewrite lookup_insert_eq].
    2: by rewrite lookup_insert_ne.
    eexists. split_and!; [|by rewrite lookup_insert_eq| | |by left].
    + apply (core_exempt _ _ _ _ _ [i] _ C1). intros j Hj Hin.
      destruct (decide (j = i + pow2 k)) as [->|]; [|set_solver].
      rewrite lookup_insert_ne, lookup_delete_eq in Hj by done. by destruct Hj.
    + intros j m. unfold used. rewrite lookup_insert_Some, lookup_delete_Some, lookup_insert_Some.
      split; [naive_solver|]. intros [[-> ->]|[Hne Hj]]; [by left|right].
      assert (i + pow2 k <> j) by congruence. naive_solver.
    + intros j m. rewrite lookup_insert_Some, lookup_delete_Some, lookup_insert_Some. naive_solver.
  - assert (i - pow2 k + pow2 k = i) as Ei by lia.
    assert (<[i - pow2 k := (k, true)]> B !! (i - pow2 k + pow2 k) = Some (k, true)) as Hi2
      by (rewrite Ei, lookup_insert_ne by lia; done).
    apply (core_merge _ _ _ _ _ _ (i - pow2 k) k) in C1; [|done|done|by rewrite lookup_insert_eq|done].
    rewrite Ei in C1.
    eexists. split_and!; [|by rewrite lookup_insert_eq| | |by right].
    + apply (core_exempt _ _ _ _ _ [i - pow2 k] _ C1). intros j Hj Hin.
      destruct (decide (j = i)) as [->|]; [|set_solver].
      rewrite lookup_insert_ne, lookup_delete_eq in Hj by done. by destruct Hj.
    + intros j m. unfold used. rewrite lookup_insert_Some, lookup_delete_Some, lookup_insert_Some.
      split; [naive_solver|]. intros [[-> ->]|[Hne Hj]]; [by left|right].
      assert (i - pow2 k <> j) by congruence. naive_solver.
    + intros j m. rewrite lookup_insert_Some, lookup_delete_Some, lookup_insert_Some. naive_solver.
Qed.

Lemma merge_loop_core n N : forall fuel z B d i k,
  zone_core z n N B [i] d -> B !! i = Some (k, true) -> (max_order z <= k + fuel)%nat ->
  exists z' i' k' B', merge_loop fuel z (page_at z i) i k = Some (z', page_at z i', k') /\
    zone_core z' n N B' [i'] (d + pow2 k - pow2 k') /\ B' !! i' = Some (k', true) /\
    ((k' < max_order z')%nat -> B' !! buddy i' k' <> Some (k', false)) /\
    (forall j m, used B' j m <-> (j = i' /\ m = k') \/ (j <> i /\ used B j m)) /\
    (forall m, used B i' m -> i' = i) /\ mem_start z' = mem_start z /\ keeps_inner B i (page_flags z) (page_flags z') /\
    max_order z' = max_order z.
Proof.
  induction fuel as [|fuel IH]; intros z B d i k C Hi Hf; cbn [merge_loop];
    destruct (Nat.ltb_spec k (max_order z)) as [Hk|Hk].
  1: lia.
  1,3: exists z, i, k, B; rewrite Z.add_simpl_r;
    split_and!; [done|done|done|lia|intros; by apply used_same|done|done|done|done].
  destruct (core_block _ _ _ _ _ _ _ _ _ C Hi) as (_ & Hk12 & _ & Hal & _).
  destruct (zi_range _ _ _ _ _ _ C) as (_ & _ & Hn & _).
  destruct (tl_buddy _ _ _ _ _ _ (zi_tile _ _ _ _ _ _ C) Hn Hi Hk) as (k' & u' & Hb & Hkk).
  unfold easy_mem_find_buddy_index, easy_mem_find_combined_index. rewrite order_size_pow2.
  fold (buddy i k) (combined i k).
  rewrite (zi_flags _ _ _ _ _ _ C _ _ _ Hb); [|pose proof (buddy_ne i k Hal); set_solver|lia].
  simpl. destruct (Z.eqb_spec (if u' then 128 + Z.of_nat k' else Z.of_nat k') (Z.of_nat k))
    as [E|E]; simpl.
  2: { exists z, i, k, B; rewrite Z.add_simpl_r. split_and!; [done|done|done| | |done|done|done|done].
       - intros _. rewrite Hb. intros [= -> ->]. done.
       - intros. by apply used_same. }
  destruct u'; [lia|]. assert (k' = k) as -> by lia. clear E.
  destruct (core_block _ _ _ _ _ _ _ _ _ C Hb) as (_ & _ & Hbr & _).
  destruct (merge_step_core _ _ _ _ _ _ _ C Hi Hk Hb) as (B1 & C1 & Hc & Hu & Hfr & Hcb).
  rewrite (index_to_page_at z) by lia.
  set (z2 := set_page_flags _ _) in *.
  destruct (core_block _ _ _ _ _ _ _ _ _ C1 Hc) as (_ & _ & Hcr & _).
  change (easy_mem_index_to_page _ (combined i k))
    with (easy_mem_index_to_page z (combined i k)).
  rewrite (index_to_page_at z) by lia. change (page_at z (combined i k)) with (page_at z2 (combined i k)).
  destruct (IH z2 B1 _ (combined i k) (S k) C1 Hc ltac:(simpl; lia))
    as (z' & i' & k' & B' & E & C' & Hi' & Hbd & Hu' & Hii & Hms & Hin & Hmo).
  exists z', i', k', B'. split_and!; [exact E| |done|done| | |done| |done].
  - rewrite pow2_S in C'.
    match type of C' with zone_core _ _ _ _ _ ?d1 =>
      replace d1 with (d + pow2 k - pow2 k') in C' by lia end. done.
  - intros j m. rewrite Hu', Hu. split; [naive_solver|]. intros [?|[Hne Hj]]; [by left|].
    right. split; [|by right]. intros ->. unfold used in *.
    destruct Hcb as [E2|E2]; rewrite E2 in *; congruence.
  - intros m Hm. destruct (decide (i' = i)) as [|Hne]; [done|exfalso].
    assert (i' = combined i k) as -> by (apply (Hii m), Hu; by right).
    unfold used in *. destruct Hcb as [E2|E2]; rewrite E2 in *; congruence.
  - intros j i0 k0 Hi0 Hne Hj. assert (i0 <> combined i k) as Hnc.
    { intros ->. unfold used in Hi0. destruct Hcb as [E2|E2]; rewrite E2 in *; congruence. }
    rewrite (Hin j i0 k0); [|apply Hu; by right|done|done]. unfold z2. cbn [page_flags set_page_flags set_area]. rewrite lookup_insert_ne; [done|].
    intros <-. by apply (inner_not_start _ _ _ _ _ _ _ _ (zi_tile _ _ _ _ _ _ C) Hi0 Hb).
Qed.

Lemma merge_buddy_core z n N B i k :
  zone_inv z n N B -> used B i k ->
  exists z' B', easy_mem_merge_buddy_page z (page_at z i) k = Some z' /\ zone_inv z' n N B' /\
    (forall j m, used B' j m <-> j <> i /\ used B j m) /\ mem_start z' = mem_start z /\
    keeps_inner B i (page_flags z) (page_flags z') /\ max_order z' = max_order z.
Proof.
  intros C Hi. destruct (core_block _ _ _ _ _ _ _ _ _ C Hi) as (_ & _ & Hir & _).
  unfold easy_mem_merge_buddy_page. rewrite page_to_index_at by lia.
  apply (core_exempt _ _ _ _ _ [i]) in C; [|set_solver].
  apply (core_free_pages _ _ _ _ _ _ (free_pages z + order_size k)) in C.
  rewrite order_size_pow2 in C |- *.
  set (z1 := set_free_pages z _) in *. change (page_at z i) with (page_at z1 i).
  destruct (merge_loop_core n N (max_order z1) z1 B _ i k C Hi ltac:(lia))
    as (z' & i' & k' & B' & E & C' & Hi' & Hbd & Hu & Hii & Hms & Hin & Hmo).
  rewrite E. simpl. pose proof (zi_tile _ _ _ _ _ _ C') as Ht. destruct (core_block _ _ _ _ _ _ _ _ _ C' Hi') as (_ & Hk12 & _).
  apply (core_put _ _ _ _ [] _ i' k') in C'; [|done|done].
  eexists _, _. split_and!; [done| | |done| |done].
  - unfold easy_mem_set_page_free, zone_inv.
    assert (page_at z1 i' = page_at z' i') as -> by (unfold page_at; by rewrite Hms).
    rewrite page_index, flag_free by done. simpl in *.
    match type of C' with zone_core _ _ _ _ _ ?d1 => replace d1 with 0 in C' by lia end.
    exact C'.
  - intros j m. unfold used at 1. rewrite lookup_insert_Some. fold (used B' j m). rewrite Hu.
    split; [naive_solver|]. intros [Hne Hj]. right. split; [|by right].
    intros ->. apply Hne. by apply (Hii m).
  - intros j i0 k0 Hi0 Hne Hj. unfold easy_mem_set_page_free. cbn [page_flags set_page_flags set_area mem_start].
    assert (page_at z1 i' = page_at z' i') as -> by (unfold page_at; by rewrite Hms). rewrite page_index, lookup_insert_ne; [by apply (Hin j i0 k0)|].
    intros <-. refine (inner_not_start _ _ _ i0 k0 _ _ _ Ht _ Hi' Hj). apply Hu. by right.
Qed.

(** ** Maximal coalescing *)

(** An aligned run of pages none of which is handed out lies in one free
    block: two free halves would have been merged. *)
Lemma free_run z n N B d : zone_core z n N B [] d -> forall m c,
  (m <= max_order z)%nat -> (pow2 m | c) -> 0 <= c -> c + pow2 m <= n ->
  (forall j k p, used B j k -> c <= p < c + pow2 m -> ~ j <= p < j + pow2 k) ->
  exists j k, B !! j = Some (k, false) /\ (m <= k)%nat /\ j <= c < j + pow2 k.
Proof.
  intros C. induction m as [|m IH]; intros c Hm Hc H0 Hn Hfree.
  { change (pow2 0) with 1 in *.
    destruct (tl_cover _ _ _ (zi_tile _ _ _ _ _ _ C) c ltac:(lia)) as (j & k & u & Hj & Hin).
    exists j, k. split_and!; [|lia|lia..]. destruct u; [|done].
    by destruct (Hfree j k c Hj ltac:(lia)). }
  pose proof (pow2_pos m) as Hp. rewrite pow2_S in Hn, Hfree.
  assert (pow2 m | c) as Hcm by (by apply divide_pow2_S).
  destruct (IH c) as (j1 & k1 & Hj1 & Hk1 & Hin1); [lia|done|lia|lia| |].
  { intros j k p Hj Hpr. apply (Hfree j k p Hj). lia. }
  destruct (decide (S m <= k1)%nat) as [?|Hlt]; [eauto|].
  assert (k1 = m) as -> by lia. clear Hk1 Hlt.
  destruct (core_block _ _ _ _ _ _ _ _ _ C Hj1) as (_ & _ & _ & Hal1 & _).
  assert (j1 = c) as ->.
  { pose proof (divide_small _ _ Hp (Z.divide_sub_r _ _ _ Hcm Hal1)). lia. }
  destruct (IH (c + pow2 m)) as (j2 & k2 & Hj2 & Hk2 & Hin2); [lia| |lia|lia| |].
  { by apply Z.divide_add_r. }
  { intros j k p Hj Hpr. apply (Hfree j k p Hj). lia. }
  destruct (core_block _ _ _ _ _ _ _ _ _ C Hj2) as (_ & _ & _ & Hal2 & _).
  assert (j2 = c + pow2 m) as ->.
  { assert (c < j2) as Hc2.
    { destruct (Z.lt_trichotomy j2 c) as [Hlt|[->|]]; [|simplify_eq; lia|done].
      pose proof (tl_disj _ _ _ (zi_tile _ _ _ _ _ _ C) _ _ _ _ _ _ Hj2 Hj1 Hlt). lia. }
    pose proof (tl_disj _ _ _ (zi_tile _ _ _ _ _ _ C) _ _ _ _ _ _ Hj1 Hj2 Hc2). lia. }
  destruct (decide (k2 = m)) as [->|].
  - exfalso. apply (zi_coal _ _ _ _ _ _ C c m Hj1 ltac:(lia)).
    destruct (buddy_cases c m Hcm) as [(-> & _)|(_ & _ & Hd)]; [done|].
    assert (pow2 (S m) | c - (c - pow2 m)) as Hd' by (by apply Z.divide_sub_r).
    pose proof (divide_gap _ _ (pow2_pos (S m)) Hd'). rewrite pow2_S in *. lia.
  - exfalso. assert (pow2 (S m) | (c + pow2 m) - c) as Hd.
    { apply Z.divide_sub_r; [|done]. etransitivity; [|done]. apply pow2_divide. lia. }
    pose proof (divide_gap _ _ (pow2_pos (S m)) Hd). rewrite pow2_S in *. lia.
Qed.

Lemma sum_area_ge l : forall k n a, (forall k' a', l !! k' = Some a' -> 0 <= nr_free a') ->
  l !! n = Some a -> pow2 (k + n) * nr_free a <= sum_area k l.
Proof.
  assert (forall l k, (forall k' a', l !! k' = Some a' -> 0 <= nr_free a') -> 0 <= sum_area k l)
    as Hpos.
  { clear. induction l as [|b l IH]; intros k Hl; simpl; [done|].
    pose proof (Hl 0%nat b eq_refl). pose proof (pow2_pos k).
    pose proof (IH (S k) (fun k' => Hl (S k'))). nia. }
  induction l as [|b l IH]; intros k n a Hl Hn; [done|]. destruct n as [|n]; simpl in *.
  - simplify_eq. rewrite Nat.add_0_r. pose proof (Hpos l (S k) (fun k' => Hl (S k'))). lia.
  - pose proof (IH (S k) n a (fun k' => Hl (S k')) Hn) as H1.
    replace (k + S n)%nat with (S k + n)%nat by lia.
    pose proof (Hl 0%nat b eq_refl). pose proof (pow2_pos k). nia.
Qed.

(** [free_pages] is at least the size of any free block. *)
Lemma free_pages_block z n N B i k :
  zone_inv z n N B -> B !! i = Some (k, false) -> pow2 k <= free_pages z.
Proof.
  intros C Hi. destruct (core_block _ _ _ _ _ _ _ _ _ C Hi) as (Hk & _).
  destruct (core_area _ _ _ _ _ _ k C Hk) as [a Ha]. pose proof (zi_lists _ _ _ _ _ _ C) as L.
  pose proof (zi_free _ _ _ _ _ _ C) as Hf.
  pose proof (proj2 (lo_in _ _ _ L k a (mem_start z + i * 65536) Ha) (ex_intro _ i (conj eq_refl Hi)))
    as Hin.
  pose proof (sum_area_ge (area z) 0 k a) as Hs. simpl in Hs.
  assert (1 <= nr_free a).
  { rewrite (lo_nr _ _ _ L _ _ Ha). destruct (free_list a); [set_solver|simpl; lia]. }
  pose proof (pow2_pos k). enough (pow2 k * nr_free a <= sum_area 0 (area z)) by nia.
  apply Hs; [|done]. intros k' a' Ha'. rewrite (lo_nr _ _ _ L _ _ Ha'). lia.
Qed.

(** ** The interface against the tiling *)

(** [rmqueue] on a zone whose counters are right. *)
Lemma rmqueue_spec z n N B order page z' :
  zone_inv z n N B -> easy_mem_rmqueue z order = (Some page, z') ->
  exists i B', page = page_at z i /\ zone_inv z' n N B' /\
    (pow2 order | i) /\ 0 <= i /\ i + pow2 order <= n /\
    (forall j k, used B' j k <-> (j = i /\ k = order) \/ used B j k) /\
    (forall j k, used B j k -> j + pow2 k <= i \/ i + pow2 order <= j) /\
    mem_start z' = mem_start z /\ max_order z' = max_order z.
Proof.
  intros C E. pose proof (rmqueue_core _ _ _ _ _ order C) as H. rewrite E in H.
  destruct H as (i & m & B' & -> & Hi & Hm & C' & Hu & Hms & Hmo).
  destruct (core_block _ _ _ _ _ _ _ _ _ C Hi) as (_ & _ & ? & Hal & ?).
  pose proof (pow2_le order m Hm). exists i, B'.
  split_and!; [done|done| |lia|lia|done| |done|done].
  - etransitivity; [|done]. by apply pow2_divide.
  - intros j k Hj. pose proof (zi_tile _ _ _ _ _ _ C) as T.
    destruct (Z.lt_trichotomy j i) as [Hlt|[->|Hlt]].
    + left. by eapply (tl_disj _ _ _ T).
    + unfold used in Hj. congruence.
    + right. pose proof (tl_disj _ _ _ T _ _ _ _ _ _ Hi Hj Hlt). lia.
Qed.

Definition allocated z n N (B : blocks) order page z' : Prop :=
  exists i n' B', page = page_at z i /\ zone_inv z' n' N B' /\ n <= n' /\
    (pow2 order | i) /\ 0 <= i /\ i + pow2 order <= N /\
    (forall j k, used B' j k <-> (j = i /\ k = order) \/ used B j k) /\
    (forall j k, used B j k -> j + pow2 k <= i \/ i + pow2 order <= j) /\
    mem_start z' = mem_start z /\ max_order z' = max_order z.

Lemma rmqueue_inner z n N B order page z' : zone_inv z n N B -> easy_mem_rmqueue z order = (Some page, z') ->
  forall x, keeps_inner B x (page_flags z) (page_flags z').
Proof. intros C E x. by apply (rmqueue_from_inner n N B 0 order (S (max_order z)) z order page z' C). Qed.

Lemma rmqueue_allocated z n N B order page z' :
  zone_inv z n N B -> easy_mem_rmqueue z order = (Some page, z') ->
  allocated z n N B order page z'.
Proof.
  intros C E. destruct (zi_range _ _ _ _ _ _ C) as (? & _).
  destruct (rmqueue_spec _ _ _ _ _ _ _ C E) as (i & B' & ? & ? & ? & ? & ? & ? & ? & ? & ?).
  exists i, n, B'. split_and!; [done|done|lia|done|done|lia|done..].
Qed.

(** The zone after the next maximal block was handed over to it. *)
Definition grown_zone (z : easy_mem_zone_t) : easy_mem_zone_t :=
  set_area (set_free_pages (set_mem_last z
      (mem_last z + Z.shiftl (order_size (max_order z)) EASY_MEM_PAGE_SHIFT))
      (free_pages z + order_size (max_order z)))
      (alter (area_add_head (mem_last z)) (max_order z) (area z)).

Lemma grown_inv z n N B : zone_inv z n N B -> n < N ->
  zone_inv (grown_zone z) (n + pow2 (max_order z)) N (<[n := (max_order z, false)]> B) /\
  forall j k, used (<[n := (max_order z, false)]> B) j k <-> used B j k.
Proof.
  intros C HnN. pose proof (core_grow _ _ _ _ _ C HnN) as C1.
  apply (core_free_pages _ _ _ _ _ _ (free_pages z + order_size (max_order z))) in C1.
  rewrite order_size_pow2 in C1. simpl in C1. split.
  - match type of C1 with zone_core ?z2 _ _ ?B2 _ ?d2 => replace d2 with 0 in C1 by lia; assert (z2 = grown_zone z) as Ez end.
    { unfold grown_zone. rewrite order_size_pow2, Z.shiftl_mul_pow2 by done.
      change (2 ^ EASY_MEM_PAGE_SHIFT) with 65536.
      rewrite (zi_last _ _ _ _ _ _ C). unfold set_free_pages, set_area, set_mem_last, page_at. simpl.
      f_equal. lia. }
    by rewrite Ez in C1.
  - intros j k. unfold used. rewrite lookup_insert_Some. split; [naive_solver|].
    intros Hj. right. split; [|done]. intros <-.
    destruct (core_block _ _ _ _ _ _ _ _ _ C Hj) as (_ & _ & _ & _ & ?).
    pose proof (pow2_pos k). lia.
Qed.

(** Handing over the next maximal block makes any admissible request succeed. *)
Lemma grow_allocated z n N B order :
  zone_inv z n N B -> n < N -> (order <= max_order z)%nat ->
  exists page z', easy_mem_rmqueue (grown_zone z) order = (Some page, z') /\ allocated z n N B order page z'.
Proof.
  intros C HnN Ho. destruct (grown_inv z n N B C HnN) as [C1 HB].
  destruct (easy_mem_rmqueue (grown_zone z) order) as [[page|] z'] eqn:E.
  2: { pose proof (rmqueue_core _ _ _ _ _ order C1) as H1. rewrite E in H1. destruct H1 as [_ H1].
       exfalso. apply (H1 n (max_order z) Ho). by rewrite lookup_insert_eq. }
  exists page, z'. split; [done|].
  destruct (rmqueue_spec _ _ _ _ _ _ _ C1 E) as (i & B' & ? & C' & ? & ? & ? & Hu & Hd & ? & ?).
  destruct (zi_range _ _ _ _ _ _ C1) as (? & _). pose proof (pow2_pos (max_order z)).
  exists i, (n + pow2 (max_order z)), B'.
  split_and!; [done|done|lia|done|done|lia| | |done|done].
  - intros j k. by rewrite Hu, HB.
  - intros j k Hj. by apply Hd, HB.
Qed.

(** The request as [easy_mem_alloc_pages] answers it: a run of [2^order]
    pages, naturally aligned, in the zone and disjoint from everything handed
    out before; or NULL, with the zone unchanged, when the order is too large
    or every aligned run of that size of the fully handed-over zone meets a
    page in use. *)
Definition alloc_post z n N (B : blocks) order (r : option Z * easy_mem_zone_t) : Prop :=
  match r with
  | (Some page, z') => (order <= max_order z)%nat /\ allocated z n N B order page z'
  | (None, z') => z' = z /\ ((max_order z < order)%nat \/
      n = N /\ forall c, (pow2 order | c) -> 0 <= c -> c + pow2 order <= N ->
        ~ forall j k p, used B j k -> c <= p < c + pow2 order -> ~ j <= p < j + pow2 k)
  end.

Lemma alloc_pages_ok z n N B order :
  zone_inv z n N B -> alloc_post z n N B order (easy_mem_alloc_pages z order).
Proof.
  intros C. unfold easy_mem_alloc_pages.
  destruct (Nat.ltb_spec (max_order z) order) as [Hlt|Hge]; [simpl; auto|].
  pose proof (zi_last _ _ _ _ _ _ C) as Hl. pose proof (zi_end _ _ _ _ _ _ C) as He.
  destruct (zi_range _ _ _ _ _ _ C) as (Hr & _).
  set (first := if order_size order <=? free_pages z then _ else _).
  assert ((exists page z', first = (Some page, z') /\ allocated z n N B order page z') \/
    ((exists z', first = (None, z')) /\ forall i k, (order <= k)%nat -> B !! i <> Some (k, false)))
    as [(page & z' & -> & HA)|[(z' & ->) Hno]]; [|done|].
  { unfold first. destruct (Z.leb_spec (order_size order) (free_pages z)) as [Hf|Hf].
    - destruct (easy_mem_rmqueue z order) as [[page|] z'] eqn:E.
      + left. exists page, z'. split; [done|]. by apply rmqueue_allocated.
      + right. pose proof (rmqueue_core _ _ _ _ _ order C) as H. rewrite E in H. naive_solver.
    - right. split; [eauto|]. intros i k Hk Hi. pose proof (free_pages_block _ _ _ _ _ _ C Hi).
      pose proof (pow2_le _ _ Hk). rewrite order_size_pow2 in Hf. lia. }
  destruct (Z.ltb_spec (mem_last z) (mem_end z)) as [Hm|Hm].
  - destruct (grow_allocated z n N B order C) as (page & z2 & E & HA);
      [unfold page_at in *; lia|done|].
    match type of E with ?l = _ => change (alloc_post z n N B order l) end. by rewrite E.
  - assert (n = N) as -> by (unfold page_at in *; lia). simpl. split; [done|]. right. split; [done|].
    intros c Hc H0 HN Hfree.
    destruct (free_run _ _ _ _ _ C order c Hge Hc H0 HN Hfree) as (j & k & Hj & Hk & _).
    by apply (Hno j k Hk).
Qed.

Lemma alloc_pages_inner z n N B order page z' : zone_inv z n N B -> easy_mem_alloc_pages z order = (Some page, z') ->
  forall x, keeps_inner B x (page_flags z) (page_flags z').
Proof.
  intros C E x. unfold easy_mem_alloc_pages in E. destruct (Nat.ltb_spec (max_order z) order) as [?|Hge]; [done|].
  set (first := if order_size order <=? free_pages z then _ else _) in E.
  assert (forall p z1, first = (Some p, z1) -> keeps_inner B x (page_flags z) (page_flags z1)) as Hf.
  { intros p z1. unfold first. destruct (order_size order <=? free_pages z); [|done]. intros E1. by apply (rmqueue_inner z n N B order p). }
  destruct first as [[p|] z1]; [injection E as <- <-; by eapply Hf|]. destruct (Z.ltb_spec (mem_last z) (mem_end z)) as [Hm|]; [|done].
  assert (n < N) as HnN by (rewrite (zi_last _ _ _ _ _ _ C), (zi_end _ _ _ _ _ _ C) in Hm; unfold page_at in Hm; lia).
  destruct (grown_inv z n N B C HnN) as [C1 HB].
  intros j i k Hu Hne Hj. apply (rmqueue_inner _ _ _ _ _ _ _ C1 E x j i k); [by apply HB|done|done].
Qed.

(** C33 (functional).  [easy_mem_alloc_pages] on a zone in its invariant returns
    a naturally aligned run of 2^order pages inside the zone, disjoint from
    every block handed out before, and re-establishes the invariant with
    exactly that block added to the used ones; it returns NULL, leaving the
    zone unchanged, only for an order above the zone's maximum or when the
    whole zone was handed over and no aligned run of that size is free. *)
Theorem easy_mem_alloc_pages_spec z n N B order :
  zone_inv z n N B -> alloc_post z n N B order (easy_mem_alloc_pages z order).
Proof. apply alloc_pages_ok. Qed.

Lemma free_pages_ok z n N B i k :
  zone_inv z n N B -> used B i k ->
  exists z' B', easy_mem_free_pages z (page_at z i) = Some z' /\ zone_inv z' n N B' /\
    (forall j m, used B' j m <-> j <> i /\ used B j m) /\
    ((forall j m, used B j m -> j = i) ->
     forall j m u, B' !! j = Some (m, u) -> m = max_order z' /\ u = false) /\
    mem_start z' = mem_start z /\ keeps_inner B i (page_flags z) (page_flags z') /\ max_order z' = max_order z.
Proof.
  intros C Hi. destruct (merge_buddy_core _ _ _ _ _ _ C Hi) as (z' & B' & E & C' & Hu & Hms & Hin0 & Hmo).
  destruct (core_block _ _ _ _ _ _ _ _ _ C Hi) as (_ & Hk12 & Hir & _ & Hin).
  pose proof (pow2_pos k).
  exists z', B'. split_and!; [|done|done| |done|done|done].
  - unfold easy_mem_free_pages. pose proof (zi_last _ _ _ _ _ _ C) as Hl.
    change EASY_MEM_PAGE_SIZE with 65536.
    destruct (Z.ltb_spec (page_at z i) (mem_start z)) as [?|_]; [unfold page_at in *; lia|].
    destruct (Z.ltb_spec (mem_last z - 65536) (page_at z i)) as [?|_]; [unfold page_at in *; lia|].
    simpl. rewrite page_to_index_at by lia.
    rewrite (zi_flags _ _ _ _ _ _ C _ _ _ Hi); [|set_solver|by left].
    simpl. destruct (flag_used_bits k Hk12) as [E1 E2]. by rewrite E1, E2.
  - intros Hall j m u Hj. destruct u.
    { exfalso. destruct (proj1 (Hu j m) Hj) as [Hne Hj']. by apply Hne, (Hall j m). }
    split; [|done]. destruct (core_block _ _ _ _ _ _ _ _ _ C' Hj) as (Hm & _ & ? & _ & ?).
    destruct (zi_range _ _ _ _ _ _ C') as (_ & _ & Hn & _). set (mx := max_order z') in *.
    pose proof (pow2_pos mx) as Hp. set (c := j / pow2 mx * pow2 mx).
    assert (c <= j < c + pow2 mx /\ 0 <= c) as [Hc Hc0].
    { pose proof (Z.div_mod j (pow2 mx) ltac:(lia)). pose proof (Z.mod_pos_bound j (pow2 mx) Hp).
      pose proof (Z.div_pos j (pow2 mx) ltac:(lia) Hp). unfold c. nia. }
    assert (pow2 mx | c) as Hdc by (by exists (j / pow2 mx)).
    pose proof (pow2_pos m).
    pose proof (divide_gap _ _ Hp (Z.divide_sub_r _ _ _ Hn Hdc)).
    destruct (free_run _ _ _ _ _ C' mx c) as (j' & k' & Hj' & Hk' & Hin'); [lia|done|lia|lia| |].
    { intros j0 k0 p Hj0. exfalso. destruct (proj1 (Hu j0 k0) Hj0) as [Hne Hj0'].
      by apply Hne, (Hall j0 k0). }
    destruct (core_block _ _ _ _ _ _ _ _ _ C' Hj') as (Hk2 & _ & _ & Hal' & _).
    assert (k' = mx) as -> by (unfold mx in *; lia).
    assert (j' = c) as ->.
    { pose proof (divide_small _ _ Hp (Z.divide_sub_r _ _ _ Hdc Hal')). lia. }
    assert (j = c) as Ejc by (eapply (tl_unique _ _ _ _ _ _ _ _ _ j (zi_tile _ _ _ _ _ _ C')); [done|done|lia|lia]).
    rewrite Ejc in Hj. congruence.
Qed.

(** C25 (functional).  Freeing a handed-out block always succeeds: the flag
    bytes it reads were all written, the invariant holds again, that block and
    no other stops being used; and once no block is used, every block of the
    zone is of maximal order, so that no fragmentation survives. *)
Theorem easy_mem_free_pages_spec z n N B i k :
  zone_inv z n N B -> used B i k ->
  exists z' B', easy_mem_free_pages z (page_at z i) = Some z' /\ zone_inv z' n N B' /\
    (forall j m, used B' j m <-> j <> i /\ used B j m) /\
    ((forall j m, used B j m -> j = i) ->
     forall j m u, B' !! j = Some (m, u) -> m = max_order z' /\ u = false) /\
    mem_start z' = mem_start z.
Proof.
  intros C Hi. destruct (free_pages_ok z n N B i k C Hi) as (z' & B' & E & C' & Hu & Hmax & Hms & _). exists z', B'. by split_and!.
Qed.

(** ** Zone creation *)

Lemma zone_size_spec max_size : max_size <= 2 ^ 31 -> forall fuel o,
  (o <= 15)%nat -> (15 <= o + fuel)%nat -> (o = 0%nat \/ 2 ^ (15 + Z.of_nat o) < max_size) ->
  exists o', (o' <= 15)%nat /\
    zone_size fuel max_size (2 ^ (16 + Z.of_nat o)) o = (2 ^ (16 + Z.of_nat o'), o') /\
    max_size <= 2 ^ (16 + Z.of_nat o') /\
    (o' = 0%nat \/ 2 ^ (15 + Z.of_nat o') < max_size).
Proof.
  intros Hms. induction fuel as [|fuel IH]; intros o Ho Hf Hmin.
  { assert (o = 15%nat) as -> by lia. exists 15%nat. simpl. done. }
  cbn [zone_size]. destruct (Z.ltb_spec (2 ^ (16 + Z.of_nat o)) max_size) as [Hlt|Hge];
    [|exists o; done].
  assert (o < 15)%nat as Ho'.
  { destruct (decide (o = 15%nat)) as [->|]; [|lia]. simpl in *. lia. }
  rewrite Z.shiftl_mul_pow2 by done. change (2 ^ 1) with 2. rewrite Z.mul_comm, <- Z.pow_succ_r by lia.
  replace (Z.succ (16 + Z.of_nat o)) with (16 + Z.of_nat (S o)) by lia.
  rewrite wraps_small; [|split; [lia|]|lia].
  - apply IH; [lia..|]. right. replace (15 + Z.of_nat (S o)) with (16 + Z.of_nat o) by lia. done.
  - apply Z.pow_lt_mono_r; lia.
Qed.

Lemma divide_2pow a b : 0 <= a <= b -> (2 ^ a | 2 ^ b).
Proof. intros H. exists (2 ^ (b - a)). rewrite <- Z.pow_add_r by lia. f_equal. lia. Qed.

Lemma lists_ok_empty start : lists_ok start (replicate EASY_MEM_MAX_ORDER (Area [] 0)) ∅.
Proof.
  split; [done|intros k a Ha|intros k a Ha|intros k a p Ha];
    apply lookup_replicate_1 in Ha as [-> _]; simpl.
  - constructor.
  - done.
  - split; [set_solver|]. intros (i & _ & Hi). by rewrite lookup_empty in Hi.
Qed.

(** A zone with nothing handed over yet. *)
Definition fresh_zone (start : Z) (mo : nat) (size cur cur_end : Z) : easy_mem_zone_t :=
  Zone start start (start + size) (replicate EASY_MEM_MAX_ORDER (Area [] 0)) mo 0 cur cur_end ∅.

Lemma fresh_zone_inv start mo N cur cur_end :
  (mo < 12)%nat -> 0 <= N <= 32768 -> (pow2 mo | N) ->
  zone_inv (fresh_zone start mo (N * 65536) cur cur_end) 0 N ∅.
Proof.
  intros Hmo HN Hd. split; unfold page_at; simpl.
  - done.
  - split_and!; [lia|lia|lia|apply Z.divide_0_r|done].
  - lia.
  - done.
  - apply tl_empty.
  - apply lists_ok_empty.
  - intros i k u Hi. by rewrite lookup_empty in Hi.
  - done.
  - intros i k Hi. by rewrite lookup_empty in Hi.
Qed.

(** The layout [easy_mem_zone_create] computes, for the sixteen possible
    orders: header and flag array fit the first page. *)
Lemma zone_layout o : (o <= 15)%nat ->
  let size := 2 ^ (16 + Z.of_nat o) in
  let pos := i32 (size / EASY_MEM_PAGE_SIZE + sizeof_easy_mem_zone_t) in
  let asize := i32 (Z.shiftl 1 (Z.of_nat EASY_MEM_MAX_ORDER + EASY_MEM_PAGE_SHIFT - 1)) in
  pos = 2 ^ Z.of_nat o + 336 /\
  i32 (easy_align (2 ^ Z.of_nat o + 336) EASY_MEM_PAGE_SIZE) = 65536 /\
  i32 (easy_max 65536 (easy_min asize size)) = 2 ^ (16 + Z.of_nat (Nat.min o 11)) /\
  2 ^ Z.of_nat o + 336 <= easy_align (2 ^ Z.of_nat o + 336) 32 <= 65536 /\
  size / EASY_MEM_PAGE_SIZE = 2 ^ Z.of_nat o /\
  (if (EASY_MEM_MAX_ORDER <=? o)%nat then (EASY_MEM_MAX_ORDER - 1)%nat else o) = Nat.min o 11.
Proof.
  intros Ho. do 16 (destruct o as [|o]; [vm_compute; split_and!; first [reflexivity|discriminate]|]).
  lia.
Qed.

(** The size and the order of a zone for [max_size] bytes. *)
Definition zone_shape (max_size size : Z) (order : nat) : Prop :=
  (order <= 15)%nat /\ size = 2 ^ (16 + Z.of_nat order) /\ max_size <= size /\
  (order = 0%nat \/ size < 2 * max_size).

Lemma zone_create_ok memalign max_size z :
  (forall a s p, memalign a s = Some p -> 0 <= p /\ (a | p)) ->
  0 < max_size <= 2 ^ 31 ->
  easy_mem_zone_create memalign max_size = Some z ->
  exists memptr len size order,
    memalign EASY_MEM_PAGE_SIZE len = Some memptr /\ zone_shape max_size size order /\
    zone_inv z 0 (size / EASY_MEM_PAGE_SIZE) ∅ /\
    max_order z = Nat.min order 11 /\
    (EASY_MEM_PAGE_SIZE * pow2 (max_order z) | mem_start z) /\
    memptr + sizeof_easy_mem_zone_t + size / EASY_MEM_PAGE_SIZE <= curr z <= curr_end z /\
    curr_end z <= mem_start z /\ mem_end z = mem_start z + size /\ mem_end z <= memptr + len.
Proof.
  intros Hma Hms E. unfold easy_mem_zone_create in E.
  destruct (zone_size_spec max_size ltac:(lia) 47 0) as (o & Ho & Es & Hge & Hmin); [lia|lia|auto|].
  change (2 ^ (16 + Z.of_nat 0)) with EASY_MEM_PAGE_SIZE in Es. rewrite Es in E. clear Es.
  destruct (zone_layout o Ho) as (E1 & E2 & E3 & Hal & Hdiv & Hmo).
  rewrite E1, E2, E3, Hmo in E. clear E1 E2 E3 Hmo.
  apply bind_Some in E as (memptr & Em & E). injection E as <-.
  pose proof (Hma _ _ _ Em) as [Hm0 Hm1].
  exists memptr, (2 ^ (16 + Z.of_nat (Nat.min o 11)) + 2 ^ (16 + Z.of_nat o)), (2 ^ (16 + Z.of_nat o)), o.
  cbn [max_order mem_start mem_end curr curr_end]. rewrite Hdiv.
  change EASY_MEM_PAGE_SIZE with 65536 in *.
  set (q := 16 + Z.of_nat (Nat.min o 11)) in *.
  destruct (easy_align_spec (memptr + 65536) q ltac:(lia)) as [Hms1 Hms2].
  set (ms := easy_align (memptr + 65536) (2 ^ q)) in *.
  assert (65536 * pow2 (Nat.min o 11) = 2 ^ q) as Eq.
  { unfold q, pow2. rewrite Z.pow_add_r by lia. done. }
  assert (2 ^ (16 + Z.of_nat o) = 65536 * pow2 o) as Esz.
  { unfold pow2. rewrite Z.pow_add_r by lia. done. }
  assert (pow2 o <= 32768) as Hpo by (change 32768 with (pow2 15); by apply pow2_le).
  pose proof (pow2_pos o).
  split_and!; [done| | |done|by rewrite Eq|unfold sizeof_easy_mem_zone_t; lia|lia|lia|done|].
  - split_and!; [done|done|done|]. destruct Hmin as [->|Hmin]; [by left|right].
    replace (16 + Z.of_nat o) with (Z.succ (15 + Z.of_nat o)) by lia.
    rewrite Z.pow_succ_r by lia. lia.
  - rewrite Esz, Z.mul_comm. apply fresh_zone_inv; fold (pow2 o); [lia..|]. apply pow2_divide. lia.
  - assert (65536 | ms - (memptr + 65536)) as Hd.
    { apply Z.divide_sub_r; [|by apply Z.divide_add_r].
      etransitivity; [|done]. rewrite <- Eq. apply Z.divide_factor_l. }
    assert (65536 | 2 ^ q - (ms - (memptr + 65536))) as Hd2.
    { apply Z.divide_sub_r; [|done]. rewrite <- Eq. apply Z.divide_factor_l. }
    pose proof (divide_gap 65536 _ ltac:(lia) Hd2). lia.
Qed.

(** For up to 2 GB a created zone satisfies the allocator's
    invariant with nothing handed out; its pages cover at least [max_size] and
    less than twice that (or one page); the page area is aligned to the
    largest block, lies inside the region obtained from memalign, and header,
    flag array and page area do not overlap. *)
Theorem easy_mem_zone_create_spec memalign max_size z :
  (forall a s p, memalign a s = Some p -> 0 <= p /\ (a | p)) ->
  0 < max_size <= 2 ^ 31 ->
  easy_mem_zone_create memalign max_size = Some z ->
  exists memptr len size order,
    memalign EASY_MEM_PAGE_SIZE len = Some memptr /\ zone_shape max_size size order /\
    zone_inv z 0 (size / EASY_MEM_PAGE_SIZE) ∅ /\
    max_order z = Nat.min order 11 /\
    (EASY_MEM_PAGE_SIZE * pow2 (max_order z) | mem_start z) /\
    memptr + sizeof_easy_mem_zone_t + size / EASY_MEM_PAGE_SIZE <= curr z <= curr_end z /\
    curr_end z <= mem_start z /\ mem_end z = mem_start z + size /\ mem_end z <= memptr + len.
Proof. apply zone_create_ok. Qed.

(** ** Witnesses *)

(** A zone of eight pages at address 1M with blocks of up to four pages. *)
Definition demo_zone0 : easy_mem_zone_t := fresh_zone 1048576 2 (8 * 65536) 700000 720000.
Definition demo_zone1 : easy_mem_zone_t := snd (easy_mem_alloc_pages demo_zone0 2).
Definition demo_blocks1 : blocks := <[0 := (2%nat, true)]> (<[0 := (2%nat, false)]> ∅).

Lemma demo_zone0_inv : zone_inv demo_zone0 0 8 ∅.
Proof. apply fresh_zone_inv; [lia..|]. by exists 2. Qed.

Lemma demo_zone1_inv : zone_inv demo_zone1 4 8 demo_blocks1.
Proof.
  pose proof (core_grow _ _ _ _ _ demo_zone0_inv ltac:(lia)) as C.
  apply (core_take _ _ _ _ _ _ 0 2) in C; [|done].
  apply (core_used _ _ _ _ _ _ 0 2) in C; [|done]. exact C.
Qed.

Lemma easy_mem_alloc_pages_spec_witness :
  zone_inv demo_zone1 4 8 demo_blocks1 /\
  fst (easy_mem_alloc_pages demo_zone1 1) = Some (1048576 + 4 * 65536) /\
  alloc_post demo_zone1 4 8 demo_blocks1 1 (easy_mem_alloc_pages demo_zone1 1).
Proof.
  split; [exact demo_zone1_inv|]. split; [vm_compute; reflexivity|].
  exact (easy_mem_alloc_pages_spec demo_zone1 4 8 demo_blocks1 1 demo_zone1_inv).
Defined.

Lemma easy_mem_free_pages_spec_witness :
  exists z' B', easy_mem_free_pages demo_zone1 (page_at demo_zone1 0) = Some z' /\
    zone_inv z' 4 8 B' /\ forall j m, ~ used B' j m.
Proof.
  destruct (easy_mem_free_pages_spec demo_zone1 4 8 demo_blocks1 0 2 demo_zone1_inv eq_refl)
    as (z' & B' & E & Hi & Hu & _). exists z', B'. split; [exact E|]. split; [exact Hi|].
  intros j m Hj. apply Hu in Hj as [Hne Hj]. unfold used, demo_blocks1 in Hj.
  rewrite !lookup_insert_ne in Hj by congruence. by rewrite lookup_empty in Hj.
Defined.

(** A memalign that hands out the region at 6.4M. *)
Definition demo_memalign (a _ : Z) : option Z :=
  if a =? 65536 then Some (65536 * 100) else None.

Lemma demo_memalign_ok a s p : demo_memalign a s = Some p -> 0 <= p /\ (a | p).
Proof.
  unfold demo_memalign. destruct (Z.eqb_spec a 65536) as [->|]; [|discriminate].
  intros [= <-]. split; [done|by exists 100].
Qed.

Lemma easy_mem_zone_create_spec_witness :
  exists z, easy_mem_zone_create demo_memalign 1000000 = Some z /\ zone_inv z 0 16 ∅ /\ max_order z = 4%nat.
Proof.
  eexists. split; [reflexivity|].
  destruct (easy_mem_zone_create_spec demo_memalign 1000000 _ demo_memalign_ok ltac:(lia) eq_refl)
    as (memptr & len & size & order & _ & (_ & -> & Hlo & Hhi) & Hi & Hmo & _).
  assert (order = 4%nat) as ->; [|exact (conj Hi Hmo)].
  destruct (decide (order <= 3)%nat) as [Hle|Hgt].
  - pose proof (Z.pow_le_mono_r 2 (16 + Z.of_nat order) 19 ltac:(lia) ltac:(lia)). lia.
  - destruct (decide (order = 4%nat)); [done|].
    pose proof (Z.pow_le_mono_r 2 21 (16 + Z.of_nat order) ltac:(lia) ltac:(lia)). lia.
Defined.

End MemPage.
