(* ===== verification/EasySlab.v ===== *)
(** * memory/easy_mem_slab.c: object caches over the page allocator

    A cache hands out objects of one size.  It takes runs of pages from the zone,
    slabs, each with a header that chains its free objects, and keeps the slabs on
    three lists: those with some, without and with only free objects.  The lists
    are sequences of slab addresses, head first (by the refinement of EasyList.v);
    the headers are the map [slabs] from the address of a slab.  A pointer to a
    cache is its index in [caches].  [None] is an access to a header that is not
    there, to an array outside its bounds, or to a flag byte nobody wrote.  The
    global [easy_mem_mgr_var] is [None] while it is zeroed. *)

From Stdlib Require Import ZArith Lia.
From stdpp Require Import base gmap list numbers option.
From S2P Require Import Prelude Tiling MemPage.

Local Open Scope Z_scope.

Module EasySlab.
Import MemPage.

Definition EASY_MEM_POS_END : Z := 65535.
Definition EASY_MEM_SLAB_MIN : Z := 512.
(** [sizeof] on LP64: two list pointers, [mem] and three 16-bit numbers; four
    lists, seven 32-bit numbers and the lock. *)
Definition sizeof_easy_mem_slab_t : Z := 32.
Definition sizeof_easy_mem_cache_t : Z := 104.

(** [mem] is 0 for NULL. *)
Record easy_mem_slab_t := Slab { mem : Z; inuse : Z; free : Z; cache_idx : nat; next_pos : list Z }.

Record easy_mem_cache_t := MemCache {
  slabs_partial : list Z; slabs_full : list Z; slabs_free : list Z;
  order : nat; buffer_size : Z; num : Z; offset : Z; free_objects : Z; free_limit : Z; idx : nat }.

Definition set_lists (p f e : list Z) (c : easy_mem_cache_t) : easy_mem_cache_t :=
  MemCache p f e (order c) (buffer_size c) (num c) (offset c) (free_objects c) (free_limit c) (idx c).
Definition set_free_objects (v : Z) (c : easy_mem_cache_t) : easy_mem_cache_t :=
  MemCache (slabs_partial c) (slabs_full c) (slabs_free c) (order c) (buffer_size c) (num c) (offset c) v (free_limit c) (idx c).

Record easy_mem_mgr_t := Mgr {
  started : bool; cache_max_num : Z; cache_fix_num : Z; caches : list easy_mem_cache_t;
  zone : easy_mem_zone_t; slabs : gmap Z easy_mem_slab_t }.
Definition cache_num (m : easy_mem_mgr_t) : Z := Z.of_nat (length (caches m)).
Definition set_caches v m := Mgr (started m) (cache_max_num m) (cache_fix_num m) v (zone m) (slabs m).
Definition set_zone v m := Mgr (started m) (cache_max_num m) (cache_fix_num m) (caches m) v (slabs m).
Definition set_slabs v m := Mgr (started m) (cache_max_num m) (cache_fix_num m) (caches m) (zone m) v.

(** ** Caches *)

(** The loop over the orders, from [order] on: the first one that wastes at most
    a quarter, or the last. *)
Fixpoint slab_geometry (tries : nat) (order : nat) (buffer_size : Z) : nat * Z * Z :=
  let size := i32 (Z.shiftl EASY_MEM_PAGE_SIZE (Z.of_nat order)) in
  let num := i32 (u64 (size - sizeof_easy_mem_slab_t) / u64 (buffer_size + 2)) in
  let left_over := i32 (u64 (i32 (size - i32 (num * buffer_size)) - sizeof_easy_mem_slab_t)) in
  if i32 (left_over * 4) <=? size then (order, size, num)
  else match tries with
       | O => (order, size, num)
       | S tries => slab_geometry tries (S order) buffer_size
       end.

Definition easy_mem_cache_create (buffer_size : Z) (m : easy_mem_mgr_t) : option nat * easy_mem_mgr_t :=
  if cache_num m <? cache_max_num m then
    let '(order, size, num) := slab_geometry EASY_MEM_MAX_ORDER 0 buffer_size in
    let i := length (caches m) in
    let c := MemCache [] [] [] order (u32 buffer_size) (u32 num) (u32 (size - u32 (u32 num * u32 buffer_size))) 0 (u32 (u32 num * 2)) i in
    (Some i, set_caches (caches m ++ [c]) m)
  else (None, m).

(** The sizes from [size] on, doubled; the loop ends at the latest when no cache
    can be created. *)
Fixpoint init_loop (fuel : nat) (size start_alloc_size : Z) (m : easy_mem_mgr_t) : easy_mem_mgr_t :=
  match fuel with
  | O => m
  | S fuel =>
      if size <=? start_alloc_size then
        match easy_mem_cache_create size m with
        | (None, m) => m
        | (Some _, m) => init_loop fuel (i32 (Z.shiftl size 1)) start_alloc_size m
        end
      else m
  end.

Definition is_started (m : option easy_mem_mgr_t) : bool := match m with Some m => started m | None => false end.

Definition easy_mem_slab_init (memalign : Z -> Z -> option Z) (start_alloc_size max_size : Z) (m : option easy_mem_mgr_t) : Z * option easy_mem_mgr_t :=
  if is_started m then (EASY_ERROR, m)
  else
    match easy_mem_zone_create memalign max_size with
    | None => (EASY_ERROR, None)
    | Some z =>
        let cache_num := i32 (i32 (curr_end z - curr z) / sizeof_easy_mem_cache_t - 1) in
        let max_num := easy_max cache_num 1024 in
        let m := init_loop (Z.to_nat max_num + 1) EASY_MEM_SLAB_MIN start_alloc_size (Mgr false max_num 0 [] z ∅) in
        (EASY_OK, Some (Mgr true (cache_max_num m) (EasySlab.cache_num m) (caches m) (zone m) (slabs m)))
    end.
Definition easy_mem_slab_destroy (m : option easy_mem_mgr_t) : option easy_mem_mgr_t := if is_started m then None else m.

(** ** Objects of a slab *)

Definition easy_mem_slab_get_obj (c : easy_mem_cache_t) (s : easy_mem_slab_t) : option (Z * easy_mem_slab_t) :=
  next ← next_pos s !! Z.to_nat (free s);
  Some (mem s + u32 (buffer_size c * free s), Slab (mem s) (u16 (inuse s + 1)) next (cache_idx s) (next_pos s)).

Definition easy_mem_slab_put_obj (c : easy_mem_cache_t) (s : easy_mem_slab_t) (obj : Z) : option easy_mem_slab_t :=
  if buffer_size c =? 0 then None
  else
    let i := u16 (u32 (obj - mem s) / buffer_size c) in
    _ ← next_pos s !! Z.to_nat i;
    Some (Slab (mem s) (u16 (inuse s - 1)) i (cache_idx s) (<[Z.to_nat i := free s]> (next_pos s))).

Definition easy_mem_virt_to_slab (order : nat) (obj : Z) : Z :=
  let a := Z.shiftl 1 (EASY_MEM_PAGE_SHIFT + Z.of_nat order) in Z.land obj (Z.lnot (a - 1)).

(** Flag bytes [n] times from [i] on, and those of the pages objects start on. *)
Fixpoint set_flags (n : nat) (i v : Z) (f : gmap Z Z) : gmap Z Z :=
  match n with O => f | S n => set_flags n (i + 1) v (<[i := v]> f) end.
Fixpoint set_object_flags (n : nat) (z : easy_mem_zone_t) (ptr step v : Z) (f : gmap Z Z) : gmap Z Z :=
  match n with
  | O => f
  | S n => set_object_flags n z (ptr + step) step v (<[Z.shiftr (ptr - mem_start z) EASY_MEM_PAGE_SHIFT := v]> f)
  end.

(** [next_pos] after the loop: i + 1, and the end mark at the last. *)
Definition fresh_positions (num : Z) : list Z :=
  map (fun i => if (i =? Z.to_nat num - 1)%nat then EASY_MEM_POS_END else u16 (Z.of_nat i + 1)) (seq 0 (Z.to_nat num)).

(** A slab goes to the head of the list it belongs to after an allocation. *)
Definition shelve (a : Z) (s : easy_mem_slab_t) (c : easy_mem_cache_t) : easy_mem_cache_t :=
  if free s =? EASY_MEM_POS_END
  then set_lists (slabs_partial c) (a :: slabs_full c) (slabs_free c) c
  else set_lists (a :: slabs_partial c) (slabs_full c) (slabs_free c) c.
(** [easy_list_del] from whatever list it is on. *)
Definition unshelve (a : Z) (c : easy_mem_cache_t) : easy_mem_cache_t :=
  let del := filter (fun x => x <> a) in set_lists (del (slabs_partial c)) (del (slabs_full c)) (del (slabs_free c)) c.

Definition put_cache (i : nat) (c : easy_mem_cache_t) (m : easy_mem_mgr_t) := set_caches (<[i := c]> (caches m)) m.
Definition put_slab (a : Z) (s : easy_mem_slab_t) (m : easy_mem_mgr_t) := set_slabs (<[a := s]> (slabs m)) m.

(** ** Allocation *)

Definition easy_mem_cache_grow (i : nat) (m : easy_mem_mgr_t) : option (option Z * easy_mem_mgr_t) :=
  c ← caches m !! i;
  let '(page, z) := easy_mem_alloc_pages (zone m) (order c) in
  match page with
  | None => Some (None, set_zone z m)
  | Some a =>
      let v := u8 (Z.lor 128 (Z.of_nat (order c))) in
      let mem := a + offset c in
      let flags := if EASY_MEM_PAGE_SIZE <? buffer_size c
                   then set_object_flags (Z.to_nat (num c)) z mem (buffer_size c) v (page_flags z)
                   else set_flags (Z.to_nat (order_size (order c))) (Z.shiftr (a - mem_start z) EASY_MEM_PAGE_SHIFT) v (page_flags z) in
      let m := set_zone (set_page_flags z flags) m in
      if num c =? 0 then None
      else
        let s := Slab mem 0 0 (Z.to_nat (u16 (Z.of_nat (idx c)))) (fresh_positions (num c)) in
        let c := set_free_objects (u32 (free_objects c + num c)) c in
        x ← easy_mem_slab_get_obj c s;
        let '(obj, s) := x in
        Some (Some obj, put_cache i (shelve a s c) (put_slab a s m))
  end.

Definition easy_mem_cache_alloc (i : nat) (m : easy_mem_mgr_t) : option (option Z * easy_mem_mgr_t) :=
  c ← caches m !! i;
  match (slabs_partial c ++ slabs_free c) with
  | a :: _ =>
      s ← slabs m !! a;
      x ← easy_mem_slab_get_obj c s;
      let '(obj, s) := x in
      Some (Some obj, put_cache i (shelve a s (unshelve a c)) (put_slab a s m))
  | [] => easy_mem_cache_grow i m
  end.

Definition easy_mem_cache_free (i : nat) (obj : Z) (m : easy_mem_mgr_t) : option easy_mem_mgr_t :=
  c ← caches m !! i;
  let a := easy_mem_virt_to_slab (order c) obj in
  s ← slabs m !! a;
  s ← easy_mem_slab_put_obj c s obj;
  let c := unshelve a c in
  if inuse s =? 0 then
    if free_limit c <? free_objects c then
      let c := set_free_objects (u32 (free_objects c - num c)) c in
      z ← easy_mem_free_pages (zone m) a;
      Some (put_cache i c (set_zone z (set_slabs (delete a (slabs m)) m)))
    else Some (put_cache i (set_lists (slabs_partial c) (slabs_full c) (a :: slabs_free c) c) (put_slab a s m))
  else Some (put_cache i (set_lists (slabs_partial c ++ [a]) (slabs_full c) (slabs_free c) c) (put_slab a s m)).

(** ** Finding caches *)

Definition easy_mem_get_cache (m : easy_mem_mgr_t) (obj : Z) : option (option nat) :=
  let z := zone m in
  if (obj <? mem_start z) || (mem_end z <=? obj) then Some None
  else
    f ← page_flags z !! i32 (Z.shiftr (obj - mem_start z) EASY_MEM_PAGE_SHIFT);
    s ← slabs m !! easy_mem_virt_to_slab (Z.to_nat (Z.land f 15)) obj;
    Some (Some (cache_idx s)).

(** The binary search between [start] and [end]. *)
Fixpoint size_search (fuel : nat) (cs : list easy_mem_cache_t) (size : Z) (start end_ : nat) : option nat :=
  if (start =? end_)%nat then Some start
  else match fuel with
       | O => None
       | S fuel =>
           let mid := ((start + end_) / 2)%nat in
           c ← cs !! mid;
           let flag := i32 (u32 (buffer_size c - size)) in
           if 0 <? flag then size_search fuel cs size start mid
           else if flag <? 0 then size_search fuel cs size (S mid) end_
           else Some mid
       end.
Definition easy_mem_cache_size (m : easy_mem_mgr_t) (size : Z) : option (option nat) :=
  let size := u32 size in
  last ← list.last (caches m);
  if buffer_size last <? size then Some None
  else i ← size_search (length (caches m)) (caches m) size 0 (length (caches m) - 1); Some (Some i).

(** ** The allocator *)

(** The C library, and what was copied: destination, source and length. *)
Class Libc (L : Type) := {
  c_malloc : L -> Z -> option Z * L;
  c_realloc : L -> Z -> Z -> option Z * L;
  c_free : L -> Z -> L }.
Record world (L : Type) := World { mgr : easy_mem_mgr_t; libc : L; copies : list (Z * Z * Z) }.
Arguments World {L}.
Arguments mgr {L}.
Arguments libc {L}.
Arguments copies {L}.

(** [ptr] is [None] for NULL; copying to NULL is [None]. *)
Definition easy_mem_slab_realloc {L} `{Libc L} (w : world L) (ptr : option Z) (size : Z) : option (option Z * world L) :=
  match ptr with
  | Some obj =>
      cache ← easy_mem_get_cache (mgr w) obj;
      if size =? 0 then
        match cache with
        | Some i => m ← easy_mem_cache_free i obj (mgr w); Some (None, World m (libc w) (copies w))
        | None => Some (None, World (mgr w) (c_free (libc w) obj) (copies w))
        end
      else
        bs ← (match cache with Some i => option_map buffer_size (caches (mgr w) !! i) | None => Some 0 end);
        if bool_decide (is_Some cache) && (size <=? bs) then Some (Some obj, w)
        else
          ncache ← easy_mem_cache_size (mgr w) size;
          x ← (match ncache with
               | Some i => y ← easy_mem_cache_alloc i (mgr w); Some (fst y, World (snd y) (libc w) (copies w))
               | None =>
                   let '(p, l) := if bool_decide (is_Some cache) then c_malloc (libc w) size else c_realloc (libc w) obj size in
                   Some (p, World (mgr w) l (copies w))
               end);
          let '(p, w) := x in
          match cache with
          | Some i =>
              to ← p;
              m ← easy_mem_cache_free i obj (mgr w);
              Some (p, World m (libc w) (copies w ++ [(to, obj, bs)]))
          | None => Some (p, w)
          end
  | None =>
      ncache ← easy_mem_cache_size (mgr w) size;
      match ncache with
      | Some i => y ← easy_mem_cache_alloc i (mgr w); Some (fst y, World (snd y) (libc w) (copies w))
      | None => let '(p, l) := c_malloc (libc w) size in Some (p, World (mgr w) l (copies w))
      end
  end.

End EasySlab.
