(* ===== verification/EasySlabProofs.v ===== *)
(** * The slab allocator

    Objects are handed out once, apart from each other and inside the pages of
    their slab; freeing finds the slab and the cache of an object from its
    address. *)

From Stdlib Require Import ZArith Lia.
From stdpp Require Import base gmap list numbers option.
From S2P Require Import Prelude Tiling MemPage EasySlab.

Local Open Scope Z_scope.

Module EasySlabProofs.
Import MemPage EasySlab.

(** ** The shape of a slab *)

Definition slab_size (o : nat) : Z := 65536 * pow2 o.

Record cache_ok (i : nat) (c : easy_mem_cache_t) : Prop := {
  co_idx : idx c = i;
  co_buffer : EASY_MEM_SLAB_MIN <= buffer_size c < 2 ^ 31;
  co_num : 0 <= num c < EASY_MEM_POS_END;
  co_order : (order c <= 12)%nat;
  co_some : (order c < 12)%nat -> 1 <= num c;
  co_offset : offset c = slab_size (order c) - num c * buffer_size c;
  co_header : sizeof_easy_mem_slab_t + 2 * num c <= offset c }.

Lemma pow2_12 o : (o <= 12)%nat -> 1 <= pow2 o <= 4096.
Proof. intros Ho. pose proof (pow2_pos o). pose proof (pow2_le o 12 Ho). change (pow2 12) with 4096 in *. lia. Qed.

Lemma i32_small z : -2147483648 <= z < 2147483648 -> i32 z = z.
Proof. intros. apply wraps_small; [|lia]. change (2 ^ (32 - 1)) with 2147483648. lia. Qed.
Lemma u32_small z : 0 <= z < 4294967296 -> u32 z = z.
Proof. intros. apply wrapu_small. lia. Qed.
Lemma u16_small z : 0 <= z < 65536 -> u16 z = z.
Proof. intros. apply wrapu_small. lia. Qed.

Lemma geometry_ok bs : EASY_MEM_SLAB_MIN <= bs < 2 ^ 31 - 2 -> forall tries o, (o + tries = 12)%nat -> (o = 0%nat \/ 16000 < bs) ->
  exists o' n, slab_geometry tries o bs = (o', slab_size o', n) /\ (o' <= 12)%nat /\ 0 <= n < EASY_MEM_POS_END /\
    n * (bs + 2) <= slab_size o' - sizeof_easy_mem_slab_t /\ ((o' < 12)%nat -> 1 <= n).
Proof.
  unfold EASY_MEM_SLAB_MIN, EASY_MEM_POS_END, sizeof_easy_mem_slab_t. intros Hbs. induction tries as [|tries IH]; intros o Ho Hbig; cbn [slab_geometry];
    unfold sizeof_easy_mem_slab_t; pose proof (pow2_12 o ltac:(lia)) as Hp.
  all: assert (i32 (Z.shiftl EASY_MEM_PAGE_SIZE (Z.of_nat o)) = slab_size o) as Es
    by (unfold slab_size; rewrite Z.shiftl_mul_pow2 by lia; change EASY_MEM_PAGE_SIZE with 65536; fold (pow2 o); apply i32_small; lia);
    rewrite Es; unfold slab_size in *; set (size := 65536 * pow2 o) in *.
  all: rewrite (wrapu_small 64 (size - 32)), (wrapu_small 64 (bs + 2)) by lia; set (q := (size - 32) / (bs + 2)).
  all: assert (0 <= q /\ q * (bs + 2) <= size - 32 /\ size - 32 < q * (bs + 2) + (bs + 2)) as (Hq0 & Hq1 & Hq2) by (pose proof (Z.div_mod (size - 32) (bs + 2) ltac:(lia)); pose proof (Z.mod_pos_bound (size - 32) (bs + 2) ltac:(lia)); pose proof (Z.div_pos (size - 32) (bs + 2) ltac:(lia) ltac:(lia)); unfold q; lia).
  all: assert (q < 65535) as Hq by (destruct Hbig as [->|Hb]; [change (pow2 0) with 1 in *; nia|nia]).
  all: assert (q * bs <= size) by nia; rewrite (i32_small q), (i32_small (q * bs)), (i32_small (size - q * bs)) by lia.
  all: rewrite (wrapu_small 64) by nia; rewrite (i32_small (size - q * bs - 32)) by nia; rewrite (i32_small ((size - q * bs - 32) * 4)) by nia.
  all: destruct (Z.leb_spec ((size - q * bs - 32) * 4) size) as [Hle|Hgt].
  1,3: exists o, q; split_and!; [done|lia|lia|lia|lia|]; intros _; destruct (Z.eq_dec q 0) as [E|]; [rewrite E in Hle; lia|lia].
  - assert (o = 12%nat) by lia. exists o, q. split_and!; [done|lia..].
  - destruct (IH (S o)) as (o' & n & E & H1); [lia| |by exists o', n].
    destruct Hbig as [->|Hb]; [|by right]. right. change (pow2 0) with 1 in *. nia.
Qed.

Lemma cache_create_ok bs m i m' : EASY_MEM_SLAB_MIN <= bs < 2 ^ 31 - 2 -> easy_mem_cache_create bs m = (Some i, m') ->
  exists c, i = length (caches m) /\ m' = set_caches (caches m ++ [c]) m /\ cache_ok i c /\ buffer_size c = bs /\
    slabs_partial c = [] /\ slabs_full c = [] /\ slabs_free c = [] /\ free_objects c = 0.
Proof.
  intros Hbs. unfold easy_mem_cache_create. case_match; [|done].
  destruct (geometry_ok bs Hbs EASY_MEM_MAX_ORDER 0) as (o & n & -> & Ho & Hn & Hfit & Hone); [done|by left|].
  unfold EASY_MEM_SLAB_MIN, EASY_MEM_POS_END, sizeof_easy_mem_slab_t in *. pose proof (pow2_12 o Ho). unfold slab_size in *.
  intros [= <- <-]. eexists. split; [done|]. split; [done|]. cbn [slabs_partial slabs_full slabs_free free_objects buffer_size].
  rewrite !(wrapu_small 32 bs), !(wrapu_small 32 n) by lia. rewrite (wrapu_small 32 (n * bs)) by nia. rewrite (wrapu_small 32 (65536 * pow2 o - n * bs)) by nia.
  split_and!; try done. split; cbn [idx buffer_size num order offset]; unfold EASY_MEM_SLAB_MIN, EASY_MEM_POS_END, sizeof_easy_mem_slab_t, slab_size; try done; try lia.
Qed.

(** ** Choosing a cache *)

(** Caches in the order of their sizes, as [easy_mem_slab_init] creates them. *)
Definition sorted_sizes (cs : list easy_mem_cache_t) : Prop :=
  (forall i c, cs !! i = Some c -> 0 < buffer_size c < 2 ^ 31) /\
  (forall i j c d, cs !! i = Some c -> cs !! j = Some d -> (i < j)%nat -> buffer_size c < buffer_size d).

(** The least cache that is large enough. *)
Definition best_fit (cs : list easy_mem_cache_t) (size : Z) (i : nat) : Prop :=
  (exists c, cs !! i = Some c /\ size <= buffer_size c) /\ forall j d, cs !! j = Some d -> (j < i)%nat -> buffer_size d < size.

Lemma size_search_ok cs size : sorted_sizes cs -> 0 <= size < 2 ^ 31 -> forall fuel s e, (s <= e < length cs)%nat -> (e - s <= fuel)%nat ->
  (forall j d, cs !! j = Some d -> (j < s)%nat -> buffer_size d < size) -> (exists c, cs !! e = Some c /\ size <= buffer_size c) ->
  exists i, size_search fuel cs size s e = Some i /\ best_fit cs size i.
Proof.
  intros [Hpos Hsort] Hsize. induction fuel as [|fuel IH]; intros s e Hse Hf Hlow Hhigh; cbn [size_search].
  { assert (s = e) as -> by lia. rewrite Nat.eqb_refl. by exists e. }
  destruct (Nat.eqb_spec s e) as [->|Hne]; [by exists e|].
  set (mid := ((s + e) / 2)%nat). assert (s <= mid < e)%nat as Hmid.
  { unfold mid. pose proof (Nat.div_mod_eq (s + e) 2). pose proof (Nat.mod_upper_bound (s + e) 2). lia. }
  destruct (lookup_lt_is_Some_2 cs mid ltac:(lia)) as [c Hc]. rewrite Hc. cbn [mbind option_bind]. pose proof (Hpos _ _ Hc).
  assert (i32 (u32 (buffer_size c - size)) = buffer_size c - size) as ->.
  { unfold wraps, wrapu. rewrite Zplus_mod_idemp_l. rewrite Z.mod_small; lia. }
  destruct (Z.ltb_spec 0 (buffer_size c - size)); [apply IH; [lia|lia|done|exists c; split; [done|lia]]|].
  destruct (Z.ltb_spec (buffer_size c - size) 0).
  - apply IH; [lia|lia| |done]. intros j d Hd Hj. destruct (decide (j = mid)) as [->|]; [assert (d = c) as -> by congruence; lia|].
    pose proof (Hsort j mid d c Hd Hc ltac:(lia)). lia.
  - exists mid. split; [done|]. split; [exists c; split; [done|lia]|]. intros j d Hd Hj. pose proof (Hsort j mid d c Hd Hc Hj). lia.
Qed.

Lemma cache_size_ok m size : sorted_sizes (caches m) -> caches m <> [] -> 0 <= size < 2 ^ 31 ->
  exists r, easy_mem_cache_size m size = Some r /\
  match r with
  | Some i => best_fit (caches m) size i
  | None => forall i c, caches m !! i = Some c -> buffer_size c < size
  end.
Proof.
  intros Hs Hne Hsize. unfold easy_mem_cache_size. rewrite wrapu_small by lia. pose proof Hs as [_ Hsort].
  destruct (list.last (caches m)) as [l|] eqn:El; [|by apply last_None in El]. rewrite last_lookup in El. cbn [mbind option_bind].
  pose proof (lookup_lt_Some _ _ _ El) as Hlen.
  destruct (Z.ltb_spec (buffer_size l) size) as [Hlt|Hge].
  - exists None. split; [done|]. intros i c Hc. pose proof (lookup_lt_Some _ _ _ Hc). destruct (decide (i = pred (length (caches m)))) as [->|]; [congruence|].
    pose proof (Hsort i (pred (length (caches m))) c l Hc El ltac:(lia)). lia.
  - destruct (size_search_ok (caches m) size Hs Hsize (length (caches m)) 0 (length (caches m) - 1)) as (i & -> & Hi); [lia|lia|intros; lia| |].
    + exists l. split; [by replace (length (caches m) - 1)%nat with (pred (length (caches m))) by lia|lia].
    + by exists (Some i).
Qed.

(** ** The free objects of a slab *)

(** [l] lists the free positions in the order [next_pos] chains them. *)
Fixpoint chain (np : list Z) (i : Z) (l : list Z) : Prop :=
  match l with
  | [] => i = EASY_MEM_POS_END
  | x :: l => i = x /\ i <> EASY_MEM_POS_END /\ exists j, np !! Z.to_nat i = Some j /\ chain np j l
  end.

Record slab_ok (c : easy_mem_cache_t) (a : Z) (s : easy_mem_slab_t) : Prop := {
  so_mem : mem s = a + offset c;
  so_len : Z.of_nat (length (next_pos s)) = num c;
  so_chain : exists l, chain (next_pos s) (free s) l /\ NoDup l /\ Forall (fun p => 0 <= p < num c) l /\
    inuse s = num c - Z.of_nat (length l) }.

(** A position that is handed out, and the address of its object. *)
Definition busy (s : easy_mem_slab_t) (p : Z) : Prop :=
  0 <= p < Z.of_nat (length (next_pos s)) /\ exists l, chain (next_pos s) (free s) l /\ p ∉ l.
Definition lives (bs : Z) (s : easy_mem_slab_t) (o : Z) : Prop := exists p, busy s p /\ o = mem s + p * bs.

Lemma chain_fun np l : forall i l', chain np i l -> chain np i l' -> l = l'.
Proof.
  induction l as [|x l IH]; intros i [|y l'] H H'; cbn [chain] in *; [done|naive_solver..|].
  destruct H as (-> & _ & j & Hj & H), H' as (-> & _ & j' & Hj' & H'). f_equal. apply (IH j); [done|]. congruence.
Qed.

Lemma chain_insert np p v l : 0 <= p -> forall i, Forall (fun x => 0 <= x) l -> p ∉ l -> chain np i l -> chain (<[Z.to_nat p := v]> np) i l.
Proof.
  intros Hp. induction l as [|x l IH]; intros i Hl Hn H; cbn [chain] in *; [done|].
  apply list.Forall_cons in Hl as [Hx Hl]. apply not_elem_of_cons in Hn as [Hne Hn]. destruct H as (-> & He & j & Hj & H).
  split; [done|]. split; [done|]. exists j. split; [rewrite list_lookup_insert_ne by lia; done|by apply IH].
Qed.

Lemma positions_bound n l : NoDup l -> Forall (fun p => 0 <= p < n) l -> Z.of_nat (length l) <= Z.max 0 n.
Proof.
  intros Hd Hl. assert (l ⊆+ seqZ 0 n) as Hs.
  { apply NoDup_submseteq; [done|]. intros x Hx. apply elem_of_seqZ. rewrite list.Forall_forall in Hl. specialize (Hl x Hx). lia. }
  apply submseteq_length in Hs. rewrite length_seqZ in Hs. lia.
Qed.

Lemma busy_fun s l p : chain (next_pos s) (free s) l -> busy s p <-> 0 <= p < Z.of_nat (length (next_pos s)) /\ p ∉ l.
Proof.
  intros Hc. unfold busy. split; [|naive_solver]. intros (Hp & l' & Hc' & Hn). split; [done|]. by rewrite (chain_fun _ _ _ _ Hc Hc').
Qed.

Lemma fresh_lookup n p : 0 <= p < n -> n < EASY_MEM_POS_END -> fresh_positions n !! Z.to_nat p = Some (if p =? n - 1 then EASY_MEM_POS_END else p + 1).
Proof.
  intros Hp Hn. unfold fresh_positions, EASY_MEM_POS_END in *. rewrite list_lookup_fmap, lookup_seq_lt by lia. cbn [fmap option_fmap option_map]. f_equal.
  destruct (Nat.eqb_spec (0 + Z.to_nat p) (Z.to_nat n - 1)), (Z.eqb_spec p (n - 1)); try lia. rewrite u16_small; lia.
Qed.

Lemma fresh_chain n : 1 <= n < EASY_MEM_POS_END -> forall (len : nat) k, 0 <= k -> k + Z.of_nat len = n -> (0 < len)%nat -> chain (fresh_positions n) k (seqZ k (Z.of_nat len)).
Proof.
  intros Hn. induction len as [|len IH]; intros k Hk E Hl; [lia|]. rewrite seqZ_cons by lia. cbn [chain].
  split; [done|]. split; [lia|]. eexists. split; [apply fresh_lookup; lia|].
  replace (Z.pred (Z.of_nat (S len))) with (Z.of_nat len) by lia. destruct len as [|len].
  - destruct (Z.eqb_spec k (n - 1)); [done|lia].
  - destruct (Z.eqb_spec k (n - 1)); [lia|]. apply IH; lia.
Qed.

(** ** Taking and returning an object *)

Lemma cache_span i c : cache_ok i c -> 0 <= num c * buffer_size c <= slab_size (order c) - 32 - 2 * num c /\ slab_size (order c) <= 268435456.
Proof.
  intros []. unfold sizeof_easy_mem_slab_t, slab_size, EASY_MEM_SLAB_MIN in *. pose proof (pow2_12 (order c) ltac:(done)). nia.
Qed.

Lemma object_span i c p : cache_ok i c -> 0 <= p < num c -> 32 + 2 * num c <= offset c + p * buffer_size c /\
  offset c + p * buffer_size c + buffer_size c <= slab_size (order c) /\ 0 <= p * buffer_size c < 268435456.
Proof.
  intros C Hp. pose proof (cache_span i c C). destruct C. unfold sizeof_easy_mem_slab_t, EASY_MEM_SLAB_MIN in *. nia.
Qed.

(** The next free object: it was not handed out, and now is; the others are as
    before. *)
Lemma get_obj_ok i c a s : cache_ok i c -> slab_ok c a s -> free s <> EASY_MEM_POS_END ->
  exists o s', easy_mem_slab_get_obj c s = Some (o, s') /\ slab_ok c a s' /\ cache_idx s' = cache_idx s /\ 0 < inuse s' /\
    ~ lives (buffer_size c) s o /\ (forall x, lives (buffer_size c) s' x <-> lives (buffer_size c) s x \/ x = o).
Proof.
  intros C [Hm Hlen (l & Hc & Hd & Hr & Hu)] Hf. destruct l as [|x l]; [done|]. cbn [chain] in Hc. destruct Hc as (Ex & _ & j & Hj & Hc).
  pose proof (positions_bound (num c) (x :: l) Hd Hr) as Hb. apply list.NoDup_cons in Hd as [Hx Hd]. apply list.Forall_cons in Hr as [Hxr Hr].
  pose proof (object_span i c x C Hxr) as (_ & _ & Hs). pose proof (co_num i c C). pose proof (co_buffer i c C). unfold EASY_MEM_POS_END, EASY_MEM_SLAB_MIN in *. cbn [length] in *.
  unfold easy_mem_slab_get_obj. rewrite Hj. cbn [mbind option_bind]. rewrite Ex, u32_small, u16_small by lia. eexists _, _. split; [done|].
  assert (chain (next_pos s) (free s) (x :: l)) as Hc0 by (cbn [chain]; rewrite Ex; unfold EASY_MEM_POS_END; split_and!; [done|lia|exists j; by rewrite <- Ex]).
  set (s' := Slab _ _ _ _ _). assert (chain (next_pos s') (free s') l) as Hc1 by done.
  assert (forall y, lives (buffer_size c) s y <-> exists p, (0 <= p < num c /\ p ∉ x :: l) /\ y = mem s + p * buffer_size c) as L0.
  { intros y. unfold lives. setoid_rewrite (busy_fun s _ _ Hc0). by rewrite Hlen. }
  assert (forall y, lives (buffer_size c) s' y <-> exists p, (0 <= p < num c /\ p ∉ l) /\ y = mem s + p * buffer_size c) as L1.
  { intros y. unfold lives. setoid_rewrite (busy_fun s' _ _ Hc1). cbn [s' next_pos]. by rewrite Hlen. }
  split_and!; [split; [done|done|exists l; split_and!; [done|done|done|cbn [s' inuse]; lia]]|done|cbn [s' inuse]; lia| |].
  - rewrite L0. intros (p & [_ Hp] & E). apply Hp. assert (p = x) as -> by (apply (Z.mul_reg_r _ _ (buffer_size c)); lia). set_solver.
  - intros y. rewrite L0, L1. split.
    + intros (p & [Hp Hn] & ->). destruct (decide (p = x)) as [->|Hne]; [right; lia|left; exists p; set_solver].
    + intros [(p & [Hp Hn] & ->)| ->]; [exists p; set_solver|exists x; split; [done|lia]].
Qed.

(** Returning one that was handed out. *)
Lemma put_obj_ok i c a s o : cache_ok i c -> slab_ok c a s -> lives (buffer_size c) s o ->
  exists s', easy_mem_slab_put_obj c s o = Some s' /\ slab_ok c a s' /\ cache_idx s' = cache_idx s /\ free s' <> EASY_MEM_POS_END /\
    (forall x, lives (buffer_size c) s' x <-> lives (buffer_size c) s x /\ x <> o).
Proof.
  intros C [Hm Hlen (l & Hc & Hd & Hr & Hu)] (p & Hp & ->). apply (busy_fun _ _ _ Hc) in Hp as [Hp Hn]. rewrite Hlen in Hp.
  assert (NoDup (p :: l)) as Hd' by (by apply list.NoDup_cons). assert (Forall (fun p => 0 <= p < num c) (p :: l)) as Hr' by (by apply list.Forall_cons).
  pose proof (positions_bound (num c) (p :: l) Hd' Hr') as Hb. cbn [length] in Hb.
  pose proof (object_span i c p C Hp) as (_ & _ & Hs). pose proof (co_num i c C). pose proof (co_buffer i c C). unfold EASY_MEM_POS_END, EASY_MEM_SLAB_MIN in *.
  unfold easy_mem_slab_put_obj. destruct (Z.eqb_spec (buffer_size c) 0); [lia|].
  replace (mem s + p * buffer_size c - mem s) with (p * buffer_size c) by lia. cbv zeta. rewrite u32_small, Z.div_mul, (u16_small p) by lia.
  destruct (lookup_lt_is_Some_2 (next_pos s) (Z.to_nat p) ltac:(lia)) as [v Hv]. rewrite Hv. cbn [mbind option_bind]. rewrite u16_small by lia.
  eexists. split; [done|]. set (s' := Slab _ _ _ _ _).
  assert (chain (next_pos s') (free s') (p :: l)) as Hc1.
  { cbn [chain s' next_pos free]. split_and!; [done|unfold EASY_MEM_POS_END; lia|]. exists (free s). split; [apply list_lookup_insert_eq; lia|].
    apply chain_insert; [lia|eapply list.Forall_impl; [done|intros ? [? _]; done]|done|done]. }
  assert (Z.of_nat (length (next_pos s')) = num c) as Hlen' by (cbn [s' next_pos]; by rewrite length_insert).
  split_and!; [split; [done|done|exists (p :: l); split_and!; [done|done|done|cbn [s' inuse length]; lia]]|done|cbn [s' free]; lia|].
  intros y. unfold lives. setoid_rewrite (busy_fun s' _ _ Hc1). setoid_rewrite (busy_fun s _ _ Hc). rewrite Hlen, Hlen'. cbn [s' mem]. split.
  - intros (q & [Hq Hqn] & ->). split; [exists q; set_solver|]. intros E. assert (q = p) as -> by (apply (Z.mul_reg_r _ _ (buffer_size c)); lia). set_solver.
  - intros [(q & [Hq Hqn] & ->) Hne]. exists q. split; [|done]. split; [done|]. rewrite not_elem_of_cons. split; [congruence|done].
Qed.

(** ** Slabs in the zone *)

Definition object_page (z : easy_mem_zone_t) (c : easy_mem_cache_t) (a p : Z) : Z :=
  Z.shiftr (a + offset c + p * buffer_size c - mem_start z) EASY_MEM_PAGE_SHIFT.

(** The slab at [a] is block [k] of the tiling, and the flag byte of every page an
    object starts on gives its order. *)
Definition placed (z : easy_mem_zone_t) (B : blocks) (c : easy_mem_cache_t) (a : Z) : Prop :=
  exists k, a = page_at z k /\ used B k (order c) /\
    forall p, 0 <= p < num c -> page_flags z !! object_page z c a p = Some (128 + Z.of_nat (order c)).

Lemma page_of z k off : 0 <= off -> Z.shiftr (page_at z k + off - mem_start z) EASY_MEM_PAGE_SHIFT = k + off / 65536.
Proof.
  intros Ho. rewrite Z.shiftr_div_pow2 by done. change (2 ^ EASY_MEM_PAGE_SHIFT) with 65536. unfold page_at.
  replace (mem_start z + k * 65536 + off - mem_start z) with (off + k * 65536) by lia. rewrite Z.div_add by lia. lia.
Qed.

Lemma object_page_in z c i k p : cache_ok i c -> 0 <= p < num c -> k <= object_page z c (page_at z k) p < k + pow2 (order c).
Proof.
  intros C Hp. pose proof (object_span i c p C Hp) as (H1 & H2 & H3). pose proof (co_num i c C). pose proof (co_buffer i c C). unfold EASY_MEM_SLAB_MIN in *. unfold object_page.
  rewrite <- Z.add_assoc, page_of by lia. set (off := offset c + p * buffer_size c) in *. unfold slab_size in *.
  pose proof (Z.div_mod off 65536 ltac:(lia)). pose proof (Z.mod_pos_bound off 65536 ltac:(lia)). lia.
Qed.

Lemma virt_to_slab_ok o a off : (slab_size o | a) -> 0 <= off < slab_size o -> easy_mem_virt_to_slab o (a + off) = a.
Proof.
  intros [q ->] Ho. unfold easy_mem_virt_to_slab. rewrite Z.shiftl_1_l. change EASY_MEM_PAGE_SHIFT with 16.
  set (e := 16 + Z.of_nat o). assert (slab_size o = 2 ^ e) as E by (unfold slab_size, pow2, e; rewrite Z.pow_add_r by lia; done). rewrite E in *.
  rewrite <- Z.ldiff_land. replace (2 ^ e - 1) with (Z.ones e) by (rewrite Z.ones_equiv; lia). rewrite Z.ldiff_ones_r by lia.
  rewrite Z.shiftl_mul_pow2, Z.shiftr_div_pow2 by lia. f_equal. rewrite Z.add_comm, Z.div_add by lia. rewrite Z.div_small; lia.
Qed.

(** Writing the flags of the pages of a block. *)
Lemma flags_inv z n N B i k f : zone_inv z n N B -> used B i k ->
  (forall j, ~ i <= j < i + pow2 k -> f !! j = page_flags z !! j) -> f !! i = Some (128 + Z.of_nat k) -> zone_inv (set_page_flags z f) n N B.
Proof.
  intros C Hi Ho Hh. pose proof (zi_tile _ _ _ _ _ _ C) as T. pose proof (zi_flags _ _ _ _ _ _ C) as Hf. destruct C. split; try done.
  intros j k' u Hj _ Hu. cbn [page_flags set_page_flags]. destruct (decide (j = i)) as [->|Hne].
  - unfold used in Hi. rewrite Hi in Hj. injection Hj as <- <-. done.
  - rewrite Ho; [apply Hf; [done|apply not_elem_of_nil|done]|]. intros Hin. apply (inner_not_start _ _ _ _ _ _ _ _ T Hi Hj). lia.
Qed.

Lemma placed_frame z z' n n' N B B' i c a x : cache_ok i c -> zone_inv z n N B -> zone_inv z' n' N B' -> mem_start z' = mem_start z ->
  placed z B c a -> a <> page_at z x -> (forall k o, k <> x -> used B k o -> used B' k o) -> keeps_inner B x (page_flags z) (page_flags z') -> placed z' B' c a.
Proof.
  intros C Z Z' Hms (k & -> & Hu & Hf) Hx Hk Hin. assert (k <> x) as Hne by congruence. exists k. split; [unfold page_at; by rewrite Hms|]. split; [by apply Hk|].
  intros p Hp. unfold object_page. rewrite Hms. fold (object_page z c (page_at z k) p). pose proof (object_page_in z c i k p C Hp) as Hr.
  destruct (decide (object_page z c (page_at z k) p = k)) as [->|Hd].
  - rewrite (zi_flags _ _ _ _ _ _ Z' k (order c) true); [done|by apply Hk|apply not_elem_of_nil|by left].
  - rewrite (Hin _ k (order c)); [by apply Hf|done|done|lia].
Qed.

(** ** The lists of a cache *)

Inductive shelf := Partial | Full | Free.
#[global] Instance shelf_eq_dec : EqDecision shelf.
Proof. solve_decision. Defined.

Definition shelf_of (s : easy_mem_slab_t) : shelf :=
  if free s =? EASY_MEM_POS_END then Full else if inuse s =? 0 then Free else Partial.
Definition shelf_list (k : shelf) (c : easy_mem_cache_t) : list Z :=
  match k with Partial => slabs_partial c | Full => slabs_full c | Free => slabs_free c end.

(** Each list holds the slabs of the cache it is for, once. *)
Definition shelved (S : gmap Z easy_mem_slab_t) (i : nat) (c : easy_mem_cache_t) : Prop :=
  forall k, NoDup (shelf_list k c) /\ forall a, a ∈ shelf_list k c <-> exists s, S !! a = Some s /\ cache_idx s = i /\ shelf_of s = k.

(** The lists of [c'] are those of [c] with [a] taken off and put on list [k]. *)
Definition moved (a : Z) (ok : option shelf) (c c' : easy_mem_cache_t) : Prop :=
  forall k, shelf_list k c' ≡ₚ (if decide (ok = Some k) then [a] else []) ++ filter (fun x => x <> a) (shelf_list k c).

Lemma shelved_moved S S' i c c' a : shelved S i c -> moved a (shelf_of <$> S' !! a) c c' -> (forall b, b <> a -> S' !! b = S !! b) ->
  (forall s, S' !! a = Some s -> cache_idx s = i) -> shelved S' i c'.
Proof.
  intros H Hm Ho Hi k. destruct (H k) as [Hd Hin]. split.
  - rewrite (Hm k). case_decide; cbn [app]; [apply list.NoDup_cons; split; [rewrite list_elem_of_filter; naive_solver|]|]; by apply list.NoDup_filter.
  - intros b. rewrite (Hm k), elem_of_app, list_elem_of_filter, Hin. destruct (decide (b = a)) as [->|Hne].
    + destruct (S' !! a) as [s|] eqn:E; cbn [fmap option_fmap option_map]; case_decide as Hk; try done.
      * injection Hk as Hk. split; [intros _; exists s; split_and!; auto|intros _; left; set_solver].
      * split; [intros [?|[? _]]; [set_solver|done]|]. intros (s0 & [= <-] & _ & Hs). congruence.
      * split; [intros [?|[? _]]; [set_solver|done]|]. by intros (s0 & ? & _).
    + rewrite (Ho b Hne). case_decide; set_solver.
Qed.

Lemma shelved_other S S' j d a : shelved S j d -> (forall b, b <> a -> S' !! b = S !! b) ->
  (forall s, S !! a = Some s -> cache_idx s <> j) -> (forall s, S' !! a = Some s -> cache_idx s <> j) -> shelved S' j d.
Proof.
  intros H Ho H1 H2 k. destruct (H k) as [Hd Hin]. split; [done|]. intros b. rewrite Hin. destruct (decide (b = a)) as [->|Hne]; [naive_solver|]. by rewrite (Ho b Hne).
Qed.

Lemma moved_shelve a s c c1 : (forall k, shelf_list k c1 = filter (fun x => x <> a) (shelf_list k c)) -> 0 < inuse s -> moved a (Some (shelf_of s)) c (shelve a s c1).
Proof.
  intros H1 Hu. unfold shelf_of, shelve. destruct (Z.eqb_spec (free s) EASY_MEM_POS_END) as [E|E]; [|destruct (Z.eqb_spec (inuse s) 0) as [E0|E0]; [lia|]];
    intros k; rewrite <- H1; by destruct k.
Qed.

Lemma filter_absent (a : Z) (l : list Z) : a ∉ l -> filter (fun x => x <> a) l = l.
Proof. intros Hn. apply list_filter_all. by intros x Hx ->. Qed.

(** ** The allocator's invariant *)

Record mgr_inv (m : easy_mem_mgr_t) (n N : Z) (B : blocks) : Prop := {
  mi_zone : zone_inv (zone m) n N B;
  mi_align : (slab_size (max_order (zone m)) | mem_start (zone m));
  mi_count : cache_num m <= 65536;
  mi_cache : forall i c, caches m !! i = Some c -> cache_ok i c;
  mi_slab : forall a s, slabs m !! a = Some s -> exists c, caches m !! cache_idx s = Some c /\ slab_ok c a s /\ placed (zone m) B c a;
  mi_lists : forall i c, caches m !! i = Some c -> shelved (slabs m) i c }.
Definition slab_inv (m : easy_mem_mgr_t) : Prop := exists n N B, mgr_inv m n N B.

(** Object [o] of cache [i] is handed out. *)
Definition live (m : easy_mem_mgr_t) (i : nat) (o : Z) : Prop :=
  exists a s c, slabs m !! a = Some s /\ cache_idx s = i /\ caches m !! i = Some c /\ lives (buffer_size c) s o.

(** What no operation changes of a cache. *)
Definition same_cache (c c' : easy_mem_cache_t) : Prop :=
  idx c' = idx c /\ buffer_size c' = buffer_size c /\ num c' = num c /\ order c' = order c /\ offset c' = offset c.

#[global] Instance same_cache_preorder : PreOrder same_cache.
Proof. split; [done|]. intros c c1 c2. unfold same_cache. intuition congruence. Qed.

Lemma cache_shape_ok i c c' : same_cache c c' -> cache_ok i c -> cache_ok i c'.
Proof. intros (E1 & E2 & E3 & E4 & E5) []. split; rewrite ?E1, ?E2, ?E3, ?E4, ?E5; done. Qed.
Lemma slab_ok_same c c' a s : same_cache c c' -> slab_ok c a s -> slab_ok c' a s.
Proof. intros (E1 & E2 & E3 & E4 & E5) []. split; rewrite ?E1, ?E2, ?E3, ?E4, ?E5; done. Qed.
Lemma placed_same z B c c' a : same_cache c c' -> placed z B c a -> placed z B c' a.
Proof. intros (E1 & E2 & E3 & E4 & E5). unfold placed, object_page. by rewrite E2, E3, E4, E5. Qed.

(** An operation on cache [i] and its slab [a]. *)
Lemma mgr_update m n N B i c c' a z' n' B' S' : mgr_inv m n N B -> caches m !! i = Some c -> same_cache c c' ->
  zone_inv z' n' N B' -> mem_start z' = mem_start (zone m) -> max_order z' = max_order (zone m) ->
  (forall b, b <> a -> S' !! b = slabs m !! b) -> (forall s, slabs m !! a = Some s -> cache_idx s = i) ->
  (forall s, S' !! a = Some s -> cache_idx s = i /\ slab_ok c a s /\ placed z' B' c a) ->
  (forall b d j, b <> a -> is_Some (slabs m !! b) -> cache_ok j d -> placed (zone m) B d b -> placed z' B' d b) ->
  moved a (shelf_of <$> S' !! a) c c' ->
  mgr_inv (put_cache i c' (set_zone z' (set_slabs S' m))) n' N B'.
Proof.
  intros [] Hc Hsame Hz Hms Hmo Ho Ha Ha' Hpl Hmv. pose proof (lookup_lt_Some _ _ _ Hc).
  assert (forall j d, <[i := c']> (caches m) !! j = Some d -> exists d0, caches m !! j = Some d0 /\ same_cache d0 d) as Hback.
  { intros j d Hd. apply list_lookup_insert_Some in Hd as [(<- & <- & _)|[_ Hd]]; [by exists c|]. by exists d. }
  assert (forall j d, caches m !! j = Some d -> exists d', <[i := c']> (caches m) !! j = Some d' /\ same_cache d d') as Hfwd.
  { intros j d Hd. destruct (decide (i = j)) as [<-|]; [exists c'; rewrite list_lookup_insert_eq by done; naive_solver|].
    exists d. by rewrite list_lookup_insert_ne. }
  split; cbn [zone caches slabs put_cache set_zone set_slabs set_caches].
  - done.
  - by rewrite Hms, Hmo.
  - unfold cache_num. cbn [caches put_cache set_caches set_zone set_slabs]. by rewrite length_insert.
  - intros j d Hd. apply Hback in Hd as (d0 & Hd & Hs). by eapply cache_shape_ok, mi_cache0.
  - intros b s Hb. destruct (decide (b = a)) as [->|Hne].
    + destruct (Ha' s Hb) as (E & Hok & Hp). exists c'. rewrite E, list_lookup_insert_eq by done. split; [done|]. split; [by eapply slab_ok_same|by eapply placed_same].
    + rewrite (Ho b Hne) in Hb. destruct (mi_slab0 b s Hb) as (d & Hd & Hok & Hp). destruct (Hfwd _ d Hd) as (d' & Hd' & Hs). exists d'. split; [done|].
      split; [by eapply slab_ok_same|]. eapply placed_same; [done|]. by eapply Hpl; [done|eexists|eapply mi_cache0|].
  - intros j d Hd. apply list_lookup_insert_Some in Hd as [(<- & <- & _)|[Hne Hd]].
    + eapply shelved_moved; [by apply mi_lists0|done|done|]. intros s Hs. by apply Ha'.
    + eapply shelved_other; [by apply mi_lists0|done|intros s Hs; rewrite (Ha s Hs); congruence|]. intros s Hs. destruct (Ha' s Hs) as [-> _]. congruence.
Qed.

(** Slabs lie apart, so an object belongs to one of them. *)
Lemma slab_place m n N B a s : mgr_inv m n N B -> slabs m !! a = Some s -> exists c k, caches m !! cache_idx s = Some c /\ cache_ok (cache_idx s) c /\
  slab_ok c a s /\ placed (zone m) B c a /\ a = page_at (zone m) k /\ used B k (order c).
Proof. intros I Hs. destruct (mi_slab _ _ _ _ I a s Hs) as (c & Hc & Hok & Hp). pose proof (mi_cache _ _ _ _ I _ _ Hc). destruct Hp as (k & E & Hu & Hf). exists c, k. split_and!; try done. by exists k. Qed.

Lemma lives_span i c a s o : cache_ok i c -> slab_ok c a s -> lives (buffer_size c) s o -> exists p, 0 <= p < num c /\ o = a + offset c + p * buffer_size c /\
  a + 32 <= o /\ o + buffer_size c <= a + slab_size (order c).
Proof.
  intros C [Hm Hlen _] (p & [Hp _] & ->). rewrite Hlen in Hp. exists p. pose proof (object_span i c p C Hp) as (H1 & H2 & H3). pose proof (co_num i c C). split_and!; [lia|lia|lia|lia|lia].
Qed.

Lemma live_apart m i j x y c d : slab_inv m -> live m i x -> live m j y -> x <> y -> caches m !! i = Some c -> caches m !! j = Some d ->
  x + buffer_size c <= y \/ y + buffer_size d <= x.
Proof.
  intros (n & N & B & I) (a & s & c' & Ha & Ei & Hc & Hx) (b & t & d' & Hb & Ej & Hd & Hy) Hne Hc' Hd'. subst i j. assert (c' = c) as -> by congruence. assert (d' = d) as -> by congruence.
  destruct (slab_place _ _ _ _ _ _ I Ha) as (c1 & k & E & C & Sk & _ & Ea & Hk), (slab_place _ _ _ _ _ _ I Hb) as (d1 & k' & E' & D & Tk & _ & Eb & Hk').
  assert (c1 = c) as -> by congruence. assert (d1 = d) as -> by congruence.
  destruct (lives_span _ _ _ _ _ C Sk Hx) as (p & Hp & Ex & X1 & X2), (lives_span _ _ _ _ _ D Tk Hy) as (q & Hq & Ey & Y1 & Y2).
  pose proof (zi_tile _ _ _ _ _ _ (mi_zone _ _ _ _ I)) as T. unfold slab_size in *. unfold page_at in *.
  destruct (Z.lt_trichotomy k k') as [Hlt|[->|Hlt]].
  - pose proof (tl_disj _ _ _ T _ _ _ _ _ _ Hk Hk' Hlt). lia.
  - assert (a = b) as -> by lia. assert (s = t) as -> by congruence. assert (c = d) as -> by congruence. destruct (co_buffer _ _ D) as [Hb0 _]. unfold EASY_MEM_SLAB_MIN in Hb0. clear - Ex Ey Hne Hb0.
    destruct (Z.lt_trichotomy p q) as [Hlt|[->|Hlt]]; [pose proof (Z.mul_le_mono_nonneg_r (p + 1) q (buffer_size d)); lia|lia|pose proof (Z.mul_le_mono_nonneg_r (q + 1) p (buffer_size d)); lia].
  - pose proof (tl_disj _ _ _ T _ _ _ _ _ _ Hk' Hk Hlt). lia.
Qed.

(** ** How the objects handed out change *)

(** Objects of other slabs than [a]. *)
Definition live_off (m : easy_mem_mgr_t) (a : Z) (j : nat) (x : Z) : Prop :=
  exists b s d, b <> a /\ slabs m !! b = Some s /\ cache_idx s = j /\ caches m !! j = Some d /\ lives (buffer_size d) s x.
Definition live_on (m : easy_mem_mgr_t) (a : Z) (bs : Z) (x : Z) : Prop := exists s, slabs m !! a = Some s /\ lives bs s x.

Lemma live_split m i c a j x : caches m !! i = Some c -> (forall s, slabs m !! a = Some s -> cache_idx s = i) ->
  live m j x <-> live_off m a j x \/ (j = i /\ live_on m a (buffer_size c) x).
Proof.
  intros Hc Ha. split.
  - intros (b & s & d & Hb & E & Hd & Hx). destruct (decide (b = a)) as [->|]; [right|left; by exists b, s, d].
    pose proof (Ha s Hb). subst i j. assert (d = c) as -> by congruence. split; [done|by exists s].
  - intros [(b & s & d & _ & ? & ? & ? & ?)|[-> (s & Hs & Hx)]]; [by exists b, s, d|]. exists a, s, c. split_and!; auto.
Qed.

Lemma off_apart m i c a s o j x : slab_inv m -> caches m !! i = Some c -> slabs m !! a = Some s -> cache_idx s = i ->
  lives (buffer_size c) s o -> live_off m a j x -> x <> o.
Proof.
  intros (n & N & B & I) Hc Ha <- Ho (b & t & d & Hne & Hb & <- & Hd & Hx) ->.
  destruct (slab_place _ _ _ _ _ _ I Ha) as (c1 & k & E & C & Sk & _ & Ea & Hk), (slab_place _ _ _ _ _ _ I Hb) as (d1 & k' & E' & D & Tk & _ & Eb & Hk').
  assert (c1 = c) as -> by congruence. assert (d1 = d) as -> by congruence.
  destruct (lives_span _ _ _ _ _ C Sk Ho) as (p & Hp & Ex & X1 & X2), (lives_span _ _ _ _ _ D Tk Hx) as (q & Hq & Ey & Y1 & Y2).
  pose proof (co_buffer _ _ C). pose proof (co_buffer _ _ D). unfold EASY_MEM_SLAB_MIN in *.
  pose proof (zi_tile _ _ _ _ _ _ (mi_zone _ _ _ _ I)) as T. unfold slab_size, page_at in *.
  destruct (Z.lt_trichotomy k k') as [Hlt|[->|Hlt]]; [pose proof (tl_disj _ _ _ T _ _ _ _ _ _ Hk Hk' Hlt); lia|congruence|pose proof (tl_disj _ _ _ T _ _ _ _ _ _ Hk' Hk Hlt); lia].
Qed.

Section Update.
Context (m : easy_mem_mgr_t) (i : nat) (c c' : easy_mem_cache_t) (a : Z) (z' : easy_mem_zone_t) (S' : gmap Z easy_mem_slab_t).
Context (Hc : caches m !! i = Some c) (Hsame : same_cache c c').
Context (Hoff : forall b, b <> a -> S' !! b = slabs m !! b) (Ha : forall s, slabs m !! a = Some s -> cache_idx s = i) (Ha' : forall s, S' !! a = Some s -> cache_idx s = i).
Let m' := put_cache i c' (set_zone z' (set_slabs S' m)).

Lemma update_caches : Forall2 same_cache (caches m) (caches m').
Proof.
  cbn [m' put_cache set_caches caches set_zone set_slabs]. apply Forall2_same_length_lookup_2; [by rewrite length_insert|].
  intros j d d' Hd Hd'. apply list_lookup_insert_Some in Hd' as [(<- & <- & _)|[_ Hd']]; [congruence|]. assert (d' = d) as -> by congruence. done.
Qed.

Lemma update_cache : caches m' !! i = Some c'.
Proof. apply list_lookup_insert_eq. by apply lookup_lt_Some in Hc. Qed.

Lemma live_off_same j x : live_off m' a j x <-> live_off m a j x.
Proof.
  pose proof update_caches as Hf. unfold live_off. cbn [m' put_cache set_caches set_zone set_slabs slabs] in *.
  split; intros (b & s & d & Hne & Hb & E & Hd & Hx); (rewrite (Hoff b Hne) in Hb || rewrite <- (Hoff b Hne) in Hb).
  - destruct (Forall2_lookup_r _ _ _ _ _ Hf Hd) as (d' & Hd' & (_ & Eb & _)). exists b, s, d'. by rewrite <- Eb.
  - destruct (Forall2_lookup_l _ _ _ _ _ Hf Hd) as (d' & Hd' & (_ & Eb & _)). exists b, s, d'. by rewrite Eb.
Qed.

Lemma live_update j x : live m' j x <-> live_off m a j x \/ (j = i /\ live_on m' a (buffer_size c) x).
Proof. rewrite (live_split m' i c' a); [|exact update_cache|exact Ha']. rewrite live_off_same. by destruct Hsame as (_ & -> & _). Qed.

(** An object of slab [a] more. *)
Lemma update_took o : slab_inv m' -> (forall x, live_on m' a (buffer_size c) x <-> live_on m a (buffer_size c) x \/ x = o) -> ~ live_on m a (buffer_size c) o ->
  (forall j, ~ live m j o) /\ forall j x, live m' j x <-> live m j x \/ (j = i /\ x = o).
Proof.
  intros I Hx Hn. split.
  - intros j. rewrite (live_split m i c a) by done. intros [Hl|[_ Hl]]; [|done]. apply live_off_same in Hl.
    destruct (proj2 (Hx o)) as (s & Hs & Ho); [by right|]. destruct Hsame as (_ & Eb & _).
    eapply (off_apart m' i c' a s o j o); [done|exact update_cache|done|by apply Ha'|by rewrite Eb|done|done].
  - intros j x. rewrite live_update, (live_split m i c a) by done. rewrite Hx. naive_solver.
Qed.

(** An object of slab [a] less. *)
Lemma update_dropped o : slab_inv m -> (forall x, live_on m' a (buffer_size c) x <-> live_on m a (buffer_size c) x /\ x <> o) -> live_on m a (buffer_size c) o ->
  forall j x, live m' j x <-> live m j x /\ x <> o.
Proof.
  intros I Hx (s & Hs & Ho) j x. rewrite live_update, (live_split m i c a) by done. rewrite Hx.
  split; [|naive_solver]. intros [Hl|Hr]; [|naive_solver]. split; [by left|]. by apply (off_apart m i c a s o j x); auto.
Qed.
End Update.

(** ** Growing a cache *)

Lemma set_flags_lookup v n : forall i f j, set_flags n i v f !! j = if (i <=? j) && (j <? i + Z.of_nat n) then Some v else f !! j.
Proof.
  induction n as [|n IH]; intros i f j; cbn [set_flags].
  - destruct (Z.leb_spec i j), (Z.ltb_spec j (i + Z.of_nat 0)); cbn [andb]; done || (exfalso; lia).
  - rewrite IH. destruct (Z.leb_spec (i + 1) j), (Z.ltb_spec j (i + 1 + Z.of_nat n)), (Z.leb_spec i j), (Z.ltb_spec j (i + Z.of_nat (S n))); cbn [andb]; try lia; try done;
      (destruct (decide (i = j)) as [<-|Hne]; [first [by rewrite lookup_insert_eq|exfalso; lia]|rewrite lookup_insert_ne by done; first [done|exfalso; lia]]).
Qed.

Lemma set_object_flags_lookup z step v n : forall ptr f j,
  (exists t, 0 <= t < Z.of_nat n /\ j = Z.shiftr (ptr + t * step - mem_start z) EASY_MEM_PAGE_SHIFT) /\ set_object_flags n z ptr step v f !! j = Some v \/
  (forall t, 0 <= t < Z.of_nat n -> j <> Z.shiftr (ptr + t * step - mem_start z) EASY_MEM_PAGE_SHIFT) /\ set_object_flags n z ptr step v f !! j = f !! j.
Proof.
  induction n as [|n IH]; intros ptr f j; cbn [set_object_flags]; [right; split; [lia|done]|].
  destruct (IH (ptr + step) (<[Z.shiftr (ptr - mem_start z) EASY_MEM_PAGE_SHIFT := v]> f) j) as [[(t & Ht & ->) ->]|[Hn ->]].
  - left. split; [|done]. exists (t + 1). split; [lia|]. f_equal. lia.
  - destruct (decide (j = Z.shiftr (ptr - mem_start z) EASY_MEM_PAGE_SHIFT)) as [->|Hne].
    + left. rewrite lookup_insert_eq. split; [|done]. exists 0. split; [lia|]. f_equal. lia.
    + right. rewrite lookup_insert_ne by done. split; [|done]. intros t Ht. destruct (decide (t = 0)) as [->|]; [by replace (ptr + 0 * step) with ptr by lia|].
      replace (ptr + t * step) with (ptr + step + (t - 1) * step) by lia. apply Hn. lia.
Qed.

(** The flags [easy_mem_cache_grow] writes for a new slab: inside its pages only,
    and for every object. *)
Definition grow_flags (z : easy_mem_zone_t) (c : easy_mem_cache_t) (a : Z) : gmap Z Z :=
  let v := u8 (Z.lor 128 (Z.of_nat (order c))) in
  if EASY_MEM_PAGE_SIZE <? buffer_size c
  then set_object_flags (Z.to_nat (num c)) z (a + offset c) (buffer_size c) v (page_flags z)
  else set_flags (Z.to_nat (order_size (order c))) (Z.shiftr (a - mem_start z) EASY_MEM_PAGE_SHIFT) v (page_flags z).

Lemma grow_flags_ok z c i k : cache_ok i c -> (order c < 12)%nat -> page_flags z !! k = Some (128 + Z.of_nat (order c)) ->
  let f := grow_flags z c (page_at z k) in
  (forall j, ~ k <= j < k + pow2 (order c) -> f !! j = page_flags z !! j) /\ f !! k = Some (128 + Z.of_nat (order c)) /\
  forall p, 0 <= p < num c -> f !! object_page z c (page_at z k) p = Some (128 + Z.of_nat (order c)).
Proof.
  intros C Ho Hk. cbv zeta. unfold grow_flags. rewrite flag_used by done. set (v := 128 + Z.of_nat (order c)) in *. pose proof (pow2_pos (order c)). pose proof (co_num i c C).
  destruct (EASY_MEM_PAGE_SIZE <? buffer_size c).
  - set (f := set_object_flags _ _ _ _ _ _).
    assert (forall j, f !! j = Some v \/ (f !! j = page_flags z !! j /\ forall p, 0 <= p < num c -> j <> object_page z c (page_at z k) p)) as Hf.
    { intros j. destruct (set_object_flags_lookup z (buffer_size c) v (Z.to_nat (num c)) (page_at z k + offset c) (page_flags z) j) as [[_ E]|[Hn E]]; [by left|right].
      split; [done|]. intros p Hp. apply Hn. lia. }
    split_and!.
    + intros j Hj. unfold f. destruct (set_object_flags_lookup z (buffer_size c) v (Z.to_nat (num c)) (page_at z k + offset c) (page_flags z) j) as [[(t & Ht & ->) _]|[_ E]]; [|done].
      exfalso. apply Hj. apply (object_page_in z c i k t C). lia.
    + destruct (Hf k) as [->|[-> _]]; done.
    + intros p Hp. destruct (Hf (object_page z c (page_at z k) p)) as [E|[_ Hn]]; [done|by destruct (Hn p Hp)].
  - rewrite page_index, order_size_pow2. split_and!.
    + intros j Hj. rewrite set_flags_lookup, Z2Nat.id by lia. destruct (Z.leb_spec k j), (Z.ltb_spec j (k + pow2 (order c))); cbn [andb]; done || (exfalso; lia).
    + rewrite set_flags_lookup, Z2Nat.id by lia. destruct (Z.leb_spec k k), (Z.ltb_spec k (k + pow2 (order c))); cbn [andb]; done || (exfalso; lia).
    + intros p Hp. pose proof (object_page_in z c i k p C Hp). rewrite set_flags_lookup, Z2Nat.id by lia.
      set (j := object_page _ _ _ _) in *. destruct (Z.leb_spec k j), (Z.ltb_spec j (k + pow2 (order c))); cbn [andb]; done || (exfalso; lia).
Qed.

(** A slab as it is when its pages arrive. *)
Lemma fresh_slab_ok i c a j : cache_ok i c -> 1 <= num c -> slab_ok c a (Slab (a + offset c) 0 0 j (fresh_positions (num c))) /\
  forall x, ~ lives (buffer_size c) (Slab (a + offset c) 0 0 j (fresh_positions (num c))) x.
Proof.
  intros C Hn. pose proof (co_num i c C). set (s := Slab _ _ _ _ _).
  assert (Z.of_nat (length (next_pos s)) = num c) as Hlen by (cbn [s next_pos]; unfold fresh_positions; rewrite length_map, length_seq; lia).
  assert (chain (next_pos s) (free s) (seqZ 0 (num c))) as Hc.
  { cbn [s next_pos free]. replace (seqZ 0 (num c)) with (seqZ 0 (Z.of_nat (Z.to_nat (num c)))) by (f_equal; lia). apply fresh_chain; lia. }
  split.
  - split; [done|done|]. exists (seqZ 0 (num c)). split_and!; [done|apply NoDup_seqZ| |cbn [s inuse]; rewrite length_seqZ; lia].
    apply list.Forall_forall. intros p Hp. apply elem_of_seqZ in Hp. lia.
  - intros x (p & Hp & _). apply (busy_fun _ _ _ Hc) in Hp as [Hp Hx]. apply Hx, elem_of_seqZ. lia.
Qed.

(** ** Allocation *)

Lemma same_shelve a s c c0 : same_cache c0 c -> same_cache c0 (shelve a s c).
Proof. unfold shelve. by case_match. Qed.

(** The object is new: nobody had it, and now cache [i] has handed it out. *)
Definition took (m : easy_mem_mgr_t) (i : nat) (o : Z) (m' : easy_mem_mgr_t) : Prop :=
  (forall j, ~ live m j o) /\ forall j x, live m' j x <-> live m j x \/ (j = i /\ x = o).

Lemma alloc_from_slab m n N B i c a s : mgr_inv m n N B -> caches m !! i = Some c -> slabs m !! a = Some s -> cache_idx s = i -> free s <> EASY_MEM_POS_END ->
  exists o s', easy_mem_slab_get_obj c s = Some (o, s') /\ let m' := put_cache i (shelve a s' (unshelve a c)) (put_slab a s' m) in
    mgr_inv m' n N B /\ Forall2 same_cache (caches m) (caches m') /\ took m i o m' /\ mem_start (zone m') = mem_start (zone m).
Proof.
  intros I Hc Hs Ei Hf. destruct (slab_place _ _ _ _ _ _ I Hs) as (c1 & k & E & C & Sk & Pl & Ea & Hk). assert (c1 = c) as -> by congruence. rewrite Ei in C.
  destruct (get_obj_ok i c a s C Sk Hf) as (o & s' & Eo & Sk' & Ei' & Hu & Hno & Hl). exists o, s'. split; [done|]. cbv zeta.
  set (c' := shelve a s' (unshelve a c)). assert (same_cache c c') as Hsame by (by apply same_shelve).
  change (put_cache i c' (put_slab a s' m)) with (put_cache i c' (set_zone (zone m) (set_slabs (<[a := s']> (slabs m)) m))).
  assert (forall b, b <> a -> <[a := s']> (slabs m) !! b = slabs m !! b) as Hoff by (intros b Hb; by rewrite lookup_insert_ne).
  assert (forall t, slabs m !! a = Some t -> cache_idx t = i) as Ha by congruence.
  assert (forall t, <[a := s']> (slabs m) !! a = Some t -> cache_idx t = i) as Ha' by (intros t; rewrite lookup_insert_eq; congruence).
  set (m' := put_cache _ _ _). assert (mgr_inv m' n N B) as I'.
  { apply (mgr_update m n N B i c c' a); try done.
    - apply I.
    - intros t Ht. rewrite lookup_insert_eq in Ht. injection Ht as <-. split_and!; [congruence|done|done].
    - rewrite lookup_insert_eq. apply moved_shelve; [by intros []|done]. }
  split_and!; [done|by eapply update_caches| |done]. apply (update_took m i c c' a (zone m) (<[a := s']> (slabs m)) Hc Hsame Hoff Ha Ha').
  - by exists n, N, B.
  - intros x. unfold live_on. cbn [slabs put_cache set_caches set_zone set_slabs]. rewrite lookup_insert_eq, Hs. split.
    + intros (t & [= <-] & Hx). apply Hl in Hx as [Hx|Hx]; [left; by exists s|by right].
    + intros [(t & [= <-] & Hx)|Hx]; exists s'; (split; [done|]); apply Hl; auto.
  - intros (t & Ht & Ho). rewrite Hs in Ht. injection Ht as <-. done.
Qed.

Lemma cache_grow_ok m n N B i c : mgr_inv m n N B -> caches m !! i = Some c ->
  exists r m', easy_mem_cache_grow i m = Some (r, m') /\
  match r with
  | Some o => (exists n' B', mgr_inv m' n' N B') /\ Forall2 same_cache (caches m) (caches m') /\ took m i o m' /\ mem_start (zone m') = mem_start (zone m)
  | None => m' = m /\ easy_mem_alloc_pages (zone m) (order c) = (None, zone m)
  end.
Proof.
  intros I Hc. pose proof (mi_cache _ _ _ _ I _ _ Hc) as C. pose proof (mi_zone _ _ _ _ I) as Z. pose proof (alloc_pages_ok _ _ _ _ (order c) Z) as Hp.
  unfold easy_mem_cache_grow. rewrite Hc. cbn [mbind option_bind].
  destruct (easy_mem_alloc_pages (zone m) (order c)) as [[a|] z] eqn:E.
  2: { destruct Hp as [-> _]. eexists _, _. split; [done|]. split; [by destruct m|done]. }
  destruct Hp as [Ho (k & n1 & B1 & -> & Z1 & _ & Hal & Hk0 & HkN & Hu & Hd & Hms & Hmo)]. cbv zeta.
  pose proof (zi_order _ _ _ _ _ _ Z) as H12. unfold EASY_MEM_MAX_ORDER in H12. pose proof (co_some i c C ltac:(lia)) as Hnum.
  destruct (Z.eqb_spec (num c) 0) as [?|_]; [lia|].
  assert (page_at (zone m) k = page_at z k) as Ek by (unfold page_at; by rewrite Hms). rewrite Ek.
  assert (used B1 k (order c)) as Huk by (apply Hu; by left).
  destruct (grow_flags_ok z c i k C ltac:(lia)) as (F1 & F2 & F3); [apply (zi_flags _ _ _ _ _ _ Z1 k (order c) true); [done|apply not_elem_of_nil|by left]|].
  change (if EASY_MEM_PAGE_SIZE <? buffer_size c then _ else _) with (grow_flags z c (page_at z k)). set (f := grow_flags z c (page_at z k)) in *.
  pose proof (flags_inv z n1 N B1 k (order c) f Z1 Huk F1 F2) as Z2. set (z' := set_page_flags z f) in *. set (a := page_at z k) in *.
  assert (slabs m !! a = None) as Hfresh.
  { destruct (slabs m !! a) as [t|] eqn:Et; [|done]. destruct (slab_place _ _ _ _ _ _ I Et) as (d & k' & _ & _ & _ & _ & Ea & Hk').
    rewrite <- Ek in Ea. apply page_at_inj in Ea. subst k'. pose proof (Hd k _ Hk'). pose proof (pow2_pos (order d)). pose proof (pow2_pos (order c)). lia. }
  assert (idx c = i) as Eidx by apply C. pose proof (lookup_lt_Some _ _ _ Hc). pose proof (mi_count _ _ _ _ I) as Hcn. unfold cache_num in Hcn.
  rewrite Eidx, u16_small, Nat2Z.id by lia. set (s := Slab _ _ _ _ _).
  destruct (fresh_slab_ok i c a i C Hnum) as [Sk Hnone]. fold s in Sk, Hnone. set (c0 := set_free_objects _ c).
  destruct (get_obj_ok i c a s C Sk) as (o & s' & Eo & Sk' & Ei' & Hin & Hno & Hl); [done|].
  change (easy_mem_slab_get_obj c0 s) with (easy_mem_slab_get_obj c s). rewrite Eo. cbn [mbind option_bind].
  set (c' := shelve a s' c0). assert (same_cache c c') as Hsame by (by apply same_shelve).
  eexists _, _. split; [done|]. change (put_cache i c' (put_slab a s' (set_zone z' m))) with (put_cache i c' (set_zone z' (set_slabs (<[a := s']> (slabs m)) m))).
  assert (forall b, b <> a -> <[a := s']> (slabs m) !! b = slabs m !! b) as Hoff by (intros b Hb; by rewrite lookup_insert_ne).
  assert (forall t, slabs m !! a = Some t -> cache_idx t = i) as Ha by congruence.
  assert (forall t, <[a := s']> (slabs m) !! a = Some t -> cache_idx t = i) as Ha' by (intros t; rewrite lookup_insert_eq; by intros [= <-]).
  set (m' := put_cache _ _ _). assert (mgr_inv m' n1 N B1) as I'.
  { apply (mgr_update m n N B i c c' a); try done.
    - intros t Ht. rewrite lookup_insert_eq in Ht. injection Ht as <-. split_and!; [done|done|]. exists k. split_and!; [done|done|exact F3].
    - intros b d j Hb Hbs D Pd. apply (placed_frame (zone m) z' n n1 N B B1 j d b k); try done.
      + by rewrite Ek.
      + intros k' o' _ Hk'. apply Hu. by right.
      + intros j' i' k' Hk' Hne Hj'. cbn [z' set_page_flags page_flags]. rewrite F1; [by apply (alloc_pages_inner _ _ _ _ _ _ _ Z E k j' i' k')|].
        pose proof (Hd _ _ Hk'). lia.
    - rewrite lookup_insert_eq. apply moved_shelve; [|done]. intros kk. destruct (mi_lists _ _ _ _ I i c Hc kk) as [_ Hl']. rewrite filter_absent; [by destruct kk|].
      rewrite Hl'. intros (t & Ht & _). by rewrite Hfresh in Ht. }
  split_and!; [by exists n1, B1|by eapply update_caches| |done]. apply (update_took m i c c' a z' (<[a := s']> (slabs m)) Hc Hsame Hoff Ha Ha').
  - by exists n1, N, B1.
  - intros x. unfold live_on. cbn [m' slabs put_cache set_caches set_zone set_slabs]. rewrite lookup_insert_eq, Hfresh. split.
    + intros (t & [= <-] & Hx). apply Hl in Hx as [Hx|Hx]; [by destruct (Hnone x)|by right].
    + intros [(t & ? & _)| ->]; [done|]. exists s'. split; [done|]. apply Hl. by right.
  - intros (t & Ht & _). by rewrite Hfresh in Ht.
Qed.

End EasySlabProofs.
