(* ===== verification/EasySlabTheorems.v ===== *)
(** * What the slab allocator promises

    Allocating hands out an object nobody has, apart from all others; freeing finds
    the cache of an object from its address and takes back that object and no
    other; reallocating keeps an object or moves it, copying it once. *)

From Stdlib Require Import ZArith Lia.
From stdpp Require Import base gmap list numbers option.
From S2P Require Import Prelude Tiling MemPage EasySlab EasySlabProofs.

Local Open Scope Z_scope.

Module EasySlabTheorems.
Import MemPage EasySlab EasySlabProofs.

(** ** Allocation *)

(** Every object of cache [i] is handed out and the zone has no pages for another
    slab. *)
Definition exhausted (m : easy_mem_mgr_t) (i : nat) (c : easy_mem_cache_t) : Prop :=
  (forall a s p, slabs m !! a = Some s -> cache_idx s = i -> 0 <= p < num c -> busy s p) /\
  easy_mem_alloc_pages (zone m) (order c) = (None, zone m).

Definition alloc_result (m : easy_mem_mgr_t) (i : nat) (c : easy_mem_cache_t) (r : option Z) (m' : easy_mem_mgr_t) : Prop :=
  slab_inv m' /\ Forall2 same_cache (caches m) (caches m') /\
  match r with Some o => took m i o m' | None => m' = m /\ exhausted m i c end.

Lemma full_busy c a s p : slab_ok c a s -> free s = EASY_MEM_POS_END -> 0 <= p < num c -> busy s p.
Proof.
  intros [_ Hlen (l & Hc & _)] Hf Hp. rewrite Hf in Hc. assert (l = []) as -> by (destruct l as [|x l]; [done|]; by destruct Hc as (_ & ? & _)).
  split; [lia|]. exists []. rewrite Hf. split; [done|apply not_elem_of_nil].
Qed.

Lemma cache_alloc_ok m i c : slab_inv m -> caches m !! i = Some c -> exists r m', easy_mem_cache_alloc i m = Some (r, m') /\ alloc_result m i c r m'.
Proof.
  intros (n & N & B & I) Hc. unfold easy_mem_cache_alloc. rewrite Hc. cbn [mbind option_bind]. pose proof (mi_lists _ _ _ _ I i c Hc) as Hl.
  destruct (slabs_partial c ++ slabs_free c) as [|a rest] eqn:E.
  - apply app_eq_nil in E as [Ep Ef]. destruct (cache_grow_ok m n N B i c I Hc) as (r & m' & Eg & H). rewrite Eg. exists r, m'. split; [done|].
    destruct r as [o|].
    + destruct H as ((n' & B' & I') & Hs & Ht & _). split_and!; [by exists n', N, B'|done|done].
    + destruct H as [-> Ea]. split_and!; [by exists n, N, B|reflexivity|done|]. split; [|done].
      intros a s p Hs Ei Hp. destruct (mi_slab _ _ _ _ I a s Hs) as (c1 & Hc1 & Sk & _). assert (c1 = c) as -> by congruence.
      apply (full_busy c a s); [done| |done]. destruct (Z.eqb_spec (free s) EASY_MEM_POS_END) as [|Hne]; [done|exfalso].
      assert (exists k, k <> Full /\ shelf_of s = k) as (k & Hk & Ek).
      { unfold shelf_of. destruct (Z.eqb_spec (free s) EASY_MEM_POS_END); [done|]. case_match; [by exists Free|by exists Partial]. }
      destruct (Hl k) as [_ Hin]. specialize (proj2 (Hin a) ltac:(by exists s)). destruct k; cbn [shelf_list]; [rewrite Ep|done|rewrite Ef]; apply not_elem_of_nil.
  - assert (exists s, slabs m !! a = Some s /\ cache_idx s = i /\ free s <> EASY_MEM_POS_END) as (s & Hs & Ei & Hf).
    { assert (a ∈ slabs_partial c ++ slabs_free c) as Hin by (rewrite E; left). apply elem_of_app in Hin as [Hin|Hin];
        [apply (Hl Partial) in Hin as (s & Hs & Ei & Hk)|apply (Hl Free) in Hin as (s & Hs & Ei & Hk)]; exists s; (split_and!; [done|done|]);
        unfold shelf_of in Hk; by destruct (Z.eqb_spec (free s) EASY_MEM_POS_END). }
    rewrite Hs. cbn [mbind option_bind]. destruct (alloc_from_slab m n N B i c a s I Hc Hs Ei Hf) as (o & s' & Eo & I' & Hsame & Ht & _).
    rewrite Eo. cbn [mbind option_bind]. eexists _, _. split; [done|]. split_and!; [by exists n, N, B|done|done].
Qed.

(** Handed-out objects lie in the pages of the zone. *)
Lemma live_inside m i c o : slab_inv m -> live m i o -> caches m !! i = Some c -> mem_start (zone m) <= o /\ o + buffer_size c <= mem_end (zone m).
Proof.
  intros (n & N & B & I) (a & s & c' & Hs & Ei & Hc & Hx) Hc'. assert (c' = c) as -> by congruence. destruct (slab_place _ _ _ _ _ _ I Hs) as (c1 & k & E & C & Sk & _ & Ea & Hk).
  assert (c1 = c) as -> by congruence. destruct (lives_span _ _ _ _ _ C Sk Hx) as (p & Hp & Ex & X1 & X2).
  destruct (core_block _ _ _ _ _ _ _ _ _ (mi_zone _ _ _ _ I) Hk) as (_ & _ & ? & _ & ?). destruct (zi_range _ _ _ _ _ _ (mi_zone _ _ _ _ I)) as (? & _).
  rewrite (zi_end _ _ _ _ _ _ (mi_zone _ _ _ _ I)). unfold page_at, slab_size in *. lia.
Qed.

(** ** Freeing *)

Lemma idle_none c a s bs x : slab_ok c a s -> inuse s = 0 -> ~ lives bs s x.
Proof.
  intros [_ Hlen (l & Hc & Hd & Hr & Hu)] H0 (p & Hp & _). apply (busy_fun _ _ _ Hc) in Hp as [Hp Hn].
  pose proof (positions_bound (num c) (p :: l) ltac:(by apply list.NoDup_cons) ltac:(apply list.Forall_cons; split; [lia|done])) as Hb. cbn [length] in Hb. lia.
Qed.

Lemma slab_at m n N B i c a s : mgr_inv m n N B -> caches m !! i = Some c -> slabs m !! a = Some s -> cache_idx s = i -> (slab_size (order c) | a).
Proof.
  intros I Hc Hs Ei. destruct (slab_place _ _ _ _ _ _ I Hs) as (c1 & k & E & C & _ & _ & -> & Hk). assert (c1 = c) as -> by congruence.
  destruct (core_block _ _ _ _ _ _ _ _ _ (mi_zone _ _ _ _ I) Hk) as (Ho & _ & _ & Hal & _). unfold page_at. apply Z.divide_add_r.
  - etransitivity; [|apply (mi_align _ _ _ _ I)]. unfold slab_size. apply Z.mul_divide_mono_l. by apply pow2_divide.
  - unfold slab_size. rewrite Z.mul_comm. by apply Z.mul_divide_mono_r.
Qed.

(** From the address of an object to its cache. *)
Lemma get_cache_ok m i o : slab_inv m -> live m i o -> easy_mem_get_cache m o = Some (Some i).
Proof.
  intros Hinv Hl. pose proof Hinv as (n & N & B & I). pose proof Hl as (a & s & c & Hs & Ei & Hc & Hx).
  destruct (live_inside m i c o Hinv Hl Hc) as [Hlo Hhi]. destruct (slab_place _ _ _ _ _ _ I Hs) as (c1 & k & E & C & Sk & Pl & Ea & Hk). assert (c1 = c) as -> by congruence.
  pose proof (co_buffer _ _ C) as Hbs. unfold EASY_MEM_SLAB_MIN in Hbs. pose proof (co_num _ _ C). destruct (lives_span _ _ _ _ _ C Sk Hx) as (p & Hp & Ex & X1 & X2).
  unfold easy_mem_get_cache. destruct (Z.ltb_spec o (mem_start (zone m))), (Z.leb_spec (mem_end (zone m)) o); try lia. cbn [orb].
  destruct (core_block _ _ _ _ _ _ _ _ _ (mi_zone _ _ _ _ I) Hk) as (_ & H12 & Hk0 & _ & HkN). destruct (zi_range _ _ _ _ _ _ (mi_zone _ _ _ _ I)) as (? & ? & _).
  destruct Pl as (k' & Ek' & _ & Hf). specialize (Hf p Hp). pose proof (object_page_in (zone m) c _ k p C Hp) as Hr. rewrite <- Ea in Hr.
  unfold object_page in Hf, Hr. rewrite <- Ex in Hf, Hr. rewrite i32_small by lia. rewrite Hf. cbn [mbind option_bind].
  destruct (flag_used_bits (order c) H12) as [_ ->]. replace o with (a + (o - a)) by lia. rewrite virt_to_slab_ok; [|by eapply slab_at|lia].
  rewrite Hs. cbn [mbind option_bind]. by rewrite Ei.
Qed.

Lemma cache_free_ok m i o : slab_inv m -> live m i o -> exists m', easy_mem_cache_free i o m = Some m' /\ slab_inv m' /\
  Forall2 same_cache (caches m) (caches m') /\ forall j x, live m' j x <-> live m j x /\ x <> o.
Proof.
  intros Hinv (a & s & c & Hs & Ei & Hc & Hx). pose proof Hinv as (n & N & B & I).
  destruct (slab_place _ _ _ _ _ _ I Hs) as (c1 & k & E & C & Sk & Pl & Ea & Hk). assert (c1 = c) as -> by congruence.
  destruct (lives_span _ _ _ _ _ C Sk Hx) as (p & Hp & Ex & X1 & X2). pose proof (co_buffer _ _ C) as Hbs. unfold EASY_MEM_SLAB_MIN in Hbs.
  unfold easy_mem_cache_free. rewrite Hc. cbn [mbind option_bind].
  assert (easy_mem_virt_to_slab (order c) o = a) as -> by (replace o with (a + (o - a)) by lia; apply virt_to_slab_ok; [by eapply slab_at|lia]).
  rewrite Hs. cbn [mbind option_bind]. rewrite Ei in C. destruct (put_obj_ok i c a s o C Sk Hx) as (s' & -> & Sk' & Ei' & Hf & Hl). cbn [mbind option_bind]. cbv zeta.
  assert (forall t, slabs m !! a = Some t -> cache_idx t = i) as Ha by congruence.
  assert (live_on m a (buffer_size c) o) as Hon by (by exists s).
  assert (forall x, live_on m a (buffer_size c) x /\ x <> o <-> lives (buffer_size c) s' x) as Hon'.
  { intros x. rewrite Hl. unfold live_on. rewrite Hs. naive_solver. }
  (* the slab stays, on another list *)
  assert (forall c', same_cache c c' -> moved a (Some (shelf_of s')) c c' -> let m' := put_cache i c' (put_slab a s' m) in
    slab_inv m' /\ Forall2 same_cache (caches m) (caches m') /\ forall j x, live m' j x <-> live m j x /\ x <> o) as Hstay.
  { intros c' Hsame Hmv. cbv zeta. change (put_cache i c' (put_slab a s' m)) with (put_cache i c' (set_zone (zone m) (set_slabs (<[a := s']> (slabs m)) m))).
    assert (forall b, b <> a -> <[a := s']> (slabs m) !! b = slabs m !! b) as Hoff by (intros b Hb; by rewrite lookup_insert_ne).
    assert (forall t, <[a := s']> (slabs m) !! a = Some t -> cache_idx t = i) as Ha' by (intros t; rewrite lookup_insert_eq; congruence).
    split_and!; [|by eapply update_caches|].
    - exists n, N, B. apply (mgr_update m n N B i c c' a); try done; [apply I| |by rewrite lookup_insert_eq].
      intros t Ht. rewrite lookup_insert_eq in Ht. injection Ht as <-. split_and!; [congruence|done|done].
    - apply (update_dropped m i c c' a (zone m) (<[a := s']> (slabs m)) Hc Hsame Hoff Ha Ha' o Hinv); [|done].
      intros x. rewrite Hon'. unfold live_on. cbn [slabs put_cache set_caches set_zone set_slabs]. rewrite lookup_insert_eq. naive_solver. }
  destruct (Z.eqb_spec (inuse s') 0) as [E0|E0].
  - destruct (free_limit (unshelve a c) <? free_objects (unshelve a c)).
    + destruct (free_pages_ok _ _ _ _ _ _ (mi_zone _ _ _ _ I) Hk) as (z' & B' & Ez & Z' & Hu & _ & Hms & Hin & Hmo). rewrite <- Ea in Ez. rewrite Ez. cbn [mbind option_bind].
      eexists. split; [done|]. set (c' := set_free_objects _ _). set (S' := delete a (slabs m)).
      assert (same_cache c c') as Hsame by done. assert (S' !! a = None) as Hnone by apply lookup_delete_eq.
      assert (forall b, b <> a -> S' !! b = slabs m !! b) as Hoff by (intros b Hb; by apply lookup_delete_ne).
      assert (forall t, S' !! a = Some t -> cache_idx t = i) as Ha' by congruence.
      split_and!; [|by eapply update_caches|].
      * exists n, N, B'. apply (mgr_update m n N B i c c' a); try done; [congruence| |rewrite Hnone; by intros []].
        intros b d j Hb _ D Pd. apply (placed_frame (zone m) z' n n N B B' j d b k); try done; [apply I|congruence|]. intros k' o' Hne Hk'. by apply Hu.
      * apply (update_dropped m i c c' a z' S' Hc Hsame Hoff Ha Ha' o Hinv); [|done]. intros x. rewrite Hon'. unfold live_on. cbn [slabs put_cache set_caches set_zone set_slabs].
        rewrite Hnone. split; [by intros (? & ? & _)|]. intros H. by destruct (idle_none c a s' (buffer_size c) x Sk' E0).
    + eexists. split; [done|]. apply Hstay; [done|]. unfold shelf_of. destruct (Z.eqb_spec (free s') EASY_MEM_POS_END); [done|]. rewrite E0. by intros [].
  - eexists. split; [done|]. apply Hstay; [done|]. unfold shelf_of. destruct (Z.eqb_spec (free s') EASY_MEM_POS_END); [done|].
    destruct (Z.eqb_spec (inuse s') 0); [done|]. intros []; [|done..]. cbn. by rewrite Permutation_app_comm.
Qed.

(** ** Starting the allocator *)

(** Empty caches for 512, 1024, ... *)
Definition start_caches (cs : list easy_mem_cache_t) : Prop :=
  forall i c, cs !! i = Some c -> cache_ok i c /\ buffer_size c = 512 * pow2 i /\ forall k, shelf_list k c = [].

Lemma pow2_21 k : (k <= 21)%nat -> 512 * pow2 k <= 1073741824.
Proof. intros Hk. pose proof (pow2_le k 21 Hk). change (pow2 21) with 2097152 in *. lia. Qed.

Lemma init_loop_ok start : EASY_MEM_SLAB_MIN <= start < 2 ^ 30 -> forall fuel m, (length (caches m) <= 21)%nat -> (22 <= length (caches m) + fuel)%nat -> 1024 <= cache_max_num m ->
  start_caches (caches m) -> exists cs, init_loop fuel (512 * pow2 (length (caches m))) start m = set_caches cs m /\
    start_caches cs /\ (length (caches m) <= length cs <= 21)%nat /\ start < 512 * pow2 (length cs) /\
    (length cs = length (caches m) \/ 512 * pow2 (length cs - 1) <= start).
Proof.
  intros Hst. unfold EASY_MEM_SLAB_MIN in Hst. induction fuel as [|fuel IH]; intros m Hk Hf Hmax Hcs; [lia|]. cbn [init_loop]. set (k := length (caches m)) in *.
  pose proof (pow2_pos k). pose proof (pow2_21 k Hk).
  destruct (Z.leb_spec (512 * pow2 k) start) as [Hle|Hgt]; [|exists (caches m); fold k; split_and!; [by destruct m|done|lia|lia|lia|by left]].
  assert (k < 21)%nat as Hk'. { destruct (decide (k = 21%nat)) as [->|]; [|lia]. change (pow2 21) with 2097152 in *. lia. }
  destruct (easy_mem_cache_create (512 * pow2 k) m) as [[i|] m1] eqn:E.
  2: { unfold easy_mem_cache_create in E. destruct (Z.ltb_spec (cache_num m) (cache_max_num m)) as [_|Hc]; [by repeat case_match|]. unfold cache_num in Hc. lia. }
  destruct (cache_create_ok (512 * pow2 k) m i m1 ltac:(unfold EASY_MEM_SLAB_MIN; lia) E) as (c & -> & -> & C & Eb & E1 & E2 & E3 & _).
  set (m1 := set_caches (caches m ++ [c]) m). assert (length (caches m1) = S k) as Hlen by (cbn [m1 set_caches caches]; rewrite length_app; cbn [length]; lia).
  rewrite Z.shiftl_mul_pow2 by lia. rewrite i32_small by lia. replace (512 * pow2 k * 2 ^ 1) with (512 * pow2 (length (caches m1))) by (rewrite Hlen, pow2_S; lia).
  destruct (IH m1) as (cs & -> & Hcs' & Hl & Hs & Hbig); [lia|lia|done| |].
  - intros i d Hd. cbn [m1 set_caches caches] in Hd. apply lookup_app_Some in Hd as [Hd|[Hi Hd]]; [by apply Hcs|].
    destruct (i - length (caches m))%nat as [|j] eqn:Ej; [|done]. injection Hd as <-. assert (i = k) as -> by lia. split_and!; [done|done|]. by intros [].
  - exists cs. split_and!; [by destruct m|done|lia|lia|done|]. right. destruct Hbig as [->|?]; [|done]. rewrite Hlen. replace (S k - 1)%nat with k by lia. lia.
Qed.

Lemma start_sorted cs : start_caches cs -> (length cs <= 21)%nat -> sorted_sizes cs.
Proof.
  intros H Hl. split.
  - intros i c Hc. destruct (H i c Hc) as (_ & -> & _). pose proof (lookup_lt_Some _ _ _ Hc). pose proof (pow2_pos i). pose proof (pow2_21 i ltac:(lia)). lia.
  - intros i j c d Hc Hd Hij. destruct (H i c Hc) as (_ & -> & _), (H j d Hd) as (_ & -> & _). pose proof (pow2_le (S i) j ltac:(lia)). rewrite pow2_S in *. pose proof (pow2_pos i). lia.
Qed.

(** A started allocator: caches of doubling sizes up to the requested one, sorted,
    with nothing handed out. *)
Definition started_mgr (start : Z) (m : easy_mem_mgr_t) : Prop :=
  slab_inv m /\ sorted_sizes (caches m) /\ caches m <> [] /\ (forall i o, ~ live m i o) /\
  (forall i c, caches m !! i = Some c -> buffer_size c = 512 * pow2 i /\ buffer_size c <= start) /\ start < 512 * pow2 (length (caches m)).

Lemma slab_init_ok memalign start max_size m : (forall a s p, memalign a s = Some p -> 0 <= p /\ (a | p)) -> 0 < max_size <= 2 ^ 31 ->
  EASY_MEM_SLAB_MIN <= start < 2 ^ 30 -> easy_mem_slab_init memalign start max_size None = (EASY_OK, Some m) -> started_mgr start m.
Proof.
  intros Hma Hms Hst. unfold easy_mem_slab_init. cbn [is_started]. destruct (easy_mem_zone_create memalign max_size) as [z|] eqn:Ez; [|done].
  destruct (zone_create_ok memalign max_size z Hma Hms Ez) as (memptr & len & size & o & _ & _ & Z & _ & Hal & _).
  set (mx := easy_max _ 1024). assert (1024 <= mx) as Hmx by (unfold mx, easy_max; case_match; lia).
  set (m0 := Mgr false mx 0 [] z ∅). destruct (init_loop_ok start Hst (Z.to_nat mx + 1) m0) as (cs & E & Hcs & Hl & Hs & Hbig); [cbn; lia|lia|done|by intros i c Hc|].
  change (512 * pow2 (length (caches m0))) with EASY_MEM_SLAB_MIN in E. rewrite E. intros [= <-]. set (m := Mgr _ _ _ _ _ _). assert (forall a, slabs m !! a = None) as Hnone by (intros a; apply lookup_empty).
  change (length (caches m0)) with 0%nat in *. unfold EASY_MEM_SLAB_MIN in Hst. assert (0 < length cs)%nat as Hpos.
  { destruct cs; cbn [length] in *; [|lia]. change (pow2 0) with 1 in Hs. lia. }
  split_and!.
  - exists 0, (size / EASY_MEM_PAGE_SIZE), ∅. split; [done|exact Hal|unfold cache_num; change (caches m) with cs; lia|intros i c Hc; by apply Hcs|intros a s Ha; by rewrite Hnone in Ha|].
    intros i c Hc k. destruct (Hcs i c Hc) as (_ & _ & ->). split; [apply NoDup_nil_2|]. intros a. split; [set_solver|]. intros (s & Ha & _). by rewrite Hnone in Ha.
  - apply start_sorted; [done|]. cbn. lia.
  - cbn. intros ->. cbn in Hpos. lia.
  - intros i x (a & s & c & Ha & _). by rewrite Hnone in Ha.
  - intros i c Hc. destruct (Hcs i c Hc) as (_ & Eb & _). split; [done|]. rewrite Eb. pose proof (lookup_lt_Some _ _ _ Hc) as Hi. cbn in Hi.
    destruct Hbig as [?|Hbig]; [lia|]. pose proof (pow2_le i (length cs - 1) ltac:(lia)). lia.
  - done.
Qed.

(** Starting the allocator with an object size of 512 bytes to less
    than 1 GB gives a manager in its invariant, with caches for 512, 1024, ... up
    to that size in increasing order and nothing handed out, and a second start is
    refused; after [easy_mem_slab_destroy] it can be started again. *)
Theorem easy_mem_slab_init_spec memalign start max_size m : (forall a s p, memalign a s = Some p -> 0 <= p /\ (a | p)) -> 0 < max_size <= 2 ^ 31 ->
  EASY_MEM_SLAB_MIN <= start < 2 ^ 30 -> easy_mem_slab_init memalign start max_size None = (EASY_OK, Some m) ->
  started_mgr start m /\ (forall start' max', easy_mem_slab_init memalign start' max' (Some m) = (EASY_ERROR, Some m)) /\ easy_mem_slab_destroy (Some m) = None.
Proof.
  intros Hma Hms Hst E. split; [by eapply slab_init_ok|]. assert (started m = true) as Hs.
  { unfold easy_mem_slab_init in E. cbn [is_started] in E. destruct (easy_mem_zone_create memalign max_size); [|done]. by injection E as <-. }
  unfold easy_mem_slab_init, easy_mem_slab_destroy. cbn [is_started]. by rewrite Hs.
Qed.

(** C26 (safety).  A cache always answers: with an object nobody has, inside the
    zone and apart from every object of any cache handed out before, which all
    stay handed out; or with NULL, changing nothing, only when every object of
    all its slabs is handed out and the zone has no pages for another slab.  The
    invariant of slabs, lists, flags and pages holds again. *)
Theorem easy_mem_cache_alloc_spec m i c : slab_inv m -> caches m !! i = Some c ->
  exists r m', easy_mem_cache_alloc i m = Some (r, m') /\ alloc_result m i c r m' /\
  forall o, r = Some o -> mem_start (zone m') <= o /\ o + buffer_size c <= mem_end (zone m') /\
    forall j d x, live m j x -> caches m !! j = Some d -> o + buffer_size c <= x \/ x + buffer_size d <= o.
Proof.
  intros I Hc. destruct (cache_alloc_ok m i c I Hc) as (r & m' & E & Hr). exists r, m'. split_and!; [done|done|]. intros o ->.
  destruct Hr as (I' & Hs & Hn & Ht). assert (live m' i o) as Hl by (apply Ht; by right).
  destruct (Forall2_lookup_l _ _ _ _ _ Hs Hc) as (c' & Hc' & (_ & Eb & _)). rewrite <- Eb. destruct (live_inside m' i c' o I' Hl Hc') as [? ?].
  split_and!; [done|done|]. intros j d x Hx Hd. destruct (Forall2_lookup_l _ _ _ _ _ Hs Hd) as (d' & Hd' & (_ & Ed & _)). rewrite <- Ed.
  apply (live_apart m' i j); try done; [apply Ht; by left|]. intros ->. by apply (Hn j).
Qed.

(** C27 (functional).  Freeing an object that was handed out finds its cache and its
    slab from its address alone, takes back that object and no other, and keeps the
    invariant, whether its slab stays or its pages go back to the zone. *)
Theorem easy_mem_cache_free_spec m i o : slab_inv m -> live m i o -> easy_mem_get_cache m o = Some (Some i) /\
  exists m', easy_mem_cache_free i o m = Some m' /\ slab_inv m' /\ Forall2 same_cache (caches m) (caches m') /\ forall j x, live m' j x <-> live m j x /\ x <> o.
Proof. intros I Hl. split; [by apply get_cache_ok|by apply cache_free_ok]. Qed.

(** The binary search over the caches ends and gives the least
    cache whose objects are large enough for the size, or none if there is none;
    the caches must be sorted, which creating one of another size breaks. *)
Theorem easy_mem_cache_size_spec m size : sorted_sizes (caches m) -> caches m <> [] -> 0 <= size < 2 ^ 31 ->
  exists r, easy_mem_cache_size m size = Some r /\
  match r with
  | Some i => best_fit (caches m) size i
  | None => forall i c, caches m !! i = Some c -> buffer_size c < size
  end.
Proof. apply cache_size_ok. Qed.

(** ** Reallocation *)

Section Realloc.
Context {L : Type} `{Libc L}.

(** Where the object goes: to the least cache that is large enough, or to the C
    library. *)
Definition moved_to (w w' : world L) (size : Z) (o o' : Z) : Prop :=
  (exists i, best_fit (caches (mgr w)) size i /\ libc w' = libc w /\ (forall k, ~ live (mgr w) k o') /\
     forall k x, live (mgr w') k x <-> (live (mgr w) k x /\ x <> o) \/ (k = i /\ x = o')) \/
  ((forall i c, caches (mgr w) !! i = Some c -> buffer_size c < size) /\ c_malloc (libc w) size = (Some o', libc w') /\
     forall k x, live (mgr w') k x <-> live (mgr w) k x /\ x <> o).
Definition no_memory (w : world L) (size : Z) : Prop :=
  (exists i c, best_fit (caches (mgr w)) size i /\ caches (mgr w) !! i = Some c /\ exhausted (mgr w) i c) \/
  ((forall i c, caches (mgr w) !! i = Some c -> buffer_size c < size) /\ fst (c_malloc (libc w) size) = None).

(** C37 (functional).  In the invariant, with the caches sorted by size, for sizes below 2^31:
    reallocating an object of a cache: a size that still fits
    returns it unchanged; a larger one moves it to a new object, copying the whole
    old one once and freeing it; a size of 0 frees it.  Only when there is no
    memory does it go wrong, by copying to NULL. *)
Theorem easy_mem_slab_realloc_spec (w : world L) i c o size : slab_inv (mgr w) -> sorted_sizes (caches (mgr w)) -> live (mgr w) i o -> caches (mgr w) !! i = Some c -> 0 <= size < 2 ^ 31 ->
  match easy_mem_slab_realloc w (Some o) size with
  | Some (None, w') => size = 0 /\ slab_inv (mgr w') /\ (forall k x, live (mgr w') k x <-> live (mgr w) k x /\ x <> o) /\ libc w' = libc w /\ copies w' = copies w
  | Some (Some o', w') => 0 < size /\
      if size <=? buffer_size c then o' = o /\ w' = w
      else slab_inv (mgr w') /\ copies w' = copies w ++ [(o', o, buffer_size c)] /\ moved_to w w' size o o'
  | None => buffer_size c < size /\ no_memory w size
  end.
Proof.
  intros I Hso Hl Hc Hsz. pose proof I as (n & N & B & Im). pose proof (co_buffer _ _ (mi_cache _ _ _ _ Im _ _ Hc)) as Hbs. unfold EASY_MEM_SLAB_MIN in Hbs.
  unfold easy_mem_slab_realloc. rewrite (get_cache_ok _ _ _ I Hl). cbn [mbind option_bind]. rewrite Hc. cbn [option_map].
  destruct (Z.eqb_spec size 0) as [->|Hnz].
  { destruct (cache_free_ok _ _ _ I Hl) as (m' & -> & I' & _ & Hd). by split_and!. }
  cbn [mbind option_bind]. rewrite bool_decide_true by eauto. cbn [andb].
  destruct (Z.leb_spec size (buffer_size c)) as [Hle|Hgt]; [split; [lia|done]|].
  destruct (cache_size_ok (mgr w) size Hso ltac:(intros E; by rewrite E in Hc) Hsz) as (r & -> & Hr). cbn [mbind option_bind]. destruct r as [j|].
  - destruct Hr as [(d & Hd & Hds) Hmin]. destruct (cache_alloc_ok (mgr w) j d I Hd) as (p & m1 & -> & I1 & Hs1 & Hp). cbn [mbind option_bind fst snd]. destruct p as [o'|]; cbn [mbind option_bind mgr].
    + destruct Hp as [Hn Ht]. destruct (cache_free_ok m1 i o I1) as (m' & -> & I' & _ & Hd'); [apply Ht; by left|]. cbn [mbind option_bind mgr libc copies].
      split; [lia|]. split_and!; [done|done|]. left. exists j. split_and!; [by split; [exists d|]|done|done|]. intros k x. cbn [mgr]. rewrite Hd', Ht.
      assert (o' <> o) by (intros ->; by apply (Hn i)). naive_solver.
    + split; [done|]. left. exists j, d. split_and!; [by split; [exists d|]|done|]. by destruct Hp.
  - destruct (c_malloc (libc w) size) as [p l] eqn:El. cbn [mbind option_bind]. destruct p as [o'|]; cbn [mbind option_bind mgr].
    + destruct (cache_free_ok _ _ _ I Hl) as (m' & -> & I' & _ & Hd'). cbn [mbind option_bind mgr libc copies]. split; [lia|]. split_and!; [done|done|]. right. by rewrite El.
    + split; [done|]. right. by rewrite El.
Qed.

(** Reallocating a block of the C library to a size that fits a cache
    gives an object of the cache, or NULL, with nothing copied into it and the old
    block still allocated: its contents are lost to the caller. *)
Theorem realloc_foreign_block (w : world L) o size : slab_inv (mgr w) -> sorted_sizes (caches (mgr w)) -> o < mem_start (zone (mgr w)) \/ mem_end (zone (mgr w)) <= o ->
  (exists i c, caches (mgr w) !! i = Some c /\ size <= buffer_size c) -> 0 < size < 2 ^ 31 ->
  exists i p w', best_fit (caches (mgr w)) size i /\ easy_mem_slab_realloc w (Some o) size = Some (p, w') /\ easy_mem_cache_alloc i (mgr w) = Some (p, mgr w') /\
    copies w' = copies w /\ libc w' = libc w.
Proof.
  intros I Hso Ho (i & c & Hc & Hle) Hsz. unfold easy_mem_slab_realloc, easy_mem_get_cache.
  assert ((o <? mem_start (zone (mgr w))) || (mem_end (zone (mgr w)) <=? o) = true) as ->.
  { destruct (Z.ltb_spec o (mem_start (zone (mgr w)))), (Z.leb_spec (mem_end (zone (mgr w))) o); try done. lia. }
  cbn [mbind option_bind]. destruct (Z.eqb_spec size 0) as [?|_]; [lia|]. rewrite bool_decide_false by (by intros []). cbn [andb].
  destruct (cache_size_ok (mgr w) size Hso ltac:(intros E; by rewrite E in Hc) ltac:(lia)) as (r & -> & Hr). cbn [mbind option_bind].
  destruct r as [j|]; [|pose proof (Hr i c Hc); lia]. pose proof Hr as [(d & Hd & _) _]. destruct (cache_alloc_ok (mgr w) j d I Hd) as (p & m1 & E & _). rewrite E.
  cbn [mbind option_bind fst snd]. exists j, p, (World m1 (libc w) (copies w)). by split_and!.
Qed.
End Realloc.

(** ** Witnesses *)

(** Caches for 512 and 1024 bytes over a zone of four pages, before and after the
    first object was handed out. *)
Definition demo_mgr : easy_mem_mgr_t :=
  Eval vm_compute in match snd (easy_mem_slab_init demo_memalign 1024 200000 None) with Some m => m | None => Mgr false 0 0 [] demo_zone0 ∅ end.
Definition demo_object : Z := Eval vm_compute in match easy_mem_cache_alloc 0 demo_mgr with Some (Some o, _) => o | _ => 0 end.
Definition demo_mgr1 : easy_mem_mgr_t := Eval vm_compute in match easy_mem_cache_alloc 0 demo_mgr with Some (_, m) => m | None => demo_mgr end.

Lemma demo_start : easy_mem_slab_init demo_memalign 1024 200000 None = (EASY_OK, Some demo_mgr).
Proof. vm_compute. reflexivity. Qed.
Lemma demo_alloc : easy_mem_cache_alloc 0 demo_mgr = Some (Some demo_object, demo_mgr1).
Proof. vm_compute. reflexivity. Qed.
Lemma demo_started : started_mgr 1024 demo_mgr.
Proof. apply (slab_init_ok demo_memalign 1024 200000); [exact demo_memalign_ok|lia|unfold EASY_MEM_SLAB_MIN; lia|exact demo_start]. Qed.
Lemma demo_live : slab_inv demo_mgr1 /\ live demo_mgr1 0 demo_object.
Proof.
  destruct demo_started as (I & _). destruct (cache_alloc_ok demo_mgr 0 _ I eq_refl) as (r & m' & E & I' & _ & Ht). rewrite demo_alloc in E. injection E as <- <-.
  split; [done|]. apply Ht. by right.
Qed.
Lemma demo_sorted : sorted_sizes (caches demo_mgr1).
Proof.
  destruct demo_started as (_ & [H1 H2] & _). split.
  - intros [|[|i]] c Hc; [| |done]; injection Hc as <-; cbn; lia.
  - intros [|[|i]] [|[|j]] c d Hc Hd Hij; try done; try lia. injection Hc as <-. injection Hd as <-. cbn. lia.
Qed.

(** A C library that has no memory. *)
#[export] Instance unit_libc : Libc unit := {| c_malloc := fun u _ => (None, u); c_realloc := fun u _ _ => (None, u); c_free := fun u _ => u |}.

Lemma easy_mem_slab_init_spec_witness : started_mgr 1024 demo_mgr /\ map buffer_size (caches demo_mgr) = [512; 1024].
Proof.
  split; [|reflexivity]. apply (easy_mem_slab_init_spec demo_memalign 1024 200000 demo_mgr demo_memalign_ok); [lia|unfold EASY_MEM_SLAB_MIN; lia|exact demo_start].
Defined.

Lemma easy_mem_cache_alloc_spec_witness : exists o, easy_mem_cache_alloc 0 demo_mgr = Some (Some o, demo_mgr1) /\ took demo_mgr 0 o demo_mgr1.
Proof.
  destruct (easy_mem_cache_alloc_spec demo_mgr 0 _ (proj1 demo_started) eq_refl) as (r & m' & E & (_ & _ & H) & _).
  rewrite demo_alloc in E. injection E as <- <-. exists demo_object. split; [exact demo_alloc|exact H].
Defined.

Lemma easy_mem_cache_free_spec_witness : exists m', easy_mem_cache_free 0 demo_object demo_mgr1 = Some m' /\ slab_inv m' /\ forall j, ~ live m' j demo_object.
Proof.
  destruct (easy_mem_cache_free_spec demo_mgr1 0 demo_object (proj1 demo_live) (proj2 demo_live)) as (_ & m' & E & I & _ & Hl).
  exists m'. split; [exact E|]. split; [exact I|]. intros j Hj. apply Hl in Hj as [_ Hne]. by apply Hne.
Defined.

Lemma easy_mem_cache_size_spec_witness : easy_mem_cache_size demo_mgr 513 = Some (Some 1%nat) /\
  exists r, easy_mem_cache_size demo_mgr 513 = Some r /\ match r with Some i => best_fit (caches demo_mgr) 513 i | None => False end.
Proof.
  split; [reflexivity|]. destruct demo_started as (_ & Hs & Hne & _).
  destruct (easy_mem_cache_size_spec demo_mgr 513 Hs Hne ltac:(lia)) as (r & E & H). exists r. split; [exact E|].
  destruct r; [exact H|discriminate E].
Defined.

Lemma easy_mem_slab_realloc_spec_witness : exists o' w', easy_mem_slab_realloc (World demo_mgr1 tt []) (Some demo_object) 1000 = Some (Some o', w') /\
  copies w' = [(o', demo_object, 512)] /\ slab_inv (mgr w').
Proof.
  pose proof (easy_mem_slab_realloc_spec (World demo_mgr1 tt []) 0 _ demo_object 1000 (proj1 demo_live) demo_sorted (proj2 demo_live) eq_refl ltac:(lia)) as H.
  destruct (easy_mem_slab_realloc (World demo_mgr1 tt []) (Some demo_object) 1000) as [[[o'|] w']|] eqn:E.
  - exists o', w'. destruct H as (_ & I & Hc & _). split; [reflexivity|]. split; [exact Hc|exact I].
  - exfalso. destruct H as [H _]. lia.
  - exfalso. vm_compute in E. discriminate E.
Defined.

Lemma realloc_foreign_block_witness : exists p w', easy_mem_slab_realloc (World demo_mgr tt []) (Some 4096) 100 = Some (p, w') /\ copies w' = [].
Proof.
  destruct demo_started as (I & Hs & _).
  destruct (realloc_foreign_block (World demo_mgr tt []) 4096 100 I Hs) as (i & p & w' & _ & E & _ & Hc & _).
  - left. reflexivity.
  - exists 0%nat, (MemCache [] [] [] 0 512 127 512 0 254 0). split; [reflexivity|cbn; lia].
  - lia.
  - exists p, w'. split; [exact E|exact Hc].
Defined.

End EasySlabTheorems.
