(* ===== verification/HttpParser.v ===== *)
(** * packet/http/http_parser.c: the incremental HTTP parser

    One [Definition] per [case] of the state switch of [http_parser_execute],
    in the strict build the header selects.  The parser object is split into
    the four registers that [http_parser_execute] copies into locals on entry
    and stores back on a normal return ([registers]), and the fields it
    accesses in place ([http_fields]).  A callback gets the in-place fields,
    for the data callbacks the bytes [at, at + length), and the user's state
    (what [parser->data] points to); it returns its result code.  The callbacks
    of the repository (easy_http_handler.c) do not write the parser object.

    A step runs in a small monad over the local variables: [Ok] continues,
    [Halt] is a [return (p - data)], [Error] the [goto error], [Fault] a failed
    assertion or a read outside an array. *)

From Stdlib Require Import Ascii String ZArith Lia.
From stdpp Require Import base gmap list numbers option.
From S2P Require Import Prelude.

Local Open Scope Z_scope.

Module HttpParser.

(** ** Tables *)

Definition tokens : list Z :=
  [ 0; 0; 0; 0; 0; 0; 0; 0; 0; 0; 0; 0; 0; 0; 0; 0;
    0; 0; 0; 0; 0; 0; 0; 0; 0; 0; 0; 0; 0; 0; 0; 0;
    32; 33; 34; 35; 36; 37; 38; 39; 0; 0; 42; 43; 0; 45; 46; 47;
    48; 49; 50; 51; 52; 53; 54; 55; 56; 57; 0; 0; 0; 0; 0; 0;
    0; 97; 98; 99; 100; 101; 102; 103; 104; 105; 106; 107; 108; 109; 110; 111;
    112; 113; 114; 115; 116; 117; 118; 119; 120; 121; 122; 0; 0; 0; 94; 95;
    96; 97; 98; 99; 100; 101; 102; 103; 104; 105; 106; 107; 108; 109; 110; 111;
    112; 113; 114; 115; 116; 117; 118; 119; 120; 121; 122; 0; 124; 125; 126; 0 ]
  ++ replicate 128 0.

Definition unhex : list Z :=
  [ (-1); (-1); (-1); (-1); (-1); (-1); (-1); (-1); (-1); (-1); (-1); (-1); (-1); (-1); (-1); (-1);
    (-1); (-1); (-1); (-1); (-1); (-1); (-1); (-1); (-1); (-1); (-1); (-1); (-1); (-1); (-1); (-1);
    (-1); (-1); (-1); (-1); (-1); (-1); (-1); (-1); (-1); (-1); (-1); (-1); (-1); (-1); (-1); (-1);
    0; 1; 2; 3; 4; 5; 6; 7; 8; 9; (-1); (-1); (-1); (-1); (-1); (-1);
    (-1); 10; 11; 12; 13; 14; 15; (-1); (-1); (-1); (-1); (-1); (-1); (-1); (-1); (-1);
    (-1); (-1); (-1); (-1); (-1); (-1); (-1); (-1); (-1); (-1); (-1); (-1); (-1); (-1); (-1); (-1);
    (-1); 10; 11; 12; 13; 14; 15; (-1); (-1); (-1); (-1); (-1); (-1); (-1); (-1); (-1);
    (-1); (-1); (-1); (-1); (-1); (-1); (-1); (-1); (-1); (-1); (-1); (-1); (-1); (-1); (-1); (-1) ]
  ++ replicate 128 0.

Definition normal_url_char : list Z :=
  [ 0; 0; 0; 0; 0; 0; 0; 0; 0; 0; 0; 0; 0; 0; 0; 0;
    0; 0; 0; 0; 0; 0; 0; 0; 0; 0; 0; 0; 0; 0; 0; 0;
    0; 1; 1; 0; 1; 1; 1; 1; 1; 1; 1; 1; 1; 1; 1; 1;
    1; 1; 1; 1; 1; 1; 1; 1; 1; 1; 1; 1; 1; 1; 1; 0;
    1; 1; 1; 1; 1; 1; 1; 1; 1; 1; 1; 1; 1; 1; 1; 1;
    1; 1; 1; 1; 1; 1; 1; 1; 1; 1; 1; 1; 1; 1; 1; 1;
    1; 1; 1; 1; 1; 1; 1; 1; 1; 1; 1; 1; 1; 1; 1; 1;
    1; 1; 1; 1; 1; 1; 1; 1; 1; 1; 1; 1; 1; 1; 1; 0 ]
  ++ replicate 128 0.

Definition table (t : list Z) (c : Z) : Z := nth (Z.to_nat (u8 c)) t 0.
Definition TOKEN (c : Z) : Z := table tokens c.
Definition LOWER (c : Z) : Z := u8 (Z.lor c 32).

Inductive http_method :=
  | HTTP_DELETE | HTTP_GET | HTTP_HEAD | HTTP_POST | HTTP_PUT
  | HTTP_CONNECT | HTTP_OPTIONS | HTTP_TRACE
  | HTTP_COPY | HTTP_LOCK | HTTP_MKCOL | HTTP_MOVE | HTTP_PROPFIND | HTTP_PROPPATCH
  | HTTP_UNLOCK
  | HTTP_REPORT | HTTP_MKACTIVITY | HTTP_CHECKOUT | HTTP_MERGE
  | HTTP_MSEARCH | HTTP_NOTIFY | HTTP_SUBSCRIBE | HTTP_UNSUBSCRIBE.

Definition method_strings (m : http_method) : list Z :=
  bytes_of match m with
  | HTTP_DELETE => "DELETE" | HTTP_GET => "GET" | HTTP_HEAD => "HEAD" | HTTP_POST => "POST"
  | HTTP_PUT => "PUT" | HTTP_CONNECT => "CONNECT" | HTTP_OPTIONS => "OPTIONS"
  | HTTP_TRACE => "TRACE" | HTTP_COPY => "COPY" | HTTP_LOCK => "LOCK" | HTTP_MKCOL => "MKCOL"
  | HTTP_MOVE => "MOVE" | HTTP_PROPFIND => "PROPFIND" | HTTP_PROPPATCH => "PROPPATCH"
  | HTTP_UNLOCK => "UNLOCK" | HTTP_REPORT => "REPORT" | HTTP_MKACTIVITY => "MKACTIVITY"
  | HTTP_CHECKOUT => "CHECKOUT" | HTTP_MERGE => "MERGE" | HTTP_MSEARCH => "M-SEARCH"
  | HTTP_NOTIFY => "NOTIFY" | HTTP_SUBSCRIBE => "SUBSCRIBE" | HTTP_UNSUBSCRIBE => "UNSUBSCRIBE"
  end%string.

#[export] Instance http_method_eq_dec : EqDecision http_method.
Proof. solve_decision. Defined.

(** ** States *)

Inductive state :=
  | s_dead
  | s_start_req_or_res | s_res_or_resp_H | s_start_res | s_res_H | s_res_HT | s_res_HTT
  | s_res_HTTP | s_res_first_http_major | s_res_http_major | s_res_first_http_minor
  | s_res_http_minor | s_res_first_status_code | s_res_status_code | s_res_status
  | s_res_line_almost_done
  | s_start_req
  | s_req_method | s_req_spaces_before_url | s_req_schema | s_req_schema_slash
  | s_req_schema_slash_slash | s_req_host | s_req_port | s_req_path
  | s_req_query_string_start | s_req_query_string | s_req_fragment_start | s_req_fragment
  | s_req_http_start | s_req_http_H | s_req_http_HT | s_req_http_HTT | s_req_http_HTTP
  | s_req_first_http_major | s_req_http_major | s_req_first_http_minor | s_req_http_minor
  | s_req_line_almost_done
  | s_header_field_start | s_header_field | s_header_value_start | s_header_value
  | s_header_almost_done
  | s_chunk_size_start | s_chunk_size | s_chunk_parameters | s_chunk_size_almost_done
  | s_headers_almost_done
  | s_chunk_data | s_chunk_data_almost_done | s_chunk_data_done
  | s_body_identity | s_body_identity_eof.

(** [state <= s_headers_almost_done]: all but the last five. *)
Definition PARSING_HEADER (s : state) : bool :=
  match s with
  | s_chunk_data | s_chunk_data_almost_done | s_chunk_data_done
  | s_body_identity | s_body_identity_eof => false
  | _ => true
  end.

Inductive header_states :=
  | h_general | h_C | h_CO | h_CON
  | h_matching_connection | h_matching_proxy_connection | h_matching_content_length
  | h_matching_transfer_encoding | h_matching_upgrade
  | h_connection | h_content_length | h_transfer_encoding | h_upgrade
  | h_matching_transfer_encoding_chunked | h_matching_connection_keep_alive
  | h_matching_connection_close
  | h_transfer_encoding_chunked | h_connection_keep_alive | h_connection_close.

Definition F_CHUNKED : Z := 1.
Definition F_CONNECTION_KEEP_ALIVE : Z := 2.
Definition F_CONNECTION_CLOSE : Z := 4.
Definition F_TRAILING : Z := 8.
Definition F_UPGRADE : Z := 16.
Definition F_SKIPBODY : Z := 32.

Definition CR : Z := 13.
Definition LF : Z := 10.
Definition HTTP_MAX_HEADER_SIZE : Z := 80 * 1024.

Inductive http_parser_type := HTTP_REQUEST | HTTP_RESPONSE | HTTP_BOTH.

(** ** The parser object *)

Record http_fields := Fields {
  type : http_parser_type; flags : Z; content_length : Z;
  http_major : Z; http_minor : Z; status_code : Z; method : http_method; upgrade : Z }.

Record registers := Registers {
  r_state : state; r_header_state : header_states; r_index : Z; r_nread : Z }.

Record http_parser := Parser { regs : registers; fields : http_fields }.

Definition set_type v f := Fields v (flags f) (content_length f) (http_major f) (http_minor f)
  (status_code f) (method f) (upgrade f).
Definition set_flags v f := Fields (type f) v (content_length f) (http_major f) (http_minor f)
  (status_code f) (method f) (upgrade f).
Definition set_content_length v f := Fields (type f) (flags f) v (http_major f) (http_minor f)
  (status_code f) (method f) (upgrade f).
Definition set_http_major v f := Fields (type f) (flags f) (content_length f) v (http_minor f)
  (status_code f) (method f) (upgrade f).
Definition set_http_minor v f := Fields (type f) (flags f) (content_length f) (http_major f) v
  (status_code f) (method f) (upgrade f).
Definition set_status_code v f := Fields (type f) (flags f) (content_length f) (http_major f)
  (http_minor f) v (method f) (upgrade f).
Definition set_method v f := Fields (type f) (flags f) (content_length f) (http_major f)
  (http_minor f) (status_code f) v (upgrade f).
Definition set_upgrade v f := Fields (type f) (flags f) (content_length f) (http_major f)
  (http_minor f) (status_code f) (method f) v.

Definition has_flag (f : http_fields) (b : Z) : bool := negb (Z.land (flags f) b =? 0).
Definition or_flag (b : Z) (f : http_fields) : http_fields := set_flags (Z.lor (flags f) b) f.

(** [http_should_keep_alive], the branch that is compiled. *)
Definition http_should_keep_alive (f : http_fields) : bool := has_flag f F_CONNECTION_KEEP_ALIVE.

Definition start_state (f : http_fields) : state :=
  match type f with HTTP_REQUEST => s_start_req | _ => s_start_res end.
Definition NEW_MESSAGE (f : http_fields) : state :=
  if http_should_keep_alive f then start_state f else s_dead.

(** [http_parser_init]; the registers it leaves alone keep their value. *)
Definition http_parser_init (old : http_parser) (t : http_parser_type) : http_parser :=
  Parser
    (Registers match t with HTTP_REQUEST => s_start_req | HTTP_RESPONSE => s_start_res
               | HTTP_BOTH => s_start_req_or_res end
       (r_header_state (regs old)) (r_index (regs old)) 0)
    (set_method HTTP_DELETE (set_upgrade 0 (set_flags 0 (set_type t (fields old))))).

Definition http_parser_has_error (p : http_parser) : bool :=
  match r_state (regs p) with s_dead => true | _ => false end.

(** ** Callbacks *)

Inductive data_kind :=
  | d_header_field | d_header_value | d_fragment | d_query_string | d_path | d_url.

Section execute.
Context {U : Type}.

Definition http_cb : Type := http_fields -> U -> Z * U.
(** The pointer argument of a data callback is its offset in the buffer; the
    bytes it points to are passed along. *)
Definition http_data_cb : Type := http_fields -> nat -> list Z -> U -> Z * U.

Record http_parser_settings := Settings {
  on_message_begin : option http_cb;
  on_path : option http_data_cb;
  on_query_string : option http_data_cb;
  on_url : option http_data_cb;
  on_fragment : option http_data_cb;
  on_header_field : option http_data_cb;
  on_header_value : option http_data_cb;
  on_headers_complete : option http_cb;
  on_body : option http_data_cb;
  on_message_complete : option http_cb }.

Variable settings : http_parser_settings.

Definition on_data (k : data_kind) : option http_data_cb :=
  match k with
  | d_header_field => on_header_field settings
  | d_header_value => on_header_value settings
  | d_fragment => on_fragment settings
  | d_query_string => on_query_string settings
  | d_path => on_path settings
  | d_url => on_url settings
  end.

(** ** Local variables and the step monad *)

Record marks := Marks {
  header_field_mark : option nat; header_value_mark : option nat; fragment_mark : option nat;
  query_string_mark : option nat; path_mark : option nat; url_mark : option nat }.

Definition get_mark (k : data_kind) (m : marks) : option nat :=
  match k with
  | d_header_field => header_field_mark m
  | d_header_value => header_value_mark m
  | d_fragment => fragment_mark m
  | d_query_string => query_string_mark m
  | d_path => path_mark m
  | d_url => url_mark m
  end.

Definition put_mark (k : data_kind) (v : option nat) (m : marks) : marks :=
  let '(Marks a b c d e f) := m in
  match k with
  | d_header_field => Marks v b c d e f
  | d_header_value => Marks a v c d e f
  | d_fragment => Marks a b v d e f
  | d_query_string => Marks a b c v e f
  | d_path => Marks a b c d v f
  | d_url => Marks a b c d e v
  end.

(** The locals of [http_parser_execute]: [c_pos] is [p - data]. *)
Record conf := Conf {
  c_regs : registers; c_fields : http_fields; c_marks : marks; c_pos : nat; c_user : U }.

Inductive fault := Assertion | Out_of_bounds | Out_of_fuel.

Inductive outcome (A : Type) :=
  | Ok (a : A) (c : conf)
  | Halt (keep_state : bool) (c : conf)
  | Error (c : conf)
  | Fault (f : fault) (c : conf).

Definition M (A : Type) : Type := conf -> outcome A.

#[global] Instance M_ret : MRet M := fun A a c => Ok A a c.
#[global] Instance M_bind : MBind M := fun A B k m c =>
  match m c with
  | Ok _ a c' => k a c'
  | Halt _ b c' => Halt B b c'
  | Error _ c' => Error B c'
  | Fault _ f c' => Fault B f c'
  end.

Definition error {A} : M A := fun c => Error A c.
Definition failed {A} (f : fault) : M A := fun c => Fault A f c.
Definition getf : M http_fields := fun c => Ok _ (c_fields c) c.
Definition getr : M registers := fun c => Ok _ (c_regs c) c.
Definition modf (g : http_fields -> http_fields) : M unit := fun c =>
  Ok _ tt (Conf (c_regs c) (g (c_fields c)) (c_marks c) (c_pos c) (c_user c)).
Definition modr (g : registers -> registers) : M unit := fun c =>
  Ok _ tt (Conf (g (c_regs c)) (c_fields c) (c_marks c) (c_pos c) (c_user c)).

Definition set_state (s : state) : M unit :=
  modr (fun r => Registers s (r_header_state r) (r_index r) (r_nread r)).
Definition set_header_state (h : header_states) : M unit :=
  modr (fun r => Registers (r_state r) h (r_index r) (r_nread r)).
Definition set_index (i : Z) : M unit :=
  modr (fun r => Registers (r_state r) (r_header_state r) i (r_nread r)).
Definition set_nread (n : Z) : M unit :=
  modr (fun r => Registers (r_state r) (r_header_state r) (r_index r) n).

Definition STRICT_CHECK (b : bool) : M unit := if b then error else mret tt.
Definition assert_ (b : bool) : M unit := if b then mret tt else failed Assertion.

(** [CALLBACK2]: [None] is a null callback pointer. *)
Definition CALLBACK2 (cb : option http_cb) : M unit := fun c =>
  match cb with
  | None => Ok _ tt c
  | Some g =>
      let '(rc, u) := g (c_fields c) (c_user c) in
      let c := Conf (c_regs c) (c_fields c) (c_marks c) (c_pos c) u in
      if rc =? 0 then Ok _ tt c else Halt _ false c
  end.

Definition slice (data : list Z) (from to : nat) : list Z := take (to - from) (drop from data).

(** The buffer of this call, [data .. data + len). *)
Variable data : list Z.

Definition MARK (k : data_kind) : M unit := fun c =>
  Ok _ tt (Conf (c_regs c) (c_fields c) (put_mark k (Some (c_pos c)) (c_marks c)) (c_pos c) (c_user c)).

Definition CALLBACK_NOCLEAR (k : data_kind) : M unit := fun c =>
  match get_mark k (c_marks c), on_data k with
  | Some m, Some g =>
      let '(rc, u) := g (c_fields c) m (slice data m (c_pos c)) (c_user c) in
      let c := Conf (c_regs c) (c_fields c) (c_marks c) (c_pos c) u in
      if rc =? 0 then Ok _ tt c else Halt _ false c
  | _, _ => Ok _ tt c
  end.

Definition clear_mark (k : data_kind) : M unit := fun c =>
  Ok _ tt (Conf (c_regs c) (c_fields c) (put_mark k None (c_marks c)) (c_pos c) (c_user c)).
Definition CALLBACK (k : data_kind) : M unit := CALLBACK_NOCLEAR k;; clear_mark k.

(** ** The switch, one definition per group of states *)

Definition is_crlf (ch : Z) : bool := (ch =? CR) || (ch =? LF).
Definition not_digit (ch : Z) : bool := (ch <? chr "0") || (chr "9" <? ch).
Definition is_lower_alpha (c : Z) : bool := (chr "a" <=? c) && (c <=? chr "z").

(** Label [start_req_method_assign]. *)
Definition start_req_method_assign (ch : Z) : M unit :=
  modf (set_method HTTP_DELETE);;
  set_index 1;;
  (if ch =? chr "C" then modf (set_method HTTP_CONNECT)
   else if ch =? chr "D" then modf (set_method HTTP_DELETE)
   else if ch =? chr "G" then modf (set_method HTTP_GET)
   else if ch =? chr "H" then modf (set_method HTTP_HEAD)
   else if ch =? chr "L" then modf (set_method HTTP_LOCK)
   else if ch =? chr "M" then modf (set_method HTTP_MKCOL)
   else if ch =? chr "N" then modf (set_method HTTP_NOTIFY)
   else if ch =? chr "O" then modf (set_method HTTP_OPTIONS)
   else if ch =? chr "P" then modf (set_method HTTP_POST)
   else if ch =? chr "R" then modf (set_method HTTP_REPORT)
   else if ch =? chr "S" then modf (set_method HTTP_SUBSCRIBE)
   else if ch =? chr "T" then modf (set_method HTTP_TRACE)
   else if ch =? chr "U" then modf (set_method HTTP_UNLOCK)
   else error);;
  set_state s_req_method.

Definition begin_message : M unit :=
  modf (set_flags 0);; modf (set_content_length (-1));; CALLBACK2 (on_message_begin settings).

Definition do_start_req_or_res (ch : Z) : M unit :=
  if is_crlf ch then mret tt
  else
    begin_message;;
    if ch =? chr "H" then set_state s_res_or_resp_H
    else modf (set_type HTTP_REQUEST);; start_req_method_assign ch.

Definition do_res_or_resp_H (ch : Z) : M unit :=
  if ch =? chr "T" then modf (set_type HTTP_RESPONSE);; set_state s_res_HT
  else if negb (ch =? chr "E") then error
  else
    modf (set_type HTTP_REQUEST);; modf (set_method HTTP_HEAD);;
    set_index 2;; set_state s_req_method.

Definition do_start_res (ch : Z) : M unit :=
  begin_message;;
  if ch =? chr "H" then set_state s_res_H
  else if is_crlf ch then mret tt
  else error.

Definition do_start_req (ch : Z) : M unit :=
  if is_crlf ch then mret tt
  else
    begin_message;;
    if (ch <? chr "A") || (chr "Z" <? ch) then error
    else start_req_method_assign ch.

(** The version and status numbers, shared by request and response lines. *)
Definition first_digit (low : Z) (set : Z -> http_fields -> http_fields) (next : state) (ch : Z)
    : M unit :=
  if (ch <? low) || (chr "9" <? ch) then error
  else modf (set (u16 (ch - chr "0")));; set_state next.

Definition next_digit (get : http_fields -> Z) (set : Z -> http_fields -> http_fields) (ch : Z)
    : M unit :=
  modf (fun f => set (u16 (get f * 10)) f);;
  modf (fun f => set (u16 (get f + (ch - chr "0"))) f);;
  f ← getf;
  if 999 <? get f then error else mret tt.

Definition do_res_first_status_code (ch : Z) : M unit :=
  if not_digit ch then (if ch =? chr " " then mret tt else error)
  else modf (set_status_code (u16 (ch - chr "0")));; set_state s_res_status_code.

Definition do_res_status_code (ch : Z) : M unit :=
  if not_digit ch then
    if ch =? chr " " then set_state s_res_status
    else if ch =? CR then set_state s_res_line_almost_done
    else if ch =? LF then set_state s_header_field_start
    else error
  else next_digit status_code set_status_code ch.

Definition do_res_http_major (ch : Z) : M unit :=
  if ch =? chr "." then set_state s_res_first_http_minor
  else if not_digit ch then error
  else next_digit http_major set_http_major ch.

Definition do_res_http_minor (ch : Z) : M unit :=
  if ch =? chr " " then set_state s_res_first_status_code
  else if not_digit ch then error
  else next_digit http_minor set_http_minor ch.

Definition do_res_status (ch : Z) : M unit :=
  if ch =? CR then set_state s_res_line_almost_done
  else if ch =? LF then set_state s_header_field_start
  else mret tt.

(** [matcher[index]], the terminating NUL included. *)
Definition matcher_at (m : http_method) (index : Z) : option Z :=
  (method_strings m ++ [0]) !! Z.to_nat index.

Definition do_req_method (ch : Z) : M unit :=
  if ch =? 0 then error
  else
    f ← getf; r ← getr;
    let index := r_index r in
    match matcher_at (method f) index with
    | None => failed Out_of_bounds
    | Some m =>
        (if (ch =? chr " ") && (m =? 0) then set_state s_req_spaces_before_url
         else if ch =? m then mret tt
         else if decide (method f = HTTP_CONNECT) then
           if (index =? 1) && (ch =? chr "H") then modf (set_method HTTP_CHECKOUT)
           else if (index =? 2) && (ch =? chr "P") then modf (set_method HTTP_COPY)
           else mret tt
         else if decide (method f = HTTP_MKCOL) then
           if (index =? 1) && (ch =? chr "O") then modf (set_method HTTP_MOVE)
           else if (index =? 1) && (ch =? chr "E") then modf (set_method HTTP_MERGE)
           else if (index =? 1) && (ch =? chr "-") then modf (set_method HTTP_MSEARCH)
           else if (index =? 2) && (ch =? chr "A") then modf (set_method HTTP_MKACTIVITY)
           else mret tt
         else if (index =? 1) && bool_decide (method f = HTTP_POST) && (ch =? chr "R") then
           modf (set_method HTTP_PROPFIND)
         else if (index =? 1) && bool_decide (method f = HTTP_POST) && (ch =? chr "U") then
           modf (set_method HTTP_PUT)
         else if (index =? 2) && bool_decide (method f = HTTP_UNLOCK) && (ch =? chr "S") then
           modf (set_method HTTP_UNSUBSCRIBE)
         else if (index =? 4) && bool_decide (method f = HTTP_PROPFIND) && (ch =? chr "P") then
           modf (set_method HTTP_PROPPATCH)
         else error);;
        set_index (u64 (index + 1))
    end.

Definition do_req_spaces_before_url (ch : Z) : M unit :=
  if ch =? chr " " then mret tt
  else if (ch =? chr "/") || (ch =? chr "*") then
    MARK d_url;; MARK d_path;; set_state s_req_path
  else if is_lower_alpha (i8 (LOWER ch)) then MARK d_url;; set_state s_req_schema
  else error.

Definition do_req_schema (ch : Z) : M unit :=
  if is_lower_alpha (i8 (LOWER ch)) then mret tt
  else if ch =? chr ":" then set_state s_req_schema_slash
  else if ch =? chr "." then set_state s_req_host
  else if (chr "0" <=? ch) && (ch <=? chr "9") then set_state s_req_host
  else error.

Definition do_req_host (ch : Z) : M unit :=
  if is_lower_alpha (i8 (LOWER ch)) then mret tt
  else if ((chr "0" <=? ch) && (ch <=? chr "9")) || (ch =? chr ".") || (ch =? chr "-") then mret tt
  else if ch =? chr ":" then set_state s_req_port
  else if ch =? chr "/" then MARK d_path;; set_state s_req_path
  else if ch =? chr " " then CALLBACK d_url;; set_state s_req_http_start
  else error.

Definition do_req_port (ch : Z) : M unit :=
  if (chr "0" <=? ch) && (ch <=? chr "9") then mret tt
  else if ch =? chr "/" then MARK d_path;; set_state s_req_path
  else if ch =? chr " " then CALLBACK d_url;; set_state s_req_http_start
  else error.

Definition url_char (ch : Z) : bool := negb (table normal_url_char ch =? 0).

(** A request line that ends without a version is HTTP/0.9. *)
Definition http_0_9 (next : state) : M unit :=
  modf (set_http_major 0);; modf (set_http_minor 9);; set_state next.

Definition do_req_path (ch : Z) : M unit :=
  if url_char ch then mret tt
  else if ch =? chr " " then CALLBACK d_url;; CALLBACK d_path;; set_state s_req_http_start
  else if ch =? CR then CALLBACK d_url;; CALLBACK d_path;; http_0_9 s_req_line_almost_done
  else if ch =? LF then CALLBACK d_url;; CALLBACK d_path;; http_0_9 s_header_field_start
  else if ch =? chr "?" then CALLBACK d_path;; set_state s_req_query_string_start
  else if ch =? chr "#" then CALLBACK d_path;; set_state s_req_fragment_start
  else error.

Definition do_req_query_string_start (ch : Z) : M unit :=
  if url_char ch then MARK d_query_string;; set_state s_req_query_string
  else if ch =? chr "?" then mret tt
  else if ch =? chr " " then CALLBACK d_url;; set_state s_req_http_start
  else if ch =? CR then CALLBACK d_url;; http_0_9 s_req_line_almost_done
  else if ch =? LF then CALLBACK d_url;; http_0_9 s_header_field_start
  else if ch =? chr "#" then set_state s_req_fragment_start
  else error.

Definition do_req_query_string (ch : Z) : M unit :=
  if url_char ch then mret tt
  else if ch =? chr "?" then mret tt
  else if ch =? chr " " then CALLBACK d_url;; CALLBACK d_query_string;; set_state s_req_http_start
  else if ch =? CR then
    CALLBACK d_url;; CALLBACK d_query_string;; http_0_9 s_req_line_almost_done
  else if ch =? LF then
    CALLBACK d_url;; CALLBACK d_query_string;; http_0_9 s_header_field_start
  else if ch =? chr "#" then CALLBACK d_query_string;; set_state s_req_fragment_start
  else error.

Definition do_req_fragment_start (ch : Z) : M unit :=
  if url_char ch then MARK d_fragment;; set_state s_req_fragment
  else if ch =? chr " " then CALLBACK d_url;; set_state s_req_http_start
  else if ch =? CR then CALLBACK d_url;; http_0_9 s_req_line_almost_done
  else if ch =? LF then CALLBACK d_url;; http_0_9 s_header_field_start
  else if ch =? chr "?" then MARK d_fragment;; set_state s_req_fragment
  else if ch =? chr "#" then mret tt
  else error.

Definition do_req_fragment (ch : Z) : M unit :=
  if url_char ch then mret tt
  else if ch =? chr " " then CALLBACK d_url;; CALLBACK d_fragment;; set_state s_req_http_start
  else if ch =? CR then CALLBACK d_url;; CALLBACK d_fragment;; http_0_9 s_req_line_almost_done
  else if ch =? LF then CALLBACK d_url;; CALLBACK d_fragment;; http_0_9 s_header_field_start
  else if (ch =? chr "?") || (ch =? chr "#") then mret tt
  else error.

Definition do_req_http_start (ch : Z) : M unit :=
  if ch =? chr "H" then set_state s_req_http_H
  else if ch =? chr " " then mret tt
  else error.

Definition do_req_http_major (ch : Z) : M unit :=
  if ch =? chr "." then set_state s_req_first_http_minor
  else if not_digit ch then error
  else next_digit http_major set_http_major ch.

Definition do_req_http_minor (ch : Z) : M unit :=
  if ch =? CR then set_state s_req_line_almost_done
  else if ch =? LF then set_state s_header_field_start
  else if not_digit ch then error
  else next_digit http_minor set_http_minor ch.

(** A literal character of the strict build. *)
Definition expect (want : Z) (next : state) (ch : Z) : M unit :=
  STRICT_CHECK (negb (ch =? want));; set_state next.

(** Label [headers_almost_done]. *)
Definition message_done : M unit :=
  CALLBACK2 (on_message_complete settings);; f ← getf; set_state (NEW_MESSAGE f).

Definition call_headers_complete : M unit := fun c =>
  match on_headers_complete settings with
  | None => Ok _ tt c
  | Some g =>
      let '(rc, u) := g (c_fields c) (c_user c) in
      let c := Conf (c_regs c) (c_fields c) (c_marks c) (c_pos c) u in
      if rc =? 0 then Ok _ tt c
      else if rc =? 1 then
        Ok _ tt (Conf (c_regs c) (or_flag F_SKIPBODY (c_fields c)) (c_marks c) (c_pos c) u)
      else Halt _ true c
  end.

(** [return (p - data)] from the loop. *)
Definition halt : M unit := fun c => Halt _ false c.

Definition headers_almost_done (ch : Z) : M unit :=
  STRICT_CHECK (negb (ch =? LF));;
  f ← getf;
  if has_flag f F_TRAILING then message_done
  else
    set_nread 0;;
    (if has_flag f F_UPGRADE || bool_decide (method f = HTTP_CONNECT)
     then modf (set_upgrade 1) else mret tt);;
    call_headers_complete;;
    f ← getf;
    if negb (upgrade f =? 0) then CALLBACK2 (on_message_complete settings);; halt
    else if has_flag f F_SKIPBODY then message_done
    else if has_flag f F_CHUNKED then set_state s_chunk_size_start
    else if content_length f =? 0 then message_done
    else if 0 <? content_length f then set_state s_body_identity
    else if (match type f with HTTP_REQUEST => true | _ => false end) || http_should_keep_alive f
    then message_done
    else set_state s_body_identity_eof.

Definition do_header_field_start (ch : Z) : M unit :=
  if ch =? CR then set_state s_headers_almost_done
  else if ch =? LF then set_state s_headers_almost_done;; headers_almost_done ch
  else
    let c := TOKEN ch in
    if c =? 0 then error
    else
      MARK d_header_field;; set_index 0;; set_state s_header_field;;
      if c =? chr "c" then set_header_state h_C
      else if c =? chr "p" then set_header_state h_matching_proxy_connection
      else if c =? chr "t" then set_header_state h_matching_transfer_encoding
      else if c =? chr "u" then set_header_state h_matching_upgrade
      else set_header_state h_general.

(** The comparison with the next character of a header word: past the end or
    different resets to [h_general], the last character moves to [next]. *)
Definition match_word (word : list Z) (next : header_states) (c : Z) : M unit :=
  r ← getr;
  let index := u64 (r_index r + 1) in
  set_index index;;
  if (Z.of_nat (length word) <? index) || negb (c =? nth (Z.to_nat index) (word ++ [0]) 0) then
    set_header_state h_general
  else if index =? Z.of_nat (length word) - 1 then set_header_state next
  else mret tt.

Definition PROXY_CONNECTION : list Z := bytes_of "proxy-connection".
Definition CONNECTION : list Z := bytes_of "connection".
Definition CONTENT_LENGTH : list Z := bytes_of "content-length".
Definition TRANSFER_ENCODING : list Z := bytes_of "transfer-encoding".
Definition UPGRADE : list Z := bytes_of "upgrade".
Definition CHUNKED : list Z := bytes_of "chunked".
Definition KEEP_ALIVE : list Z := bytes_of "keep-alive".
Definition CLOSE : list Z := bytes_of "close".

Definition inc_index : M unit := r ← getr; set_index (u64 (r_index r + 1)).

(** The [switch (header_state)] of a field character. *)
Definition header_field_char (hs : header_states) (ch c : Z) : M unit :=
  match hs with
  | h_general => mret tt
  | h_C => inc_index;; set_header_state (if c =? chr "o" then h_CO else h_general)
  | h_CO => inc_index;; set_header_state (if c =? chr "n" then h_CON else h_general)
  | h_CON =>
      inc_index;;
      set_header_state (if c =? chr "n" then h_matching_connection
                        else if c =? chr "t" then h_matching_content_length else h_general)
  | h_matching_connection => match_word CONNECTION h_connection c
  | h_matching_proxy_connection => match_word PROXY_CONNECTION h_connection c
  | h_matching_content_length => match_word CONTENT_LENGTH h_content_length c
  | h_matching_transfer_encoding => match_word TRANSFER_ENCODING h_transfer_encoding c
  | h_matching_upgrade => match_word UPGRADE h_upgrade c
  | h_connection | h_content_length | h_transfer_encoding | h_upgrade =>
      if negb (ch =? chr " ") then set_header_state h_general else mret tt
  | _ => failed Assertion
  end.

Definition do_header_field (ch : Z) : M unit :=
  let c := TOKEN ch in
  if negb (c =? 0) then r ← getr; header_field_char (r_header_state r) ch c
  else if ch =? chr ":" then CALLBACK d_header_field;; set_state s_header_value_start
  else if ch =? CR then set_state s_header_almost_done;; CALLBACK d_header_field
  else if ch =? LF then CALLBACK d_header_field;; set_state s_header_field_start
  else error.

Definition do_header_value_start (ch : Z) : M unit :=
  if ch =? chr " " then mret tt
  else
    MARK d_header_value;; set_state s_header_value;; set_index 0;;
    let c := i8 (LOWER ch) in
    if ch =? CR then
      CALLBACK d_header_value;; set_header_state h_general;; set_state s_header_almost_done
    else if ch =? LF then CALLBACK d_header_value;; set_state s_header_field_start
    else
      r ← getr;
      match r_header_state r with
      | h_upgrade => modf (or_flag F_UPGRADE);; set_header_state h_general
      | h_transfer_encoding =>
          set_header_state (if chr "c" =? c then h_matching_transfer_encoding_chunked else h_general)
      | h_content_length =>
          if not_digit ch then error else modf (set_content_length (ch - chr "0"))
      | h_connection =>
          set_header_state (if c =? chr "k" then h_matching_connection_keep_alive
                            else if c =? chr "c" then h_matching_connection_close else h_general)
      | _ => set_header_state h_general
      end.

(** Label [header_almost_done]. *)
Definition header_almost_done (ch : Z) : M unit :=
  STRICT_CHECK (negb (ch =? LF));;
  set_state s_header_field_start;;
  r ← getr;
  match r_header_state r with
  | h_connection_keep_alive => modf (or_flag F_CONNECTION_KEEP_ALIVE)
  | h_connection_close => modf (or_flag F_CONNECTION_CLOSE)
  | h_transfer_encoding_chunked => modf (or_flag F_CHUNKED)
  | _ => mret tt
  end.

(** The [switch (header_state)] of a value character; the multiplication and
    the addition on [content_length] wrap. *)
Definition header_value_char (hs : header_states) (ch c : Z) : M unit :=
  match hs with
  | h_general => mret tt
  | h_connection | h_transfer_encoding => failed Assertion
  | h_content_length =>
      if ch =? chr " " then mret tt
      else if not_digit ch then error
      else
        modf (fun f => set_content_length (i64 (content_length f * 10)) f);;
        modf (fun f => set_content_length (i64 (content_length f + (ch - chr "0"))) f)
  | h_matching_transfer_encoding_chunked => match_word CHUNKED h_transfer_encoding_chunked c
  | h_matching_connection_keep_alive => match_word KEEP_ALIVE h_connection_keep_alive c
  | h_matching_connection_close => match_word CLOSE h_connection_close c
  | h_transfer_encoding_chunked | h_connection_keep_alive | h_connection_close =>
      if negb (ch =? chr " ") then set_header_state h_general else mret tt
  | _ => set_state s_header_value;; set_header_state h_general
  end.

Definition do_header_value (ch : Z) : M unit :=
  let c := i8 (LOWER ch) in
  if ch =? CR then CALLBACK d_header_value;; set_state s_header_almost_done
  else if ch =? LF then CALLBACK d_header_value;; header_almost_done ch
  else r ← getr; header_value_char (r_header_state r) ch c.

(** ** Bodies *)

Definition call_body (n : Z) : M unit := fun c =>
  match on_body settings with
  | None => Ok _ tt c
  | Some g =>
      let '(_, u) := g (c_fields c) (c_pos c)
        (slice data (c_pos c) (c_pos c + Z.to_nat n)) (c_user c) in
      Ok _ tt (Conf (c_regs c) (c_fields c) (c_marks c) (c_pos c) u)
  end.

(** [p += to_read - 1] *)
Definition skip (n : Z) : M unit := fun c =>
  Ok _ tt (Conf (c_regs c) (c_fields c) (c_marks c) (c_pos c + Z.to_nat (n - 1)) (c_user c)).

(** [pe - p] *)
Definition remaining : M Z := fun c => Ok _ (Z.of_nat (length data - c_pos c)) c.

Definition do_body_identity : M unit :=
  rem ← remaining; f ← getf;
  let to_read := Z.min rem (content_length f) in
  if 0 <? to_read then
    call_body to_read;; skip to_read;;
    modf (fun f => set_content_length (content_length f - to_read) f);;
    f ← getf;
    if content_length f =? 0 then message_done else mret tt
  else mret tt.

Definition do_body_identity_eof : M unit :=
  to_read ← remaining;
  if 0 <? to_read then call_body to_read;; skip to_read else mret tt.

Definition assert_chunked : M unit := f ← getf; assert_ (has_flag f F_CHUNKED).

Definition do_chunk_size_start (ch : Z) : M unit :=
  r ← getr; assert_ (r_nread r =? 1);;
  assert_chunked;;
  let c := table unhex ch in
  if c =? -1 then error
  else modf (set_content_length c);; set_state s_chunk_size.

Definition do_chunk_size (ch : Z) : M unit :=
  assert_chunked;;
  if ch =? CR then set_state s_chunk_size_almost_done
  else
    let c := table unhex ch in
    if c =? -1 then
      if (ch =? chr ";") || (ch =? chr " ") then set_state s_chunk_parameters else error
    else
      modf (fun f => set_content_length (i64 (content_length f * 16)) f);;
      modf (fun f => set_content_length (i64 (content_length f + c)) f).

Definition do_chunk_parameters (ch : Z) : M unit :=
  assert_chunked;;
  if ch =? CR then set_state s_chunk_size_almost_done else mret tt.

Definition do_chunk_size_almost_done (ch : Z) : M unit :=
  assert_chunked;;
  STRICT_CHECK (negb (ch =? LF));;
  set_nread 0;;
  f ← getf;
  if content_length f =? 0 then modf (or_flag F_TRAILING);; set_state s_header_field_start
  else set_state s_chunk_data.

Definition do_chunk_data : M unit :=
  assert_chunked;;
  rem ← remaining; f ← getf;
  let to_read := Z.min rem (content_length f) in
  (if 0 <? to_read then call_body to_read;; skip to_read else mret tt);;
  (if to_read =? content_length f then set_state s_chunk_data_almost_done else mret tt);;
  modf (fun f => set_content_length (content_length f - to_read) f).

Definition do_chunk_data_almost_done (ch : Z) : M unit :=
  assert_chunked;; expect CR s_chunk_data_done ch.
Definition do_chunk_data_done (ch : Z) : M unit :=
  assert_chunked;; expect LF s_chunk_size_start ch.

(** ** The switch and the loop *)

Definition switch (s : state) (ch : Z) : M unit :=
  match s with
  | s_dead => error
  | s_start_req_or_res => do_start_req_or_res ch
  | s_res_or_resp_H => do_res_or_resp_H ch
  | s_start_res => do_start_res ch
  | s_res_H => expect (chr "T") s_res_HT ch
  | s_res_HT => expect (chr "T") s_res_HTT ch
  | s_res_HTT => expect (chr "P") s_res_HTTP ch
  | s_res_HTTP => expect (chr "/") s_res_first_http_major ch
  | s_res_first_http_major => first_digit (chr "1") set_http_major s_res_http_major ch
  | s_res_http_major => do_res_http_major ch
  | s_res_first_http_minor => first_digit (chr "0") set_http_minor s_res_http_minor ch
  | s_res_http_minor => do_res_http_minor ch
  | s_res_first_status_code => do_res_first_status_code ch
  | s_res_status_code => do_res_status_code ch
  | s_res_status => do_res_status ch
  | s_res_line_almost_done => expect LF s_header_field_start ch
  | s_start_req => do_start_req ch
  | s_req_method => do_req_method ch
  | s_req_spaces_before_url => do_req_spaces_before_url ch
  | s_req_schema => do_req_schema ch
  | s_req_schema_slash => expect (chr "/") s_req_schema_slash_slash ch
  | s_req_schema_slash_slash => expect (chr "/") s_req_host ch
  | s_req_host => do_req_host ch
  | s_req_port => do_req_port ch
  | s_req_path => do_req_path ch
  | s_req_query_string_start => do_req_query_string_start ch
  | s_req_query_string => do_req_query_string ch
  | s_req_fragment_start => do_req_fragment_start ch
  | s_req_fragment => do_req_fragment ch
  | s_req_http_start => do_req_http_start ch
  | s_req_http_H => expect (chr "T") s_req_http_HT ch
  | s_req_http_HT => expect (chr "T") s_req_http_HTT ch
  | s_req_http_HTT => expect (chr "P") s_req_http_HTTP ch
  | s_req_http_HTTP => expect (chr "/") s_req_first_http_major ch
  | s_req_first_http_major => first_digit (chr "1") set_http_major s_req_http_major ch
  | s_req_http_major => do_req_http_major ch
  | s_req_first_http_minor => first_digit (chr "0") set_http_minor s_req_http_minor ch
  | s_req_http_minor => do_req_http_minor ch
  | s_req_line_almost_done => expect LF s_header_field_start ch
  | s_header_field_start => do_header_field_start ch
  | s_header_field => do_header_field ch
  | s_header_value_start => do_header_value_start ch
  | s_header_value => do_header_value ch
  | s_header_almost_done => header_almost_done ch
  | s_headers_almost_done => headers_almost_done ch
  | s_body_identity => do_body_identity
  | s_body_identity_eof => do_body_identity_eof
  | s_chunk_size_start => do_chunk_size_start ch
  | s_chunk_size => do_chunk_size ch
  | s_chunk_parameters => do_chunk_parameters ch
  | s_chunk_size_almost_done => do_chunk_size_almost_done ch
  | s_chunk_data => do_chunk_data
  | s_chunk_data_almost_done => do_chunk_data_almost_done ch
  | s_chunk_data_done => do_chunk_data_done ch
  end.

(** [++nread] and the header size limit. *)
Definition count_header : M unit :=
  r ← getr;
  if PARSING_HEADER (r_state r) then
    set_nread (u64 (r_nread r + 1));;
    r ← getr;
    if HTTP_MAX_HEADER_SIZE <? r_nread r then error else mret tt
  else mret tt.

Definition step (ch : Z) : M unit :=
  count_header;; r ← getr; switch (r_state r) ch.

(** One iteration of the [for] loop, [p++] included. *)
Definition advance : M unit := fun c =>
  Ok _ tt (Conf (c_regs c) (c_fields c) (c_marks c) (S (c_pos c)) (c_user c)).
Definition iteration (b : Z) : M unit := step (i8 b);; advance.

Fixpoint execute_loop (fuel : nat) : M unit := fun c =>
  match data !! c_pos c with
  | None => Ok _ tt c
  | Some b =>
      match fuel with
      | O => Fault _ Out_of_fuel c
      | S fuel => (iteration b;; execute_loop fuel) c
      end
  end.

(** The pending data callbacks at the end of the buffer. *)
Definition finish : M unit :=
  CALLBACK_NOCLEAR d_header_field;;
  CALLBACK_NOCLEAR d_header_value;;
  CALLBACK_NOCLEAR d_fragment;;
  CALLBACK_NOCLEAR d_query_string;;
  CALLBACK_NOCLEAR d_path;;
  CALLBACK_NOCLEAR d_url.

(** The states inside a URL. *)
Definition in_url (s : state) : bool :=
  match s with
  | s_req_path | s_req_schema | s_req_schema_slash | s_req_schema_slash_slash | s_req_port
  | s_req_query_string_start | s_req_query_string | s_req_host
  | s_req_fragment_start | s_req_fragment => true
  | _ => false
  end.

Definition initial_marks (s : state) : marks :=
  let at_ (b : bool) := if b then Some 0%nat else None in
  Marks
    (at_ match s with s_header_field => true | _ => false end)
    (at_ match s with s_header_value => true | _ => false end)
    (at_ match s with s_req_fragment => true | _ => false end)
    (at_ match s with s_req_query_string => true | _ => false end)
    (at_ match s with s_req_path => true | _ => false end)
    (at_ (in_url s)).

Inductive exec_result :=
  | Returned (n : nat) (p : http_parser) (u : U)
  | Faulted (f : fault) (at_ : http_fields).

(** The end of [http_parser_execute]: store the registers back, return, or
    mark the parser dead. *)
Definition leave (parser : http_parser) (o : outcome unit) : exec_result :=
  let r := regs parser in
  match o with
  | Ok _ _ c =>
      let l := c_regs c in
      Returned (length data)
        (Parser (Registers (r_state l) (r_header_state l) (u8 (r_index l)) (u32 (r_nread l)))
           (c_fields c)) (c_user c)
  | Halt _ keep c =>
      let s := if keep then r_state (c_regs c) else r_state r in
      Returned (c_pos c)
        (Parser (Registers s (r_header_state r) (r_index r) (r_nread r)) (c_fields c)) (c_user c)
  | Error _ c =>
      Returned (c_pos c)
        (Parser (Registers s_dead (r_header_state r) (r_index r) (r_nread r)) (c_fields c))
        (c_user c)
  | Fault _ f c => Faulted f (c_fields c)
  end.

Definition http_parser_execute (parser : http_parser) (u : U) : exec_result :=
  let r := regs parser in
  let c := Conf r (fields parser) (initial_marks (r_state r)) 0 u in
  match data with
  | [] =>
      match r_state r with
      | s_body_identity_eof =>
          match CALLBACK2 (on_message_complete settings) c with
          | Ok _ _ c | Halt _ _ c => Returned 0 parser (c_user c)
          | _ => Returned 0 parser u
          end
      | s_dead | s_start_req_or_res | s_start_res | s_start_req => Returned 0 parser u
      | _ => Returned 1 parser u
      end
  | _ => leave parser ((execute_loop (length data);; finish) c)
  end.

End execute.

End HttpParser.
