(* ===== verification/HttpParserSplit.v ===== *)
(** * The HTTP parser on a stream cut into buffers

    Feeding a stream in two calls has the effect of feeding it at once, for
    callbacks that do not care how their data is cut.  The simulation relates
    a run over the whole buffer to the run over its rest: data that was still
    marked at the cut has been handed to the callbacks already. *)

From Stdlib Require Import Ascii String ZArith Lia.
From stdpp Require Import base gmap list numbers option.
From S2P Require Import Prelude HttpParser HttpParserProofs.

Local Open Scope Z_scope.

Module HttpParserSplit.
Import HttpParser HttpParserProofs.

#[export] Instance data_kind_eq_dec : EqDecision data_kind.
Proof. solve_decision. Defined.

Section split.
Context {U : Type} (settings : @http_parser_settings U).

(** What a data callback does to the user's state, and [on_body]. *)
Definition emit (k : data_kind) (f : http_fields) (l : list Z) (u : U) : U :=
  match on_data settings k with Some g => snd (g f 0%nat l u) | None => u end.
Definition emit_body (f : http_fields) (l : list Z) (u : U) : U :=
  match on_body settings with Some g => snd (g f 0%nat l u) | None => u end.

(** Callbacks that accumulate: no errors, no use of the address, the pieces of one datum may arrive in
    any number of calls, and data of different kinds do not interfere. *)
Class Accumulating : Prop := {
  acc_succeed : callbacks_succeed settings;
  acc_place : forall k g f i l u, on_data settings k = Some g -> g f i l u = g f 0%nat l u;
  acc_body_place : forall g f i l u, on_body settings = Some g -> g f i l u = g f 0%nat l u;
  acc_fields : forall k f f' l u, emit k f l u = emit k f' l u;
  acc_nil : forall k f u, emit k f [] u = u;
  acc_app : forall k f a b u, emit k f (a ++ b) u = emit k f b (emit k f a u);
  acc_comm : forall k k' f a b u, k <> k' ->
    emit k f a (emit k' f b u) = emit k' f b (emit k f a u);
  acc_body_fields : forall f f' l u, emit_body f l u = emit_body f' l u;
  acc_body_app : forall f a b u, emit_body f (a ++ b) u = emit_body f b (emit_body f a u) }.

Context `{Accumulating}.

Definition map_out {A} (phi : @conf U -> conf) (o : @outcome U A) : @outcome U A :=
  match o with
  | Ok _ a c => Ok _ a (phi c)
  | Halt _ b c => Halt _ b (phi c)
  | Error _ c => Error _ (phi c)
  | Fault _ f c => Fault _ f (phi c)
  end.

(** The marked data up to [p], handed to its callback. *)
Definition emit_mark (D : list Z) (k : data_kind) (f : http_fields) (m : option nat) (p : nat) (u : U) : U :=
  match m with Some a => emit k f (slice D a p) u | None => u end.

Lemma CALLBACK_NOCLEAR_ok D k r f m p u :
  CALLBACK_NOCLEAR settings D k (Conf r f m p u) =
  Ok _ tt (Conf r f m p (emit_mark D k f (get_mark k m) p u)).
Proof.
  unfold CALLBACK_NOCLEAR, emit_mark, emit. cbn [c_marks c_pos c_fields c_user c_regs].
  destruct (get_mark k m) as [a|]; [|done]. pose proof (cs_data _ acc_succeed k) as Hs.
  destruct (on_data settings k) as [g|] eqn:Eg; [|done]. rewrite (acc_place k g) by done.
  specialize (Hs f 0%nat (slice D a p) u).
  destruct (g f 0%nat (slice D a p) u) as [rc u']. simpl in *. by subst.
Qed.

Lemma CALLBACK_ok D k r f m p u :
  CALLBACK settings D k (Conf r f m p u) =
  Ok _ tt (Conf r f (put_mark k None m) p (emit_mark D k f (get_mark k m) p u)).
Proof. unfold CALLBACK, mbind, M_bind. by rewrite CALLBACK_NOCLEAR_ok. Qed.

Definition notify (cb : option (@http_cb U)) (f : http_fields) (u : U) : U :=
  match cb with Some g => snd (g f u) | None => u end.

Lemma CALLBACK2_ok cb r f m p u :
  cb_succeeds cb -> CALLBACK2 cb (Conf r f m p u) = Ok _ tt (Conf r f m p (notify cb f u)).
Proof.
  intros Hs. unfold CALLBACK2, notify. destruct cb as [g|]; [|done]. specialize (Hs f u). cbn.
  destruct (g f u) as [rc u']. simpl in *. by subst.
Qed.

(** ** Simulation by a change of coordinates *)

Section sim.
Variables (Da Db : list Z) (fm : marks -> marks) (fp : nat -> nat)
  (fu : http_fields -> marks -> U -> U) (P : nat -> Prop).
Definition phi (c : @conf U) : conf :=
  Conf (c_regs c) (c_fields c) (fm (c_marks c)) (fp (c_pos c))
    (fu (c_fields c) (c_marks c) (c_user c)).

Hypothesis Hfields : forall f f' m u, fu f m u = fu f' m u.
Hypothesis Hnone : fm no_marks = no_marks.
Hypothesis Hnone_u : forall f u, fu f no_marks u = u.
Hypothesis Hmark : forall k m p, P p -> fm (put_mark k (Some p) m) = put_mark k (Some (fp p)) (fm m).
Hypothesis Hmark_u : forall k f m p u, P p -> get_mark k m = None ->
  fu f (put_mark k (Some p) m) u = fu f m u.
Hypothesis Hclear : forall k m, fm (put_mark k None m) = put_mark k None (fm m).
Hypothesis Hemit : forall k f m p u, P p ->
  emit_mark Da k f (get_mark k (fm m)) (fp p) (fu f m u) =
  fu f (put_mark k None m) (emit_mark Db k f (get_mark k m) p u).

Definition sim {A} (ma mb : @M U A) (c : conf) : Prop := ma (phi c) = map_out phi (mb c).

Lemma sim_bind {A B} (ma mb : @M U A) (ka kb : A -> @M U B) c :
  sim ma mb c -> (forall a c', mb c = Ok _ a c' -> sim (ka a) (kb a) c') ->
  sim (ma ≫= ka) (mb ≫= kb) c.
Proof.
  unfold sim, mbind, M_bind. intros -> Hk. destruct (mb c) as [a c'| | |]; simpl; [|done..].
  by apply Hk.
Qed.

Lemma sim_then {A B} (ma mb : @M U A) (ka kb : A -> @M U B) c a c' :
  mb c = Ok _ a c' -> sim ma mb c -> sim (ka a) (kb a) c' -> sim (ma ≫= ka) (mb ≫= kb) c.
Proof. intros E Hm Hk. apply sim_bind; [done|]. intros a1 c1 E1. rewrite E in E1. by simplify_eq. Qed.

Lemma sim_assoc {A B C} (ma mb : @M U A) (ka kb : A -> @M U B) (la lb : B -> @M U C) c :
  sim (ma ≫= fun a => ka a ≫= la) (mb ≫= fun a => kb a ≫= lb) c ->
  sim ((ma ≫= ka) ≫= la) ((mb ≫= kb) ≫= lb) c.
Proof. unfold sim, mbind, M_bind. intros E. destruct (ma _), (mb _); done. Qed.

Lemma sim_modf g c : sim (modf g) (modf g) c.
Proof. unfold sim, modf, phi. cbn. do 2 f_equal. apply Hfields. Qed.
Lemma sim_modr g c : sim (modr g) (modr g) c.
Proof. done. Qed.
Lemma sim_getf c : sim getf getf c.
Proof. done. Qed.
Lemma sim_getr c : sim getr getr c.
Proof. done. Qed.
Lemma sim_error {A} c : sim (error (A:=A)) error c.
Proof. done. Qed.
Lemma sim_ret {A} (a : A) c : sim (mret a) (mret a) c.
Proof. done. Qed.
Lemma sim_failed {A} f c : sim (failed (A:=A) f) (failed f) c.
Proof. done. Qed.
Lemma sim_MARK k c : P (c_pos c) -> get_mark k (c_marks c) = None -> sim (MARK k) (MARK k) c.
Proof.
  intros Hp Hk. unfold sim, MARK, phi. cbn. by rewrite Hmark, Hmark_u.
Qed.
Lemma sim_CALLBACK k c :
  P (c_pos c) -> sim (CALLBACK settings Da k) (CALLBACK settings Db k) c.
Proof.
  intros Hp. destruct c as [r f m p u]. unfold sim. rewrite (CALLBACK_ok Db). unfold phi at 1. cbn.
  rewrite CALLBACK_ok. unfold phi. cbn. by rewrite Hclear, Hemit.
Qed.
Lemma sim_CALLBACK2 cb c :
  cb_succeeds cb -> c_marks c = no_marks -> sim (CALLBACK2 cb) (CALLBACK2 cb) c.
Proof.
  intros Hs Hm. destruct c as [r f m p u]. cbn in Hm. subst. unfold sim.
  rewrite (CALLBACK2_ok _ _ _ no_marks p) by done. unfold phi. cbn.
  by rewrite CALLBACK2_ok, Hnone, !Hnone_u.
Qed.

Ltac sim_simpl := cbn [c_regs c_fields c_marks c_pos c_user r_state r_header_state r_index r_nread].
Ltac sim_prim := first
  [ apply sim_modr | apply sim_modf | apply sim_getr | apply sim_getf
  | apply sim_ret | apply sim_error | apply sim_failed
  | apply sim_MARK; [assumption|reflexivity]
  | apply sim_CALLBACK; assumption
  | apply sim_CALLBACK2;
      [first [apply (cs_message_begin _ acc_succeed) | apply (cs_message_complete _ acc_succeed)]
      |reflexivity] ].
Ltac sim_go := repeat first
  [ sim_prim
  | eapply sim_then; [apply CALLBACK_ok|sim_prim|]; sim_simpl
  | eapply sim_then; [apply CALLBACK2_ok; first [apply (cs_message_begin _ acc_succeed) |
        apply (cs_message_complete _ acc_succeed)]|sim_prim|]; sim_simpl
  | eapply sim_then; [reflexivity|sim_prim|]; sim_simpl
  | apply sim_assoc
  | match goal with |- sim (if ?b then _ else _) _ _ => destruct b eqn:? end
  | match goal with |- sim ((if ?b then _ else _) ≫= _) _ _ => destruct b eqn:? end
  | apply sim_bind; [sim_prim|]; intros ?a ?c ?E; discriminate E ].

Lemma sim_switch_simple s hs i n f m p u ch :
  P p -> marks_shape m = marks_shape (initial_marks s) ->
  match s with
  | s_req_method | s_header_field | s_header_value | s_header_field_start | s_headers_almost_done
  | s_header_value_start | s_header_almost_done
  | s_body_identity | s_body_identity_eof | s_chunk_data => False
  | _ => True
  end ->
  sim (switch settings Da s ch) (switch settings Db s ch) (Conf (Registers s hs i n) f m p u).
Proof.
  intros Hp Hm Hc. destruct m as [m1 m2 m3 m4 m5 m6].
  destruct s; try destruct Hc; cbn [switch] in *; cbn in Hm;
    destruct m1, m2, m3, m4, m5, m6; try discriminate Hm; clear Hm.
  all: unfold do_start_req_or_res, do_res_or_resp_H, do_start_res, do_start_req,
    begin_message, start_req_method_assign, expect, first_digit, next_digit, STRICT_CHECK,
    do_res_http_major, do_res_http_minor, do_res_first_status_code, do_res_status_code,
    do_res_status, do_req_spaces_before_url, do_req_schema, do_req_host, do_req_port,
    do_req_path, http_0_9, do_req_query_string_start, do_req_query_string, do_req_fragment_start,
    do_req_fragment, do_req_http_start, do_req_http_major, do_req_http_minor,
    do_chunk_size_start, do_chunk_size, do_chunk_parameters,
    do_chunk_size_almost_done, do_chunk_data_almost_done, do_chunk_data_done, expect,
    assert_chunked, assert_, STRICT_CHECK.
  all: sim_go.
Qed.

Lemma sim_match_word w next ch c : sim (match_word w next ch) (match_word w next ch) c.
Proof. unfold match_word, set_index, set_header_state. sim_go. Qed.

Lemma sim_headers_complete c : c_marks c = no_marks ->
  sim (call_headers_complete settings) (call_headers_complete settings) c.
Proof.
  intros Hm. destruct c as [r f m p u]. cbn in Hm. subst. unfold sim, call_headers_complete, phi.
  destruct (on_headers_complete settings) as [g|]; [|done]. cbn. rewrite Hnone, Hnone_u.
  destruct (g f u) as [rc u']. destruct (rc =? 0); cbn; [by rewrite Hnone, Hnone_u|].
  destruct (rc =? 1); cbn; by rewrite Hnone, Hnone_u.
Qed.

Lemma headers_complete_marks c :
  match call_headers_complete settings c with
  | Ok _ _ c' => c_marks c' = c_marks c /\ c_pos c' = c_pos c /\ c_regs c' = c_regs c
  | _ => True
  end.
Proof.
  unfold call_headers_complete. destruct (on_headers_complete settings) as [g|]; [|done].
  destruct (g _ _) as [rc u']. by destruct (rc =? 0), (rc =? 1).
Qed.

Lemma sim_headers_almost_done r f p u ch :
  sim (headers_almost_done settings ch) (headers_almost_done settings ch)
    (Conf r f no_marks p u).
Proof.
  unfold headers_almost_done, STRICT_CHECK, message_done, set_nread, set_state. sim_go.
  all: apply sim_bind; [by apply sim_headers_complete|]; intros [] c E.
  all: match type of E with call_headers_complete _ ?c0 = _ =>
    pose proof (headers_complete_marks c0) as Hc; rewrite E in Hc end.
  all: destruct Hc as (Hm & _); destruct c as [r' f' m' p' u']; cbn in Hm; subst m'.
  all: sim_go; unfold sim, halt, phi; cbn; by rewrite Hnone, Hnone_u.
Qed.

Lemma sim_switch s hs i n f m p u ch :
  P p -> marks_shape m = marks_shape (initial_marks s) ->
  match s with s_body_identity | s_body_identity_eof | s_chunk_data => False | _ => True end ->
  sim (switch settings Da s ch) (switch settings Db s ch) (Conf (Registers s hs i n) f m p u).
Proof.
  intros Hp Hm Hc. destruct s; try destruct Hc; try (by apply sim_switch_simple); cbn [switch];
    destruct m as [m1 m2 m3 m4 m5 m6]; cbn in Hm;
    destruct m1, m2, m3, m4, m5, m6; try discriminate Hm; clear Hm.
  - unfold do_req_method, set_state, set_index. sim_go.
    destruct (matcher_at (method f) i); sim_go.
  - unfold do_header_field_start, set_state, set_index, set_header_state. sim_go.
    apply sim_headers_almost_done.
  - unfold do_header_field, set_state. sim_go.
    destruct hs; cbn [header_field_char]; unfold inc_index, set_index, set_header_state;
      first [apply sim_match_word|sim_go].
  - unfold do_header_value_start, set_state, set_index, set_header_state. sim_go. destruct hs; sim_go.
  - unfold do_header_value, header_almost_done, STRICT_CHECK, set_state. sim_go.
    + destruct hs; sim_go.
    + destruct hs; cbn [header_value_char]; unfold set_state, set_header_state;
        first [apply sim_match_word|sim_go].
  - unfold header_almost_done, STRICT_CHECK, set_state. sim_go. destruct hs; sim_go.
  - apply sim_headers_almost_done.
Qed.

Lemma sim_step c ch :
  P (c_pos c) -> conf_ok c ->
  match r_state (c_regs c) with
  | s_body_identity | s_body_identity_eof | s_chunk_data => False | _ => True end ->
  sim (step settings Da ch) (step settings Db ch) c.
Proof.
  intros Hp [_ Hm] Hc. destruct c as [[s hs i n] f m p u]. cbn in *.
  unfold step, count_header, set_nread. sim_go; by apply sim_switch.
Qed.

End sim.

(** ** Handing over everything that is marked *)

Definition kinds : list data_kind :=
  [d_header_field; d_header_value; d_fragment; d_query_string; d_path; d_url].

Definition flush (D : list Z) (f : http_fields) (m : marks) (p : nat) (u : U) : U :=
  foldl (fun u k => emit_mark D k f (get_mark k m) p u) u kinds.

Lemma finish_ok D r f m p u :
  finish settings D (Conf r f m p u) = Ok _ tt (Conf r f m p (flush D f m p u)).
Proof. unfold finish, mbind, M_bind. by rewrite !CALLBACK_NOCLEAR_ok. Qed.

Lemma emit_mark_comm D D' k k' f m m' p p' u : k <> k' ->
  emit_mark D k f m p (emit_mark D' k' f m' p' u) = emit_mark D' k' f m' p' (emit_mark D k f m p u).
Proof. intros Hk. destruct m, m'; simpl; try done. by apply acc_comm. Qed.

Definition flush_on (ks : list data_kind) D f m p u : U :=
  foldl (fun u k => emit_mark D k f (get_mark k m) p u) u ks.

Lemma emit_flush_on D D' k f f' m p q a ks : forall u, get_mark k m = None ->
  emit_mark D' k f a q (flush_on ks D f' m p u) = flush_on ks D f' m p (emit_mark D' k f a q u).
Proof.
  unfold flush_on. induction ks as [|k' ks IH]; intros u Hk; simpl; [done|]. rewrite IH by done. f_equal.
  destruct (decide (k = k')) as [<-|Hne]; [by rewrite Hk|].
  destruct a, (get_mark k' m); simpl; try done. rewrite !(acc_fields k f f'). by apply acc_comm.
Qed.

Lemma flush_on_cons k ks D f m p u :
  flush_on (k :: ks) D f m p u = flush_on ks D f m p (emit_mark D k f (get_mark k m) p u).
Proof. done. Qed.

Lemma get_put k k' v m : get_mark k (put_mark k' v m) = if decide (k = k') then v else get_mark k m.
Proof. by destruct k, k', m. Qed.

Lemma flush_on_clear D k f m p ks : NoDup ks -> forall u,
  flush_on ks D f m p u =
  (if decide (k ∈ ks) then emit_mark D k f (get_mark k m) p else id)
    (flush_on ks D f (put_mark k None m) p u).
Proof.
  induction 1 as [|k' ks Hnin Hnd IH]; intros u; [by case_decide; [set_solver|]|].
  rewrite !flush_on_cons, IH. destruct (decide (k = k')) as [<-|Hne].
  - rewrite (decide_False (P:=k ∈ ks)), decide_True by set_solver. unfold id.
    rewrite emit_flush_on by (rewrite get_put; by rewrite decide_True).
    f_equal. rewrite get_put, decide_True; done.
  - rewrite get_put, (decide_False (P:=k' = k)) by done.
    destruct (decide (k ∈ ks)); [rewrite decide_True by set_solver|rewrite decide_False by set_solver];
      done.
Qed.

Lemma flush_clear D k f m p u :
  flush D f m p u = emit_mark D k f (get_mark k m) p (flush D f (put_mark k None m) p u).
Proof.
  pose proof (flush_on_clear D k f m p kinds) as Hc. unfold flush. unfold flush_on in Hc.
  rewrite Hc at 1.
  - rewrite decide_True; [done|]. destruct k; set_solver.
  - apply (bool_decide_unpack _). by vm_compute.
Qed.

Lemma emit_flush_comm D D' k f f' m p q a u : get_mark k m = None ->
  emit_mark D' k f a q (flush D f' m p u) = flush D f' m p (emit_mark D' k f a q u).
Proof. apply emit_flush_on. Qed.

Lemma flush_fields D f f' m p u : flush D f m p u = flush D f' m p u.
Proof.
  unfold flush. generalize kinds as ks. intros ks. revert u. induction ks as [|k ks IH]; intros u; [done|].
  simpl. rewrite IH. f_equal. destruct (get_mark k m); simpl; [apply acc_fields|done].
Qed.

(** ** The cut at [length d1] *)

Lemma call_body_ok B n r f m p u :
  call_body settings B n (Conf r f m p u) =
  Ok _ tt (Conf r f m p (emit_body f (slice B p (p + Z.to_nat n)) u)).
Proof.
  unfold call_body, emit_body. destruct (on_body settings) as [g|] eqn:Eg; [|done]. cbn.
  rewrite (acc_body_place g) by done. by destruct (g f 0%nat _ u).
Qed.

(** Marks point behind the current position. *)
Definition marks_le (c : @conf U) : Prop :=
  forall k a, get_mark k (c_marks c) = Some a -> (a <= c_pos c)%nat.
Definition mle {A} (m : @M U A) : Prop := forall c, marks_le c ->
  match m c with Ok _ _ c' => marks_le c' | _ => True end.

Lemma mle_bind {A B} (m : @M U A) (k : A -> @M U B) :
  mle m -> (forall a, mle (k a)) -> mle (m ≫= k).
Proof.
  intros Hm Hk c Hc. unfold mbind, M_bind. specialize (Hm c Hc). destruct (m c); [|done..].
  by apply Hk.
Qed.

Lemma mle_MARK k : mle (MARK k).
Proof.
  intros c Hc k' a. cbn. rewrite get_put. case_decide; [intros [= <-]; done|]. apply Hc.
Qed.
Lemma mle_clear k : mle (clear_mark k).
Proof. intros c Hc k' a. cbn. rewrite get_put. case_decide; [done|]. apply Hc. Qed.
Lemma mle_noclear B k : mle (CALLBACK_NOCLEAR settings B k).
Proof. intros [r f m p u] Hc. by rewrite CALLBACK_NOCLEAR_ok. Qed.
Lemma mle_callback2 cb : mle (CALLBACK2 cb).
Proof.
  intros c Hc. unfold CALLBACK2. destruct cb as [g|]; [|done].
  destruct (g _ _) as [rc u]. by destruct (rc =? 0).
Qed.
Lemma mle_headers_complete : mle (call_headers_complete settings).
Proof.
  intros c Hc. unfold call_headers_complete. destruct (on_headers_complete settings) as [g|]; [|done].
  destruct (g _ _) as [rc u]. by destruct (rc =? 0), (rc =? 1).
Qed.
Lemma mle_call_body B n : mle (call_body settings B n).
Proof. intros [r f m p u] Hc. by rewrite call_body_ok. Qed.
Lemma mle_skip n : mle (skip n).
Proof. intros c Hc k a Hk. cbn in *. apply Hc in Hk. lia. Qed.
Lemma mle_advance : mle advance.
Proof. intros c Hc k a Hk. cbn in *. apply Hc in Hk. lia. Qed.
Lemma mle_if {A} (b : bool) (x y : @M U A) : mle x -> mle y -> mle (if b then x else y).
Proof. by destruct b. Qed.

Ltac mle_go := repeat first
  [ apply mle_MARK | apply mle_clear | apply mle_noclear | apply mle_callback2
  | apply mle_headers_complete | apply mle_call_body | apply mle_skip | apply mle_advance
  | apply mle_bind; [|intros ?] | apply mle_if | by intros ?c ?Hc | case_match ].

Lemma mle_switch B s ch : mle (switch settings B s ch).
Proof.
  destruct s; cbn [switch];
  unfold do_start_req_or_res, do_res_or_resp_H, do_start_res, do_start_req,
    begin_message, start_req_method_assign, expect, first_digit, next_digit, STRICT_CHECK,
    do_res_http_major, do_res_http_minor, do_res_first_status_code, do_res_status_code,
    do_res_status, do_req_spaces_before_url, do_req_schema, do_req_host, do_req_port,
    do_req_path, http_0_9, do_req_query_string_start, do_req_query_string, do_req_fragment_start,
    do_req_fragment, do_req_http_start, do_req_http_major, do_req_http_minor,
    do_chunk_size_start, do_chunk_size, do_chunk_parameters,
    do_chunk_size_almost_done, do_chunk_data_almost_done, do_chunk_data_done, expect,
    assert_chunked, assert_, STRICT_CHECK, do_req_method, do_header_field_start, headers_almost_done,
    message_done, do_header_field, header_field_char, match_word, inc_index, do_header_value_start,
    do_header_value, header_value_char, header_almost_done, do_body_identity, do_body_identity_eof,
    do_chunk_data, CALLBACK; mle_go.
Qed.

Lemma mle_iteration B b : mle (iteration settings B b).
Proof.
  unfold iteration, step, count_header. repeat (apply mle_bind; [|intros ?]); try mle_go.
  apply mle_switch.
Qed.

Lemma mle_loop B fuel : mle (execute_loop settings B fuel).
Proof.
  induction fuel as [|fuel IH]; intros c Hc; cbn [execute_loop]; destruct (B !! c_pos c); try done.
  pose proof (mle_bind _ _ (mle_iteration B z) (fun _ => IH)) as Hm. by apply Hm.
Qed.

(** The position never moves back. *)
Definition out_conf {A} (o : @outcome U A) : conf :=
  match o with Ok _ _ c | Halt _ _ c | Error _ c | Fault _ _ c => c end.
Definition mono {A} (m : @M U A) : Prop := forall c, (c_pos c <= c_pos (out_conf (m c)))%nat.

Lemma mono_bind {A B} (m : @M U A) (k : A -> @M U B) :
  mono m -> (forall a, mono (k a)) -> mono (m ≫= k).
Proof.
  intros Hm Hk c. unfold mbind, M_bind. specialize (Hm c). destruct (m c) as [a c'| | |]; [|done..].
  etransitivity; [exact Hm|]. apply Hk.
Qed.
Lemma mono_noclear B k : mono (CALLBACK_NOCLEAR settings B k).
Proof. intros [r f m p u]. by rewrite CALLBACK_NOCLEAR_ok. Qed.
Lemma mono_callback2 cb : mono (CALLBACK2 cb).
Proof.
  intros c. unfold CALLBACK2. destruct cb as [g|]; [|done].
  destruct (g _ _) as [rc u]. by destruct (rc =? 0).
Qed.
Lemma mono_headers_complete : mono (call_headers_complete settings).
Proof.
  intros c. unfold call_headers_complete. destruct (on_headers_complete settings) as [g|]; [|done].
  destruct (g _ _) as [rc u]. by destruct (rc =? 0), (rc =? 1).
Qed.
Lemma mono_call_body B n : mono (call_body settings B n).
Proof. intros [r f m p u]. by rewrite call_body_ok. Qed.
Lemma mono_skip n : mono (skip n).
Proof. intros c. cbn. lia. Qed.
Lemma mono_advance : mono advance.
Proof. intros c. cbn. lia. Qed.
Lemma mono_if {A} (b : bool) (x y : @M U A) : mono x -> mono y -> mono (if b then x else y).
Proof. by destruct b. Qed.

Ltac mono_go := repeat first
  [ apply mono_noclear | apply mono_callback2
  | apply mono_headers_complete | apply mono_call_body | apply mono_skip | apply mono_advance
  | apply mono_bind; [|intros ?] | apply mono_if | by intros ?c | case_match ].

Lemma mono_switch B s ch : mono (switch settings B s ch).
Proof.
  destruct s; cbn [switch];
  unfold do_start_req_or_res, do_res_or_resp_H, do_start_res, do_start_req,
    begin_message, start_req_method_assign, expect, first_digit, next_digit, STRICT_CHECK,
    do_res_http_major, do_res_http_minor, do_res_first_status_code, do_res_status_code,
    do_res_status, do_req_spaces_before_url, do_req_schema, do_req_host, do_req_port,
    do_req_path, http_0_9, do_req_query_string_start, do_req_query_string, do_req_fragment_start,
    do_req_fragment, do_req_http_start, do_req_http_major, do_req_http_minor,
    do_chunk_size_start, do_chunk_size, do_chunk_parameters,
    do_chunk_size_almost_done, do_chunk_data_almost_done, do_chunk_data_done, expect,
    assert_chunked, assert_, STRICT_CHECK, do_req_method, do_header_field_start, headers_almost_done,
    message_done, do_header_field, header_field_char, match_word, inc_index, do_header_value_start,
    do_header_value, header_value_char, header_almost_done, do_body_identity, do_body_identity_eof,
    do_chunk_data, CALLBACK; mono_go.
Qed.

Lemma mono_loop B fuel : mono (execute_loop settings B fuel).
Proof.
  assert (forall b, mono (iteration settings B b)) as Hi.
  { intros b. unfold iteration, step, count_header. repeat (apply mono_bind; [|intros ?]); try mono_go.
    apply mono_switch. }
  induction fuel as [|fuel IH]; intros c; cbn [execute_loop]; destruct (B !! c_pos c) as [b|]; try done.
  exact (mono_bind _ _ (Hi b) (fun _ => IH) c).
Qed.

Section cut.
Variables d1 d2 : list Z.
Abbreviation off := (length d1).
Abbreviation D := (d1 ++ d2).

Lemma slice_prefix a p : (p <= off)%nat -> slice d1 a p = slice D a p.
Proof.
  intros Hp. unfold slice. destruct (decide (a <= off)%nat).
  - rewrite drop_app_le by lia. rewrite take_app_le; [done|]. rewrite length_drop. lia.
  - replace (p - a)%nat with 0%nat by lia. done.
Qed.

Lemma slice_cut a p : (off <= p)%nat ->
  slice D a p = slice D a off ++ slice d2 (a - off) (p - off).
Proof.
  intros Hp. unfold slice. destruct (decide (a <= off)%nat).
  - replace (a - off)%nat with 0%nat by lia. rewrite drop_0, Nat.sub_0_r.
    rewrite drop_app_le by lia. rewrite !take_app, length_drop.
    rewrite (take_ge (drop a d1)) by (rewrite length_drop; lia).
    rewrite (take_ge (drop a d1)) by (rewrite length_drop; lia).
    replace (off - a - (off - a))%nat with 0%nat by lia. rewrite take_0, app_nil_r.
    f_equal. f_equal. lia.
  - replace (off - a)%nat with 0%nat by lia. simpl.
    rewrite drop_app_ge by lia. f_equal. lia.
Qed.

Definition shift_marks (m : marks) : marks :=
  let g := option_map (fun a => (a - off)%nat) in
  Marks (g (header_field_mark m)) (g (header_value_mark m)) (g (fragment_mark m))
    (g (query_string_mark m)) (g (path_mark m)) (g (url_mark m)).

(** The configuration of the second call that a configuration of the single
    call corresponds to. *)
Definition rebase : @conf U -> conf :=
  phi shift_marks (fun p => (p - off)%nat) (fun f m u => flush D f m off u).

Lemma get_shift k m : get_mark k (shift_marks m) = option_map (fun a => (a - off)%nat) (get_mark k m).
Proof. by destruct k. Qed.

Lemma put_none k m : get_mark k m = None -> put_mark k None m = m.
Proof. by destruct k, m; simpl; intros ->. Qed.

Lemma rebase_emit k f m p u : (off <= p)%nat ->
  emit_mark d2 k f (get_mark k (shift_marks m)) (p - off) (flush D f m off u) =
  flush D f (put_mark k None m) off (emit_mark D k f (get_mark k m) p u).
Proof.
  intros Hp. rewrite get_shift. destruct (get_mark k m) as [a|] eqn:Ek; simpl.
  - rewrite (flush_clear D k), Ek. simpl.
    assert (get_mark k (put_mark k None m) = None) as Hn by (by destruct k, m).
    rewrite <- acc_app, <- slice_cut by done.
    exact (emit_flush_comm D D k f f (put_mark k None m) off p (Some a) u Hn).
  - by rewrite put_none.
Qed.

Lemma rebase_mark_u k f m p u : (off <= p)%nat -> get_mark k m = None ->
  flush D f (put_mark k (Some p) m) off u = flush D f m off u.
Proof.
  intros Hp Hk. rewrite (flush_clear D k).
  assert (get_mark k (put_mark k (Some p) m) = Some p) as -> by (by destruct k, m). simpl.
  unfold slice. replace (off - p)%nat with 0%nat by lia. rewrite take_0, acc_nil.
  f_equal. rewrite <- (put_none k m Hk) at 2. by destruct k, m.
Qed.

Lemma step_rebase c ch :
  (off <= c_pos c)%nat -> conf_ok c ->
  match r_state (c_regs c) with
  | s_body_identity | s_body_identity_eof | s_chunk_data => False | _ => True end ->
  step settings d2 ch (rebase c) = map_out rebase (step settings D ch c).
Proof.
  intros Hp Hc Hs.
  apply (sim_step d2 D shift_marks (fun p => (p - off)%nat) (fun f m u => flush D f m off u)
           (fun p => (off <= p)%nat)); try done.
  - intros. apply flush_fields.
  - intros k m p _. by destruct k, m.
  - intros. by apply rebase_mark_u.
  - intros k m. by destruct k, m.
  - intros. by apply rebase_emit.
Qed.

Lemma step_prefix c ch :
  (c_pos c <= off)%nat -> conf_ok c ->
  match r_state (c_regs c) with
  | s_body_identity | s_body_identity_eof | s_chunk_data => False | _ => True end ->
  step settings d1 ch c = step settings D ch c.
Proof.
  intros Hp Hc Hs.
  assert (forall c : @conf U, phi id id (fun f m u => u) c = c) as Hid by (by intros []).
  pose proof (sim_step d1 D id id (fun f m u => u) (fun p => (p <= off)%nat)) as Hsim.
  unfold sim in Hsim. rewrite <- (Hid c) at 1. rewrite Hsim; try done.
  - destruct (step settings D ch c); simpl; by rewrite Hid.
  - intros k f m p u Hle. unfold id. destruct (get_mark k m); simpl; [|done]. by rewrite slice_prefix.
Qed.

(** ** Bodies *)

Definition body_state (s : state) : bool :=
  match s with s_body_identity | s_body_identity_eof | s_chunk_data => true | _ => false end.

(** A body state skips the header count. *)
Lemma iteration_body B b s hs i n f m p u : body_state s = true ->
  iteration settings B b (Conf (Registers s hs i n) f m p u) =
  (switch settings B s (i8 b);; advance) (Conf (Registers s hs i n) f m p u).
Proof. by destruct s. Qed.

Lemma iter_eof B b hs i n f m p u :
  (p < length B)%nat ->
  iteration settings B b (Conf (Registers s_body_identity_eof hs i n) f m p u) =
  Ok _ tt (Conf (Registers s_body_identity_eof hs i n) f m (length B)
             (emit_body f (slice B p (length B)) u)).
Proof.
  intros Hp. rewrite iteration_body by done. cbn [switch].
  unfold do_body_identity_eof, mbind, M_bind, remaining. cbn [c_pos].
  rewrite (proj2 (Z.ltb_lt 0 _)) by lia. rewrite call_body_ok. unfold advance, skip.
  cbn [c_regs c_fields c_marks c_pos c_user].
  replace (p + Z.to_nat (Z.of_nat (length B - p)))%nat with (length B) by lia.
  replace (S (p + Z.to_nat (Z.of_nat (length B - p) - 1))) with (length B) by lia. done.
Qed.

(** One round of a counted body: [t] bytes are read. *)
Definition identity_round (t : Z) (l : list Z) (c : @conf U) : @outcome U unit :=
  ((if content_length (c_fields c) - t =? 0 then message_done settings else mret tt);; advance)
    (Conf (c_regs c) (set_content_length (content_length (c_fields c) - t) (c_fields c)) (c_marks c)
       (c_pos c + Z.to_nat (t - 1)) (emit_body (c_fields c) l (c_user c))).

Lemma iter_identity B b hs i n f m p u :
  let c := Conf (Registers s_body_identity hs i n) f m p u in
  let t := Z.min (Z.of_nat (length B - p)) (content_length f) in
  iteration settings B b c =
  if 0 <? t then identity_round t (slice B p (p + Z.to_nat t)) c else advance c.
Proof.
  intros c t. unfold c. rewrite iteration_body by done. cbn [switch].
  unfold do_body_identity, mbind, M_bind, remaining, getf. cbn [c_pos c_fields]. fold t.
  destruct (0 <? t); [|done]. rewrite call_body_ok. unfold skip, modf, identity_round, mbind, M_bind.
  cbn. by destruct (content_length f - t =? 0).
Qed.

Definition chunk_round (t : Z) (l : list Z) (c : @conf U) : @outcome U unit :=
  ((if t =? content_length (c_fields c) then set_state s_chunk_data_almost_done else mret tt);;
   advance)
    (Conf (c_regs c) (set_content_length (content_length (c_fields c) - t) (c_fields c)) (c_marks c)
       (c_pos c + Z.to_nat (t - 1)) (if 0 <? t then emit_body (c_fields c) l (c_user c) else c_user c)).

Lemma iter_chunk B b hs i n f m p u :
  let c := Conf (Registers s_chunk_data hs i n) f m p u in
  let t := Z.min (Z.of_nat (length B - p)) (content_length f) in
  has_flag f F_CHUNKED = true ->
  iteration settings B b c = chunk_round t (slice B p (p + Z.to_nat t)) c.
Proof.
  intros c t Hf. unfold c. rewrite iteration_body by done. cbn [switch].
  unfold do_chunk_data, assert_chunked, assert_, mbind, M_bind, remaining, getf.
  cbn [c_pos c_fields]. rewrite Hf. cbn [mret M_ret c_pos c_fields]. fold t. unfold chunk_round, mbind, M_bind.
  destruct (Z.ltb_spec 0 t).
  - rewrite call_body_ok. unfold skip, modf. cbn. by destruct (t =? content_length f).
  - cbn. replace (Z.to_nat (t - 1)) with 0%nat by lia. rewrite Nat.add_0_r.
    by destruct (t =? content_length f).
Qed.

Lemma slice_rebase p t : (off <= p)%nat -> slice d2 (p - off) (p - off + t) = slice D p (p + t).
Proof.
  intros Hp. unfold slice. rewrite drop_app_ge by lia. f_equal. lia.
Qed.

Lemma rebase_conf r f p u : rebase (Conf r f no_marks p u) = Conf r f no_marks (p - off) u.
Proof. done. Qed.

Ltac rebase_done :=
  unfold advance, rebase, phi; cbn; rewrite Nat.sub_succ_l by lia;
  rewrite ?Nat.add_sub_swap by lia; reflexivity.

Lemma iteration_body_rebase b s hs i n f p u :
  body_state s = true -> (off <= p)%nat -> (p < length D)%nat ->
  (s = s_chunk_data -> has_flag f F_CHUNKED = true) ->
  let c := Conf (Registers s hs i n) f no_marks p u in
  iteration settings d2 b (rebase c) = map_out rebase (iteration settings D b c).
Proof.
  intros Hs Hp Hl Hf c. unfold c. rewrite rebase_conf. rewrite length_app in Hl.
  assert (length d2 - (p - off) = length D - p)%nat as Hlen by (rewrite length_app; lia).
  destruct s; try discriminate Hs.
  - rewrite !iter_chunk by auto. rewrite Hlen, slice_rebase by done. unfold chunk_round, mbind, M_bind.
    cbn [c_regs c_fields c_marks c_pos c_user]. set (t := Z.min _ _).
    destruct (t =? content_length f); rebase_done.
  - rewrite !iter_identity. rewrite Hlen, slice_rebase by done. set (t := Z.min _ _).
    destruct (0 <? t); [|rebase_done].
    unfold identity_round, mbind, M_bind, message_done.
    cbn [c_regs c_fields c_marks c_pos c_user].
    destruct (content_length f - t =? 0); [|rebase_done].
    unfold mbind, M_bind. rewrite !CALLBACK2_ok by apply (cs_message_complete _ acc_succeed).
    rebase_done.
  - rewrite !iter_eof by (rewrite ?length_app; lia). cbn. unfold rebase, phi. cbn.
    rewrite length_app. do 2 f_equal; [lia|]. f_equal. change (flush D f no_marks off) with (@id U).
    replace (off + length d2)%nat with (p + (off + length d2 - p))%nat by lia.
    rewrite <- slice_rebase by done. unfold id. do 2 f_equal. lia.
Qed.

Lemma set_content_length_twice a b f :
  set_content_length a (set_content_length b f) = set_content_length a f.
Proof. done. Qed.

Lemma chunk_round_cat a t l1 l2 r f m p u : 0 < a -> 0 < t ->
  chunk_round (t + a) (l1 ++ l2) (Conf r f m p u) =
  chunk_round t l2 (Conf r (set_content_length (content_length f - a) f) m (p + Z.to_nat a)
                      (emit_body f l1 u)).
Proof.
  intros Ha Ht. unfold chunk_round. cbn [c_regs c_fields c_marks c_pos c_user].
  rewrite set_content_length_twice. cbn [set_content_length content_length].
  rewrite !(proj2 (Z.ltb_lt 0 _)) by lia. rewrite acc_body_app, (acc_body_fields (set_content_length _ f) f).
  replace (content_length f - (t + a)) with (content_length f - a - t) by lia.
  replace (p + Z.to_nat a + Z.to_nat (t - 1))%nat with (p + Z.to_nat (t + a - 1))%nat by lia.
  destruct (Z.eqb_spec (t + a) (content_length f)), (Z.eqb_spec t (content_length f - a));
    first [lia|done].
Qed.

Lemma identity_round_cat a t l1 l2 r f m p u : 0 < a -> 0 < t ->
  identity_round (t + a) (l1 ++ l2) (Conf r f m p u) =
  identity_round t l2 (Conf r (set_content_length (content_length f - a) f) m (p + Z.to_nat a)
                         (emit_body f l1 u)).
Proof.
  intros Ha Ht. unfold identity_round. cbn [c_regs c_fields c_marks c_pos c_user].
  rewrite set_content_length_twice. cbn [set_content_length content_length].
  rewrite acc_body_app, (acc_body_fields (set_content_length _ f) f).
  replace (content_length f - (t + a)) with (content_length f - a - t) by lia.
  replace (p + Z.to_nat a + Z.to_nat (t - 1))%nat with (p + Z.to_nat (t + a - 1))%nat by lia.
  done.
Qed.

(** A body that reaches the cut: reading up to the cut and then on is reading
    at once. *)
Lemma iteration_body_prefix b b' s hs i n f p u c1 :
  body_state s = true -> (p < off)%nat -> d2 <> [] ->
  (s = s_chunk_data -> has_flag f F_CHUNKED = true) ->
  let c := Conf (Registers s hs i n) f no_marks p u in
  iteration settings d1 b c = Ok _ tt c1 ->
  iteration settings D b c = Ok _ tt c1 \/
  c_pos c1 = off /\ iteration settings D b c = iteration settings D b' c1.
Proof.
  intros Hs Hp Hd Hf c. unfold c. assert (0 < length d2)%nat as Hd2 by (destruct d2; [done|simpl; lia]).
  assert (forall e, (off <= e)%nat -> slice d1 p off ++ slice D off e = slice D p e) as Hcat.
  { intros e He. rewrite slice_prefix by done. rewrite (slice_cut p e) by done. f_equal.
    replace (p - off)%nat with 0%nat by lia. unfold slice. rewrite drop_app_ge by lia.
    rewrite Nat.sub_diag. f_equal. lia. }
  assert (S (p + Z.to_nat (Z.of_nat (off - p) - 1)) = off) as Epos by lia.
  assert (p + Z.to_nat (Z.of_nat (off - p)) = off)%nat as Eoff by lia.
  destruct s; try discriminate Hs.
  - rewrite !iter_chunk by auto. rewrite length_app.
    destruct (decide (content_length f <= Z.of_nat (off - p))).
    { intros E. left. rewrite <- E. rewrite !Z.min_r by lia. rewrite slice_prefix by lia. done. }
    rewrite (Z.min_l (Z.of_nat (off - p))) by lia. set (t := Z.min _ _).
    unfold chunk_round at 1, mbind, M_bind. cbn [c_regs c_fields c_marks c_pos c_user].
    rewrite (proj2 (Z.eqb_neq _ _)), (proj2 (Z.ltb_lt _ _)) by lia. unfold advance. cbn. rewrite Epos, Eoff. intros [= <-]. right.
    split; [done|]. rewrite iter_chunk by auto. rewrite length_app.
    cbn [content_length set_content_length]. set (t' := Z.min _ _).
    assert (t = t' + Z.of_nat (off - p) /\ 0 < t') as [Ht Ht'].
    { unfold t, t'. lia. }
    rewrite Ht, <- (Hcat (p + Z.to_nat (t' + Z.of_nat (off - p)))%nat) by lia.
    rewrite chunk_round_cat by lia. rewrite Eoff. do 2 f_equal. lia.
  - rewrite !iter_identity. rewrite length_app.
    destruct (decide (content_length f <= Z.of_nat (off - p))).
    { intros E. left. rewrite <- E. rewrite !Z.min_r by lia. rewrite slice_prefix by lia. done. }
    rewrite (Z.min_l (Z.of_nat (off - p))) by lia. set (t := Z.min _ _).
    rewrite !(proj2 (Z.ltb_lt 0 _)) by lia.
    unfold identity_round at 1, mbind, M_bind. cbn [c_regs c_fields c_marks c_pos c_user].
    rewrite (proj2 (Z.eqb_neq _ _)) by lia. unfold advance. cbn. rewrite Epos, Eoff. intros [= <-]. right.
    split; [done|]. rewrite iter_identity. rewrite length_app.
    cbn [content_length set_content_length]. set (t' := Z.min _ _).
    assert (t = t' + Z.of_nat (off - p) /\ 0 < t') as [Ht Ht'].
    { unfold t, t'. lia. }
    rewrite (proj2 (Z.ltb_lt 0 t')) by lia.
    rewrite Ht, <- (Hcat (p + Z.to_nat (t' + Z.of_nat (off - p)))%nat) by lia.
    rewrite identity_round_cat by lia. rewrite Eoff. do 2 f_equal. lia.
  - rewrite !iter_eof by (rewrite ?length_app; lia). intros [= <-]. right. split; [done|].
    rewrite iter_eof by (rewrite ?length_app; lia). do 2 f_equal.
    rewrite <- acc_body_app, Hcat by (rewrite length_app; lia). done.
Qed.

(** ** Whole runs *)

Lemma body_conf (c : @conf U) : conf_ok c -> body_state (r_state (c_regs c)) = true ->
  c_marks c = no_marks /\ (r_state (c_regs c) = s_chunk_data -> has_flag (c_fields c) F_CHUNKED = true).
Proof.
  intros [(_ & _ & Hs) Hm] Hb. destruct c as [[s hs i n] f m p u]. cbn in *.
  destruct s; try discriminate Hb; (split; [by apply no_marks_shape|]); try discriminate.
  intros _. apply Hs.
Qed.

Lemma not_body s : body_state s = false ->
  match s with s_body_identity | s_body_identity_eof | s_chunk_data => False | _ => True end.
Proof. by destruct s. Qed.

Lemma iteration_after B b (c c' : @conf U) :
  conf_ok c -> (c_pos c < length B)%nat -> iteration settings B b c = Ok _ tt c' ->
  conf_ok c' /\ (c_pos c < c_pos c' <= length B)%nat.
Proof.
  intros Hc Hp. pose proof (wp_step settings B (i8 b) c Hc Hp) as Hw. unfold wp in Hw.
  unfold iteration, mbind, M_bind. destruct (step settings B (i8 b) c) as [[] c2| | |]; try done.
  intros [= <-]. destruct Hw as [Hok Hpos]. split; [done|]. cbn. lia.
Qed.

Lemma iteration_rebase b c :
  conf_ok c -> (off <= c_pos c < length D)%nat ->
  iteration settings d2 b (rebase c) = map_out rebase (iteration settings D b c).
Proof.
  intros Hc Hp. destruct (body_state (r_state (c_regs c))) eqn:Eb.
  - destruct (body_conf c Hc Eb) as [Hm Hf]. destruct c as [[s hs i n] f m p u]. cbn in *. subst m.
    apply iteration_body_rebase; auto; lia.
  - unfold iteration, mbind, M_bind. rewrite step_rebase; [|lia|done|by apply not_body].
    pose proof (wp_step settings D (i8 b) c Hc ltac:(lia)) as Hw. unfold wp in Hw.
    destruct (step settings D (i8 b) c) as [[] c'| | |]; simpl; [|done..].
    destruct Hw as [_ Hpos]. unfold advance, rebase, phi. cbn.
    by rewrite Nat.sub_succ_l by lia.
Qed.

Lemma loop_rebase fuel : forall c, conf_ok c -> (off <= c_pos c)%nat ->
  execute_loop settings d2 fuel (rebase c) = map_out rebase (execute_loop settings D fuel c).
Proof.
  assert (forall c, (off <= c_pos c)%nat -> d2 !! c_pos (rebase c) = D !! c_pos c) as Hl.
  { intros c Hp. cbn. by rewrite lookup_app_r. }
  induction fuel as [|fuel IH]; intros c Hc Hp; cbn [execute_loop]; rewrite Hl by done.
  { by destruct (D !! c_pos c). }
  destruct (D !! c_pos c) as [b|] eqn:Eb; [|done]. apply lookup_lt_Some in Eb.
  unfold mbind, M_bind. rewrite iteration_rebase by (done || lia).
  destruct (iteration settings D b c) as [[] c'| | |] eqn:Ei; simpl; [|done..].
  destruct (iteration_after _ _ _ _ Hc Eb Ei). apply IH; [done|lia].
Qed.

(** More fuel than bytes changes nothing. *)
Lemma loop_fuel B : forall f1 f2 c, conf_ok c -> (length B - c_pos c <= f1)%nat -> (f1 <= f2)%nat ->
  execute_loop settings B f1 c = execute_loop settings B f2 c.
Proof.
  induction f1 as [|f1 IH]; intros f2 c Hc Hf Hle.
  - assert (B !! c_pos c = None) as Hn by (apply lookup_ge_None; lia).
    destruct f2; cbn [execute_loop]; by rewrite Hn.
  - destruct f2 as [|f2]; [lia|]. cbn [execute_loop]. destruct (B !! c_pos c) as [b|] eqn:Eb; [|done].
    apply lookup_lt_Some in Eb. unfold mbind, M_bind.
    destruct (iteration settings B b c) as [[] c'| | |] eqn:Ei; [|done..].
    destruct (iteration_after _ _ _ _ Hc Eb Ei). apply IH; [done|lia..].
Qed.

Lemma iteration_prefix b b' c c1 :
  conf_ok c -> (c_pos c < off)%nat -> d2 <> [] -> iteration settings d1 b c = Ok _ tt c1 ->
  iteration settings D b c = Ok _ tt c1 \/
  c_pos c1 = off /\ iteration settings D b c = iteration settings D b' c1.
Proof.
  intros Hc Hp Hd Ei. destruct (body_state (r_state (c_regs c))) eqn:Eb.
  - destruct (body_conf c Hc Eb) as [Hm Hf]. destruct c as [[s hs i n] f m p u]. cbn in *. subst m.
    by eapply iteration_body_prefix.
  - left. rewrite <- Ei. unfold iteration, mbind, M_bind. rewrite step_prefix; [done|lia|done|].
    by apply not_body.
Qed.

Lemma loop_prefix fuel : forall c c1,
  conf_ok c -> (c_pos c <= off)%nat -> d2 <> [] ->
  execute_loop settings d1 fuel c = Ok _ tt c1 ->
  c_pos c1 = off /\ conf_ok c1 /\
  execute_loop settings D (length D) c = execute_loop settings D (length D) c1.
Proof.
  induction fuel as [|fuel IH]; intros c c1 Hc Hp Hd E; cbn [execute_loop] in E;
    (destruct (d1 !! c_pos c) as [b|] eqn:Eb;
     [apply lookup_lt_Some in Eb as Hlt|injection E as <-; apply lookup_ge_None in Eb;
      split_and!; [lia|done|done]]); [done|].
  unfold mbind, M_bind in E. destruct (iteration settings d1 b c) as [[] c'| | |] eqn:Ei; try done.
  destruct (iteration_after _ _ _ _ Hc Hlt Ei) as [Hc' Hpos'].
  destruct (IH c' c1 Hc' ltac:(lia) Hd E) as (Hp1 & Hc1 & El). split_and!; [done|done|].
  assert (D !! c_pos c = Some b) as Eb' by (by rewrite lookup_app_l).
  assert (c_pos c < length D)%nat as HltD by (rewrite length_app; lia).
  assert (exists b', D !! off = Some b') as [b' Hb'].
  { apply lookup_lt_is_Some_2. rewrite length_app. destruct d2; [done|simpl; lia]. }
  rewrite (loop_fuel D (length D) (S (length D)) c) by (done || lia). cbn [execute_loop]. rewrite Eb'.
  unfold mbind, M_bind. destruct (iteration_prefix b b' c c' Hc Hlt Hd Ei) as [E1|[Epos E1]]; rewrite E1.
  - done.
  - destruct fuel as [|fuel]; cbn [execute_loop] in E;
      (rewrite (lookup_ge_None_2 d1) in E by lia; injection E as <-);
      rewrite (loop_fuel D (length D) (S (length D)) c') by (done || lia); cbn [execute_loop];
      rewrite Epos, Hb'; done.
Qed.

Lemma emit_flush_notin B B' k f m m' p q ks : forall u, k ∉ ks ->
  emit_mark B' k f m' q (flush_on ks B f m p u) = flush_on ks B f m p (emit_mark B' k f m' q u).
Proof.
  induction ks as [|k' ks IH]; intros u Hk; [done|]. apply not_elem_of_cons in Hk as [Hne Hk].
  rewrite !flush_on_cons, IH by done. f_equal. by apply emit_mark_comm.
Qed.

Lemma flush_on_rebase f m p ks : (off <= p)%nat -> NoDup ks -> forall u,
  flush_on ks d2 f (shift_marks m) (p - off) (flush_on ks D f m off u) = flush_on ks D f m p u.
Proof.
  intros Hp. induction 1 as [|k ks Hnin Hnd IH]; intros u; [done|].
  rewrite !flush_on_cons, emit_flush_notin, IH by done. f_equal. rewrite get_shift.
  destruct (get_mark k m) as [a|]; simpl; [|done]. by rewrite <- acc_app, <- slice_cut.
Qed.

Lemma flush_rebase f m p u : (off <= p)%nat ->
  flush d2 f (shift_marks m) (p - off) (flush D f m off u) = flush D f m p u.
Proof.
  intros Hp. apply flush_on_rebase; [done|]. apply (bool_decide_unpack _). by vm_compute.
Qed.

Lemma shift_initial c : conf_ok c -> marks_le c -> c_pos c = off ->
  shift_marks (c_marks c) = initial_marks (r_state (c_regs c)).
Proof.
  intros [_ Hm] Hle Hp. destruct c as [[s hs i n] f [m1 m2 m3 m4 m5 m6] p u]. cbn in *. subst p.
  unfold marks_le in Hle. cbn in Hle.
  pose proof (Hle d_header_field) as H1. pose proof (Hle d_header_value) as H2.
  pose proof (Hle d_fragment) as H3. pose proof (Hle d_query_string) as H4.
  pose proof (Hle d_path) as H5. pose proof (Hle d_url) as H6. clear Hle. cbn in *.
  assert (forall o : option nat, (forall a, o = Some a -> (a <= off)%nat) ->
    option_map (fun a => (a - off)%nat) o = match o with Some _ => Some 0%nat | None => None end) as Ho.
  { intros [a|] Ha; simpl; [|done]. specialize (Ha a eq_refl). f_equal. lia. }
  unfold shift_marks. cbn. rewrite !Ho by done. clear -Hm.
  destruct s; cbn in *; destruct m1, m2, m3, m4, m5, m6; done || discriminate Hm.
Qed.

(** The two ways of feeding the stream end alike. *)
Definition same_result (split single : @exec_result U) : Prop :=
  match split, single with
  | Returned n2 p2 u2, Returned n p u =>
      n = (off + n2)%nat /\ fields p = fields p2 /\
      (u = u2 \/ http_parser_has_error p2 = true /\ (n2 < length d2)%nat) /\
      (n2 = length d2 -> p = p2) /\
      (upgrade (fields p) = 0 -> http_parser_has_error p = http_parser_has_error p2)
  | Faulted fl fs, Faulted fl' fs' => fl = fl' /\ fs = fs'
  | _, _ => False
  end.

Lemma first_call p u p1 u1 :
  parser_ok p -> d1 <> [] -> http_parser_execute settings d1 p u = Returned off p1 u1 ->
  exists c1, execute_loop settings d1 off
      (Conf (regs p) (fields p) (initial_marks (r_state (regs p))) 0 u) = Ok _ tt c1 /\
    conf_ok c1 /\ marks_le c1 /\ c_pos c1 = off /\ p1 = Parser (c_regs c1) (c_fields c1) /\
    u1 = flush d1 (c_fields c1) (c_marks c1) off (c_user c1).
Proof.
  intros Hp Hd E. rewrite execute_eq in E by done. set (c0 := Conf _ _ _ _ _) in E.
  pose proof (wp_loop settings d1 off c0 (initial_conf_ok _ _ Hp) ltac:(cbn; lia) ltac:(cbn; lia)) as Hw.
  assert (marks_le c0) as Hle0.
  { intros k a. unfold c0. cbn. destruct k, (r_state (regs p)); simpl; congruence || (intros [= <-]; lia). }
  pose proof (mle_loop d1 off c0 Hle0) as Hle. unfold mbind, M_bind in E. unfold wp in Hw.
  fold c0. destruct (execute_loop settings d1 off c0) as [[] c1|kp c1|c1|fl c1] eqn:El.
  - exists c1. destruct Hw as [Hc1 Hp1]. destruct c1 as [r f m q v]. rewrite finish_ok in E.
    cbn in *. subst q. injection E as <- <-. split_and!; try done.
    destruct Hc1 as [(Hi & Hn & _) _]. destruct r as [s hs i n]. cbn in *. unfold HTTP_MAX_HEADER_SIZE in Hn.
    do 2 f_equal; apply wrapu_small;
      [change (2 ^ 8) with 256|change (2 ^ 32) with 4294967296]; lia.
  - exfalso. injection E as E _ _. destruct Hw as [_ Hw].
    destruct (Hw acc_succeed) as (? & _). lia.
  - exfalso. injection E as E _ _. lia.
  - discriminate E.
Qed.

Lemma flush_prefix f m u : flush d1 f m off u = flush D f m off u.
Proof.
  unfold flush. generalize kinds as ks. intros ks. revert u. induction ks as [|k ks IH]; intros u; [done|].
  simpl. rewrite IH. f_equal. destruct (get_mark k m); simpl; [|done]. by rewrite slice_prefix.
Qed.

Lemma split_same p u p1 u1 :
  parser_ok p -> d1 <> [] -> d2 <> [] ->
  http_parser_execute settings d1 p u = Returned off p1 u1 ->
  same_result (http_parser_execute settings d2 p1 u1) (http_parser_execute settings D p u).
Proof.
  intros Hp Hd1 Hd2 E. destruct (first_call _ _ _ _ Hp Hd1 E) as (c1 & El & Hc1 & Hle & Hpos & -> & ->).
  destruct (loop_prefix off _ _ (initial_conf_ok _ _ Hp) ltac:(cbn; lia) Hd2 El) as (_ & _ & Elp).
  rewrite (execute_eq settings D) by (destruct d1; done). rewrite (execute_eq settings d2) by done.
  unfold mbind, M_bind. rewrite Elp. clear Elp El E.
  set (c2 := Conf (regs (Parser (c_regs c1) _)) _ _ _ _).
  assert (c2 = rebase c1) as E2.
  { unfold c2, rebase, phi. cbn [regs fields c_regs c_fields].
    by rewrite shift_initial, Hpos, Nat.sub_diag, flush_prefix. }
  assert (conf_ok c2) as Hc2 by (by apply (initial_conf_ok (Parser _ _)), Hc1).
  rewrite (loop_fuel d2 (length d2) (length D) c2) by (done || rewrite ?length_app; cbn; lia).
  rewrite E2, loop_rebase by (done || lia).
  pose proof (wp_loop settings D (length D) c1 Hc1) as Hw. rewrite Hpos, length_app in Hw.
  specialize (Hw ltac:(lia) ltac:(lia)). unfold wp in Hw. rewrite length_app.
  pose proof (mono_loop D (off + length d2) c1) as Hge. rewrite Hpos in Hge.
  destruct (execute_loop settings D (off + length d2) c1) as [[] c|kp c|c|fl c] eqn:El;
    cbn [map_out out_conf] in *; destruct c as [r f m q v]; unfold rebase, phi;
    cbn [c_regs c_fields c_marks c_pos c_user] in *.
  - destruct Hw as [_ ->]. rewrite !finish_ok, flush_rebase by lia.
    unfold same_result, leave. rewrite length_app. cbn. split_and!; auto.
  - unfold same_result, leave. destruct Hw as [_ Hw]. destruct (Hw acc_succeed) as (Hlt & Hup & Hm).
    cbn [c_regs c_fields c_marks c_pos c_user fields] in *. subst m. rewrite length_app in Hlt.
    split_and!; [lia|done|by left|lia|done].
  - unfold same_result, leave. rewrite length_app in Hw. cbn in *.
    split_and!; [lia|done|right; split; [done|lia]|lia|done].
  - done.
Qed.

End cut.
End split.
End HttpParserSplit.
