(* ===== verification/HttpParserUser.v ===== *)
(** * http_parser.c: the data of the user

    [http_parser_execute] hands the user's data to the callbacks and looks at their
    return codes, and at nothing else: if the callbacks of two users agree along a map
    from the data of the one to that of the other, so do the runs of the parser. *)

From Stdlib Require Import ZArith.
From stdpp Require Import base list numbers option.
From S2P Require Import Prelude HttpParser.

Module HttpParserUser.
Import HttpParser.

Section users.
Context {U V : Type} (s1 : @http_parser_settings U) (s2 : @http_parser_settings V) (view : V -> U).

Definition view_conf (c : @conf V) : @conf U := Conf (c_regs c) (c_fields c) (c_marks c) (c_pos c) (view (c_user c)).
Definition view_out {A} (o : @outcome V A) : @outcome U A :=
  match o with
  | Ok _ a c => Ok _ a (view_conf c)
  | Halt _ b c => Halt _ b (view_conf c)
  | Error _ c => Error _ (view_conf c)
  | Fault _ f c => Fault _ f (view_conf c)
  end.
Definition view_result (r : @exec_result V) : @exec_result U :=
  match r with Returned n p u => Returned n p (view u) | Faulted f fs => Faulted f fs end.

(** Two callbacks that agree. *)
Definition viewed (x : Z * V) : Z * U := (fst x, view (snd x)).
Definition same_cb (g : option (@http_cb U)) (h : option (@http_cb V)) : Prop :=
  match g, h with None, None => True | Some g, Some h => forall f u, g f (view u) = viewed (h f u) | _, _ => False end.
Definition same_data_cb (g : option (@http_data_cb U)) (h : option (@http_data_cb V)) : Prop :=
  match g, h with None, None => True | Some g, Some h => forall f a l u, g f a l (view u) = viewed (h f a l u) | _, _ => False end.

Class Agree : Prop := {
  agree_data : forall k, same_data_cb (on_data s1 k) (on_data s2 k);
  agree_body : same_data_cb (on_body s1) (on_body s2);
  agree_begin : same_cb (on_message_begin s1) (on_message_begin s2);
  agree_headers : same_cb (on_headers_complete s1) (on_headers_complete s2);
  agree_complete : same_cb (on_message_complete s1) (on_message_complete s2) }.
Context `{Agree}.

Variable data : list Z.

Definition agree {A} (m1 : @M U A) (m2 : @M V A) : Prop := forall c, m1 (view_conf c) = view_out (m2 c).

Lemma agree_bind {A B} (m1 : @M U A) m2 (k1 : A -> @M U B) k2 : agree m1 m2 -> (forall a, agree (k1 a) (k2 a)) -> agree (m1 ≫= k1) (m2 ≫= k2).
Proof. intros Hm Hk c. unfold mbind, M_bind. rewrite Hm. destruct (m2 c); [apply Hk|done..]. Qed.
Lemma agree_if {A} (b : bool) (x1 y1 : @M U A) x2 y2 : agree x1 x2 -> agree y1 y2 -> agree (if b then x1 else y1) (if b then x2 else y2).
Proof. by destruct b. Qed.
Lemma agree_ret {A} (a : A) : agree (mret a) (mret a).
Proof. done. Qed.
Lemma agree_error {A} : agree (error (A := A)) error.
Proof. done. Qed.
Lemma agree_failed {A} f : agree (failed (A := A) f) (failed f).
Proof. done. Qed.
Lemma agree_getf : agree getf getf.
Proof. done. Qed.
Lemma agree_getr : agree getr getr.
Proof. done. Qed.
Lemma agree_modf g : agree (modf g) (modf g).
Proof. done. Qed.
Lemma agree_modr g : agree (modr g) (modr g).
Proof. done. Qed.
Lemma agree_mark k : agree (MARK k) (MARK k).
Proof. done. Qed.
Lemma agree_clear k : agree (clear_mark k) (clear_mark k).
Proof. done. Qed.
Lemma agree_halt : agree halt halt.
Proof. done. Qed.
Lemma agree_skip n : agree (skip n) (skip n).
Proof. done. Qed.
Lemma agree_remaining : agree (remaining data) (remaining data).
Proof. done. Qed.
Lemma agree_advance : agree advance advance.
Proof. done. Qed.

Lemma agree_noclear k : agree (CALLBACK_NOCLEAR s1 data k) (CALLBACK_NOCLEAR s2 data k).
Proof.
  intros c. unfold CALLBACK_NOCLEAR. pose proof (agree_data k) as Hk. unfold same_data_cb in Hk. cbn [view_conf c_marks c_fields c_pos c_user c_regs].
  destruct (get_mark k (c_marks c)) as [a|]; [|done]. destruct (on_data s1 k) as [g|], (on_data s2 k) as [h|]; try done. rewrite Hk. unfold viewed. destruct (h _ _ _ _) as [rc v]. cbn [fst snd]. by destruct (rc =? 0)%Z.
Qed.
Lemma agree_callback k : agree (CALLBACK s1 data k) (CALLBACK s2 data k).
Proof. unfold CALLBACK. apply agree_bind; [apply agree_noclear|intros ?; apply agree_clear]. Qed.
Lemma agree_callback2 g h : same_cb g h -> agree (CALLBACK2 g) (CALLBACK2 h).
Proof.
  intros Hg c. unfold CALLBACK2, same_cb in *. destruct g as [g|], h as [h|]; try done. cbn [view_conf c_fields c_user c_regs c_marks c_pos]. rewrite Hg. unfold viewed. destruct (h _ _) as [rc v]. cbn [fst snd]. by destruct (rc =? 0)%Z.
Qed.
Lemma agree_call_headers : agree (call_headers_complete s1) (call_headers_complete s2).
Proof.
  intros c. unfold call_headers_complete. pose proof agree_headers as Hg. unfold same_cb in Hg. destruct (on_headers_complete s1) as [g|], (on_headers_complete s2) as [h|]; try done.
  cbn [view_conf c_fields c_user c_regs c_marks c_pos]. rewrite Hg. unfold viewed. destruct (h _ _) as [rc v]. cbn [fst snd]. destruct (rc =? 0)%Z; [done|]. by destruct (rc =? 1)%Z.
Qed.
Lemma agree_call_body n : agree (call_body s1 data n) (call_body s2 data n).
Proof.
  intros c. unfold call_body. pose proof agree_body as Hg. unfold same_data_cb in Hg. destruct (on_body s1) as [g|], (on_body s2) as [h|]; try done.
  cbn [view_conf c_fields c_user c_regs c_marks c_pos]. rewrite Hg. unfold viewed. by destruct (h _ _ _ _) as [rc v].
Qed.

Ltac agree_go := repeat first
  [ apply agree_ret | apply agree_error | apply agree_failed | apply agree_getf | apply agree_getr | apply agree_modf | apply agree_modr | apply agree_mark | apply agree_halt | apply agree_skip
  | apply agree_remaining | apply agree_advance | apply agree_callback | apply agree_callback2; [solve [apply agree_begin | apply agree_complete]] | apply agree_call_headers | apply agree_call_body
  | apply agree_bind; [|intros ?] | apply agree_if | case_match ].

Lemma agree_switch s ch : agree (switch s1 data s ch) (switch s2 data s ch).
Proof.
  destruct s; cbn [switch];
  unfold do_start_req_or_res, do_res_or_resp_H, do_start_res, do_start_req, begin_message, start_req_method_assign, expect, first_digit, next_digit, STRICT_CHECK,
    do_res_http_major, do_res_http_minor, do_res_first_status_code, do_res_status_code, do_res_status, do_req_spaces_before_url, do_req_schema, do_req_host, do_req_port,
    do_req_path, http_0_9, do_req_query_string_start, do_req_query_string, do_req_fragment_start, do_req_fragment, do_req_http_start, do_req_http_major, do_req_http_minor,
    do_chunk_size_start, do_chunk_size, do_chunk_parameters, do_chunk_size_almost_done, do_chunk_data_almost_done, do_chunk_data_done, do_chunk_data, do_body_identity, do_body_identity_eof,
    assert_chunked, assert_, do_req_method, do_header_field_start, do_header_field, header_field_char, do_header_value_start, do_header_value, header_value_char, match_word, inc_index,
    headers_almost_done, header_almost_done, message_done, set_state, set_header_state, set_index, set_nread; agree_go.
Qed.

Lemma agree_loop fuel : agree (execute_loop s1 data fuel) (execute_loop s2 data fuel).
Proof.
  induction fuel as [|fuel IH]; intros c; cbn [execute_loop]; cbn [view_conf c_pos]; destruct (data !! c_pos c) as [b|]; try done.
  apply (agree_bind (iteration s1 data b) (iteration s2 data b)); [|done]. unfold iteration, step, count_header, set_nread. agree_go. apply agree_switch.
Qed.

Lemma execute_agrees p v : http_parser_execute s1 data p (view v) = view_result (http_parser_execute s2 data p v).
Proof.
  unfold http_parser_execute. destruct data as [|b data'] eqn:E.
  - destruct (r_state (regs p)); try done. pose proof (agree_callback2 _ _ agree_complete (Conf (regs p) (fields p) (initial_marks s_body_identity_eof) 0 v)) as Hc. unfold view_conf in Hc. cbn [c_regs c_fields c_marks c_pos c_user] in Hc.
    rewrite Hc. by destruct (CALLBACK2 (on_message_complete s2) _).
  - rewrite <- E. assert (agree (execute_loop s1 data (length data);; finish s1 data) (execute_loop s2 data (length data);; finish s2 data)) as Hl.
    { apply agree_bind; [apply agree_loop|intros _]. unfold finish. repeat (apply agree_bind; [apply agree_noclear|intros _]). apply agree_noclear. }
    change (Conf (regs p) (fields p) (initial_marks (r_state (regs p))) 0 (view v)) with (view_conf (Conf (regs p) (fields p) (initial_marks (r_state (regs p))) 0 v)). rewrite Hl. by destruct (_ _ : @outcome V unit).
Qed.
End users.
End HttpParserUser.
