(* ===== verification/HttpParserTheorems.v ===== *)
(** * HTTP parser: the main theorems

    Safety and stream theorems at the level of [http_parser_execute], with a
    recorder as a concrete client, and what the model shows about malformed
    input. *)

From Stdlib Require Import Ascii String ZArith Lia.
From stdpp Require Import base gmap list numbers option.
From S2P Require Import Prelude HttpParser HttpParserProofs HttpParserSplit.

Local Open Scope Z_scope.

Module HttpParserTheorems.
Import HttpParser HttpParserProofs HttpParserSplit.

(** ** A client that records everything *)

Record recorder := Recorder {
  r_field : list Z; r_value : list Z; r_fragment : list Z; r_query : list Z; r_path : list Z;
  r_url : list Z; r_body : list Z; r_events : list Z }.

Definition rec_data (k : data_kind) (l : list Z) (r : recorder) : recorder :=
  let '(Recorder a b c d e f g h) := r in
  match k with
  | d_header_field => Recorder (a ++ l) b c d e f g h
  | d_header_value => Recorder a (b ++ l) c d e f g h
  | d_fragment => Recorder a b (c ++ l) d e f g h
  | d_query_string => Recorder a b c (d ++ l) e f g h
  | d_path => Recorder a b c d (e ++ l) f g h
  | d_url => Recorder a b c d e (f ++ l) g h
  end.
Definition rec_body (l : list Z) (r : recorder) : recorder :=
  let '(Recorder a b c d e f g h) := r in Recorder a b c d e f (g ++ l) h.
Definition rec_event (x : Z) (r : recorder) : recorder :=
  let '(Recorder a b c d e f g h) := r in Recorder a b c d e f g (h ++ [x]).

Definition recording : @http_parser_settings recorder :=
  let cb x := Some (fun (_ : http_fields) u => (0, rec_event x u)) in
  let dcb k := Some (fun (_ : http_fields) (_ : nat) l u => (0, rec_data k l u)) in
  Settings (cb 1) (dcb d_path) (dcb d_query_string) (dcb d_url) (dcb d_fragment)
    (dcb d_header_field) (dcb d_header_value) (cb 2)
    (Some (fun _ _ l u => (0, rec_body l u))) (cb 3).

Definition no_record : recorder := Recorder [] [] [] [] [] [] [] [].

#[export] Instance recording_accumulating : Accumulating recording.
Proof.
  split.
  - split; cbn; auto. by intros [].
  - by intros [] g f i l u [= <-].
  - by intros g f i l u [= <-].
  - by intros [].
  - intros [] f []; cbn; by rewrite app_nil_r.
  - intros [] f a b []; cbn; by rewrite app_assoc.
  - intros [] [] f a b [] Hk; done.
  - done.
  - intros f a b []; cbn. by rewrite app_assoc.
Qed.

Definition fresh (t : http_parser_type) : http_parser :=
  http_parser_init (Parser (Registers s_dead h_general 0 0) (Fields t 0 0 0 0 0 HTTP_DELETE 0)) t.

Lemma fresh_ok t : parser_ok (fresh t).
Proof. unfold parser_ok, regs_ok, HTTP_MAX_HEADER_SIZE. by destruct t; cbn; split_and!; try lia. Qed.

(** ** Theorems *)

(** C36 (safety).  A call on a well-formed parser, whatever the input and the
    callbacks, trips none of the assertions of [http_parser_execute], ends
    within one iteration per byte, and returns at most the number of bytes given
    (at most 1 for an empty buffer); the
    only read outside an array is the method matcher with method CONNECT or
    MKCOL.  When no callback fails, the parser is well formed again unless the
    call stopped early for a protocol upgrade. *)
Theorem http_parser_execute_safe {U} (settings : @http_parser_settings U) data p u :
  parser_ok p ->
  match http_parser_execute settings data p u with
  | Returned n p' _ =>
      (n <= Nat.max 1 (length data))%nat /\ (data <> [] -> (n <= length data)%nat) /\
      (callbacks_succeed settings -> parser_ok p' \/ (n < length data)%nat /\ upgrade (fields p') <> 0)
  | Faulted fl fs => fl = Out_of_bounds /\ over_read (method fs) = true
  end.
Proof.
  intros Hp. destruct (decide (data = [])) as [->|Hd].
  - unfold http_parser_execute. destruct (r_state (regs p)); try (cbn; split_and!; [lia|done|auto]).
    destruct (CALLBACK2 _ _); cbn; split_and!; first [lia|done|auto].
  - pose proof (execute_safe_nonempty settings data p u Hp Hd) as H.
    destruct (http_parser_execute settings data p u); [|done].
    destruct H as [H1 H2]. split_and!; [lia|done|done].
Qed.

Lemma http_parser_execute_safe_witness :
  exists n p' u', http_parser_execute recording (bytes_of "GET / HTTP/1.1") (fresh HTTP_REQUEST) no_record
    = Returned n p' u' /\ (n <= 14)%nat /\ parser_ok p'.
Proof.
  pose proof (http_parser_execute_safe recording (bytes_of "GET / HTTP/1.1") (fresh HTTP_REQUEST)
    no_record (fresh_ok _)) as H.
  destruct (http_parser_execute recording (bytes_of "GET / HTTP/1.1") (fresh HTTP_REQUEST) no_record)
    as [n p' u'|fl fs] eqn:E; [|vm_compute in E; discriminate E].
  exists n, p', u'. split; [reflexivity|]. destruct H as (_ & H1 & H2).
  split; [by apply H1|]. destruct (H2 (acc_succeed recording)) as [|[_ Hu]]; [done|].
  exfalso. vm_compute in E. injection E as _ <- _. by apply Hu.
Defined.

(** C20 (equivalence).  For callbacks that accumulate, a stream cut into two buffers
    against the same stream in one, from a well-formed parser: after a first call that
    consumed its buffer, the second one stops where the single call stops and leaves
    the same fields of the message, or both read behind the name of a method.  If the
    second call consumes its buffer, the parsers are equal; if it stops before, at an
    error or an upgrade, their states may differ, but without an upgrade both are in
    error or neither is.  The data delivered are the same, unless the second call stops
    at an error: the single call then does not deliver the data that were pending. *)
Theorem http_parser_split {U} (settings : @http_parser_settings U) `{!Accumulating settings}
    d1 d2 p u p1 u1 :
  parser_ok p -> d1 <> [] -> d2 <> [] ->
  http_parser_execute settings d1 p u = Returned (length d1) p1 u1 ->
  same_result d1 d2 (http_parser_execute settings d2 p1 u1)
    (http_parser_execute settings (d1 ++ d2) p u).
Proof. apply split_same. exact _. Qed.

(** The bytes of a small request, cut inside the path. *)
Definition demo_first : list Z := bytes_of "GET /in".
Definition demo_second : list Z := bytes_of "dex.html HTTP/1.0" ++ [13; 10; 13; 10].

Definition demo_parser : http_parser :=
  match http_parser_execute recording demo_first (fresh HTTP_REQUEST) no_record with
  | Returned _ p _ => p | Faulted _ _ => fresh HTTP_REQUEST end.
Definition demo_record : recorder :=
  match http_parser_execute recording demo_first (fresh HTTP_REQUEST) no_record with
  | Returned _ _ u => u | Faulted _ _ => no_record end.

Lemma http_parser_split_witness :
  match http_parser_execute recording demo_second demo_parser demo_record with
  | Returned n _ u => n = length demo_second /\ r_path u = bytes_of "/index.html"
  | Faulted _ _ => False
  end /\
  same_result demo_first demo_second
    (http_parser_execute recording demo_second demo_parser demo_record)
    (http_parser_execute recording (demo_first ++ demo_second) (fresh HTTP_REQUEST) no_record).
Proof.
  split; [vm_compute; split; reflexivity|].
  apply (http_parser_split recording demo_first demo_second (fresh HTTP_REQUEST) no_record
    demo_parser demo_record (fresh_ok _)); [discriminate|discriminate|].
  vm_compute. reflexivity.
Defined.

(** Every method name followed by a space is recognised as
    that method, from a fresh request parser. *)
Theorem http_parser_methods {U} (settings : @http_parser_settings U) (u : U) m :
  on_message_begin settings = None ->
  exists p, http_parser_execute settings (method_strings m ++ [32]) (fresh HTTP_REQUEST) u
      = Returned (length (method_strings m ++ [32])) p u /\
    method (fields p) = m /\ r_state (regs p) = s_req_spaces_before_url.
Proof.
  destruct settings. cbn. intros ->.
  destruct m; eexists; (split; [vm_compute; reflexivity|split; reflexivity]).
Qed.

Lemma http_parser_methods_witness :
  exists p, http_parser_execute (Settings None None None None None None None None None None)
      (bytes_of "PROPPATCH ") (fresh HTTP_REQUEST) 7 = Returned 10 p 7 /\
    method (fields p) = HTTP_PROPPATCH.
Proof.
  destruct (http_parser_methods (Settings None None None None None None None None None None) 7
    HTTP_PROPPATCH eq_refl) as (p & E & Hm & _). exists p. split; [exact E|exact Hm].
Defined.

(** ** Malformed input *)

(** Unknown methods starting with C are not rejected: "CXXXXXXXX"
    makes the matcher read past the end of the string CONNECT, and "CABBAGE "
    is taken for a CONNECT request. *)
Theorem http_parser_method_over_read :
  http_parser_execute recording (bytes_of "CXXXXXXXX") (fresh HTTP_REQUEST) no_record
    = Faulted Out_of_bounds (Fields HTTP_REQUEST 0 (-1) 0 0 0 HTTP_CONNECT 0) /\
  exists p u, http_parser_execute recording (bytes_of "CABBAGE ") (fresh HTTP_REQUEST) no_record
      = Returned 8 p u /\ method (fields p) = HTTP_CONNECT /\
    r_state (regs p) = s_req_spaces_before_url.
Proof.
  split; [vm_compute; reflexivity|]. eexists _, _. split; [vm_compute; reflexivity|split; reflexivity].
Qed.

Lemma unhex_high c : 128 <= c < 256 -> table unhex (i8 c) = 0.
Proof.
  intros Hc. assert (u8 (i8 c) = c) as E.
  { unfold wrapu, wraps. change (2 ^ (8 - 1)) with 128. change (2 ^ 8) with 256. mlia. }
  unfold table. rewrite E. assert (128 <= Z.to_nat c < 256)%nat as Hn by lia.
  unfold unhex. rewrite app_nth2 by (cbn; lia). cbn [length].
  rewrite nth_lookup, lookup_replicate_2 by lia. done.
Qed.

(** Message lengths are not validated: a byte from 128 on extends
    a chunk size like the digit 0, since the table of hexadecimal digits has
    initialisers for 128 characters only, and a Content-Length of 2^64 wraps
    to 0. *)
Theorem http_parser_length_unchecked :
  (forall {U} (c : Z) (k : @conf U), 128 <= c < 256 -> has_flag (c_fields k) F_CHUNKED = true ->
     do_chunk_size (i8 c) k = Ok _ tt (Conf (c_regs k)
       (set_content_length (i64 (i64 (content_length (c_fields k) * 16))) (c_fields k))
       (c_marks k) (c_pos k) (c_user k))) /\
  exists n p u, http_parser_execute recording
      (bytes_of "GET / HTTP/1.1" ++ [13; 10] ++ bytes_of "Content-Length: 18446744073709551616"
         ++ [13; 10]) (fresh HTTP_REQUEST) no_record
      = Returned n p u /\ content_length (fields p) = 0.
Proof.
  split; [|eexists _, _, _; split; [vm_compute; reflexivity|reflexivity]].
  intros U c k Hc Hf. unfold do_chunk_size, assert_chunked, assert_, mbind, M_bind, getf.
  rewrite Hf. cbn [mret M_ret]. rewrite unhex_high by done.
  assert (i8 c < 0) as Hneg.
  { unfold wraps. change (2 ^ (8 - 1)) with 128. change (2 ^ 8) with 256. mlia. }
  unfold CR. rewrite (proj2 (Z.eqb_neq (i8 c) 13)) by lia. unfold modf. cbn. by rewrite Z.add_0_r.
Qed.

(** Separators that the comment on [tokens] excludes are accepted in header
    names: SP, double quote, slash and closing brace. *)
Lemma tokens_accept_separators : Forall (fun c => TOKEN c <> 0) [32; 34; 47; 125].
Proof. repeat constructor; vm_compute; discriminate. Qed.

End HttpParserTheorems.
