(* ===== verification/EasyMemPool.v ===== *)
(** * memory/easy_mem_pool.c: pools of pages shared by threads without a lock

    A pool hands out buffers from pages: a buffer is the next piece of the current
    page, a page counts the buffers in it, and goes back when the last one is freed.
    The threads that share a pool do not take a lock; they use atomic additions and
    compare-and-swap.  An operation is therefore a program of atomic steps on the
    state of the pool ([prog]); it is run alone ([run]), or together with others,
    step for step as a schedule says ([interleave]).

    A pointer is an address, 0 is NULL.  What memory holds is what the pool puts
    there: the number [base] of a page, and the headers of the buffers; the pages of
    the free list are a sequence, the first one first.  [None] is an access outside
    of what the allocator has given, or to what was never written. *)

From Stdlib Require Import ZArith Lia.
From stdpp Require Import base gmap list numbers option.
From S2P Require Import Prelude.

Local Open Scope Z_scope.

Module EasyMemPool.

(** ** Data *)

Definition EASY_MEMPOOL_PAGE_SIZE : Z := 512 * 1024.
Definition EASY_MEMPOOL_PAGE_MAX_NUM : Z := 16384.
Definition EASY_MEMPOOL_PAGE_FREE_NUM : Z := 16.
Definition EASY_MEMPOOL_ALIGNMENT : Z := 8.
Definition EASY_MEMPOOL_ALLOC : Z := 0.
Definition EASY_MEMPOOL_DIRECT_ALLOC : Z := 1.
Definition EASY_MEMPOOL_BUF_MAGIC_NUM : Z := 43981.
Definition EASY_MEMPOOL_BUF_FREE_FLAG : Z := 61202.
(** [sizeof] on LP64. *)
Definition sizeof_easy_mempool_page_t : Z := 16.
Definition sizeof_easy_mempool_buf_t : Z := 16.
Definition sizeof_easy_mempool_t : Z := 72.

Record easy_mempool_buf_t := Buf { magic_num : Z; alloc_type : Z; page_pos : Z; size : Z }.
Record easy_mempool_page_meta_t := Meta { ref_cnt : Z; seq_num : Z; page : Z }.

Record easy_mempool_t := Pool {
  cur_page_pos : Z; direct_alloc_cnt : Z; mem_total : Z; mem_limit : Z;
  page_size : Z; page_num : Z; page_metas : list easy_mempool_page_meta_t;
  free_num : Z; free_list : list Z }.

Definition set_cur_page_pos v q := Pool v (direct_alloc_cnt q) (mem_total q) (mem_limit q) (page_size q) (page_num q) (page_metas q) (free_num q) (free_list q).
Definition set_direct_alloc_cnt v q := Pool (cur_page_pos q) v (mem_total q) (mem_limit q) (page_size q) (page_num q) (page_metas q) (free_num q) (free_list q).
Definition set_mem_total v q := Pool (cur_page_pos q) (direct_alloc_cnt q) v (mem_limit q) (page_size q) (page_num q) (page_metas q) (free_num q) (free_list q).
Definition set_mem_limit v q := Pool (cur_page_pos q) (direct_alloc_cnt q) (mem_total q) v (page_size q) (page_num q) (page_metas q) (free_num q) (free_list q).
Definition set_page_metas v q := Pool (cur_page_pos q) (direct_alloc_cnt q) (mem_total q) (mem_limit q) (page_size q) (page_num q) v (free_num q) (free_list q).
Definition set_free n l q := Pool (cur_page_pos q) (direct_alloc_cnt q) (mem_total q) (mem_limit q) (page_size q) (page_num q) (page_metas q) n l.

(** ** Memory *)

(** What the allocator has given: the blocks with their sizes, and how often it was
    asked; the numbers at the start of pages, and the headers of buffers. *)
Record memory := Memory { calls : nat; blocks : gmap Z Z; bases : gmap Z Z; bufs : gmap Z easy_mempool_buf_t }.
Definition set_blocks v m := Memory (calls m) v (bases m) (bufs m).
Definition set_bases v m := Memory (calls m) (blocks m) v (bufs m).
Definition set_bufs v m := Memory (calls m) (blocks m) (bases m) v.

(** memalign of the C library, always asked for the alignment of a long: by the number
    of the call, what is allocated, and the size, an address or NULL. *)
Class Memalign := memalign_at : nat -> gmap Z Z -> Z -> Z.

Definition valid (a n : Z) (m : memory) : bool :=
  existsb (fun b => (fst b <=? a) && (a + n <=? fst b + snd b)) (map_to_list (blocks m)).

Definition memalign `{Memalign} (size : Z) (m : memory) : Z * memory :=
  let a := memalign_at (calls m) (blocks m) size in
  (a, Memory (S (calls m)) (if a =? 0 then blocks m else <[a := size]> (blocks m)) (bases m) (bufs m)).

Definition free_block (a : Z) (m : memory) : option memory := _ ← blocks m !! a; Some (set_blocks (delete a (blocks m)) m).

Definition get_base (p : Z) (m : memory) : option Z := if valid p sizeof_easy_mempool_page_t m then bases m !! p else None.
Definition put_base (p v : Z) (m : memory) : option memory := if valid p sizeof_easy_mempool_page_t m then Some (set_bases (<[p := v]> (bases m)) m) else None.
Definition get_buf (a : Z) (m : memory) : option easy_mempool_buf_t := if valid a sizeof_easy_mempool_buf_t m then bufs m !! a else None.
Definition put_buf (a : Z) (b : easy_mempool_buf_t) (m : memory) : option memory := if valid a sizeof_easy_mempool_buf_t m then Some (set_bufs (<[a := b]> (bufs m)) m) else None.

(** ** Programs of atomic steps *)

Record state := State { mem : memory; pool : easy_mempool_t }.

(** [Spin] is a loop that has gone round as often as it was given. *)
Inductive prog (A : Type) : Type :=
| Ret (a : A)
| Act {B : Type} (f : state -> option (B * state)) (k : B -> prog A)
| Spin.
Arguments Ret {A} a.
Arguments Act {A B} f k.
Arguments Spin {A}.

Fixpoint prog_bind {A B} (k : A -> prog B) (p : prog A) : prog B :=
  match p with
  | Ret a => k a
  | Act f k' => Act f (fun b => prog_bind k (k' b))
  | Spin => Spin
  end.
#[global] Instance prog_mret : MRet prog := fun A => Ret.
#[global] Instance prog_mbind : MBind prog := fun A B => prog_bind.

Fixpoint run {A} (p : prog A) (s : state) : option (A * state) :=
  match p with
  | Ret a => Some (a, s)
  | Act f k => match f s with Some (b, s) => run (k b) s | None => None end
  | Spin => None
  end.

Definition step {A} (p : prog A) (s : state) : option (prog A * state) :=
  match p with Act f k => match f s with Some (b, s) => Some (k b, s) | None => None end | _ => None end.

(** The threads take steps in the order of their numbers in the schedule. *)
Fixpoint interleave {A} (schedule : list nat) (threads : list (prog A)) (s : state) : option (list (prog A) * state) :=
  match schedule with
  | [] => Some (threads, s)
  | i :: schedule => p ← threads !! i; x ← step p s; interleave schedule (<[i := fst x]> threads) (snd x)
  end.

Definition atomically {B} (f : state -> option (B * state)) : prog B := Act f Ret.
Definition read {B} (f : easy_mempool_t -> B) : prog B := atomically (fun s => Some (f (pool s), s)).
Definition update (f : easy_mempool_t -> easy_mempool_t) : prog unit := atomically (fun s => Some (tt, State (mem s) (f (pool s)))).
Definition load {B} (f : memory -> option B) : prog B := atomically (fun s => b ← f (mem s); Some (b, s)).
Definition store (f : memory -> option memory) : prog unit := atomically (fun s => m ← f (mem s); Some (tt, State m (pool s))).

(** A step on one element of [page_metas]. *)
Definition on_meta {B} (pos : Z) (f : easy_mempool_page_meta_t -> B * easy_mempool_page_meta_t) : prog B :=
  atomically (fun s =>
    if pos <? 0 then None
    else
      m ← page_metas (pool s) !! Z.to_nat pos;
      Some (fst (f m), State (mem s) (set_page_metas (<[Z.to_nat pos := snd (f m)]> (page_metas (pool s))) (pool s)))).

Definition get_page (pos : Z) : prog Z := on_meta pos (fun m => (page m, m)).
Definition inc_ref_cnt (pos : Z) : prog unit := on_meta pos (fun m => (tt, Meta (i32 (ref_cnt m + 1)) (seq_num m) (page m))).
(** [ATOMIC_CAS] gives the value that was there. *)
Definition cas_ref_cnt (pos old new : Z) : prog Z := on_meta pos (fun m => (ref_cnt m, if ref_cnt m =? old then Meta new (seq_num m) (page m) else m)).
Definition cas_page (pos old new : Z) : prog Z := on_meta pos (fun m => (page m, if page m =? old then Meta (ref_cnt m) (seq_num m) new else m)).
Definition cas_atomic (pos : Z) (old : Z * Z) (new : Z * Z) : prog (Z * Z) :=
  on_meta pos (fun m => ((ref_cnt m, seq_num m), if bool_decide ((ref_cnt m, seq_num m) = old) then Meta (fst new) (snd new) (page m) else m)).
Definition cas_cur_page_pos (old new : Z) : prog Z :=
  atomically (fun s => Some (cur_page_pos (pool s), if cur_page_pos (pool s) =? old then State (mem s) (set_cur_page_pos new (pool s)) else s)).
Definition cas_base (p old new : Z) : prog Z :=
  atomically (fun s => b ← get_base p (mem s); m ← (if b =? old then put_base p new (mem s) else Some (mem s)); Some (b, State m (pool s))).

Section pool.
Context `{Memalign}.
(** How often a loop that waits for the other threads goes round. *)
Variable spins : nat.

Definition call_memalign (size : Z) : prog Z := atomically (fun s => let '(a, m) := memalign size (mem s) in Some (a, State m (pool s))).

(** ** Pages *)

(** The pages of the free list are changed under a lock, in one step. *)
Definition easy_mempool_alloc_page_ : prog Z :=
  ret ← atomically (fun s =>
    match free_list (pool s) with
    | [] => Some (0, s)
    | p :: l => if valid p sizeof_easy_mempool_page_t (mem s) then Some (p, State (mem s) (set_free (i32 (free_num (pool s) - 1)) l (pool s))) else None
    end);
  ret ← (if ret =? 0 then psz ← read page_size; call_memalign (u64 (psz + sizeof_easy_mempool_page_t)) else mret ret);
  if ret =? 0 then mret 0 else store (put_base ret 0) ;; mret ret.

Definition easy_mempool_free_page_ (p : Z) : prog unit :=
  if p =? 0 then mret tt
  else
    kept ← atomically (fun s =>
      if free_num (pool s) <? EASY_MEMPOOL_PAGE_FREE_NUM then
        if valid p sizeof_easy_mempool_page_t (mem s) then Some (true, State (mem s) (set_free (i32 (free_num (pool s) + 1)) (p :: free_list (pool s)) (pool s))) else None
      else Some (false, s));
    if kept : bool then mret tt else store (free_block p).

Fixpoint dec_loop (spins : nat) (pos : Z) : prog Z :=
  match spins with
  | O => Spin
  | S spins =>
      oldv ← on_meta pos (fun m => ((ref_cnt m, seq_num m), m));
      let ref := i32 (fst oldv - 1) in
      let newv := (ref, if ref =? 0 then i32 (snd oldv + 1) else snd oldv) in
      r ← cas_atomic pos oldv newv;
      if bool_decide (r = oldv) then mret ref else dec_loop spins pos
  end.
Definition easy_mempool_dec_ref_cnt_and_inc_seq_num_ : Z -> prog Z := dec_loop spins.

Definition easy_mempool_deref_page_ (pos : Z) : prog unit :=
  n ← read page_num;
  if pos <? n then
    tmp_page ← get_page pos;
    r ← easy_mempool_dec_ref_cnt_and_inc_seq_num_ pos;
    if r =? 0 then
      v ← cas_page pos tmp_page 0;
      if v =? tmp_page then easy_mempool_free_page_ tmp_page else mret tt
    else mret tt
  else mret tt.

(** The loop that looks for an unused position behind the current one. *)
Fixpoint next_pos (tries : nat) (num oldv newv : Z) : prog unit :=
  match tries with
  | O => mret tt
  | S tries =>
      let newv := (newv + 1) mod num in
      r ← cas_ref_cnt newv 0 1;
      if r =? 0 then
        c ← cas_cur_page_pos oldv newv;
        if c =? oldv then easy_mempool_deref_page_ oldv else easy_mempool_deref_page_ newv
      else next_pos tries num oldv newv
  end.

(** The page and its position; [None] is NULL. *)
Fixpoint get_cur_loop (spins : nat) (oldv ensure_size : Z) : prog (option (Z * Z)) :=
  cur ← read cur_page_pos;
  if oldv =? cur then mret None
  else
    match spins with
    | O => Spin
    | S spins =>
        oldv ← read cur_page_pos;
        inc_ref_cnt oldv ;;
        p ← get_page oldv;
        (if p =? 0 then
           tmp_page ← easy_mempool_alloc_page_;
           if tmp_page =? 0 then mret tt
           else r ← cas_page oldv 0 tmp_page; if r =? 0 then mret tt else easy_mempool_free_page_ tmp_page
         else mret tt) ;;
        cur_page ← get_page oldv;
        if cur_page =? 0 then easy_mempool_deref_page_ oldv ;; mret None
        else
          psz ← read page_size;
          base ← load (get_base cur_page);
          if i32 (psz - base) <? ensure_size then
            base ← load (get_base cur_page);
            easy_mempool_deref_page_ oldv ;;
            if base =? 0 then mret None
            else
              num ← read page_num;
              next_pos (Z.to_nat (num - 1)) num oldv oldv ;;
              get_cur_loop spins oldv ensure_size
          else mret (Some (cur_page, oldv))
    end.
Definition easy_mempool_get_cur_page_ (ensure_size : Z) : prog (option (Z * Z)) := get_cur_loop spins (-1) ensure_size.

Fixpoint take_loop (spins : nat) (p page_size alloc_size : Z) : prog Z :=
  match spins with
  | O => Spin
  | S spins =>
      oldv ← load (get_base p);
      let newv := i32 (oldv + alloc_size) in
      if page_size <? newv then mret 0
      else
        r ← cas_base p oldv newv;
        if r =? oldv then mret (p + sizeof_easy_mempool_page_t + oldv) else take_loop spins p page_size alloc_size
  end.
Definition easy_mempool_alloc_from_page_ : Z -> Z -> Z -> prog Z := take_loop spins.

(** ** Buffers *)

(** [easy_mempool_align] of a signed and an unsigned 32-bit number. *)
Definition easy_mempool_align (d : Z) : Z := Z.land (u32 (d + (EASY_MEMPOOL_ALIGNMENT - 1))) (u32 (Z.lnot (EASY_MEMPOOL_ALIGNMENT - 1))).
Definition easy_mempool_align_ptr (p : Z) : Z := easy_align p EASY_MEMPOOL_ALIGNMENT.

Definition alloc_size_of (size : Z) : Z := i32 (easy_mempool_align (i32 (size + sizeof_easy_mempool_buf_t))).

(** A header is written where there was another, or none; [page_pos] stays for a
    buffer of the allocator. *)
Definition write_direct (a size : Z) (m : memory) : option memory :=
  put_buf a (Buf EASY_MEMPOOL_BUF_MAGIC_NUM EASY_MEMPOOL_DIRECT_ALLOC (match bufs m !! a with Some b => page_pos b | None => 0 end) size) m.

Fixpoint page_loop (n : nat) (size alloc_size : Z) : prog Z :=
  match n with
  | O => Spin
  | S n =>
      r ← easy_mempool_get_cur_page_ alloc_size;
      match r with
      | None => mret 0
      | Some (p, pos) =>
          psz ← read page_size;
          a ← easy_mempool_alloc_from_page_ p psz alloc_size;
          let buf := easy_mempool_align_ptr a in
          (if buf =? 0 then mret tt else inc_ref_cnt pos) ;;
          easy_mempool_deref_page_ pos ;;
          if buf =? 0 then page_loop n size alloc_size
          else store (put_buf buf (Buf EASY_MEMPOOL_BUF_MAGIC_NUM EASY_MEMPOOL_ALLOC (u16 pos) size)) ;; mret (buf + sizeof_easy_mempool_buf_t)
      end
  end.

Definition easy_mempool_alloc_ (size : Z) : prog Z :=
  let alloc_size := alloc_size_of size in
  total ← read mem_total;
  limit ← read mem_limit;
  psz ← read page_size;
  ret ← (if limit <? i64 (total + size) then mret 0
         else if psz <? alloc_size then
           buf ← call_memalign (u64 alloc_size);
           if buf =? 0 then mret 0
           else
             store (write_direct buf size) ;;
             update (fun q => set_direct_alloc_cnt (i32 (direct_alloc_cnt q + 1)) q) ;;
             mret (buf + sizeof_easy_mempool_buf_t)
         else page_loop spins size alloc_size);
  if ret =? 0 then mret 0 else update (fun q => set_mem_total (i64 (mem_total q + size)) q) ;; mret ret.

Definition easy_mempool_alloc (size : Z) : prog Z := easy_mempool_alloc_ size.

Definition easy_mempool_free (ptr : Z) : prog unit :=
  if ptr =? 0 then mret tt
  else
    let a := ptr - sizeof_easy_mempool_buf_t in
    buf ← load (get_buf a);
    if magic_num buf =? EASY_MEMPOOL_BUF_MAGIC_NUM then
      store (put_buf a (Buf EASY_MEMPOOL_BUF_FREE_FLAG (alloc_type buf) (page_pos buf) (size buf))) ;;
      (if alloc_type buf =? EASY_MEMPOOL_DIRECT_ALLOC then
         store (free_block a) ;;
         update (fun q => set_direct_alloc_cnt (i32 (direct_alloc_cnt q - 1)) q)
       else easy_mempool_deref_page_ (page_pos buf)) ;;
      update (fun q => set_mem_total (i64 (mem_total q - size buf)) q)
    else mret tt.

(** ** The pool as a whole *)

Definition easy_mempool_set_memlimit (limit : Z) : prog unit := if 0 <? limit then update (set_mem_limit limit) else mret tt.
Definition easy_mempool_get_memtotal : prog Z := read mem_total.

Fixpoint free_all (l : list Z) : prog unit :=
  match l with
  | [] => mret tt
  | p :: l => store (free_block p) ;; free_all l
  end.
(** The list itself keeps its head. *)
Definition easy_mempool_destroy_free_list_ : prog unit := l ← read free_list; free_all l.

(** From position [i] on; the result counts the positions that are in use. *)
Fixpoint clear_loop (n : nat) (i : Z) : prog Z :=
  match n with
  | O => mret 0
  | S n =>
      m ← on_meta i (fun m => (m, m));
      cur ← read cur_page_pos;
      used ← (if (ref_cnt m =? 0) || ((i =? cur) && (ref_cnt m =? 1)) then
                easy_mempool_free_page_ (page m) ;;
                on_meta i (fun m => (0, Meta (ref_cnt m) (seq_num m) 0))
              else mret 1);
      rest ← clear_loop n (i + 1);
      mret (used + rest)
  end.
Definition easy_mempool_clear : prog Z :=
  unfreed_num ← clear_loop (Z.to_nat EASY_MEMPOOL_PAGE_MAX_NUM) 0;
  easy_mempool_destroy_free_list_ ;;
  mret unfreed_num.
End pool.

(** The memory of a pool and what is written there; the address is NULL if there is none. *)
Definition new_pool (size : Z) : easy_mempool_t :=
  Pool 0 0 0 (2 ^ 63 - 1) (if size =? 0 then EASY_MEMPOOL_PAGE_SIZE else i32 size) EASY_MEMPOOL_PAGE_MAX_NUM
    (Meta 1 0 0 :: replicate 16383 (Meta 0 0 0)) 0 [].
Definition easy_mempool_create `{Memalign} (size : Z) (m : memory) : option (Z * easy_mempool_t) * memory :=
  let '(a, m) := memalign (sizeof_easy_mempool_t + sizeof_easy_mempool_page_t * EASY_MEMPOOL_PAGE_MAX_NUM) m in
  (if a =? 0 then None else Some (a, new_pool size), m).

(** An allocator that always has room, for examples. *)
Definition bump_top (blocks : gmap Z Z) : Z := map_fold (fun a n top => let e := a + Z.max n 8 in Z.max top (e + (- e) mod 8)) 4096 blocks.
Definition bump_memalign : Memalign := fun _ blocks _ => bump_top blocks.
Definition no_memory : memory := Memory 0 ∅ ∅ ∅.

End EasyMemPool.
