(* ===== verification/EasyMemPoolProofs.v ===== *)
(** * Pools of pages: the invariant, and what each operation does alone

    An operation of one thread, while no other runs: a calculus of weakest
    preconditions for programs, the invariant of a pool with the references and the
    pages the running operation holds, and a triple per operation. *)

From Stdlib Require Import ZArith Lia.
From stdpp Require Import base gmap list numbers option.
From S2P Require Import Prelude EasyMemPool.

Local Open Scope Z_scope.

Module EasyMemPoolProofs.
Import EasyMemPool.

(** ** Programs *)

Definition wp {A} (p : prog A) (Q : A -> state -> Prop) (s : state) : Prop := exists a s', run p s = Some (a, s') /\ Q a s'.

Lemma run_bind {A B} (p : prog A) (k : A -> prog B) s : run (p ≫= k) s = match run p s with Some (a, s') => run (k a) s' | None => None end.
Proof. unfold mbind, prog_mbind. revert s. induction p as [a|C f k' IH|]; intros s; cbn; [done| |done]. destruct (f s) as [[b s']|]; [apply IH|done]. Qed.

Lemma mp_bind {A B} (p : prog A) (k : A -> prog B) Q s : wp p (fun a => wp (k a) Q) s -> wp (p ≫= k) Q s.
Proof. intros (a & s' & E & b & s'' & E' & H). exists b, s''. by rewrite run_bind, E. Qed.
Lemma mp_ret {A} (a : A) (Q : A -> state -> Prop) s : Q a s -> wp (mret a) Q s.
Proof. intros H. by exists a, s. Qed.
Lemma mp_mono {A} (p : prog A) (P Q : A -> state -> Prop) s : wp p P s -> (forall a s', P a s' -> Q a s') -> wp p Q s.
Proof. intros (a & s' & E & H) HPQ. exists a, s'. auto. Qed.
Lemma wp_atomically {B} (f : state -> option (B * state)) b s s' (Q : B -> state -> Prop) : f s = Some (b, s') -> Q b s' -> wp (atomically f) Q s.
Proof. intros E H. exists b, s'. cbn. by rewrite E. Qed.
Lemma wp_read {B} (f : easy_mempool_t -> B) (Q : B -> state -> Prop) s : Q (f (pool s)) s -> wp (read f) Q s.
Proof. by apply wp_atomically. Qed.
Lemma wp_update f (Q : unit -> state -> Prop) s : Q tt (State (mem s) (f (pool s))) -> wp (update f) Q s.
Proof. by apply wp_atomically. Qed.
Lemma wp_load {B} (f : memory -> option B) b (Q : B -> state -> Prop) s : f (mem s) = Some b -> Q b s -> wp (load f) Q s.
Proof. intros E. apply wp_atomically. by rewrite E. Qed.
Lemma wp_store f m (Q : unit -> state -> Prop) s : f (mem s) = Some m -> Q tt (State m (pool s)) -> wp (store f) Q s.
Proof. intros E. apply wp_atomically. by rewrite E. Qed.

Definition with_meta (i : Z) (m : easy_mempool_page_meta_t) (s : state) : state := State (mem s) (set_page_metas (<[Z.to_nat i := m]> (page_metas (pool s))) (pool s)).
Definition meta_at (s : state) (i : Z) (m : easy_mempool_page_meta_t) : Prop := 0 <= i /\ page_metas (pool s) !! Z.to_nat i = Some m.

Lemma wp_on_meta {B} i (f : easy_mempool_page_meta_t -> B * easy_mempool_page_meta_t) m (Q : B -> state -> Prop) s :
  meta_at s i m -> Q (fst (f m)) (with_meta i (snd (f m)) s) -> wp (on_meta i f) Q s.
Proof. intros [Hi E]. apply wp_atomically. destruct (Z.ltb_spec i 0); [lia|]. by rewrite E. Qed.

Lemma with_meta_same s i m : meta_at s i m -> with_meta i m s = s.
Proof. intros [_ E]. unfold with_meta. rewrite list_insert_id by done. by destruct s as [? []]. Qed.
Lemma with_meta_twice s i m m' : with_meta i m (with_meta i m' s) = with_meta i m s.
Proof. unfold with_meta. cbn. by rewrite list_insert_insert_eq. Qed.
Lemma meta_at_with s i m m' : meta_at s i m -> meta_at (with_meta i m' s) i m'.
Proof. intros [Hi E]. split; [done|]. cbn. apply list_lookup_insert_eq. by apply lookup_lt_Some in E. Qed.
Lemma meta_at_other s i j m m' : meta_at s j m -> 0 <= i -> i <> j -> meta_at (with_meta i m' s) j m.
Proof. intros [Hj E] Hi Hn. split; [done|]. cbn. rewrite list_lookup_insert_ne by lia. done. Qed.
Lemma meta_at_fun s i m m' : meta_at s i m -> meta_at s i m' -> m = m'.
Proof. intros [_ E] [_ E']. congruence. Qed.
(** A position after a change is the changed one, or as before. *)
Lemma meta_at_inv s i j m m' : 0 <= i -> meta_at (with_meta i m' s) j m -> i = j /\ m = m' \/ i <> j /\ meta_at s j m.
Proof.
  intros Hi [Hj E]. cbn in E. destruct (decide (i = j)) as [->|Hn]; [left|right; split; [done|]; split; [done|]; by rewrite list_lookup_insert_ne in E by lia].
  split; [done|]. apply list_lookup_insert_Some in E as [(_ & -> & _)|[Hn _]]; [done|lia].
Qed.

(** ** The invariant *)

(** What stays as it is while pages are moved about. *)
Definition same (s s' : state) : Prop :=
  bufs (mem s') = bufs (mem s) /\ page_size (pool s') = page_size (pool s) /\ mem_limit (pool s') = mem_limit (pool s) /\ mem_total (pool s') = mem_total (pool s) /\ direct_alloc_cnt (pool s') = direct_alloc_cnt (pool s).
Lemma same_refl s : same s s.
Proof. by split_and!. Qed.
Lemma same_trans s1 s2 s3 : same s1 s2 -> same s2 s3 -> same s1 s3.
Proof. intros (? & ? & ? & ? & ?) (? & ? & ? & ? & ?). split_and!; congruence. Qed.

(** The header of a buffer, by the pointer to its data. *)
Definition header (s : state) (b : Z) : option easy_mempool_buf_t := bufs (mem s) !! (b - sizeof_easy_mempool_buf_t).
Definition extent (s : state) (b : Z) : Z := match header s b with Some h => alloc_size_of (size h) | None => 0 end.
Definition length_of (s : state) (b : Z) : Z := match header s b with Some h => size h | None => 0 end.
Definition direct (s : state) (b : Z) : bool := match header s b with Some h => alloc_type h =? EASY_MEMPOOL_DIRECT_ALLOC | None => false end.
Definition at_pos (s : state) (i : Z) (b : Z) : bool := match header s b with Some h => (alloc_type h =? EASY_MEMPOOL_ALLOC) && (page_pos h =? i) | None => false end.

Definition count {A} (f : A -> bool) (l : list A) : Z := Z.of_nat (length (List.filter f l)).
Fixpoint total (f : Z -> Z) (l : list Z) : Z := match l with [] => 0 | b :: l => f b + total f l end.

Definition used (l : list easy_mempool_page_meta_t) : list Z := List.filter (fun p => negb (p =? 0)) (map page l).
Definition page_block (s : state) (p : Z) : Z * Z := (p, page_size (pool s) + sizeof_easy_mempool_page_t).
Definition direct_block (s : state) (b : Z) : Z * Z := (b - sizeof_easy_mempool_buf_t, extent s b).

(** The blocks of the pool: its pages, those the running operation has taken out
    ([mine]), and the buffers that are not in a page. *)
Definition owned (mine live : list Z) (s : state) : list (Z * Z) :=
  map (page_block s) (used (page_metas (pool s)) ++ free_list (pool s) ++ mine) ++ map (direct_block s) (List.filter (direct s) live).

Definition fits (size : Z) : Prop := 0 <= size < 2 ^ 31 - 32.

(** A buffer in its page, below the number of bytes that are taken of it. *)
Definition in_page (s : state) (b i : Z) : Prop :=
  exists m n, meta_at s i m /\ page m <> 0 /\ bases (mem s) !! page m = Some n /\
    page m + sizeof_easy_mempool_page_t <= b - sizeof_easy_mempool_buf_t /\ b - sizeof_easy_mempool_buf_t + extent s b <= page m + sizeof_easy_mempool_page_t + n.

Definition apart (s : state) (b c : Z) : Prop := b - sizeof_easy_mempool_buf_t + extent s b <= c - sizeof_easy_mempool_buf_t \/ c - sizeof_easy_mempool_buf_t + extent s c <= b - sizeof_easy_mempool_buf_t.

Definition buffer_ok (s : state) (b : Z) : Prop :=
  exists h, header s b = Some h /\ magic_num h = EASY_MEMPOOL_BUF_MAGIC_NUM /\ fits (size h) /\ (8 | b) /\
    (alloc_type h = EASY_MEMPOOL_DIRECT_ALLOC \/ alloc_type h = EASY_MEMPOOL_ALLOC /\ in_page s b (page_pos h)).

(** [frame] is what is allocated for others, [held] the positions to which the running
    operation has a reference, [live] the buffers that are handed out, [extra] what
    [mem_total] is ahead of them. *)
Record inv (frame : gmap Z Z) (held mine : list Z) (extra : Z) (live : list Z) (s : state) : Prop := {
  i_metas : Z.of_nat (length (page_metas (pool s))) = 16384; i_num : page_num (pool s) = 16384; i_cur : 0 <= cur_page_pos (pool s) < 16384;
  i_size : 0 < page_size (pool s) < 2 ^ 31 - 16;
  i_blocks : map_to_list (blocks (mem s)) ≡ₚ owned mine live s ++ map_to_list frame;
  i_disjoint : forall a n b m, blocks (mem s) !! a = Some n -> blocks (mem s) !! b = Some m -> a <> b -> a + n <= b \/ b + m <= a;
  i_aligned : forall a n, blocks (mem s) !! a = Some n -> 0 < a /\ (8 | a);
  i_bases : forall p, p ∈ used (page_metas (pool s)) -> exists n, bases (mem s) !! p = Some n /\ 0 <= n <= page_size (pool s) /\ (8 | n);
  i_refs : forall i m, meta_at s i m -> ref_cnt m = count (at_pos s i) live + (if i =? cur_page_pos (pool s) then 1 else 0) + count (Z.eqb i) held;
  i_idle : forall i m, meta_at s i m -> ref_cnt m = 0 -> page m = 0;
  i_nodup : NoDup live;
  i_bufs : forall b, b ∈ live -> buffer_ok s b;
  i_apart : forall b c, b ∈ live -> c ∈ live -> b <> c -> apart s b c;
  i_count : forall i m n, meta_at s i m -> page m <> 0 -> bases (mem s) !! page m = Some n -> 16 * count (at_pos s i) live <= n;
  i_total : mem_total (pool s) = total (length_of s) live + extra;
  i_range : 0 <= mem_total (pool s) < 2 ^ 63;
  i_direct : direct_alloc_cnt (pool s) = i32 (count (direct s) live);
  i_free : free_num (pool s) = Z.of_nat (length (free_list (pool s))) /\ free_num (pool s) <= 16 }.

(** ** Consequences *)

Lemma elem_filter {A} (f : A -> bool) l x : x ∈ List.filter f l <-> x ∈ l /\ f x = true.
Proof. rewrite !list_elem_of_In. apply filter_In. Qed.

Lemma filter_perm {A} (f : A -> bool) l l' : l ≡ₚ l' -> List.filter f l ≡ₚ List.filter f l'.
Proof. induction 1; cbn; repeat case_match; eauto using Permutation. Qed.

Lemma count_perm {A} (f : A -> bool) l l' : l ≡ₚ l' -> count f l = count f l'.
Proof. intros Hp. unfold count. by rewrite (filter_perm f l l' Hp). Qed.

Lemma count_ext {A} (f g : A -> bool) l : (forall x, x ∈ l -> f x = g x) -> count f l = count g l.
Proof. intros Hfg. unfold count. do 2 f_equal. apply filter_ext_in. intros x Hx. apply Hfg. by apply list_elem_of_In. Qed.

Lemma count_cons {A} (f : A -> bool) x l : count f (x :: l) = (if f x then 1 else 0) + count f l.
Proof. unfold count. cbn. destruct (f x); cbn [length]; lia. Qed.

Lemma tally_nil {A} (f : A -> bool) : count f [] = 0.
Proof. done. Qed.

Lemma tally_nonneg {A} (f : A -> bool) l : 0 <= count f l.
Proof. unfold count. lia. Qed.

Lemma count_zero {A} (f : A -> bool) l : count f l = 0 <-> forall x, x ∈ l -> f x = false.
Proof.
  unfold count. split.
  - intros E x Hx. destruct (f x) eqn:Ef; [|done]. assert (x ∈ List.filter f l) as Hf by (by apply elem_filter). destruct (List.filter f l); [by apply elem_of_nil in Hf|cbn in E; lia].
  - intros Hf. destruct (List.filter f l) as [|y l'] eqn:E; [done|]. assert (y ∈ List.filter f l) as Hy by (rewrite E; by left). apply elem_filter in Hy as [Hy Ey]. rewrite (Hf y Hy) in Ey. done.
Qed.

Lemma total_ext f g l : (forall x, x ∈ l -> f x = g x) -> total f l = total g l.
Proof. induction l as [|x l IH]; intros Hfg; [done|]. cbn [total]. rewrite (Hfg x) by (by left). rewrite IH; [done|]. intros y Hy. apply Hfg. by right. Qed.

Lemma align_range d : 0 <= d < 2 ^ 31 - 8 -> easy_mempool_align d = (d + 7) / 8 * 8.
Proof.
  intros Hd. unfold easy_mempool_align, EASY_MEMPOOL_ALIGNMENT. change (8 - 1) with 7. rewrite wrapu_small by lia. change (u32 (Z.lnot 7)) with (Z.ldiff (Z.ones 32) 7).
  rewrite Z.ldiff_land, Z.land_assoc, (Z.land_ones _ 32) by lia. rewrite (Z.mod_small _ (2 ^ 32)) by lia. rewrite <- Z.ldiff_land. change (Z.ldiff (d + 7) 7) with (Z.ldiff (d + 7) (Z.ones 3)). rewrite Z.ldiff_ones_r by lia. rewrite Z.shiftl_mul_pow2, Z.shiftr_div_pow2 by lia. done.
Qed.

Lemma alloc_size_bounds size : fits size -> size + 16 <= alloc_size_of size < size + 24 /\ (8 | alloc_size_of size).
Proof.
  intros Hf. unfold fits in Hf. unfold alloc_size_of, sizeof_easy_mempool_buf_t. rewrite (wraps_small 32 (size + 16)) by lia. rewrite align_range by lia.
  pose proof (Z.div_mod (size + 16 + 7) 8 ltac:(lia)). pose proof (Z.mod_pos_bound (size + 16 + 7) 8 ltac:(lia)). rewrite wraps_small by lia. split; [lia|]. apply Z.divide_factor_r.
Qed.

Lemma valid_intro m a n x k : blocks m !! a = Some n -> a <= x -> x + k <= a + n -> valid x k m = true.
Proof.
  intros E Ha Hn. unfold valid. apply existsb_exists. exists (a, n). split; [apply list_elem_of_In; by apply elem_of_map_to_list|]. cbn. apply andb_true_iff. split; apply Z.leb_le; lia.
Qed.

Lemma used_spec l p : p ∈ used l <-> p <> 0 /\ exists m, m ∈ l /\ page m = p.
Proof.
  unfold used. rewrite elem_filter. rewrite list_elem_of_In, in_map_iff. split.
  - intros [(m & <- & Hm) Hp]. split; [|exists m; split; [by apply list_elem_of_In|done]]. intros E. rewrite E in Hp. done.
  - intros [Hp (m & Hm & <-)]. split; [exists m; split; [done|by apply list_elem_of_In]|]. by destruct (Z.eqb_spec (page m) 0).
Qed.

Definition nonzero (p : Z) : list Z := if p =? 0 then [] else [p].

Lemma used_app l l' : used (l ++ l') = used l ++ used l'.
Proof. unfold used. rewrite map_app. apply List.filter_app. Qed.
Lemma used_cons m l : used (m :: l) = nonzero (page m) ++ used l.
Proof. unfold used, nonzero. cbn. by destruct (page m =? 0). Qed.

(** The pages without the one at a position. *)
Lemma used_split s i m : meta_at s i m -> exists rest, used (page_metas (pool s)) ≡ₚ nonzero (page m) ++ rest /\
  forall m', used (<[Z.to_nat i := m']> (page_metas (pool s))) ≡ₚ nonzero (page m') ++ rest.
Proof.
  intros [_ E]. exists (used (take (Z.to_nat i) (page_metas (pool s))) ++ used (drop (S (Z.to_nat i)) (page_metas (pool s)))). split.
  - rewrite <- (take_drop_middle _ _ _ E) at 1. rewrite used_app, used_cons. solve_Permutation || (rewrite !app_assoc; apply Permutation_app_tail, Permutation_app_comm).
  - intros m'. rewrite insert_take_drop by (by apply lookup_lt_Some in E). rewrite used_app, used_cons. rewrite !app_assoc. apply Permutation_app_tail, Permutation_app_comm.
Qed.

Section invariant.
Context (frame : gmap Z Z).

Lemma owned_lookup held mine extra live s a n : inv frame held mine extra live s -> (a, n) ∈ owned mine live s -> blocks (mem s) !! a = Some n.
Proof. intros I Hin. apply elem_of_map_to_list. rewrite (i_blocks _ _ _ _ _ _ I). apply elem_of_app. by left. Qed.

Lemma owned_nodup held mine extra live s : inv frame held mine extra live s -> NoDup (map fst (owned mine live s ++ map_to_list frame)).
Proof. intros I. rewrite <- (i_blocks _ _ _ _ _ _ I). apply NoDup_fst_map_to_list. Qed.

Definition pages (mine : list Z) (s : state) : list Z := used (page_metas (pool s)) ++ free_list (pool s) ++ mine.

Lemma pages_nodup held mine extra live s : inv frame held mine extra live s -> NoDup (pages mine s).
Proof.
  intros I. pose proof (owned_nodup _ _ _ _ _ I) as Hn. unfold owned in Hn. rewrite !map_app in Hn. apply list.NoDup_app in Hn as [Hn _]. apply list.NoDup_app in Hn as [Hn _].
  rewrite <- map_app, <- map_app, <- !map_app, map_map in Hn. cbn [page_block fst] in Hn. by rewrite map_id in Hn.
Qed.

Lemma page_lookup held mine extra live s p : inv frame held mine extra live s -> p ∈ pages mine s -> blocks (mem s) !! p = Some (page_size (pool s) + sizeof_easy_mempool_page_t).
Proof.
  intros I Hp. eapply owned_lookup; [exact I|]. unfold owned. apply elem_of_app. left. apply list_elem_of_In, in_map_iff. exists p. split; [done|]. by apply list_elem_of_In.
Qed.

Lemma page_valid held mine extra live s p x k : inv frame held mine extra live s -> p ∈ pages mine s -> p <= x -> x + k <= p + page_size (pool s) + sizeof_easy_mempool_page_t -> valid x k (mem s) = true.
Proof. intros I Hp H1 H2. eapply valid_intro; [by eapply page_lookup|done|lia]. Qed.

Lemma page_aligned held mine extra live s p : inv frame held mine extra live s -> p ∈ pages mine s -> 0 < p /\ (8 | p).
Proof. intros I Hp. eapply i_aligned; [exact I|by eapply page_lookup]. Qed.

Lemma page_used s i m : meta_at s i m -> page m <> 0 -> page m ∈ used (page_metas (pool s)).
Proof. intros [_ E] Hp. apply used_spec. split; [done|]. exists m. split; [by eapply list_elem_of_lookup_2|done]. Qed.

Lemma used_pages mine s p : p ∈ used (page_metas (pool s)) -> p ∈ pages mine s.
Proof. intros Hp. unfold pages. apply elem_of_app. by left. Qed.
Hint Resolve used_pages page_used : core.

(** A page is at one position. *)
Lemma page_unique held mine extra live s i j m m' : inv frame held mine extra live s -> meta_at s i m -> meta_at s j m' -> page m = page m' -> page m <> 0 -> i = j.
Proof.
  intros I Hi Hj Ep Hp. destruct (decide (i = j)) as [|Hn]; [done|]. exfalso. destruct (used_split s i m Hi) as (rest & Hu & Hr). specialize (Hr (Meta 0 0 0)). cbn in Hr.
  assert (page m ∈ rest) as Hin by (rewrite <- Hr, Ep; apply (page_used (with_meta i (Meta 0 0 0) s) j m'); [apply (meta_at_other s i j); [done|apply Hi|done]|by rewrite <- Ep]).
  pose proof (pages_nodup _ _ _ _ _ I) as Hnd. unfold pages in Hnd. apply list.NoDup_app in Hnd as [Hnd _]. rewrite Hu in Hnd. unfold nonzero in Hnd. destruct (Z.eqb_spec (page m) 0); [done|]. cbn in Hnd. apply list.NoDup_cons in Hnd as [? _]. done.
Qed.

Lemma in_page_at s b i : in_page s b i -> exists m, meta_at s i m /\ page m <> 0.
Proof. intros (m & n & Hm & Hp & _). by exists m. Qed.

Lemma at_pos_page held mine extra live s b i : inv frame held mine extra live s -> b ∈ live -> at_pos s i b = true -> in_page s b i.
Proof.
  intros I Hb Ha. destruct (i_bufs _ _ _ _ _ _ I b Hb) as (h & E & _ & _ & _ & Ht). unfold at_pos in Ha. rewrite E in Ha. apply andb_true_iff in Ha as [Ht' Hi]. apply Z.eqb_eq in Ht', Hi. subst.
  destruct Ht as [Ht|[_ Ht]]; [|done]. rewrite Ht in Ht'. done.
Qed.

Lemma no_buffers held mine extra live s i m : inv frame held mine extra live s -> meta_at s i m -> page m = 0 -> count (at_pos s i) live = 0.
Proof.
  intros I Hm Hp. apply count_zero. intros b Hb. destruct (at_pos s i b) eqn:E; [|done]. exfalso. destruct (in_page_at s b i) as (m' & Hm' & Hp'); [by eapply at_pos_page|].
  by rewrite (meta_at_fun _ _ _ _ Hm Hm') in Hp.
Qed.

(** ** Changing a position *)

Lemma with_meta_inv held held' mine mine' extra live s i m m' :
  inv frame held mine extra live s -> meta_at s i m ->
  nonzero (page m') ++ mine' ≡ₚ nonzero (page m) ++ mine ->
  ref_cnt m' = count (at_pos s i) live + (if i =? cur_page_pos (pool s) then 1 else 0) + count (Z.eqb i) held' ->
  (forall j, j <> i -> count (Z.eqb j) held' = count (Z.eqb j) held) ->
  (ref_cnt m' = 0 -> page m' = 0) ->
  (page m' = page m \/ count (at_pos s i) live = 0 /\ (page m' <> 0 -> exists n, bases (mem s) !! page m' = Some n /\ 0 <= n <= page_size (pool s) /\ (8 | n))) ->
  inv frame held' mine' extra live (with_meta i m' s).
Proof.
  intros I Hm Hperm Href Hheld Hidle Hpage. pose proof (proj1 Hm) as Hi0. constructor; try (by apply I).
  - cbn. by rewrite length_insert, (i_metas _ _ _ _ _ _ I).
  - change (map_to_list (blocks (mem s)) ≡ₚ owned mine' live (with_meta i m' s) ++ map_to_list frame). rewrite (i_blocks _ _ _ _ _ _ I). apply Permutation_app_tail. unfold owned. apply Permutation_app_tail.
    change (page_block (with_meta i m' s)) with (page_block s). apply Permutation_map. cbn [pool with_meta set_page_metas page_metas free_list]. destruct (used_split s i m Hm) as (rest & -> & Hr). rewrite Hr. rewrite (Permutation_app_comm (nonzero (page m))), (Permutation_app_comm (nonzero (page m'))). rewrite <- !app_assoc. apply Permutation_app_head.
    rewrite (Permutation_app_swap_app (nonzero (page m))), (Permutation_app_swap_app (nonzero (page m'))). apply Permutation_app_head. by symmetry.
  - intros p Hp. apply used_spec in Hp as [Hp (m1 & Hm1 & <-)]. apply list_elem_of_lookup in Hm1 as [j E].
    destruct (meta_at_inv s i (Z.of_nat j) m1 m' Hi0) as [[_ ->]|[_ Hj]]; [split; [lia|by rewrite Nat2Z.id]| |apply (i_bases _ _ _ _ _ _ I); by eapply page_used].
    destruct Hpage as [Hpage|[_ Hpage]]; [|by apply Hpage]. apply (i_bases _ _ _ _ _ _ I). rewrite Hpage in *. by eapply page_used.
  - intros j m1 Hj. destruct (meta_at_inv s i j m1 m' Hi0 Hj) as [[<- ->]|[Hn Hj']]; [done|]. rewrite (i_refs _ _ _ _ _ _ I j m1 Hj'). cbn. by rewrite Hheld by done.
  - intros j m1 Hj. destruct (meta_at_inv s i j m1 m' Hi0 Hj) as [[<- ->]|[Hn Hj']]; [done|]. by apply (i_idle _ _ _ _ _ _ I j).
  - intros b Hb. destruct (i_bufs _ _ _ _ _ _ I b Hb) as (h & E & Hmg & Hf & Ha & Ht). exists h. split_and!; [done..|]. destruct Ht as [Ht|[Ht Hin]]; [by left|right]. split; [done|].
    destruct (decide (i = page_pos h)) as [->|Hn].
    + destruct Hin as (m1 & n & Hm1 & Hp1 & Hrest). assert (m1 = m) as -> by (by eapply meta_at_fun). assert (page m' = page m) as Ep.
      { destruct Hpage as [|[Hz _]]; [done|]. exfalso. pose proof (proj1 (count_zero _ _) Hz b Hb) as Hz'. unfold at_pos in Hz'. rewrite E, Ht in Hz'. by rewrite !Z.eqb_refl in Hz'. }
      exists m', n. split; [by eapply meta_at_with|]. rewrite Ep. by split.
    + destruct Hin as (m1 & n & Hm1 & Hrest). exists m1, n. split; [by apply meta_at_other|done].
  - intros j m1 n Hj Hp Hb. destruct (meta_at_inv s i j m1 m' Hi0 Hj) as [[<- ->]|[Hn Hj']]; [|by apply (i_count _ _ _ _ _ _ I j m1 n)].
    destruct Hpage as [Ep|[Hz Hpage]]; [rewrite Ep in *; by apply (i_count _ _ _ _ _ _ I i m n)|]. change (at_pos (with_meta i m' s) i) with (at_pos s i). rewrite Hz. destruct (Hpage Hp) as (n' & E & ? & _). change (bases (mem s) !! page m' = Some n) in Hb. rewrite E in Hb. injection Hb as ->. lia.
Qed.
End invariant.

(** ** Pages: triples *)

(** What is relied on: a block does not overlap others, is aligned, and not NULL. *)
Class MemalignLaws `{Memalign} : Prop :=
  memalign_fresh n bl k : 0 < k -> memalign_at n bl k = 0 \/
    0 < memalign_at n bl k /\ (8 | memalign_at n bl k) /\ bl !! memalign_at n bl k = None /\ forall b m, bl !! b = Some m -> memalign_at n bl k + k <= b \/ b + m <= memalign_at n bl k.
(** The allocator has refused. *)
Definition no_room `{Memalign} : Prop := exists n bl k, memalign_at n bl k = 0.

(** A loop that waits for other threads goes round once when there are none, and the one
    that looks for a page twice. *)
Class Enough (spins : nat) : Prop := enough : (2 <= spins)%nat.

Section triples.
Context `{MemalignLaws} (frame : gmap Z Z) (spins : nat) `{!Enough spins}.

Abbreviation inv := (inv frame).

(** Nothing but one position, the free list and the blocks has changed. *)
Definition moved (i : Z) (s s' : state) : Prop :=
  same s s' /\ cur_page_pos (pool s') = cur_page_pos (pool s) /\ bases (mem s') = bases (mem s) /\ forall j m, j <> i -> meta_at s j m -> meta_at s' j m.

Lemma meta_exists held mine extra live s i : inv held mine extra live s -> 0 <= i < 16384 -> exists m, meta_at s i m.
Proof. intros I Hi. destruct (lookup_lt_is_Some_2 (page_metas (pool s)) (Z.to_nat i)) as [m E]; [pose proof (i_metas _ _ _ _ _ _ I); lia|]. exists m. split; [lia|done]. Qed.

Lemma ref_bounds held mine extra live s i m : inv held mine extra live s -> (length held <= 4)%nat -> meta_at s i m -> 0 <= ref_cnt m < 2 ^ 30.
Proof.
  intros I Hh Hm. rewrite (i_refs _ _ _ _ _ _ I i m Hm). pose proof (tally_nonneg (at_pos s i) live). assert (0 <= count (Z.eqb i) held <= 4) by (unfold count; pose proof (List.filter_length_le (Z.eqb i) held); lia).
  assert (count (at_pos s i) live <= 2 ^ 27).
  { destruct (decide (page m = 0)) as [Hp|Hp]; [rewrite (no_buffers frame _ _ _ _ _ _ _ I Hm Hp); lia|]. destruct (i_bases _ _ _ _ _ _ I (page m)) as (n & E & Hn & _); [by eapply page_used|].
    pose proof (i_count _ _ _ _ _ _ I i m n Hm Hp E). pose proof (i_size _ _ _ _ _ _ I). lia. }
  destruct (i =? cur_page_pos (pool s)); lia.
Qed.

Lemma wp_dec i m (Q : Z -> state -> Prop) s : meta_at s i m -> 0 < ref_cnt m < 2 ^ 31 ->
  (let r := ref_cnt m - 1 in Q r (with_meta i (Meta r (if r =? 0 then i32 (seq_num m + 1) else seq_num m) (page m)) s)) -> wp (easy_mempool_dec_ref_cnt_and_inc_seq_num_ spins i) Q s.
Proof.
  intros Hm Hr HQ. unfold easy_mempool_dec_ref_cnt_and_inc_seq_num_. pose proof (enough : (2 <= spins)%nat) as Hsp. destruct spins as [|n]; [lia|]. cbn [dec_loop]. apply mp_bind. eapply wp_on_meta; [done|]. cbn [fst snd]. rewrite (with_meta_same _ _ _ Hm).
  apply mp_bind. eapply wp_on_meta; [done|]. cbn [fst snd]. rewrite bool_decide_true by done. cbn [fst snd]. apply mp_ret. rewrite wraps_small by lia. exact HQ.
Qed.

Lemma free_page_spec held mine extra live s p : inv held (p :: mine) extra live s ->
  wp (easy_mempool_free_page_ p) (fun _ s' => inv held mine extra live s' /\ same s s' /\ cur_page_pos (pool s') = cur_page_pos (pool s) /\ bases (mem s') = bases (mem s) /\ page_metas (pool s') = page_metas (pool s)) s.
Proof.
  intros I. assert (p ∈ pages (p :: mine) s) as Hp by (unfold pages; rewrite !elem_of_app; right; right; by left). pose proof (page_aligned frame _ _ _ _ _ _ I Hp) as [Hp0 _]. pose proof (i_free _ _ _ _ _ _ I) as [Hf1 Hf2].
  unfold easy_mempool_free_page_. destruct (Z.eqb_spec p 0); [lia|]. apply mp_bind. unfold EASY_MEMPOOL_PAGE_FREE_NUM. destruct (Z.ltb_spec (free_num (pool s)) 16).
  - eapply wp_atomically. { destruct (Z.ltb_spec (free_num (pool s)) 16); [|lia]. erewrite (page_valid frame); [done|done|exact Hp|lia|]. unfold sizeof_easy_mempool_page_t. pose proof (i_size _ _ _ _ _ _ I). lia. }
    apply mp_ret. split; [|by split_and!]. constructor; try (by apply I); cbn [pool mem set_free free_num free_list length].
    + rewrite (i_blocks _ _ _ _ _ _ I). apply Permutation_app_tail. unfold owned. apply Permutation_app_tail, Permutation_map. cbn. apply Permutation_app_head. by rewrite Permutation_middle.
    + rewrite wraps_small by lia. lia.
  - eapply wp_atomically; [destruct (Z.ltb_spec (free_num (pool s)) 16); [lia|done]|]. eapply wp_store; [unfold free_block; by rewrite (page_lookup frame _ _ _ _ _ _ I Hp)|]. split; [|by split_and!].
    assert (map_to_list (blocks (mem s)) ≡ₚ (p, page_size (pool s) + sizeof_easy_mempool_page_t) :: map_to_list (delete p (blocks (mem s)))) as Hdel by (symmetry; apply map_to_list_delete; by eapply page_lookup).
    constructor; try (by apply I); cbn [pool mem set_blocks blocks].
    + apply (Permutation_cons_inv (a := page_block s p)). unfold page_block at 1. rewrite <- Hdel. rewrite (i_blocks _ _ _ _ _ _ I). rewrite app_comm_cons. apply Permutation_app_tail. unfold owned. cbn. rewrite app_comm_cons. apply Permutation_app_tail.
      rewrite <- (map_cons (page_block s)). apply Permutation_map. symmetry. rewrite !app_assoc. apply Permutation_middle.
    + intros a n0 b m0 Ha Hb. apply lookup_delete_Some in Ha as [_ Ha], Hb as [_ Hb]. by apply (i_disjoint _ _ _ _ _ _ I).
    + intros a n0 Ha. apply lookup_delete_Some in Ha as [_ Ha]. by apply (i_aligned _ _ _ _ _ _ I a n0).
Qed.

Lemma deref_spec held mine extra live s i : inv (i :: held) mine extra live s -> (length held <= 3)%nat -> 0 <= i < 16384 ->
  wp (easy_mempool_deref_page_ spins i) (fun _ s' => inv held mine extra live s' /\ moved i s s') s.
Proof.
  intros I Hh Hi. destruct (meta_exists _ _ _ _ _ _ I Hi) as [m Hm]. pose proof (ref_bounds _ _ _ _ _ _ _ I ltac:(cbn; lia) Hm) as Hr. pose proof (i_refs _ _ _ _ _ _ I i m Hm) as Eref. rewrite count_cons, Z.eqb_refl in Eref.
  pose proof (tally_nonneg (at_pos s i) live) as Hc. pose proof (tally_nonneg (Z.eqb i) held) as Hch. pose proof (i_num _ _ _ _ _ _ I) as Hnum.
  assert (forall j, j <> i -> count (Z.eqb j) held = count (Z.eqb j) (i :: held)) as Hother by (intros j Hj; rewrite count_cons; by destruct (Z.eqb_spec j i)).
  unfold easy_mempool_deref_page_. apply mp_bind, wp_read. rewrite Hnum. destruct (Z.ltb_spec i 16384); [|lia]. apply mp_bind. eapply wp_on_meta; [done|]. cbn [fst snd]. rewrite (with_meta_same _ _ _ Hm).
  apply mp_bind. eapply wp_dec; [done|destruct (i =? cur_page_pos (pool s)); lia|]. cbv zeta. destruct (Z.eqb_spec (ref_cnt m - 1) 0) as [E0|E0].
  - apply mp_bind. eapply wp_on_meta; [by eapply meta_at_with|]. cbn [fst snd page ref_cnt seq_num]. rewrite !Z.eqb_refl, with_meta_twice.
    assert (count (at_pos s i) live = 0 /\ (i =? cur_page_pos (pool s)) = false /\ count (Z.eqb i) held = 0) as (Z1 & Z2 & Z3) by (destruct (i =? cur_page_pos (pool s)); split_and!; try done; lia).
    set (s1 := with_meta i (Meta (ref_cnt m - 1) _ 0) s). assert (moved i s s1) as Hmv by (split_and!; try done; intros j m1 Hj Hm1; apply (meta_at_other s i j); [done|lia|done]).
    destruct (decide (page m = 0)) as [Ep|Ep].
    + rewrite Ep. apply mp_ret. split; [|done]. eapply with_meta_inv; [exact I|done|by rewrite Ep|cbn [ref_cnt]; rewrite Z1, Z2, Z3; lia|done|done|by left].
    + eapply mp_mono; [apply (free_page_spec held mine extra live s1)|].
      * eapply with_meta_inv; [exact I|done|unfold nonzero; by destruct (Z.eqb_spec (page m) 0)|cbn [ref_cnt]; rewrite Z1, Z2, Z3; lia|done|done|by right].
      * intros _ s' (I' & Hs & Hcu & Hba & Hme). split; [done|]. destruct Hmv as (Hs1 & Hc1 & Hb1 & Hm1). split_and!; [by eapply same_trans|by rewrite Hcu|by rewrite Hba|]. intros j m1 Hj Hj1. destruct (Hm1 j m1 Hj Hj1) as [Hj0 Ej]. split; [done|]. by rewrite Hme.
  - apply mp_ret. split; [|split_and!; try done; intros j m1 Hj Hm1; apply (meta_at_other s i j); [done|lia|done]].
    eapply with_meta_inv; [exact I|done|done|cbn [ref_cnt]; lia|done|done|by left].
Qed.

Lemma wp_inc i m (Q : unit -> state -> Prop) s : meta_at s i m -> 0 <= ref_cnt m < 2 ^ 30 ->
  Q tt (with_meta i (Meta (ref_cnt m + 1) (seq_num m) (page m)) s) -> wp (inc_ref_cnt i) Q s.
Proof. intros Hm Hr HQ. eapply wp_on_meta; [done|]. cbn [fst snd]. by rewrite wraps_small by lia. Qed.

Lemma inc_inv held mine extra live s i m : inv held mine extra live s -> (length held <= 3)%nat -> meta_at s i m -> inv (i :: held) mine extra live (with_meta i (Meta (ref_cnt m + 1) (seq_num m) (page m)) s).
Proof.
  intros I Hh Hm. pose proof (ref_bounds _ _ _ _ _ _ _ I ltac:(lia) Hm). eapply with_meta_inv; [exact I|done|done| | |cbn [ref_cnt page]; lia|by left].
  - cbn [ref_cnt]. rewrite (i_refs _ _ _ _ _ _ I i m Hm), count_cons, Z.eqb_refl. lia.
  - intros j Hj. rewrite count_cons. by destruct (Z.eqb_spec j i).
Qed.

(** Dropping a reference that is not the last one. *)
Lemma wp_deref_shared i m (Q : unit -> state -> Prop) s : page_num (pool s) = 16384 -> i < 16384 -> meta_at s i m -> 1 < ref_cnt m < 2 ^ 31 ->
  Q tt (with_meta i (Meta (ref_cnt m - 1) (seq_num m) (page m)) s) -> wp (easy_mempool_deref_page_ spins i) Q s.
Proof.
  intros Hn Hi Hm Hr HQ. unfold easy_mempool_deref_page_. apply mp_bind, wp_read. rewrite Hn. destruct (Z.ltb_spec i 16384); [|lia]. apply mp_bind. eapply wp_on_meta; [done|]. cbn [fst snd]. rewrite (with_meta_same _ _ _ Hm).
  apply mp_bind. eapply wp_dec; [done|lia|]. cbv zeta. destruct (Z.eqb_spec (ref_cnt m - 1) 0); [lia|]. by apply mp_ret.
Qed.

(** Taking a reference and giving it back. *)
Lemma wp_inc_deref {A} i m (k : unit -> prog A) (Q : A -> state -> Prop) s : page_num (pool s) = 16384 -> i < 16384 -> meta_at s i m -> 0 < ref_cnt m < 2 ^ 30 ->
  wp (k tt) Q s -> wp (easy_mempool_deref_page_ spins i ≫= k) Q (with_meta i (Meta (ref_cnt m + 1) (seq_num m) (page m)) s).
Proof.
  intros Hn Hi Hm Hr HQ. apply mp_bind. eapply wp_deref_shared; [done|done|by eapply meta_at_with|cbn [ref_cnt]; lia|]. cbn [ref_cnt seq_num page]. rewrite with_meta_twice.
  replace (ref_cnt m + 1 - 1) with (ref_cnt m) by lia. rewrite with_meta_same; [done|]. by destruct m.
Qed.

(** The number at the start of a page that is at no position. *)
Lemma put_base_inv held mine extra live s p v : inv held (p :: mine) extra live s ->
  inv held (p :: mine) extra live (State (set_bases (<[p := v]> (bases (mem s))) (mem s)) (pool s)).
Proof.
  intros I. pose proof (pages_nodup frame _ _ _ _ _ I) as Hnd. assert (p ∉ used (page_metas (pool s))) as Hp by (intros Hp; apply list.NoDup_app in Hnd as (_ & Hd & _); apply (Hd p Hp), elem_of_app; right; by left).
  assert (forall q, q ∈ used (page_metas (pool s)) -> <[p := v]> (bases (mem s)) !! q = bases (mem s) !! q) as Hb by (intros q Hq; apply lookup_insert_ne; by intros ->).
  constructor; try (by apply I); cbn [pool mem set_bases bases].
  - intros q Hq. rewrite Hb by done. by apply (i_bases _ _ _ _ _ _ I).
  - intros b Hlb. destruct (i_bufs _ _ _ _ _ _ I b Hlb) as (h & E & Hmg & Hf & Ha & Ht). exists h. split_and!; [done..|]. destruct Ht as [|[Ht (m & n & Hm & Hpm & En & Hr)]]; [by left|right]. split; [done|]. exists m, n. split; [done|]. split; [done|]. split; [|done].
    cbn [mem bases]. rewrite Hb; [done|]. by eapply page_used.
  - intros i m n Hm Hpm En. rewrite Hb in En by (by eapply (page_used s)). by apply (i_count _ _ _ _ _ _ I i m n).
Qed.

Definition settled (s s' : state) : Prop := same s s' /\ cur_page_pos (pool s') = cur_page_pos (pool s) /\ page_metas (pool s') = page_metas (pool s).

Lemma alloc_page_spec held mine extra live s : inv held mine extra live s ->
  wp easy_mempool_alloc_page_ (fun p s' => settled s s' /\
    if p =? 0 then inv held mine extra live s' /\ no_room else inv held (p :: mine) extra live s' /\ bases (mem s') !! p = Some 0) s.
Proof.
  intros I. pose proof (i_size _ _ _ _ _ _ I) as Hsz. unfold easy_mempool_alloc_page_.
  assert (forall p s1, settled s s1 -> inv held (p :: mine) extra live s1 -> wp (if p =? 0 then mret 0 else store (put_base p 0);; mret p)
    (fun p s' => settled s s' /\ if p =? 0 then inv held mine extra live s' /\ no_room else inv held (p :: mine) extra live s' /\ bases (mem s') !! p = Some 0) s1) as Hput.
  { intros p s1 Hs I1. assert (p ∈ pages (p :: mine) s1) as Hp by (unfold pages; rewrite !elem_of_app; right; right; by left). pose proof (page_aligned frame _ _ _ _ _ _ I1 Hp) as [Hp0 _]. destruct (Z.eqb_spec p 0); [lia|].
    apply mp_bind. eapply wp_store; [unfold put_base; erewrite (page_valid frame); [done|exact I1|exact Hp|lia|]; unfold sizeof_easy_mempool_page_t; pose proof (i_size _ _ _ _ _ _ I1); lia|]. apply mp_ret. split; [done|]. destruct (Z.eqb_spec p 0); [lia|].
    split; [by apply put_base_inv|]. apply lookup_insert_eq. }
  apply mp_bind. destruct (free_list (pool s)) as [|p l] eqn:El.
  - eapply wp_atomically; [by rewrite El|]. change (0 =? 0) with true. cbv iota. apply mp_bind, mp_bind, wp_read. unfold sizeof_easy_mempool_page_t. rewrite wrapu_small by lia.
    set (k := page_size (pool s) + 16). pose proof (memalign_fresh (calls (mem s)) (blocks (mem s)) k ltac:(lia)) as Hfresh. eapply wp_atomically; [unfold memalign; reflexivity|]. set (a := memalign_at _ _ _) in *.
    destruct Hfresh as [E|(Ha & Hal & Hnone & Hd)].
    + rewrite E. cbn. apply mp_ret. split; [done|]. cbn. split; [|by exists (calls (mem s)), (blocks (mem s)), k]. constructor; by apply I.
    + destruct (Z.eqb_spec a 0); [lia|]. assert (settled s (State (Memory (S (calls (mem s))) (<[a:=k]> (blocks (mem s))) (bases (mem s)) (bufs (mem s))) (pool s))) as Hs by done. assert ((a =? 0) = false) as Ea by (by apply Z.eqb_neq).
      specialize (Hput a _ Hs). rewrite Ea in Hput. apply Hput. constructor; try (by apply I); cbn [pool mem blocks].
      * rewrite (map_to_list_insert _ _ _ Hnone), (i_blocks _ _ _ _ _ _ I), app_comm_cons. apply Permutation_app_tail. unfold owned. cbn [pool mem blocks]. rewrite app_comm_cons. apply Permutation_app_tail. change ((a, k) :: ?x) with (page_block s a :: x). rewrite <- map_cons. apply Permutation_map. rewrite !app_assoc. apply Permutation_middle.
      * intros x n0 y m0 Hx Hy Hxy. rewrite !lookup_insert_Some in Hx, Hy. destruct Hx as [[<- <-]|[Hx1 Hx]], Hy as [[<- <-]|[Hy1 Hy]]; [done|by apply Hd|destruct (Hd x n0 Hx); [by right|by left]|by apply (i_disjoint _ _ _ _ _ _ I)].
      * intros x n0 Hx. rewrite lookup_insert_Some in Hx. destruct Hx as [[<- <-]|[_ Hx]]; [done|by apply (i_aligned _ _ _ _ _ _ I x n0)].
  - pose proof (i_free _ _ _ _ _ _ I) as [Hf1 Hf2]. rewrite El in Hf1. cbn [length] in Hf1. assert (p ∈ pages mine s) as Hp by (unfold pages; rewrite El, !elem_of_app; right; left; by left). pose proof (page_aligned frame _ _ _ _ _ _ I Hp) as [Hp0 _].
    eapply wp_atomically; [rewrite El; erewrite (page_valid frame); [done|exact I|exact Hp|lia|]; unfold sizeof_easy_mempool_page_t; lia|]. destruct (Z.eqb_spec p 0); [lia|]. apply mp_bind, mp_ret. apply (Hput p); [done|]. constructor; try (by apply I); cbn [pool mem set_free free_num free_list].
    + rewrite (i_blocks _ _ _ _ _ _ I). apply Permutation_app_tail. unfold owned. apply Permutation_app_tail. cbn. rewrite El. apply Permutation_map, Permutation_app_head. cbn. apply Permutation_middle.
    + rewrite wraps_small by lia. lia.
Qed.
End triples.

End EasyMemPoolProofs.
