(* ===== verification/EasyMemPoolBuffers.v ===== *)
(** * Pools of pages: the current page, and the buffers in it

    Which page a buffer is taken from, and what handing one out does to the invariant
    of EasyMemPoolProofs; taking one back is its reverse. *)

From Stdlib Require Import ZArith Lia.
From stdpp Require Import base gmap list numbers option.
From S2P Require Import Prelude EasyMemPool EasyMemPoolProofs.

Local Open Scope Z_scope.

Module EasyMemPoolBuffers.
Import EasyMemPool EasyMemPoolProofs.

Section alone.
Context `{MemalignLaws} (frame : gmap Z Z) (spins : nat) `{!Enough spins}.

Abbreviation inv := (inv frame).

(** ** The current page *)

(** The current position is moved, and the reference that goes with it. *)
Lemma switch_inv held mine extra live s i m : inv held mine extra live s -> meta_at s i m -> i < 16384 -> ref_cnt m = 0 ->
  inv (cur_page_pos (pool s) :: held) mine extra live (State (mem s) (set_cur_page_pos i (pool (with_meta i (Meta 1 (seq_num m) (page m)) s)))).
Proof.
  intros I Hm Hi Hr. pose proof (i_refs _ _ _ _ _ _ I i m Hm) as Er. pose proof (tally_nonneg (at_pos s i) live). pose proof (tally_nonneg (Z.eqb i) held). destruct (Z.eqb_spec i (cur_page_pos (pool s))) as [|Hn]; [lia|].
  assert (inv (i :: held) mine extra live (with_meta i (Meta 1 (seq_num m) (page m)) s)) as I1.
  { eapply with_meta_inv; [exact I|done|done| | |cbn [ref_cnt]; lia|by left].
    - cbn [ref_cnt]. rewrite count_cons, Z.eqb_refl. destruct (Z.eqb_spec i (cur_page_pos (pool s))); lia.
    - intros j Hj. rewrite count_cons. by destruct (Z.eqb_spec j i). }
  set (s1 := with_meta i (Meta 1 (seq_num m) (page m)) s) in *. constructor; try (by apply I1); cbn [pool set_cur_page_pos cur_page_pos]; [split; [apply Hm|done]|].
  intros j m1 Hj. pose proof (i_refs _ _ _ _ _ _ I1 j m1 Hj) as E. change (cur_page_pos (pool s1)) with (cur_page_pos (pool s)) in E. rewrite E, !count_cons. change (at_pos (State (mem s) (set_cur_page_pos i (pool s1))) j) with (at_pos s1 j). destruct (j =? i), (j =? cur_page_pos (pool s)); lia.
Qed.

Definition busy (s : state) (i : Z) : Prop := forall m, meta_at s i m -> ref_cnt m <> 0.

Lemma next_pos_spec extra live s tries newv : inv [] [] extra live s -> 0 <= newv < 16384 ->
  wp (next_pos spins tries 16384 (cur_page_pos (pool s)) newv) (fun _ s' => inv [] [] extra live s' /\ same s s' /\
    (s' = s /\ (forall k, 1 <= k <= Z.of_nat tries -> busy s ((newv + k) mod 16384)) \/
     cur_page_pos (pool s') <> cur_page_pos (pool s) /\ exists m, meta_at s' (cur_page_pos (pool s')) m /\ page m = 0)) s.
Proof.
  intros I. revert newv. induction tries as [|tries IH]; intros newv Hnew; cbn [next_pos].
  - apply mp_ret. split; [done|]. split; [apply same_refl|]. left. split; [done|]. intros k Hk. cbn in Hk. lia.
  - pose proof (Z.mod_pos_bound (newv + 1) 16384 ltac:(lia)) as Hv. set (v := (newv + 1) mod 16384) in *. destruct (meta_exists frame _ _ _ _ _ _ I Hv) as [m Hm]. apply mp_bind. eapply wp_on_meta; [done|]. cbn [fst snd].
    destruct (Z.eqb_spec (ref_cnt m) 0) as [Er|Er].
    + apply mp_bind. eapply wp_atomically; [done|]. change (cur_page_pos (pool (with_meta v (Meta 1 (seq_num m) (page m)) s))) with (cur_page_pos (pool s)). rewrite Z.eqb_refl.
      pose proof (switch_inv [] [] extra live s v m I Hm (proj2 Hv) Er) as I1. pose proof (i_cur _ _ _ _ _ _ I) as Hcur. pose proof (i_refs _ _ _ _ _ _ I v m Hm) as Erv.
      assert (v <> cur_page_pos (pool s)) as Hvc by (intros E; rewrite E, Z.eqb_refl, tally_nil in Erv; pose proof (tally_nonneg (at_pos s (cur_page_pos (pool s))) live); lia).
      eapply mp_mono; [apply (deref_spec frame spins [] [] extra live _ (cur_page_pos (pool s)) I1); [cbn; lia|done]|]. intros _ s' (I' & Hs & Hc & _ & Hmm). split; [done|]. split; [exact Hs|]. right. rewrite Hc. split; [done|].
      exists (Meta 1 (seq_num m) (page m)). split; [|exact (i_idle _ _ _ _ _ _ I v m Hm Er)]. apply Hmm; [done|]. by eapply (meta_at_with s v m).
    + rewrite (with_meta_same _ _ _ Hm). eapply mp_mono; [by apply IH|]. intros _ s' (I' & Hs & Hor). split; [done|]. split; [done|]. destruct Hor as [[-> Hb]|]; [left|by right]. split; [done|]. intros k Hk.
      destruct (decide (k = 1)) as [->|]; [intros m1 Hm1; by rewrite (meta_at_fun _ _ _ _ Hm1 Hm)|]. specialize (Hb (k - 1) ltac:(lia)). unfold v in Hb. rewrite Zplus_mod_idemp_l in Hb. by replace (newv + 1 + (k - 1)) with (newv + k) in Hb by lia.
Qed.

(** The page at a position to which there is a reference, made if there is none. *)
Lemma fill_spec {A} (k : unit -> prog A) Q held extra live s i m : inv held [] extra live s -> meta_at s i m -> ref_cnt m <> 0 ->
  (forall s' m', inv held [] extra live s' -> same s s' -> cur_page_pos (pool s') = cur_page_pos (pool s) -> meta_at s' i m' ->
     (page m <> 0 /\ s' = s /\ m' = m \/ page m = 0 /\ (page m' = 0 /\ no_room \/ page m' <> 0 /\ bases (mem s') !! page m' = Some 0)) -> wp (k tt) Q s') ->
  wp ((if page m =? 0 then
         tmp_page ← easy_mempool_alloc_page_;
         if tmp_page =? 0 then mret tt else r ← cas_page i 0 tmp_page; if r =? 0 then mret tt else easy_mempool_free_page_ tmp_page
       else mret tt) ≫= k) Q s.
Proof.
  intros I Hm Hr HQ. apply mp_bind. destruct (Z.eqb_spec (page m) 0) as [Ep|Ep]; [|apply mp_ret, (HQ s m); [done|apply same_refl|done|done|by left]].
  apply mp_bind. eapply mp_mono; [by apply (alloc_page_spec frame)|]. intros p s1 [(Hs & Hc & Hme) Hp]. assert (meta_at s1 i m) as Hm1 by (destruct Hm; split; [done|by rewrite Hme]). destruct (Z.eqb_spec p 0) as [->|Hp0].
  - destruct Hp as [I1 Hno]. apply mp_ret, (HQ s1 m); try done. right. split; [done|]. by left.
  - destruct Hp as [I1 Hb]. apply mp_bind. eapply wp_on_meta; [done|]. cbn [fst snd]. rewrite Ep, Z.eqb_refl. apply mp_ret. eapply (HQ _ (Meta (ref_cnt m) (seq_num m) p)); [|done|done|by eapply meta_at_with|by right; split; [|right]].
    eapply with_meta_inv; [exact I1|done| |exact (i_refs _ _ _ _ _ _ I1 i m Hm1)|done|by intros|right; split; [by eapply no_buffers|intros _; exists 0; split; [done|]]].
    + rewrite Ep. unfold nonzero. cbn [page]. by destruct (Z.eqb_spec p 0).
    + pose proof (i_size _ _ _ _ _ _ I1). split; [lia|]. apply Z.divide_0_r.
Qed.

(** What asking for a page with room for [ensure] more bytes leads to. *)
Definition got (why : Prop) (extra : Z) (live : list Z) (ensure : Z) (s : state) (r : option (Z * Z)) (s' : state) : Prop :=
  same s s' /\
  match r with
  | None => inv [] [] extra live s' /\ why
  | Some (p, pos) => inv [pos] [] extra live s' /\ 0 <= pos < 16384 /\ p <> 0 /\
      exists m n, meta_at s' pos m /\ page m = p /\ bases (mem s') !! p = Some n /\ n + ensure <= page_size (pool s')
  end.

(** The first round, if the current page has room or there is none. *)
Lemma get_cur_room n oldv ensure extra live s m : inv [] [] extra live s -> oldv <> cur_page_pos (pool s) -> meta_at s (cur_page_pos (pool s)) m -> 0 < ensure <= page_size (pool s) ->
  (page m <> 0 -> forall b, bases (mem s) !! page m = Some b -> b + ensure <= page_size (pool s)) ->
  wp (get_cur_loop spins (S n) oldv ensure) (got no_room extra live ensure s) s.
Proof.
  intros I Ho Hm He Hroom. pose proof (i_cur _ _ _ _ _ _ I) as Hcur. set (i := cur_page_pos (pool s)) in *. pose proof (ref_bounds frame _ _ _ _ _ _ _ I ltac:(cbn; lia) Hm) as Hr.
  cbn [get_cur_loop]. apply mp_bind, wp_read. fold i. destruct (Z.eqb_spec oldv i); [done|]. apply mp_bind, wp_read. fold i. apply mp_bind. eapply wp_inc; [done|lia|]. set (s1 := with_meta i _ s).
  assert (inv [i] [] extra live s1) as I1 by (apply (inc_inv frame); [done|cbn; lia|done]). assert (meta_at s1 i (Meta (ref_cnt m + 1) (seq_num m) (page m))) as Hm1 by (by eapply meta_at_with).
  apply mp_bind. eapply wp_on_meta; [done|]. cbn [fst snd]. rewrite (with_meta_same _ _ _ Hm1). eapply (fill_spec _ _ [i] extra live s1 i _ I1 Hm1); [cbn [ref_cnt]; lia|]. cbn [page]. intros s2 m2 I2 Hs Hc Hm2 Hcase.
  apply mp_bind. eapply wp_on_meta; [done|]. cbn [fst snd]. rewrite (with_meta_same _ _ _ Hm2). assert (same s s2) as Hss by exact Hs. destruct (Z.eqb_spec (page m2) 0) as [Ep|Ep].
  - apply mp_bind. eapply mp_mono; [apply (deref_spec frame spins [] [] extra live s2 i I2); [cbn; lia|done]|]. intros _ s3 (I3 & Hs3 & _). apply mp_ret. split; [by eapply same_trans|]. split; [done|].
    destruct Hcase as [(Hp & -> & ->)|[_ [[_ Hno]|[Hp _]]]]; done.
  - destruct (i_bases _ _ _ _ _ _ I2 (page m2)) as (b & Eb & Hb & _); [by eapply page_used|]. pose proof (i_size _ _ _ _ _ _ I2) as Hsz. assert (page_size (pool s2) = page_size (pool s)) as Esz by apply Hss.
    assert (b + ensure <= page_size (pool s)) as Hfit. { destruct Hcase as [(Hp & -> & ->)|[_ [[Hp _]|[_ Hb0]]]]; [by apply Hroom|done|]. rewrite Eb in Hb0. injection Hb0 as ->. lia. }
    apply mp_bind, wp_read. apply mp_bind. eapply wp_load.
    { unfold get_base. erewrite (page_valid frame); [exact Eb|exact I2|apply used_pages; by eapply page_used|lia|unfold sizeof_easy_mempool_page_t; lia]. }
    rewrite wraps_small by lia. destruct (Z.ltb_spec (page_size (pool s2) - b) ensure); [lia|]. apply mp_ret. split; [done|]. split; [done|]. split; [done|]. split; [done|]. exists m2, b. split_and!; [done|done|done|lia].
Qed.

Lemma get_cur_spec ensure extra live s : inv [] [] extra live s -> 0 < ensure <= page_size (pool s) ->
  wp (easy_mempool_get_cur_page_ spins ensure) (got (no_room \/ forall i, 0 <= i < 16384 -> busy s i) extra live ensure s) s.
Proof.
  intros I He. unfold easy_mempool_get_cur_page_. assert (exists n, spins = S (S n)) as [n En] by (pose proof (enough : (2 <= spins)%nat); exists (spins - 2)%nat; lia). rewrite En at 2. pose proof (i_cur _ _ _ _ _ _ I) as Hcur. set (i := cur_page_pos (pool s)) in *. destruct (meta_exists frame _ _ _ _ _ _ I Hcur) as [m Hm].
  assert (forall r s', got no_room extra live ensure s r s' -> got (no_room \/ forall j, 0 <= j < 16384 -> busy s j) extra live ensure s r s') as Hweak by (intros [[p pos]|] s' [Hs Hg]; split; [done|done|done|destruct Hg; split; [done|by left]]).
  destruct (decide (page m = 0)) as [Ep|Ep]; [eapply mp_mono; [|exact Hweak]; eapply get_cur_room; [done|fold i; lia|done|done|done]|]. destruct (i_bases _ _ _ _ _ _ I (page m)) as (b & Eb & Hb & _); [by eapply page_used|].
  destruct (decide (b + ensure <= page_size (pool s))) as [Hfit|Hfull]; [eapply mp_mono; [|exact Hweak]; eapply get_cur_room; [done|fold i; lia|done|done|intros _ b' Eb'; rewrite Eb in Eb'; by injection Eb' as <-]|].
  pose proof (ref_bounds frame _ _ _ _ _ _ _ I ltac:(cbn; lia) Hm) as Hr. assert (0 < ref_cnt m) as Hr0. { pose proof (i_refs _ _ _ _ _ _ I i m Hm) as E. unfold i in E at 2. rewrite Z.eqb_refl, tally_nil in E. pose proof (tally_nonneg (at_pos s i) live). lia. }
  pose proof (i_num _ _ _ _ _ _ I) as Hnum. pose proof (i_size _ _ _ _ _ _ I) as Hsz. remember (S n) as n' eqn:En'. cbn [get_cur_loop].
  apply mp_bind, wp_read. fold i. destruct (Z.eqb_spec (-1) i); [lia|]. apply mp_bind, wp_read. fold i. apply mp_bind. eapply wp_inc; [done|lia|]. set (s1 := with_meta i _ s).
  assert (meta_at s1 i (Meta (ref_cnt m + 1) (seq_num m) (page m))) as Hm1 by (by eapply meta_at_with). assert (inv [i] [] extra live s1) as I1 by (apply (inc_inv frame); [done|cbn; lia|done]).
  assert (get_base (page m) (mem s1) = Some b) as Hget by (unfold get_base; erewrite (page_valid frame); [exact Eb|exact I1|apply used_pages; exact (page_used s1 i _ Hm1 Ep)|cbn [page]; lia|cbn [page]; change (page_size (pool s1)) with (page_size (pool s)); unfold sizeof_easy_mempool_page_t; lia]).
  apply mp_bind. eapply wp_on_meta; [done|]. cbn [fst snd page]. rewrite (with_meta_same _ _ _ Hm1). apply mp_bind. destruct (Z.eqb_spec (page m) 0); [done|]. apply mp_ret.
  apply mp_bind. eapply wp_on_meta; [done|]. cbn [fst snd page]. rewrite (with_meta_same _ _ _ Hm1). destruct (Z.eqb_spec (page m) 0); [done|]. apply mp_bind, wp_read. apply mp_bind. eapply wp_load; [exact Hget|].
  change (page_size (pool s1)) with (page_size (pool s)). rewrite wraps_small by lia. destruct (Z.ltb_spec (page_size (pool s) - b) ensure); [|lia]. apply mp_bind. eapply wp_load; [exact Hget|]. eapply wp_inc_deref; [done|done|lia|done|lia|].
  destruct (Z.eqb_spec b 0); [lia|]. apply mp_bind, wp_read. rewrite Hnum. apply mp_bind. eapply mp_mono; [by apply next_pos_spec|]. fold i. intros _ s2 (I2 & Hs2 & [[-> Hbusy]|[Hc (m2 & Hm2 & Ep2)]]).
  - subst n'. cbn [get_cur_loop]. apply mp_bind, wp_read. fold i. rewrite Z.eqb_refl. apply mp_ret. split; [apply same_refl|]. split; [done|]. right. intros j Hj. destruct (decide (j = i)) as [->|Hji]; [intros m1 Hm1'; rewrite (meta_at_fun _ _ _ _ Hm1' Hm); lia|].
    pose proof (Z.mod_pos_bound (j - i) 16384 ltac:(lia)). assert ((j - i) mod 16384 <> 0) by (intros E; apply Z.mod_divide in E as [q E]; lia). specialize (Hbusy ((j - i) mod 16384) ltac:(lia)). rewrite Zplus_mod_idemp_r in Hbusy. replace (i + (j - i)) with j in Hbusy by lia. by rewrite Z.mod_small in Hbusy by lia.
  - subst n'. pose proof Hs2 as (_ & Es & _). eapply mp_mono; [eapply get_cur_room; [exact I2|by apply not_eq_sym|done|by rewrite Es|done]|]. intros r s3 [Hs3 Hgot]. split; [by eapply same_trans|]. destruct r as [[p pos]|]; [|destruct Hgot; split; [done|by left]].
    destruct Hgot as (? & ? & ? & m3 & b3 & ? & ? & ? & ?). split; [done|]. split; [done|]. split; [done|]. exists m3, b3. by split_and!.
Qed.

(** ** Buffers *)

(** The live buffers have the headers they had. *)
Definition agree (live : list Z) (s s' : state) : Prop := forall c, c ∈ live -> header s' c = header s c.

Lemma agree_count live s s' i : agree live s s' -> count (at_pos s' i) live = count (at_pos s i) live.
Proof. intros Ha. apply count_ext. intros c Hc. unfold at_pos. by rewrite Ha. Qed.
Lemma agree_direct live s s' : agree live s s' -> count (direct s') live = count (direct s) live.
Proof. intros Ha. apply count_ext. intros c Hc. unfold direct. by rewrite Ha. Qed.
Lemma agree_total live s s' : agree live s s' -> total (length_of s') live = total (length_of s) live.
Proof. intros Ha. apply total_ext. intros c Hc. unfold length_of. by rewrite Ha. Qed.
Lemma agree_extent live s s' c : agree live s s' -> c ∈ live -> extent s' c = extent s c.
Proof. intros Ha Hc. unfold extent. by rewrite Ha. Qed.
Lemma agree_blocks live s s' : agree live s s' -> map (direct_block s') (List.filter (direct s') live) = map (direct_block s) (List.filter (direct s) live).
Proof.
  intros Ha. rewrite (filter_ext_in (direct s') (direct s)) by (intros c Hc; apply list_elem_of_In in Hc; unfold direct; by rewrite Ha).
  apply map_ext_in. intros c Hc. apply filter_In in Hc as [Hc _]. apply list_elem_of_In in Hc. unfold direct_block. by rewrite (agree_extent live s s').
Qed.
Lemma agree_put live s a h calls bl ba q : (forall c, c ∈ live -> c - sizeof_easy_mempool_buf_t <> a) -> agree live s (State (Memory calls bl ba (<[a := h]> (bufs (mem s)))) q).
Proof. intros Hne c Hc. unfold header. cbn. apply lookup_insert_ne. intros E. by apply (Hne c Hc). Qed.

Lemma extent_ok s b : buffer_ok s b -> 16 <= extent s b.
Proof. intros (h & E & _ & Hf & _). unfold extent. rewrite E. pose proof (alloc_size_bounds (size h) Hf). unfold fits in Hf. lia. Qed.

(** The block in which a buffer lies: its page, or its own. *)
Lemma region held mine extra live s c : inv held mine extra live s -> c ∈ live -> exists q k, blocks (mem s) !! q = Some k /\ q <= c - sizeof_easy_mempool_buf_t /\ c - sizeof_easy_mempool_buf_t + extent s c <= q + k /\
  (direct s c = true /\ q = c - sizeof_easy_mempool_buf_t /\ q ∉ pages mine s \/ exists i m n, meta_at s i m /\ page m = q /\ q <> 0 /\ at_pos s i c = true /\ direct s c = false /\ bases (mem s) !! q = Some n /\ c - sizeof_easy_mempool_buf_t + extent s c <= q + sizeof_easy_mempool_page_t + n).
Proof.
  intros I Hc. destruct (i_bufs _ _ _ _ _ _ I c Hc) as (h & E & _ & _ & _ & [Ht|[Ht (m & n & Hm & Hp & En & H1 & H2)]]).
  - assert (direct s c = true) as Hd by (unfold direct; by rewrite E, Ht). exists (c - sizeof_easy_mempool_buf_t), (extent s c). split_and!; [|lia|lia|left; split; [done|]; split; [done|]].
    + eapply owned_lookup; [exact I|]. unfold owned. apply elem_of_app. right. apply list_elem_of_In, in_map_iff. exists c. split; [done|]. apply filter_In. split; [by apply list_elem_of_In|done].
    + intros Hin. pose proof (owned_nodup frame _ _ _ _ _ I) as Hnd. unfold owned in Hnd. rewrite !map_app in Hnd. apply list.NoDup_app in Hnd as [Hnd _]. rewrite <- map_app, <- map_app, <- !map_app in Hnd. rewrite map_app in Hnd. apply list.NoDup_app in Hnd as (_ & Hd' & _).
      apply (Hd' (c - sizeof_easy_mempool_buf_t)); apply list_elem_of_In, in_map_iff.
      * exists (page_block s (c - sizeof_easy_mempool_buf_t)). split; [done|]. apply in_map. by apply list_elem_of_In.
      * exists (direct_block s c). split; [done|]. apply in_map, filter_In. split; [by apply list_elem_of_In|done].
  - destruct (i_bases _ _ _ _ _ _ I (page m)) as (n' & En' & Hn & _); [by eapply page_used|]. rewrite En in En'. injection En' as <-. exists (page m), (page_size (pool s) + sizeof_easy_mempool_page_t). split_and!; [|unfold sizeof_easy_mempool_page_t in *; lia|lia|right].
    + eapply page_lookup; [exact I|]. apply used_pages. by eapply page_used.
    + exists (page_pos h), m, n. split_and!; try done; [unfold at_pos; by rewrite E, Ht, !Z.eqb_refl|unfold direct; by rewrite E, Ht].
Qed.

(** A piece behind what is taken of a page is apart from all buffers. *)
Lemma behind held mine extra live s pos m n c k : inv held mine extra live s -> meta_at s pos m -> page m <> 0 -> bases (mem s) !! page m = Some n -> n + k <= page_size (pool s) -> 0 <= n -> c ∈ live ->
  let a := page m + sizeof_easy_mempool_page_t + n in a + k <= c - sizeof_easy_mempool_buf_t \/ c - sizeof_easy_mempool_buf_t + extent s c <= a.
Proof.
  intros I Hm Hp Hn Hk Hn0 Hc a. destruct (region _ _ _ _ _ _ I Hc) as (q & kq & Eq & H1 & H2 & Hor). assert (page m ∈ pages mine s) as Hpm by (apply used_pages; by eapply page_used). pose proof (page_lookup frame _ _ _ _ _ _ I Hpm) as Ep.
  destruct (decide (q = page m)) as [->|Hne].
  - destruct Hor as [(_ & _ & Hnot)|(i & m' & n' & Hm' & _ & _ & _ & _ & En' & Hle)]; [done|]. rewrite Hn in En'. injection En' as <-. right. unfold a. lia.
  - pose proof (i_disjoint _ _ _ _ _ _ I _ _ _ _ Ep Eq ltac:(done)). unfold a. unfold sizeof_easy_mempool_page_t in *. lia.
Qed.

Lemma in_page_agree live s s' c i : agree live s s' -> c ∈ live -> page_metas (pool s') = page_metas (pool s) ->
  (forall p n, bases (mem s) !! p = Some n -> exists n', bases (mem s') !! p = Some n' /\ n <= n') -> in_page s c i -> in_page s' c i.
Proof.
  intros Ha Hc Hme Hb (m & n & [Hi Em] & Hp & En & H1 & H2). destruct (Hb _ _ En) as (n' & En' & Hn'). exists m, n'. split; [split; [done|by rewrite Hme]|]. split_and!; try done. rewrite (agree_extent live s s') by done. lia.
Qed.

(** The buffers that stay are as they were when only their headers, the positions and
    at most the numbers of pages matter. *)
Lemma buffer_agree live s s' c : agree live s s' -> c ∈ live -> page_metas (pool s') = page_metas (pool s) ->
  (forall p n, bases (mem s) !! p = Some n -> exists n', bases (mem s') !! p = Some n' /\ n <= n') -> buffer_ok s c -> buffer_ok s' c.
Proof.
  intros Ha Hc Hme Hb (h & E & Hmg & Hf & Hal & Ht). exists h. rewrite Ha by done. split_and!; try done. destruct Ht as [|[Ht Hin]]; [by left|right]. split; [done|]. by eapply in_page_agree.
Qed.

Lemma apart_agree live s s' b c : agree live s s' -> b ∈ live -> c ∈ live -> apart s b c -> apart s' b c.
Proof. intros Ha Hb Hc. unfold apart. by rewrite !(agree_extent live s s') by done. Qed.

Lemma bases_grow (ba : gmap Z Z) p n k : ba !! p = Some n -> 0 <= k -> forall q x, ba !! q = Some x -> exists x', <[p := n + k]> ba !! q = Some x' /\ x <= x'.
Proof.
  intros En Hk q x Ex. destruct (decide (p = q)) as [<-|Hne]; [exists (n + k); split; [apply lookup_insert_eq|rewrite En in Ex; injection Ex as <-; lia]|exists x; split; [by rewrite lookup_insert_ne|lia]].
Qed.

(** A buffer is the next piece of a page to which the operation has a reference. *)
Lemma add_buffer held mine extra live s pos m n size : inv (pos :: held) mine extra live s -> pos < 16384 -> meta_at s pos m -> page m <> 0 -> bases (mem s) !! page m = Some n -> fits size ->
  n + alloc_size_of size <= page_size (pool s) ->
  let a := page m + sizeof_easy_mempool_page_t + n in
  let s' := State (Memory (calls (mem s)) (blocks (mem s)) (<[page m := n + alloc_size_of size]> (bases (mem s))) (<[a := Buf EASY_MEMPOOL_BUF_MAGIC_NUM EASY_MEMPOOL_ALLOC pos size]> (bufs (mem s)))) (pool s) in
  inv held mine (extra - size) (a + sizeof_easy_mempool_buf_t :: live) s' /\ a + sizeof_easy_mempool_buf_t ∉ live /\ agree live s s'.
Proof.
  intros I Hpos Hm Hp En Hf Hk a s'. destruct (i_bases _ _ _ _ _ _ I (page m)) as (n' & En' & Hn & Hn8); [by eapply page_used|]. rewrite En in En'. injection En' as <-. pose proof (alloc_size_bounds size Hf) as [Hk1 Hk8]. assert (Hf' := Hf). unfold fits in Hf'. set (k := alloc_size_of size) in *.
  assert (forall c, c ∈ live -> a + k <= c - sizeof_easy_mempool_buf_t \/ c - sizeof_easy_mempool_buf_t + extent s c <= a) as Hbehind by (intros c Hc; eapply behind; try done; lia).
  assert (forall c, c ∈ live -> 16 <= extent s c) as Hext by (intros c Hc; by eapply extent_ok, I). assert (forall c, c ∈ live -> c - sizeof_easy_mempool_buf_t <> a) as Hne by (intros c Hc; specialize (Hbehind c Hc); specialize (Hext c Hc); lia).
  assert (agree live s s') as Hag by (by apply agree_put). set (b := a + sizeof_easy_mempool_buf_t) in *. assert (b ∉ live) as Hb by (intros Hin; apply (Hne b Hin); unfold b; lia). split; [|done].
  assert (header s' b = Some (Buf EASY_MEMPOOL_BUF_MAGIC_NUM EASY_MEMPOOL_ALLOC pos size)) as Eh by (unfold header, b, s'; cbn [mem bufs]; rewrite Z.add_simpl_r; apply lookup_insert_eq).
  assert (extent s' b = k) as Eext by (unfold extent; by rewrite Eh). assert (direct s' b = false) as Ed by (unfold direct; by rewrite Eh). assert (forall i, at_pos s' i b = (pos =? i)) as Eat by (intros i; unfold at_pos; by rewrite Eh).
  pose proof (bases_grow (bases (mem s)) (page m) n k En ltac:(lia)) as Hgrow. constructor; try (by apply I).
  - unfold owned. cbn [List.filter]. rewrite Ed, (agree_blocks live s s') by done. by apply I.
  - intros p Hpu. destruct (i_bases _ _ _ _ _ _ I p Hpu) as (x & Ex & Hx & Hx8). destruct (decide (page m = p)) as [<-|Hq]; [|exists x; split; [|done]; cbn; by rewrite lookup_insert_ne].
    exists (n + k). split; [apply lookup_insert_eq|]. split; [change (page_size (pool s')) with (page_size (pool s)); lia|by apply Z.divide_add_r].
  - intros i m1 Hm1. rewrite count_cons, Eat, agree_count with (s := s) by done. rewrite (i_refs _ _ _ _ _ _ I i m1 Hm1), count_cons, (Z.eqb_sym i pos). cbn. destruct (pos =? i); lia.
  - by apply list.NoDup_cons; split; [|apply I].
  - intros c Hc. apply elem_of_cons in Hc as [->|Hc]; [|eapply buffer_agree; [exact Hag|done|done|exact Hgrow|by apply I]]. eexists. split; [exact Eh|]. split; [done|]. split; [done|]. split.
    + pose proof (page_aligned frame _ _ _ _ _ _ I (used_pages _ _ _ (page_used _ _ _ Hm Hp))) as [_ Hp8]. unfold b, a, sizeof_easy_mempool_page_t, sizeof_easy_mempool_buf_t. repeat apply Z.divide_add_r; try done; by exists 2.
    + right. split; [done|]. exists m, (n + k). split_and!; [exact Hm|done|apply lookup_insert_eq|unfold b, a; lia|rewrite Eext; unfold b, a; lia].
  - assert (forall c, c ∈ live -> apart s' b c) as Hnew by (intros c Hc; unfold apart; rewrite Eext, (agree_extent live s s') by done; specialize (Hbehind c Hc); unfold b; lia).
    intros c d Hc Hd Hcd. apply elem_of_cons in Hc as [->|Hc], Hd as [->|Hd]; [done|by apply Hnew|destruct (Hnew c Hc); [by right|by left]|]. apply (apart_agree live s); [done|done|done|by apply (i_apart _ _ _ _ _ _ I)].
  - intros i m1 x Hm1 Hp1 Ex. rewrite count_cons, Eat, agree_count with (s := s) by done. cbn in Ex. destruct (decide (page m = page m1)) as [Epm|Hq].
    + rewrite <- Epm, lookup_insert_eq in Ex. injection Ex as <-. assert (pos = i) as <- by (eapply page_unique; [exact I|exact Hm|exact Hm1|done|done]). rewrite Z.eqb_refl. pose proof (i_count _ _ _ _ _ _ I pos m n Hm Hp En). lia.
    + rewrite lookup_insert_ne in Ex by done. destruct (Z.eqb_spec pos i) as [<-|]; [by rewrite (meta_at_fun s pos m m1 Hm Hm1) in Hq|]. by apply (i_count _ _ _ _ _ _ I i m1 x).
  - cbn [total]. rewrite (agree_total live s s') by done. unfold length_of at 1. rewrite Eh. cbn [EasyMemPool.size]. pose proof (i_total _ _ _ _ _ _ I). change (mem_total (pool s')) with (mem_total (pool s)). lia.
  - rewrite count_cons, Ed, (agree_direct live s s') by done. by apply I.
Qed.

Lemma i32_step x d : i32 (i32 x + d) = i32 (x + d).
Proof. unfold wraps. replace ((x + 2 ^ (32 - 1)) mod 2 ^ 32 - 2 ^ (32 - 1) + d + 2 ^ (32 - 1)) with ((x + 2 ^ (32 - 1)) mod 2 ^ 32 + d) by lia. rewrite Zplus_mod_idemp_l. f_equal. f_equal. lia. Qed.

(** A buffer that is a block of its own. *)
Lemma add_direct held mine extra live s a pp size : inv held mine extra live s -> fits size -> 0 < a -> (8 | a) -> blocks (mem s) !! a = None ->
  (forall q k, blocks (mem s) !! q = Some k -> a + alloc_size_of size <= q \/ q + k <= a) ->
  let s' := State (Memory (S (calls (mem s))) (<[a := alloc_size_of size]> (blocks (mem s))) (bases (mem s)) (<[a := Buf EASY_MEMPOOL_BUF_MAGIC_NUM EASY_MEMPOOL_DIRECT_ALLOC pp size]> (bufs (mem s))))
              (set_direct_alloc_cnt (i32 (direct_alloc_cnt (pool s) + 1)) (pool s)) in
  inv held mine (extra - size) (a + sizeof_easy_mempool_buf_t :: live) s' /\ a + sizeof_easy_mempool_buf_t ∉ live /\ agree live s s'.
Proof.
  intros I Hf Ha Ha8 Hnone Hd s'. pose proof (alloc_size_bounds size Hf) as [Hk1 Hk8]. assert (Hf' := Hf). unfold fits in Hf'. set (k := alloc_size_of size) in *.
  assert (forall c, c ∈ live -> a + k <= c - sizeof_easy_mempool_buf_t \/ c - sizeof_easy_mempool_buf_t + extent s c <= a) as Hout by (intros c Hc; destruct (region _ _ _ _ _ _ I Hc) as (q & kq & Eq & H1 & H2 & _); destruct (Hd q kq Eq); lia).
  assert (forall c, c ∈ live -> 16 <= extent s c) as Hext by (intros c Hc; by eapply extent_ok, I). assert (forall c, c ∈ live -> c - sizeof_easy_mempool_buf_t <> a) as Hne by (intros c Hc; specialize (Hout c Hc); specialize (Hext c Hc); lia).
  assert (agree live s s') as Hag by (by apply agree_put). set (b := a + sizeof_easy_mempool_buf_t) in *. assert (b ∉ live) as Hb by (intros Hin; apply (Hne b Hin); unfold b; lia). split; [|done].
  assert (header s' b = Some (Buf EASY_MEMPOOL_BUF_MAGIC_NUM EASY_MEMPOOL_DIRECT_ALLOC pp size)) as Eh by (unfold header, b, s'; cbn [mem bufs]; rewrite Z.add_simpl_r; apply lookup_insert_eq).
  assert (extent s' b = k) as Eext by (unfold extent; by rewrite Eh). assert (direct s' b = true) as Ed by (unfold direct; by rewrite Eh). assert (forall i, at_pos s' i b = false) as Eat by (intros i; unfold at_pos; by rewrite Eh).
  constructor; try (by apply I).
  - unfold owned. cbn [List.filter]. rewrite Ed. cbn [map]. rewrite (agree_blocks live s s') by done. change (blocks (mem s')) with (<[a := k]> (blocks (mem s))). rewrite (map_to_list_insert _ _ _ Hnone), (i_blocks _ _ _ _ _ _ I). assert (direct_block s' b = (a, k)) as -> by (unfold direct_block; rewrite Eext; unfold b; by rewrite Z.add_simpl_r).
    rewrite app_comm_cons. apply Permutation_app_tail. apply Permutation_middle.
  - intros x n0 y m0 Hx Hy Hxy. cbn in Hx, Hy. rewrite !lookup_insert_Some in Hx, Hy. destruct Hx as [[<- <-]|[_ Hx]], Hy as [[<- <-]|[_ Hy]]; [done|by apply Hd|destruct (Hd x n0 Hx); [by right|by left]|by apply (i_disjoint _ _ _ _ _ _ I)].
  - intros x n0 Hx. cbn in Hx. rewrite lookup_insert_Some in Hx. destruct Hx as [[<- <-]|[_ Hx]]; [done|by apply (i_aligned _ _ _ _ _ _ I x n0)].
  - intros i m1 Hm1. rewrite count_cons, Eat, agree_count with (s := s) by done. by rewrite (i_refs _ _ _ _ _ _ I i m1 Hm1).
  - by apply list.NoDup_cons; split; [|apply I].
  - intros c Hc. apply elem_of_cons in Hc as [->|Hc]; [|eapply buffer_agree; [exact Hag|done|done|intros p n En; exists n; split; [done|lia]|by apply I]]. eexists. split; [exact Eh|]. split; [done|]. split; [done|]. split; [|by left].
    unfold b, sizeof_easy_mempool_buf_t. apply Z.divide_add_r; [done|by exists 2].
  - assert (forall c, c ∈ live -> apart s' b c) as Hnew by (intros c Hc; unfold apart; rewrite Eext, (agree_extent live s s') by done; specialize (Hout c Hc); unfold b; lia).
    intros c d Hc Hdd Hcd. apply elem_of_cons in Hc as [->|Hc], Hdd as [->|Hdd]; [done|by apply Hnew|destruct (Hnew c Hc); [by right|by left]|]. apply (apart_agree live s); [done|done|done|by apply (i_apart _ _ _ _ _ _ I)].
  - intros i m1 x Hm1 Hp1 Ex. rewrite count_cons, Eat, agree_count with (s := s) by done. by apply (i_count _ _ _ _ _ _ I i m1 x).
  - cbn [total]. rewrite (agree_total live s s') by done. unfold length_of at 1. rewrite Eh. cbn [EasyMemPool.size]. pose proof (i_total _ _ _ _ _ _ I). change (mem_total (pool s')) with (mem_total (pool s)). lia.
  - rewrite count_cons, Ed, (agree_direct live s s') by done. cbn [s' pool set_direct_alloc_cnt direct_alloc_cnt]. rewrite (i_direct _ _ _ _ _ _ I), i32_step. f_equal. lia.
Qed.

(** A buffer of a page is taken back: its reference is the operation's. *)
Lemma remove_buffer held mine extra live s b h : inv held mine extra (b :: live) s -> header s b = Some h -> alloc_type h = EASY_MEMPOOL_ALLOC ->
  let s' := State (Memory (calls (mem s)) (blocks (mem s)) (bases (mem s)) (<[b - sizeof_easy_mempool_buf_t := Buf EASY_MEMPOOL_BUF_FREE_FLAG (alloc_type h) (page_pos h) (size h)]> (bufs (mem s)))) (pool s) in
  inv (page_pos h :: held) mine (extra + size h) live s' /\ agree live s s'.
Proof.
  intros I Eh Ht s'. pose proof (i_nodup _ _ _ _ _ _ I) as Hnd. apply list.NoDup_cons in Hnd as [Hb Hnd]. assert (agree live s s') as Hag by (apply agree_put; intros c Hc E; by replace c with b in Hc by lia). split; [|done].
  assert (direct s b = false) as Ed by (unfold direct; by rewrite Eh, Ht). assert (forall i, at_pos s i b = (page_pos h =? i)) as Eat by (intros i; unfold at_pos; by rewrite Eh, Ht).
  constructor; try (by apply I); try done.
  - change (blocks (mem s')) with (blocks (mem s)). rewrite (i_blocks _ _ _ _ _ _ I). apply Permutation_app_tail. unfold owned. cbn [List.filter]. by rewrite Ed, (agree_blocks live s s').
  - intros i m Hm. rewrite (i_refs _ _ _ _ _ _ I i m Hm), !count_cons, Eat, (agree_count live s s') by done. rewrite (Z.eqb_sym i (page_pos h)). change (cur_page_pos (pool s')) with (cur_page_pos (pool s)). lia.
  - intros c Hc. eapply buffer_agree; [exact Hag|done|done|intros p n En; exists n; split; [done|lia]|apply I; by right].
  - intros c d Hc Hd Hcd. apply (apart_agree live s); [done..|]. apply (i_apart _ _ _ _ _ _ I); [by right|by right|done].
  - intros i m n Hm Hp En. rewrite (agree_count live s s') by done. pose proof (i_count _ _ _ _ _ _ I i m n Hm Hp En) as Hc. rewrite count_cons in Hc. destruct (at_pos s i b); lia.
  - rewrite (agree_total live s s') by done. pose proof (i_total _ _ _ _ _ _ I) as Et. cbn [total] in Et. unfold length_of at 1 in Et. rewrite Eh in Et. change (mem_total (pool s')) with (mem_total (pool s)). lia.
  - rewrite (agree_direct live s s') by done. pose proof (i_direct _ _ _ _ _ _ I) as E. by rewrite count_cons, Ed in E.
Qed.

(** A buffer that is a block of its own is taken back. *)
Lemma remove_direct held mine extra live s b h : inv held mine extra (b :: live) s -> header s b = Some h -> alloc_type h = EASY_MEMPOOL_DIRECT_ALLOC ->
  let a := b - sizeof_easy_mempool_buf_t in
  let s' := State (Memory (calls (mem s)) (delete a (blocks (mem s))) (bases (mem s)) (<[a := Buf EASY_MEMPOOL_BUF_FREE_FLAG (alloc_type h) (page_pos h) (size h)]> (bufs (mem s))))
              (set_direct_alloc_cnt (i32 (direct_alloc_cnt (pool s) - 1)) (pool s)) in
  blocks (mem s) !! a = Some (extent s b) /\ inv held mine (extra + size h) live s' /\ agree live s s'.
Proof.
  intros I Eh Ht a s'. pose proof (i_nodup _ _ _ _ _ _ I) as Hnd. apply list.NoDup_cons in Hnd as [Hb Hnd]. assert (agree live s s') as Hag by (apply agree_put; intros c Hc E; by replace c with b in Hc by (unfold a in E; lia)).
  assert (direct s b = true) as Ed by (unfold direct; by rewrite Eh, Ht). assert (forall i, at_pos s i b = false) as Eat by (intros i; unfold at_pos; by rewrite Eh, Ht).
  assert (owned mine (b :: live) s ≡ₚ (a, extent s b) :: owned mine live s') as Hown.
  { unfold owned. cbn [List.filter]. rewrite Ed. cbn [map]. rewrite (agree_blocks live s s') by done. rewrite Permutation_middle. done. }
  assert (blocks (mem s) !! a = Some (extent s b)) as Ea by (eapply owned_lookup; [exact I|rewrite Hown; by left]). split; [done|]. split; [|done].
  constructor; try (by apply I); try done.
  - apply (Permutation_cons_inv (a := (a, extent s b))). rewrite app_comm_cons, <- Hown, <- (i_blocks _ _ _ _ _ _ I). cbn [s' mem blocks]. by apply map_to_list_delete.
  - intros x n0 y m0 Hx Hy. cbn in Hx, Hy. apply lookup_delete_Some in Hx as [_ Hx], Hy as [_ Hy]. by apply (i_disjoint _ _ _ _ _ _ I).
  - intros x n0 Hx. cbn in Hx. apply lookup_delete_Some in Hx as [_ Hx]. by apply (i_aligned _ _ _ _ _ _ I x n0).
  - intros i m Hm. rewrite (i_refs _ _ _ _ _ _ I i m Hm), count_cons, Eat, (agree_count live s s') by done. cbn. lia.
  - intros c Hc. eapply buffer_agree; [exact Hag|done|done|intros p n En; exists n; split; [done|lia]|apply I; by right].
  - intros c d Hc Hd Hcd. apply (apart_agree live s); [done..|]. apply (i_apart _ _ _ _ _ _ I); [by right|by right|done].
  - intros i m n Hm Hp En. rewrite (agree_count live s s') by done. pose proof (i_count _ _ _ _ _ _ I i m n Hm Hp En) as Hc. by rewrite count_cons, Eat in Hc.
  - rewrite (agree_total live s s') by done. pose proof (i_total _ _ _ _ _ _ I) as Et. cbn [total] in Et. unfold length_of at 1 in Et. rewrite Eh in Et. change (mem_total (pool s')) with (mem_total (pool s)). lia.
  - rewrite (agree_direct live s s') by done. cbn [s' pool set_direct_alloc_cnt direct_alloc_cnt]. rewrite (i_direct _ _ _ _ _ _ I), count_cons, Ed. rewrite <- Z.add_opp_r, i32_step. f_equal. lia.
Qed.

(** The bytes handed out are counted. *)
Lemma set_total_inv held mine extra live s v : inv held mine extra live s -> 0 <= v < 2 ^ 63 -> inv held mine (extra + (v - mem_total (pool s))) live (State (mem s) (set_mem_total v (pool s))).
Proof. intros I Hv. constructor; try (by apply I); [|done]. cbn. pose proof (i_total _ _ _ _ _ _ I). change (length_of (State (mem s) (set_mem_total v (pool s)))) with (length_of s). lia. Qed.

Lemma total_pos f l : (forall b, b ∈ l -> 0 <= f b) -> 0 <= total f l.
Proof. induction l as [|b l IH]; intros Hb; cbn [total]; [lia|]. pose proof (Hb b ltac:(by left)). assert (0 <= total f l) by (apply IH; intros; apply Hb; by right). lia. Qed.

Lemma length_pos held mine extra live s b : inv held mine extra live s -> b ∈ live -> 0 <= length_of s b.
Proof. intros I Hb. destruct (i_bufs _ _ _ _ _ _ I b Hb) as (h & E & _ & Hh & _). unfold length_of. rewrite E. apply Hh. Qed.

Lemma size_le_total held mine live s b h : inv held mine 0 (b :: live) s -> header s b = Some h -> size h <= mem_total (pool s).
Proof.
  intros I E. pose proof (i_total _ _ _ _ _ _ I) as Et. cbn [total] in Et. unfold length_of at 1 in Et. rewrite E in Et. pose proof (total_pos (length_of s) live ltac:(intros c Hc; apply (length_pos _ _ _ _ _ c I); by right)). lia.
Qed.
End alone.
End EasyMemPoolBuffers.
