(* ===== verification/EasyMemPoolTheorems.v ===== *)
(** * Pools of pages: what is handed out, and what goes wrong

    Alone, an operation keeps the invariant of the pool: buffers do not overlap, pages
    are freed when, and only when, they are no longer used, and clearing the pool frees
    everything.  With other threads it does not. *)

From Stdlib Require Import ZArith Lia.
From stdpp Require Import base gmap list numbers option.
From S2P Require Import Prelude EasyMemPool EasyMemPoolProofs EasyMemPoolBuffers.

Local Open Scope Z_scope.

Module EasyMemPoolTheorems.
Import EasyMemPool EasyMemPoolProofs EasyMemPoolBuffers.

Section alone.
Context `{MemalignLaws} (frame : gmap Z Z) (spins : nat) `{!Enough spins}.

Abbreviation inv := (inv frame).

(** ** Allocation *)

Lemma spins_S : exists n, spins = S n.
Proof. pose proof (enough : (2 <= spins)%nat). exists (spins - 1)%nat. lia. Qed.

(** The next [k] bytes of a page. *)
Lemma wp_take p n k psz (Q : Z -> state -> Prop) s : get_base p (mem s) = Some n -> valid p sizeof_easy_mempool_page_t (mem s) = true -> 0 <= n -> 0 <= k -> n + k <= psz -> psz < 2 ^ 31 ->
  Q (p + sizeof_easy_mempool_page_t + n) (State (set_bases (<[p := n + k]> (bases (mem s))) (mem s)) (pool s)) -> wp (easy_mempool_alloc_from_page_ spins p psz k) Q s.
Proof.
  intros Eb Ev Hn Hk Hle Hpsz HQ. unfold easy_mempool_alloc_from_page_. destruct spins_S as [f ->]. cbn [take_loop]. apply mp_bind. eapply wp_load; [exact Eb|]. rewrite wraps_small by lia. destruct (Z.ltb_spec psz (n + k)); [lia|].
  apply mp_bind. eapply wp_atomically; [unfold cas_base; rewrite Eb; cbn [mbind option_bind]; rewrite Z.eqb_refl; unfold put_base; rewrite Ev; reflexivity|]. rewrite Z.eqb_refl. by apply mp_ret.
Qed.

(** What allocation promises. *)
Definition allocated (extra : Z) (live : list Z) (size : Z) (s : state) (p : Z) (s' : state) : Prop :=
  agree live s s' /\ page_size (pool s') = page_size (pool s) /\ mem_limit (pool s') = mem_limit (pool s) /\ mem_total (pool s') = mem_total (pool s) /\
  (p = 0 /\ inv [] [] extra live s' /\ (no_room \/ forall i, 0 <= i < 16384 -> busy s i) \/
   p <> 0 /\ p ∉ live /\ inv [] [] (extra - size) (p :: live) s' /\ length_of s' p = size).

Lemma same_agree live s s' : same s s' -> agree live s s'.
Proof. intros (E & _) c _. unfold header. by rewrite E. Qed.
Lemma agree_trans live s1 s2 s3 : agree live s1 s2 -> agree live s2 s3 -> agree live s1 s3.
Proof. intros H1 H2 c Hc. by rewrite H2, H1. Qed.

Lemma page_loop_spec n extra live s size : inv [] [] extra live s -> fits size -> alloc_size_of size <= page_size (pool s) ->
  wp (page_loop spins (S n) size (alloc_size_of size)) (allocated extra live size s) s.
Proof.
  intros I Hf Hk. pose proof (alloc_size_bounds size Hf) as [Hk1 Hk8]. pose proof Hf as Hf'. unfold fits in Hf'. cbn [page_loop]. apply mp_bind. eapply mp_mono; [apply (get_cur_spec frame spins); [exact I|lia]|]. intros [[p pos]|] s1 [Hs Hgot].
  2: { destruct Hgot as [I1 Hwhy]. apply mp_ret. pose proof (same_agree live _ _ Hs). destruct Hs as (_ & ? & ? & ? & _). split_and!; try done. by left. }
  destruct Hgot as (I1 & Hpos & Hp0 & m & b & Hm & Ep & Eb & Hroom). pose proof (i_size _ _ _ _ _ _ I1) as Hsz. assert (page m <> 0) as Hpm by (by rewrite Ep). assert (page m ∈ pages [] s1) as Hpg by (apply used_pages; by eapply page_used).
  destruct (i_bases _ _ _ _ _ _ I1 (page m)) as (b' & Eb' & Hb & Hb8); [by eapply page_used|]. rewrite Ep, Eb in Eb'. injection Eb' as <-. pose proof (page_aligned frame _ _ _ _ _ _ I1 Hpg) as [Hpos0 Hp8]. rewrite Ep in Hpos0, Hp8, Hpg.
  assert (valid p sizeof_easy_mempool_page_t (mem s1) = true) as Hv by (eapply (page_valid frame); [exact I1|exact Hpg|lia|unfold sizeof_easy_mempool_page_t; lia]).
  pose proof (ref_bounds frame _ _ _ _ _ _ _ I1 ltac:(cbn; lia) Hm) as Hr. assert (0 < ref_cnt m) as Hr0 by (rewrite (i_refs _ _ _ _ _ _ I1 pos m Hm), count_cons, Z.eqb_refl, tally_nil; pose proof (tally_nonneg (at_pos s1 pos) live); destruct (pos =? cur_page_pos (pool s1)); lia).
  apply mp_bind, wp_read. apply mp_bind. eapply wp_take; [unfold get_base; by rewrite Hv|done|lia|lia|exact Hroom|lia|]. set (a := p + sizeof_easy_mempool_page_t + b). set (s2 := State _ _).
  assert (easy_mempool_align_ptr a = a) as ->. { apply (easy_align_id a 3); [lia|]. unfold a, sizeof_easy_mempool_page_t. apply Z.divide_add_r; [apply Z.divide_add_r; [done|by exists 2]|done]. }
  assert (a <> 0) as Ha by (unfold a, sizeof_easy_mempool_page_t; lia). destruct (Z.eqb_spec a 0); [done|]. apply mp_bind. eapply (wp_inc pos m); [done|lia|]. eapply (wp_inc_deref spins); [exact (i_num _ _ _ _ _ _ I1)|lia|done|lia|].
  pose proof (add_buffer frame [] [] extra live s1 pos m b size I1 ltac:(lia) Hm Hpm ltac:(by rewrite Ep) Hf Hroom) as (I3 & Hnew & Hag). rewrite Ep in I3, Hnew, Hag. fold a in I3, Hnew, Hag.
  apply mp_bind. eapply wp_store.
  { unfold put_buf. erewrite (valid_intro _ p); [done|exact (page_lookup frame _ _ _ _ _ _ I1 Hpg)|unfold a, sizeof_easy_mempool_page_t; lia|unfold a, sizeof_easy_mempool_page_t, sizeof_easy_mempool_buf_t; lia]. }
  rewrite wrapu_small by lia. apply mp_ret. split; [eapply agree_trans; [by apply same_agree|exact Hag]|]. destruct Hs as (_ & ? & ? & ? & _). split_and!; try done. right. split; [unfold a, sizeof_easy_mempool_page_t, sizeof_easy_mempool_buf_t; lia|]. split; [exact Hnew|]. split; [exact I3|].
  unfold length_of, header. cbn [mem bufs set_bufs]. rewrite Z.add_simpl_r, lookup_insert_eq. done.
Qed.

Lemma alloc_spec live s size : inv [] [] 0 live s -> fits size -> total (length_of s) live + size < 2 ^ 63 ->
  wp (easy_mempool_alloc spins size) (fun p s' => agree live s s' /\ page_size (pool s') = page_size (pool s) /\ mem_limit (pool s') = mem_limit (pool s) /\
    (p = 0 /\ inv [] [] 0 live s' /\ (mem_limit (pool s) < mem_total (pool s) + size \/ no_room \/ forall i, 0 <= i < 16384 -> busy s i) \/
     p <> 0 /\ p ∉ live /\ inv [] [] 0 (p :: live) s' /\ length_of s' p = size)) s.
Proof.
  intros I Hf Htot. pose proof (alloc_size_bounds size Hf) as [Hk1 Hk8]. pose proof Hf as Hf'. unfold fits in Hf'. pose proof (i_total _ _ _ _ _ _ I) as Et. pose proof (total_pos (length_of s) live ltac:(intros c Hc; exact (length_pos frame _ _ _ _ _ c I Hc))) as Ht0.
  unfold easy_mempool_alloc, easy_mempool_alloc_. apply mp_bind, wp_read. apply mp_bind, wp_read. apply mp_bind, wp_read. rewrite wraps_small by lia. apply mp_bind.
  assert (forall p s1, allocated 0 live size s p s1 -> wp (if p =? 0 then mret 0 else update (fun q => set_mem_total (i64 (mem_total q + size)) q);; mret p)
    (fun p s' => agree live s s' /\ page_size (pool s') = page_size (pool s) /\ mem_limit (pool s') = mem_limit (pool s) /\
     (p = 0 /\ inv [] [] 0 live s' /\ (mem_limit (pool s) < mem_total (pool s) + size \/ no_room \/ forall i, 0 <= i < 16384 -> busy s i) \/ p <> 0 /\ p ∉ live /\ inv [] [] 0 (p :: live) s' /\ length_of s' p = size)) s1) as Hfinish.
  { intros p s1 (Hag & Hps & Hli & Hmt & [(-> & I1 & Hwhy)|(Hp & Hnew & I1 & Hlen)]); [apply mp_ret; split_and!; try done; left; split_and!; try done; by right|].
    destruct (Z.eqb_spec p 0); [done|]. apply mp_bind, wp_update, mp_ret. split_and!; try done. right. split_and!; try done. pose proof (set_total_inv frame [] [] (0 - size) (p :: live) s1 (mem_total (pool s1) + size) I1 ltac:(lia)) as I2. rewrite wraps_small by lia. replace (0 - size + (mem_total (pool s1) + size - mem_total (pool s1))) with 0 in I2 by lia. exact I2. }
  destruct (Z.ltb_spec (mem_limit (pool s)) (mem_total (pool s) + size)) as [Hlim|_]; [apply mp_ret; change (0 =? 0) with true; cbv iota; apply mp_ret; split_and!; try done; left; split_and!; try done; by left|].
  destruct (Z.ltb_spec (page_size (pool s)) (alloc_size_of size)) as [Hbig|Hsmall].
  - apply mp_bind. rewrite wrapu_small by lia. set (k := alloc_size_of size) in *. pose proof (memalign_fresh (calls (mem s)) (blocks (mem s)) k ltac:(lia)) as Hfresh. eapply wp_atomically; [unfold memalign; reflexivity|]. set (a := memalign_at _ _ _) in *.
    destruct Hfresh as [E|(Ha & Ha8 & Hnone & Hd)].
    + rewrite E. cbn [Z.eqb]. apply mp_ret, (Hfinish 0). split_and!; try done. left. split; [done|]. split; [constructor; by apply I|]. left. by exists (calls (mem s)), (blocks (mem s)), k.
    + assert ((a =? 0) = false) as Ea by (apply Z.eqb_neq; lia). rewrite Ea. set (pp := match bufs (mem s) !! a with Some b => page_pos b | None => 0 end). destruct (add_direct frame [] [] 0 live s a pp size I Hf Ha Ha8 Hnone Hd) as (I1 & Hnew & Hag).
      apply mp_bind. eapply wp_store; [unfold write_direct, put_buf; erewrite (valid_intro _ a k); [done|apply lookup_insert_eq|lia|unfold sizeof_easy_mempool_buf_t; lia]|]. apply mp_bind, wp_update. apply mp_ret, Hfinish. split; [exact Hag|]. split_and!; try done. right. split; [unfold sizeof_easy_mempool_buf_t; lia|]. split; [exact Hnew|]. split; [exact I1|].
      unfold length_of, header. cbn [mem bufs set_bufs]. rewrite Z.add_simpl_r, lookup_insert_eq. done.
  - destruct spins_S as [n En]. rewrite En at 2. eapply mp_mono; [by apply page_loop_spec|exact Hfinish].
Qed.

(** ** Freeing *)

Lemma get_buf_live held mine extra live s b : inv held mine extra live s -> b ∈ live -> exists h, header s b = Some h /\ magic_num h = EASY_MEMPOOL_BUF_MAGIC_NUM /\ fits (size h) /\ (alloc_type h = EASY_MEMPOOL_DIRECT_ALLOC \/ alloc_type h = EASY_MEMPOOL_ALLOC /\ 0 <= page_pos h < 16384) /\
  valid (b - sizeof_easy_mempool_buf_t) (sizeof_easy_mempool_buf_t + size h) (mem s) = true /\ valid (b - sizeof_easy_mempool_buf_t) sizeof_easy_mempool_buf_t (mem s) = true.
Proof.
  intros I Hb. destruct (i_bufs _ _ _ _ _ _ I b Hb) as (h & E & Hmg & Hf & _ & Ht). exists h. pose proof (alloc_size_bounds (size h) Hf) as [Hk _]. destruct (region frame _ _ _ _ _ _ I Hb) as (q & k & Eq & H1 & H2 & _). unfold extent in H2. rewrite E in H2. pose proof Hf as Hf'. unfold fits in Hf'.
  split_and!; try done; [|eapply valid_intro; [exact Eq|lia|unfold sizeof_easy_mempool_buf_t in *; lia]..].
  destruct Ht as [|[? (m & n & [Hi Em] & _)]]; [by left|right]. split; [done|]. apply lookup_lt_Some in Em. pose proof (i_metas _ _ _ _ _ _ I). lia.
Qed.

Lemma free_spec live s b : inv [] [] 0 (b :: live) s ->
  wp (easy_mempool_free spins b) (fun _ s' => inv [] [] 0 live s' /\ agree live s s' /\ page_size (pool s') = page_size (pool s) /\ mem_limit (pool s') = mem_limit (pool s)) s.
Proof.
  intros I. destruct (get_buf_live _ _ _ _ _ b I ltac:(by left)) as (h & Eh & Hmg & Hf & Ht & _ & Hv). unfold easy_mempool_free. destruct (Z.eqb_spec b 0) as [->|Hb0].
  { exfalso. destruct (region frame _ _ _ _ _ 0 I ltac:(by left)) as (q & k & Eq & Hq & _). destruct (i_aligned _ _ _ _ _ _ I _ _ Eq). unfold sizeof_easy_mempool_buf_t in Hq. lia. }
  apply mp_bind. eapply wp_load; [unfold get_buf; rewrite Hv; exact Eh|]. rewrite Hmg, Z.eqb_refl. apply mp_bind. eapply wp_store; [unfold put_buf; by rewrite Hv|]. destruct Ht as [Ht|[Ht Hpos]].
  - destruct (remove_direct frame [] [] 0 live s b h I Eh Ht) as (Ea & I1 & Hag). pose proof (size_le_total frame _ _ _ _ _ _ I Eh) as Hle. pose proof (i_range _ _ _ _ _ _ I) as Hrange.
    rewrite Ht in *. cbn [Z.eqb EASY_MEMPOOL_DIRECT_ALLOC]. apply mp_bind, mp_bind. eapply wp_store; [unfold free_block; cbn [mem set_bufs blocks]; by rewrite Ea|]. apply wp_update, wp_update. split; [|by split_and!].
    cbn [pool set_direct_alloc_cnt mem_total] in *. unfold fits in Hf. pose proof (set_total_inv frame [] [] (0 + size h) live _ (mem_total (pool s) - size h) I1 ltac:(lia)) as I2. cbn [pool set_direct_alloc_cnt mem_total] in *.
    rewrite (wraps_small 64) by lia. replace (0 + size h + (mem_total (pool s) - size h - mem_total (pool s))) with 0 in I2 by lia. exact I2.
  - destruct (remove_buffer frame [] [] 0 live s b h I Eh Ht) as (I1 & Hag). pose proof (size_le_total frame _ _ _ _ _ _ I Eh) as Hle. pose proof (i_range _ _ _ _ _ _ I) as Hrange. rewrite Ht in *. cbn [Z.eqb EASY_MEMPOOL_DIRECT_ALLOC EASY_MEMPOOL_ALLOC].
    apply mp_bind. eapply mp_mono; [apply (deref_spec frame spins [] [] _ live _ (page_pos h) I1); [cbn; lia|done]|]. intros _ s' (I2 & Hs & _). apply wp_update. pose proof Hs as (_ & Esz & Eli & Emt & _). cbn [pool mem_total] in *.
    assert (agree live s s') as Hag' by (eapply agree_trans; [exact Hag|by apply same_agree]). split; [|by split_and!]. unfold fits in Hf. pose proof (set_total_inv frame [] [] (0 + size h) live s' (mem_total (pool s') - size h) I2 ltac:(lia)) as I3.
    rewrite (wraps_small 64) by lia. replace (0 + size h + (mem_total (pool s') - size h - mem_total (pool s'))) with 0 in I3 by lia. exact I3.
Qed.

(** ** Clearing *)

(** Freeing a page does not look at the positions. *)
Lemma free_page_with p i m s : match run (easy_mempool_free_page_ p) s with
  | Some (a, s') => page_metas (pool s') = page_metas (pool s) /\ run (easy_mempool_free_page_ p) (with_meta i m s) = Some (a, with_meta i m s')
  | None => run (easy_mempool_free_page_ p) (with_meta i m s) = None
  end.
Proof.
  unfold easy_mempool_free_page_. destruct (p =? 0); [done|]. cbn. destruct (free_num (pool s) <? _).
  - by destruct (valid _ _ _).
  - cbn. unfold free_block. by destruct (blocks (mem s) !! p).
Qed.

Definition in_use (live : list Z) (s : state) (i : Z) : bool := negb (count (at_pos s i) live =? 0).

Lemma clear_loop_spec n i live s : inv [] [] 0 live s -> 0 <= i -> i + Z.of_nat n <= 16384 ->
  wp (clear_loop n i) (fun r s' => inv [] [] 0 live s' /\ same s s' /\ r = count (in_use live s) (seqZ i (Z.of_nat n)) /\
    (forall j m, meta_at s' j m -> j < i -> meta_at s j m) /\ (forall j m, meta_at s' j m -> i <= j < i + Z.of_nat n -> in_use live s j = false -> page m = 0)) s.
Proof.
  revert i s. induction n as [|n IH]; intros i s I Hi Hn; cbn [clear_loop].
  - apply mp_ret. split; [done|]. split; [apply same_refl|]. split; [done|]. split; [done|]. intros; lia.
  - destruct (meta_exists frame _ _ _ _ _ i I ltac:(lia)) as [m Hm]. pose proof (i_refs _ _ _ _ _ _ I i m Hm) as Er. rewrite tally_nil in Er. pose proof (tally_nonneg (at_pos s i) live) as Hc.
    apply mp_bind. eapply wp_on_meta; [done|]. cbn [fst snd]. rewrite (with_meta_same _ _ _ Hm). apply mp_bind, wp_read.
    assert ((ref_cnt m =? 0) || (i =? cur_page_pos (pool s)) && (ref_cnt m =? 1) = negb (in_use live s i)) as ->.
    { unfold in_use. rewrite Er. destruct (Z.eqb_spec i (cur_page_pos (pool s))), (Z.eqb_spec (count (at_pos s i) live) 0) as [->|]; cbn [andb orb negb]; try done; [destruct (Z.eqb_spec (count (at_pos s i) live + 1 + 0) 0), (Z.eqb_spec (count (at_pos s i) live + 1 + 0) 1)|destruct (Z.eqb_spec (count (at_pos s i) live + 0 + 0) 0)]; lia || done. }
    rewrite Nat2Z.inj_succ, seqZ_cons by lia. replace (Z.pred (Z.succ (Z.of_nat n))) with (Z.of_nat n) by lia. change (Z.succ i) with (i + 1) in *. rewrite count_cons. apply mp_bind.
    assert (forall r s1, inv [] [] 0 live s1 -> same s s1 -> r = (if in_use live s i then 1 else 0) -> (forall j m1, j <> i -> meta_at s1 j m1 -> meta_at s j m1) -> (forall m1, meta_at s1 i m1 -> in_use live s i = false -> page m1 = 0) ->
      wp (clear_loop n (i + 1) ≫= fun rest => mret (r + rest)) (fun r s' => inv [] [] 0 live s' /\ same s s' /\ r = (if in_use live s i then 1 else 0) + count (in_use live s) (seqZ (i + 1) (Z.of_nat n)) /\
        (forall j m, meta_at s' j m -> j < i -> meta_at s j m) /\ (forall j m, meta_at s' j m -> i <= j < i + Z.succ (Z.of_nat n) -> in_use live s j = false -> page m = 0)) s1) as Hrest.
    { intros r s1 I1 Hs Hr Hbefore Hat. apply mp_bind. eapply mp_mono; [apply (IH (i + 1) s1 I1); lia|]. intros rest s2 (I2 & Hs2 & Erest & Hb2 & Ha2). assert (forall j, in_use live s1 j = in_use live s j) as Huse by (intros j; unfold in_use; by rewrite (agree_count live s s1) by (by apply same_agree)).
      apply mp_ret. split; [done|]. split; [by eapply same_trans|]. split; [subst r rest; f_equal; by apply count_ext|]. split; [intros j m1 Hm1 Hj; apply Hbefore; [lia|]; apply Hb2; [done|lia]|]. intros j m1 Hm1 Hj Hu. destruct (decide (j = i)) as [->|Hji]; [apply (Hat m1); [apply Hb2; [done|lia]|done]|]. apply (Ha2 j m1); [done|lia|by rewrite Huse]. }
    destruct (in_use live s i) eqn:Euse; cbn [negb].
    + apply mp_ret. apply (Hrest 1 s); try done.
    + unfold in_use in Euse. apply negb_false_iff, Z.eqb_eq in Euse. set (m' := Meta (ref_cnt m) (seq_num m) 0). assert (inv [] (nonzero (page m)) 0 live (with_meta i m' s)) as I1.
      { eapply with_meta_inv; [exact I|done|by rewrite app_nil_r|cbn [m' ref_cnt]; rewrite tally_nil; lia|done|done|by right]. }
      assert (forall s1, inv [] [] 0 live (with_meta i m' s1) -> same (with_meta i m' s) (with_meta i m' s1) -> page_metas (pool s1) = page_metas (pool s) -> wp (on_meta i (fun m => (0, Meta (ref_cnt m) (seq_num m) 0))) (fun used => wp (clear_loop n (i + 1) ≫= fun rest => mret (used + rest)) (fun r s' => inv [] [] 0 live s' /\ same s s' /\ r = 0 + count (in_use live s) (seqZ (i + 1) (Z.of_nat n)) /\
        (forall j m, meta_at s' j m -> j < i -> meta_at s j m) /\ (forall j m, meta_at s' j m -> i <= j < i + Z.succ (Z.of_nat n) -> in_use live s j = false -> page m = 0))) s1) as Hset.
      { intros s1 I2 Hs1 Hme. eapply (wp_on_meta i _ m); [destruct Hm; split; [done|by rewrite Hme]|]. cbn [fst snd]. apply Hrest; try done.
        - intros j m1 Hj Hm1. destruct (meta_at_inv s1 i j m1 m' Hi Hm1) as [[? _]|[_ [Hj0 Ej]]]; [done|]. split; [done|]. by rewrite <- Hme.
        - intros m1 Hm1 _. destruct (meta_at_inv s1 i i m1 m' Hi Hm1) as [[_ ->]|[? _]]; done. }
      destruct (decide (page m = 0)) as [Ep|Ep].
      * rewrite Ep in *. apply mp_bind, mp_ret. exact (Hset s I1 (same_refl _) eq_refl).
      * assert (nonzero (page m) = [page m]) as Enz by (unfold nonzero; by destruct (Z.eqb_spec (page m) 0)). rewrite Enz in I1. destruct (free_page_spec frame [] [] 0 live _ (page m) I1) as (u & s1' & Erun & I2 & Hs2 & _).
        pose proof (free_page_with (page m) i m' s) as Hcomm. destruct (run (easy_mempool_free_page_ (page m)) s) as [[u0 s1]|] eqn:E0; [|by rewrite Erun in Hcomm]. destruct Hcomm as [Hme Hcomm]. rewrite Erun in Hcomm. injection Hcomm as -> ->.
        apply mp_bind. exists u0, s1. split; [done|]. exact (Hset s1 I2 Hs2 Hme).
Qed.

(** The free list, as far as it has not been freed. *)
Definition with_free (l : list Z) (s : state) : state := State (mem s) (set_free (Z.of_nat (length l)) l (pool s)).

Lemma free_all_spec l live s : inv [] [] 0 live (with_free l s) ->
  wp (free_all l) (fun _ s' => inv [] [] 0 live (with_free [] s') /\ pool s' = pool s /\ bufs (mem s') = bufs (mem s)) s.
Proof.
  revert s. induction l as [|p l IH]; intros s I; cbn [free_all]; [by apply mp_ret|]. assert (p ∈ pages [] (with_free (p :: l) s)) as Hp by (unfold pages; cbn; rewrite !elem_of_app; right; left; by left).
  pose proof (page_lookup frame _ _ _ _ _ _ I Hp) as Ep. cbn [mem with_free] in Ep. apply mp_bind. eapply wp_store; [unfold free_block; by rewrite Ep|]. pose proof (i_free _ _ _ _ _ _ I) as [_ Hlen]. cbn [pool with_free set_free free_num length] in Hlen.
  eapply mp_mono; [apply IH|intros _ s' (I' & Hpo & Hbu); by split_and!]. constructor; try (by apply I); cbn [pool mem with_free set_free set_blocks blocks free_list free_num].
  - apply (Permutation_cons_inv (a := page_block s p)). rewrite app_comm_cons. unfold page_block at 1. cbn [pool with_free set_free page_size] in Ep. rewrite (map_to_list_delete (blocks (mem s)) p _ Ep). rewrite (i_blocks _ _ _ _ _ _ I : map_to_list (blocks (mem s)) ≡ₚ _). apply Permutation_app_tail. unfold owned. cbn [pool with_free set_free page_metas free_list].
    rewrite app_comm_cons. apply Permutation_app_tail. change (page_block s p :: map ?f ?x) with (map (page_block s) (p :: x)). symmetry. apply (Permutation_map (page_block s)), Permutation_middle.
  - intros a n b m Ha Hb. apply lookup_delete_Some in Ha as [_ Ha], Hb as [_ Hb]. by apply (i_disjoint _ _ _ _ _ _ I).
  - intros a n Ha. apply lookup_delete_Some in Ha as [_ Ha]. by apply (i_aligned _ _ _ _ _ _ I a n).
  - split; [done|]. lia.
Qed.

Lemma mempool_clear_spec live s : inv [] [] 0 live s ->
  wp easy_mempool_clear (fun n s' => inv [] [] 0 live (with_free [] s') /\ n = count (in_use live s) (seqZ 0 16384) /\ agree live s s' /\
    forall i m, meta_at s' i m -> in_use live s i = false -> page m = 0) s.
Proof.
  intros I. unfold easy_mempool_clear. apply mp_bind. eapply mp_mono; [apply clear_loop_spec; [exact I|lia|done]|]. intros n s1 (I1 & Hs & -> & _ & Hpages). apply mp_bind. unfold easy_mempool_destroy_free_list_. apply mp_bind, wp_read.
  eapply mp_mono; [apply free_all_spec|].
  { replace (with_free (free_list (pool s1)) s1) with s1; [exact I1|]. unfold with_free. destruct (i_free _ _ _ _ _ _ I1) as [<- _]. by destruct s1 as [? []]. }
  assert (Z.of_nat (Z.to_nat EASY_MEMPOOL_PAGE_MAX_NUM) = 16384) as E16 by (by apply Z2Nat.id). rewrite E16 in *.
  intros _ s2 (I2 & Epo & Ebu). apply mp_ret. split; [exact I2|]. split; [done|]. split; [intros c Hc; unfold header; rewrite Ebu; by apply (same_agree live s s1)|].
  intros i m [Hi Em] Hu. rewrite Epo in Em. refine (Hpages i m (conj Hi Em) _ Hu). apply lookup_lt_Some in Em. pose proof (i_metas _ _ _ _ _ _ I1). lia.
Qed.

(** With nothing handed out, only the blocks of others are left. *)
Lemma clear_all s s' : inv [] [] 0 [] (with_free [] s') -> (forall i m, meta_at s' i m -> in_use [] s i = false -> page m = 0) -> blocks (mem s') = frame.
Proof.
  intros I Hp. apply map_to_list_inj. rewrite (i_blocks _ _ _ _ _ _ I : map_to_list (blocks (mem s')) ≡ₚ _). unfold owned. cbn [List.filter map]. cbn [pool with_free set_free page_metas free_list]. rewrite !app_nil_r.
  destruct (used (page_metas (pool s'))) as [|p l] eqn:E; [done|]. exfalso. assert (p ∈ used (page_metas (pool s'))) as Hin by (rewrite E; by left). apply used_spec in Hin as [Hp0 (m & Hm & <-)]. apply list_elem_of_lookup in Hm as [j Ej].
  apply Hp0, (Hp (Z.of_nat j) m); [split; [lia|by rewrite Nat2Z.id]|done].
Qed.

Lemma inv_perm held mine extra live live' s : inv held mine extra live s -> live ≡ₚ live' -> inv held mine extra live' s.
Proof.
  intros I Hp. assert (forall f, total f live = total f live') as Htot by (intros f; clear I; induction Hp; cbn [total]; lia). constructor; try (by apply I).
  - rewrite (i_blocks _ _ _ _ _ _ I). apply Permutation_app_tail. unfold owned. apply Permutation_app_head, Permutation_map. by apply filter_perm.
  - intros i m Hm. rewrite <- (count_perm _ _ _ Hp). by apply (i_refs _ _ _ _ _ _ I).
  - rewrite <- Hp. apply I.
  - intros b Hb. rewrite <- Hp in Hb. by apply (i_bufs _ _ _ _ _ _ I).
  - intros b c Hb Hc. rewrite <- Hp in Hb, Hc. by apply (i_apart _ _ _ _ _ _ I).
  - intros i m n. rewrite <- (count_perm _ _ _ Hp). by apply (i_count _ _ _ _ _ _ I).
  - rewrite <- Htot. apply I.
  - rewrite <- (count_perm _ _ _ Hp). apply I.
Qed.
End alone.

(** ** A pool in one thread *)

(** Others have blocks, which do not overlap. *)
Definition memory_ok (m : memory) : Prop :=
  (forall a n b k, blocks m !! a = Some n -> blocks m !! b = Some k -> a <> b -> a + n <= b \/ b + k <= a) /\ (forall a n, blocks m !! a = Some n -> 0 < a /\ (8 | a)).

Lemma used_none n : used (replicate n (Meta 0 0 0)) = [].
Proof. induction n as [|n IH]; [done|]. cbn [replicate]. by rewrite used_cons, IH. Qed.

Lemma create_inv `{MemalignLaws} size m a q m' : memory_ok m -> 0 <= size < 2 ^ 31 - 16 -> easy_mempool_create size m = (Some (a, q), m') -> inv (blocks m') [] [] 0 [] (State m' q) /\ page_size q = (if size =? 0 then EASY_MEMPOOL_PAGE_SIZE else size) /\ mem_limit q = 2 ^ 63 - 1.
Proof.
  intros [Hd Ha] Hsize. unfold easy_mempool_create, memalign. set (k := sizeof_easy_mempool_t + _). pose proof (memalign_fresh (calls m) (blocks m) k ltac:(done)) as Hf. set (x := memalign_at _ _ _) in *. destruct (Z.eqb_spec x 0) as [|Hx]; [done|]. intros [= <- <- <-].
  destruct Hf as [|(Hx0 & Hx8 & Hnone & Hdx)]; [done|]. assert (page_size (new_pool size) = if size =? 0 then EASY_MEMPOOL_PAGE_SIZE else size) as Eps by (cbn [new_pool page_size]; destruct (size =? 0); [done|apply wraps_small; lia]). split; [|done].
  assert (forall i mt, meta_at (State (Memory (S (calls m)) (<[x := k]> (blocks m)) (bases m) (bufs m)) (new_pool size)) i mt -> mt = (if i =? 0 then Meta 1 0 0 else Meta 0 0 0)) as Hmeta.
  { intros i mt [Hi E]. cbn [pool new_pool page_metas] in E. destruct (Z.eqb_spec i 0) as [->|Hi0]; [by injection E|]. destruct (Z.to_nat i) as [|j] eqn:Ej; [lia|]. cbn [lookup list_lookup] in E. apply lookup_replicate in E. by destruct E. }
  constructor.
  - cbn [pool new_pool page_metas]. cbn [length]. rewrite length_replicate. done.
  - done.
  - done.
  - cbn [pool]. rewrite Eps. destruct (Z.eqb_spec size 0); [done|lia].
  - unfold owned. cbn [pool new_pool page_metas free_list]. rewrite used_cons, used_none. done.
  - intros b n c j Hb Hc Hbc. cbn in Hb, Hc. rewrite !lookup_insert_Some in Hb, Hc. destruct Hb as [[<- <-]|[_ Hb]], Hc as [[<- <-]|[_ Hc]]; [done|by apply Hdx|destruct (Hdx b n Hb); [by right|by left]|by apply Hd].
  - intros b n Hb. cbn in Hb. rewrite lookup_insert_Some in Hb. destruct Hb as [[<- <-]|[_ Hb]]; [done|by apply (Ha b n)].
  - intros p Hp. cbn [pool new_pool page_metas] in Hp. rewrite used_cons, used_none in Hp. by apply elem_of_nil in Hp.
  - intros i mt Hm. rewrite (Hmeta i mt Hm). rewrite !tally_nil. cbn [pool new_pool cur_page_pos]. by destruct (i =? 0).
  - intros i mt Hm _. rewrite (Hmeta i mt Hm). by destruct (i =? 0).
  - constructor.
  - intros b Hb. by apply elem_of_nil in Hb.
  - intros b c Hb. by apply elem_of_nil in Hb.
  - intros i mt n Hm Hp. rewrite (Hmeta i mt Hm) in Hp. by destruct (i =? 0).
  - done.
  - done.
  - done.
  - done.
Qed.

(** What a thread does with a pool: asking for a buffer, and giving back one of those
    it has, by its place in the list. *)
Inductive op := Alloc (size : Z) | Free (i : nat).

(** The buffers it has in the end, with their sizes. *)
Fixpoint run_ops `{Memalign} (spins : nat) (os : list op) (live : list (Z * Z)) (s : state) : option (list (Z * Z) * state) :=
  match os with
  | [] => Some (live, s)
  | Alloc size :: os => x ← run (easy_mempool_alloc spins size) s; run_ops spins os (if fst x =? 0 then live else (fst x, size) :: live) (snd x)
  | Free i :: os =>
      match live !! i with
      | Some b => x ← run (easy_mempool_free spins (fst b)) s; run_ops spins os (delete i live) (snd x)
      | None => run_ops spins os live s
      end
  end.

Definition requested (os : list op) : Z := total (fun n => n) (omap (fun o => match o with Alloc n => Some n | Free _ => None end) os).

(** The sizes of the headers are those of the list. *)
Definition sizes_ok (live : list (Z * Z)) (s : state) : Prop := Forall (fun b => length_of s (fst b) = snd b) live.

Lemma sizes_agree live s s' : sizes_ok live s -> agree (map fst live) s s' -> sizes_ok live s'.
Proof. intros Hs Ha. apply list.Forall_forall. intros b Hb. pose proof (proj1 (list.Forall_forall _ _) Hs b Hb) as E. rewrite <- E. unfold length_of. by rewrite Ha by (apply list_elem_of_In, in_map, list_elem_of_In, Hb). Qed.

Lemma sizes_total live s : sizes_ok live s -> total (length_of s) (map fst live) = total id (map snd live).
Proof. induction 1 as [|b live Hb _ IH]; [done|]. cbn [map total]. by rewrite Hb, IH. Qed.

(** Every buffer is inside a block, aligned, and apart from the others. *)
Definition served (live : list (Z * Z)) (s : state) : Prop :=
  (forall p n, (p, n) ∈ live -> p <> 0 /\ (8 | p) /\ valid p n (mem s) = true) /\
  (forall i j p n q k, live !! i = Some (p, n) -> live !! j = Some (q, k) -> i <> j -> p + n <= q \/ q + k <= p).

Lemma inv_served frame `{MemalignLaws} live s : inv frame [] [] 0 (map fst live) s -> sizes_ok live s -> served live s.
Proof.
  intros I Hs. split.
  - intros p n Hb. assert (p ∈ map fst live) as Hp by (apply list_elem_of_In, in_map_iff; exists (p, n); split; [done|by apply list_elem_of_In]). destruct (get_buf_live frame _ _ _ _ _ p I Hp) as (h & E & _ & Hf & _ & Hv & _). pose proof (proj1 (list.Forall_forall _ _) Hs _ Hb) as Hn. cbn in Hn. unfold length_of in Hn. rewrite E in Hn. subst n.
    destruct (i_bufs _ _ _ _ _ _ I p Hp) as (h' & _ & _ & _ & H8 & _). destruct (region frame _ _ _ _ _ _ I Hp) as (q & k & Eq & Hq & Hk & _). destruct (i_aligned _ _ _ _ _ _ I _ _ Eq) as [Hq0 _]. unfold extent in Hk. rewrite E in Hk. pose proof (alloc_size_bounds (size h) Hf). unfold sizeof_easy_mempool_buf_t in *. split; [lia|]. split; [done|]. eapply valid_intro; [exact Eq|lia|lia].
  - intros i j p n q k Hi Hj Hij. assert (forall x y, (x, y) ∈ live -> x ∈ map fst live /\ y + 16 <= extent s x) as Hex.
    { intros x y Hb. assert (x ∈ map fst live) as Hx by (apply list_elem_of_In, in_map_iff; exists (x, y); split; [done|by apply list_elem_of_In]). split; [done|]. destruct (i_bufs _ _ _ _ _ _ I x Hx) as (h & E & _ & Hf & _). pose proof (proj1 (list.Forall_forall _ _) Hs _ Hb) as Hn. cbn in Hn. unfold length_of in Hn. unfold extent. rewrite E in *. subst y. pose proof (alloc_size_bounds (size h) Hf). lia. }
    destruct (Hex p n (list_elem_of_lookup_2 _ _ _ Hi)) as [Hp Hpe], (Hex q k (list_elem_of_lookup_2 _ _ _ Hj)) as [Hq Hqe]. assert (p <> q) as Hpq.
    { intros ->. pose proof (i_nodup _ _ _ _ _ _ I) as Hnd. apply Hij. eapply (NoDup_lookup (map fst live)); [done|change (map fst live) with (fst <$> live); rewrite list_lookup_fmap, Hi; done|change (map fst live) with (fst <$> live); by rewrite list_lookup_fmap, Hj]. }
    pose proof (i_apart _ _ _ _ _ _ I p q Hp Hq Hpq) as Ha. unfold apart, sizeof_easy_mempool_buf_t in Ha. lia.
Qed.

Definition op_ok (o : op) : Prop := match o with Alloc n => fits n | Free _ => True end.

Lemma run_ops_inv frame `{MemalignLaws} spins `{!Enough spins} os live s : inv frame [] [] 0 (map fst live) s -> sizes_ok live s -> Forall op_ok os -> mem_total (pool s) + requested os < 2 ^ 63 ->
  exists live' s', run_ops spins os live s = Some (live', s') /\ inv frame [] [] 0 (map fst live') s' /\ sizes_ok live' s'.
Proof.
  revert live s. induction os as [|[size|i] os IH]; intros live s I Hs Hos Htot; [by exists live, s| |]; apply list.Forall_cons in Hos as [Ho Hos]; cbn [run_ops op_ok] in *.
  - change (requested (Alloc size :: os)) with (size + requested os) in Htot. assert (0 <= requested os) as Hreq.
    { apply total_pos. intros n Hn. apply list_elem_of_omap in Hn as ([n'|] & Hin & [= ->]). apply (proj1 (list.Forall_forall _ _) Hos) in Hin. apply Hin. }
    pose proof (i_total _ _ _ _ _ _ I) as Et. destruct (alloc_spec frame spins (map fst live) s size I Ho ltac:(lia)) as (p & s1 & E & Hag & _ & _ & [(-> & I1 & _)|(Hp & Hnew & I1 & Hlen)]); rewrite E; cbn [mbind option_bind fst snd].
    + assert (sizes_ok live s1) as Hs1 by (by apply (sizes_agree live s)). apply IH; try done. pose proof (i_total _ _ _ _ _ _ I1) as Et1. rewrite (sizes_total live s1) in Et1 by done. rewrite (sizes_total live s) in Et by done. unfold fits in Ho. lia.
    + destruct (Z.eqb_spec p 0); [done|]. assert (sizes_ok ((p, size) :: live) s1) as Hs1 by (constructor; [done|by apply (sizes_agree live s)]). apply IH; try done. pose proof (i_total _ _ _ _ _ _ I1) as Et1. pose proof (sizes_total _ _ Hs1) as Es. cbn [map total fst snd id] in Es, Et1. change (id size) with size in Es. rewrite (sizes_total live s) in Et by done. lia.
  - change (requested (Free i :: os)) with (requested os) in Htot. destruct (live !! i) as [[p n]|] eqn:E; [|by apply IH]. pose proof (delete_Permutation live i (p, n) E) as Hperm. assert (inv frame [] [] 0 (p :: map fst (delete i live)) s) as I0 by (eapply inv_perm; [exact I|by rewrite Hperm at 1]).
    assert (sizes_ok (delete i live) s) as Hs0 by (unfold sizes_ok in *; rewrite Hperm in Hs; by apply list.Forall_cons in Hs as [_ Hs]). destruct (free_spec frame spins _ s p I0) as ([] & s1 & E1 & I1 & Hag & _). cbn [fst]. rewrite E1. cbn [mbind option_bind snd].
    assert (sizes_ok (delete i live) s1) as Hs1 by (by apply (sizes_agree (delete i live) s)). apply IH; try done. pose proof (i_total _ _ _ _ _ _ I0) as Et. pose proof (i_total _ _ _ _ _ _ I1) as Et1. cbn [total] in Et. rewrite (sizes_total (delete i live) s1) in Et1 by done. rewrite (sizes_total (delete i live) s) in Et by done. pose proof (length_pos frame _ _ _ _ _ p I0 ltac:(by left)). lia.
Qed.

(** C28 (safety).  A new pool whose pages have less than 2^31 - 16 bytes, used by one
    thread that asks for sizes below 2^31 - 32, less than 2^63 bytes in all, and gives
    them back in whatever order; memalign returns NULL or memory that nobody has.
    Nothing outside of what memalign gave is used; every buffer the thread has lies
    inside a block, aligned to a long, apart from the others; the bytes are counted
    exactly, and what others have allocated is left alone.  Clearing the pool
    afterwards leaves these buffers, and gives back all memory of the pool if there are
    none. *)
Theorem mempool_alone `{MemalignLaws} spins `{!Enough spins} m size a q m' os : memory_ok m -> 0 <= size < 2 ^ 31 - 16 -> easy_mempool_create size m = (Some (a, q), m') ->
  Forall op_ok os -> requested os < 2 ^ 63 ->
  exists live s n s', run_ops spins os [] (State m' q) = Some (live, s) /\ served live s /\ mem_total (pool s) = total id (map snd live) /\ blocks m' ⊆ blocks (mem s) /\
    run easy_mempool_clear s = Some (n, s') /\ served live s' /\ (live = [] -> n = 0 /\ blocks (mem s') = blocks m').
Proof.
  intros Hm Hsize Hcreate Hos Hreq. destruct (create_inv size m a q m' Hm Hsize Hcreate) as (I0 & _). pose proof (i_total _ _ _ _ _ _ I0) as E0. cbn [total] in E0. destruct (run_ops_inv (blocks m') spins os [] (State m' q) I0 ltac:(constructor) Hos ltac:(lia)) as (live & s & E & I & Hs).
  destruct (mempool_clear_spec (blocks m') (map fst live) s I) as (n & s' & E' & I' & -> & Hag & Hpages). exists live, s, (count (in_use (map fst live) s) (seqZ 0 16384)), s'. split; [done|]. split; [by eapply inv_served|]. pose proof (i_total _ _ _ _ _ _ I) as Et. rewrite (sizes_total live s) in Et by done. split; [lia|]. split.
  { apply map_subseteq_spec. intros x k Hx. apply elem_of_map_to_list. rewrite (i_blocks _ _ _ _ _ _ I). apply elem_of_app. right. by apply elem_of_map_to_list. }
  split; [done|]. split; [exact (inv_served (blocks m') live (with_free [] s') I' (sizes_agree live s _ Hs Hag))|]. intros ->. split; [|by eapply clear_all]. by apply count_zero.
Qed.

(** ** Examples *)

#[local] Existing Instance bump_memalign.

Lemma bump_top_spec (b : gmap Z Z) : 4096 <= bump_top b /\ (8 | bump_top b) /\ forall a n, b !! a = Some n -> a < bump_top b /\ a + n <= bump_top b.
Proof.
  unfold bump_top. apply (map_fold_weak_ind (fun top (b : gmap Z Z) => 4096 <= top /\ (8 | top) /\ forall a n, b !! a = Some n -> a < top /\ a + n <= top)).
  - split; [lia|]. split; [by exists 512|]. intros a n E. by rewrite lookup_empty in E.
  - intros i x b' top _ (H1 & H2 & H3). cbv zeta. set (e := i + Z.max x 8). pose proof (Z.mod_pos_bound (- e) 8 ltac:(lia)). split; [lia|]. split.
    + destruct (Z.max_spec top (e + (- e) mod 8)) as [[_ ->]|[_ ->]]; [|done]. apply Z.mod_divide; [lia|]. rewrite Zplus_mod_idemp_r. by rewrite Z.add_opp_diag_r.
    + intros a n E. apply lookup_insert_Some in E as [[<- <-]|[_ E]]; [unfold e in *; lia|]. specialize (H3 a n E). lia.
Qed.

#[local] Instance bump_laws : MemalignLaws.
Proof.
  intros k b size Hs. right. unfold memalign_at, bump_memalign. destruct (bump_top_spec b) as (H1 & H2 & H3). split; [lia|]. split; [done|]. split.
  - destruct (b !! bump_top b) as [n|] eqn:E; [|done]. destruct (H3 _ _ E). lia.
  - intros c n E. right. by apply H3.
Qed.

#[local] Instance four_enough : Enough 4.
Proof. unfold Enough. lia. Qed.

(** A page is filled, another begun, and a buffer larger than a page made; the first
    page goes back, and its memory is used again. *)
Definition demo_ops : list op := [Alloc 40; Alloc 100; Alloc 300; Free 2; Alloc 100; Alloc 40].

Definition demo_memory : memory := snd (easy_mempool_create 128 no_memory).
Lemma demo_create : easy_mempool_create 128 no_memory = (Some (4096, new_pool 128), demo_memory).
Proof. reflexivity. Qed.

Lemma mempool_alone_witness : exists live s n s', run_ops 4 demo_ops [] (State demo_memory (new_pool 128)) = Some (live, s) /\
  served live s /\ mem_total (pool s) = 540 /\ map snd live = [40; 100; 300; 100] /\ run easy_mempool_clear s = Some (n, s') /\ served live s'.
Proof.
  destruct (mempool_alone 4 no_memory 128 4096 (new_pool 128) demo_memory demo_ops) as (live & s & n & s' & Hrun & Hs & Ht & Hb & Hc & Hs' & _); [split; intros ? ? ?; discriminate|lia|exact demo_create|repeat constructor; unfold op_ok, fits; lia|reflexivity|].
  exists live, s, n, s'. split; [exact Hrun|]. split; [exact Hs|].
  assert (option_map (fun x => (mem_total (pool (snd x)), map snd (fst x))) (run_ops 4 demo_ops [] (State demo_memory (new_pool 128))) = Some (540, [40; 100; 300; 100])) as Ev by (vm_compute; reflexivity).
  revert Ev Hrun. generalize (run_ops 4 demo_ops [] (State demo_memory (new_pool 128))) as r. intros r Ev ->. cbn [option_map fst snd] in Ev. injection Ev as E1 E2. by split_and!.
Defined.

(** One thread needs a page, gives back the buffer that kept the first page, and needs
    another page; the other thread asks for a small buffer. *)
Definition demo_first (a : Z) : prog Z := easy_mempool_alloc 4 524000 ;; easy_mempool_free 4 a ;; easy_mempool_alloc 4 524000.
Definition demo_second : prog Z := easy_mempool_alloc 4 1000.
Definition demo_start : state := State (snd (easy_mempool_create 0 no_memory)) (new_pool 0).

Definition demo_results (schedule : list nat) : option (list (prog Z)) :=
  x ← run (easy_mempool_alloc 4 1000) demo_start;
  y ← interleave schedule [demo_first (fst x); demo_second] (snd x);
  Some (fst y).

(** Two threads are given buffers that overlap.  The last reference to a
    page is dropped, but before its page is taken from the position, another thread,
    which has read the position before, takes a reference to it again and a piece of
    the page; the page is freed all the same, and its memory handed out a second time.
    The number that is increased with the last reference is never looked at. *)
Example mempool_race : exists schedule p q, demo_results schedule = Some [Ret p; Ret q] /\ p <= q /\ q + 1000 <= p + 524000.
Proof.
  exists (replicate 5 1%nat ++ replicate 50 0%nat ++ replicate 15 1%nat ++ replicate 45 0%nat). eexists _, _. split; [vm_compute; reflexivity|]. split; vm_compute; discriminate.
Qed.

(** A size of nearly four gigabytes overflows with the header, and is served with
    nothing: the next buffer is at the same place. *)
Theorem mempool_size_wraps : exists p, option_map fst (run (p ← easy_mempool_alloc 4 (2 ^ 32 - 16); q ← easy_mempool_alloc 4 100; mret (p, q)) demo_start) = Some (p, p) /\ p <> 0.
Proof. eexists. split; [vm_compute; reflexivity|discriminate]. Qed.

End EasyMemPoolTheorems.
