(* ===== verification/EasyMemPoolRealloc.v ===== *)
(** * Pools of pages: realloc on the global pool and on a pool per thread

    easy_mempool_global_realloc and easy_mempool_thread_realloc of
    memory/easy_mem_pool.c, one thread at a time.  A buffer of a thread begins with
    the address of what is known of that thread, the pool among it, so that another
    thread can free it; a pool goes when its thread has ended and its last buffer is
    freed.  A pointer to a pool or a thread is its address. *)

From Stdlib Require Import ZArith Lia.
From stdpp Require Import base gmap list numbers option.
From S2P Require Import Prelude EasyMemPool.

Local Open Scope Z_scope.

Module EasyMemPoolRealloc.
Import EasyMemPool.

Definition sizeof_pointer : Z := 8.
Definition sizeof_easy_mempool_thread_info_t : Z := 16.

Record easy_mempool_thread_info_t := Info { info_ref_cnt : Z; info_pool : Z }.

(** The memory, the pools and the threads in it, the first word of the buffers of
    threads, what each thread has under the key, and the global variables; and
    the copies that were made, with destination, source and length. *)
Record world := World {
  w_mem : memory; pools : gmap Z easy_mempool_t; infos : gmap Z easy_mempool_thread_info_t; hosts : gmap Z Z; keys : gmap nat Z;
  g_pool : Z; g_thread_memlimit : Z; g_thread_memtotal : Z; copies : list (Z * Z * Z) }.

Definition set_mem v w := World v (pools w) (infos w) (hosts w) (keys w) (g_pool w) (g_thread_memlimit w) (g_thread_memtotal w) (copies w).
Definition set_pools v w := World (w_mem w) v (infos w) (hosts w) (keys w) (g_pool w) (g_thread_memlimit w) (g_thread_memtotal w) (copies w).
Definition set_infos v w := World (w_mem w) (pools w) v (hosts w) (keys w) (g_pool w) (g_thread_memlimit w) (g_thread_memtotal w) (copies w).
Definition set_hosts v w := World (w_mem w) (pools w) (infos w) v (keys w) (g_pool w) (g_thread_memlimit w) (g_thread_memtotal w) (copies w).
Definition set_keys v w := World (w_mem w) (pools w) (infos w) (hosts w) v (g_pool w) (g_thread_memlimit w) (g_thread_memtotal w) (copies w).
Definition set_thread_memlimit v w := World (w_mem w) (pools w) (infos w) (hosts w) (keys w) (g_pool w) v (g_thread_memtotal w) (copies w).
Definition set_thread_memtotal v w := World (w_mem w) (pools w) (infos w) (hosts w) (keys w) (g_pool w) (g_thread_memlimit w) v (copies w).

Section world.
Context `{Memalign} (spins : nat).

(** An operation on a pool; [null] is its result if there is none. *)
Definition on_pool {A} (a : Z) (null : A) (p : prog A) (w : world) : option (A * world) :=
  if a =? 0 then Some (null, w)
  else
    q ← pools w !! a;
    x ← run p (State (w_mem w) q);
    Some (fst x, set_mem (mem (snd x)) (set_pools (<[a := pool (snd x)]> (pools w)) w)).

Definition create (size : Z) (w : world) : Z * world :=
  match easy_mempool_create size (w_mem w) with
  | (Some (a, q), m) => (a, set_mem m (set_pools (<[a := q]> (pools w)) w))
  | (None, m) => (0, set_mem m w)
  end.

Definition free_at (a : Z) (w : world) : option world := m ← free_block a (w_mem w); Some (set_mem m w).

Definition easy_mempool_destroy (a : Z) (w : world) : option world :=
  if a =? 0 then Some w else x ← on_pool a 0 easy_mempool_clear w; free_at a (set_pools (delete a (pools (snd x))) (snd x)).

Definition memcpy (dst src n : Z) (w : world) : option world :=
  if valid dst n (w_mem w) && valid src n (w_mem w) then
    Some (World (w_mem w) (pools w) (infos w) (hosts w) (keys w) (g_pool w) (g_thread_memlimit w) (g_thread_memtotal w) (copies w ++ [(dst, src, n)]))
  else None.

(** ** The global pool *)

Definition easy_mempool_set_global_memlimit (limit : Z) (w : world) : option world := x ← on_pool (g_pool w) tt (easy_mempool_set_memlimit limit) w; Some (snd x).
Definition easy_mempool_get_global_memtotal (w : world) : option Z := x ← on_pool (g_pool w) 0 easy_mempool_get_memtotal w; Some (fst x).

(** The address of a header in front of a buffer is never NULL. *)
Definition easy_mempool_global_realloc (ptr size : Z) (w : world) : option (Z * world) :=
  x ← (if negb (size =? 0) then on_pool (g_pool w) 0 (easy_mempool_alloc spins (u32 size)) w else Some (0, w));
  let '(ret, w) := x in
  w ← (if negb (ptr =? 0) && negb (ret =? 0) then
         buf ← get_buf (ptr - sizeof_easy_mempool_buf_t) (w_mem w);
         memcpy ret ptr (if size <? EasyMemPool.size buf then size else EasyMemPool.size buf) w
       else Some w);
  y ← on_pool (g_pool w) tt (easy_mempool_free spins ptr) w;
  Some (ret, snd y).

(** ** A pool per thread *)

Definition easy_mempool_set_thread_memlimit (limit : Z) (w : world) : world := if 0 <? limit then set_thread_memlimit limit w else w.
Definition easy_mempool_get_thread_memtotal (w : world) : Z := g_thread_memtotal w.

(** A thread that calls for the first time. *)
Definition thread_info (t : nat) (w : world) : Z * world :=
  match keys w !! t with
  | Some i => (i, w)
  | None =>
      let '(i, m) := memalign sizeof_easy_mempool_thread_info_t (w_mem w) in
      let w := set_mem m w in
      if i =? 0 then (0, w)
      else
        let '(p, w) := create 0 w in
        (i, set_keys (<[t := i]> (keys w)) (set_infos (<[i := Info 1 p]> (infos w)) w))
  end.

Definition add_ref (i d : Z) (w : world) : option (Z * world) :=
  x ← infos w !! i;
  let n := i64 (info_ref_cnt x + d) in
  Some (n, set_infos (<[i := Info n (info_pool x)]> (infos w)) w).

(** The thread's reference or a buffer's is dropped; with the last one the pool goes. *)
Definition drop_ref (i : Z) (w : world) : option world :=
  x ← add_ref i (-1) w;
  let '(n, w) := x in
  if n =? 0 then info ← infos w !! i; w ← easy_mempool_destroy (info_pool info) w; free_at i (set_infos (delete i (infos w)) w) else Some w.

Definition easy_mempool_thread_destroy_callback_ (i : Z) (w : world) : option world := if i =? 0 then Some w else drop_ref i w.

Definition easy_mempool_thread_realloc (t : nat) (ptr size : Z) (w : world) : option (Z * world) :=
  let '(i, w) := thread_info t w in
  x ← (if negb (size =? 0) && negb (i =? 0) && (i64 (g_thread_memtotal w + size) <=? g_thread_memlimit w) then
         info ← infos w !! i;
         x ← on_pool (info_pool info) 0 (easy_mempool_alloc spins (u32 (size + sizeof_pointer))) w;
         let '(alloc_ptr, w) := x in
         if alloc_ptr =? 0 then Some (0, w)
         else if valid alloc_ptr sizeof_pointer (w_mem w) then
           y ← add_ref i 1 (set_hosts (<[alloc_ptr := i]> (hosts w)) w);
           Some (alloc_ptr + sizeof_pointer, set_thread_memtotal (i64 (g_thread_memtotal (snd y) + size)) (snd y))
         else None
       else Some (0, w));
  let '(ret, w) := x in
  w ← (if negb (ptr =? 0) && negb (ret =? 0) then
         buf ← get_buf (ptr - sizeof_pointer - sizeof_easy_mempool_buf_t) (w_mem w);
         memcpy ret ptr (if size <? EasyMemPool.size buf then size else EasyMemPool.size buf) w
       else Some w);
  if ptr =? 0 then Some (ret, w)
  else
    let ptr := ptr - sizeof_pointer in
    buf ← get_buf (ptr - sizeof_easy_mempool_buf_t) (w_mem w);
    host ← hosts w !! ptr;
    let w := set_thread_memtotal (i64 (g_thread_memtotal w - u64 (EasyMemPool.size buf - sizeof_pointer))) w in
    if host =? 0 then Some (ret, w)
    else
      info ← infos w !! host;
      y ← on_pool (info_pool info) tt (easy_mempool_free spins ptr) w;
      w ← drop_ref host (snd y);
      Some (ret, w).
End world.

Definition init_global_easy_mempool_ `{Memalign} : world :=
  let '(p, w) := create 0 (World no_memory ∅ ∅ ∅ ∅ 0 (2 ^ 63 - 1) 0 []) in
  World (w_mem w) (pools w) (infos w) (hosts w) (keys w) p (g_thread_memlimit w) (g_thread_memtotal w) (copies w).

(** ** Properties *)

#[local] Existing Instance bump_memalign.

(** What a thread gets from calls one after the other, each on the result of the one
    before. *)
Fixpoint reallocs (t : nat) (sizes : list Z) (ptr : Z) (w : world) : option (list Z * world) :=
  match sizes with
  | [] => Some ([], w)
  | size :: sizes => x ← easy_mempool_thread_realloc 4 t ptr size w; y ← reallocs t sizes (fst x) (snd x); Some (fst x :: fst y, snd y)
  end.

Definition live_bytes (x : option (list Z * world)) : option (list Z * Z * list (Z * Z * Z)) := option_map (fun x => (fst x, g_thread_memtotal (snd x), copies (snd x))) x.

(** Growing a buffer of a thread copies eight bytes more than it has, since the size in
    the header is that with the word in front: of 1000 bytes 1008 are copied, and a
    buffer that is a block of its own is read behind its end.  A buffer that cannot
    be had because of the limit is freed all the same, where realloc of the C library
    leaves it. *)
Theorem thread_realloc_mistakes :
  (exists p q, live_bytes (reallocs 1 [1000; 2000] 0 init_global_easy_mempool_) = Some ([p; q], 2000, [(q, p, 1008)])) /\
  reallocs 1 [600000; 700000] 0 init_global_easy_mempool_ = None /\
  (exists p, p <> 0 /\ live_bytes (reallocs 1 [1000; 2000] 0 (easy_mempool_set_thread_memlimit 2500 init_global_easy_mempool_)) = Some ([p; 0], 0, [])).
Proof.
  split; [eexists _, _; vm_compute; reflexivity|]. split; [vm_compute; reflexivity|]. eexists. split; [|vm_compute; reflexivity]. discriminate.
Qed.

End EasyMemPoolRealloc.
