(* ===== verification/EasyHash.v ===== *)
(** * util/easy_hash.c: chained hash table with back pointers

    Pointer-level model: a table of bucket heads, nodes with [next], [key] and
    [pprev], the address of the pointer that points at the node, which is
    either a bucket or the [next] field of another node.  The abstraction is
    the sequence of linked (node, key) pairs, most recent first; [table_rep]
    says that bucket [i] chains exactly the pairs whose key hashes to [i], in
    that order.  The hash function is MurmurHash64A, on little-endian loads. *)

From Stdlib Require Import ZArith Lia.
From stdpp Require Import base gmap list numbers option.
From S2P Require Import Prelude EasyList.

Local Open Scope Z_scope.

Module EasyHash.

(** ** The hash function *)

Definition murmur_m : Z := 14313749767032793493.   (* 0xc6a4a7935bd1e995 *)
Definition murmur_r : Z := 47.

(** [h ^= h >> r] *)
Definition xorshift (h : Z) : Z := Z.lxor h (Z.shiftr h murmur_r).

(** The body of the loop over 64-bit words. *)
Definition murmur_word (h k : Z) : Z :=
  let k := u64 (k * murmur_m) in
  let k := xorshift k in
  let k := u64 (k * murmur_m) in
  let h := Z.lxor h k in
  u64 (h * murmur_m).

Fixpoint murmur_words (n : nat) (data : list Z) (h : Z) : Z * list Z :=
  match n with
  | O => (h, data)
  | S n => murmur_words n (drop 8 data) (murmur_word h (le_val (take 8 data)))
  end.

(** The fall-through [switch (len & 7)]: the highest byte of the tail first,
    byte [i] shifted left by [8 i] bits; the last case multiplies. *)
Fixpoint tail_xor (tail : list Z) (shift h : Z) : Z :=
  match tail with
  | [] => h
  | b :: tail => Z.lxor (tail_xor tail (shift + 8) h) (Z.shiftl b shift)
  end.
Definition murmur_tail (tail : list Z) (h : Z) : Z :=
  match tail with
  | [] => h
  | _ => u64 (tail_xor tail 0 h * murmur_m)
  end.

Definition easy_hash_code (key : list Z) (seed : Z) : Z :=
  let len := Z.of_nat (length key) in
  let h := Z.lxor seed (u64 (len * murmur_m)) in
  let '(h, data2) := murmur_words (Z.to_nat (len / 8)) key h in
  let h := murmur_tail data2 h in
  let h := xorshift h in
  let h := u64 (h * murmur_m) in
  xorshift h.

(** The eight bytes of a [uint64_t]. *)
Fixpoint le_bytes (n : nat) (v : Z) : list Z :=
  match n with
  | O => []
  | S n => v mod 256 :: le_bytes n (v / 256)
  end.

Definition easy_hash_key (key : Z) : Z := easy_hash_code (le_bytes 8 key) 5.

(** ** Data *)

Inductive ploc := PNull | PBucket (i : Z) | PNext (node : Z).

#[global] Instance ploc_eq_dec : EqDecision ploc.
Proof. solve_decision. Defined.

Record easy_hash_list_t := HNode { hnext : Z; pprev : ploc; key : Z }.

Record easy_hash_t := Table {
  buckets : list Z; size : Z; mask : Z; count : Z; offset : Z; seqno : Z }.

Abbreviation nodes := (gmap Z easy_hash_list_t).

Definition set_buckets b t := Table b (size t) (mask t) (count t) (offset t) (seqno t).
Definition set_count c t := Table (buckets t) (size t) (mask t) c (offset t) (seqno t).
Definition set_seqno s t := Table (buckets t) (size t) (mask t) (count t) (offset t) s.

Definition set_hnext (h : nodes) (p v : Z) : option nodes :=
  n ← h !! p; Some (<[p := HNode v (pprev n) (key n)]> h).
Definition set_pprev (h : nodes) (p : Z) (v : ploc) : option nodes :=
  n ← h !! p; Some (<[p := HNode (hnext n) v (key n)]> h).
Definition set_key (h : nodes) (p v : Z) : option nodes :=
  n ← h !! p; Some (<[p := HNode (hnext n) (pprev n) v]> h).

Definition bucket_of (mask key : Z) : Z := Z.land (easy_hash_key key) mask.

(** [table->buckets[n]]; outside the array is undefined. *)
Definition get_bucket (t : easy_hash_t) (n : Z) : option Z := buckets t !! Z.to_nat n.
Definition set_bucket (t : easy_hash_t) (n v : Z) : option easy_hash_t :=
  if (Z.to_nat n <? length (buckets t))%nat
  then Some (set_buckets (<[Z.to_nat n := v]> (buckets t)) t) else None.

(** ** Operations *)

Definition easy_hash_add (t : easy_hash_t) (h : nodes) (k node : Z) : option (easy_hash_t * nodes) :=
  let n := bucket_of (mask t) k in
  h ← set_key h node k;
  let t := set_count (u32 (count t + 1)) t in
  let t := set_seqno (u64 (seqno t + 1)) t in
  first ← get_bucket t n;
  h ← set_hnext h node first;
  h ← (if negb (first =? 0) then set_pprev h first (PNext node) else Some h);
  t ← set_bucket t n node;
  h ← set_pprev h node (PBucket n);
  Some (t, h).

(** The walk of [easy_hash_find], [easy_hash_find_ex] and [easy_hash_del]:
    [accept] is the extra test of [easy_hash_find_ex]. *)
Fixpoint find_node (fuel : nat) (h : nodes) (node k : Z) (accept : Z -> bool) : option (option Z) :=
  if node =? 0 then Some None
  else match fuel with
       | O => None
       | S fuel =>
           n ← h !! node;
           if (key n =? k) && accept node then Some (Some node)
           else find_node fuel h (hnext n) k accept
       end.

Definition easy_hash_find (t : easy_hash_t) (h : nodes) (k : Z) : option (option Z) :=
  list ← get_bucket t (bucket_of (mask t) k);
  r ← find_node (S (base.size h)) h list k (fun _ => true);
  Some (option_map (fun node => node - offset t) r).

Definition easy_hash_find_ex (t : easy_hash_t) (h : nodes) (k : Z) (cmp : Z -> Z -> Z) (a : Z)
    : option (option Z) :=
  list ← get_bucket t (bucket_of (mask t) k);
  r ← find_node (S (base.size h)) h list k (fun node => cmp a (node - offset t) =? 0);
  Some (option_map (fun node => node - offset t) r).

(** [*pprev = v] *)
Definition set_ploc (t : easy_hash_t) (h : nodes) (l : ploc) (v : Z) : option (easy_hash_t * nodes) :=
  match l with
  | PNull => None
  | PBucket n => t ← set_bucket t n v; Some (t, h)
  | PNext p => h ← set_hnext h p v; Some (t, h)
  end.

Definition easy_hash_del_node (t : easy_hash_t) (h : nodes) (node : Z)
    : option (Z * easy_hash_t * nodes) :=
  n ← h !! node;
  match pprev n with
  | PNull => Some (0, t, h)
  | l =>
      let next := hnext n in
      th ← set_ploc t h l next;
      let '(t, h) := th in
      h ← (if negb (next =? 0) then set_pprev h next l else Some h);
      h ← set_hnext h node 0;
      h ← set_pprev h node PNull;
      Some (1, t, h)
  end.

Definition easy_hash_del (t : easy_hash_t) (h : nodes) (k : Z)
    : option (option Z * easy_hash_t * nodes) :=
  list ← get_bucket t (bucket_of (mask t) k);
  r ← find_node (S (base.size h)) h list k (fun _ => true);
  match r with
  | None => Some (None, t, h)
  | Some node =>
      d ← easy_hash_del_node t h node;
      let '(_, t, h) := d in
      let t := set_count (u32 (count t - 1)) t in
      Some (Some (node - offset t), t, h)
  end.

(** The variants that keep the objects on [table->list] as well; [lh] is the
    memory of that ring, [head] its address.  The object's list node follows
    its hash node. *)
Definition sizeof_easy_hash_list_t : Z := 24.

Definition easy_hash_dlist_add (t : easy_hash_t) (h : nodes) (lh : gmap Z EasyList.easy_list_t)
    (head k hash list : Z) : option (easy_hash_t * nodes * gmap Z EasyList.easy_list_t) :=
  lh ← EasyList.easy_list_add_tail lh list head;
  th ← easy_hash_add t h k hash;
  Some (th, lh).

Definition easy_hash_dlist_del (t : easy_hash_t) (h : nodes) (lh : gmap Z EasyList.easy_list_t) (k : Z)
    : option (option Z * easy_hash_t * nodes * gmap Z EasyList.easy_list_t) :=
  d ← easy_hash_del t h k;
  let '(object, t, h) := d in
  match object with
  | None => Some (None, t, h, lh)
  | Some o =>
      lh ← EasyList.easy_list_del lh (o + offset t + sizeof_easy_hash_list_t);
      Some (Some o, t, h, lh)
  end.

(** [while (size > n) n <<= 1;] *)
Fixpoint round_up (fuel : nat) (size n : Z) : Z :=
  match fuel with
  | O => n
  | S fuel => if n <? size then round_up fuel size (u32 (Z.shiftl n 1)) else n
  end.

(** [easy_hash_create]: [calloc] gives zeroed memory of the requested number of
    bytes; the byte count is an [uint32_t] parameter of [easy_pool_calloc]. *)
Definition easy_hash_create (calloc : Z -> option (list Z)) (table_ok : bool) (sz off : Z)
    : option easy_hash_t :=
  let n := round_up 32 (Z.land sz 2147483647) 4 in
  match calloc (u32 (n * 8)), table_ok with
  | Some b, true => Some (Table b n (u32 (n - 1)) 0 off 1)
  | _, _ => None
  end.

(** ** The hash of a key is injective *)

(** The inverse of [murmur_m] modulo 2^64. *)
Definition murmur_minv : Z := 6879827495036328381.

Definition unmul (h : Z) : Z := u64 (h * murmur_minv).

(** [easy_hash_key] backwards. *)
Definition easy_hash_key_inv (h : Z) : Z :=
  let h := xorshift h in
  let h := unmul h in
  let h := xorshift h in
  let h := unmul h in
  let k := Z.lxor h (Z.lxor 5 (u64 (8 * murmur_m))) in
  let k := unmul k in
  let k := xorshift k in
  unmul k.

Lemma unmul_mul h : 0 <= h < 2 ^ 64 -> unmul (u64 (h * murmur_m)) = h.
Proof.
  intros Hh. unfold unmul, wrapu. rewrite Z.mul_mod_idemp_l by lia.
  rewrite <- Z.mul_assoc, Z.mul_mod by lia.
  replace ((murmur_m * murmur_minv) mod 2 ^ 64) with 1 by (by vm_compute).
  rewrite Z.mul_1_r, Z.mod_mod by lia. by apply Z.mod_small.
Qed.

Lemma shiftr_range a n k : 0 <= k -> 0 <= a < 2 ^ n -> 0 <= Z.shiftr a k < 2 ^ n.
Proof.
  intros Hk Ha. rewrite Z.shiftr_div_pow2 by done. split; [apply Z.div_pos; lia|].
  apply Z.le_lt_trans with a; [|lia]. apply Z.div_le_upper_bound; [lia|].
  pose proof (Z.pow_pos_nonneg 2 k). nia.
Qed.

Lemma xorshift_range h : 0 <= h < 2 ^ 64 -> 0 <= xorshift h < 2 ^ 64.
Proof. intros Hh. apply lxor_range; [lia|done|]. by apply shiftr_range. Qed.

Lemma xorshift_twice h : 0 <= h < 2 ^ 64 -> xorshift (xorshift h) = h.
Proof.
  intros Hh. unfold xorshift, murmur_r. rewrite Z.shiftr_lxor, Z.shiftr_shiftr by lia.
  assert (Z.shiftr h (47 + 47) = 0) as ->.
  { rewrite Z.shiftr_div_pow2 by lia. apply Z.div_small. split; [lia|].
    etransitivity; [apply Hh|]. by vm_compute. }
  by rewrite Z.lxor_0_r, Z.lxor_assoc, Z.lxor_nilpotent, Z.lxor_0_r.
Qed.

Lemma le_val_bytes n : forall v, 0 <= v < 256 ^ Z.of_nat n -> le_val (le_bytes n v) = v.
Proof.
  induction n as [|n IH]; intros v Hv; cbn [le_bytes le_val]; [change (256 ^ Z.of_nat 0) with 1 in Hv; lia|].
  rewrite Nat2Z.inj_succ, Z.pow_succ_r in Hv by lia. rewrite IH; [pose proof (Z.div_mod v 256); lia|].
  split; [apply Z.div_pos; lia|]. apply Z.div_lt_upper_bound; lia.
Qed.

Lemma easy_hash_key_unfold k : 0 <= k < 2 ^ 64 ->
  easy_hash_key k =
  xorshift (u64 (xorshift (u64 (Z.lxor (Z.lxor 5 (u64 (8 * murmur_m)))
    (u64 (xorshift (u64 (k * murmur_m)) * murmur_m)) * murmur_m)) * murmur_m)).
Proof.
  intros Hk. unfold easy_hash_key, easy_hash_code.
  change (Z.of_nat (length (le_bytes 8 k))) with 8. change (Z.to_nat (8 / 8)) with 1%nat.
  cbn [murmur_words]. change (take 8 (le_bytes 8 k)) with (le_bytes 8 k).
  change (drop 8 (le_bytes 8 k)) with (@nil Z). cbn [murmur_tail]. unfold murmur_word.
  by rewrite le_val_bytes.
Qed.

Lemma easy_hash_key_range k : 0 <= k < 2 ^ 64 -> 0 <= easy_hash_key k < 2 ^ 64.
Proof. intros Hk. rewrite easy_hash_key_unfold by done. apply xorshift_range, wrapu_range. lia. Qed.

(** The hash of a 64-bit key can be inverted: every step of
    the mixing is a bijection, so two keys meet in a bucket only through the
    mask, never through equal hash values. *)
Theorem easy_hash_key_roundtrip k :
  0 <= k < 2 ^ 64 -> 0 <= easy_hash_key k < 2 ^ 64 /\ easy_hash_key_inv (easy_hash_key k) = k.
Proof.
  intros Hk. split; [by apply easy_hash_key_range|]. rewrite easy_hash_key_unfold by done. set (c := Z.lxor 5 (u64 (8 * murmur_m))).
  assert (forall x, 0 <= u64 x < 2 ^ 64) as Hu by (intros; by apply wrapu_range).
  set (w := u64 (xorshift (u64 (k * murmur_m)) * murmur_m)).
  assert (0 <= Z.lxor c w < 2 ^ 64) as Hcw by (apply lxor_range; [lia|by vm_compute|apply Hu]).
  unfold easy_hash_key_inv. fold c.
  rewrite xorshift_twice, unmul_mul, xorshift_twice, unmul_mul by (auto using xorshift_range).
  rewrite (Z.lxor_comm c w), Z.lxor_assoc, Z.lxor_nilpotent, Z.lxor_0_r. unfold w.
  rewrite unmul_mul, xorshift_twice, unmul_mul by (auto using xorshift_range). done.
Qed.

Lemma easy_hash_key_roundtrip_witness :
  easy_hash_key 42 = 1528802566688538785 /\ easy_hash_key_inv (easy_hash_key 42) = 42.
Proof. split; [vm_compute; reflexivity|]. apply (easy_hash_key_roundtrip 42). lia. Defined.

(** ** Representation *)

(** The abstract table: linked nodes with their keys, most recent first. *)
Abbreviation entries := (list (Z * Z)).

Fixpoint chain (h : nodes) (l : ploc) (p : Z) (xs : entries) : Prop :=
  match xs with
  | [] => p = 0
  | (a, k) :: xs => p = a /\ a <> 0 /\ exists nx, h !! a = Some (HNode nx l k) /\ chain h (PNext a) nx xs
  end.

Definition in_bucket (mask i : Z) (e : Z * Z) : Prop := bucket_of mask (snd e) = i.
#[global] Instance in_bucket_dec mask i e : Decision (in_bucket mask i e).
Proof. unfold in_bucket. exact _. Defined.

Record table_rep (t : easy_hash_t) (h : nodes) (L : entries) : Prop := {
  tr_size : exists m, 0 <= m <= 31 /\ size t = 2 ^ m /\ mask t = 2 ^ m - 1;
  tr_len : Z.of_nat (length (buckets t)) = size t;
  tr_nodup : NoDup (L.*1);
  tr_keys : Forall (fun e => 0 <= snd e < 2 ^ 64) L;
  tr_chain : forall i, 0 <= i < size t ->
    exists p, get_bucket t i = Some p /\ chain h (PBucket i) p (filter (in_bucket (mask t) i) L) }.

Lemma bucket_range t h L k : table_rep t h L -> 0 <= k < 2 ^ 64 -> 0 <= bucket_of (mask t) k < size t.
Proof.
  intros R Hk. destruct (tr_size _ _ _ R) as (m & Hm & -> & ->). unfold bucket_of.
  replace (2 ^ m - 1) with (Z.ones m) by (rewrite Z.ones_equiv; lia).
  rewrite Z.land_ones by lia. apply Z.mod_pos_bound. lia.
Qed.

(** ** Chains *)

Lemma chain_ext h h' xs : forall l p,
  (forall a, a ∈ xs.*1 -> h' !! a = h !! a) -> chain h l p xs -> chain h' l p xs.
Proof.
  induction xs as [|[a k] xs IH]; intros l p Hext; simpl; [done|].
  intros (-> & H0 & nx & Ha & Hc). split_and!; [done|done|]. exists nx.
  rewrite Hext by set_solver. split; [done|]. apply IH; [|done]. intros b Hb. apply Hext. set_solver.
Qed.

Lemma chain_node h xs : forall l p a, chain h l p xs -> a ∈ xs.*1 -> a <> 0 /\ is_Some (h !! a).
Proof.
  induction xs as [|[b k] xs IH]; intros l p a; simpl; [set_solver|].
  intros (-> & H0 & nx & Hb & Hc) [->|Hin]%elem_of_cons; [split; [done|by eexists]|].
  by eapply IH.
Qed.

Lemma chain_head h l p xs : chain h l p xs -> p <> 0 -> exists k ys, xs = (p, k) :: ys.
Proof. destruct xs as [|[a k] ys]; simpl; [done|]. intros (-> & _) _. eauto. Qed.

(** The location that points behind the prefix [xs1] of a chain that starts at [l]. *)
Fixpoint last_loc (l : ploc) (xs1 : entries) : ploc :=
  match xs1 with
  | [] => l
  | (b, _) :: xs1 => last_loc (PNext b) xs1
  end.

Lemma chain_at h xs1 : forall l p a k xs2, chain h l p (xs1 ++ (a, k) :: xs2) ->
  exists nx, h !! a = Some (HNode nx (last_loc l xs1) k) /\ a <> 0 /\ chain h (PNext a) nx xs2.
Proof.
  induction xs1 as [|[b kb] xs1 IH]; intros l p a k xs2; simpl.
  - intros (-> & H0 & nx & Ha & Hc). eauto.
  - intros (-> & H0 & nx & Hb & Hc). by eapply IH.
Qed.

(** What unlinking [a], found at location [la] and followed by [nx], does to
    the other nodes. *)
Definition unlinked (h h' : nodes) (a : Z) (la : ploc) (nx : Z) : Prop :=
  forall q n, q <> a -> q <> 0 -> h !! q = Some n ->
    h' !! q = Some (HNode (if decide (la = PNext q) then nx else hnext n)
                      (if decide (q = nx) then la else pprev n) (key n)).

Lemma last_loc_in l xs : last_loc l xs = l /\ xs = [] \/ exists b, b ∈ xs.*1 /\ last_loc l xs = PNext b.
Proof.
  revert l. induction xs as [|[b k] xs IH]; intros l; simpl; [by left|]. right.
  destruct (IH (PNext b)) as [[-> _]|(c & Hc & ->)]; [exists b|exists c]; set_solver.
Qed.

Lemma chain_first h l nx xs q : chain h l nx xs -> q = nx -> q <> 0 -> q ∈ xs.*1.
Proof. intros Hc -> H0. destruct (chain_head _ _ _ _ Hc H0) as (k & ys & ->). set_solver. Qed.

(** The first node of a chain gets a new back pointer. *)
Lemma chain_relink h h' l l' nx xs :
  NoDup (xs.*1) -> chain h l nx xs ->
  (forall q n, q ∈ xs.*1 -> h !! q = Some n ->
     h' !! q = Some (HNode (hnext n) (if decide (q = nx) then l' else pprev n) (key n))) ->
  chain h' l' nx xs.
Proof.
  destruct xs as [|[a k] xs]; simpl; [done|]. intros [Hnin Hnd]%list.NoDup_cons (-> & H0 & nx' & Ha & Hc) Hh.
  split_and!; [done|done|]. exists nx'. rewrite (Hh a _ ltac:(set_solver) Ha). simpl.
  rewrite decide_True by done. split; [done|]. eapply chain_ext; [|exact Hc].
  intros b Hb. destruct (chain_node _ _ _ _ _ Hc Hb) as [_ [n Hn]]. rewrite Hn.
  rewrite (Hh b n ltac:(set_solver) Hn), decide_False; [by destruct n|set_solver].
Qed.

Lemma chain_unlink h h' a la nx : unlinked h h' a la nx ->
  forall xs1 l p k xs2, NoDup ((xs1 ++ (a, k) :: xs2).*1) ->
  (forall q, q ∈ (xs1 ++ (a, k) :: xs2).*1 -> l <> PNext q) ->
  chain h l p (xs1 ++ (a, k) :: xs2) -> la = last_loc l xs1 -> hnext <$> h !! a = Some nx ->
  chain h' l (match xs1 with [] => nx | _ => p end) (xs1 ++ xs2).
Proof.
  intros Hu. induction xs1 as [|[b kb] xs1 IH]; intros l p k xs2 Hnd Hl Hc Hla Hnx; simpl in *.
  - destruct Hc as (-> & _ & nx' & Ha & Hc). rewrite Ha in Hnx. injection Hnx as ->.
    apply list.NoDup_cons in Hnd as [Hnin Hnd]. eapply chain_relink; [done|exact Hc|].
    intros q n Hq Hn. assert (q <> a) by (intros ->; done).
    destruct (chain_node _ _ _ _ _ Hc Hq) as [Hq0 _]. rewrite (Hu q n) by done.
    subst la. rewrite (decide_False (P := l = PNext q)); [done|]. apply Hl. set_solver.
  - destruct Hc as (-> & Hb0 & nb & Hb & Hc). apply list.NoDup_cons in Hnd as [Hnin Hnd].
    rewrite fmap_app, fmap_cons in Hnin. simpl in Hnin.
    assert (b <> a) as Hba by set_solver.
    split_and!; [done|done|]. exists (match xs1 with [] => nx | _ => nb end). split.
    2: { apply (IH (PNext b) nb k xs2); [done| |done|done|done].
         intros q Hq [= <-]. apply Hnin. by rewrite fmap_app, fmap_cons in Hq. }
    rewrite (Hu b _ Hba Hb0 Hb). cbn [hnext pprev key]. f_equal.
    destruct (chain_at _ _ _ _ _ _ _ Hc) as (nx' & Ha & Ha0 & Hc2). rewrite Ha in Hnx.
    injection Hnx as ->. f_equal.
    + subst la. destruct (last_loc_in (PNext b) xs1) as [[E ->]|(c & Hc' & E)].
      * by rewrite decide_True.
      * rewrite E, decide_False by (intros [= ->]; set_solver).
        destruct xs1; [set_solver|done].
    + rewrite decide_False; [done|]. intros E.
      pose proof (chain_first _ _ _ _ _ Hc2 E Hb0). set_solver.
Qed.

(** ** Operations on represented tables *)

Lemma nodup_key (L : entries) a k1 k2 : NoDup (L.*1) -> (a, k1) ∈ L -> (a, k2) ∈ L -> k1 = k2.
Proof.
  induction L as [|[b k] L IH]; simpl; [set_solver|]. intros [Hnin Hnd]%list.NoDup_cons.
  assert (forall k', (a, k') ∈ L -> a ∈ L.*1) as Hin.
  { intros k' Hk. apply list_elem_of_fmap. by exists (a, k'). }
  intros [E1|H1]%elem_of_cons [E2|H2]%elem_of_cons; simplify_eq; eauto; naive_solver.
Qed.

Lemma elem_bucket m i (L : entries) a : a ∈ (filter (in_bucket m i) L).*1 ->
  exists k, (a, k) ∈ L /\ bucket_of m k = i.
Proof.
  rewrite list_elem_of_fmap. intros ([a' k] & -> & Hin). apply list_elem_of_filter in Hin as [Hb Hin].
  by exists k.
Qed.

(** The buckets of distinct indices do not share nodes. *)
Lemma buckets_disjoint m i j (L : entries) a : NoDup (L.*1) ->
  a ∈ (filter (in_bucket m i) L).*1 -> a ∈ (filter (in_bucket m j) L).*1 -> i = j.
Proof.
  intros Hnd (k1 & H1 & <-)%elem_bucket (k2 & H2 & <-)%elem_bucket.
  by rewrite (nodup_key L a k1 k2).
Qed.

Lemma nodup_bucket m i (L : entries) : NoDup (L.*1) -> NoDup ((filter (in_bucket m i) L).*1).
Proof.
  intros Hnd. eapply sublist_NoDup; [exact Hnd|]. apply fmap_sublist, sublist_filter.
Qed.

Lemma get_set_bucket t i v t' : set_bucket t i v = Some t' ->
  (forall j, 0 <= i -> 0 <= j -> get_bucket t' j = if decide (j = i) then Some v else get_bucket t j) /\
  length (buckets t') = length (buckets t) /\ size t' = size t /\ mask t' = mask t /\
  count t' = count t /\ offset t' = offset t /\ seqno t' = seqno t.
Proof.
  unfold set_bucket, get_bucket. destruct (Nat.ltb_spec (Z.to_nat i) (length (buckets t))); [|done].
  intros [= <-]. cbn. split_and!; try done; [|by rewrite length_insert].
  intros j Hi Hj. case_decide as Hd; subst.
  - by rewrite list_lookup_insert_eq.
  - rewrite list_lookup_insert_ne; [done|]. lia.
Qed.

Lemma set_bucket_ok t h L i v : table_rep t h L -> 0 <= i < size t -> exists t', set_bucket t i v = Some t'.
Proof.
  intros R Hi. unfold set_bucket. pose proof (tr_len _ _ _ R).
  destruct (Nat.ltb_spec (Z.to_nat i) (length (buckets t))); [eauto|lia].
Qed.

(** The heap part of [easy_hash_del_node]. *)
Lemma unlink_heap h a la nx k :
  h !! a = Some (HNode nx la k) -> a <> 0 -> a <> nx -> la <> PNext a -> la <> PNull ->
  (forall b, la = PNext b -> is_Some (h !! b) /\ b <> nx) -> (nx <> 0 -> is_Some (h !! nx)) ->
  exists h1 h',
    (match la with PNext b => set_hnext h b nx | _ => Some h end) = Some h1 /\
    (h2 ← (if negb (nx =? 0) then set_pprev h1 nx la else Some h1);
     h3 ← set_hnext h2 a 0; set_pprev h3 a PNull) = Some h' /\
    unlinked h h' a la nx /\ h' !! a = Some (HNode 0 PNull k).
Proof.
  intros Ha Ha0 Hanx Hla Hnull Hb Hnx.
  assert (exists h1, (match la with PNext b => set_hnext h b nx | _ => Some h end) = Some h1 /\
    forall q n, h !! q = Some n ->
      h1 !! q = Some (HNode (if decide (la = PNext q) then nx else hnext n) (pprev n) (key n)))
    as (h1 & E1 & H1).
  { destruct la as [|i|b]; [done|..].
    - exists h. split; [done|]. intros q n Hq. rewrite decide_False by done. rewrite Hq. by destruct n.
    - destruct (Hb b eq_refl) as [[nb Hnb] _]. unfold set_hnext. rewrite Hnb. simpl.
      eexists. split; [done|]. intros q n Hq. case_decide as Hd.
      + injection Hd as ->. rewrite lookup_insert_eq. by simplify_eq.
      + rewrite lookup_insert_ne by congruence. rewrite Hq. by destruct n. }
  exists h1. rewrite E1. pose proof (H1 _ _ Ha) as Ha1. rewrite decide_False in Ha1 by done. cbn in Ha1.
  assert (exists h2, (if negb (nx =? 0) then set_pprev h1 nx la else Some h1) = Some h2 /\
    forall q n, q <> 0 -> h1 !! q = Some n ->
      h2 !! q = Some (HNode (hnext n) (if decide (q = nx) then la else pprev n) (key n)))
    as (h2 & E2 & H2).
  { destruct (Z.eqb_spec nx 0) as [->|Hn0]; simpl.
    - exists h1. split; [done|]. intros q n Hq Hn. rewrite decide_False by done. rewrite Hn. by destruct n.
    - destruct (Hnx Hn0) as [n Hn]. apply H1 in Hn. unfold set_pprev. rewrite Hn. simpl.
      eexists. split; [done|]. intros q n' Hq Hn'. destruct (decide (q = nx)) as [->|Hd].
      + rewrite lookup_insert_eq. by simplify_eq.
      + rewrite lookup_insert_ne by congruence. rewrite Hn'. by destruct n'. }
  rewrite E2. cbn [mbind option_bind]. apply H2 in Ha1; [|done]. cbn in Ha1. rewrite decide_False in Ha1 by done.
  unfold set_hnext, set_pprev. rewrite Ha1. cbn. rewrite lookup_insert_eq. cbn.
  eexists. split_and!; [done|done| |by rewrite lookup_insert_eq].
  intros q n Hqa Hq0 Hq. rewrite !lookup_insert_ne by done. apply H1 in Hq.
  by rewrite (H2 q _ Hq0 Hq).
Qed.

Lemma dom_set_hnext h p v h' : set_hnext h p v = Some h' -> dom h' = dom h.
Proof.
  unfold set_hnext. destruct (h !! p) as [n|] eqn:E; [|done]. simpl. intros [= <-].
  apply dom_insert_lookup_L. by eexists.
Qed.
Lemma dom_set_pprev h p v h' : set_pprev h p v = Some h' -> dom h' = dom h.
Proof.
  unfold set_pprev. destruct (h !! p) as [n|] eqn:E; [|done]. simpl. intros [= <-].
  apply dom_insert_lookup_L. by eexists.
Qed.
Lemma dom_set_key h p v h' : set_key h p v = Some h' -> dom h' = dom h.
Proof.
  unfold set_key. destruct (h !! p) as [n|] eqn:E; [|done]. simpl. intros [= <-].
  apply dom_insert_lookup_L. by eexists.
Qed.

(** Nothing but the bucket array differs. *)
Definition same_table (t t' : easy_hash_t) : Prop :=
  length (buckets t') = length (buckets t) /\ size t' = size t /\ mask t' = mask t /\
  count t' = count t /\ offset t' = offset t /\ seqno t' = seqno t.

Lemma filter_mid m i (L1 L2 : entries) a k : bucket_of m k = i ->
  filter (in_bucket m i) (L1 ++ (a, k) :: L2) =
  filter (in_bucket m i) L1 ++ (a, k) :: filter (in_bucket m i) L2.
Proof. intros Hk. by rewrite list.filter_app, filter_cons_True. Qed.

(** [*pprev = next] writes a bucket or a [next] field. *)
Lemma set_ploc_spec t h L i la nx h1 :
  table_rep t h L -> 0 <= i < size t -> (la = PBucket i \/ exists b, la = PNext b) ->
  (match la with PNext b => set_hnext h b nx | _ => Some h end) = Some h1 ->
  exists t', set_ploc t h la nx = Some (t', h1) /\ same_table t t' /\
    forall j, 0 <= j -> get_bucket t' j = if decide (la = PBucket j) then Some nx else get_bucket t j.
Proof.
  intros R Hi [->|[b ->]] E1; simpl.
  - injection E1 as <-. destruct (set_bucket_ok t h L i nx R Hi) as [t' Et]. rewrite Et. simpl.
    destruct (get_set_bucket _ _ _ _ Et) as (Hg & Hs). exists t'. split_and!; [done|done|].
    intros j Hj. rewrite Hg by lia. repeat case_decide; congruence.
  - rewrite E1. simpl. by exists t.
Qed.

Lemma del_node_run t h a nx la k t' h1 h' :
  h !! a = Some (HNode nx la k) -> la <> PNull -> set_ploc t h la nx = Some (t', h1) ->
  (h2 ← (if negb (nx =? 0) then set_pprev h1 nx la else Some h1);
   h3 ← set_hnext h2 a 0; set_pprev h3 a PNull) = Some h' ->
  easy_hash_del_node t h a = Some (1, t', h').
Proof.
  intros Ha Hla Et E. unfold easy_hash_del_node. rewrite Ha. cbn [mbind option_bind pprev hnext].
  destruct la as [|i|b]; [done|..]; rewrite Et; cbn [mbind option_bind];
    (apply bind_Some in E as (h2 & -> & E); apply bind_Some in E as (h3 & E3 & E);
     cbn [mbind option_bind]; rewrite E3; cbn [mbind option_bind]; by rewrite E).
Qed.

Lemma del_node_dom h a nx la h1 h' :
  (match la with PNext b => set_hnext h b nx | _ => Some h end) = Some h1 ->
  (h2 ← (if negb (nx =? 0) then set_pprev h1 nx la else Some h1);
   h3 ← set_hnext h2 a 0; set_pprev h3 a PNull) = Some h' -> dom h' = dom h.
Proof.
  intros E1 E. apply bind_Some in E as (h2 & E2 & E). apply bind_Some in E as (h3 & E3 & E).
  apply dom_set_pprev in E. apply dom_set_hnext in E3. rewrite E, E3. clear E E3.
  assert (dom h2 = dom h1) as -> by (destruct (nx =? 0); simpl in E2;
    [by injection E2 as <-|by apply dom_set_pprev in E2]).
  destruct la; [by injection E1 as <-..|by apply dom_set_hnext in E1].
Qed.

Lemma elem_mid {A} (x y : A) l1 l2 : y = x \/ y ∈ l1 \/ y ∈ l2 -> y ∈ l1 ++ x :: l2.
Proof. rewrite elem_of_app, elem_of_cons. tauto. Qed.

Lemma del_node_spec t h L1 L2 a k :
  table_rep t h (L1 ++ (a, k) :: L2) ->
  exists t' h', easy_hash_del_node t h a = Some (1, t', h') /\ table_rep t' h' (L1 ++ L2) /\
    same_table t t' /\ dom h' = dom h /\ h' !! a = Some (HNode 0 PNull k).
Proof.
  intros R. set (L := L1 ++ (a, k) :: L2) in *. set (i := bucket_of (mask t) k).
  pose proof (tr_nodup _ _ _ R) as Hnd. pose proof (tr_keys _ _ _ R) as Hkeys.
  assert (0 <= i < size t) as Hi.
  { apply (bucket_range _ _ _ _ R). rewrite list.Forall_forall in Hkeys.
    apply (Hkeys (a, k)), elem_of_app. right. by left. }
  destruct (tr_chain _ _ _ R i Hi) as (p & Hp & Hc).
  pose proof (nodup_bucket (mask t) i L Hnd) as Hndi.
  assert (filter (in_bucket (mask t) i) L =
    filter (in_bucket (mask t) i) L1 ++ (a, k) :: filter (in_bucket (mask t) i) L2) as EL
    by (by apply filter_mid).
  rewrite EL in Hc, Hndi. set (xs1 := filter _ L1) in *. set (xs2 := filter _ L2) in *.
  destruct (chain_at _ _ _ _ _ _ _ Hc) as (nx & Ha & Ha0 & Hc2).
  set (la := last_loc (PBucket i) xs1) in *.
  assert (forall b, b ∈ (xs1 ++ (a, k) :: xs2).*1 -> is_Some (h !! b)) as Hal
    by (intros b Hb; by destruct (chain_node _ _ _ _ _ Hc Hb)).
  assert (nx <> 0 -> nx ∈ xs2.*1) as Hnx by (intros; by eapply chain_first).
  rewrite fmap_app, fmap_cons in Hndi, Hal. simpl in Hndi, Hal.
  apply list.NoDup_app in Hndi as (Hnd1 & Hdisj & [Hna Hnd2]%list.NoDup_cons).
  assert (la = PBucket i /\ xs1 = [] \/ exists b, b ∈ xs1.*1 /\ la = PNext b) as Hla
    by apply last_loc_in.
  destruct (unlink_heap h a la nx k Ha Ha0) as (h1 & h' & E1 & E2 & Hu & Ha').
  { intros ->. apply Hna, Hnx. done. }
  { destruct Hla as [[-> _]|(b & Hb & ->)]; [done|]. intros [= ->]. apply (Hdisj a Hb). by left. }
  { by destruct Hla as [[-> _]|(b & Hb & ->)]. }
  { intros b Eb. destruct Hla as [[E _]|(b' & Hb & E)]; [congruence|]. assert (b' = b) as -> by congruence.
    split; [apply Hal, elem_mid; auto|]. intros ->. destruct (decide (nx = 0)) as [E0|E0].
    - pose proof (chain_node _ _ _ _ nx Hc) as Hz. rewrite fmap_app in Hz.
      destruct Hz; [apply elem_of_app; by left|done].
    - apply (Hdisj nx Hb). right. by apply Hnx. }
  { intros E0. apply Hal, elem_mid. auto. }
  destruct (set_ploc_spec t h (L1 ++ (a, k) :: L2) i la nx h1 R Hi) as (t' & Et & Hst & Hgb);
    [destruct Hla as [[? _]|(b & _ & ?)]; eauto|done|].
  assert (la <> PNull) as Hnull by (destruct Hla as [[-> _]|(b & Hb & ->)]; done).
  exists t', h'. split_and!; [exact (del_node_run _ _ _ _ _ _ _ _ _ Ha Hnull Et E2)| |done|
    exact (del_node_dom _ _ _ _ _ _ E1 E2)|done].
  destruct Hst as (Hlen & Hsz & Hmk & _).
  split; rewrite ?Hlen, ?Hsz, ?Hmk; [apply R|apply R| | |].
  - eapply sublist_NoDup; [exact Hnd|]. apply fmap_sublist. apply sublist_app; [done|].
    by apply sublist_cons.
  - unfold L in Hkeys. rewrite list.Forall_app, list.Forall_cons in Hkeys. rewrite list.Forall_app. naive_solver.
  - intros j Hj. rewrite Hgb by lia.
    destruct (tr_chain _ _ _ R j Hj) as (pj & Hpj & Hcj).
    destruct (decide (j = i)) as [->|Hne].
    + exists (match xs1 with [] => nx | _ => p end). split.
      * destruct Hla as [[-> ->]|(b & Hb & ->)]; [by rewrite decide_True|].
        destruct xs1; [set_solver|done].
      * rewrite list.filter_app. eapply (chain_unlink h h' a la nx Hu xs1 (PBucket i) p k xs2);
          [|done|exact Hc|done|by rewrite Ha].
        rewrite <- EL. by apply nodup_bucket.
    + exists pj. split; [rewrite decide_False; [done|]|].
      { destruct Hla as [[-> _]|(b & _ & ->)]; congruence. }
      assert (filter (in_bucket (mask t) j) (L1 ++ L2) = filter (in_bucket (mask t) j) L) as EL'.
      { unfold L. rewrite !list.filter_app, filter_cons_False; [done|].
        intros E. by apply Hne. }
      rewrite EL'. eapply chain_ext; [|exact Hcj]. intros q Hq.
      destruct (chain_node _ _ _ _ _ Hcj Hq) as [Hq0 [n Hn]].
      assert (forall x, x ∈ (filter (in_bucket (mask t) i) L).*1 -> q <> x) as Hqx.
      { intros x Hx ->. apply Hne. by apply (buckets_disjoint (mask t) j i L x). }
      rewrite EL, fmap_app, fmap_cons in Hqx. simpl in Hqx.
      rewrite Hn, (Hu q n) by (done || apply Hqx, elem_mid; auto).
      rewrite !decide_False; [by destruct n|..].
      * intros ->. destruct (decide (nx = 0)); [done|]. apply (Hqx nx); [apply elem_mid; auto|done].
      * destruct Hla as [[-> _]|(b & Hb & ->)]; [done|]. intros [= ->]. apply (Hqx q); [apply elem_mid; auto|done].
Qed.

(** Linking a node in front of a chain that starts with [p]. *)
Lemma add_heap h a k p i na :
  h !! a = Some na -> a <> p -> (p <> 0 -> is_Some (h !! p)) ->
  exists h', (h ← set_key h a k; h ← set_hnext h a p;
              h ← (if negb (p =? 0) then set_pprev h p (PNext a) else Some h);
              set_pprev h a (PBucket i)) = Some h' /\
    h' !! a = Some (HNode p (PBucket i) k) /\ dom h' = dom h /\
    forall q n, q <> a -> q <> 0 -> h !! q = Some n ->
      h' !! q = Some (HNode (hnext n) (if decide (q = p) then PNext a else pprev n) (key n)).
Proof.
  intros Ha Hap Hp. unfold set_key, set_hnext, set_pprev. rewrite Ha. cbn.
  rewrite lookup_insert_eq. cbn. rewrite insert_insert_eq.
  destruct (Z.eqb_spec p 0) as [->|Hp0]; cbn.
  - rewrite lookup_insert_eq. cbn. eexists. split_and!; [done|by rewrite lookup_insert_eq| |].
    + rewrite insert_insert_eq. apply dom_insert_lookup_L. by eexists.
    + intros q n Hqa Hq Hn. rewrite !lookup_insert_ne by done. rewrite decide_False, Hn by done. by destruct n.
  - destruct (Hp Hp0) as [np Hnp]. rewrite lookup_insert_ne, Hnp by done. cbn.
    rewrite lookup_insert_ne, lookup_insert_eq by done. cbn.
    eexists. split_and!; [done|by rewrite lookup_insert_eq| |].
    + rewrite (insert_insert_ne _ p a), insert_insert_eq, !dom_insert_L by done.
      apply elem_of_dom_2 in Ha, Hnp. set_solver.
    + intros q n Hqa Hq Hn. rewrite lookup_insert_ne by done. destruct (decide (q = p)) as [->|Hqp].
      * rewrite lookup_insert_eq. by simplify_eq.
      * rewrite !lookup_insert_ne, Hn by done. by destruct n.
Qed.

Lemma add_spec t h L k a :
  table_rep t h L -> 0 <= k < 2 ^ 64 -> a <> 0 -> is_Some (h !! a) -> a ∉ L.*1 ->
  exists t' h', easy_hash_add t h k a = Some (t', h') /\ table_rep t' h' ((a, k) :: L) /\
    count t' = u32 (count t + 1) /\ seqno t' = u64 (seqno t + 1) /\ offset t' = offset t /\
    dom h' = dom h.
Proof.
  intros R Hk Ha0 [na Ha] Hnin. set (i := bucket_of (mask t) k).
  assert (0 <= i < size t) as Hi by (by apply (bucket_range _ _ _ _ R)).
  destruct (tr_chain _ _ _ R i Hi) as (p & Hp & Hc). pose proof (tr_nodup _ _ _ R) as Hnd.
  assert (forall q j, q ∈ (filter (in_bucket (mask t) j) L).*1 -> q <> a) as Hqa.
  { intros q j (k' & Hq & _)%elem_bucket ->. apply Hnin, list_elem_of_fmap. by exists (a, k'). }
  assert (p <> 0 -> p ∈ (filter (in_bucket (mask t) i) L).*1) as Hpin
    by (intros; by eapply chain_first).
  destruct (add_heap h a k p i na Ha) as (h' & E & Ha' & Hdom & Hh).
  { intros <-. by apply (Hqa a i); [apply Hpin|]. }
  { intros Hp0. by destruct (chain_node _ _ _ _ _ Hc (Hpin Hp0)). }
  set (t1 := set_seqno (u64 (seqno t + 1)) (set_count (u32 (count t + 1)) t)).
  assert (exists t', set_bucket t1 i a = Some t') as [t' Et].
  { pose proof (tr_len _ _ _ R). unfold set_bucket. change (buckets t1) with (buckets t).
    rewrite (proj2 (Nat.ltb_lt _ _)) by lia. eauto. }
  exists t', h'. destruct (get_set_bucket _ _ _ _ Et) as (Hg & Hlen & Hsz & Hmk & Hct & Hof & Hsq).
  split_and!; [| |done|done|done|done].
  - unfold easy_hash_add. fold i t1.
    apply bind_Some in E as (h1 & -> & E). apply bind_Some in E as (h2 & E2 & E).
    apply bind_Some in E as (h3 & E3 & E). cbn [mbind option_bind].
    change (set_seqno _ _) with t1. change (get_bucket t1 i) with (get_bucket t i). rewrite Hp. cbn [mbind option_bind].
    rewrite E2. cbn [mbind option_bind]. rewrite E3. cbn [mbind option_bind]. rewrite Et.
    cbn [mbind option_bind]. by rewrite E.
  - cbn in Hlen, Hsz, Hmk. split; rewrite ?Hlen, ?Hsz, ?Hmk; [apply R|apply R|..].
    + simpl. by apply list.NoDup_cons.
    + constructor; [done|apply R].
    + intros j Hj. rewrite Hg by lia. destruct (decide (j = i)) as [->|Hne].
      * exists a. split; [done|]. rewrite filter_cons_True by done. cbn. split_and!; [done|done|].
        exists p. split; [done|]. eapply chain_relink; [by apply nodup_bucket|exact Hc|].
        intros q n Hq Hn. destruct (chain_node _ _ _ _ _ Hc Hq). apply Hh; eauto.
      * rewrite filter_cons_False by (intros E'; by apply Hne).
        destruct (tr_chain _ _ _ R j Hj) as (pj & Hpj & Hcj). exists pj. split; [done|].
        eapply chain_ext; [|exact Hcj]. intros q Hq.
        destruct (chain_node _ _ _ _ _ Hcj Hq) as [Hq0 [n Hn]]. rewrite Hn, (Hh q n) by eauto.
        rewrite decide_False; [by destruct n|]. intros ->. apply Hne.
        by apply (buckets_disjoint (mask t) j i L p); [|done|apply Hpin].
Qed.

(** ** Lookup *)

(** The first node of the sequence with key [k] that [accept] takes. *)
Fixpoint first_match (k : Z) (accept : Z -> bool) (L : entries) : option Z :=
  match L with
  | [] => None
  | (a, k') :: L => if (k' =? k) && accept a then Some a else first_match k accept L
  end.

Lemma first_match_bucket m k accept L :
  first_match k accept (filter (in_bucket m (bucket_of m k)) L) = first_match k accept L.
Proof.
  induction L as [|[a k'] L IH]; [done|]. rewrite filter_cons. cbn [first_match].
  case_decide as Hd; cbn [first_match]; rewrite IH; [done|].
  destruct (Z.eqb_spec k' k) as [->|]; [|done]. by destruct Hd.
Qed.

Lemma find_chain h k accept xs : forall fuel l p,
  chain h l p xs -> (length xs <= fuel)%nat ->
  find_node fuel h p k accept = Some (first_match k accept xs).
Proof.
  induction xs as [|[a k'] xs IH]; intros fuel l p; simpl.
  - intros -> _. by destruct fuel.
  - intros (-> & H0 & nx & Ha & Hc) Hf. destruct fuel as [|fuel]; [lia|]. cbn [find_node].
    rewrite (proj2 (Z.eqb_neq a 0)) by done. rewrite Ha. cbn.
    destruct ((k' =? k) && accept a); [done|]. eapply IH; [exact Hc|lia].
Qed.

Lemma chain_length h l p xs : NoDup (xs.*1) -> chain h l p xs -> (length xs <= base.size h)%nat.
Proof.
  intros Hnd Hc. rewrite <- (length_fmap fst), <- (size_list_to_set (C := gset Z) (xs.*1)) by done.
  rewrite <- size_dom. apply subseteq_size. intros a Ha%elem_of_list_to_set.
  apply elem_of_dom. by destruct (chain_node _ _ _ _ _ Hc Ha).
Qed.

Lemma lookup_spec t h L k accept : table_rep t h L -> 0 <= k < 2 ^ 64 ->
  (list ← get_bucket t (bucket_of (mask t) k);
   find_node (S (base.size h)) h list k accept) = Some (first_match k accept L).
Proof.
  intros R Hk. pose proof (bucket_range _ _ _ _ R Hk) as Hi.
  destruct (tr_chain _ _ _ R _ Hi) as (p & -> & Hc). cbn [mbind option_bind].
  rewrite (find_chain _ _ _ _ _ _ _ Hc), first_match_bucket; [done|].
  pose proof (chain_length _ _ _ _ (nodup_bucket (mask t) _ L (tr_nodup _ _ _ R)) Hc). lia.
Qed.

Lemma first_match_split k L a : first_match k (fun _ => true) L = Some a ->
  exists L1 L2, L = L1 ++ (a, k) :: L2 /\ k ∉ L1.*2.
Proof.
  induction L as [|[b k'] L IH]; [done|]. cbn [first_match]. rewrite andb_true_r.
  destruct (Z.eqb_spec k' k) as [->|Hne].
  - intros [= ->]. exists [], L. split; [done|]. apply not_elem_of_nil.
  - intros H. destruct (IH H) as (L1 & L2 & -> & Hn). exists ((b, k') :: L1), L2. split; [done|].
    rewrite fmap_cons, not_elem_of_cons. done.
Qed.

Lemma first_match_none k L : first_match k (fun _ => true) L = None <-> k ∉ L.*2.
Proof.
  induction L as [|[b k'] L IH]; [split; [intros _; apply not_elem_of_nil|done]|].
  cbn [first_match]. rewrite andb_true_r, fmap_cons, not_elem_of_cons. cbn [snd].
  destruct (Z.eqb_spec k' k) as [->|Hne]; [split; [done|by intros [? _]]|].
  rewrite IH. split; [done|by intros [_ ?]].
Qed.

(** ** Traces *)

Inductive hash_op :=
  | HAdd (k node : Z) | HFind (k : Z) | HFindEx (k : Z) (cmp : Z -> Z -> Z) (arg : Z)
  | HDel (k : Z) | HDelNode (node : Z).

(** An operation with its result: the object found or removed, or the code. *)
Definition run_op (t : easy_hash_t) (h : nodes) (o : hash_op) : option (option Z * easy_hash_t * nodes) :=
  match o with
  | HAdd k a => '(t, h) ← easy_hash_add t h k a; Some (Some EASY_OK, t, h)
  | HFind k => r ← easy_hash_find t h k; Some (r, t, h)
  | HFindEx k cmp arg => r ← easy_hash_find_ex t h k cmp arg; Some (r, t, h)
  | HDel k => easy_hash_del t h k
  | HDelNode a => '(rc, t, h) ← easy_hash_del_node t h a; Some (Some rc, t, h)
  end.

Fixpoint remove_first (k : Z) (L : entries) : entries :=
  match L with
  | [] => []
  | (a, k') :: L => if k' =? k then L else (a, k') :: remove_first k L
  end.

Definition always (_ : Z) : bool := true.

(** The specification: a sequence searched from its most recent entry. *)
Definition spec_op (off : Z) (L : entries) (o : hash_op) : option Z * entries :=
  match o with
  | HAdd k a => (Some EASY_OK, (a, k) :: L)
  | HFind k => (option_map (fun a => a - off) (first_match k always L), L)
  | HFindEx k cmp arg =>
      (option_map (fun a => a - off) (first_match k (fun a => cmp arg (a - off) =? 0) L), L)
  | HDel k => (option_map (fun a => a - off) (first_match k always L), remove_first k L)
  | HDelNode a => (Some 1, filter (fun e => fst e <> a) L)
  end.

(** How [count] moves: [easy_hash_del_node] does not touch it. *)
Definition spec_count (L : entries) (o : hash_op) : Z :=
  match o with
  | HAdd _ _ => 1
  | HDel k => if first_match k always L then -1 else 0
  | _ => 0
  end.

Definition is_key (k : Z) : bool := (0 <=? k) && (k <? 2 ^ 64).

(** What a caller must respect: 64-bit keys, nodes in memory [D], a node is
    added when it is not linked and removed by address when it is. *)
Definition op_ok (D : gset Z) (L : entries) (o : hash_op) : bool :=
  match o with
  | HAdd k a => is_key k && negb (a =? 0) && bool_decide (a ∈ D) && bool_decide (a ∉ L.*1)
  | HFind k | HFindEx k _ _ | HDel k => is_key k
  | HDelNode a => bool_decide (a ∈ L.*1)
  end.

Fixpoint run_ops t h (os : list hash_op) : option (list (option Z) * easy_hash_t * nodes) :=
  match os with
  | [] => Some ([], t, h)
  | o :: os =>
      '(r, t, h) ← run_op t h o; '(rs, t, h) ← run_ops t h os; Some (r :: rs, t, h)
  end.

Fixpoint spec_ops (off : Z) (L : entries) (os : list hash_op) : list (option Z) * entries :=
  match os with
  | [] => ([], L)
  | o :: os => let '(r, L) := spec_op off L o in let '(rs, L) := spec_ops off L os in (r :: rs, L)
  end.

Fixpoint ops_ok (off : Z) (D : gset Z) (L : entries) (os : list hash_op) : bool :=
  match os with
  | [] => true
  | o :: os => op_ok D L o && ops_ok off D (snd (spec_op off L o)) os
  end.

Fixpoint counts (off : Z) (L : entries) (os : list hash_op) : Z :=
  match os with
  | [] => 0
  | o :: os => spec_count L o + counts off (snd (spec_op off L o)) os
  end.

Lemma is_key_spec k : is_key k = true <-> 0 <= k < 2 ^ 64.
Proof. unfold is_key. rewrite andb_true_iff, Z.leb_le, Z.ltb_lt. done. Qed.

Lemma remove_first_split k a L1 L2 : k ∉ L1.*2 -> remove_first k (L1 ++ (a, k) :: L2) = L1 ++ L2.
Proof.
  induction L1 as [|[b kb] L1 IH]; simpl; [by rewrite Z.eqb_refl|].
  intros [Hne Hn]%not_elem_of_cons. rewrite (proj2 (Z.eqb_neq kb k)) by congruence. by rewrite IH.
Qed.

Lemma remove_first_none k L : k ∉ L.*2 -> remove_first k L = L.
Proof.
  induction L as [|[b kb] L IH]; simpl; [done|]. intros [Hne Hn]%not_elem_of_cons.
  rewrite (proj2 (Z.eqb_neq kb k)) by congruence. by rewrite IH.
Qed.

Lemma filter_node a k (L1 L2 : entries) : NoDup ((L1 ++ (a, k) :: L2).*1) ->
  filter (fun e => fst e <> a) (L1 ++ (a, k) :: L2) = L1 ++ L2.
Proof.
  rewrite fmap_app, fmap_cons. simpl. intros (_ & Hd & [Hn _]%list.NoDup_cons)%list.NoDup_app.
  assert (forall L : entries, a ∉ L.*1 -> filter (fun e => fst e <> a) L = L) as Hf.
  { induction L as [|[b kb] L IH]; [done|]. rewrite fmap_cons. intros [Hne Hin]%not_elem_of_cons.
    rewrite filter_cons_True by (simpl in *; congruence). by rewrite IH. }
  assert (a ∉ L1.*1) by (intros Ha; apply (Hd a Ha); by left).
  rewrite list.filter_app, filter_cons_False, !Hf; auto.
Qed.

Lemma hash_run_op_refines t h L o : table_rep t h L -> op_ok (dom h) L o = true ->
  exists t' h', run_op t h o = Some (fst (spec_op (offset t) L o), t', h') /\
    table_rep t' h' (snd (spec_op (offset t) L o)) /\ offset t' = offset t /\ dom h' = dom h /\
    count t' mod 2 ^ 32 = (count t + spec_count L o) mod 2 ^ 32.
Proof.
  intros R Hok. destruct o as [k a|k|k cmp arg|k|a]; cbn [run_op spec_op op_ok spec_count fst snd] in *.
  - rewrite !andb_true_iff, negb_true_iff, Z.eqb_neq, !bool_decide_eq_true, is_key_spec in Hok.
    destruct Hok as [[[Hk Ha0] Hin] Hnin]. apply elem_of_dom in Hin.
    destruct (add_spec t h L k a R Hk Ha0 Hin Hnin) as (t' & h' & E & R' & Hc & _ & Hof & Hd).
    rewrite E. exists t', h'. split_and!; try done. rewrite Hc. apply Z.mod_mod. lia.
  - apply is_key_spec in Hok. unfold easy_hash_find. pose proof (lookup_spec t h L k always R Hok) as Hl.
    apply bind_Some in Hl as (p & -> & Hl). cbn [mbind option_bind]. unfold always in Hl. rewrite Hl. cbn.
    exists t, h. split_and!; try done. by rewrite Z.add_0_r.
  - apply is_key_spec in Hok. unfold easy_hash_find_ex.
    pose proof (lookup_spec t h L k (fun a => cmp arg (a - offset t) =? 0) R Hok) as Hl.
    apply bind_Some in Hl as (p & -> & Hl). cbn [mbind option_bind]. rewrite Hl. cbn.
    exists t, h. split_and!; try done. by rewrite Z.add_0_r.
  - apply is_key_spec in Hok. unfold easy_hash_del. pose proof (lookup_spec t h L k always R Hok) as Hl.
    apply bind_Some in Hl as (p & -> & Hl). cbn [mbind option_bind]. unfold always in *. rewrite Hl.
    cbn [mbind option_bind]. destruct (first_match k (fun _ => true) L) as [a|] eqn:Ef.
    + destruct (first_match_split _ _ _ Ef) as (L1 & L2 & -> & Hn).
      destruct (del_node_spec t h L1 L2 a k R) as (t' & h' & E & R' & Hst & Hd & _). rewrite E.
      cbn [mbind option_bind]. destruct Hst as (Hlen & Hsz & Hmk & Hct & Hof & Hsq).
      eexists _, h'. cbn [count set_count offset option_map]. rewrite Hof, Hct, remove_first_split by done.
      split_and!; [done| |done|done|apply Z.mod_mod; lia].
      destruct R'. by split.
    + exists t, h. rewrite (remove_first_none k L) by (by apply first_match_none).
      split_and!; try done. by rewrite Z.add_0_r.
  - apply bool_decide_eq_true in Hok. apply list_elem_of_fmap in Hok as ([a' k] & -> & Hin). cbn [fst].
    apply list_elem_of_split in Hin as (L1 & L2 & ->).
    destruct (del_node_spec t h L1 L2 a' k R) as (t' & h' & E & R' & Hst & Hd & _). rewrite E. cbn.
    destruct Hst as (_ & _ & _ & Hct & Hof & _). exists t', h'.
    rewrite filter_node by apply R. split_and!; try done. by rewrite Hct, Z.add_0_r.
Qed.

(** C29 (refinement).  A table in its invariant runs any admissible sequence of
    add, find, find_ex, del and del_node calls without touching memory that is
    not there, with exactly the results of the specification, a sequence of
    (node, key) pairs searched from the most recent one; the invariant holds
    at the end for the resulting sequence, and [count] has moved by the adds
    minus the successful deletions by key. *)
Theorem easy_hash_refines t h L os :
  table_rep t h L -> ops_ok (offset t) (dom h) L os = true ->
  exists t' h', run_ops t h os = Some (fst (spec_ops (offset t) L os), t', h') /\
    table_rep t' h' (snd (spec_ops (offset t) L os)) /\
    count t' mod 2 ^ 32 = (count t + counts (offset t) L os) mod 2 ^ 32.
Proof.
  revert t h L. induction os as [|o os IH]; intros t h L R Hok; cbn [run_ops spec_ops ops_ok counts] in *.
  { exists t, h. split_and!; try done. by rewrite Z.add_0_r. }
  apply andb_true_iff in Hok as [Ho Hos].
  destruct (hash_run_op_refines t h L o R Ho) as (t1 & h1 & E1 & R1 & Hof1 & Hd1 & Hc1). rewrite E1.
  cbn [mbind option_bind]. destruct (spec_op (offset t) L o) as [r L1]. cbn [fst snd] in *.
  rewrite <- Hof1, <- Hd1 in Hos. destruct (IH t1 h1 L1 R1 Hos) as (t2 & h2 & E2 & R2 & Hc2).
  rewrite E2. cbn [mbind option_bind]. rewrite Hof1 in *.
  destruct (spec_ops (offset t) L1 os) as [rs L2]. cbn [fst snd] in *.
  exists t2, h2. split_and!; [done|done|]. rewrite Hc2, Z.add_assoc.
  by rewrite <- Z.add_mod_idemp_l, Hc1, Z.add_mod_idemp_l by lia.
Qed.

(** ** Creation *)

Lemma round_up_spec size : 0 <= size <= 2 ^ 31 - 1 -> forall fuel m, 2 <= m <= 31 -> 31 - m < Z.of_nat fuel ->
  (m = 2 \/ 2 ^ (m - 1) < size) ->
  exists m', 2 <= m' <= 31 /\ round_up fuel size (2 ^ m) = 2 ^ m' /\ size <= 2 ^ m' /\
    (m' = 2 \/ 2 ^ (m' - 1) < size).
Proof.
  intros Hs. induction fuel as [|fuel IH]; intros m Hm Hf Hmin; [lia|]. cbn [round_up].
  destruct (Z.ltb_spec (2 ^ m) size) as [Hlt|Hge]; [|exists m; done].
  assert (m < 31) by (destruct (decide (m = 31)) as [->|]; [lia|lia]).
  rewrite Z.shiftl_mul_pow2 by lia. change (2 ^ 1) with 2. rewrite Z.mul_comm, <- Z.pow_succ_r by lia.
  rewrite wrapu_small by (split; [lia|apply Z.pow_lt_mono_r; lia]).
  apply IH; [lia|lia|]. right. by replace (Z.succ m - 1) with m by lia.
Qed.

Lemma empty_rep m c off sq h : 0 <= m <= 31 ->
  table_rep (Table (replicate (Z.to_nat (2 ^ m)) 0) (2 ^ m) (2 ^ m - 1) c off sq) h [].
Proof.
  intros Hm. split; cbn.
  - exists m. done.
  - rewrite length_replicate. lia.
  - constructor.
  - constructor.
  - intros i Hi. exists 0. split; [|done]. unfold get_bucket. cbn. apply lookup_replicate_2. lia.
Qed.

(** Memory from a zeroing allocator: the words of a block of [n] bytes. *)
Definition zeroed (calloc : Z -> option (list Z)) : Prop :=
  forall n b, calloc n = Some b -> b = replicate (Z.to_nat (n / 8)) 0.

(** A table created for up to 2^28 entries is empty and in its
    invariant, with the least power of two of at least 4 buckets that is not
    below the requested size. *)
Theorem easy_hash_create_spec calloc ok sz off t :
  zeroed calloc -> 0 <= sz <= 2 ^ 28 -> easy_hash_create calloc ok sz off = Some t ->
  (forall h, table_rep t h []) /\ count t = 0 /\ offset t = off /\ sz <= size t /\
  (size t = 4 \/ size t < 2 * sz).
Proof.
  intros Hz Hs E. unfold easy_hash_create in E.
  assert (Z.land sz 2147483647 = sz) as Hl.
  { change 2147483647 with (Z.ones 31). rewrite Z.land_ones by lia. apply Z.mod_small. lia. }
  rewrite Hl in E. destruct (round_up_spec sz ltac:(lia) 32 2) as (m & Hm & Er & Hge & Hmin);
    [lia|lia|by left|]. change (2 ^ 2) with 4 in Er. rewrite Er in E.
  assert (m <= 28) as Hm28.
  { destruct Hmin as [->|Hmin]; [lia|]. destruct (decide (m <= 28)); [done|].
    pose proof (Z.pow_le_mono_r 2 28 (m - 1)). lia. }
  assert (0 < 2 ^ m <= 2 ^ 28) as Hp by (split; [lia|apply Z.pow_le_mono_r; lia]).
  rewrite (wrapu_small 32 (2 ^ m * 8)) in E by (change (2 ^ 28) with 268435456 in *; change (2 ^ 32) with 4294967296; lia).
  destruct (calloc (2 ^ m * 8)) as [b|] eqn:Eb; [|done]. destruct ok; [|done]. injection E as <-.
  apply Hz in Eb. rewrite Z.div_mul in Eb by lia. subst b. cbn.
  rewrite (wrapu_small 32 (2 ^ m - 1)) by (change (2 ^ 28) with 268435456 in *; change (2 ^ 32) with 4294967296; lia).
  split_and!; [|done|done|done|].
  - intros h. apply empty_rep. lia.
  - destruct Hmin as [->|Hmin]; [by left|right]. replace m with (Z.succ (m - 1)) by lia.
    rewrite Z.pow_succ_r by lia. lia.
Qed.

(** ** Witnesses *)

Definition demo_calloc (n : Z) : option (list Z) := Some (replicate (Z.to_nat (n / 8)) 0).

Lemma easy_hash_create_spec_witness :
  exists t, easy_hash_create demo_calloc true 5 16 = Some t /\ size t = 8 /\ table_rep t ∅ [].
Proof.
  eexists. split; [vm_compute; reflexivity|]. split; [reflexivity|].
  apply (easy_hash_create_spec demo_calloc true 5 16); [|lia|vm_compute; reflexivity].
  intros n b [= <-]. reflexivity.
Defined.

Definition demo_nodes : nodes :=
  <[100 := HNode 0 PNull 0]> (<[200 := HNode 0 PNull 0]> (<[300 := HNode 0 PNull 0]> ∅)).
Definition demo_table : easy_hash_t := Table (replicate (Z.to_nat (2 ^ 2)) 0) (2 ^ 2) (2 ^ 2 - 1) 0 16 1.
Definition demo_ops : list hash_op :=
  [HAdd 7 100; HAdd 7 200; HAdd 9 300; HFind 7; HDel 7; HFind 7; HDelNode 100; HFind 7; HFind 9].

Lemma easy_hash_refines_witness :
  exists t' h', run_ops demo_table demo_nodes demo_ops =
    Some ([Some 0; Some 0; Some 0; Some 184; Some 184; Some 84; Some 1; None; Some 284], t', h') /\
    table_rep t' h' [(300, 9)] /\ count t' mod 2 ^ 32 = 2.
Proof.
  exact (easy_hash_refines demo_table demo_nodes [] demo_ops (empty_rep 2 0 16 1 demo_nodes ltac:(lia))
    ltac:(vm_compute; reflexivity)).
Defined.

End EasyHash.
