(* ===== verification/EasyPool.v ===== *)
(** * util/easy_pool.c: region allocator on top of a replaceable realloc

    A pool is a chain of equally sized blocks (the first one holds the pool
    header), a list of large allocations and a [current] block where searches
    start.  The [next] pointers are the order of the list [blocks], [current]
    is the position of the block it points to.  [easy_pool_realloc] is a
    parameter: the class [Allocator] gives its state, what is live in it, and
    the contract of [realloc(NULL, n)] and [realloc(p, 0)].  The spin lock that
    [easy_pool_set_lock] switches on serialises calls and is not modelled
    otherwise. *)

From Stdlib Require Import ZArith Lia.
From stdpp Require Import base gmap list numbers option.
From S2P Require Import Prelude.

Local Open Scope Z_scope.

Module EasyPool.

(** ** The system allocator behind [easy_pool_realloc] *)

Class Allocator (A : Type) := {
  a_alloc : A -> Z -> option Z * A;       (** [realloc(NULL, n)] *)
  a_free : A -> Z -> A;                   (** [realloc(p, 0)] *)
  a_live : A -> gmap Z Z                  (** address and size of what is live *) }.

(** Live regions of an allocator state do not overlap, a fresh region is
    word aligned and new, freeing removes exactly the region. *)
Class AllocatorLaws (A : Type) `{Allocator A} : Prop := {
  al_disjoint : forall a p q n m, a_live a !! p = Some n -> a_live a !! q = Some m -> p <> q ->
    p + n <= q \/ q + m <= p;
  al_alloc : forall a n p a', a_alloc a n = (Some p, a') ->
    0 < p /\ (8 | p) /\ a_live a !! p = None /\ a_live a' = <[p := n]> (a_live a);
  al_fail : forall a n a', a_alloc a n = (None, a') -> a_live a' = a_live a;
  al_free : forall a p, a_live (a_free a p) = delete p (a_live a) }.

(** ** Data *)

Definition EASY_POOL_ALIGNMENT : Z := 512.
Definition sizeof_easy_pool_t : Z := 64.
Definition offsetof_current : Z := 32.
Definition sizeof_easy_pool_large_t : Z := 8.

Record block := Block { b_base : Z; b_last : Z; b_end : Z; b_failed : Z }.

Record easy_pool_t := Pool {
  blocks : list block; current : nat; large : list Z; max : Z; flags : Z; ref : Z }.

Definition set_blocks bs p := Pool bs (current p) (large p) (max p) (flags p) (ref p).
Definition set_large l p := Pool (blocks p) (current p) l (max p) (flags p) (ref p).

(** The address of the pool is that of its first block. *)
Definition pool_base (p : easy_pool_t) : Z :=
  match blocks p with b :: _ => b_base b | [] => 0 end.
Definition pool_end (p : easy_pool_t) : Z :=
  match blocks p with b :: _ => b_end b | [] => 0 end.

(** ** Operations *)

Section operations.
Context {A : Type} `{Allocator A}.

Definition easy_pool_create (a : A) (size : Z) : option easy_pool_t * A :=
  let size := u32 (easy_align (size + sizeof_easy_pool_t) EASY_POOL_ALIGNMENT) in
  match a_alloc a size with
  | (None, a) => (None, a)
  | (Some p, a) =>
      (Some (Pool [Block p (p + sizeof_easy_pool_t) (p + size) 0] 0 []
               (u32 (size - sizeof_easy_pool_t)) 0 0), a)
  end.

(** The [do ... while] of [easy_pool_alloc]: the first block from [current] on
    with room behind its aligned [last]. *)
Fixpoint scan (al : Z -> Z) (size : Z) (bs : list block) : option (Z * list block) :=
  match bs with
  | [] => None
  | b :: bs =>
      let m := al (b_last b) in
      if m + size <=? b_end b then Some (m, Block (b_base b) (m + size) (b_end b) (b_failed b) :: bs)
      else match scan al size bs with
           | Some (m, bs) => Some (m, b :: bs)
           | None => None
           end
  end.

(** [for (p = current; p->next; p = p->next) if (p->failed++ > 4) current = p->next;]
    on the blocks from position [i] on. *)
Fixpoint bump_failed (i : nat) (bs : list block) (cur : nat) : list block * nat :=
  match bs with
  | b :: ((_ :: _) as rest) =>
      let cur := if 4 <? b_failed b then S i else cur in
      let '(rest, cur) := bump_failed (S i) rest cur in
      (Block (b_base b) (b_last b) (b_end b) (u16 (b_failed b + 1)) :: rest, cur)
  | _ => (bs, cur)
  end.

Definition easy_pool_alloc_block (a : A) (p : easy_pool_t) (size : Z) : option Z * easy_pool_t * A :=
  let psize := u32 (pool_end p - pool_base p) in
  match a_alloc a psize with
  | (None, a) => (None, p, a)
  | (Some base, a) =>
      let m := easy_align (base + offsetof_current) 8 in
      let newpool := Block base (m + size) (base + psize) 0 in
      let '(bs, cur) := bump_failed (current p) (drop (current p) (blocks p)) (current p) in
      (Some m,
       Pool (take (current p) (blocks p) ++ bs ++ [newpool]) cur (large p) (max p) (flags p) (ref p),
       a)
  end.

Definition easy_pool_alloc_large (a : A) (p : easy_pool_t) (size : Z) : option Z * easy_pool_t * A :=
  let size := u32 (easy_align (size + sizeof_easy_pool_large_t) EASY_POOL_ALIGNMENT) in
  match a_alloc a size with
  | (None, a) => (None, p, a)
  | (Some l, a) => (Some (l + sizeof_easy_pool_large_t), set_large (l :: large p) p, a)
  end.

(** [easy_pool_alloc] and [easy_pool_nalloc] differ in the alignment. *)
Definition pool_alloc (al : Z -> Z) (a : A) (p : easy_pool_t) (size : Z)
    : option Z * easy_pool_t * A :=
  if size <=? max p then
    match scan al size (drop (current p) (blocks p)) with
    | Some (m, bs) => (Some m, set_blocks (take (current p) (blocks p) ++ bs) p, a)
    | None => easy_pool_alloc_block a p size
    end
  else easy_pool_alloc_large a p size.

Definition easy_pool_alloc (a : A) (p : easy_pool_t) (size : Z) : option Z * easy_pool_t * A :=
  pool_alloc (fun x => easy_align x 8) a p size.
Definition easy_pool_nalloc (a : A) (p : easy_pool_t) (size : Z) : option Z * easy_pool_t * A :=
  pool_alloc (fun x => x) a p size.

Definition free_all (a : A) (l : list Z) : A := fold_left a_free l a.

Definition easy_pool_clear (a : A) (p : easy_pool_t) : easy_pool_t * A :=
  let a := free_all a (large p) in
  match blocks p with
  | [] => (p, a)
  | b :: rest =>
      let a := free_all a (map b_base rest) in
      (Pool [Block (b_base b) (b_base b + sizeof_easy_pool_t) (b_end b) 0] 0 [] (max p) (flags p) (ref p),
       a)
  end.

(** [None] is the failed assertion on [ref]. *)
Definition easy_pool_destroy (a : A) (p : easy_pool_t) : option A :=
  let '(p, a) := easy_pool_clear a p in
  if ref p =? 0 then Some (a_free a (pool_base p)) else None.

Definition easy_pool_set_lock (p : easy_pool_t) : easy_pool_t :=
  Pool (blocks p) (current p) (large p) (max p) 1 (ref p).

End operations.

(** ** Contents: the variants that write *)

Fixpoint write_bytes (mem : gmap Z Z) (p : Z) (l : list Z) : gmap Z Z :=
  match l with
  | [] => mem
  | b :: l => <[p := b]> (write_bytes mem (p + 1) l)
  end.

(** [n] bytes from address [p]; [None] where nothing was written. *)
Fixpoint load (n : nat) (mem : gmap Z Z) (p : Z) : option (list Z) :=
  match n with
  | O => Some []
  | S n => b ← mem !! p; l ← load n mem (p + 1); Some (b :: l)
  end.

(** [strlen] and the bytes before the terminator; [None] without one. *)
Fixpoint read_string (fuel : nat) (mem : gmap Z Z) (p : Z) : option (list Z) :=
  match fuel with
  | O => None
  | S fuel => b ← mem !! p; if b =? 0 then Some [] else l ← read_string fuel mem (p + 1); Some (b :: l)
  end.

Definition easy_pool_calloc {A} `{Allocator A} (a : A) (mem : gmap Z Z) (p : easy_pool_t) (size : Z)
    : option Z * easy_pool_t * A * gmap Z Z :=
  match easy_pool_alloc a p size with
  | (Some m, p, a) => (Some m, p, a, write_bytes mem m (replicate (Z.to_nat size) 0))
  | (None, p, a) => (None, p, a, mem)
  end.

(** [str] is the string without its terminator. *)
Definition easy_pool_strdup {A} `{Allocator A} (a : A) (mem : gmap Z Z) (p : easy_pool_t) (str : list Z)
    : option Z * easy_pool_t * A * gmap Z Z :=
  let sz := i32 (Z.of_nat (length str) + 1) in
  match easy_pool_alloc a p (u32 sz) with
  | (Some ptr, p, a) => (Some ptr, p, a, write_bytes mem ptr (str ++ [0]))
  | (None, p, a) => (None, p, a, mem)
  end.

(** ** Invariant *)

Abbreviation region := (Z * Z)%type.

Definition apart (r s : region) : Prop := fst r + snd r <= fst s \/ fst s + snd s <= fst r.

Fixpoint all_apart (R : list region) : Prop :=
  match R with
  | [] => True
  | r :: R => (forall s, s ∈ R -> apart r s) /\ all_apart R
  end.

(** The first block starts with the whole pool header, the others with its
    first half. *)
Definition header (i : nat) : Z := match i with O => sizeof_easy_pool_t | _ => offsetof_current end.

Definition keys (p : easy_pool_t) : list Z := map b_base (blocks p) ++ large p.

(** ** Strings *)

Lemma write_bytes_lookup l : forall mem p j b,
  (l !! j = Some b) -> write_bytes mem p l !! (p + Z.of_nat j) = Some b.
Proof.
  induction l as [|x l IH]; intros mem p [|j] b Hj; try done; cbn [write_bytes].
  - cbn in Hj. simplify_eq. by rewrite Z.add_0_r, lookup_insert_eq.
  - rewrite lookup_insert_ne by lia. replace (p + Z.of_nat (S j)) with ((p + 1) + Z.of_nat j) by lia. by apply IH.
Qed.

Lemma write_bytes_other l : forall mem p q, q < p \/ p + Z.of_nat (length l) <= q ->
  write_bytes mem p l !! q = mem !! q.
Proof.
  induction l as [|x l IH]; intros mem p q Hq; [done|]. cbn [write_bytes length] in *.
  rewrite lookup_insert_ne by lia. apply IH. lia.
Qed.

Lemma load_ext n : forall mem mem' p, (forall q, p <= q < p + Z.of_nat n -> mem' !! q = mem !! q) ->
  load n mem' p = load n mem p.
Proof.
  induction n as [|n IH]; intros mem mem' p Hq; [done|]. cbn. rewrite Hq by lia.
  destruct (mem !! p); [|done]. cbn. rewrite (IH mem mem') by (intros; apply Hq; lia). done.
Qed.

Lemma load_write l : forall mem p, load (length l) (write_bytes mem p l) p = Some l.
Proof.
  induction l as [|x l IH]; intros mem p; [done|]. cbn. rewrite lookup_insert_eq. cbn.
  rewrite (load_ext _ (write_bytes mem (p + 1) l)), IH; [done|].
  intros q Hq. apply lookup_insert_ne. lia.
Qed.

Lemma load_length n : forall mem p l, load n mem p = Some l -> length l = n.
Proof.
  induction n as [|n IH]; intros mem p l; cbn; [by intros [= <-]|].
  destruct (mem !! p); [|done]. cbn. destruct (load n mem (p + 1)) as [l'|] eqn:E; [|done].
  intros [= <-]. cbn. f_equal. by eapply IH.
Qed.

Lemma read_string_S n mem p : read_string (S n) mem p =
  b ← mem !! p; if b =? 0 then Some [] else l ← read_string n mem (p + 1); Some (b :: l).
Proof. done. Qed.

(** A terminated string without zero bytes reads back. *)
Lemma read_write_string l : forall mem p, Forall (fun b => b <> 0) l ->
  read_string (S (length l)) (write_bytes mem p (l ++ [0])) p = Some l.
Proof.
  induction l as [|x l IH]; intros mem p Hl; cbn [app write_bytes].
  - cbn. by rewrite lookup_insert_eq.
  - inversion_clear Hl as [|? ? Hx Hl']. cbn [length]. rewrite read_string_S.
    rewrite lookup_insert_eq. cbn [mbind option_bind]. destruct (Z.eqb_spec x 0); [done|].
    assert (forall n m q v, q < m -> read_string n (<[q := v]> (write_bytes mem (p + 1) (l ++ [0]))) m =
              read_string n (write_bytes mem (p + 1) (l ++ [0])) m) as Hsk.
    { induction n0 as [|n0 IHn]; intros m q v Hq; [done|]. cbn. rewrite lookup_insert_ne by lia.
      destruct (_ !! m); [|done]. cbn. destruct (_ =? 0); [done|]. rewrite IHn by lia. done. }
    rewrite Hsk by lia. by rewrite IH.
Qed.

Section invariant.
Context {A : Type} `{AllocatorLaws A}.
Implicit Types (a : A) (p : easy_pool_t) (R : list region).

Definition block_ok a psize (i : nat) (b : block) : Prop :=
  b_end b = b_base b + psize /\ a_live a !! b_base b = Some psize /\ (8 | b_base b) /\
  b_base b + header i <= b_last b <= b_end b.

Definition region_ok a p (r : region) : Prop := 0 <= snd r /\
  ((exists i b, blocks p !! i = Some b /\ b_base b + header i <= fst r /\ fst r + snd r <= b_last b) \/
   (exists l n, l ∈ large p /\ a_live a !! l = Some n /\
      l + sizeof_easy_pool_large_t <= fst r /\ fst r + snd r <= l + n)).

(** [R]: the regions handed out since creation or the last clear. *)
Record pool_inv a p R : Prop := {
  pi_nonempty : (0 < length (blocks p))%nat;
  pi_blocks : exists psize, 64 <= psize < 2 ^ 32 /\ max p = psize - 64 /\
    forall i b, blocks p !! i = Some b -> block_ok a psize i b;
  pi_current : (current p < length (blocks p))%nat;
  pi_nodup : NoDup (keys p);
  pi_large : forall l, l ∈ large p -> is_Some (a_live a !! l);
  pi_regions : forall r, r ∈ R -> region_ok a p r;
  pi_apart : all_apart R }.

(** What is live and does not belong to the pool. *)
Definition outside a p : gmap Z Z := filter (fun kv => fst kv ∉ keys p) (a_live a).

(** ** Lists of blocks *)

Lemma scan_spec al size bs : forall m bs', scan al size bs = Some (m, bs') ->
  exists i b, bs !! i = Some b /\ m = al (b_last b) /\ m + size <= b_end b /\
    bs' = <[i := Block (b_base b) (m + size) (b_end b) (b_failed b)]> bs.
Proof.
  induction bs as [|b bs IH]; intros m bs'; cbn [scan]; [done|].
  destruct (Z.leb_spec (al (b_last b) + size) (b_end b)) as [Hle|_].
  - intros [= <- <-]. by exists 0%nat, b.
  - destruct (scan al size bs) as [[m1 bs1]|] eqn:E; [|done]. intros [= <- <-].
    destruct (IH _ _ eq_refl) as (i & b' & Hi & -> & Hle & ->). by exists (S i), b'.
Qed.

(** The failure counters are the only thing [bump_failed] changes. *)
Definition same_block (b b' : block) : Prop :=
  b_base b' = b_base b /\ b_last b' = b_last b /\ b_end b' = b_end b.

Lemma bump_failed_cons2 i b b2 bs cur :
  bump_failed i (b :: b2 :: bs) cur =
  let '(rest, cur) := bump_failed (S i) (b2 :: bs) (if 4 <? b_failed b then S i else cur) in
  (Block (b_base b) (b_last b) (b_end b) (u16 (b_failed b + 1)) :: rest, cur).
Proof. done. Qed.

Lemma bump_failed_spec bs : forall i cur, (cur < i + length bs)%nat -> 
  Forall2 same_block bs (fst (bump_failed i bs cur)) /\
  (snd (bump_failed i bs cur) < i + length bs)%nat.
Proof.
  induction bs as [|b bs IH]; intros i cur Hc; [by split; [constructor|]|].
  destruct bs as [|b2 bs]; [by split; [repeat constructor|]|].
  rewrite bump_failed_cons2. set (cur' := if 4 <? b_failed b then S i else cur).
  destruct (IH (S i) cur') as [H1 H2]; [unfold cur'; destruct (4 <? b_failed b); simpl in *; lia|].
  destruct (bump_failed (S i) (b2 :: bs) cur') as [rest cur2]. cbn [fst snd length] in *.
  split; [by constructor|lia].
Qed.

(** ** Allocation *)

(** The live region a handed-out region lies in. *)
Definition spans a (k n : Z) (r : region) : Prop :=
  a_live a !! k = Some n /\ k <= fst r /\ fst r + snd r <= k + n.

Lemma region_span a p R r : pool_inv a p R -> region_ok a p r ->
  exists k n, k ∈ keys p /\ spans a k n r.
Proof.
  intros I [_ [(i & b & Hb & H1 & H2)|(l & n & Hl & Hn & H1 & H2)]].
  - destruct (pi_blocks _ _ _ I) as (psize & _ & _ & Hbs). destruct (Hbs i b Hb) as (E & Hn & _ & Hlast).
    exists (b_base b), psize. split.
    + apply elem_of_app. left. apply list_elem_of_fmap. exists b. split; [done|]. by eapply list_elem_of_lookup_2.
    + split_and!; [done| |lia]. unfold header in H1. destruct i; unfold sizeof_easy_pool_t, offsetof_current in H1; lia.
  - exists l, n. split; [apply elem_of_app; by right|]. unfold sizeof_easy_pool_large_t in H1.
    split_and!; [done|lia|lia].
Qed.

Lemma spans_apart a k n k' n' r r' : spans a k n r -> spans a k' n' r' -> k <> k' -> apart r r'.
Proof.
  intros (H1 & H2 & H3) (H1' & H2' & H3') Hne. unfold apart.
  destruct (al_disjoint a k k' n n' H1 H1' Hne); lia.
Qed.

(** The invariant looks at a block only through its extent. *)
Lemma inv_same_blocks a p R bs : pool_inv a p R -> Forall2 same_block (blocks p) bs ->
  forall cur, (cur < length bs)%nat ->
  pool_inv a (Pool bs cur (large p) (max p) (flags p) (ref p)) R.
Proof.
  intros I Hbs cur Hcur. pose proof (list.Forall2_length _ _ _ Hbs) as Hlen.
  assert (map b_base bs = map b_base (blocks p)) as Hmap.
  { clear -Hbs. induction Hbs as [|b b' l l' (E & _) _ IH]; simpl; [done|]. by rewrite E, IH. }
  assert (forall i b, bs !! i = Some b -> exists b0, blocks p !! i = Some b0 /\ same_block b0 b) as Hget.
  { intros i b Hb. destruct (Forall2_lookup_r _ _ _ _ _ Hbs Hb) as (b0 & ? & ?). eauto. }
  split; cbn [blocks current large max]; try done.
  - rewrite <- Hlen. apply I.
  - destruct (pi_blocks _ _ _ I) as (psize & Hps & Hmx & Hb). exists psize. split; [done|]. split; [done|].
    intros i b Hib. destruct (Hget i b Hib) as (b0 & Hb0 & E1 & E2 & E3).
    unfold block_ok. rewrite E1, E2, E3. by apply Hb.
  - unfold keys. cbn. rewrite Hmap. apply I.
  - apply I.
  - intros r Hr. destruct (pi_regions _ _ _ I r Hr) as [Hs [(i & b & Hb & H1 & H2)|Hl]]; (split; [done|]).
    + left. destruct (Forall2_lookup_l _ _ _ _ _ Hbs Hb) as (b' & Hb' & E1 & E2 & E3).
      exists i, b'. cbn. by rewrite E1, E2.
    + by right.
  - apply I.
Qed.

(** Placing a region behind [last] of a block of the pool. *)
Lemma inv_place a p R i b m size :
  pool_inv a p R -> blocks p !! i = Some b -> b_last b <= m -> 0 <= size -> m + size <= b_end b ->
  pool_inv a (set_blocks (<[i := Block (b_base b) (m + size) (b_end b) (b_failed b)]> (blocks p)) p)
    ((m, size) :: R).
Proof.
  intros I Hb Hm Hs Hend. pose proof (lookup_lt_Some _ _ _ Hb) as Hi.
  destruct (pi_blocks _ _ _ I) as (psize & Hps & Hmx & Hbs). destruct (Hbs i b Hb) as (E & Hl & Hal & Hlast).
  set (b' := Block _ _ _ _). set (bs := <[i := b']> (blocks p)).
  assert (map b_base bs = map b_base (blocks p)) as Hmap.
  { unfold bs. change (map b_base) with (fmap (M := list) b_base). rewrite list_fmap_insert.
    apply list_insert_id. by rewrite list_lookup_fmap, Hb. }
  split; cbn [blocks current large max set_blocks]; unfold bs; rewrite ?length_insert; try apply I.
  - exists psize. split; [done|]. split; [done|]. intros j b0. rewrite list_lookup_insert. case_decide as Hd.
    + destruct Hd as [-> _]. intros [= <-]. unfold block_ok, b'. cbn. split_and!; [done|done|done|lia|lia].
    + apply Hbs.
  - unfold keys. cbn. fold bs. rewrite Hmap. apply I.
  - assert (region_ok a (set_blocks bs p) (m, size)) as Hnew.
    { split; [done|]. left. exists i, b'. cbn. unfold bs. rewrite list_lookup_insert_eq by done. split_and!; [done| |]; lia. }
    intros r [->|Hr]%elem_of_cons; [done|].
    destruct (pi_regions _ _ _ I r Hr) as [Hs' [(j & b0 & Hb0 & H1 & H2)|Hlg]]; (split; [done|]); [left|by right].
    cbn. unfold bs. destruct (decide (j = i)) as [->|Hne].
    + exists i, b'. rewrite list_lookup_insert_eq by done. simplify_eq. split_and!; [done|done|]. cbn. lia.
    + exists j, b0. by rewrite list_lookup_insert_ne.
  - split; [|apply I]. intros r Hr. pose proof (pi_regions _ _ _ I r Hr) as Hok.
    assert (spans a (b_base b) psize (m, size)) as Hnew.
    { split_and!; [done| |]; cbn; [|lia]. unfold header in Hlast.
      destruct i; unfold sizeof_easy_pool_t, offsetof_current in Hlast; lia. }
    pose proof (pi_nodup _ _ _ I) as (Hnd & Hdj & _)%list.NoDup_app.
    destruct Hok as [_ [(j & b0 & Hb0 & H1 & H2)|(l & n' & Hlg & Hn' & H1 & H2)]].
    + destruct (decide (j = i)) as [->|Hji]; [simplify_eq; right; cbn; lia|].
      destruct (Hbs j b0 Hb0) as (E0 & Hl0 & _ & Hlast0).
      eapply (spans_apart a (b_base b) psize (b_base b0) psize); [done| |].
      * split_and!; [done| |lia]. unfold header in H1.
        destruct j; unfold sizeof_easy_pool_t, offsetof_current in H1; lia.
      * intros Eb. apply Hji. apply (NoDup_lookup _ j i (b_base b) Hnd);
          change (map b_base) with (fmap (M := list) b_base); rewrite list_lookup_fmap;
          [by rewrite Hb0, Eb|by rewrite Hb].
    + eapply (spans_apart a (b_base b) psize l n'); [done| |].
      * unfold sizeof_easy_pool_large_t in H1. split_and!; [done|lia|lia].
      * intros <-. apply (Hdj (b_base b)); [|done]. apply list_elem_of_fmap. exists b.
        split; [done|]. by eapply list_elem_of_lookup_2.
Qed.

(** The invariant survives allocations elsewhere. *)
Lemma inv_live a a' p R :
  pool_inv a p R -> (forall k n, a_live a !! k = Some n -> a_live a' !! k = Some n) -> pool_inv a' p R.
Proof.
  intros I Hl. destruct I. split; try done.
  - destruct pi_blocks0 as (psize & Hp & Hm & Hb). exists psize. split; [done|]. split; [done|].
    intros i b Hib. destruct (Hb i b Hib) as (? & ? & ? & ?). split_and!; [done|by apply Hl|done|lia|lia].
  - intros l Hin. destruct (pi_large0 l Hin) as [n Hn]. exists n. by apply Hl.
  - intros r Hr. destruct (pi_regions0 r Hr) as [Hs [Hb|(l & n & Hin & Hn & H1)]]; (split; [done|]); [by left|].
    right. exists l, n. split_and!; [done|by apply Hl|lia|lia].
Qed.

Lemma inv_add_block a p R psize base :
  pool_inv a p R -> pool_end p - pool_base p = psize -> a_live a !! base = Some psize ->
  base ∉ keys p -> (8 | base) ->
  pool_inv a (set_blocks (blocks p ++ [Block base (base + offsetof_current) (base + psize) 0]) p) R.
Proof.
  intros I Hsz Hl Hnin Hal. destruct (pi_blocks _ _ _ I) as (ps & Hps & Hmx & Hbs).
  assert (ps = psize) as ->.
  { pose proof (pi_nonempty _ _ _ I). unfold pool_end, pool_base in Hsz.
    destruct (blocks p) as [|b bs] eqn:Eb; [simpl in *; lia|]. rewrite <- Hsz.
    destruct (Hbs 0%nat b eq_refl) as (-> & _). lia. }
  set (nb := Block _ _ _ _). destruct I.
  split; cbn [blocks current large max set_blocks]; rewrite ?length_app; simpl; try done; try lia.
  - exists psize. split; [done|]. split; [done|]. intros i b.
    rewrite lookup_app_Some. intros [Hb|[Hge Hb]]; [by apply Hbs|].
    apply list_lookup_singleton_Some in Hb as [Hi <-]. unfold block_ok, nb. cbn.
    destruct i as [|i]; [lia|]. cbn [header]. unfold offsetof_current. split_and!; [done|done|done|lia|lia].
  - unfold keys. cbn. rewrite map_app, <- app_assoc. cbn.
    unfold keys in *. apply list.NoDup_app in pi_nodup0 as (N1 & N2 & N3).
    apply list.NoDup_app. split_and!; [done| |].
    + intros x Hx [->|Hx2]%elem_of_cons; [|by apply (N2 x)]. apply Hnin, elem_of_app. by left.
    + apply list.NoDup_cons. split; [|done]. intros Hx. apply Hnin, elem_of_app. by right.
  - intros r Hr. destruct (pi_regions0 r Hr) as [Hs [(i & b & Hb & H1)|Hlg]]; (split; [done|]); [left|by right].
    exists i, b. cbn. split; [by apply lookup_app_l_Some|done].
Qed.

Lemma inv_add_large a p R l n m size :
  pool_inv a p R -> a_live a !! l = Some n -> l ∉ keys p -> 0 <= size ->
  m = l + sizeof_easy_pool_large_t -> m + size <= l + n ->
  pool_inv a (set_large (l :: large p) p) ((m, size) :: R).
Proof.
  intros I Hl Hnin Hs -> Hle. pose proof I as I0. destruct I.
  split; cbn [blocks current large max set_large]; try done.
  - unfold keys in *. cbn. apply list.NoDup_app in pi_nodup0 as (N1 & N2 & N3).
    apply list.NoDup_app. split_and!; [done| |].
    + intros x Hx [->|Hx2]%elem_of_cons; [|by apply (N2 x)]. apply Hnin, elem_of_app. by left.
    + apply list.NoDup_cons. split; [|done]. intros Hx. apply Hnin, elem_of_app. by right.
  - intros l' [->|Hin]%elem_of_cons; [by eexists|by apply pi_large0].
  - intros r [->|Hr]%elem_of_cons.
    + split; [done|]. right. exists l, n. cbn. split_and!; [by left|done|lia|lia].
    + destruct (pi_regions0 r Hr) as [Hs' [Hb|(l' & n' & Hin & Hn & H1)]]; (split; [done|]); [by left|].
      right. exists l', n'. cbn. split_and!; [by right|done|lia|lia].
  - split; [|done]. intros r Hr.
    destruct (region_span a p R r I0 (pi_regions0 r Hr)) as (k & n' & Hk & Hsp).
    eapply (spans_apart a l n k n'); [|done|congruence].
    unfold sizeof_easy_pool_large_t in *. split_and!; cbn; [done|lia|lia].
Qed.

Lemma outside_add a a' p p' k n :
  a_live a !! k = None -> a_live a' = <[k := n]> (a_live a) ->
  (forall x, x ∈ keys p' <-> x = k \/ x ∈ keys p) -> outside a' p' = outside a p.
Proof.
  intros Hk Hl Hx. unfold outside. rewrite Hl. apply map_eq. intros j.
  apply option_eq. intros v. rewrite !map_lookup_filter_Some. cbn. rewrite lookup_insert_Some, Hx.
  split.
  - intros [[[<- _]|[Hne Hj]] Hn]; [tauto|]. split; [done|tauto].
  - intros [Hj Hn]. assert (j <> k) by congruence. split; [right; done|tauto].
Qed.

Lemma fresh_not_key a p R k : pool_inv a p R -> a_live a !! k = None -> k ∉ keys p.
Proof.
  intros I Hk [Hin|Hin]%elem_of_app.
  - apply list_elem_of_fmap in Hin as (b & -> & Hb). apply list_elem_of_lookup_1 in Hb as [i Hi].
    destruct (pi_blocks _ _ _ I) as (ps & _ & _ & Hbs). destruct (Hbs i b Hi) as (_ & E & _). congruence.
  - destruct (pi_large _ _ _ I k Hin) as [n Hn]. congruence.
Qed.

(** The outcome of an allocation of [size] bytes. *)
Definition alloc_post a p R (size : Z) (r : option Z * easy_pool_t * A) : Prop :=
  match r with
  | (Some m, p', a') => pool_inv a' p' ((m, size) :: R) /\ outside a' p' = outside a p
  | (None, p', a') => p' = p /\ pool_inv a' p R /\ outside a' p = outside a p
  end.

Lemma take_insert_drop (l : list block) c i x :
  (c <= length l)%nat -> take c l ++ <[i := x]> (drop c l) = <[c + i := x]>%nat l.
Proof.
  intros Hc. by rewrite <- insert_app_r, take_drop, length_take_le.
Qed.

Lemma fail_post a a' p R size n :
  pool_inv a p R -> a_alloc a n = (None, a') -> alloc_post a p R size (None, p, a').
Proof.
  intros I Ea. pose proof (al_fail _ _ _ Ea) as Hl. split_and!; [done| |].
  - eapply inv_live; [done|]. by rewrite Hl.
  - unfold outside. by rewrite Hl.
Qed.

Lemma alloc_block_spec a p R size :
  pool_inv a p R -> 0 <= size <= max p ->
  alloc_post a p R size (easy_pool_alloc_block a p size) /\
  (forall m p' a', easy_pool_alloc_block a p size = (Some m, p', a') -> (8 | m)).
Proof.
  intros I Hs. unfold easy_pool_alloc_block.
  destruct (pi_blocks _ _ _ I) as (psize & Hps & Hmx & Hbs).
  assert (pool_end p - pool_base p = psize) as Epz.
  { pose proof (pi_nonempty _ _ _ I). unfold pool_end, pool_base.
    destruct (blocks p) as [|b bs] eqn:Eb; [simpl in *; lia|].
    destruct (Hbs 0%nat b eq_refl) as (-> & _). lia. }
  rewrite Epz, wrapu_small by lia.
  destruct (a_alloc a psize) as [[base|] a'] eqn:Ea; [|split; [by eapply fail_post|done]].
  destruct (al_alloc _ _ _ _ Ea) as (Hb0 & Hb8 & Hnone & Hlive).
  assert (easy_align (base + offsetof_current) 8 = base + offsetof_current) as Eal.
  { apply (easy_align_id _ 3); [lia|]. apply Z.divide_add_r; [done|by exists 4]. }
  rewrite Eal. pose proof (pi_current _ _ _ I) as Hcur.
  destruct (bump_failed_spec (drop (current p) (blocks p)) (current p) (current p)) as [Hbump Hc'];
    [rewrite length_drop; lia|]. rewrite length_drop in Hc'.
  destruct (bump_failed (current p) (drop (current p) (blocks p)) (current p)) as [bs cur]. cbn [fst snd] in *.
  split; [|intros m p' a1 [= <- _ _]; apply Z.divide_add_r; [done|by exists 4]].
  assert (Forall2 same_block (blocks p) (take (current p) (blocks p) ++ bs)) as Hsame.
  { rewrite <- (take_drop (current p) (blocks p)) at 1. apply Forall2_app; [|done].
    clear. induction (take _ _); by constructor. }
  pose proof (list.Forall2_length _ _ _ Hsame) as Hlen.
  assert (pool_inv a' p R) as I' by (eapply inv_live; [done|]; rewrite Hlive; intros k n Hk;
    rewrite lookup_insert_ne; [done|congruence]).
  pose proof (inv_same_blocks _ _ _ _ I' Hsame cur ltac:(lia)) as I1.
  set (p1 := Pool _ cur _ _ _ _) in I1.
  assert (pool_end p1 - pool_base p1 = psize) as Epz1.
  { pose proof (pi_nonempty _ _ _ I1). destruct (pi_blocks _ _ _ I1) as (ps & _ & Hmx1 & Hbs1).
    unfold pool_end, pool_base. destruct (blocks p1) as [|b l] eqn:Eb; [simpl in *; lia|].
    destruct (Hbs1 0%nat b eq_refl) as (-> & _). change (max p1) with (max p) in Hmx1. lia. }
  assert (map b_base (blocks p1) = map b_base (blocks p)) as Hmap.
  { cbn. clear -Hsame. induction Hsame as [|b b' l l' (E & _) _ IH]; simpl; [done|]. by rewrite E, IH. }
  assert (base ∉ keys p1) as Hnin.
  { unfold keys. rewrite Hmap. by apply (fresh_not_key a p R). }
  pose proof (inv_add_block a' p1 R psize base I1 Epz1) as I2.
  rewrite Hlive, lookup_insert_eq in I2. specialize (I2 eq_refl Hnin Hb8).
  set (nb := Block base (base + offsetof_current) (base + psize) 0) in I2.
  apply (inv_place _ _ _ (length (blocks p1)) nb (base + offsetof_current) size) in I2;
    [|cbn; rewrite lookup_app_r, Nat.sub_diag by done; done|done|lia|
     cbn; unfold offsetof_current; lia].
  cbn [blocks set_blocks] in I2. rewrite <- (Nat.add_0_r (length (blocks p1))), insert_app_r in I2. cbn in I2.
  split.
  - rewrite <- app_assoc in I2. exact I2.
  - eapply outside_add; [done|done|]. intros x. unfold keys. cbn [blocks large].
    rewrite app_assoc, map_app, !elem_of_app. cbn in Hmap. rewrite Hmap. cbn. rewrite elem_of_cons. set_solver.
Qed.

Lemma alloc_large_spec a p R size :
  pool_inv a p R -> 0 <= size <= 2 ^ 32 - 520 ->
  alloc_post a p R size (easy_pool_alloc_large a p size) /\
  (forall m p' a', easy_pool_alloc_large a p size = (Some m, p', a') -> (8 | m)).
Proof.
  intros I Hs. unfold easy_pool_alloc_large. unfold sizeof_easy_pool_large_t, EASY_POOL_ALIGNMENT.
  destruct (easy_align_spec (size + 8) 9 ltac:(lia)) as [Hal Hdv]. change (2 ^ 9) with 512 in *.
  set (n := easy_align (size + 8) 512) in *.
  assert (n <= 2 ^ 32 - 512) as Hn.
  { destruct Hdv as [q Hq]. change (2 ^ 32 - 512) with (8388607 * 512) in *.
    change (2 ^ 32 - 520) with 4294966776 in Hs. lia. }
  rewrite wrapu_small by (change (2 ^ 32) with 4294967296 in *; lia).
  destruct (a_alloc a n) as [[l|] a'] eqn:Ea; [|split; [by eapply fail_post|done]].
  destruct (al_alloc _ _ _ _ Ea) as (Hl0 & Hl8 & Hnone & Hlive).
  split; [|intros m p' a1 [= <- _ _]; apply Z.divide_add_r; [done|by exists 1]].
  assert (pool_inv a' p R) as I' by (eapply inv_live; [done|]; rewrite Hlive; intros k v Hk;
    rewrite lookup_insert_ne; [done|congruence]).
  split.
  - apply (inv_add_large a' p R l n); [done|by rewrite Hlive, lookup_insert_eq| |lia|done|
      unfold sizeof_easy_pool_large_t; lia]. by apply (fresh_not_key a p R).
  - eapply outside_add; [done|done|]. intros x. unfold keys. cbn [blocks large set_large].
    rewrite !elem_of_app, elem_of_cons. tauto.
Qed.

Lemma pool_alloc_spec al a p R size :
  (forall x, x <= al x) -> pool_inv a p R -> 0 <= size <= 2 ^ 32 - 520 ->
  alloc_post a p R size (pool_alloc al a p size).
Proof.
  intros Hal I Hs. unfold pool_alloc. destruct (Z.leb_spec size (max p)) as [Hmx|_].
  2: by apply alloc_large_spec.
  destruct (scan al size (drop (current p) (blocks p))) as [[m bs]|] eqn:Esc.
  2: apply alloc_block_spec; [done|lia].
  destruct (scan_spec _ _ _ _ _ Esc) as (i & b & Hi & -> & Hle & ->).
  rewrite take_insert_drop by (pose proof (pi_current _ _ _ I); lia).
  rewrite lookup_drop in Hi. split.
  - apply inv_place; [done|done|apply Hal|lia|done].
  - unfold outside, keys. cbn. change (map b_base) with (fmap (M := list) b_base).
    rewrite list_fmap_insert, list_insert_id; [done|]. by rewrite list_lookup_fmap, Hi.
Qed.

Lemma easy_alloc_aligned a p R size m p' a' :
  pool_inv a p R -> 0 <= size <= 2 ^ 32 - 520 ->
  easy_pool_alloc a p size = (Some m, p', a') -> (8 | m).
Proof.
  intros I Hs. unfold easy_pool_alloc, pool_alloc. destruct (Z.leb_spec size (max p)).
  2: { intros E. by eapply (alloc_large_spec a p R size). }
  destruct (scan _ _ _) as [[m1 bs]|] eqn:Esc.
  - destruct (scan_spec _ _ _ _ _ Esc) as (i & b & Hi & -> & _). intros [= <- _ _].
    apply (easy_align_spec _ 3). lia.
  - intros E. eapply (alloc_block_spec a p R size); [done|lia|done].
Qed.

(** C34 (functional).  [easy_pool_alloc] and [easy_pool_nalloc], for any size up
    to 2^32 - 520: the region returned lies in memory the pool owns, outside
    its headers, and overlaps no region handed out before; [easy_pool_alloc]
    aligns it to 8; memory the pool does not own is untouched.  NULL leaves the
    pool as it was. *)
Theorem easy_pool_alloc_spec a p R size :
  pool_inv a p R -> 0 <= size <= 2 ^ 32 - 520 ->
  alloc_post a p R size (easy_pool_alloc a p size) /\
  alloc_post a p R size (easy_pool_nalloc a p size) /\
  (forall m p' a', easy_pool_alloc a p size = (Some m, p', a') -> (8 | m)).
Proof.
  intros I Hs. split_and!.
  - apply pool_alloc_spec; [|done|done]. intros x. apply (easy_align_spec x 3). lia.
  - by apply pool_alloc_spec.
  - intros m p' a'. by apply (easy_alloc_aligned a p R size).
Qed.

(** ** Creation, clear, destroy *)

Lemma create_spec a size p a' :
  0 <= size <= 2 ^ 32 - 576 -> easy_pool_create a size = (Some p, a') ->
  pool_inv a' p [] /\ outside a' p = a_live a /\ ref p = 0 /\ size <= max p.
Proof.
  intros Hs. unfold easy_pool_create. unfold sizeof_easy_pool_t, EASY_POOL_ALIGNMENT.
  destruct (easy_align_spec (size + 64) 9 ltac:(lia)) as [Hal Hdv]. change (2 ^ 9) with 512 in *.
  set (n := easy_align (size + 64) 512) in *.
  assert (n <= 2 ^ 32 - 512) as Hn.
  { destruct Hdv as [q Hq]. change (2 ^ 32 - 512) with (8388607 * 512) in *.
    change (2 ^ 32 - 576) with 4294966720 in Hs. lia. }
  rewrite (wrapu_small 32 n) by (change (2 ^ 32) with 4294967296 in *; lia).
  destruct (a_alloc a n) as [[b|] a1] eqn:Ea; [|done]. intros [= <- <-].
  destruct (al_alloc _ _ _ _ Ea) as (Hb0 & Hb8 & Hnone & Hlive).
  rewrite (wrapu_small 32 (n - 64)) by (change (2 ^ 32) with 4294967296 in *; lia).
  split_and!; [| |done|cbn; lia].
  - split; cbn; try lia.
    + exists n. split; [lia|]. split; [done|]. intros [|i] b'; [|done]. intros [= <-].
      unfold block_ok. cbn. unfold sizeof_easy_pool_t. rewrite Hlive, lookup_insert_eq.
      split_and!; [done|done|done|lia|lia].
    + apply NoDup_singleton.
    + intros l Hl. by apply not_elem_of_nil in Hl.
    + intros r Hr. by apply not_elem_of_nil in Hr.
  - unfold outside, keys. cbn. rewrite Hlive. apply map_eq. intros j. apply option_eq. intros v.
    rewrite map_lookup_filter_Some. cbn. rewrite lookup_insert_Some, list_elem_of_singleton.
    split; [intros [[[<- _]|[_ Hj]] Hne]; done|]. intros Hj. assert (j <> b) by congruence. naive_solver.
Qed.

Lemma free_all_live (l : list Z) : forall a,
  a_live (free_all a l) = filter (fun kv => fst kv ∉ l) (a_live a).
Proof.
  induction l as [|k l IH]; intros a; cbn.
  - rewrite map_filter_id; [done|]. intros j v _. apply not_elem_of_nil.
  - fold (free_all (a_free a k) l). rewrite IH, al_free. apply map_eq. intros j. apply option_eq. intros v.
    rewrite !map_lookup_filter_Some. cbn. rewrite lookup_delete_Some, not_elem_of_cons. naive_solver.
Qed.

Lemma clear_spec a p R :
  pool_inv a p R ->
  let r := easy_pool_clear a p in
  pool_inv (snd r) (fst r) [] /\ outside (snd r) (fst r) = outside a p /\
  length (blocks (fst r)) = 1%nat /\ large (fst r) = [] /\ ref (fst r) = ref p.
Proof.
  intros I. unfold easy_pool_clear. pose proof (pi_nonempty _ _ _ I) as Hne.
  destruct (blocks p) as [|b rest] eqn:Eb; [simpl in Hne; lia|]. cbn [fst snd].
  destruct (pi_blocks _ _ _ I) as (psize & Hps & Hmx & Hbs).
  destruct (Hbs 0%nat b ltac:(by rewrite Eb)) as (E & Hl & H8 & Hlast).
  pose proof (pi_nodup _ _ _ I) as Hnd. unfold keys in Hnd. rewrite Eb in Hnd. cbn in Hnd.
  apply list.NoDup_cons in Hnd as [Hb Hnd]. rewrite elem_of_app in Hb.
  assert (forall j v, a_live (free_all (free_all a (large p)) (map b_base rest)) !! j = Some v <->
    a_live a !! j = Some v /\ j ∉ large p /\ j ∉ map b_base rest) as Hlive.
  { intros j v. rewrite !free_all_live, !map_lookup_filter_Some. cbn. tauto. }
  split_and!; try done.
  - split; cbn; try lia.
    + exists psize. split; [done|]. split; [done|]. intros [|i] b'; [|done]. intros [= <-].
      unfold block_ok. cbn. unfold sizeof_easy_pool_t in *. cbn in Hlast.
      split_and!; [done| |done|lia|lia]. apply Hlive. tauto.
    + apply NoDup_singleton.
    + intros l Hx. by apply not_elem_of_nil in Hx.
    + intros r Hr. by apply not_elem_of_nil in Hr.
  - unfold outside, keys. cbn. rewrite Eb. cbn. apply map_eq. intros j. apply option_eq. intros v.
    rewrite !map_lookup_filter_Some, Hlive. cbn.
    rewrite !not_elem_of_cons, not_elem_of_app. pose proof (not_elem_of_nil j). tauto.
Qed.

Lemma destroy_spec a p R a' :
  pool_inv a p R -> easy_pool_destroy a p = Some a' -> a_live a' = outside a p.
Proof.
  intros I. unfold easy_pool_destroy. destruct (clear_spec a p R I) as (I1 & Ho & Hlen & Hlg & Hr).
  destruct (easy_pool_clear a p) as [p1 a1]. cbn [fst snd] in *.
  destruct (ref p1 =? 0); [|done]. intros [= <-]. rewrite al_free, <- Ho.
  unfold outside, keys, pool_base. rewrite Hlg. destruct (blocks p1) as [|b [|]]; try done. cbn.
  apply map_eq. intros j. apply option_eq. intros v.
  rewrite lookup_delete_Some, map_lookup_filter_Some. cbn. rewrite list_elem_of_singleton. naive_solver.
Qed.

(** ** Writing into fresh memory *)

Lemma fresh_write a p R m p' a' mem l :
  alloc_post a p R (Z.of_nat (length l)) (Some m, p', a') ->
  forall r q, r ∈ R -> fst r <= q < fst r + snd r -> write_bytes mem m l !! q = mem !! q.
Proof.
  intros [I _] r q Hr Hq. apply write_bytes_other.
  destruct (pi_apart _ _ _ I) as [Hap _]. destruct (Hap r Hr) as [H1|H1]; cbn in H1; lia.
Qed.

(** [easy_pool_strdup] returns a terminated copy of its
    argument and [easy_pool_calloc] a zeroed region; neither changes a byte of
    a region handed out before. *)
Theorem easy_pool_contents a p R mem str size :
  pool_inv a p R -> Forall (fun b => b <> 0) str -> Z.of_nat (length str) + 1 < 2 ^ 31 ->
  0 <= size <= 2 ^ 32 - 520 ->
  (forall m p' a' mem', easy_pool_strdup a mem p str = (Some m, p', a', mem') ->
     read_string (S (length str)) mem' m = Some str /\
     forall r q, r ∈ R -> fst r <= q < fst r + snd r -> mem' !! q = mem !! q) /\
  (forall m p' a' mem', easy_pool_calloc a mem p size = (Some m, p', a', mem') ->
     (forall q, m <= q < m + size -> mem' !! q = Some 0) /\
     forall r q, r ∈ R -> fst r <= q < fst r + snd r -> mem' !! q = mem !! q).
Proof.
  intros I Hstr Hlen Hsz.
  assert (forall n, 0 <= n <= 2 ^ 32 - 520 -> alloc_post a p R n (easy_pool_alloc a p n)) as Hal.
  { intros n Hn. apply pool_alloc_spec; [|done|done]. intros x. apply (easy_align_spec x 3). lia. }
  split; intros m p' a' mem'.
  - unfold easy_pool_strdup. rewrite wraps_small, wrapu_small by lia.
    specialize (Hal (Z.of_nat (length str) + 1) ltac:(lia)).
    destruct (easy_pool_alloc a p _) as [[[m1|] p1] a1]; [|done]. intros [= <- <- <- <-].
    split; [by apply read_write_string|]. eapply (fresh_write a p R m1 p1 a1).
    rewrite length_app. cbn [length]. rewrite Nat2Z.inj_add. exact Hal.
  - unfold easy_pool_calloc. specialize (Hal size Hsz).
    destruct (easy_pool_alloc a p _) as [[[m1|] p1] a1]; [|done]. intros [= <- <- <- <-]. split.
    + intros q Hq. replace q with (m1 + Z.of_nat (Z.to_nat (q - m1))) by lia.
      apply write_bytes_lookup. apply lookup_replicate_2. lia.
    + eapply (fresh_write a p R m1 p1 a1). rewrite length_replicate, Z2Nat.id by lia. exact Hal.
Qed.

(** ** Traces *)

Inductive pool_op := PAlloc (size : Z) | PNalloc (size : Z) | PClear | PSetLock.

Definition run_op a p (o : pool_op) : easy_pool_t * A :=
  match o with
  | PAlloc n => let '(_, p, a) := easy_pool_alloc a p n in (p, a)
  | PNalloc n => let '(_, p, a) := easy_pool_nalloc a p n in (p, a)
  | PClear => easy_pool_clear a p
  | PSetLock => (easy_pool_set_lock p, a)
  end.
Definition run_ops a p (os : list pool_op) : easy_pool_t * A :=
  fold_left (fun '(p, a) o => run_op a p o) os (p, a).

Definition op_ok (o : pool_op) : bool :=
  match o with
  | PAlloc n | PNalloc n => (0 <=? n) && (n <=? 2 ^ 32 - 520)
  | _ => true
  end.

Lemma alloc_post_pool a p R size r :
  alloc_post a p R size r -> let '(_, p', a') := r in
  exists R', pool_inv a' p' R' /\ outside a' p' = outside a p.
Proof.
  destruct r as [[[m|] p'] a']; cbn; [intros [? ?]; eauto|intros (-> & ? & ?); eauto].
Qed.

Lemma pool_alloc_ref al a p size :
  let '(_, p', _) := pool_alloc al a p size in ref p' = ref p.
Proof.
  unfold pool_alloc, easy_pool_alloc_block, easy_pool_alloc_large.
  destruct (size <=? max p); [destruct (scan _ _ _) as [[]|]; [done|]|];
    destruct (a_alloc _ _) as [[]]; try done.
  by destruct (bump_failed _ _ _).
Qed.

Lemma run_op_spec a p R o : pool_inv a p R -> op_ok o = true ->
  let '(p', a') := run_op a p o in
  (exists R', pool_inv a' p' R') /\ outside a' p' = outside a p /\ ref p' = ref p.
Proof.
  intros I Ho. destruct o as [n|n| |]; cbn [run_op op_ok] in *.
  - apply andb_true_iff in Ho as [H1%Z.leb_le H2%Z.leb_le].
    pose proof (pool_alloc_spec (fun x => easy_align x 8) a p R n) as Hp.
    pose proof (pool_alloc_ref (fun x => easy_align x 8) a p n) as Hr. fold (easy_pool_alloc a p n) in Hp, Hr.
    pose proof (alloc_post_pool _ _ _ _ _ (Hp ltac:(intros x; apply (easy_align_spec x 3); lia) I (conj H1 H2))) as Hq.
    destruct (easy_pool_alloc a p n) as [[m p'] a']. destruct Hq as (R' & ? & ?). eauto.
  - apply andb_true_iff in Ho as [H1%Z.leb_le H2%Z.leb_le].
    pose proof (pool_alloc_spec (fun x => x) a p R n) as Hp.
    pose proof (pool_alloc_ref (fun x => x) a p n) as Hr. fold (easy_pool_nalloc a p n) in Hp, Hr.
    pose proof (alloc_post_pool _ _ _ _ _ (Hp ltac:(done) I (conj H1 H2))) as Hq.
    destruct (easy_pool_nalloc a p n) as [[m p'] a']. destruct Hq as (R' & ? & ?). eauto.
  - destruct (clear_spec a p R I) as (I1 & Ho1 & _ & _ & Hr). destruct (easy_pool_clear a p). eauto.
  - split_and!; [|done|done]. exists R. destruct I. by split.
Qed.

Lemma run_ops_spec os : forall a p R, pool_inv a p R -> forallb op_ok os = true ->
  let '(p', a') := run_ops a p os in
  (exists R', pool_inv a' p' R') /\ outside a' p' = outside a p /\ ref p' = ref p.
Proof.
  induction os as [|o os IH]; intros a p R I Hok; [cbn; eauto|].
  cbn in Hok. apply andb_true_iff in Hok as [Ho Hos]. pose proof (run_op_spec a p R o I Ho) as H1.
  unfold run_ops. cbn [fold_left]. destruct (run_op a p o) as [p1 a1]. destruct H1 as ([R1 I1] & E1 & F1).
  specialize (IH a1 p1 R1 I1 Hos). unfold run_ops in IH.
  destruct (fold_left _ os (p1, a1)) as [p2 a2]. destruct IH as (I2 & E2 & F2).
  split_and!; [done|by rewrite E2|by rewrite F2].
Qed.

(** Create a pool, run any sequence of allocations, clears and
    lock switches, destroy it: the destroy never fails on the reference count
    and exactly what was live before is live again, so nothing leaks and
    nothing foreign is freed. *)
Theorem easy_pool_no_leak a size p a1 os :
  0 <= size <= 2 ^ 32 - 576 -> easy_pool_create a size = (Some p, a1) -> forallb op_ok os = true ->
  exists a2, (let '(p', a') := run_ops a1 p os in easy_pool_destroy a' p') = Some a2 /\
    a_live a2 = a_live a.
Proof.
  intros Hs Ec Hok. destruct (create_spec _ _ _ _ Hs Ec) as (I & Ho & Hr & _).
  pose proof (run_ops_spec os a1 p [] I Hok) as H1. destruct (run_ops a1 p os) as [p' a'].
  destruct H1 as ([R' I'] & Ho' & Hr').
  assert (exists a2, easy_pool_destroy a' p' = Some a2) as [a2 Ed].
  { unfold easy_pool_destroy. destruct (clear_spec a' p' R' I') as (_ & _ & _ & _ & Hr2).
    destruct (easy_pool_clear a' p') as [p1 a3]. cbn in Hr2. rewrite Hr2, Hr', Hr. cbn. eauto. }
  exists a2. split; [done|]. rewrite (destroy_spec _ _ _ _ I' Ed). congruence.
Qed.

End invariant.

(** ** What a pool promises its clients *)

(** A pool as the other components use it: [easy_pool_alloc], and the room left
    in the pool's first block ([pool->end - pool->last]). *)
Class PoolOps (S : Type) := {
  p_alloc : S -> Z -> option Z * S;
  p_room : S -> Z;
  p_inv : S -> list region -> Prop  (** the regions handed out so far *) }.

Class PoolLaws (S : Type) `{PoolOps S} : Prop := {
  p_alloc_some : forall s R n m s', p_inv s R -> 0 <= n <= 2 ^ 32 - 520 ->
    p_alloc s n = (Some m, s') -> p_inv s' ((m, n) :: R);
  p_alloc_none : forall s R n s', p_inv s R -> 0 <= n <= 2 ^ 32 - 520 ->
    p_alloc s n = (None, s') -> p_inv s' R;
  p_disjoint : forall s R, p_inv s R -> all_apart R;
  p_size : forall s R r, p_inv s R -> r ∈ R -> 0 <= snd r }.

#[global] Instance easy_pool_ops {A} `{Allocator A} : PoolOps (A * easy_pool_t) := {
  p_alloc s n := let '(m, p, a) := easy_pool_alloc (fst s) (snd s) n in (m, (a, p));
  p_room s := match blocks (snd s) with b :: _ => b_end b - b_last b | [] => 0 end;
  p_inv s R := pool_inv (fst s) (snd s) R }.

#[global] Instance easy_pool_laws {A} `{AllocatorLaws A} : PoolLaws (A * easy_pool_t).
Proof.
  assert (forall (a : A) p R n, pool_inv a p R -> 0 <= n <= 2 ^ 32 - 520 ->
    alloc_post a p R n (easy_pool_alloc a p n)) as Hal.
  { intros a p R n I Hn. apply pool_alloc_spec; [|done|done]. intros x. apply (easy_align_spec x 3). lia. }
  split; cbn.
  - intros [a p] R n m s' I Hn E. specialize (Hal a p R n I Hn). cbn [fst snd] in *.
    destruct (easy_pool_alloc a p n) as [[[m1|] p1] a1]; [|done]. injection E as <- <-. apply Hal.
  - intros [a p] R n s' I Hn E. specialize (Hal a p R n I Hn). cbn [fst snd] in *.
    destruct (easy_pool_alloc a p n) as [[[m1|] p1] a1]; [done|]. injection E as <-.
    destruct Hal as (-> & Hi & _). exact Hi.
  - intros s R I. apply (pi_apart _ _ _ I).
  - intros s R r I Hr. apply (pi_regions _ _ _ I r Hr).
Qed.

(** ** A concrete allocator *)

(** Slots of 2^40 bytes; a request of 2^40 bytes or more fails. *)
Definition slot : Z := 2 ^ 40.
Definition slots : Type := gmap Z Z.

Definition slot_ok (kv : Z * Z) : Prop :=
  (0 <? fst kv) && (fst kv mod slot =? 0) && (0 <=? snd kv) && (snd kv <? slot) = true.

Definition top (s : slots) : Z := map_fold (fun k _ m => Z.max k m) 0 s.

#[global] Instance slots_allocator : Allocator slots := {
  a_alloc s n :=
    if (0 <=? n) && (n <? slot) then
      let p := slot * (1 + top s) in (Some p, <[p := n]> s : slots)
    else (None, s);
  a_free s p := delete p s;
  a_live s := filter slot_ok s }.

Lemma top_ge (s : slots) : 0 <= top s /\ forall k v, s !! k = Some v -> k <= top s.
Proof.
  unfold top. apply (map_fold_weak_ind (fun r (m : gmap Z Z) => 0 <= r /\ forall k v, m !! k = Some v -> k <= r)).
  - split; [done|]. intros k v Hk. by rewrite lookup_empty in Hk.
  - intros i x m r Hm [H0 IH]. split; [lia|]. intros k v. rewrite lookup_insert_Some.
    intros [[<- _]|[_ Hk]]; [lia|]. specialize (IH k v Hk). lia.
Qed.

Lemma slot_ok_alt k v : slot_ok (k, v) <-> 0 < k /\ (slot | k) /\ 0 <= v < slot.
Proof.
  unfold slot_ok. cbn [fst snd].
  rewrite !andb_true_iff, !Z.ltb_lt, Z.leb_le, Z.eqb_eq, Z.mod_divide by done. tauto.
Qed.

#[global] Instance slots_laws : AllocatorLaws slots.
Proof.
  split; cbn.
  - intros s p q n m [_ Hp]%map_lookup_filter_Some [_ Hq]%map_lookup_filter_Some Hne.
    apply slot_ok_alt in Hp as (_ & [x ->] & Hn), Hq as (_ & [y ->] & Hm). unfold slot in *.
    change (2 ^ 40) with 1099511627776 in *. lia.
  - intros s n p s'. destruct (top_ge s) as [H0 Htop].
    destruct (Z.leb_spec 0 n); [|done]. destruct (Z.ltb_spec n slot); [|done]. cbn. intros [= <- <-].
    assert (0 < slot) by done. assert (top s < slot * (1 + top s)) as Hlt by (unfold slot in *; lia).
    split_and!; [lia| | |].
    + exists (2 ^ 37 * (1 + top s)). unfold slot. change (2 ^ 40) with (2 ^ 37 * 8). lia.
    + apply map_lookup_filter_None. left.
      destruct (s !! (slot * (1 + top s))) eqn:E; [|done]. apply Htop in E. lia.
    + apply (map_filter_insert_True (M := gmap Z)). apply slot_ok_alt. split_and!; [lia|exists (1 + top s); lia|lia|lia].
  - intros s n s'. destruct (_ && _); [done|]. by intros [= <-].
  - intros s p. apply (map_filter_delete (M := gmap Z)).
Qed.

Lemma easy_pool_alloc_spec_witness :
  exists (a : slots) p, easy_pool_create (∅ : slots) 1000 = (Some p, a) /\
    alloc_post a p [] 100 (easy_pool_alloc a p 100).
Proof.
  eexists _, _. split; [vm_compute; reflexivity|].
  eapply easy_pool_alloc_spec; [|lia].
  eapply (create_spec (∅ : slots) 1000); [lia|]. vm_compute. reflexivity.
Defined.

Lemma easy_pool_no_leak_witness : exists (a1 : slots) p a2,
  easy_pool_create (∅ : slots) 1000 = (Some p, a1) /\
  (let '(p', a') := run_ops a1 p [PAlloc 600; PNalloc 600; PAlloc 5000; PClear; PAlloc 3] in
   easy_pool_destroy a' p') = Some a2 /\ a_live a2 = ∅.
Proof.
  destruct (easy_pool_create (∅ : slots) 1000) as [[p|] a1] eqn:E; [|by vm_compute in E].
  destruct (easy_pool_no_leak (∅ : slots) 1000 p a1 [PAlloc 600; PNalloc 600; PAlloc 5000; PClear; PAlloc 3])
    as (a2 & H1 & H2); [lia|exact E|reflexivity|].
  exists a1, p, a2. split_and!; [done|exact H1|exact H2].
Defined.

Lemma easy_pool_contents_witness : exists (a : slots) p, easy_pool_create (∅ : slots) 1000 = (Some p, a) /\
  forall m p' a' mem', easy_pool_strdup a ∅ p [72; 105] = (Some m, p', a', mem') ->
    read_string 3 mem' m = Some [72; 105].
Proof.
  eexists _, _. split; [vm_compute; reflexivity|]. intros m p' a' mem' E.
  refine (proj1 (proj1 (easy_pool_contents _ _ [] ∅ [72; 105] 0 _ _ _ _) m p' a' mem' E)); [|by repeat constructor|cbn; lia|lia].
  eapply (create_spec (∅ : slots) 1000); [lia|]. vm_compute. reflexivity.
Defined.

(** A pool of one page on the concrete allocator, for the clients' examples. *)
Definition demo_pool : slots * easy_pool_t :=
  match easy_pool_create (∅ : slots) 4000 with
  | (Some p, a) => (a, p)
  | (None, a) => (a, Pool [] 0 [] 0 0 0)
  end.

Lemma demo_pool_inv : p_inv demo_pool [].
Proof. eapply (create_spec (∅ : slots) 4000); [lia|]. vm_compute. reflexivity. Qed.

End EasyPool.
