(* ===== verification/CString.v ===== *)
(** * Byte buffers and C strings

    A buffer is the list of its bytes; reads and writes name an offset and fail
    ([None]) outside the buffer.  [cstr] is the C string a buffer starts with:
    the bytes before the first zero, [None] when there is none. *)

From Stdlib Require Import ZArith Lia.
From stdpp Require Import base list numbers option.
From S2P Require Import Prelude.

Local Open Scope Z_scope.

Definition nonzero (s : list Z) : Prop := Forall (fun b => b <> 0) s.

Fixpoint cstr (m : list Z) : option (list Z) :=
  match m with
  | [] => None
  | b :: m => if b =? 0 then Some [] else s ← cstr m; Some (b :: s)
  end.

(** Storing one byte. *)
Definition put (m : list Z) (i : nat) (b : Z) : option (list Z) :=
  if (i <? length m)%nat then Some (<[i := b]> m) else None.

(** Storing several bytes, as [memcpy] or a wide store does. *)
Definition puts (m : list Z) (i : nat) (bs : list Z) : option (list Z) :=
  if (i + length bs <=? length m)%nat then Some (take i m ++ bs ++ drop (i + length bs) m) else None.

(** Loading [k] bytes. *)
Definition gets (m : list Z) (i k : nat) : option (list Z) :=
  if (i + k <=? length m)%nat then Some (take k (drop i m)) else None.

Lemma cstr_app s m : nonzero s -> cstr (s ++ 0 :: m) = Some s.
Proof.
  induction 1 as [|b s Hb _ IH]; [done|]. cbn. destruct (Z.eqb_spec b 0); [done|]. by rewrite IH.
Qed.

Lemma cstr_Some m s : cstr m = Some s -> exists r, m = s ++ 0 :: r /\ nonzero s.
Proof.
  revert s. induction m as [|b m IH]; intros s; cbn; [done|].
  destruct (Z.eqb_spec b 0) as [->|Hb].
  - intros [= <-]. exists m. split; [done|constructor].
  - destruct (cstr m) as [s'|]; [|done]. cbn. intros [= <-].
    destruct (IH s' eq_refl) as (r & -> & Hs). exists r. split; [done|by constructor].
Qed.

Lemma puts_spec m1 m2 m3 bs :
  length m2 = length bs -> puts (m1 ++ m2 ++ m3) (length m1) bs = Some (m1 ++ bs ++ m3).
Proof.
  intros Hl. unfold puts. rewrite !length_app.
  destruct (Nat.leb_spec (length m1 + length bs) (length m1 + (length m2 + length m3))); [|lia].
  rewrite take_app_length. do 2 f_equal. f_equal.
  rewrite <- Hl, app_assoc, <- length_app. apply drop_app_length.
Qed.

Lemma put_spec m1 b b' m2 : put (m1 ++ b :: m2) (length m1) b' = Some (m1 ++ b' :: m2).
Proof.
  unfold put. rewrite length_app. cbn [length].
  destruct (Nat.ltb_spec (length m1) (length m1 + S (length m2))); [|lia].
  f_equal. clear. induction m1 as [|x m1 IH]; [done|]. cbn. f_equal. exact IH.
Qed.

Lemma gets_spec m1 m2 m3 : gets (m1 ++ m2 ++ m3) (length m1) (length m2) = Some m2.
Proof.
  unfold gets. rewrite !length_app.
  destruct (Nat.leb_spec (length m1 + length m2) (length m1 + (length m2 + length m3))); [|lia].
  by rewrite drop_app_length, take_app_length.
Qed.

(** A list cut at two positions. *)
Lemma split_at {A} (l : list A) i k : (i + k <= length l)%nat ->
  exists l1 l2 l3, l = l1 ++ l2 ++ l3 /\ length l1 = i /\ length l2 = k.
Proof.
  intros H. exists (take i l), (take k (drop i l)), (drop k (drop i l)).
  split; [by rewrite !take_drop|]. rewrite !length_take, length_drop. lia.
Qed.

Lemma puts_some m i bs : (i + length bs <= length m)%nat ->
  puts m i bs = Some (take i m ++ bs ++ drop (i + length bs) m).
Proof. intros H. unfold puts. destruct (Nat.leb_spec (i + length bs) (length m)); [done|lia]. Qed.

Lemma puts_length m i bs m' : puts m i bs = Some m' -> length m' = length m.
Proof.
  unfold puts. destruct (Nat.leb_spec (i + length bs) (length m)); [|done]. intros [= <-].
  rewrite !length_app, length_take, length_drop. lia.
Qed.

Lemma put_length m i b m' : put m i b = Some m' -> length m' = length m.
Proof. unfold put. destruct (i <? length m)%nat; [|done]. intros [= <-]. apply length_insert. Qed.

(** ** Decimal numbers, as [printf] writes them *)

(** The digits of [n], at most [fuel] of them, before [acc]. *)
Fixpoint dec_loop (fuel : nat) (n : Z) (acc : list Z) : list Z :=
  match fuel with
  | O => acc
  | S fuel =>
      let acc := (48 + n mod 10) :: acc in
      if n <? 10 then acc else dec_loop fuel (n / 10) acc
  end.

(** ["%llu"]; twenty digits are enough for 64 bits. *)
Definition udec (n : Z) : list Z := dec_loop 20 n [].
(** ["%d"] of an [int]. *)
Definition sdec (n : Z) : list Z := if n <? 0 then 45 :: udec (- n) else udec n.

Definition is_digit (c : Z) : bool := (48 <=? c) && (c <=? 57).
(** The value of a sequence of digits. *)
Definition dec_val (l : list Z) : Z := fold_left (fun a c => a * 10 + (c - 48)) l 0.

Lemma dec_loop_spec fuel : forall n acc, 0 <= n < 10 ^ Z.of_nat fuel -> (0 < fuel)%nat ->
  exists ds, dec_loop fuel n acc = ds ++ acc /\ ds <> [] /\ Forall (fun c => is_digit c = true) ds /\
    dec_val ds = n /\ (length ds = 1%nat \/ n >= 10 ^ (Z.of_nat (length ds) - 1)).
Proof.
  induction fuel as [|fuel IH]; intros n acc Hn Hf; [lia|]. cbn [dec_loop].
  assert (0 <= n mod 10 < 10) by (apply Z.mod_pos_bound; lia).
  assert (is_digit (48 + n mod 10) = true) as Hd by (unfold is_digit; lia).
  destruct (Z.ltb_spec n 10) as [Hlt|Hge].
  - exists [48 + n mod 10]. split_and!; [done|done|by constructor| |by left].
    unfold dec_val. cbn [fold_left]. rewrite Z.mod_small by lia. lia.
  - destruct fuel as [|fuel]; [simpl in Hn; lia|].
    rewrite Nat2Z.inj_succ, Z.pow_succ_r in Hn by lia.
    destruct (IH (n / 10) ((48 + n mod 10) :: acc)) as (ds & -> & Hne & Hds & Hv & Hl); [|lia|].
    { split; [apply Z.div_pos; lia|]. apply Z.div_lt_upper_bound; lia. }
    exists (ds ++ [48 + n mod 10]). rewrite <- app_assoc. split_and!; [done|by destruct ds|..].
    + apply list.Forall_app. split; [done|by constructor].
    + unfold dec_val in *. rewrite fold_left_app, Hv. cbn [fold_left].
      pose proof (Z.div_mod n 10). lia.
    + right. rewrite length_app. cbn [length]. rewrite Nat2Z.inj_add.
      pose proof (Z.div_mod n 10).
      destruct Hl as [->|Hl]; [change (10 ^ _) with 10; lia|].
      destruct ds as [|d ds]; [done|]. cbn [length] in *.
      replace (Z.of_nat (S (length ds)) + Z.of_nat 1 - 1) with (Z.succ (Z.of_nat (S (length ds)) - 1)) by lia.
      rewrite Z.pow_succ_r by lia. lia.
Qed.

(** The printed number: nonempty, digits only, of the right value, and without
    leading zeros (so its length is the least possible). *)
Lemma udec_spec n : 0 <= n < 2 ^ 64 ->
  udec n <> [] /\ Forall (fun c => is_digit c = true) (udec n) /\ dec_val (udec n) = n /\
  (length (udec n) = 1%nat \/ n >= 10 ^ (Z.of_nat (length (udec n)) - 1)).
Proof.
  intros Hn. unfold udec. destruct (dec_loop_spec 20 n []) as (ds & -> & H); [|lia|].
  { split; [lia|]. change (10 ^ Z.of_nat 20) with (100000000000000000000). lia. }
  rewrite app_nil_r. done.
Qed.

Lemma udec_length n k : 0 <= n < 2 ^ 64 -> n < 10 ^ k -> 1 <= k -> Z.of_nat (length (udec n)) <= k.
Proof.
  intros Hn Hk H1. destruct (udec_spec n Hn) as (_ & _ & _ & [->|Hl]); [lia|].
  apply Z.nlt_ge. intros Hlt.
  assert (10 ^ k <= 10 ^ (Z.of_nat (length (udec n)) - 1)) by (apply Z.pow_le_mono_r; lia). lia.
Qed.

(** ["%d"] of a [uint32_t] argument never takes more than eleven characters. *)
Lemma sdec_length n : - 2 ^ 31 <= n < 2 ^ 31 -> 1 <= Z.of_nat (length (sdec n)) <= 11.
Proof.
  intros Hn. unfold sdec. destruct (Z.ltb_spec n 0).
  - pose proof (udec_length (- n) 10 ltac:(lia) ltac:(lia) ltac:(lia)). cbn [length]. lia.
  - pose proof (udec_length n 10 ltac:(lia) ltac:(lia) ltac:(lia)).
    destruct (udec_spec n ltac:(lia)) as (Hne & _). destruct (udec n); [done|]. cbn [length] in *. lia.
Qed.

(** A sequence of digits stands for less than ten to its length. *)
Lemma dec_val_bound l : Forall (fun c => is_digit c = true) l -> 0 <= dec_val l < 10 ^ Z.of_nat (length l).
Proof.
  unfold dec_val. induction l as [|c l IH] using rev_ind; [done|]. intros [Hl Hc]%list.Forall_app.
  specialize (IH Hl). apply list.Forall_cons in Hc as [Hc _]. unfold is_digit in Hc.
  rewrite fold_left_app, length_app. cbn [fold_left length]. rewrite Nat2Z.inj_add, Z.pow_add_r by lia. change (10 ^ Z.of_nat 1) with 10. lia.
Qed.

(** So a number of at least ten to the [k] has more than [k] digits. *)
Lemma udec_length_lower n k : 0 <= n < 2 ^ 64 -> 10 ^ k <= n -> 0 <= k -> k < Z.of_nat (length (udec n)).
Proof.
  intros Hn Hk H0. destruct (udec_spec n Hn) as (_ & Hd & Hv & _). pose proof (dec_val_bound _ Hd) as Hb. rewrite Hv in Hb.
  apply Z.nle_gt. intros Hle. pose proof (Z.pow_le_mono_r 10 _ _ ltac:(lia) Hle). lia.
Qed.
