(* ===== verification/EasyString.v ===== *)
(** * util/easy_string.c: bounded string copy, hex dump, case conversion

    Strings are buffers ([CString]); [None] is an access outside of one.
    [easy_strncpy] copies eight bytes at a time, finding a zero byte of a word
    with carry arithmetic. *)

From Stdlib Require Import ZArith Lia.
From stdpp Require Import base list numbers option.
From S2P Require Import Prelude CString.

Local Open Scope Z_scope.

Module EasyString.

(** ** easy_strncpy *)

Definition himagic : Z := 9259542123273814144.   (* 0x8080808080808080 *)
Definition lomagic : Z := 72340172838076673.     (* 0x0101010101010101 *)

(** [((k - lomagic) & ~k & himagic) != 0] on 64-bit unsigned words. *)
Definition has_zero (k : Z) : bool :=
  negb (Z.land (Z.land (u64 (k - lomagic)) (u64 (Z.lnot k))) himagic =? 0).

(** The chain of tests on [cp[0]] to [cp[6]]. *)
Definition zero_index (cp : list Z) : nat :=
  let at_ i := nth i cp 0 in
  if at_ 0%nat =? 0 then 0%nat
  else if at_ 1%nat =? 0 then 1%nat
  else if at_ 2%nat =? 0 then 2%nat
  else if at_ 3%nat =? 0 then 3%nat
  else if at_ 4%nat =? 0 then 4%nat
  else if at_ 5%nat =? 0 then 5%nat
  else if at_ 6%nat =? 0 then 6%nat
  else 7%nat.

(** The word loop: [cnt] words are left, [i] is the offset of both pointers. *)
Fixpoint copy_words (cnt : nat) (src dst : list Z) (i n : nat) : option (list Z * nat * nat) :=
  match cnt with
  | O => Some (dst, i, n)
  | S cnt =>
      cp ← gets src i 8;
      if has_zero (le_val cp) then Some (dst, i, zero_index cp)
      else dst ← puts dst i cp; copy_words cnt src dst (i + 8) n
  end.

(** The switch falls through: one byte per case from [k] down to 1. *)
Fixpoint copy_bytes (k : nat) (src dst : list Z) (i : nat) : option (list Z * nat) :=
  match k with
  | O => Some (dst, i)
  | S k => b ← src !! i; dst ← put dst i b; copy_bytes k src dst (S i)
  end.

(** The result is the buffer at [dst]; [n = 0] returns NULL and writes nothing. *)
Definition easy_strncpy (dst src : list Z) (n : nat) : option (list Z) :=
  match n with
  | O => Some dst
  | S n =>
      r ← copy_words (n / 8) src dst 0 n;
      let '(dst, i, n) := r in
      r ← copy_bytes (Nat.modulo n 8) src dst i;
      let '(dst, i) := r in
      put dst i 0
  end.

(** ** easy_string_tohex *)

Definition hexconvtab : list Z := [48; 49; 50; 51; 52; 53; 54; 55; 56; 57; 65; 66; 67; 68; 69; 70].

Fixpoint tohex_loop (cnt : nat) (p result : list Z) (i j : nat) : option (list Z * nat) :=
  match cnt with
  | O => Some (result, j)
  | S cnt =>
      b ← p !! i;
      result ← put result j (nth (Z.to_nat (Z.shiftr b 4)) hexconvtab 0);
      result ← put result (S j) (nth (Z.to_nat (Z.land b 15)) hexconvtab 0);
      tohex_loop cnt p result (S i) (S (S j))
  end.

Definition easy_string_tohex (str : list Z) (n : Z) (result : list Z) (size : Z) : option (list Z) :=
  let n := easy_min (Z.quot (size - 1) 2) n in
  r ← tohex_loop (Z.to_nat n) str result 0 0;
  let '(result, j) := r in
  put result j 0.

(** ** Case conversion *)

Fixpoint map_string (f : Z -> Z) (str : list Z) : option (list Z) :=
  match str with
  | [] => None
  | c :: str => if c =? 0 then Some (c :: str) else r ← map_string f str; Some (f c :: r)
  end.

Definition easy_string_toupper (str : list Z) : option (list Z) :=
  map_string (fun c => if (97 <=? c) && (c <=? 122) then u8 (c - 36) else c) str.
Definition easy_string_tolower (str : list Z) : option (list Z) :=
  map_string (fun c => if (65 <=? c) && (c <=? 90) then u8 (c + 36) else c) str.

(** ** Finding a zero byte in a word *)

Lemma byte_testbit a x n : 0 <= a < 256 -> 0 <= n ->
  Z.testbit (a + 256 * x) n = if n <? 8 then Z.testbit a n else Z.testbit x (n - 8).
Proof.
  intros Ha Hn. destruct (Z.ltb_spec n 8).
  - rewrite <- (Z.mod_pow2_bits_low (a + 256 * x) 8 n) by done. f_equal.
    change (2 ^ 8) with 256. mlia.
  - replace n with ((n - 8) + 8) at 1 by lia. rewrite <- Z.div_pow2_bits by lia. f_equal.
    change (2 ^ 8) with 256. mlia.
Qed.

Lemma land_byte a b x y : 0 <= a < 256 -> 0 <= b < 256 ->
  Z.land (a + 256 * x) (b + 256 * y) = Z.land a b + 256 * Z.land x y.
Proof.
  intros Ha Hb. assert (0 <= Z.land a b < 256) as Hab.
  { split; [apply Z.land_nonneg; lia|].
    destruct (Z.eq_dec (Z.land a b) 0) as [->|Hne]; [lia|]. change 256 with (2 ^ 8) in *.
    assert (0 <= Z.land a b) by (apply Z.land_nonneg; lia).
    apply Z.log2_lt_pow2; [lia|]. pose proof (Z.log2_land a b ltac:(lia) ltac:(lia)).
    assert (0 < a) by (destruct (Z.eq_dec a 0); subst; [by rewrite Z.land_0_l in Hne|lia]).
    pose proof (proj1 (Z.log2_lt_pow2 a 8 ltac:(lia)) ltac:(lia)). lia. }
  apply Z.bits_inj'. intros n Hn. rewrite Z.land_spec, !byte_testbit by done.
  destruct (n <? 8); by rewrite Z.land_spec.
Qed.

Lemma mod_byte a x P : 0 <= a < 256 -> 0 < P -> (a + 256 * x) mod (256 * P) = a + 256 * (x mod P).
Proof.
  intros Ha HP. rewrite Z.rem_mul_r by lia. rewrite (Z.mul_comm 256 x), Z.mod_add, Z.div_add by lia.
  by rewrite (Z.mod_small a 256), (Z.div_small a 256) by lia.
Qed.

(** [n] bytes of value [b]. *)
Definition rep (b : Z) (n : nat) : Z := le_val (replicate n b).

Lemma rep_S b n : rep b (S n) = b + 256 * rep b n.
Proof. done. Qed.

(** The test for words of any number of bytes. *)
Lemma zero_byte_test l : bytes_ok l ->
  let n := length l in
  Z.land (Z.land ((le_val l - rep 1 n) mod 256 ^ Z.of_nat n)
            (Z.lnot (le_val l) mod 256 ^ Z.of_nat n)) (rep 128 n) = 0 <-> nonzero l.
Proof.
  induction 1 as [|b l Hb Hl IH]; intros n; [split; [constructor|done]|].
  unfold n. cbn [length le_val]. rewrite !rep_S, Nat2Z.inj_succ, Z.pow_succ_r by lia.
  set (P := 256 ^ Z.of_nat (length l)) in *. assert (0 < P) by (unfold P; lia).
  assert (Z.lnot (b + 256 * le_val l) mod (256 * P) = (255 - b) + 256 * (Z.lnot (le_val l) mod P)) as ->.
  { rewrite <- mod_byte by lia. f_equal. unfold Z.lnot. lia. }
  destruct (Z.eq_dec b 0) as [->|Hne].
  - assert (exists y, (0 + 256 * le_val l - (1 + 256 * rep 1 (length l))) mod (256 * P) = 255 + 256 * y) as [y ->].
    { exists ((le_val l - rep 1 (length l) - 1) mod P). rewrite <- mod_byte by lia. f_equal. lia. }
    rewrite !land_byte by (try lia; done). change (Z.land _ 128) with 128 at 1.
    split; [|intros Hz; by inversion Hz].
    intros Hz. exfalso.
    match type of Hz with _ + 256 * ?w = 0 => assert (128 + 256 * w = 0) as Hz' by exact Hz end. lia.
  - assert ((b + 256 * le_val l - (1 + 256 * rep 1 (length l))) mod (256 * P) =
      (b - 1) + 256 * ((le_val l - rep 1 (length l)) mod P)) as ->.
    { rewrite <- mod_byte by lia. f_equal. lia. }
    assert (Z.land (Z.land (b - 1) (255 - b)) 128 = 0) as Hbit.
    { assert (forallb (fun b => Z.land (Z.land (b - 1) (255 - b)) 128 =? 0) (map Z.of_nat (seq 1 255)) = true)
        as Hall by (vm_compute; reflexivity).
      rewrite forallb_forall in Hall. apply Z.eqb_eq, Hall, in_map_iff. exists (Z.to_nat b).
      split; [lia|]. apply in_seq. lia. }
    assert (0 <= Z.land (b - 1) (255 - b) < 256) as Hr.
    { split; [apply Z.land_nonneg; lia|].
      assert (forallb (fun b => Z.land (b - 1) (255 - b) <? 256) (map Z.of_nat (seq 1 255)) = true)
        as Hall by (vm_compute; reflexivity).
      rewrite forallb_forall in Hall. apply Z.ltb_lt, Hall, in_map_iff. exists (Z.to_nat b).
      split; [lia|]. apply in_seq. lia. }
    rewrite !land_byte by lia. rewrite Hbit. cbv zeta in IH. fold P in IH.
    set (w := Z.land (Z.land _ _) (rep 128 _)) in *. split.
    + intros Hz. constructor; [done|]. apply IH. lia.
    + intros Hz. inversion_clear Hz as [|? ? ? Hz']. apply IH in Hz'. lia.
Qed.

Lemma has_zero_spec w : bytes_ok w -> length w = 8%nat -> has_zero (le_val w) = false <-> nonzero w.
Proof.
  intros Hw Hl. pose proof (zero_byte_test w Hw) as Ht. rewrite Hl in Ht. cbv zeta in Ht.
  change (rep 1 8) with lomagic in Ht. change (rep 128 8) with himagic in Ht.
  change (256 ^ Z.of_nat 8) with (2 ^ 64) in Ht.
  unfold has_zero. rewrite negb_false_iff, Z.eqb_eq. exact Ht.
Qed.

Lemma zero_index_spec s r : nonzero s -> (length s <= 7)%nat -> length (s ++ 0 :: r) = 8%nat ->
  zero_index (s ++ 0 :: r) = length s.
Proof.
  intros Hs Hl _. unfold zero_index. unfold nonzero in Hs.
  do 8 (destruct s as [|? s]; [reflexivity|]; apply list.Forall_cons in Hs as [?%Z.eqb_neq Hs];
    cbn [nth app]; repeat match goal with H : (?c =? 0) = false |- _ => rewrite H end; cbn in Hl; try lia).
Qed.

(** ** The copy loops *)

Lemma copy_bytes_spec k : forall s1 s2 s3 d1 d2 d3,
  length s1 = length d1 -> length s2 = k -> length d2 = k ->
  copy_bytes k (s1 ++ s2 ++ s3) (d1 ++ d2 ++ d3) (length d1) = Some (d1 ++ s2 ++ d3, (length d1 + k)%nat).
Proof.
  induction k as [|k IH]; intros s1 s2 s3 d1 d2 d3 H1 H2 H3.
  - destruct s2, d2; try done. by rewrite Nat.add_0_r.
  - destruct s2 as [|x s2], d2 as [|y d2]; try done. cbn [copy_bytes app].
    rewrite <- H1, list_lookup_middle by done. cbn [mbind option_bind]. rewrite H1, put_spec.
    cbn [mbind option_bind].
    specialize (IH (s1 ++ [x]) s2 s3 (d1 ++ [x]) d2 d3). rewrite !length_app in IH.
    rewrite <- !app_assoc in IH. cbn [app length] in IH.
    replace (S (length d1)) with (length d1 + 1)%nat by lia.
    rewrite IH by (cbn in *; lia). do 2 f_equal. lia.
Qed.

(** What the word loop does on a string that ends with [s]: it copies whole
    words and stops before the first one with a zero byte. *)
Lemma copy_words_spec cnt : forall s r d1 d2 i n,
  nonzero s -> bytes_ok (s ++ 0 :: r) -> (i + 8 * cnt <= n < i + 8 * cnt + 8)%nat ->
  (n <= i + length d2)%nat ->
  (Nat.min (n - i) (8 * (length s / 8) + 8) <= length (s ++ 0%Z :: r))%nat -> forall s0,
  length s0 = i -> length d1 = i ->
  exists q m d1' d2', copy_words cnt (s0 ++ s ++ 0 :: r) (d1 ++ d2) i n = Some (d1' ++ d2', (i + q)%nat, m) /\
    d1' = d1 ++ take q s /\ length d2' = (length d2 - q)%nat /\ d2' = drop q d2 /\
    (q <= length s)%nat /\ Nat.modulo q 8 = 0%nat /\
    ((m = (length s - q)%nat /\ (length s - q < 8)%nat /\ (i + q + 8 <= n)%nat) \/
     (m = n /\ q = (8 * cnt)%nat)).
Proof.
  induction cnt as [|cnt IH]; intros s r d1 d2 i n Hs Hb Hn Hd Hsrc s0 Hs0 Hd1.
  - exists 0%nat, n, d1, d2. cbn [copy_words]. rewrite !Nat.add_0_r, take_0, app_nil_r, Nat.sub_0_r.
    split_and!; [done|done|done|done|lia|done|right; lia].
  - assert (8 <= length (s ++ 0%Z :: r))%nat as H8.
    { pose proof (Nat.div_le_mono 0 (length s) 8). lia. }
    destruct (split_at (s ++ 0 :: r) 0 8 ltac:(lia)) as (w0 & w & r' & Ew & Hw0 & Hw).
    destruct w0; [|done]. cbn [app] in Ew. cbn [copy_words].
    assert (gets (s0 ++ s ++ 0 :: r) i 8 = Some w) as ->
      by (rewrite Ew, <- Hs0, <- Hw; apply gets_spec).
    cbn [mbind option_bind].
    assert (bytes_ok w) as Hwb by (unfold bytes_ok in *; rewrite Ew in Hb; by apply list.Forall_app in Hb as [? _]).
    destruct (has_zero (le_val w)) eqn:Ez.
    + assert (length s < 8)%nat as Hls.
      { destruct (decide (length s < 8)%nat) as [|Hge]; [done|exfalso].
        assert (nonzero w) as Hwz; [|apply has_zero_spec in Hwz; [congruence|done|done]].
        assert (w = take 8 s) as ->.
        { rewrite <- (take_app_length w r'), <- Ew, Hw, take_app_le by lia. done. }
        by apply Forall_take. }
      assert (zero_index w = length s) as Ei.
      { destruct (split_at (s ++ 0 :: r) (length s + 1) (7 - length s) ltac:(lia)) as (a & b & c & E & Ha & Hbl).
        assert (a = s ++ [0]) as ->.
        { rewrite <- (take_app_length a (b ++ c)), <- E, Ha.
          rewrite (take_app_add' s (0 :: r) (length s) 1) by done. done. }
        rewrite Ew in E. rewrite app_assoc in E. apply app_inj_1 in E as [-> _].
        2: { rewrite Hw, !length_app. cbn. lia. }
        rewrite <- app_assoc. cbn [app]. apply zero_index_spec; [done|lia|].
        rewrite length_app. cbn. lia. }
      exists 0%nat, (length s), d1, d2. rewrite !Nat.add_0_r, take_0, app_nil_r, !Nat.sub_0_r, Ei.
      split_and!; [done|done|done|done|lia|done|left; lia].
    + apply has_zero_spec in Ez; [|done|done].
      assert (8 <= length s)%nat as Hls.
      { destruct (decide (8 <= length s)%nat) as [|Hlt]; [done|exfalso].
        assert (0 ∈ w) as Hin.
        { assert (w !! length s = Some 0) as Hlk; [|by eapply list_elem_of_lookup_2].
          rewrite <- (lookup_app_l w r') by lia. rewrite <- Ew. by rewrite list_lookup_middle. }
        unfold nonzero in Ez. rewrite list.Forall_forall in Ez. by apply (Ez 0). }
      assert (exists s', s = w ++ s') as [s' ->].
      { exists (drop 8 s). rewrite <- (take_drop 8 s) at 1. f_equal.
        rewrite <- (take_app_length w r'), <- Ew, Hw, take_app_le by lia. done. }
      rewrite <- app_assoc in Ew. apply app_inv_head in Ew.
      destruct (split_at d2 0 8 ltac:(lia)) as (z0 & dw & d2r & -> & Hz0 & Hdw). destruct z0; [|done].
      cbn [app].
      assert (puts (d1 ++ dw ++ d2r) i w = Some (d1 ++ w ++ d2r)) as ->
        by (rewrite <- Hd1; apply puts_spec; congruence).
      cbn [mbind option_bind].
      apply list.Forall_app in Hs as [_ Hs].
      rewrite <- app_assoc in Hb. unfold bytes_ok in Hb. apply list.Forall_app in Hb as [_ Hb].
      specialize (IH s' r (d1 ++ w) d2r (i + 8)%nat n Hs Hb ltac:(lia)).
      cbn [app] in Hd. rewrite length_app, Hdw in Hd. rewrite length_app, Hw in Hls.
      rewrite <- app_assoc, !(length_app w), Hw in Hsrc.
      assert ((8 + length s') / 8 = S (length s' / 8))%nat as Ediv.
      { change (8 + length s')%nat with (1 * 8 + length s')%nat. rewrite Nat.div_add_l by done. done. }
      rewrite Ediv in Hsrc. specialize (IH ltac:(lia) ltac:(lia) (s0 ++ w)).
      rewrite !length_app, Hw in IH. specialize (IH ltac:(lia) ltac:(lia)).
      destruct IH as (q & m & d1' & d2' & E & -> & Hl2 & -> & Hq & Hq8 & Hm).
      exists (8 + q)%nat, m, ((d1 ++ w) ++ take q s'), (drop q d2r).
      rewrite <- !app_assoc in E. rewrite <- !app_assoc. split_and!.
      * rewrite E. do 2 f_equal. f_equal. lia.
      * rewrite take_app_ge, Hw by lia. by replace (8 + q - 8)%nat with q by lia.
      * rewrite length_app. lia.
      * rewrite drop_app_ge, Hdw by lia. by replace (8 + q - 8)%nat with q by lia.
      * rewrite length_app. lia.
      * rewrite Nat.Div0.add_mod, Hq8. done.
      * rewrite length_app, Hw. destruct Hm as [[-> ?]|[-> ->]]; [left|right]; lia.
Qed.

(** The copy, whichever loop ends it: a prefix of the source, a terminator, the
    rest of the destination. *)
Lemma strncpy_prefix dst s r n :
  nonzero s -> bytes_ok (s ++ 0 :: r) -> (n < length dst)%nat ->
  (Nat.min n (8 * (length s / 8) + 8) <= length (s ++ 0%Z :: r))%nat ->
  exists k, easy_strncpy dst (s ++ 0 :: r) (S n) =
      Some (take k (s ++ 0 :: r) ++ 0 :: drop (S k) dst) /\
    (k <= length (s ++ 0%Z :: r))%nat /\ (k <= n)%nat /\ (k = n \/ k = length s).
Proof.
  intros Hs Hb Hn Hsrc. unfold easy_strncpy.
  pose proof (Nat.div_mod_eq n 8) as Hdm. pose proof (Nat.mod_upper_bound n 8 ltac:(lia)) as Hm8.
  destruct (copy_words_spec (n / 8) s r [] dst 0 n) with (s0 := @nil Z)
    as (q & m & d1' & d2' & E & -> & Hl2 & -> & Hq & Hq8 & Hm); try done; try lia.
  cbn [app] in E. rewrite E. clear E. cbn [mbind option_bind app]. rewrite Nat.add_0_l.
  set (k := Nat.modulo m 8).
  assert (q + k <= length (s ++ 0%Z :: r) /\ (q + k <= n) /\ ((q + k = n) \/ (q + k = length s)))%nat
    as (Hk1 & Hk2 & Hk3).
  { unfold k. destruct Hm as [(-> & Hlt & Hle)|[-> ->]].
    - rewrite Nat.mod_small by done. rewrite length_app. lia.
    - pose proof (Nat.div_le_mono _ _ 8 ltac:(lia) Hq) as Hqd.
      rewrite (Nat.mul_comm 8), Nat.div_mul in Hqd by done. lia. }
  exists (q + k)%nat. split; [|done].
  destruct (split_at (s ++ 0 :: r) q k Hk1) as (s1 & s2 & s3 & Es & Hs1 & Hs2).
  destruct (split_at (drop q dst) k 1 ltac:(lia)) as (x1 & x2 & x3 & Ed & Hx1 & Hx2).
  destruct x2 as [|x [|]]; try done.
  assert (take q s = s1) as ->.
  { rewrite <- (take_app_length s1 (s2 ++ s3)), <- Es, Hs1, take_app_le by lia. done. }
  rewrite Es, Ed. pose proof (copy_bytes_spec k s1 s2 s3 s1 x1 ([x] ++ x3) eq_refl Hs2 Hx1) as E.
  rewrite Hs1 in E. rewrite E. cbn [mbind option_bind app].
  replace (q + k)%nat with (length (s1 ++ s2)) at 1 by (rewrite length_app; lia).
  rewrite app_assoc, put_spec. f_equal. f_equal.
  - rewrite app_assoc, take_app_le by (rewrite length_app; lia).
    rewrite take_ge; [done|]. rewrite length_app. lia.
  - f_equal. replace (S (q + k)) with (q + (k + 1))%nat by lia. rewrite <- drop_drop, Ed.
    rewrite drop_app_ge by lia. by replace (k + 1 - length x1)%nat with 1%nat by lia.
Qed.

(** [easy_strncpy] into a buffer of at least [n] bytes leaves
    the first n-1 characters of the source there as a terminated string and
    does not touch the buffer from offset n on.  It may read past the
    terminator of the source, up to the end of the eight-byte group the
    terminator is in, but never more than n-1 bytes. *)
Theorem easy_strncpy_spec dst s r n :
  nonzero s -> bytes_ok (s ++ 0 :: r) -> (n < length dst)%nat ->
  (Nat.min n (8 * (length s / 8) + 8) <= length (s ++ 0%Z :: r))%nat ->
  exists dst', easy_strncpy dst (s ++ 0 :: r) (S n) = Some dst' /\
    cstr dst' = Some (take n s) /\ length dst' = length dst /\ drop (S n) dst' = drop (S n) dst.
Proof.
  intros Hs Hb Hn Hsrc. destruct (strncpy_prefix dst s r n Hs Hb Hn Hsrc) as (k & -> & Hk & Hkn & Hk3).
  eexists. split; [done|].
  assert (length (take k (s ++ 0 :: r)) = k) as Hlk by (rewrite length_take; lia).
  split_and!.
  - destruct (decide (k <= length s)%nat) as [Hks|Hks].
    + rewrite take_app_le, cstr_app by (try apply Forall_take; done).
      destruct Hk3 as [->| ->]; [done|]. rewrite !take_ge by lia. done.
    + destruct Hk3 as [->|]; [|lia]. rewrite take_app_ge by lia.
      destruct (n - length s)%nat as [|j] eqn:Ej; [lia|]. cbn [take app].
      rewrite <- app_assoc. cbn [app]. rewrite cstr_app by done. rewrite take_ge by lia. done.
  - rewrite length_app. cbn [length]. rewrite Hlk, length_drop. lia.
  - rewrite drop_app_ge, Hlk by lia. destruct (S n - k)%nat as [|j] eqn:Ej; [lia|]. cbn [drop].
    rewrite drop_drop. f_equal. lia.
Qed.

Lemma easy_strncpy_spec_witness :
  exists dst', easy_strncpy (replicate 16 255) [104; 101; 108; 108; 111; 44; 32; 119; 111; 114; 108; 100; 0; 7; 7; 7] 11
                 = Some dst' /\
    cstr dst' = Some [104; 101; 108; 108; 111; 44; 32; 119; 111; 114].
Proof.
  destruct (easy_strncpy_spec (replicate 16 255) [104; 101; 108; 108; 111; 44; 32; 119; 111; 114; 108; 100] [7; 7; 7] 10)
    as (dst' & E & Hc & _).
  - by repeat constructor.
  - by repeat constructor.
  - cbn. lia.
  - vm_compute. lia.
  - exists dst'. split; [exact E|exact Hc].
Defined.

(** ** Hex dump *)

(** The value of an upper-case hexadecimal digit. *)
Definition unhex (c : Z) : Z := if c <? 58 then c - 48 else c - 55.
Fixpoint fromhex (l : list Z) : list Z :=
  match l with
  | h :: l :: rest => (16 * unhex h + unhex l) :: fromhex rest
  | _ => []
  end.
Definition hex2 (b : Z) : list Z :=
  [nth (Z.to_nat (Z.shiftr b 4)) hexconvtab 0; nth (Z.to_nat (Z.land b 15)) hexconvtab 0].

(** Both digits of a byte, checked on all 256 of them. *)
Lemma hex2_spec b : 0 <= b < 256 -> nonzero (hex2 b) /\ fromhex (hex2 b) = [b].
Proof.
  intros Hb.
  assert (forallb (fun b => let h := hex2 b in negb (nth 0 h 0 =? 0) && negb (nth 1 h 0 =? 0) &&
            (16 * unhex (nth 0 h 0) + unhex (nth 1 h 0) =? b)) (map Z.of_nat (seq 0 256)) = true) as Hall
    by (vm_compute; reflexivity).
  rewrite forallb_forall in Hall. specialize (Hall b). cbv zeta in Hall.
  rewrite !andb_true_iff, !negb_true_iff, !Z.eqb_neq, Z.eqb_eq in Hall.
  destruct Hall as [[H1 H2] H3]; [apply in_map_iff; exists (Z.to_nat b); split; [lia|]; apply in_seq; lia|].
  split; [by repeat constructor|]. 
  change (fromhex (hex2 b)) with [16 * unhex (nth 0 (hex2 b) 0) + unhex (nth 1 (hex2 b) 0)]. by rewrite H3.
Qed.

Lemma fromhex_concat l : bytes_ok l -> fromhex (concat (map hex2 l)) = l.
Proof.
  induction 1 as [|b l Hb _ IH]; [done|]. destruct (hex2_spec b Hb) as [_ Hh]. cbn [map concat].
  assert (exists h1 h2, hex2 b = [h1; h2]) as (h1 & h2 & E) by (unfold hex2; eauto).
  rewrite E in *. cbn [app fromhex] in *. rewrite IH. by injection Hh as ->.
Qed.

Lemma tohex_loop_spec l : forall s1 s3 d1 d2 d3,
  length d1 = (2 * length s1)%nat -> length d2 = (2 * length l)%nat ->
  tohex_loop (length l) (s1 ++ l ++ s3) (d1 ++ d2 ++ d3) (length s1) (length d1) =
    Some (d1 ++ concat (map hex2 l) ++ d3, (length d1 + 2 * length l)%nat).
Proof.
  induction l as [|b l IH]; intros s1 s3 d1 d2 d3 H1 H2.
  - destruct d2; [|done]. cbn. by rewrite Nat.add_0_r.
  - destruct d2 as [|y1 [|y2 d2]]; try (cbn in H2; lia). cbn [length tohex_loop app].
    rewrite list_lookup_middle by done. cbn [mbind option_bind]. rewrite put_spec. cbn [mbind option_bind].
    set (h1 := nth _ hexconvtab 0). set (h2 := nth _ hexconvtab 0).
    replace (S (length d1)) with (length (d1 ++ [h1])) by (rewrite length_app; cbn; lia).
    replace (d1 ++ h1 :: y2 :: d2 ++ d3) with ((d1 ++ [h1]) ++ y2 :: d2 ++ d3) by (by rewrite <- app_assoc).
    rewrite put_spec. cbn [mbind option_bind].
    specialize (IH (s1 ++ [b]) s3 (d1 ++ [h1; h2]) d2 d3).
    rewrite !length_app, <- !app_assoc in IH. cbn [length app] in IH.
    rewrite <- !app_assoc. cbn [app]. rewrite length_app. cbn [length].
    replace (S (length s1)) with (length s1 + 1)%nat by lia.
    replace (S (length d1 + 1)) with (length d1 + 2)%nat by lia.
    rewrite IH by (cbn in *; lia). cbn [map concat].
    replace (length d1 + 2 + 2 * length l)%nat with (length d1 + 2 * S (length l))%nat by lia.
    unfold hex2 at 2. by rewrite <- !app_assoc.
Qed.

(** [easy_string_tohex] writes as many bytes as fit a buffer of
    [size] with the terminator, never beyond it, and the text reads back to
    those bytes. *)
Theorem easy_string_tohex_roundtrip str result :
  bytes_ok str -> (0 < length result)%nat ->
  let n := easy_min ((Z.of_nat (length result) - 1) / 2) (Z.of_nat (length str)) in
  exists result' text, easy_string_tohex str (Z.of_nat (length str)) result (Z.of_nat (length result)) = Some result' /\
    cstr result' = Some text /\ fromhex text = take (Z.to_nat n) str /\ length result' = length result.
Proof.
  intros Hb Hr n. unfold easy_string_tohex. rewrite Z.quot_div_nonneg by lia. fold n.
  assert (0 <= n) by (unfold n; rewrite easy_min_spec; mlia).
  assert (n <= Z.of_nat (length str) /\ 2 * n + 1 <= Z.of_nat (length result)) as [Hn1 Hn2]
    by (unfold n; rewrite easy_min_spec; mlia).
  destruct (split_at str 0 (Z.to_nat n) ltac:(lia)) as (s0 & s1 & s2 & -> & Hs0 & Hs1).
  destruct s0; [|done]. cbn [app] in *.
  destruct (split_at result (2 * Z.to_nat n) 1 ltac:(lia)) as (d1 & d2 & d3 & -> & Hd1 & Hd2).
  destruct d2 as [|y [|]]; try done.
  pose proof (tohex_loop_spec s1 [] s2 [] d1 ([y] ++ d3) eq_refl ltac:(lia)) as E.
  cbn [app length] in E. rewrite Hs1 in E. cbn [app]. rewrite E. cbn [mbind option_bind].
  assert (length (concat (map hex2 s1)) = (2 * length s1)%nat) as Hlen.
  { clear. induction s1 as [|b s1 IH]; [done|]. cbn [map concat]. rewrite length_app, IH. cbn. lia. }
  replace (0 + 2 * Z.to_nat n)%nat with (length (concat (map hex2 s1))) by lia.
  cbn [app]. rewrite put_spec. eexists _, (concat (map hex2 s1)). split; [done|].
  unfold bytes_ok in Hb. apply list.Forall_app in Hb as [Hb1 _]. split_and!.
  - apply cstr_app. clear -Hb1. unfold nonzero. induction Hb1 as [|b l Hb _ IH]; [constructor|].
    cbn [map concat]. apply list.Forall_app. split; [apply hex2_spec; lia|done].
  - rewrite fromhex_concat by done. rewrite take_app_le, take_ge by lia. done.
  - rewrite !length_app. cbn [length]. lia.
Qed.

Lemma easy_string_tohex_roundtrip_witness :
  exists result' text, easy_string_tohex [171; 7; 255] 3 (replicate 6 1) 6 = Some result' /\
    cstr result' = Some text /\ fromhex text = [171; 7].
Proof.
  destruct (easy_string_tohex_roundtrip [171; 7; 255] (replicate 6 1)) as (r & t & E & H1 & H2 & _).
  - by repeat constructor.
  - cbn. lia.
  - exists r, t. split; [exact E|]. split; [exact H1|exact H2].
Defined.

(** ** Case conversion *)

(** The case conversions shift by 36 and not by the 32 between the
    ASCII cases: no letter is converted to its counterpart. *)
Theorem easy_string_case_shift c rest :
  97 <= c <= 122 ->
  easy_string_toupper (c :: 0 :: rest) = Some (c - 36 :: 0 :: rest) /\
  easy_string_tolower (c - 32 :: 0 :: rest) = Some (c + 4 :: 0 :: rest) /\
  c - 36 <> c - 32 /\ c + 4 <> c.
Proof.
  intros Hc. unfold easy_string_toupper, easy_string_tolower. cbn [map_string].
  destruct (Z.eqb_spec c 0); [lia|]. destruct (Z.eqb_spec (c - 32) 0); [lia|].
  destruct (Z.eqb_spec 0 0); [|done]. cbn [mbind option_bind].
  destruct (Z.leb_spec 97 c); [|lia]. destruct (Z.leb_spec c 122); [|lia].
  destruct (Z.leb_spec 65 (c - 32)); [|lia]. destruct (Z.leb_spec (c - 32) 90); [|lia]. cbn [andb].
  rewrite !wrapu_small by lia. split_and!; [done|do 2 f_equal; lia|lia|lia].
Qed.

(** "q" becomes "M" with the wrong shift. *)
Lemma easy_string_case_shift_witness :
  easy_string_toupper [113; 0] = Some [77; 0].
Proof. apply (easy_string_case_shift 113 []). lia. Defined.

End EasyString.
