(* ===== verification/HttpPath.v ===== *)
(** * packet/http/easy_http_handler.c: URL decoding and path merging

    The two string routines of the HTTP handler that work on raw pointers.
    Both are written on a buffer with explicit offsets ([CString]); [None] is an
    access outside of the buffer, offsets of [easy_http_merge_path] are [Z]
    because the code moves a pointer before the start of its area.

    [decode] and [resolve] are the references: percent decoding on a list, and
    resolution of a path segment by segment. *)

From Stdlib Require Import Ascii String ZArith Lia.
From stdpp Require Import base list numbers option.
From S2P Require Import Prelude CString.

Local Open Scope Z_scope.

Module HttpPath.

(** ** easy_url_decode *)

Definition isxdigit (c : Z) : bool :=
  ((48 <=? c) && (c <=? 57)) || ((65 <=? c) && (c <=? 70)) || ((97 <=? c) && (c <=? 102)).

Definition easy_htoi (c0 c1 : Z) : Z :=
  let digit c := if 65 <=? c then (Z.land c 223 - 65) + 10 else c - 48 in
  digit c0 * 16 + digit c1.

(** The condition of the [if] at offset [data], [len] already decremented:
    [Some b] when an escape sequence with value [b] starts there. *)
Definition escape (str : list Z) (data len : nat) (c : Z) : option (option Z) :=
  if (c =? chr "%") && (2 <=? len)%nat then
    c1 ← str !! (data + 1)%nat;
    if isxdigit c1 then
      c2 ← str !! (data + 2)%nat;
      Some (if isxdigit c2 then Some (easy_htoi c1 c2) else None)
    else Some None
  else Some None.

(** The loop; [data] and [dest] are offsets, one unit of [fuel] per byte of [len]. *)
Fixpoint url_decode_loop (fuel : nat) (str : list Z) (dest data len : nat) : option (list Z * nat) :=
  match fuel, len with
  | _, O => Some (str, dest)
  | O, S _ => None
  | S fuel, S len =>
      c ← str !! data;
      esc ← escape str data len c;
      match esc with
      | Some b =>
          str ← put str dest (u8 b);
          url_decode_loop fuel str (S dest) (data + 3) (len - 2)
      | None =>
          str ← put str dest c;
          url_decode_loop fuel str (S dest) (S data) len
      end
  end.

Definition easy_url_decode (str : list Z) (len : nat) : option (list Z * nat) :=
  r ← url_decode_loop len str 0 0 len;
  let '(str, dest) := r in
  str ← put str dest 0;
  Some (str, dest).

(** *** Reference *)

Definition hexval (c : Z) : Z :=
  if c <=? 57 then c - 48 else if c <=? 70 then c - 55 else c - 87.

Fixpoint decode (s : list Z) : list Z :=
  match s with
  | [] => []
  | c :: rest =>
      match rest with
      | h :: l :: rest' =>
          if (c =? chr "%") && isxdigit h && isxdigit l
          then (16 * hexval h + hexval l) :: decode rest'
          else c :: decode rest
      | _ => c :: decode rest
      end
  end.

(** Percent-encoding of every byte that is not a letter or a digit. *)
Definition unreserved (b : Z) : bool :=
  ((48 <=? b) && (b <=? 57)) || ((65 <=? b) && (b <=? 90)) || ((97 <=? b) && (b <=? 122)).
Definition hexdigit (v : Z) : Z := if v <? 10 then 48 + v else 55 + v.
Fixpoint encode (s : list Z) : list Z :=
  match s with
  | [] => []
  | b :: s => (if unreserved b then [b] else [chr "%"; hexdigit (b / 16); hexdigit (b mod 16)]) ++ encode s
  end.

Lemma decode_esc h l s : isxdigit h = true -> isxdigit l = true ->
  decode (chr "%" :: h :: l :: s) = (16 * hexval h + hexval l) :: decode s.
Proof. intros Hh Hl. cbn [decode]. by rewrite Hh, Hl. Qed.

Lemma decode_plain c s : (c =? chr "%") = false -> decode (c :: s) = c :: decode s.
Proof. intros Hc. cbn [decode]. rewrite Hc. by destruct s as [|? [|]]. Qed.

Lemma hexdigit_spec v : 0 <= v < 16 -> isxdigit (hexdigit v) = true /\ hexval (hexdigit v) = v.
Proof.
  intros Hv. unfold hexdigit, isxdigit, hexval.
  destruct (Z.ltb_spec v 10); bdestruct_all; try lia; split; try done; lia.
Qed.

Lemma decode_encode s : bytes_ok s -> decode (encode s) = s.
Proof.
  induction 1 as [|b s Hb _ IH]; [done|]. cbn [encode].
  destruct (unreserved b) eqn:Eu; cbn [app].
  - rewrite decode_plain, IH; [done|]. apply Z.eqb_neq. intros ->. done.
  - destruct (hexdigit_spec (b / 16) ltac:(mlia)) as [H1 H2].
    destruct (hexdigit_spec (b mod 16) ltac:(mlia)) as [H3 H4].
    rewrite decode_esc, IH, H2, H4 by done. f_equal. mlia.
Qed.

Lemma htoi_spec c1 c2 : isxdigit c1 = true -> isxdigit c2 = true ->
  u8 (easy_htoi c1 c2) = 16 * hexval c1 + hexval c2.
Proof.
  intros H1 H2.
  assert (forall c, isxdigit c = true ->
    (if 65 <=? c then (Z.land c 223 - 65) + 10 else c - 48) = hexval c /\ 0 <= hexval c < 16) as Hd.
  { intros c Hc. assert (48 <= c <= 102) as Hr.
    { unfold isxdigit in Hc. rewrite !orb_true_iff, !andb_true_iff, !Z.leb_le in Hc. lia. }
    assert (forallb (fun c => negb (isxdigit c) || (((if 65 <=? c then (Z.land c 223 - 65) + 10 else c - 48) =? hexval c) &&
      (0 <=? hexval c) && (hexval c <? 16))) (map Z.of_nat (seq 48 55)) = true) as Hall by (vm_compute; reflexivity).
    rewrite forallb_forall in Hall. specialize (Hall c). rewrite Hc in Hall. cbn [negb orb] in Hall.
    rewrite !andb_true_iff, Z.eqb_eq, Z.leb_le, Z.ltb_lt in Hall.
    destruct Hall as [[? ?] ?]; [|lia]. apply in_map_iff. exists (Z.to_nat c). split; [lia|]. apply in_seq. lia. }
  unfold easy_htoi. destruct (Hd c1 H1) as [-> ?], (Hd c2 H2) as [-> ?].
  rewrite wrapu_small; lia.
Qed.

(** What [escape] sees of the unread part decides the next decoded byte:
    [k] bytes are consumed. *)
Definition escaped (s : list Z) (c b : Z) (k : nat) (e : option Z) : Prop :=
  match e with
  | Some v => b = u8 v /\ k = 3%nat
  | None => b = c /\ k = 1%nat
  end.

Lemma escape_spec A c s r :
  exists e b k s', escape (A ++ c :: s ++ r) (List.length A) (List.length s) c = Some e /\
    (exists x, c :: s = x ++ s' /\ List.length x = k) /\ decode (c :: s) = b :: decode s' /\ escaped s c b k e.
Proof.
  assert (forall j, (A ++ c :: s ++ r) !! (List.length A + j)%nat = (c :: s ++ r) !! j) as Hlk.
  { intros j. rewrite lookup_app_r by lia. f_equal. lia. }
  assert (decode (c :: s) = c :: decode s -> exists b k s',
    (exists x, c :: s = x ++ s' /\ List.length x = k) /\ decode (c :: s) = b :: decode s' /\ escaped s c b k None) as Hplain.
  { intros E. exists c, 1%nat, s. split_and!; [by exists [c]|done|done]. }
  unfold escape. destruct (c =? chr "%") eqn:Ec.
  2: { exists None. destruct Hplain as (b & k & s' & ?); [by apply decode_plain|]. eauto. }
  apply Z.eqb_eq in Ec as ->. destruct s as [|h [|l s]].
  1,2: exists None; destruct Hplain as (b & k & s' & ?); [done|]; eauto.
  rewrite !Hlk. cbn [Nat.leb andb List.length app lookup list_lookup mbind option_bind].
  destruct (isxdigit h) eqn:Eh.
  2: { exists None. destruct Hplain as (b & k & s' & ?); [cbn [decode]; by rewrite Eh|]. eauto. }
  destruct (isxdigit l) eqn:El.
  2: { exists None. destruct Hplain as (b & k & s' & ?); [cbn [decode]; by rewrite Eh, El|]. eauto. }
  exists (Some (easy_htoi h l)), (u8 (easy_htoi h l)), 3%nat, s.
  split_and!; [done|by exists [chr "%"; h; l]|by rewrite decode_esc, htoi_spec|done].
Qed.

(** Storing one byte behind the written part when [x] was consumed. *)
Lemma store_next D G x s r b : (1 <= List.length x)%nat ->
  exists G0, put (D ++ G ++ (x ++ s) ++ r) (List.length D) b = Some ((D ++ [b]) ++ G0 ++ s ++ r) /\
    (S (List.length G0) = List.length G + List.length x)%nat.
Proof.
  intros Hx. destruct (G ++ x) as [|y G0] eqn:EG.
  { apply (f_equal List.length) in EG. rewrite length_app in EG. cbn in EG. lia. }
  exists G0. rewrite <- app_assoc, (app_assoc G x), EG. cbn [app]. rewrite put_spec, <- app_assoc.
  split; [done|]. apply (f_equal List.length) in EG. rewrite length_app in EG. cbn in EG. lia.
Qed.

(** The loop with [D] written, [G] between the two pointers, [s] unread. *)
Lemma url_decode_loop_spec fuel : forall s D G r,
  (List.length s <= fuel)%nat ->
  exists G', url_decode_loop fuel (D ++ G ++ s ++ r) (List.length D) (List.length D + List.length G) (List.length s) =
      Some (D ++ decode s ++ G' ++ r, (List.length D + List.length (decode s))%nat) /\
    (List.length (decode s) + List.length G' = List.length G + List.length s)%nat.
Proof.
  induction fuel as [|fuel IH]; intros s D G r Hf.
  { destruct s; [|cbn in Hf; lia]. exists G. cbn. rewrite Nat.add_0_r. split; [done|lia]. }
  destruct s as [|c s]. { exists G. cbn. rewrite Nat.add_0_r. split; [done|lia]. }
  cbn [url_decode_loop List.length]. cbn in Hf.
  destruct (escape_spec (D ++ G) c s r) as (e & b & k & s' & Ee & (x & Ex & Hx) & Hdec & Hesc).
  rewrite <- app_assoc, length_app in Ee. cbn [app] in *.
  assert ((D ++ G ++ c :: s ++ r) !! (List.length D + List.length G)%nat = Some c) as ->
    by (rewrite app_assoc, <- length_app; by apply list_lookup_middle).
  cbn [mbind option_bind]. rewrite Ee. cbn [mbind option_bind].
  assert (1 <= k <= 3)%nat as Hk by (destruct e; destruct Hesc; lia).
  destruct (store_next D G x s' r b ltac:(lia)) as (G0 & Ep & HG0). rewrite <- Ex in Ep. cbn [app] in Ep.
  apply (f_equal List.length) in Ex. rewrite length_app in Ex. cbn in Ex.
  destruct (IH s' (D ++ [b]) G0 r) as (G' & E & HG'); [lia|].
  exists G'. rewrite Hdec. cbn [List.length]. split; [|lia].
  rewrite !length_app in E. cbn [List.length] in E.
  replace (S (List.length D)) with (List.length D + 1)%nat by lia.
  destruct e as [v|]; destruct Hesc as [-> ->]; rewrite Ep; cbn [mbind option_bind].
  - replace (List.length D + List.length G + 3)%nat with (List.length D + 1 + List.length G0)%nat by lia.
    replace (List.length s - 2)%nat with (List.length s') by lia. rewrite E, <- app_assoc. do 2 f_equal. lia.
  - replace (S (List.length D + List.length G)) with (List.length D + 1 + List.length G0)%nat by lia.
    replace (List.length s) with (List.length s') by lia. rewrite E, <- app_assoc. do 2 f_equal. lia.
Qed.

Lemma url_decode_ok s x r :
  exists G, easy_url_decode (s ++ x :: r) (List.length s) = Some (decode s ++ 0 :: G ++ r, List.length (decode s)) /\
    (List.length (decode s) + List.length G = List.length s)%nat.
Proof.
  destruct (url_decode_loop_spec (List.length s) s [] [] (x :: r) ltac:(lia)) as (G & E & HG).
  cbn [app List.length] in E, HG. rewrite !Nat.add_0_l in *. unfold easy_url_decode. rewrite E. cbn [mbind option_bind].
  destruct G as [|y G].
  - exists []. cbn [app]. rewrite put_spec. cbn [mbind option_bind]. split; [done|]. cbn in *. lia.
  - exists (G ++ [x]). cbn [app]. rewrite put_spec. cbn [mbind option_bind]. rewrite <- app_assoc.
    split; [done|]. rewrite length_app. cbn in *. lia.
Qed.

(** [easy_url_decode] decodes in place exactly what the
    reference decodes, terminates the result, reports its length and leaves
    the bytes behind the terminator slot [str[len]] alone; on an encoded byte
    string it gives that byte string back. *)
Theorem easy_url_decode_spec s x r :
  (exists G, easy_url_decode (s ++ x :: r) (List.length s) =
       Some (decode s ++ 0 :: G ++ r, List.length (decode s)) /\
     (List.length (decode s) + List.length G = List.length s)%nat) /\
  (bytes_ok s -> exists G, easy_url_decode (encode s ++ x :: r) (List.length (encode s)) =
     Some (s ++ 0 :: G ++ r, List.length s)).
Proof.
  split; [apply url_decode_ok|]. intros Hs.
  destruct (url_decode_ok (encode s) x r) as (G & E & _). rewrite (decode_encode s Hs) in E. by exists G.
Qed.

Lemma easy_url_decode_spec_witness : bytes_ok [32; 37; 65] /\
  exists G, easy_url_decode ([37; 50; 48; 37; 50; 53; 65] ++ 0 :: []) 7 = Some ([32; 37; 65] ++ 0 :: G ++ [], 3%nat).
Proof.
  assert (bytes_ok [32; 37; 65]) as H by (by repeat constructor).
  split; [exact H|]. exact (proj2 (easy_url_decode_spec [32; 37; 65] 0 []) H).
Defined.

(** ** easy_http_merge_path *)

Definition putz (m : list Z) (u b : Z) : option (list Z) := if u <? 0 then None else put m (Z.to_nat u) b.
Definition getz (m : list Z) (u : Z) : option Z := if u <? 0 then None else m !! Z.to_nat u.

(** [while (u >= newpath) { if ( *u == '/') { u++; break; } u--; }]; [np] is the
    offset of [newpath]. *)
Fixpoint back (fuel : nat) (m : list Z) (np u : Z) : option Z :=
  match fuel with
  | O => Some u
  | S fuel =>
      if np <=? u then
        c ← getz m u;
        if c =? chr "/" then Some (u + 1) else back fuel m np (u - 1)
      else Some u
  end.

Inductive merged := MError | MPath (u : Z).

(** [state] after a character that is not a slash. *)
Definition dot_state (state c : Z) : Z :=
  if negb (state =? 0) && (c =? chr ".") then (if state =? 5 then 0 else if state =? 2 then 5 else 2) else 0.

(** The loop over [addpath]. *)
Fixpoint merge_loop (p : list Z) (m : list Z) (np ue u state : Z) : option (merged * list Z) :=
  match p with
  | [] => Some (MPath u, m)
  | c :: p =>
      if (u =? ue) || (u <? np) then Some (MError, m)
      else
        m ← putz m u c;
        let u := u + 1 in
        if c =? chr "/" then
          let u := if negb (state =? 0) then u - state else u in
          u ← (if state =? 5 then back (Z.to_nat (u - np + 1)) m np u else Some u);
          merge_loop p m np ue u 1
        else merge_loop p m np ue u (dot_state state c)
  end.

(** [newpath] is the buffer of [len] bytes, the other two are strings without
    their terminator. *)
Definition easy_http_merge_path (newpath rootpath addpath : list Z) : option (Z * list Z) :=
  let len := Z.of_nat (List.length newpath) in
  let size := Z.of_nat (List.length rootpath) in
  if len <=? size then Some (EASY_ERROR, newpath)
  else
    m ← puts newpath 0 rootpath;
    let u := size in
    let ue := len - 1 in
    let slash := (u <? ue) && (0 <? size) && negb (nth (List.length rootpath - 1) rootpath 0 =? chr "/") &&
                 negb (nth 0 addpath 0 =? chr "/") in
    m ← (if slash then putz m u (chr "/") else Some m);
    let u := if slash then u + 1 else u in
    r ← merge_loop addpath m size ue u 0;
    match r with
    | (MError, m) => Some (EASY_ERROR, m)
    | (MPath u, m) => m ← putz m u 0; Some (EASY_OK, m)
    end.

(** *** Reference: resolution by segments *)

Definition no_slash (s : list Z) : Prop := Forall (fun c => c <> chr "/") s.
Definition dot : list Z := [chr "."].
Definition dotdot : list Z := [chr "."; chr "."].

(** The stack of segments, innermost first; [None] when [..] leaves the root. *)
Fixpoint resolve (stack : list (list Z)) (segs : list (list Z)) : option (list (list Z)) :=
  match segs with
  | [] => Some stack
  | s :: segs =>
      if bool_decide (s = []) || bool_decide (s = dot) then resolve stack segs
      else if bool_decide (s = dotdot) then
        match stack with
        | [] => None
        | _ :: stack => resolve stack segs
        end
      else resolve (s :: stack) segs
  end.

(** Segments, each followed by a slash. *)
Definition slashed (segs : list (list Z)) : list Z := concat (map (fun s => s ++ [chr "/"]) segs).
Definition area (stack : list (list Z)) : list Z := chr "/" :: slashed (rev stack).

Lemma slashed_app a b : slashed (a ++ b) = slashed a ++ slashed b.
Proof. unfold slashed. by rewrite map_app, concat_app. Qed.

Lemma slashed_cons s segs : slashed (s :: segs) = s ++ chr "/" :: slashed segs.
Proof. unfold slashed. cbn [map concat]. by rewrite <- app_assoc. Qed.

Lemma area_cons s stack : area (s :: stack) = area stack ++ s ++ [chr "/"].
Proof. unfold area. cbn [rev app]. rewrite slashed_app. cbn. by rewrite app_nil_r. Qed.

Lemma area_end stack : exists w, area stack = w ++ [chr "/"].
Proof.
  destruct stack as [|s stack]; [by exists []|]. exists (area stack ++ s). by rewrite area_cons, app_assoc.
Qed.

(** *** The loop *)

Lemma putz_at m1 x m2 b u : u = Z.of_nat (List.length m1) -> putz (m1 ++ x :: m2) u b = Some (m1 ++ b :: m2).
Proof.
  intros ->. unfold putz. destruct (Z.ltb_spec (Z.of_nat (List.length m1)) 0); [lia|].
  rewrite Nat2Z.id. apply put_spec.
Qed.

Lemma getz_at m1 x m2 u : u = Z.of_nat (List.length m1) -> getz (m1 ++ x :: m2) u = Some x.
Proof.
  intros ->. unfold getz. destruct (Z.ltb_spec (Z.of_nat (List.length m1)) 0); [lia|].
  rewrite Nat2Z.id. by apply list_lookup_middle.
Qed.

(** From the last byte of [s] the scan stops behind the slash before it. *)
Lemma back_slash s : forall A r np fuel,
  no_slash s -> np <= Z.of_nat (List.length A) -> (List.length s < fuel)%nat ->
  back fuel (A ++ chr "/" :: s ++ r) np (Z.of_nat (List.length A + List.length s)) =
    Some (Z.of_nat (List.length A) + 1).
Proof.
  induction s as [|c s IH] using rev_ind; intros A r np fuel Hs Hnp Hf.
  - destruct fuel; [lia|]. cbn [back List.length app]. rewrite Nat.add_0_r.
    destruct (Z.leb_spec np (Z.of_nat (List.length A))); [|lia]. by rewrite (getz_at A).
  - apply list.Forall_app in Hs as [Hs Hc]. inversion_clear Hc as [|? ? Hc1 _].
    destruct fuel; [lia|]. rewrite length_app in *. cbn [back List.length] in *.
    destruct (Z.leb_spec np (Z.of_nat (List.length A + (List.length s + 1)))); [|lia].
    replace (A ++ chr "/" :: (s ++ [c]) ++ r) with ((A ++ chr "/" :: s) ++ c :: r)
      by (rewrite <- !app_assoc; done).
    rewrite getz_at by (rewrite length_app; cbn; lia). cbn [mbind option_bind].
    destruct (Z.eqb_spec c (chr "/")); [done|].
    replace ((A ++ chr "/" :: s) ++ c :: r) with (A ++ chr "/" :: s ++ c :: r) by (by rewrite <- app_assoc).
    replace (Z.of_nat (List.length A + (List.length s + 1)) - 1) with (Z.of_nat (List.length A + List.length s)) by lia.
    apply IH; [done|lia|lia].
Qed.

(** A position of the loop: [W] is written behind the root [A], the buffer ends
    with [r]. *)
Definition at_ (p A W r : list Z) (state : Z) : option (merged * list Z) :=
  merge_loop p (A ++ W ++ r) (Z.of_nat (List.length A))
    (Z.of_nat (List.length (A ++ W ++ r)) - 1) (Z.of_nat (List.length (A ++ W))) state.

(** Two positions with the same buffer length and contents. *)
Lemma at_eq p A W r W' r' state np ue u m :
  m = A ++ W' ++ r' -> np = Z.of_nat (List.length A) ->
  List.length (A ++ W ++ r) = List.length (A ++ W' ++ r') -> ue = Z.of_nat (List.length (A ++ W ++ r)) - 1 ->
  u = Z.of_nat (List.length (A ++ W')) ->
  merge_loop p m np ue u state = at_ p A W' r' state.
Proof. intros -> -> Hl -> ->. unfold at_. by rewrite Hl. Qed.

(** One turn of the loop when a byte and the terminator still fit. *)
Lemma at_turn c p A W x y r state :
  at_ (c :: p) A W (x :: y :: r) state =
  let m := A ++ W ++ c :: y :: r in
  let np := Z.of_nat (List.length A) in
  let ue := Z.of_nat (List.length (A ++ W ++ x :: y :: r)) - 1 in
  let u := Z.of_nat (List.length (A ++ W)) + 1 in
  if c =? chr "/" then
    let u := if negb (state =? 0) then u - state else u in
    u ← (if state =? 5 then back (Z.to_nat (u - np + 1)) m np u else Some u);
    merge_loop p m np ue u 1
  else merge_loop p m np ue u (dot_state state c).
Proof.
  unfold at_. cbn [merge_loop].
  destruct (Z.eqb_spec (Z.of_nat (List.length (A ++ W))) (Z.of_nat (List.length (A ++ W ++ x :: y :: r)) - 1)) as [E|_];
    [rewrite !length_app in E; cbn in E; lia|].
  destruct (Z.ltb_spec (Z.of_nat (List.length (A ++ W))) (Z.of_nat (List.length A)));
    [rewrite length_app in *; lia|].
  cbn [orb]. rewrite (app_assoc A W (x :: y :: r)), putz_at by done. cbn [mbind option_bind].
  by rewrite <- app_assoc.
Qed.

(** [at_done W r]: back in the shape of a position, from the old [W] and [r]. *)
Ltac at_done W0 r0 :=
  apply at_eq with (W := W0) (r := r0); rewrite <- ?app_assoc; try done; rewrite !length_app; cbn;
  rewrite ?length_app; cbn; lia.

Lemma at_char c p A W x y r state : c <> chr "/" ->
  at_ (c :: p) A W (x :: y :: r) state = at_ p A (W ++ [c]) (y :: r) (dot_state state c).
Proof.
  intros Hc. rewrite at_turn. cbv zeta. destruct (Z.eqb_spec c (chr "/")); [done|]. at_done W (x :: y :: r).
Qed.

Definition seg_state (state : Z) (s : list Z) : Z := fold_left dot_state s state.

Lemma at_seg s : forall p A W r state,
  no_slash s -> (List.length s < List.length r)%nat ->
  exists r', at_ (s ++ p) A W r state = at_ p A (W ++ s) r' (seg_state state s) /\
    (List.length r' + List.length s = List.length r)%nat.
Proof.
  induction s as [|c s IH]; intros p A W r state Hs Hr.
  - exists r. rewrite app_nil_r. split; [done|cbn; lia].
  - inversion_clear Hs as [|? ? Hc Hs']. destruct r as [|x [|y r]]; try (cbn in Hr; lia).
    destruct (IH p A (W ++ [c]) (y :: r) (dot_state state c) Hs') as (r' & E & Hl); [cbn in *; lia|].
    exists r'. cbn [app]. rewrite at_char, E by done. rewrite <- app_assoc. split; [done|cbn in *; lia].
Qed.

Lemma seg_state_cons st c s : seg_state st (c :: s) = seg_state (dot_state st c) s.
Proof. done. Qed.
Lemma dot_state_1 c : dot_state 1 c = if c =? chr "." then 2 else 0.
Proof. done. Qed.
Lemma dot_state_2 c : dot_state 2 c = if c =? chr "." then 5 else 0.
Proof. done. Qed.
Lemma dot_state_5 c : dot_state 5 c = 0.
Proof. unfold dot_state. by destruct (c =? chr "."). Qed.

Lemma seg_state_0 s : seg_state 0 s = 0.
Proof. by induction s. Qed.

(** The state at the end of a segment tells the special ones apart. *)
Lemma seg_state_1 s :
  seg_state 1 s = if bool_decide (s = []) then 1 else if bool_decide (s = dot) then 2
                  else if bool_decide (s = dotdot) then 5 else 0.
Proof.
  unfold dot, dotdot. repeat case_bool_decide; subst; try done.
  destruct s as [|a s]; [done|]. rewrite seg_state_cons, dot_state_1.
  destruct (Z.eqb_spec a (chr ".")) as [->|]; [|apply seg_state_0].
  destruct s as [|b s]; [done|]. rewrite seg_state_cons, dot_state_2.
  destruct (Z.eqb_spec b (chr ".")) as [->|]; [|apply seg_state_0].
  destruct s as [|c s]; [done|]. by rewrite seg_state_cons, dot_state_5, seg_state_0.
Qed.

Lemma at_slash_0 p A W x y r :
  at_ (chr "/" :: p) A W (x :: y :: r) 0 = at_ p A (W ++ [chr "/"]) (y :: r) 1.
Proof. rewrite at_turn. cbn [mbind option_bind Z.eqb Pos.eqb negb]. at_done W (x :: y :: r). Qed.

(** A slash after an empty or a dot segment drops the segment. *)
Lemma at_slash_drop d p A W x y r :
  d = [] \/ d = dot ->
  at_ (chr "/" :: p) A (W ++ d) (x :: y :: r) (seg_state 1 d) = at_ p A W (d ++ chr "/" :: y :: r) 1.
Proof.
  intros Hd. rewrite at_turn. cbv zeta.
  destruct Hd as [->| ->]; cbn [seg_state fold_left dot dot_state mbind option_bind Z.eqb Pos.eqb negb andb].
  - at_done (W ++ []) (x :: y :: r).
  - at_done (W ++ dot) (x :: y :: r).
Qed.

(** A slash after a double dot segment removes the segment [s] before it. *)
Lemma at_slash_pop s p A W x y r :
  no_slash s -> s <> [] ->
  at_ (chr "/" :: p) A ((W ++ [chr "/"]) ++ s ++ [chr "/"] ++ dotdot) (x :: y :: r) 5 =
  at_ p A (W ++ [chr "/"]) ((s ++ [chr "/"] ++ dotdot) ++ chr "/" :: y :: r) 1.
Proof.
  intros Hs Hne. set (V := (W ++ [chr "/"]) ++ s ++ [chr "/"] ++ dotdot).
  assert (List.length V = (List.length W + List.length s + 4)%nat) as HV
    by (unfold V; rewrite !length_app; cbn; lia).
  assert (0 < List.length s)%nat by (destruct s; [done|cbn; lia]).
  rewrite at_turn. cbn [mbind option_bind Z.eqb negb Pos.eqb].
  replace (Z.of_nat (List.length (A ++ V)) + 1 - 5) with
    (Z.of_nat (List.length (A ++ W) + List.length s)) by (rewrite !length_app; lia).
  replace (A ++ V ++ chr "/" :: y :: r) with
    ((A ++ W) ++ chr "/" :: s ++ [chr "/"] ++ dotdot ++ chr "/" :: y :: r)
    by (unfold V; rewrite <- !app_assoc; done).
  rewrite back_slash by (rewrite ?length_app; lia || done). cbn [mbind option_bind].
  apply at_eq with (W := V) (r := x :: y :: r); unfold V; rewrite <- ?app_assoc; try done;
    rewrite !length_app; cbn; rewrite ?length_app; cbn; lia.
Qed.

(** A slash after a double dot segment right behind the root moves the pointer
    before the area. *)
Lemma at_slash_under p A x y r :
  exists ue, at_ (chr "/" :: p) A (area [] ++ dotdot) (x :: y :: r) 5 =
    merge_loop p (A ++ (area [] ++ dotdot) ++ chr "/" :: y :: r) (Z.of_nat (List.length A)) ue
      (Z.of_nat (List.length A) - 1) 1.
Proof.
  eexists. rewrite at_turn. cbn [mbind option_bind Z.eqb negb Pos.eqb].
  replace (Z.of_nat (List.length (A ++ area [] ++ dotdot)) + 1 - 5) with (Z.of_nat (List.length A) - 1)
    by (rewrite length_app; cbn; lia).
  replace (Z.to_nat (Z.of_nat (List.length A) - 1 - Z.of_nat (List.length A) + 1)) with 0%nat by lia.
  cbn [back mbind option_bind]. reflexivity.
Qed.

(** Segments on the stack: not empty, without slashes. *)
Definition stack_ok (stack : list (list Z)) : Prop := Forall (fun s => no_slash s /\ s <> []) stack.

(** A run over whole segments resolves them. *)
Lemma at_segs segs : forall p A stack stack' r,
  Forall no_slash segs -> stack_ok stack -> (List.length (slashed segs) < List.length r)%nat ->
  resolve stack segs = Some stack' ->
  exists r', at_ (slashed segs ++ p) A (area stack) r 1 = at_ p A (area stack') r' 1 /\ stack_ok stack' /\
    (List.length (area stack') + List.length r' = List.length (area stack) + List.length r)%nat /\
    (List.length r <= List.length r' + List.length (slashed segs))%nat.
Proof.
  induction segs as [|s segs IH]; intros p A stack stack' r Hsegs Hst Hr Hres.
  { injection Hres as <-. exists r. split_and!; [done|done|done|lia]. }
  inversion_clear Hsegs as [|? ? Hs Hsegs']. rewrite slashed_cons, length_app in *. cbn [List.length] in *.
  rewrite <- app_assoc. destruct (at_seg s ((chr "/" :: slashed segs) ++ p) A (area stack) r 1 Hs) as (r1 & E & Hr1); [lia|].
  rewrite E. clear E. destruct r1 as [|x [|y r1]]; try (cbn in Hr1; lia). cbn [app List.length] in *.
  cbn [resolve] in Hres.
  assert (s = [] \/ s = dot \/ s <> [] /\ s <> dot) as Hcase.
  { destruct (decide (s = [])); [auto|]. destruct (decide (s = dot)); auto. }
  destruct Hcase as [Hd|[Hd|[Hn1 Hn2]]].
  1,2: rewrite at_slash_drop by auto;
    destruct (IH p A stack stack' (s ++ chr "/" :: y :: r1) Hsegs' Hst) as (r' & E & Hst' & Hl1 & Hl2);
    [rewrite length_app; cbn; lia|by rewrite Hd in Hres|];
    exists r'; rewrite !length_app in *; cbn [List.length] in *; split_and!; [exact E|done|lia|lia].
  rewrite (bool_decide_eq_false_2 _ Hn1), (bool_decide_eq_false_2 _ Hn2) in Hres. cbn [orb] in Hres.
  rewrite seg_state_1, (bool_decide_eq_false_2 _ Hn1), (bool_decide_eq_false_2 _ Hn2).
  destruct (decide (s = dotdot)) as [->|Hn3].
  - rewrite bool_decide_eq_true_2 in * by done. destruct stack as [|t stack]; [done|].
    inversion_clear Hst as [|? ? [Ht1 Ht2] Hst2]. destruct (area_end stack) as [w Ew].
    rewrite area_cons, Ew, <- !app_assoc, (app_assoc w), at_slash_pop by done. rewrite <- Ew.
    destruct (IH p A stack stack' ((t ++ [chr "/"] ++ dotdot) ++ chr "/" :: y :: r1) Hsegs' Hst2)
      as (r' & E & Hst' & Hl1 & Hl2); [rewrite !length_app; cbn; lia|done|].
    exists r'. split; [exact E|]. apply (f_equal List.length) in Ew. rewrite !length_app in *. cbn [List.length dotdot] in *. split_and!; [done|lia|lia].
  - rewrite (bool_decide_eq_false_2 _ Hn3) in *. rewrite at_slash_0.
    destruct (IH p A (s :: stack) stack' (y :: r1) Hsegs') as (r' & E & Hst' & Hl1 & Hl2);
      [by constructor|cbn; lia|done|].
    exists r'. rewrite area_cons in E, Hl1. rewrite <- app_assoc. rewrite !length_app in *. cbn [List.length] in *.
    split_and!; [exact E|done|lia|lia].
Qed.

Lemma resolve_nonzero segs : forall stack stack',
  Forall nonzero segs -> Forall nonzero stack -> resolve stack segs = Some stack' -> Forall nonzero stack'.
Proof.
  induction segs as [|s segs IH]; intros stack stack' Hs Hst; cbn [resolve]; [by intros [= <-]|].
  inversion_clear Hs as [|? ? H1 H2]. destruct (_ || _); [by apply IH|].
  destruct (bool_decide _); [|by apply IH; [|constructor]].
  destruct stack; [done|]. inversion_clear Hst. by apply IH.
Qed.

Lemma resolve_none segs : forall stack, resolve stack segs = None ->
  exists a b, segs = a ++ dotdot :: b /\ resolve stack a = Some [].
Proof.
  induction segs as [|s segs IH]; intros stack; cbn [resolve]; [done|].
  destruct (bool_decide (s = []) || bool_decide (s = dot)) eqn:E1.
  { intros (a & b & -> & Ha)%IH. exists (s :: a), b. cbn [resolve]. by rewrite E1. }
  destruct (bool_decide (s = dotdot)) eqn:E2.
  - destruct stack as [|t stack]; [apply bool_decide_eq_true in E2; intros _; subst; by exists [], segs|].
    intros (a & b & -> & Ha)%IH. exists (s :: a), b. cbn [resolve]. by rewrite E1, E2.
  - intros (a & b & -> & Ha)%IH. exists (s :: a), b. cbn [resolve]. by rewrite E1, E2.
Qed.

Lemma nonzero_slashed segs : Forall nonzero segs -> nonzero (slashed segs).
Proof.
  induction 1 as [|s segs Hs _ IH]; [constructor|]. rewrite slashed_cons. unfold nonzero.
  apply list.Forall_app. split; [done|by constructor].
Qed.

(** Entering and leaving the loop with [s] written behind the root. *)
Lemma merge_path_enter newpath root add :
  (List.length root + 1 < List.length newpath)%nat ->
  let W := if (0 <? Z.of_nat (List.length root)) && negb (nth (List.length root - 1) root 0 =? chr "/") &&
              negb (nth 0 add 0 =? chr "/") then [chr "/"] else [] in
  exists r, (List.length root + List.length W + List.length r = List.length newpath)%nat /\
    easy_http_merge_path newpath root add =
      (x ← at_ add root W r 0;
       match x with
       | (MError, m) => Some (EASY_ERROR, m)
       | (MPath u, m) => m ← putz m u 0; Some (EASY_OK, m)
       end).
Proof.
  intros Hl W. unfold easy_http_merge_path. cbv zeta.
  destruct (Z.leb_spec (Z.of_nat (List.length newpath)) (Z.of_nat (List.length root))); [lia|].
  rewrite puts_some by lia. rewrite take_0. cbn [mbind option_bind app]. rewrite Nat.add_0_l.
  destruct (Z.ltb_spec (Z.of_nat (List.length root)) (Z.of_nat (List.length newpath) - 1)); [|lia]. cbn [andb].
  assert (List.length (drop (List.length root) newpath) = (List.length newpath - List.length root)%nat) as Hd
    by apply length_drop.
  destruct (drop (List.length root) newpath) as [|y r]; [cbn in Hd; lia|]. cbn in Hd.
  unfold W. destruct (_ && _ && _).
  - exists r. rewrite putz_at by done. cbn [mbind option_bind]. split; [cbn; lia|].
    unfold at_. rewrite !length_app. cbn [List.length app].
    replace (Z.of_nat (List.length newpath) - 1) with (Z.of_nat (List.length root + S (List.length r)) - 1) by lia.
    replace (Z.of_nat (List.length root + 1)) with (Z.of_nat (List.length root) + 1) by lia. done.
  - exists (y :: r). cbn [mbind option_bind]. split; [cbn; lia|]. unfold at_. cbn [app]. rewrite app_nil_r, length_app.
    cbn [List.length].
    replace (Z.of_nat (List.length newpath) - 1) with (Z.of_nat (List.length root + S (List.length r)) - 1) by lia. done.
Qed.

Lemma at_end A W r st : nonzero A -> nonzero W -> (0 < List.length r)%nat ->
  exists m, (x ← at_ [] A W r st;
       match x with
       | (MError, m) => Some (EASY_ERROR, m)
       | (MPath u, m) => m ← putz m u 0; Some (EASY_OK, m)
       end) = Some (EASY_OK, m) /\ cstr m = Some (A ++ W) /\ List.length m = List.length (A ++ W ++ r).
Proof.
  intros HA HW Hr. destruct r as [|x r]; [cbn in Hr; lia|]. unfold at_. cbn [merge_loop mbind option_bind].
  rewrite (app_assoc A W), putz_at by done. cbn [mbind option_bind]. eexists. split; [done|].
  rewrite cstr_app by (by apply list.Forall_app). split; [done|]. rewrite !length_app. done.
Qed.

(** With enough room, [easy_http_merge_path] of an absolute
    path resolves all its segments but the last the way the segment-wise
    reference does (empty and dot segments dropped, double dots removing the
    segment before) and appends the last one; when double dots leave the root
    it fails, unless the path ends right there. *)
Theorem easy_http_merge_path_spec newpath root segs last :
  nonzero root -> Forall no_slash segs -> Forall nonzero segs -> no_slash last -> nonzero last ->
  (List.length root + 1 + List.length (slashed segs) + List.length last < List.length newpath)%nat ->
  match resolve [] segs with
  | Some stack => exists m,
      easy_http_merge_path newpath root (chr "/" :: slashed segs ++ last) = Some (EASY_OK, m) /\
      cstr m = Some (root ++ area stack ++ last) /\ List.length m = List.length newpath
  | None =>
      (exists m, easy_http_merge_path newpath root (chr "/" :: slashed segs ++ last) = Some (EASY_ERROR, m)) \/
      (last = [] /\ exists a, segs = a ++ [dotdot])
  end.
Proof.
  intros Hroot Hns Hnz Hl1 Hl2 Hlen.
  destruct (merge_path_enter newpath root (chr "/" :: slashed segs ++ last)) as (r & Hr & E); [lia|].
  cbn [nth] in E, Hr. rewrite Z.eqb_refl, andb_false_r in E, Hr. cbn [List.length] in Hr. rewrite E. clear E.
  destruct r as [|x [|y r]]; try (cbn in Hr; lia). cbn [List.length] in Hr. rewrite at_slash_0. cbn [app].
  change [chr "/"] with (area []).
  destruct (resolve [] segs) as [stack|] eqn:Er.
  - destruct (at_segs segs last root [] stack (y :: r)) as (r' & -> & Hst & Hlen1 & Hlen2); try done; [constructor|cbn; lia|].
    cbn [area rev slashed map concat List.length] in Hlen1, Hlen2.
    destruct (at_seg last [] root (area stack) r' 1 Hl1) as (r2 & E2 & Hr2); [lia|].
    rewrite app_nil_r in E2. rewrite E2.
    destruct (at_end root (area stack ++ last) r2 (seg_state 1 last)) as (m & Em & Hc & Hm); [done| |lia|].
    + apply list.Forall_app. split; [|done]. constructor; [done|]. apply nonzero_slashed.
      apply List.Forall_rev. by apply (resolve_nonzero segs []); [|constructor|].
    + exists m. split_and!; [done|done|]. rewrite Hm, !length_app. unfold area. cbn [List.length]. lia.
  - destruct (resolve_none segs [] Er) as (a & b & -> & Ha). apply list.Forall_app in Hns as [Hna Hnb].
    inversion_clear Hnb as [|? ? Hdd Hnb']. rewrite slashed_app, slashed_cons in *. rewrite !length_app in Hlen.
    cbn in Hlen. rewrite <- !app_assoc.
    destruct (at_segs a (dotdot ++ (chr "/" :: slashed b) ++ last) root [] [] (y :: r))
      as (r1 & -> & _ & Hlen1 & Hlen2); try done; [constructor|cbn; lia|]. cbn [List.length] in Hlen1, Hlen2.
    destruct (at_seg dotdot ((chr "/" :: slashed b) ++ last) root (area []) r1 1 Hdd) as (r2 & -> & Hr2); [cbn; lia|].
    destruct r2 as [|x2 [|y2 r2]]; try (cbn in Hr2; lia).
    change (seg_state 1 dotdot) with 5. cbn [app].
    destruct (at_slash_under (slashed b ++ last) root x2 y2 r2) as [ue Eu].
    cbn [app] in Eu. rewrite Eu. destruct (slashed b ++ last) as [|c p] eqn:Ep.
    + right. apply app_eq_nil in Ep as [Eb ->]. split; [done|]. exists a. destruct b as [|t b]; [done|].
      rewrite slashed_cons in Eb. by apply app_eq_nil in Eb as [_ ?].
    + left. cbn [merge_loop]. destruct (Z.ltb_spec (Z.of_nat (List.length root) - 1) (Z.of_nat (List.length root))); [|lia].
      rewrite orb_true_r. cbn [mbind option_bind]. eauto.
Qed.

Lemma easy_http_merge_path_spec_witness :
  exists m, easy_http_merge_path (replicate 32 0) (bytes_of "/www") (bytes_of "/a/./b/../c//d.html") = Some (EASY_OK, m) /\
    cstr m = Some (bytes_of "/www/a/c/d.html").
Proof.
  destruct (easy_http_merge_path_spec (replicate 32 0) (bytes_of "/www")
    (map bytes_of ["a"; "."; "b"; ".."; "c"; ""]%string) (bytes_of "d.html")) as (m & E & Hc & _).
  1-5: by repeat constructor.
  - vm_compute. lia.
  - exists m. split; [exact E|exact Hc].
Defined.

(** Paths that are not confined: a leading double dot of a
    relative [addpath] is kept, an [addpath] of slash, double dot, slash cuts
    the last character off the root, and writes before the buffer when the
    root is empty. *)
Theorem easy_http_merge_path_escapes newpath root c rest :
  nonzero (root ++ [c]) -> c <> chr "/" -> no_slash rest -> nonzero rest ->
  (List.length root + List.length rest + 6 < List.length newpath)%nat ->
  (exists m, easy_http_merge_path newpath (root ++ [c]) (dotdot ++ chr "/" :: rest) = Some (EASY_OK, m) /\
     cstr m = Some ((root ++ [c]) ++ chr "/" :: dotdot ++ chr "/" :: rest)) /\
  (exists m, easy_http_merge_path newpath (root ++ [c]) (chr "/" :: dotdot ++ [chr "/"]) = Some (EASY_OK, m) /\
     cstr m = Some root) /\
  easy_http_merge_path newpath [] (chr "/" :: dotdot ++ [chr "/"]) = None.
Proof.
  intros Hroot Hc Hr1 Hr2 Hlen.
  assert (nth (List.length (root ++ [c]) - 1) (root ++ [c]) 0 = c) as Hlast.
  { rewrite length_app. cbn [List.length]. replace (List.length root + 1 - 1)%nat with (List.length root) by lia.
    apply nth_middle. }
  assert (forall A r, (4 < List.length r)%nat -> exists r', at_ (chr "/" :: dotdot ++ [chr "/"]) A [] r 0 =
    Some (MPath (Z.of_nat (List.length A) - 1), A ++ (area [] ++ dotdot) ++ r')) as Hunder.
  { intros A r Hr. destruct r as [|x1 [|x2 r]]; try (cbn in Hr; lia). rewrite at_slash_0. change ([] ++ [chr "/"]) with (area []).
    destruct (at_seg dotdot [chr "/"] A (area []) (x2 :: r) 1) as (r2 & -> & Hl); [by repeat constructor|cbn in *; lia|].
    destruct r2 as [|y1 [|y2 r2]]; try (cbn in *; lia). change (seg_state 1 dotdot) with 5.
    destruct (at_slash_under [] A y1 y2 r2) as [ue ->]. cbn [merge_loop]. eauto. }
  split_and!.
  - destruct (merge_path_enter newpath (root ++ [c]) (dotdot ++ chr "/" :: rest)) as (r & Hr & ->);
      [rewrite length_app; cbn; lia|]. rewrite Hlast in *. rewrite (proj2 (Z.eqb_neq c _) Hc) in *.
    destruct (Z.ltb_spec 0 (Z.of_nat (List.length (root ++ [c])))) as [_|Hx]; [|rewrite length_app in Hx; cbn in Hx; lia].
    cbn [andb negb nth dotdot Z.eqb Pos.eqb app] in *. rewrite length_app in Hr. cbn [List.length] in Hr.
    destruct (at_seg dotdot (chr "/" :: rest) (root ++ [c]) [chr "/"] r 0) as (r2 & E & Hl2);
      [by repeat constructor|cbn; lia|]. cbn [dotdot app] in E. rewrite E. clear E. change (seg_state 0 _) with 0.
    destruct r2 as [|y1 [|y2 r2]]; try (cbn in *; lia). rewrite at_slash_0.
    destruct (at_seg rest [] (root ++ [c]) (([chr "/"] ++ dotdot) ++ [chr "/"]) (y2 :: r2) 1 Hr1) as (r3 & E & Hl3);
      [cbn in *; lia|]. rewrite app_nil_r in E. cbn [dotdot app] in E |- *. rewrite E.
    destruct (at_end (root ++ [c]) (chr "/" :: dotdot ++ chr "/" :: rest) r3 (seg_state 1 rest)) as (m & Em & Hcs & _);
      [done| |cbn in *; lia|].
    { apply list.Forall_cons. split; [done|]. apply list.Forall_app. split; [by repeat constructor|by constructor]. }
    exists m. cbn [app dotdot] in Em. split; [exact Em|exact Hcs].
  - destruct (merge_path_enter newpath (root ++ [c]) (chr "/" :: dotdot ++ [chr "/"])) as (r & Hr & ->);
      [rewrite length_app; cbn; lia|]. cbn [nth] in *. rewrite Z.eqb_refl, andb_false_r in *.
    destruct (Hunder (root ++ [c]) r) as (r' & ->); [rewrite length_app in Hr; cbn in Hr; lia|].
    cbn [mbind option_bind]. rewrite <- app_assoc. cbn [app]. rewrite putz_at by (rewrite length_app; cbn; lia).
    cbn [mbind option_bind]. eexists. split; [done|]. apply list.Forall_app in Hroot as [Hroot _]. by apply cstr_app.
  - destruct (merge_path_enter newpath [] (chr "/" :: dotdot ++ [chr "/"])) as (r & Hr & ->); [cbn; lia|].
    cbn [nth] in *. rewrite Z.eqb_refl, andb_false_r in *.
    destruct (Hunder [] r) as (r' & ->); [cbn in Hr; lia|]. done.
Qed.

Lemma easy_http_merge_path_escapes_witness :
  exists m, easy_http_merge_path (replicate 32 0) (bytes_of "/www") (bytes_of "../passwd") = Some (EASY_OK, m) /\
    cstr m = Some (bytes_of "/www/../passwd").
Proof.
  destruct (easy_http_merge_path_escapes (replicate 32 0) (bytes_of "/ww") (chr "w") (bytes_of "passwd")) as [(m & E & Hc) _].
  1,3,4: by repeat constructor.
  - done.
  - vm_compute. lia.
  - exists m. split; [exact E|exact Hc].
Defined.

End HttpPath.
