(* ===== verification/EasyBuf.v ===== *)
(** * util/easy_buf.c, util/easy_array.c: buffers, buffer chains, object arrays

    Clients of the region allocator, stated against its interface [PoolOps].
    Buffers live in a heap of their own, [easy_list_t] chains of them are the
    sequences of their addresses (by the refinement of EasyList.v), the bytes
    they point to are in the memory [mem].  What a destroyed buffer does to the
    outside, closing a file and calling its cleanup, is a list of effects. *)

From Stdlib Require Import ZArith Lia.
From stdpp Require Import base gmap list numbers option.
From S2P Require Import Prelude EasyPool.

Local Open Scope Z_scope.

Module EasyBuf.
Import EasyPool.

(** ** Data *)

Definition EASY_POOL_PAGE_SIZE : Z := 4096.
Definition EASY_BUF_FILE : Z := 1.
Definition EASY_BUF_CLOSE_FILE : Z := 3.
Definition sizeof_easy_buf_t : Z := 64.
Definition sizeof_easy_file_buf_t : Z := 64.

(** The tail of the two buffer structs, which share their first fields. *)
Inductive buf_body :=
  | Data (pos last end_ : Z)
  | File (fd offset count : Z).

Record easy_buf_t := Buf { flags : Z; cleanup : option Z; args : Z; body : buf_body }.
Abbreviation bufs := (gmap Z easy_buf_t).

Definition set_body v b := Buf (flags b) (cleanup b) (args b) v.

Record easy_buf_string_t := BufString { data : Z; len : Z }.

Definition easy_buf_string_append (s : easy_buf_string_t) (value n : Z) : easy_buf_string_t :=
  BufString (value - len s) (i32 (len s + n)).

Definition easy_buf_len (b : easy_buf_t) : Z :=
  match body b with
  | File _ _ count => i32 count
  | Data pos last _ => i32 (last - pos)
  end.

Inductive effect := Close (fd : Z) | Cleanup (f : Z) (b args : Z).

Section operations.
Context {S : Type} `{PoolOps S}.
(** The address of the pool, stored as the default cleanup argument. *)
Variable pool : Z.

(** ** easy_buf.c *)

Definition easy_buf_create (s : S) (h : bufs) (size : Z) : option Z * S * bufs :=
  match p_alloc s sizeof_easy_buf_t with
  | (None, s) => (None, s, h)
  | (Some b, s) =>
      let size := if size =? 0 then u32 (p_room s) else size in
      match p_alloc s size with
      | (None, s) => (None, s, h)
      | (Some pos, s) => (Some b, s, <[b := Buf 0 None pool (Data pos pos (pos + size))]> h)
      end
  end.

Definition easy_buf_set_data (h : bufs) (b data size : Z) : bufs :=
  <[b := Buf 0 None pool (Data data (data + size) (data + size))]> h.

Definition easy_buf_pack (s : S) (h : bufs) (data size : Z) : option Z * S * bufs :=
  match p_alloc s sizeof_easy_buf_t with
  | (None, s) => (None, s, h)
  | (Some b, s) => (Some b, s, easy_buf_set_data h b data size)
  end.

(** [None] is the write through a null pointer when the pool is exhausted. *)
Definition easy_file_buf_create (s : S) (h : bufs) : option (Z * S * bufs) :=
  match p_alloc s sizeof_easy_file_buf_t with
  | (None, _) => None
  | (Some b, s) => Some (b, s, <[b := Buf EASY_BUF_FILE None pool (File 0 0 0)]> h)
  end.

Definition easy_file_buf_set_close (b : easy_buf_t) : easy_buf_t :=
  if negb (Z.land (flags b) EASY_BUF_FILE =? 0)
  then Buf EASY_BUF_CLOSE_FILE (cleanup b) (args b) (body b) else b.

Definition easy_buf_set_cleanup (b : easy_buf_t) (f : option Z) (a : Z) : easy_buf_t :=
  Buf (flags b) f a (body b).

(** [easy_buf_destroy] of a member of [chain]. *)
Definition easy_buf_destroy (h : bufs) (chain : list Z) (b : Z) : option (bufs * list Z * list effect) :=
  x ← h !! b;
  let chain := filter (fun y => y <> b) chain in
  let closes :=
    if Z.land (flags x) EASY_BUF_CLOSE_FILE =? EASY_BUF_CLOSE_FILE
    then match body x with File fd _ _ => [Close fd] | Data _ _ _ => [] end else [] in
  Some match cleanup x with
       | Some f => (<[b := Buf (flags x) None (args x) (body x)]> h, chain, closes ++ [Cleanup f b (args x)])
       | None => (h, chain, closes)
       end.

Definition easy_buf_check_read_space (s : S) (mem : gmap Z Z) (b : easy_buf_t) (size : Z)
    : option (Z * S * gmap Z Z * easy_buf_t) :=
  match body b with
  | File _ _ _ => None
  | Data pos last end_ =>
      if i32 size <=? end_ - last then Some (EASY_OK, s, mem, b)
      else
        let dsize := i32 (last - pos) in
        let size := u32 (easy_align (size + dsize) EASY_POOL_PAGE_SIZE) in
        match p_alloc s size with
        | (None, s) => Some (EASY_ERROR, s, mem, b)
        | (Some ptr, s) =>
            mem ← (if 0 <? dsize then l ← load (Z.to_nat dsize) mem pos; Some (write_bytes mem ptr l)
                   else Some mem);
            Some (EASY_OK, s, mem, set_body (Data ptr (ptr + dsize) (ptr + size)) b)
        end
  end.

Fixpoint last_of (l : list Z) : option Z :=
  match l with
  | [] => None
  | [x] => Some x
  | _ :: l => last_of l
  end.

(** Room at the end of a data buffer. *)
Definition room (h : bufs) (b : Z) : option Z :=
  x ← h !! b; match body x with Data _ last end_ => Some (end_ - last) | File _ _ _ => None end.

(** A new buffer at the end of the chain. *)
Definition append_buf (s : S) (h : bufs) (bc : list Z) (size : Z) : option Z * S * bufs * list Z :=
  let size := u32 (easy_align size EASY_POOL_PAGE_SIZE) in
  match easy_buf_create s h size with
  | (None, s, h) => (None, s, h, bc)
  | (Some b, s, h) => (Some b, s, h, bc ++ [b])
  end.

(** The chain's last buffer or a new one; the outer [option] is a read of the
    data fields of something else. *)
Definition easy_buf_check_write_space (s : S) (h : bufs) (bc : list Z) (size : Z)
    : option (option Z * S * bufs * list Z) :=
  match last_of bc with
  | None => Some (append_buf s h bc size)
  | Some b => r ← room h b; Some (if i32 size <=? r then (Some b, s, h, bc) else append_buf s h bc size)
  end.

Fixpoint easy_buf_chain_clear (h : bufs) (l : list Z) : option (bufs * list effect) :=
  match l with
  | [] => Some (h, [])
  | b :: l =>
      r ← easy_buf_destroy h (b :: l) b;
      let '(h, _, e) := r in
      r ← easy_buf_chain_clear h l;
      let '(h, e') := r in
      Some (h, e ++ e')
  end.

(** [None] is a list head of zero bytes, initialised on first use. *)
Definition easy_buf_chain_offer (l : option (list Z)) (b : Z) : list Z :=
  match l with None => [b] | Some l => l ++ [b] end.

(** Allocation failures are not checked: [None] is the copy to address 0. *)
Definition easy_buf_string_copy (s : S) (mem : gmap Z Z) (d src : easy_buf_string_t)
    : option (Z * S * gmap Z Z * easy_buf_string_t) :=
  if 0 <? len src then
    match p_alloc s (len src) with
    | (None, _) => None
    | (Some ptr, s) =>
        l ← load (Z.to_nat (len src)) mem (data src);
        Some (len src, s, write_bytes mem ptr l, BufString ptr (len src))
    end
  else Some (len src, s, mem, d).

(** What [vsnprintf(buffer, cap, ...)] leaves in [buffer] for a formatted [text]. *)
Definition vsnprintf (cap : nat) (text : list Z) : list Z := take (cap - 1) text ++ [0].

(** [text] is the formatted text; [None] is the read behind the end of the
    2048 bytes of [buffer]. *)
Definition easy_buf_string_printf (s : S) (mem : gmap Z Z) (text : list Z)
    : option (Z * S * gmap Z Z * easy_buf_string_t) :=
  let buffer := vsnprintf 2048 text in
  let n := length text in
  match p_alloc s (u32 (Z.of_nat n + 1)) with
  | (None, _) => None
  | (Some ptr, s) =>
      if (n <=? 2048)%nat then
        Some (Z.of_nat n, s, write_bytes mem ptr (take n buffer ++ [0]), BufString ptr (Z.of_nat n))
      else None
  end.

(** ** easy_array.c *)

Record easy_array_t := Array { object_size : Z; count : Z; free : list Z }.
Definition sizeof_easy_list_t : Z := 16.
Definition sizeof_easy_array_t : Z := 32.

(** [easy_array_create] on its fresh pool. *)
Definition easy_array_create (s : S) (size : Z) : option easy_array_t * S :=
  match p_alloc s sizeof_easy_array_t with
  | (None, s) => (None, s)
  | (Some _, s) => (Some (Array (easy_max size sizeof_easy_list_t) 0 []), s)
  end.

Definition easy_array_alloc (s : S) (ar : easy_array_t) : option Z * S * easy_array_t :=
  match last_of (free ar) with
  | Some ptr => (Some ptr, s, Array (object_size ar) (i32 (count ar - 1)) (filter (fun x => x <> ptr) (free ar)))
  | None => let '(m, s) := p_alloc s (object_size ar) in (m, s, ar)
  end.

Definition easy_array_free (ar : easy_array_t) (ptr : Z) : easy_array_t :=
  Array (object_size ar) (i32 (count ar + 1)) (free ar ++ [ptr]).

End operations.

(** ** Properties *)

Lemma last_of_snoc l x : last_of (l ++ [x]) = Some x.
Proof. induction l as [|y [|z l] IH]; done. Qed.

Lemma last_of_inv l x : last_of l = Some x -> exists l', l = l' ++ [x].
Proof.
  destruct l as [|y l] using rev_ind; [done|]. rewrite last_of_snoc. intros [= ->]. eauto.
Qed.

Section properties.
Context {S : Type} `{PoolLaws S} (pool : Z).
Implicit Types (s : S) (R : list region) (mem : gmap Z Z).

(** A data buffer whose window lies in a handed-out region. *)
Definition buf_in R (b : easy_buf_t) : Prop :=
  match body b with
  | File _ _ _ => False
  | Data pos last end_ => exists r, r ∈ R /\ fst r <= pos <= last /\ last <= end_ <= fst r + snd r
  end.

Definition content mem (b : easy_buf_t) : option (list Z) :=
  match body b with
  | File _ _ _ => None
  | Data pos last _ => load (Z.to_nat (last - pos)) mem pos
  end.

Definition space (b : easy_buf_t) : Z :=
  match body b with File _ _ _ => 0 | Data _ last end_ => end_ - last end.

(** Writing into a region the pool has just handed out. *)
Lemma write_fresh s R m n mem l r q :
  p_inv s ((m, n) :: R) -> Z.of_nat (length l) <= n -> r ∈ R -> fst r <= q < fst r + snd r ->
  write_bytes mem m l !! q = mem !! q.
Proof.
  intros I Hl Hr Hq. apply write_bytes_other.
  destruct (p_disjoint _ _ I) as [Hap _]. destruct (Hap r Hr) as [H1|H1]; cbn in H1; lia.
Qed.

(** [easy_buf_check_read_space], for requests where buffered
    and requested bytes together stay below 2^31 - 4096: on EASY_OK there is
    room for [size] more bytes, the buffered bytes are those from before, and
    nothing handed out earlier has changed; on EASY_ERROR the buffer and the
    memory are as before. *)
Theorem easy_buf_check_read_space_spec s R mem b size l :
  p_inv s R -> buf_in R b -> content mem b = Some l ->
  0 <= size -> size + Z.of_nat (length l) <= 2 ^ 31 - 4096 ->
  exists rc s' mem' b' R', easy_buf_check_read_space s mem b size = Some (rc, s', mem', b') /\ p_inv s' R' /\
    content mem' b' = Some l /\
    (forall r q, r ∈ R -> fst r <= q < fst r + snd r -> mem' !! q = mem !! q) /\
    (rc = EASY_OK /\ buf_in R' b' /\ size <= space b' \/ rc = EASY_ERROR /\ b' = b /\ mem' = mem).
Proof.
  unfold buf_in, content, space, easy_buf_check_read_space. destruct b as [fl cl ar [pos last end_|]]; [|by intros _ []].
  cbn [body]. intros I (r0 & Hr0 & Hlo & Hhi) Hc Hs Hsum.
  pose proof (load_length _ _ _ _ Hc) as Hlen. rewrite (wraps_small 32 size) by lia.
  destruct (Z.leb_spec size (end_ - last)) as [Hle|Hgt].
  { exists EASY_OK, s, mem, (Buf fl cl ar (Data pos last end_)), R. split_and!; try done. left.
    split_and!; [done| |done]. exists r0. split; [done|lia]. }
  rewrite wraps_small by lia. destruct (easy_align_spec (size + (last - pos)) 12 ltac:(lia)) as [Hal _].
  change (2 ^ 12) with EASY_POOL_PAGE_SIZE in Hal. set (n := easy_align _ EASY_POOL_PAGE_SIZE) in *.
  unfold EASY_POOL_PAGE_SIZE in Hal. rewrite wrapu_small by lia.
  destruct (p_alloc s n) as [[ptr|] s'] eqn:Ea.
  2: { exists EASY_ERROR, s', mem, (Buf fl cl ar (Data pos last end_)), R.
       split_and!; try done; [apply (p_alloc_none s R n); [done|lia|done]|by right]. }
  assert (p_inv s' ((ptr, n) :: R)) as I' by (by eapply p_alloc_some; [|lia|]).
  assert (forall mem', (if 0 <? last - pos then l ← load (Z.to_nat (last - pos)) mem pos; Some (write_bytes mem ptr l)
    else Some mem) = Some mem' -> mem' = write_bytes mem ptr l) as Hmem.
  { intros mem'. destruct (Z.ltb_spec 0 (last - pos)); [rewrite Hc; by intros [= <-]|].
    replace (Z.to_nat (last - pos)) with 0%nat in Hc by lia. injection Hc as <-. by intros [= <-]. }
  destruct (if 0 <? last - pos then _ else Some mem) as [mem'|] eqn:Em.
  2: { destruct (Z.ltb_spec 0 (last - pos)); [by rewrite Hc in Em|done]. }
  rewrite (Hmem mem' eq_refl). cbn [mbind option_bind].
  eexists EASY_OK, s', _, _, ((ptr, n) :: R). split; [done|]. split; [done|]. cbn [body set_body].
  replace (ptr + (last - pos) - ptr) with (last - pos) by lia. rewrite <- Hlen. split_and!.
  - apply load_write.
  - intros r q Hr Hq. eapply write_fresh; [done|lia|done|lia].
  - left. split_and!; [done| |lia]. exists (ptr, n). cbn. split; [by left|]. lia.
Qed.

Lemma create_some s R (h : bufs) size b s' h' :
  p_inv s R -> 0 < size <= 2 ^ 31 -> easy_buf_create pool s h size = (Some b, s', h') ->
  exists pos, h' = <[b := Buf 0 None pool (Data pos pos (pos + size))]> h /\
    p_inv s' ((pos, size) :: (b, sizeof_easy_buf_t) :: R).
Proof.
  intros I Hs. unfold easy_buf_create.
  destruct (p_alloc s sizeof_easy_buf_t) as [[b1|] s1] eqn:E1; [|done].
  assert (p_inv s1 ((b1, sizeof_easy_buf_t) :: R)) as I1
    by (eapply p_alloc_some; [done|unfold sizeof_easy_buf_t; lia|done]).
  destruct (Z.eqb_spec size 0); [lia|].
  destruct (p_alloc s1 size) as [[pos|] s2] eqn:E2; [|done]. intros [= <- <- <-].
  exists pos. split; [done|]. by eapply p_alloc_some; [|lia|].
Qed.

Lemma create_none s R (h : bufs) size s' h' :
  p_inv s R -> 0 < size <= 2 ^ 31 -> easy_buf_create pool s h size = (None, s', h') ->
  h' = h /\ exists R', p_inv s' R'.
Proof.
  intros I Hs. unfold easy_buf_create.
  destruct (p_alloc s sizeof_easy_buf_t) as [[b1|] s1] eqn:E1.
  - assert (p_inv s1 ((b1, sizeof_easy_buf_t) :: R)) as I1
      by (eapply p_alloc_some; [done|unfold sizeof_easy_buf_t; lia|done]).
    destruct (Z.eqb_spec size 0); [lia|].
    destruct (p_alloc s1 size) as [[pos|] s2] eqn:E2; [done|]. intros [= <- <-].
    split; [done|]. exists ((b1, sizeof_easy_buf_t) :: R). apply (p_alloc_none s1 _ size); [done|lia|done].
  - intros [= <- <-]. split; [done|]. exists R. apply (p_alloc_none s R sizeof_easy_buf_t); [done|unfold sizeof_easy_buf_t; lia|done].
Qed.

(** Two objects of one size handed out at different times are different. *)
Lemma apart_ne s R x n y m : p_inv s ((x, n) :: R) -> (y, m) ∈ R -> 0 < m -> 0 < n -> x <> y.
Proof.
  intros I Hy Hm Hn ->. destruct (p_disjoint _ _ I) as [Hap _]. destruct (Hap _ Hy); cbn in *; lia.
Qed.

(** The answer [r] of a request for [size] bytes on the chain [bc], with the
    state after it. *)
Definition write_space_post (h : bufs) bc size (x : option Z * S * bufs * list Z) : Prop :=
  let '(r, s', h', bc') := x in
  (exists R', p_inv s' R') /\ (forall x, x ∈ bc -> h' !! x = h !! x) /\
  match r with
  | None => bc' = bc
  | Some b => last_of bc' = Some b /\ (bc' = bc \/ bc' = bc ++ [b]) /\
      exists k, room h' b = Some k /\ size <= k
  end.

Lemma append_buf_spec s R (h : bufs) bc size :
  p_inv s R -> 0 < size <= 2 ^ 31 - 4096 ->
  (forall x, x ∈ bc -> (x, sizeof_easy_buf_t) ∈ R) ->
  write_space_post h bc size (append_buf pool s h bc size).
Proof.
  intros I Hs Hbc. unfold append_buf.
  destruct (easy_align_spec size 12 ltac:(lia)) as [Hal _]. change (2 ^ 12) with EASY_POOL_PAGE_SIZE in Hal.
  set (n := easy_align size EASY_POOL_PAGE_SIZE) in *. unfold EASY_POOL_PAGE_SIZE in Hal.
  rewrite (wrapu_small 32 n) by lia.
  destruct (easy_buf_create pool s h n) as [[[b|] s1] h1] eqn:Ec.
  - destruct (create_some s R h n b s1 h1 I ltac:(lia) Ec) as (pos & -> & I1).
    split; [eauto|]. split.
    + intros x Hx. apply lookup_insert_ne. specialize (Hbc x Hx).
      destruct (p_disjoint _ _ I1) as [_ [Hap _]]. intros ->.
      destruct (Hap _ Hbc) as [E|E]; cbn in E; unfold sizeof_easy_buf_t in E; lia.
    + split; [apply last_of_snoc|]. split; [by right|]. exists n. unfold room. rewrite lookup_insert_eq. cbn.
      split; [f_equal; lia|lia].
  - destruct (create_none s R h n s1 h1 I ltac:(lia) Ec) as [-> HR]. by split_and!.
Qed.

(** [easy_buf_check_write_space] on a chain of data buffers
    of the pool always answers: with NULL and the chain unchanged, or with a
    buffer that has room for the request and is the last of a chain that
    starts with the buffers it had before, unchanged. *)
Theorem easy_buf_check_write_space_spec s R (h : bufs) bc size :
  p_inv s R -> 0 < size <= 2 ^ 31 - 4096 ->
  (forall x, x ∈ bc -> (x, sizeof_easy_buf_t) ∈ R /\ is_Some (room h x)) ->
  exists x, easy_buf_check_write_space pool s h bc size = Some x /\ write_space_post h bc size x.
Proof.
  intros I Hs Hbc. unfold easy_buf_check_write_space. rewrite (wraps_small 32 size) by lia.
  pose proof (append_buf_spec s R h bc size I Hs (fun x Hx => proj1 (Hbc x Hx))) as Hnew.
  destruct (last_of bc) as [b|] eqn:El; [|eauto]. destruct (last_of_inv _ _ El) as [l ->].
  destruct (Hbc b) as [_ [k Hk]]; [apply elem_of_app; right; by left|]. rewrite Hk. cbn [mbind option_bind].
  eexists. split; [done|]. destruct (Z.leb_spec size k); [|done].
  split; [eauto|]. split; [done|]. split; [done|]. split; [by left|]. eauto.
Qed.

(** ** Destroying a chain *)

(** What destroying one buffer does outside. *)
Definition effects_of (b : Z) (x : easy_buf_t) : list effect :=
  (if Z.land (flags x) EASY_BUF_CLOSE_FILE =? EASY_BUF_CLOSE_FILE
   then match body x with File fd _ _ => [Close fd] | Data _ _ _ => [] end else []) ++
  match cleanup x with Some f => [Cleanup f b (args x)] | None => [] end.

Lemma destroy_ok (h : bufs) chain b x : h !! b = Some x ->
  exists h', easy_buf_destroy h chain b = Some (h', filter (fun y => y <> b) chain, effects_of b x) /\
    h' !! b = Some (Buf (flags x) None (args x) (body x)) /\ (forall y, y <> b -> h' !! y = h !! y).
Proof.
  intros Hb. unfold easy_buf_destroy, effects_of. rewrite Hb. cbn [mbind option_bind].
  destruct x as [fl [f|] ar bd]; cbn [flags cleanup args body].
  - eexists. split; [done|]. split; [apply lookup_insert_eq|]. intros y Hy. by apply lookup_insert_ne.
  - eexists. rewrite app_nil_r. split; [done|]. done.
Qed.

(** Clearing a chain of distinct buffers closes each file buffer
    marked for closing and calls each cleanup exactly once, in chain order,
    leaves no cleanup behind and touches no other buffer. *)
Theorem easy_buf_chain_clear_spec (h : bufs) l xs :
  NoDup l -> Forall2 (fun b x => h !! b = Some x) l xs ->
  exists h', easy_buf_chain_clear h l = Some (h', concat (zip_with effects_of l xs)) /\
    (forall b x, (b, x) ∈ zip l xs -> h' !! b = Some (Buf (flags x) None (args x) (body x))) /\
    (forall y, y ∉ l -> h' !! y = h !! y).
Proof.
  intros Hnd Hxs. revert h Hxs. revert xs. induction Hnd as [|b l Hb Hnd IH]; intros xs h Hxs.
  - inversion Hxs; subst. exists h. split_and!; [done| |done]. intros b x Hbx. by apply not_elem_of_nil in Hbx.
  - inversion Hxs as [|? x ? xs' Hx Hxs']; subst. cbn [easy_buf_chain_clear zip_with concat].
    destruct (destroy_ok h (b :: l) b x Hx) as (h1 & -> & H1 & H2). cbn [mbind option_bind].
    destruct (IH xs' h1) as (h2 & -> & H3 & H4).
    { clear -Hxs' H2 Hb.
      induction Hxs' as [|c y l ys Hc _ IH]; constructor.
      - rewrite H2; [done|]. intros ->. apply Hb. by left.
      - apply IH. intros Hin. apply Hb. by right. }
    cbn [mbind option_bind]. exists h2. split_and!; [done| |].
    + intros c y [[= -> ->]|Hin]%elem_of_cons; [|by apply H3]. rewrite H4; [done|done].
    + intros y Hy. apply not_elem_of_cons in Hy as [? ?]. rewrite H4, H2; done.
Qed.

(** ** Formatted strings *)

(** [easy_buf_string_printf] returns a terminated copy of a text
    of up to 2047 bytes; of a text of 2048 bytes it loses the last byte to the
    terminator of its stack buffer, and for anything longer it reads behind
    the end of that buffer. *)
Theorem easy_buf_string_printf_limit s R mem text :
  p_inv s R -> Z.of_nat (length text) < 2 ^ 31 ->
  match easy_buf_string_printf s mem text with
  | Some (n, s', mem', d) => n = Z.of_nat (length text) /\ len d = n /\ (length text <= 2048)%nat /\
      load (length text + 1) mem' (data d) =
        Some ((if (length text =? 2048)%nat then take 2047 text ++ [0] else text) ++ [0])
  | None => (2048 < length text)%nat \/ exists s', p_alloc s (Z.of_nat (length text) + 1) = (None, s')
  end.
Proof.
  intros I Hl. unfold easy_buf_string_printf. rewrite wrapu_small by lia.
  destruct (p_alloc s (Z.of_nat (length text) + 1)) as [[ptr|] s'] eqn:Ea; [|eauto].
  destruct (Nat.leb_spec (length text) 2048) as [Hle|Hgt]; [|by left].
  split_and!; [done|done|done|]. cbn [data].
  assert (take (length text) (vsnprintf 2048 text) =
    if (length text =? 2048)%nat then take 2047 text ++ [0] else text) as E.
  { unfold vsnprintf. destruct (Nat.eqb_spec (length text) 2048) as [E|Hne].
    - rewrite E. apply take_ge. rewrite length_app, length_take. cbn [length]. lia.
    - rewrite (take_ge text) by lia. by rewrite take_app_length. }
  rewrite E.
  replace (length text + 1)%nat with (length ((if (length text =? 2048)%nat then take 2047 text ++ [0] else text) ++ [0])).
  { apply load_write. }
  rewrite length_app. cbn [length]. destruct (Nat.eqb_spec (length text) 2048) as [E2|]; [|done].
  rewrite length_app, length_take. cbn [length]. lia.
Qed.

(** ** Object arrays *)

(** [live]: the objects handed out and not yet freed. *)
Record array_inv s (ar : easy_array_t) (live : list Z) : Prop := {
  ai_pool : exists R, p_inv s R /\ forall x, x ∈ live ++ free ar -> (x, object_size ar) ∈ R;
  ai_size : sizeof_easy_list_t <= object_size ar <= 2 ^ 31;
  ai_nodup : NoDup (live ++ free ar);
  ai_count : count ar = Z.of_nat (length (free ar)) }.

(** Objects of one array are apart. *)
Lemma array_apart s ar live x y : array_inv s ar live -> x ∈ live -> y ∈ live -> x <> y ->
  x + object_size ar <= y \/ y + object_size ar <= x.
Proof.
  intros I Hx Hy Hne. destruct (ai_pool _ _ _ I) as (R & HR & Hin).
  assert (forall R, all_apart R -> forall r q, r ∈ R -> q ∈ R -> r <> q -> apart r q) as Hap.
  { clear. induction R as [|t R IH]; intros HR r q Hr Hq Hne; [by apply not_elem_of_nil in Hr|].
    destruct HR as [Ht HR]. apply elem_of_cons in Hr as [->|Hr], Hq as [->|Hq]; [done|by apply Ht| |by apply IH].
    destruct (Ht r Hr); unfold apart; lia. }
  destruct (Hap R (p_disjoint _ _ HR) (x, object_size ar) (y, object_size ar)); cbn in *; try lia;
    try (apply Hin, elem_of_app; by left). congruence.
Qed.

Inductive array_op := AAlloc | AFree (x : Z).

(** One operation, with the set of live objects carried along; freeing is only
    for live objects. *)
Definition array_step s ar live (o : array_op) : option (S * easy_array_t * list Z) :=
  match o with
  | AAlloc => let '(m, s, ar) := easy_array_alloc s ar in
      Some (s, ar, match m with Some x => x :: live | None => live end)
  | AFree x => if bool_decide (x ∈ live) then Some (s, easy_array_free ar x, filter (fun y => y <> x) live) else None
  end.
Fixpoint array_run s ar live (os : list array_op) : option (S * easy_array_t * list Z) :=
  match os with
  | [] => Some (s, ar, live)
  | o :: os => r ← array_step s ar live o; let '(s, ar, live) := r in array_run s ar live os
  end.

Lemma array_step_inv s ar live o s' ar' live' :
  array_inv s ar live -> Z.of_nat (length (free ar)) < 2 ^ 31 - 1 ->
  array_step s ar live o = Some (s', ar', live') ->
  array_inv s' ar' live' /\ object_size ar' = object_size ar.
Proof.
  intros I Hl. destruct o as [|x]; cbn [array_step].
  - unfold easy_array_alloc. destruct (last_of (free ar)) as [x|] eqn:El.
    + destruct (last_of_inv _ _ El) as [l Efree]. intros [= <- <- <-]. pose proof (ai_nodup _ _ _ I) as Hnd.
      rewrite Efree in Hnd.
      assert (filter (fun y => y <> x) (free ar) = l) as Ef.
      { rewrite Efree. rewrite (filter_ne_split x l []); [apply app_nil_r|].
        by apply list.NoDup_app in Hnd as (_ & _ & ?). }
      rewrite Ef. split; [|done]. split; cbn [free object_size count].
      * destruct (ai_pool _ _ _ I) as (R & HR & Hin). exists R. split; [done|]. intros y Hy. apply Hin.
        rewrite Efree. set_solver.
      * apply I.
      * rewrite <- app_comm_cons. apply list.NoDup_app in Hnd as (N1 & N2 & N3).
        apply list.NoDup_app in N3 as (N3 & N4 & _). apply list.NoDup_cons. split; [set_solver|].
        apply list.NoDup_app. split_and!; [done|set_solver|done].
      * rewrite (ai_count _ _ _ I), Efree, length_app, wraps_small; cbn [length]; [lia| |lia].
        rewrite Efree, length_app in Hl. cbn in Hl. lia.
    + destruct (p_alloc s (object_size ar)) as [m s1] eqn:Ea. intros [= <- <- <-]. split; [|done].
      pose proof (ai_size _ _ _ I) as Hsz. unfold sizeof_easy_list_t in Hsz.
      destruct (ai_pool _ _ _ I) as (R & HR & Hin). destruct m as [m|].
      * assert (p_inv s1 ((m, object_size ar) :: R)) as HR1 by (by eapply p_alloc_some; [|lia|]).
        split; [|apply I| |apply I].
        -- exists ((m, object_size ar) :: R). split; [done|]. intros x Hx.
           rewrite <- app_comm_cons in Hx. apply elem_of_cons in Hx as [->|Hx]; [by left|right; by apply Hin].
        -- rewrite <- app_comm_cons. apply list.NoDup_cons. split; [|apply I]. intros Hx%Hin.
           by apply (apart_ne _ _ _ _ _ _ HR1 Hx); lia.
      * split; [|apply I..]. exists R. split; [|done]. apply (p_alloc_none s R (object_size ar)); [done|lia|done].
  - case_bool_decide as Hx; [|done]. intros [= <- <- <-]. split; [|done].
    apply list_elem_of_split in Hx as (l1 & l2 & Elive). pose proof (ai_nodup _ _ _ I) as Hnd.
    assert (filter (fun y => y <> x) live = l1 ++ l2) as Ef.
    { rewrite Elive. apply filter_ne_split. rewrite Elive in Hnd. by apply list.NoDup_app in Hnd as (? & _ & _). }
    rewrite Ef. split; cbn [easy_array_free free object_size count].
    + destruct (ai_pool _ _ _ I) as (R & HR & Hin). exists R. split; [done|]. intros y Hy. apply Hin.
      rewrite Elive. set_solver.
    + apply I.
    + rewrite Elive in Hnd.
      assert ((l1 ++ l2) ++ free ar ++ [x] ≡ₚ (l1 ++ x :: l2) ++ free ar) as HP; [|by rewrite HP].
      rewrite <- !app_assoc. apply Permutation_app_head. cbn. rewrite app_assoc.
      symmetry. apply Permutation_cons_append.
    + rewrite (ai_count _ _ _ I), length_app, wraps_small; cbn [length]; [lia|lia|lia].
Qed.

(** Whatever sequence of allocations and frees of live objects
    runs on an array (with fewer than 2^31 - 1 frees), its live objects never
    overlap, each has the full object size, and freed objects are reused
    instead of taking new memory from the pool. *)
Theorem easy_array_objects s ar live os s' ar' live' :
  array_inv s ar live -> Z.of_nat (length (free ar) + length os) < 2 ^ 31 - 1 ->
  array_run s ar live os = Some (s', ar', live') ->
  array_inv s' ar' live' /\
  (forall x y, x ∈ live' -> y ∈ live' -> x <> y -> x + object_size ar <= y \/ y + object_size ar <= x) /\
  (free ar' <> [] -> exists x, easy_array_alloc s' ar' =
     (Some x, s', Array (object_size ar) (count ar' - 1) (filter (fun y => y <> x) (free ar')))).
Proof.
  intros I Hl Hrun.
  assert (array_inv s' ar' live' /\ object_size ar' = object_size ar /\
          Z.of_nat (length (free ar')) < 2 ^ 31 - 1) as (I' & Hsz & Hl').
  { revert s ar live I Hl Hrun. induction os as [|o os IH]; intros s ar live I Hl; cbn [array_run].
    - intros [= <- <- <-]. split_and!; [done|done|cbn in Hl; lia].
    - destruct (array_step s ar live o) as [[[s1 ar1] live1]|] eqn:E; [|done]. cbn [mbind option_bind].
      cbn [length] in Hl. destruct (array_step_inv _ _ _ _ _ _ _ I ltac:(lia) E) as [I1 Hs1].
      intros Hrun. rewrite <- Hs1. apply (IH s1 ar1 live1); [done| |done].
      assert (length (free ar1) <= length (free ar) + 1)%nat; [|lia].
      clear -E. destruct o as [|x]; cbn [array_step] in E.
      + unfold easy_array_alloc in E. destruct (last_of (free ar)).
        * injection E as <- <- <-. cbn [free]. pose proof (length_filter (fun y => y <> z) (free ar)). lia.
        * destruct (p_alloc s (object_size ar)). injection E as <- <- <-. lia.
      + case_bool_decide; [|done]. injection E as <- <- <-. cbn. rewrite length_app. cbn. lia. }
  split; [done|]. split; [rewrite <- Hsz; intros x y; by apply (array_apart s' ar' live')|].
  intros Hne. unfold easy_array_alloc.
  assert (exists l y, free ar' = l ++ [y]) as (l & y & Ef).
  { destruct (free ar') as [|y l _] using rev_ind; [done|eauto]. }
  rewrite Ef, last_of_snoc. exists y. rewrite Hsz, wraps_small; [done| |lia].
  rewrite (ai_count _ _ _ I'), Ef, length_app in *. cbn [length] in *. lia.
Qed.

End properties.
(** ** Examples on a concrete pool *)

Definition demo_state : gmap Z Z * (slots * easy_pool_t) :=
  match p_alloc demo_pool 8 with
  | (Some m, s) => (write_bytes ∅ m [1; 2; 3], s)
  | (None, s) => (∅, s)
  end.
Definition demo_buf : easy_buf_t :=
  match p_alloc demo_pool 8 with
  | (Some m, _) => Buf 0 None 0 (Data m (m + 3) (m + 8))
  | (None, _) => Buf 0 None 0 (Data 0 0 0)
  end.

Lemma easy_buf_check_read_space_spec_witness : exists rc s' mem' b',
  easy_buf_check_read_space (snd demo_state) (fst demo_state) demo_buf 100 = Some (rc, s', mem', b') /\
  content mem' b' = Some [1; 2; 3].
Proof.
  assert (exists m, p_inv (snd demo_state) [(m, 8)] /\ demo_buf = Buf 0 None 0 (Data m (m + 3) (m + 8))) as (m & I & Hb).
  { unfold demo_state, demo_buf. destruct (p_alloc demo_pool 8) as [[m|] s] eqn:E; [|by vm_compute in E].
    exists m. split; [|done]. eapply p_alloc_some; [apply demo_pool_inv|lia|done]. }
  destruct (easy_buf_check_read_space_spec (snd demo_state) [(m, 8)] (fst demo_state) demo_buf 100 [1; 2; 3])
    as (rc & s' & mem' & b' & R' & E & _ & Hc & _).
  - exact I.
  - rewrite Hb. exists (m, 8). split; [by left|]. cbn. lia.
  - vm_compute. reflexivity.
  - lia.
  - cbn. lia.
  - exists rc, s', mem', b'. split; [exact E|exact Hc].
Defined.

Lemma easy_buf_check_write_space_spec_witness : exists x,
  easy_buf_check_write_space 0 demo_pool ∅ [] 100 = Some x /\ write_space_post ∅ [] 100 x.
Proof.
  apply (easy_buf_check_write_space_spec 0 demo_pool []); [apply demo_pool_inv|lia|].
  intros x Hx. by apply not_elem_of_nil in Hx.
Defined.

Lemma easy_buf_chain_clear_spec_witness : exists h',
  easy_buf_chain_clear {[ 8 := Buf 3 None 0 (File 5 0 0); 16 := Buf 0 (Some 7) 9 (Data 0 0 0) ]} [8; 16] =
    Some (h', [Close 5; Cleanup 7 16 9]).
Proof.
  destruct (easy_buf_chain_clear_spec {[ 8 := Buf 3 None 0 (File 5 0 0); 16 := Buf 0 (Some 7) 9 (Data 0 0 0) ]} [8; 16]
    [Buf 3 None 0 (File 5 0 0); Buf 0 (Some 7) 9 (Data 0 0 0)]) as (h' & E & _).
  - apply (bool_decide_unpack _). by vm_compute.
  - by repeat constructor.
  - exists h'. exact E.
Defined.

Lemma easy_buf_string_printf_limit_witness :
  match easy_buf_string_printf demo_pool ∅ [72; 105] with
  | Some (_, _, mem', d) => load 3 mem' (data d) = Some [72; 105; 0]
  | None => False
  end.
Proof.
  pose proof (easy_buf_string_printf_limit demo_pool [] ∅ [72; 105] demo_pool_inv ltac:(cbn; lia)) as Hp.
  destruct (easy_buf_string_printf demo_pool ∅ [72; 105]) as [[[[n s'] mem'] d]|] eqn:E.
  - apply Hp.
  - vm_compute in E. discriminate E.
Defined.

Definition demo_ops : list array_op := [AAlloc; AAlloc].

Lemma easy_array_objects_witness : exists s' ar' live',
  array_run demo_pool (Array 24 0 []) [] demo_ops = Some (s', ar', live') /\
  forall x y, x ∈ live' -> y ∈ live' -> x <> y -> x + 24 <= y \/ y + 24 <= x.
Proof.
  destruct (array_run demo_pool (Array 24 0 []) [] demo_ops) as [[[s' ar'] live']|] eqn:E; [|by vm_compute in E].
  exists s', ar', live'. split; [done|].
  apply (easy_array_objects demo_pool (Array 24 0 []) [] demo_ops s' ar' live'); [|cbn; lia|exact E].
  split; cbn; [|unfold sizeof_easy_list_t; lia|constructor|done].
  exists []. split; [apply demo_pool_inv|]. intros x Hx. by apply not_elem_of_nil in Hx.
Defined.

End EasyBuf.
