(* ===== verification/HttpHandler.v ===== *)
(** * packet/http/easy_http_handler.c: requests and responses on the parser

    The handler collects what the parser of HttpParser delivers into a request:
    strings that point into the buffer of the message, extended in place, and headers
    in a small hash table; and it writes requests and responses into buffers whose
    size it computes beforehand.  URL decoding and path merging are in HttpPath.

    A string is a pointer and a length ([easy_buf_string_t] of EasyBuf); the strings
    of a request are offsets from the position at which the request begins.  Headers
    are numbered in the order in which they are allocated, which stands for their
    address. *)

From Stdlib Require Import Ascii String ZArith Lia.
From stdpp Require Import base list numbers option.
From S2P Require Import Prelude CString EasyPool EasyHash EasyBuf HttpParser HttpParserProofs.

Local Open Scope Z_scope.

Module HttpHandler.
Import HttpParser EasyPool.

Abbreviation string := EasyBuf.easy_buf_string_t.
Abbreviation NO_STRING := (EasyBuf.BufString 0 0).

(** ** Data *)

Definition EASY_HTTP_HDR_SIZE : Z := 32.
Definition EASY_HTTP_HDR_HSEED : Z := 5.

Record easy_http_header_t := Header { name : string; value : string }.

(** The chains of the buckets, as the headers in them from the first on. *)
Record easy_http_header_hash_t := Hash { buckets : list (list nat); count : Z }.
Definition no_headers : easy_http_header_hash_t := Hash (replicate 32 []) 0.

(** The half of the struct that decoding fills; [headers] are the headers it has
    allocated. *)
Record easy_http_request_t := Req {
  parser : http_parser; str_path : string; str_query_string : string; str_fragment : string; str_body : string;
  headers : list easy_http_header_t; headers_in : easy_http_header_hash_t; last_header : option nat;
  message_begin_called : bool; header_complete_called : bool; message_complete_called : bool; last_was_value : bool;
  keep_alive : bool; parsed_byte : Z }.

Definition set_parser v p := Req v (str_path p) (str_query_string p) (str_fragment p) (str_body p) (headers p) (headers_in p) (last_header p)
  (message_begin_called p) (header_complete_called p) (message_complete_called p) (last_was_value p) (keep_alive p) (parsed_byte p).
Definition set_str_path v p := Req (parser p) v (str_query_string p) (str_fragment p) (str_body p) (headers p) (headers_in p) (last_header p)
  (message_begin_called p) (header_complete_called p) (message_complete_called p) (last_was_value p) (keep_alive p) (parsed_byte p).
Definition set_str_query_string v p := Req (parser p) (str_path p) v (str_fragment p) (str_body p) (headers p) (headers_in p) (last_header p)
  (message_begin_called p) (header_complete_called p) (message_complete_called p) (last_was_value p) (keep_alive p) (parsed_byte p).
Definition set_str_fragment v p := Req (parser p) (str_path p) (str_query_string p) v (str_body p) (headers p) (headers_in p) (last_header p)
  (message_begin_called p) (header_complete_called p) (message_complete_called p) (last_was_value p) (keep_alive p) (parsed_byte p).
Definition set_str_body v p := Req (parser p) (str_path p) (str_query_string p) (str_fragment p) v (headers p) (headers_in p) (last_header p)
  (message_begin_called p) (header_complete_called p) (message_complete_called p) (last_was_value p) (keep_alive p) (parsed_byte p).
Definition set_headers v t l w p := Req (parser p) (str_path p) (str_query_string p) (str_fragment p) (str_body p) v t l
  (message_begin_called p) (header_complete_called p) (message_complete_called p) w (keep_alive p) (parsed_byte p).
Definition set_called b h c p := Req (parser p) (str_path p) (str_query_string p) (str_fragment p) (str_body p) (headers p) (headers_in p) (last_header p)
  b h c (last_was_value p) (keep_alive p) (parsed_byte p).
Definition set_keep_alive v p := Req (parser p) (str_path p) (str_query_string p) (str_fragment p) (str_body p) (headers p) (headers_in p) (last_header p)
  (message_begin_called p) (header_complete_called p) (message_complete_called p) (last_was_value p) v (parsed_byte p).
Definition set_parsed_byte v p := Req (parser p) (str_path p) (str_query_string p) (str_fragment p) (str_body p) (headers p) (headers_in p) (last_header p)
  (message_begin_called p) (header_complete_called p) (message_complete_called p) (last_was_value p) (keep_alive p) v.

(** ** The table of headers *)

(** [mem s]: the [len] bytes a string points to, if they can be read. *)
Section table.
Variable mem : string -> option (list Z).
Variable nodes : list easy_http_header_t.

Definition bucket (key : list Z) : Z := Z.land (EasyHash.easy_hash_code key EASY_HTTP_HDR_HSEED) (EASY_HTTP_HDR_SIZE - 1).

Definition easy_http_header_hash_add (table : easy_http_header_hash_t) (header : nat) : option easy_http_header_hash_t :=
  h ← nodes !! header; key ← mem (name h);
  let n := Z.to_nat (bucket key) in
  chain ← buckets table !! n;
  Some (Hash (<[n := header :: chain]> (buckets table)) (u32 (count table + 1))).

(** [t->name.len == len && memcmp(...) == 0]; the name is read only if the lengths agree. *)
Definition named (key : list Z) (t : nat) : option bool :=
  h ← nodes !! t;
  if EasyBuf.len (name h) =? Z.of_nat (length key) then x ← mem (name h); Some (bool_decide (x = key)) else Some false.

(** The walk along a chain: the headers passed, the one found, and the rest. *)
Fixpoint walk (key : list Z) (prev chain : list nat) : option (option (list nat * nat * list nat)) :=
  match chain with
  | [] => Some None
  | t :: chain => b ← named key t; if b : bool then Some (Some (prev, t, chain)) else walk key (prev ++ [t]) chain
  end.

Definition easy_http_header_hash_get (table : easy_http_header_hash_t) (key : list Z) : option (option nat) :=
  chain ← buckets table !! Z.to_nat (bucket key);
  r ← walk key [] chain;
  Some (match r with Some (_, t, _) => Some t | None => None end).

Definition easy_http_header_hash_del (table : easy_http_header_hash_t) (key : list Z) : option (option nat * easy_http_header_hash_t) :=
  chain ← buckets table !! Z.to_nat (bucket key);
  r ← walk key [] chain;
  Some (match r with
        | Some (prev, t, next) => (Some t, Hash (<[Z.to_nat (bucket key) := prev ++ next]> (buckets table)) (u32 (count table - 1)))
        | None => (None, table)
        end).

Definition easy_http_get_header (table : easy_http_header_hash_t) (key : list Z) : option (option string) :=
  t ← easy_http_header_hash_get table key;
  match t with Some t => h ← nodes !! t; Some (Some (value h)) | None => Some None end.
Definition easy_http_del_header (table : easy_http_header_hash_t) (key : list Z) : option (option string * easy_http_header_hash_t) :=
  r ← easy_http_header_hash_del table key;
  match fst r with Some t => h ← nodes !! t; Some (Some (value h), snd r) | None => Some (None, snd r) end.

(** [easy_http_header_hash_foreach] *)
Definition foreach (table : easy_http_header_hash_t) : list nat := concat (buckets table).
End table.

(** ** Callbacks of the parser *)

Definition sizeof_easy_http_header_t : Z := 40.
Definition sizeof_easy_http_request_t : Z := 704.

Section decode.
Context {S : Type} `{PoolOps S}.

(** What [parser->data] leads to: the request and the pool of its message; [None]
    after an access that is not allowed. *)
Abbreviation collected := (option (easy_http_request_t * S)).

(** The bytes of the message from the position of the request on, and where in them
    the parser works. *)
Variables (input : list Z) (base : Z).

Definition text (s : string) : option (list Z) :=
  if (EasyBuf.data s <? 0) || (EasyBuf.len s <? 0) then None else gets input (Z.to_nat (EasyBuf.data s)) (Z.to_nat (EasyBuf.len s)).

Definition append (s : string) (at_ : nat) (l : list Z) : string := EasyBuf.easy_buf_string_append s (base + Z.of_nat at_) (Z.of_nat (length l)).

Definition easy_http_request_message_begin : @http_cb collected := fun _ u =>
  (0, p ← u; Some (set_called true (header_complete_called (fst p)) (message_complete_called (fst p)) (fst p), snd p)).
Definition easy_http_request_headers_complete : @http_cb collected := fun _ u =>
  (0, p ← u; Some (set_called (message_begin_called (fst p)) true (message_complete_called (fst p)) (fst p), snd p)).
Definition easy_http_request_message_complete : @http_cb collected := fun _ u =>
  (1, p ← u; Some (set_called (message_begin_called (fst p)) (header_complete_called (fst p)) true (fst p), snd p)).

Definition easy_http_request_on_path : @http_data_cb collected := fun _ a l u => (0, p ← u; Some (set_str_path (append (str_path (fst p)) a l) (fst p), snd p)).
Definition easy_http_request_on_query_string : @http_data_cb collected := fun _ a l u =>
  (0, p ← u; Some (set_str_query_string (append (str_query_string (fst p)) a l) (fst p), snd p)).
Definition easy_http_request_on_fragment : @http_data_cb collected := fun _ a l u => (0, p ← u; Some (set_str_fragment (append (str_fragment (fst p)) a l) (fst p), snd p)).
Definition easy_http_request_on_body : @http_data_cb collected := fun _ a l u => (0, p ← u; Some (set_str_body (append (str_body (fst p)) a l) (fst p), snd p)).

(** A header without memory is a null pointer, which the next line uses. *)
Definition new_header (p : easy_http_request_t) (s : S) : option (easy_http_request_t * S) :=
  match p_alloc s sizeof_easy_http_header_t with
  | (None, _) => None
  | (Some _, s) => Some (set_headers (headers p ++ [Header NO_STRING NO_STRING]) (headers_in p) (Some (length (headers p))) (last_was_value p) p, s)
  end.

Definition easy_http_request_on_header_field : @http_data_cb collected := fun _ a l u =>
  (0, p ← u;
      q ← (if last_was_value (fst p) then new_header (fst p) (snd p) else Some p);
      i ← last_header (fst q); h ← headers (fst q) !! i;
      Some (set_headers (<[i := Header (append (name h) a l) (value h)]> (headers (fst q))) (headers_in (fst q)) (last_header (fst q)) false (fst q), snd q)).

Definition easy_http_request_on_header_value : @http_data_cb collected := fun _ a l u =>
  (0, p ← u;
      i ← last_header (fst p);
      t ← (if negb (last_was_value (fst p)) then easy_http_header_hash_add text (headers (fst p)) (headers_in (fst p)) i else Some (headers_in (fst p)));
      h ← headers (fst p) !! i;
      Some (set_headers (<[i := Header (name h) (append (value h) a l)]> (headers (fst p))) t (last_header (fst p)) true (fst p), snd p)).

Definition easy_http_request_settings : @http_parser_settings collected :=
  Settings (Some easy_http_request_message_begin) (Some easy_http_request_on_path) (Some easy_http_request_on_query_string) None
    (Some easy_http_request_on_fragment) (Some easy_http_request_on_header_field) (Some easy_http_request_on_header_value)
    (Some easy_http_request_headers_complete) (Some easy_http_request_on_body) (Some easy_http_request_message_complete).
Definition easy_http_response_settings : @http_parser_settings collected :=
  Settings (Some easy_http_request_message_begin) None None None None (Some easy_http_request_on_header_field) (Some easy_http_request_on_header_value)
    (Some easy_http_request_headers_complete) (Some easy_http_request_on_body) (Some easy_http_request_message_complete).
End decode.

(** ** Decoding *)

(** A message: the bytes from [m->input->pos] to [m->input->last]. *)
Record easy_message_t {S : Type} := Message { input : list Z; user_data : option easy_http_request_t; status : Z; wait_close : bool; pool : S }.
Arguments easy_message_t : clear implicits.
Arguments Message {S} _ _ _ _ _.

Section message.
Context {S : Type} `{PoolOps S}.

(** A parser in memory that is zero. *)
Definition zero_parser : http_parser := Parser (Registers s_dead h_general 0 0) (Fields HTTP_REQUEST 0 0 0 0 0 HTTP_DELETE 0).

Definition easy_http_request_create (s : S) (type : http_parser_type) : option easy_http_request_t * S :=
  match p_alloc s sizeof_easy_http_request_t with
  | (None, s) => (None, s)
  | (Some _, s) => (Some (Req (http_parser_init zero_parser type) NO_STRING NO_STRING NO_STRING NO_STRING [] no_headers None false false false true false 0), s)
  end.

(** [easy_http_server_on_decode] and [easy_http_client_on_decode], which differ in the
    type of the parser and the callbacks.  [None] is an access that is not allowed. *)
Definition on_decode (type : http_parser_type) (settings : list Z -> Z -> @http_parser_settings (option (easy_http_request_t * S))) (m : easy_message_t S)
    : option (option easy_http_request_t * easy_message_t S) :=
  let '(user, s) := match user_data m with Some p => (Some p, pool m) | None => easy_http_request_create (pool m) type end in
  match user with
  | None => Some (None, Message (input m) None EASY_ERROR (wait_close m) s)
  | Some p =>
      let size := i32 (Z.of_nat (length (input m)) - parsed_byte p) in
      if size <=? 0 then Some (None, Message (input m) (Some p) (status m) (wait_close m) s)
      else
        match http_parser_execute (settings (input m) (parsed_byte p)) (drop (Z.to_nat (parsed_byte p)) (input m)) (parser p) (Some (p, s)) with
        | Faulted _ _ | Returned _ _ None => None
        | Returned n q (Some (p, s)) =>
            let p := set_parser q p in
            let n := i32 (Z.of_nat n) in
            if http_parser_has_error q || (n <? 0) then Some (None, Message (input m) (Some p) EASY_ERROR (wait_close m) s)
            else
              let p := set_parsed_byte (i32 (parsed_byte p + n)) p in
              if negb (message_complete_called p) then Some (None, Message (input m) (Some p) (status m) (wait_close m) s)
              else
                let p := set_keep_alive (http_should_keep_alive (fields q)) p in
                Some (Some p, Message (drop (Z.to_nat (parsed_byte p + 1)) (input m)) None (status m) (if keep_alive p then wait_close m else true) s)
        end
  end.

Definition easy_http_server_on_decode : easy_message_t S -> option (option easy_http_request_t * easy_message_t S) := on_decode HTTP_REQUEST easy_http_request_settings.
Definition easy_http_client_on_decode : easy_message_t S -> option (option easy_http_request_t * easy_message_t S) := on_decode HTTP_RESPONSE easy_http_response_settings.
End message.

(** A pool that always has room, for examples. *)
Definition bump : PoolOps Z := {| p_alloc s n := (Some s, s + n); p_room _ := 4096; p_inv _ _ := True |}.

End HttpHandler.
