(* ===== verification/HttpHandlerSafety.v ===== *)
(** * HTTP requests: what decoding keeps

    The callbacks of HttpHandler never leave the buffer of the message, whatever
    arrives: an invariant of a request and of the marks of the parser, kept by every
    step of the parser, and what follows for decoding. *)

From Stdlib Require Import Ascii String ZArith Lia.
From stdpp Require Import base list numbers option sets.
From S2P Require Import Prelude CString EasyPool EasyHash EasyBuf HttpParser HttpParserProofs HttpParserSplit HttpParserUser HttpHandler.

Local Open Scope Z_scope.

Module HttpHandlerSafety.
Import HttpParser HttpParserProofs HttpParserSplit HttpParserUser EasyPool HttpHandler.

(** ** Requests *)

(** A string inside the first [b] bytes. *)
Definition within (b : Z) (s : string) : Prop := 0 <= EasyBuf.data s /\ 0 <= EasyBuf.len s /\ EasyBuf.data s + EasyBuf.len s <= b.

(** A table over the first [n] headers. *)
Definition table_ok (n : nat) (t : easy_http_header_hash_t) : Prop :=
  length (buckets t) = 32%nat /\ Forall (fun i => (i < n)%nat) (foreach t).

(** A request of which the first [b] bytes are read, [pb] of them in calls before. *)
Record fine (pb b : Z) (p : easy_http_request_t) : Prop := {
  fine_path : within b (str_path p); fine_query : within b (str_query_string p); fine_fragment : within b (str_fragment p);
  fine_body : within b (str_body p);
  fine_headers : Forall (fun h => within b (name h) /\ within b (value h)) (headers p);
  fine_last : match last_header p with Some i => (i < length (headers p))%nat | None => last_was_value p = true end;
  fine_table : table_ok (length (headers p)) (headers_in p);
  fine_open : message_complete_called p = false;
  fine_parsed : parsed_byte p = pb }.

Definition has_last (p : easy_http_request_t) : Prop := is_Some (last_header p).

Lemma within_mono b b' s : b <= b' -> within b s -> within b' s.
Proof. unfold within. lia. Qed.

Lemma fine_mono pb b b' p : b <= b' -> fine pb b p -> fine pb b' p.
Proof.
  intros Hb []. split; try done; try (eapply within_mono; [|done]; lia).
  eapply list.Forall_impl; [done|]. intros h [? ?]. split; by eapply within_mono.
Qed.

Lemma within_append b base s a l : within b s -> b <= base + Z.of_nat a -> base + Z.of_nat a + Z.of_nat (length l) < 2 ^ 31 ->
  within (base + Z.of_nat a + Z.of_nat (length l)) (append base s a l).
Proof.
  unfold within, append, EasyBuf.easy_buf_string_append. cbn [EasyBuf.data EasyBuf.len]. intros H1 H2 H3. rewrite wraps_small by lia. lia.
Qed.

Lemma within_none b : 0 <= b -> within b NO_STRING.
Proof. unfold within. cbn. lia. Qed.

Lemma text_within input b s : within b s -> b <= Z.of_nat (length input) -> exists l, text input s = Some l /\ Z.of_nat (length l) = EasyBuf.len s.
Proof.
  intros (? & ? & ?) Hb. unfold text. destruct (Z.ltb_spec (EasyBuf.data s) 0); [lia|]. destruct (Z.ltb_spec (EasyBuf.len s) 0); [lia|]. cbn [orb]. unfold gets.
  destruct (Nat.leb_spec (Z.to_nat (EasyBuf.data s) + Z.to_nat (EasyBuf.len s)) (length input)); [|lia]. eexists. split; [done|]. rewrite length_take, length_drop. lia.
Qed.

Lemma header_bucket_range key : (Z.to_nat (bucket key) < 32)%nat.
Proof.
  unfold bucket. change (EASY_HTTP_HDR_SIZE - 1) with (Z.ones 5). rewrite Z.land_ones by lia. pose proof (Z.mod_pos_bound (EasyHash.easy_hash_code key EASY_HTTP_HDR_HSEED) (2 ^ 5) ltac:(lia)). lia.
Qed.

Lemma table_ok_mono n n' t : (n <= n')%nat -> table_ok n t -> table_ok n' t.
Proof. intros Hn [? Hf]. split; [done|]. eapply list.Forall_impl; [done|]. cbn. lia. Qed.

Lemma hash_add_ok mem nodes t i key h : nodes !! i = Some h -> mem (name h) = Some key -> table_ok (length nodes) t ->
  exists t', easy_http_header_hash_add mem nodes t i = Some t' /\ table_ok (length nodes) t'.
Proof.
  intros Hi Hm [Hl Hf]. unfold easy_http_header_hash_add. rewrite Hi. cbn [mbind option_bind]. rewrite Hm. cbn [mbind option_bind].
  destruct (lookup_lt_is_Some_2 (buckets t) (Z.to_nat (bucket key))) as [chain E]; [rewrite Hl; apply header_bucket_range|]. rewrite E. cbn [mbind option_bind].
  eexists. split; [done|]. split; [cbn; by rewrite length_insert|]. unfold foreach in *. cbn [buckets]. apply lookup_lt_Some in Hi.
  rewrite <- (take_drop_middle _ _ _ E) in Hf. rewrite concat_app in Hf. cbn [concat] in Hf. rewrite !list.Forall_app in Hf. destruct Hf as (H1 & H2 & H3).
  rewrite insert_take_drop by (by eapply lookup_lt_Some). rewrite concat_app. cbn [concat]. rewrite !list.Forall_app. split_and!; [done|by constructor|done].
Qed.

(** ** Steps of the parser *)

Section steps.
Context {S : Type} `{PoolOps S}.
(** There is memory for headers. *)
Hypothesis memory : forall s, exists a s', p_alloc s sizeof_easy_http_header_t = (Some a, s').
Variables (server : bool) (input data : list Z) (base : Z).
Hypothesis base_pos : 0 <= base.
Hypothesis in_buffer : base + Z.of_nat (length data) <= Z.of_nat (length input) < 2 ^ 31.

Abbreviation user := (option (easy_http_request_t * S)).
Abbreviation settings := (if server then easy_http_request_settings input base else easy_http_response_settings input base).
Abbreviation MU := (@M user).
Abbreviation confu := (@conf user).

(** The string the next bytes of a kind go to. *)
Definition target (k : data_kind) (p : easy_http_request_t) : string :=
  let last f := match last_header p with Some i => match headers p !! i with Some h => f h | None => NO_STRING end | None => NO_STRING end in
  match k with
  | d_header_field => if last_was_value p then NO_STRING else last name
  | d_header_value => last value
  | d_fragment => str_fragment p | d_query_string => str_query_string p | d_path => str_path p
  | d_url => NO_STRING
  end.

Definition value_state (s : state) : bool := match s with s_header_value_start | s_header_value => true | _ => false end.

(** [e] is 1 when the byte at the position has been handed over, with others of a
    body; [L]: there is a header; [ks]: the kinds whose marks still matter. *)
Definition keeping (e : Z) (L : bool) (ks : list data_kind) (c : confu) : Prop :=
  (c_pos c <= length data)%nat /\
  exists p s, c_user c = Some (p, s) /\ fine base (base + Z.of_nat (c_pos c) + e) p /\
    (forall k a, k ∈ ks -> get_mark k (c_marks c) = Some a -> (a <= c_pos c)%nat /\ within (base + Z.of_nat a) (target k p)) /\
    (if L then has_last p else value_state (r_state (c_regs c)) = false /\ get_mark d_header_value (c_marks c) = None).

(** A step keeps this, or fails with it, or stops at a complete request. *)
Definition wpi {A} (m : MU A) (Q : A -> confu -> Prop) (c : confu) : Prop :=
  match m c with
  | Ok _ a c' => Q a c'
  | Halt _ _ c' => (c_pos c' < length data)%nat /\
      exists p s, c_user c' = Some (p, s) /\ message_complete_called p = true /\
        fine base (base + Z.of_nat (c_pos c') + 1) (set_called (message_begin_called p) (header_complete_called p) false p)
  | Error _ c' => is_Some (c_user c')
  | Fault _ _ _ => True
  end.

Definition kinds : list data_kind := [d_header_field; d_header_value; d_fragment; d_query_string; d_path].
Definition keeps {A} (e : Z) (L : bool) (m : MU A) : Prop := forall c, (c_pos c < length data)%nat -> keeping e L kinds c -> wpi m (fun _ c' => keeping e L kinds c' /\ (c_pos c' < length data)%nat) c.

Lemma wpi_bind {A B} (m : MU A) (k : A -> MU B) Q c : wpi m (fun a => wpi (k a) Q) c -> wpi (m ≫= k) Q c.
Proof. unfold wpi, mbind, M_bind. by destruct (m c). Qed.

Lemma wpi_mono {A} (m : MU A) (Q R : A -> confu -> Prop) c : wpi m Q c -> (forall a c', Q a c' -> R a c') -> wpi m R c.
Proof. unfold wpi. destruct (m c); auto. Qed.

Lemma keeps_bind {A B} e L (m : MU A) (k : A -> MU B) : keeps e L m -> (forall a, keeps e L (k a)) -> keeps e L (m ≫= k).
Proof. intros Hm Hk c Hp Hc. apply wpi_bind. eapply wpi_mono; [by apply Hm|]. intros a c' [Hc' Hp']. by apply Hk. Qed.

Lemma keeps_if {A} e L (b : bool) (x y : MU A) : keeps e L x -> keeps e L y -> keeps e L (if b then x else y).
Proof. by destruct b. Qed.

Lemma keeps_ret {A} e L (a : A) : keeps e L (mret a).
Proof. by intros c Hp Hc. Qed.
Lemma keeps_getf e L : keeps e L getf.
Proof. by intros c Hp Hc. Qed.
Lemma keeps_getr e L : keeps e L getr.
Proof. by intros c Hp Hc. Qed.
Lemma keeps_remaining e L : keeps e L (remaining data).
Proof. by intros c Hp Hc. Qed.
Lemma keeps_failed {A} e L f : keeps e L (failed (A := A) f).
Proof. by intros c Hp Hc. Qed.
Lemma keeps_error {A} e L : keeps e L (error (A := A)).
Proof. intros c Hp (Hpos & p & s & Hu & Hf & _). by exists (p, s). Qed.
Lemma keeps_modf e L g : keeps e L (modf g).
Proof. by intros [r f m p u] Hp Hc. Qed.
Lemma keeps_modr e L g : (L = false -> forall r, value_state (r_state (g r)) = true -> value_state (r_state r) = true) -> keeps e L (modr g).
Proof.
  intros Hg [r f m p u] Hp (Hpos & q & s & Hu & Hf & Hm & HL). split; [|done]. split; [done|]. exists q, s. split_and!; [done..|].
  destruct L; [done|]. destruct HL as [HL1 HL2]. split; [|done]. cbn in *. destruct (value_state (r_state (g r))) eqn:E; [|done]. by rewrite (Hg eq_refl r E) in HL1.
Qed.
Lemma keeps_state e L s : (L = false -> value_state s = false) -> keeps e L (set_state s).
Proof. intros HL. apply keeps_modr. intros E r. cbn. by rewrite HL. Qed.
Lemma keeps_header_state e L h : keeps e L (set_header_state h).
Proof. by apply keeps_modr. Qed.
Lemma keeps_index e L i : keeps e L (set_index i).
Proof. by apply keeps_modr. Qed.
Lemma keeps_nread e L n : keeps e L (set_nread n).
Proof. by apply keeps_modr. Qed.

Lemma target_within b k p : 0 <= b -> fine base b p -> within b (target k p).
Proof.
  intros Hb []. pose proof (within_none b Hb). assert (forall f, (forall h, h ∈ headers p -> within b (f h)) -> within b (match last_header p with Some i => match headers p !! i with Some h => f h | None => NO_STRING end | None => NO_STRING end)) as Hl.
  { intros f Hf. destruct (last_header p) as [i|]; [|done]. destruct (headers p !! i) as [h|] eqn:E; [|done]. apply Hf. by eapply list_elem_of_lookup_2. }
  rewrite list.Forall_forall in fine_headers0. destruct k; cbn [target]; try done; [destruct (last_was_value p); [done|]|]; apply Hl; intros h Hh; by apply fine_headers0.
Qed.

Lemma keeps_MARK L k : (k = d_header_value -> L = true) -> keeps 0 L (MARK k).
Proof.
  intros Hk [r f m p u] Hp (Hpos & q & s & Hu & Hf & Hm & HL). cbn in *. rewrite Z.add_0_r in Hf. split; [|done]. split; [done|]. exists q, s. cbn. rewrite Z.add_0_r. split_and!; [done|done| |].
  - intros k' a Hk' Ha. destruct (decide (k' = k)) as [->|Hne].
    + rewrite get_put, decide_True in Ha by done. injection Ha as <-. split; [done|]. apply target_within; [lia|done].
    + rewrite get_put, decide_False in Ha by done. by apply (Hm k' a Hk').
  - destruct L; [done|]. destruct HL as [HL1 HL2]. split; [done|]. destruct k; try by destruct m. by specialize (Hk eq_refl).
Qed.

(** What a data callback does. *)
Definition emits (k : data_kind) (p : nat) (q : easy_http_request_t) (r : Z * user) : Prop :=
  exists q' s', r = (0, Some (q', s')) /\ fine base (base + Z.of_nat p) q' /\ (has_last q -> has_last q') /\ (k = d_header_field -> has_last q') /\
    (forall k' b, k' <> k -> 0 <= b -> within b (target k' q) -> within b (target k' q')).

Lemma within_slice x a p : within (base + Z.of_nat a) x -> (a <= p)%nat -> (p <= length data)%nat -> within (base + Z.of_nat p) (append base x a (slice data a p)).
Proof.
  intros Hx Ha Hp. assert (Z.of_nat (length (slice data a p)) = Z.of_nat p - Z.of_nat a) as El by (unfold slice; rewrite length_take, length_drop; lia).
  pose proof (within_append _ base x a (slice data a p) Hx) as Hw. rewrite El in Hw. replace (base + Z.of_nat a + (Z.of_nat p - Z.of_nat a)) with (base + Z.of_nat p) in Hw by lia. apply Hw; lia.
Qed.

Lemma field_ok f a p q s : (a <= p)%nat -> (p <= length data)%nat -> fine base (base + Z.of_nat p) q -> within (base + Z.of_nat a) (target d_header_field q) ->
  emits d_header_field p q (easy_http_request_on_header_field base f a (slice data a p) (Some (q, s))).
Proof.
  intros Ha Hp [H1 H2 H3 H4 H5 H6 H7 H8 H9] Ht. assert (0 <= base + Z.of_nat p) as H0 by lia. pose proof (within_none _ H0) as Hnone.
  unfold easy_http_request_on_header_field, emits. cbn [mbind option_bind fst snd]. cbn [target] in Ht. destruct (last_was_value q) eqn:El.
  - unfold new_header. destruct (memory s) as (x & s' & ->). cbn [mbind option_bind fst snd last_header headers set_headers]. rewrite lookup_app_r, Nat.sub_diag by lia. cbn [lookup list_lookup mbind option_bind fst snd name value headers headers_in last_header set_headers].
    rewrite insert_app_r_alt, Nat.sub_diag by lia. cbn [list_insert insert]. eexists _, s'. split; [reflexivity|]. split_and!.
    + constructor; cbn; rewrite ?length_app; cbn; try done; [|lia|by eapply table_ok_mono; [|done]; lia].
      apply list.Forall_app. split; [done|]. constructor; [|done]. split; [by apply within_slice|done].
    + by eexists.
    + by eexists.
    + intros k' b Hk Hb Hw. destruct k'; try done. cbn. rewrite lookup_app_r, Nat.sub_diag by lia. cbn. by apply within_none.
  - destruct (last_header q) as [i|] eqn:Ei; [|done]. destruct (lookup_lt_is_Some_2 _ _ H6) as [h Eh]. cbn [mbind option_bind fst snd]. rewrite ?Ei. cbn [mbind option_bind]. rewrite Eh in *. cbn [mbind option_bind].
    eexists _, s. split; [reflexivity|]. split_and!.
    + constructor; cbn; rewrite ?Ei, ?length_insert; try done. apply list.Forall_insert; [done|]. cbn. split; [by apply within_slice|]. rewrite list.Forall_forall in H5. apply (H5 h). by eapply list_elem_of_lookup_2.
    + by eexists.
    + by eexists.
    + intros k' b Hk Hb Hw. destruct k'; try done. cbn in *. rewrite Ei, Eh in Hw. by rewrite list_lookup_insert_eq by done.
Qed.

Lemma value_ok f a p q s : (a <= p)%nat -> (p <= length data)%nat -> fine base (base + Z.of_nat p) q -> within (base + Z.of_nat a) (target d_header_value q) -> has_last q ->
  emits d_header_value p q (easy_http_request_on_header_value input base f a (slice data a p) (Some (q, s))).
Proof.
  intros Ha Hp [H1 H2 H3 H4 H5 H6 H7 H8 H9] Ht [i Ei]. unfold easy_http_request_on_header_value, emits. cbn [mbind option_bind fst snd]. cbn [target] in Ht.
  rewrite Ei in *. cbn [mbind option_bind]. destruct (lookup_lt_is_Some_2 _ _ H6) as [h Eh]. rewrite Eh in *. pose proof (proj1 (list.Forall_forall _ _) H5 h (list_elem_of_lookup_2 _ _ _ Eh)) as [Hn Hv].
  assert (exists t, (if negb (last_was_value q) then easy_http_header_hash_add (text input) (headers q) (headers_in q) i else Some (headers_in q)) = Some t /\ table_ok (length (headers q)) t) as (t & -> & Ht').
  { destruct (last_was_value q); cbn [negb]; [by eexists|]. destruct (text_within input _ _ Hn ltac:(lia)) as (key & Hk & _). by eapply hash_add_ok. }
  cbn [mbind option_bind]. eexists _, s. split; [reflexivity|]. split_and!; [|by eexists|done|].
  - constructor; cbn; rewrite ?Ei, ?length_insert; try done. apply list.Forall_insert; [done|]. cbn. split; [done|by apply within_slice].
  - intros k' b Hk Hb Hw. destruct k'; try done; by apply within_none.
Qed.

Lemma emit_ok k f a p q s g : (a <= p)%nat -> (p <= length data)%nat -> fine base (base + Z.of_nat p) q -> within (base + Z.of_nat a) (target k q) ->
  (k = d_header_value -> has_last q) -> on_data settings k = Some g -> emits k p q (g f a (slice data a p) (Some (q, s))).
Proof.
  intros Ha Hp Hf Ht Hv Hg. destruct k; cbn [target] in Ht; destruct server; cbn in Hg; try discriminate Hg; injection Hg as <-; try (by apply field_ok); try (by apply value_ok; auto);
    destruct Hf; (eexists _, s; split; [reflexivity|]; split_and!; [constructor; cbn; try done; by apply within_slice|done|done|]; by intros k' b Hk Hb Hw; destruct k').
Qed.

Lemma keeping_intro (L : bool) (ks : list data_kind) (r : registers) (f : http_fields) (m : marks) (p : nat) q (s : S) : (p <= length data)%nat -> fine base (base + Z.of_nat p) q ->
  (forall k a, k ∈ ks -> get_mark k m = Some a -> (a <= p)%nat /\ within (base + Z.of_nat a) (target k q)) ->
  (if L then has_last q else value_state (r_state r) = false /\ get_mark d_header_value m = None) -> keeping 0 L ks (Conf r f m p (Some (q, s))).
Proof. intros Hp Hf Hm HL. split; [done|]. exists q, s. cbn. by rewrite Z.add_0_r. Qed.

Lemma noclear_ok L k ks c : k ∉ ks -> keeping 0 L (k :: ks) c -> wpi (CALLBACK_NOCLEAR settings data k)
  (fun _ c' => keeping 0 L ks c' /\ c_pos c' = c_pos c /\ c_regs c' = c_regs c /\ c_marks c' = c_marks c /\ (k = d_header_field -> is_Some (get_mark k (c_marks c)) -> exists p s, c_user c' = Some (p, s) /\ has_last p)) c.
Proof.
  intros Hk (Hpos & q & s & Hu & Hf & Hm & HL). destruct c as [r f m p u]. cbn in *. rewrite Z.add_0_r in Hf. subst u. unfold wpi, CALLBACK_NOCLEAR. cbn [c_fields c_marks c_pos c_user c_regs].
  destruct (get_mark k m) as [a|] eqn:Ea.
  2: { split_and!; [|done|done|done|by intros _ [x Hx]]. apply keeping_intro; [done..| |done]. intros k' a' Hk' Ha'. apply (Hm k' a'); [by right|done]. }
  destruct (Hm k a ltac:(by left) Ea) as [Hap Hw]. destruct (on_data settings k) as [g|] eqn:Eg.
  2: { destruct k, server; try discriminate Eg; (split_and!; try done; apply keeping_intro; [done..| |done]; intros k' a' Hk' Ha'; apply (Hm k' a'); [by right|done]). }
  destruct (emit_ok k f a p q s g Hap Hpos Hf Hw) as (q' & s' & -> & Hf' & Hl' & Hfl & Hother); [|done|].
  { intros ->. destruct L; [done|]. destruct HL as [_ HL]. cbn in Ea; by rewrite HL in Ea. }
  cbn [Z.eqb fst snd]. split_and!; try done; [|intros Hkf _; exists q', s'; by auto]. apply keeping_intro; try done.
  - intros k' a' Hk' Ha'. destruct (Hm k' a' ltac:(by right) Ha') as [? ?]. split; [done|]. apply Hother; [by intros ->|lia|done].
  - destruct L; [by auto|done].
Qed.

Lemma keeping_sub L ks ks' c : (forall k, k ∈ ks' -> k ∈ ks) -> keeping 0 L ks c -> keeping 0 L ks' c.
Proof. intros Hs (Hp & q & s & Hu & Hf & Hm & HL). split; [done|]. exists q, s. split_and!; try done. intros k a Hk. by apply Hm, Hs. Qed.

(** The rest of the kinds. *)
Definition others (k : data_kind) : list data_kind := List.filter (fun k' => negb (bool_decide (k' = k))) kinds.

Lemma others_in k k' : k' ∈ k :: others k -> k' = k \/ k' ∈ kinds.
Proof. destruct k, k'; cbn; set_solver. Qed.
Lemma others_out k : k ∉ others k.
Proof. destruct k; cbn; set_solver. Qed.
Lemma kinds_others k k' : k' ∈ kinds -> k' <> k -> k' ∈ others k.
Proof. destruct k, k'; cbn; set_solver. Qed.

(** A callback that clears its mark; a header field leaves a header if there was a
    mark. *)
Lemma wpi_CALLBACK L k c : keeping 0 L kinds c -> wpi (CALLBACK settings data k) (fun _ c' => keeping 0 L kinds c' /\ c_pos c' = c_pos c /\
  (k = d_header_field -> is_Some (header_field_mark (c_marks c)) -> exists p s, c_user c' = Some (p, s) /\ has_last p)) c.
Proof.
  intros Hc. unfold CALLBACK. apply wpi_bind. destruct (decide (k = d_url)) as [->|Hne].
  { unfold CALLBACK_NOCLEAR. assert (on_data settings d_url = None) as E by (by destruct server). unfold wpi at 1. rewrite E. destruct Hc as (Hp & q & s & Hu & Hf & Hm & HL). destruct c as [r f m p u].
    cbn in *. assert (forall P : Prop, P -> match (match url_mark m with Some _ | _ => Ok unit tt (Conf r f m p u) end) with Ok _ _ c' => c' = Conf r f m p u | _ => False end) as _ by (by destruct (url_mark m)).
    destruct (url_mark m); (split_and!; [split; [done|]; exists q, s; split_and!; [done|done| |destruct L; [done|destruct HL; split; [done|by destruct m]]]; intros k a Hk Ha; apply (Hm k a Hk); destruct m, k; by cbn in *|done|done]). }
  eapply wpi_mono; [apply (noclear_ok L k (others k)); [apply others_out|]|].
  { eapply keeping_sub; [|exact Hc]. intros k' Hk'. destruct (others_in _ _ Hk') as [->|]; [|done]. destruct k; cbn; set_solver. }
  intros _ c' (Hc' & Hp' & Hr' & Hm' & Hl'). destruct c' as [r f m p u]. cbn in *. destruct Hc' as (Hp & q & s & Hu & Hf & Hm & HL). cbn in *. split_and!; [|done|].
  - split; [done|]. exists q, s. cbn. split_and!; [done|done| |].
    + intros k' a Hk' Ha. rewrite get_put in Ha. case_decide as E; [done|]. apply Hm; [by apply kinds_others|done].
    + destruct L; [done|]. destruct HL as [HL1 HL2]. split; [done|]. destruct k; by destruct m.
  - intros -> Hs. rewrite <- Hm' in Hs. destruct (Hl' eq_refl) as (p' & s' & E & Hl); [by rewrite <- Hm'|]. by exists p', s'.
Qed.

Lemma keeps_CALLBACK L k : keeps 0 L (CALLBACK settings data k).
Proof. intros c Hp Hc. eapply wpi_mono; [by apply wpi_CALLBACK|]. intros _ c' (? & E & _). split; [done|]. by rewrite E. Qed.

(** Setting a flag of the request. *)
Lemma keeping_called e L ks r f m p q s b h : keeping e L ks (Conf r f m p (Some (q, s))) -> keeping e L ks (Conf r f m p (Some (set_called b h (message_complete_called q) q, s))).
Proof.
  intros (Hp & q' & s' & Hu & Hf & Hm & HL). cbn in *. injection Hu as <- <-. split; [done|]. eexists _, s. cbn. split_and!; [done| |done|by destruct L].
  by destruct Hf.
Qed.

Lemma keeps_begin e L : keeps e L (CALLBACK2 (on_message_begin settings)).
Proof.
  intros [r f m p u] Hp Hc. destruct (Hc) as (_ & q & s & Hu & _). cbn in Hu. subst u. destruct server; (split; [by apply keeping_called|done]).
Qed.
Lemma keeps_headers_complete e L : keeps e L (call_headers_complete settings).
Proof.
  intros [r f m p u] Hp Hc. destruct (Hc) as (_ & q & s & Hu & _). cbn in Hu. subst u. destruct server; (split; [by apply keeping_called|done]).
Qed.

(** A complete message stops the parser. *)
Lemma wpi_complete e Q c L ks : e <= 1 -> (c_pos c < length data)%nat -> keeping e L ks c -> wpi (CALLBACK2 (on_message_complete settings)) Q c.
Proof.
  destruct c as [r f m p u]. intros He Hp (_ & q & s & Hu & Hf & _). cbn in Hu, Hf, Hp. subst u. apply (fine_mono _ _ (base + Z.of_nat p + 1)) in Hf; [|lia].
  destruct server; (split; [done|]; eexists _, s; cbn; split_and!; [done|done|]; by destruct Hf).
Qed.
Lemma keeps_complete {A} e L (k : unit -> MU A) : e <= 1 -> keeps e L (CALLBACK2 (on_message_complete settings) ≫= k).
Proof. intros He c Hp Hc. apply wpi_bind. by eapply wpi_complete. Qed.
Lemma keeps_message_done e L : e <= 1 -> keeps e L (message_done settings).
Proof. apply keeps_complete. Qed.

(** Body bytes are handed over, then passed. *)
Lemma wpi_body L n c : 0 < n -> (c_pos c + Z.to_nat n <= length data)%nat -> keeping 0 L kinds c -> c_marks c = no_marks ->
  wpi (call_body settings data n;; skip n) (fun _ c' => keeping 1 L kinds c' /\ (c_pos c' < length data)%nat) c.
Proof.
  destruct c as [r f m p u]. intros Hn Hp (Hpos & q & s & Hu & Hf & Hm & HL) Hm0. cbn in *. rewrite Z.add_0_r in Hf. subst u m. unfold wpi, mbind, M_bind, call_body.
  assert (on_body settings = Some (easy_http_request_on_body base)) as -> by (by destruct server). cbn. split; [|lia].
  assert (length (slice data p (p + Z.to_nat n)) = Z.to_nat n) as El by (unfold slice; rewrite length_take, length_drop; lia).
  split; [cbn; lia|]. eexists _, s. cbn. split_and!; [done| |intros k a _; by destruct k|by destruct L].
  apply (fine_mono _ _ (base + Z.of_nat (p + Z.to_nat (n - 1)) + 1)) in Hf as Hf'; [|lia]. destruct Hf'. constructor; try done. cbn.
  replace (base + Z.of_nat (p + Z.to_nat (n - 1)) + 1) with (base + Z.of_nat p + Z.of_nat (length (slice data p (p + Z.to_nat n)))) by lia.
  apply (within_append (base + Z.of_nat p)); [by destruct Hf|lia|fold (slice data p (p + Z.to_nat n)); lia].
Qed.

Lemma keeping_01 L ks c : keeping 0 L ks c -> keeping 1 L ks c.
Proof. intros (Hp & q & s & Hu & Hf & Hm & HL). split; [done|]. exists q, s. split_and!; try done. eapply fine_mono; [|done]. lia. Qed.

(** ** The switch *)

Ltac keeps_go := repeat first
  [ apply keeps_ret | apply keeps_getf | apply keeps_getr | apply keeps_remaining | apply keeps_failed | apply keeps_error | apply keeps_modf
  | apply keeps_header_state | apply keeps_index | apply keeps_nread | apply keeps_state; [done] | apply keeps_MARK; [done] | apply keeps_CALLBACK
  | apply keeps_begin | apply keeps_headers_complete | apply keeps_message_done; [lia] | apply keeps_complete; [lia]
  | apply keeps_bind; [|intros ?] | apply keeps_if | case_match ].

(** States in which the parser does not read a body or a header's name or value. *)
Definition plain (s : state) : bool :=
  match s with s_body_identity | s_body_identity_eof | s_chunk_data | s_header_field | s_header_value_start | s_header_value => false | _ => true end.

Lemma keeps_plain L s ch : plain s = true -> keeps 0 L (switch settings data s ch).
Proof.
  intros Hs. destruct s; try discriminate Hs; cbn [switch];
  unfold do_start_req_or_res, do_res_or_resp_H, do_start_res, do_start_req, begin_message, start_req_method_assign, expect, first_digit, next_digit, STRICT_CHECK,
    do_res_http_major, do_res_http_minor, do_res_first_status_code, do_res_status_code, do_res_status, do_req_spaces_before_url, do_req_schema, do_req_host, do_req_port,
    do_req_path, http_0_9, do_req_query_string_start, do_req_query_string, do_req_fragment_start, do_req_fragment, do_req_http_start, do_req_http_major, do_req_http_minor,
    do_chunk_size_start, do_chunk_size, do_chunk_parameters, do_chunk_size_almost_done, do_chunk_data_almost_done, do_chunk_data_done, expect,
    assert_chunked, assert_, STRICT_CHECK, do_req_method, do_header_field_start, headers_almost_done, header_almost_done, halt; keeps_go.
Qed.

(** After a step. *)
Definition stepped (_ : unit) (c : confu) : Prop := (exists L, keeping 1 L kinds c) /\ (c_pos c < length data)%nat.

Lemma keeps_stepped L (m : MU unit) c : keeps 0 L m -> (c_pos c < length data)%nat -> keeping 0 L kinds c -> wpi m stepped c.
Proof. intros Hm Hp Hc. eapply wpi_mono; [by apply Hm|]. intros ? c' [Hc' Hp']. split; [|done]. exists L. by apply keeping_01. Qed.

Lemma keeps1_stepped L (m : MU unit) c : keeps 1 L m -> (c_pos c < length data)%nat -> keeping 1 L kinds c -> wpi m stepped c.
Proof. intros Hm Hp Hc. eapply wpi_mono; [by apply Hm|]. intros ? c' [Hc' Hp']. split; [|done]. by exists L. Qed.

Lemma wpi_header_field L ch c : (c_pos c < length data)%nat -> keeping 0 L kinds c -> is_Some (header_field_mark (c_marks c)) -> wpi (do_header_field settings data ch) stepped c.
Proof.
  intros Hp Hc Hm. unfold do_header_field. destruct (negb (TOKEN ch =? 0)).
  { eapply (keeps_stepped L); [|done|done]. unfold header_field_char, match_word, inc_index. keeps_go. }
  case_match; [|by eapply (keeps_stepped L); [keeps_go|done|done]].
  apply wpi_bind. eapply wpi_mono; [by apply wpi_CALLBACK|]. intros ? c' (Hc' & Hp' & Hl). eapply (keeps_stepped true); [by apply keeps_state|lia|].
  destruct (Hl eq_refl Hm) as (q & s & Eu & Hq). destruct Hc' as (Hpos & q' & s' & Hu & Hf & Hm' & _). split; [done|]. exists q', s'. split_and!; try done. by assert (q' = q) as -> by congruence.
Qed.

Lemma wpi_value s ch c : value_state s = true -> (c_pos c < length data)%nat -> keeping 0 true kinds c -> wpi (switch settings data s ch) stepped c.
Proof.
  intros Hs Hp Hc. eapply (keeps_stepped true); [|done|done]. destruct s; try discriminate Hs; cbn [switch]; unfold do_header_value_start, do_header_value, header_value_char, header_almost_done, match_word, STRICT_CHECK; keeps_go.
Qed.

Lemma wpi_remaining Q c : Q (Z.of_nat (length data - c_pos c)) c -> wpi (remaining data) Q c.
Proof. done. Qed.
Lemma wpi_getf Q c : Q (c_fields c) c -> wpi getf Q c.
Proof. done. Qed.

Lemma mu_bind_assoc {A B C} (m : MU A) (k : A -> MU B) (l : B -> MU C) c : ((m ≫= k) ≫= l) c = (m ≫= fun a => k a ≫= l) c.
Proof. unfold mbind, M_bind. by destruct (m c). Qed.
Lemma wpi_eq {A} (m m' : MU A) Q c : m c = m' c -> wpi m' Q c -> wpi m Q c.
Proof. unfold wpi. by intros ->. Qed.

Lemma wpi_read L n (k : unit -> MU unit) c : (c_pos c < length data)%nat -> keeping 0 L kinds c -> c_marks c = no_marks -> n <= Z.of_nat (length data - c_pos c) -> keeps 1 L (k tt) ->
  wpi ((if 0 <? n then call_body settings data n;; skip n else mret tt);; k tt) stepped c.
Proof.
  intros Hp Hc Hm Hn Hk. apply wpi_bind. destruct (Z.ltb_spec 0 n); [|by apply (keeps1_stepped L), keeping_01].
  eapply wpi_mono; [apply (wpi_body L); [done|lia|done|done]|]. intros a c' [Hc' Hp']. destruct a. by apply (keeps1_stepped L).
Qed.

Lemma remaining_pos (c : confu) : (c_pos c < length data)%nat -> 0 < Z.of_nat (length data - c_pos c).
Proof. lia. Qed.

Lemma wpi_body_state s ch L c : body_state s = true -> (c_pos c < length data)%nat -> keeping 0 L kinds c -> c_marks c = no_marks -> wpi (switch settings data s ch) stepped c.
Proof.
  intros Hs Hp Hc Hm. pose proof (remaining_pos c Hp). destruct s; try discriminate Hs; cbn [switch].
  - unfold do_chunk_data. apply wpi_bind. unfold assert_chunked. apply wpi_bind, wpi_getf. unfold assert_. destruct (has_flag _ _); [|done]. apply wpi_bind, wpi_remaining, wpi_bind, wpi_getf.
    apply (wpi_read L _ (fun _ => _)); [done..|lia|keeps_go].
  - unfold do_body_identity. apply wpi_bind, wpi_remaining, wpi_bind, wpi_getf. destruct (Z.ltb_spec 0 (Z.min (Z.of_nat (length data - c_pos c)) (content_length (c_fields c)))); [|by apply (keeps_stepped L); [keeps_go|..]].
    eapply wpi_eq; [symmetry; apply mu_bind_assoc|]. apply wpi_bind. eapply wpi_mono; [apply (wpi_body L); [done|lia|done|done]|]. intros a c' [Hc' Hp']. apply (keeps1_stepped L); [keeps_go|done..].
  - unfold do_body_identity_eof. apply wpi_bind, wpi_remaining. rewrite (proj2 (Z.ltb_lt _ _)) by done. eapply wpi_mono; [apply (wpi_body L); [done|lia|done|done]|]. intros a c' [Hc' Hp']. split; [by exists L|done].
Qed.

Lemma no_marks_of (c : confu) s : marks_shape (c_marks c) = marks_shape (initial_marks s) -> body_state s = true -> c_marks c = no_marks.
Proof. intros E Hs. apply no_marks_shape. rewrite E. by destruct s. Qed.

(** Every step. *)
Lemma wpi_switch s ch L c : r_state (c_regs c) = s -> marks_shape (c_marks c) = marks_shape (initial_marks s) -> (c_pos c < length data)%nat -> keeping 0 L kinds c -> wpi (switch settings data s ch) stepped c.
Proof.
  intros Es Hm Hp Hc. destruct (body_state s) eqn:Eb; [eapply wpi_body_state; [done..|by eapply no_marks_of]|].
  destruct (value_state s) eqn:Ev.
  { destruct L; [by apply wpi_value|]. destruct Hc as (_ & q & st & _ & _ & _ & HL & _). rewrite Es in HL. congruence. }
  destruct (plain s) eqn:Epl; [by eapply (keeps_stepped L); [apply keeps_plain|..]|]. destruct s; try discriminate. cbn [switch]. eapply wpi_header_field; [done..|].
  destruct (c_marks c) as [[] ? ? ? ? ?]; [by eexists|discriminate Hm].
Qed.

Lemma wpi_ok {A} (m : MU A) Q c a c' : m c = Ok _ a c' -> Q a c' -> wpi m Q c.
Proof. unfold wpi. by intros ->. Qed.

Lemma keeping_nread e L ks s hs i n n' f m p u : keeping e L ks (Conf (Registers s hs i n) f m p u) -> keeping e L ks (Conf (Registers s hs i n') f m p u).
Proof. done. Qed.

Lemma wpi_step ch L c : conf_ok c -> (c_pos c < length data)%nat -> keeping 0 L kinds c -> wpi (step settings data ch) stepped c.
Proof.
  intros [_ Hm] Hp Hc. destruct c as [[s hs i n] f m p u]. cbn in *. unfold step, count_header. apply wpi_bind, wpi_bind. eapply wpi_ok; [reflexivity|]. cbn [c_regs r_state].
  destruct (PARSING_HEADER s).
  - apply wpi_bind. eapply wpi_ok; [reflexivity|]. apply wpi_bind. eapply wpi_ok; [reflexivity|]. cbn [c_regs r_nread r_state].
    destruct (_ <? _); [destruct Hc as (_ & q & st & Hu & _); by exists (q, st)|]. eapply wpi_ok; [reflexivity|]. apply wpi_bind. eapply wpi_ok; [reflexivity|]. by apply (wpi_switch s ch L).
  - eapply wpi_ok; [reflexivity|]. apply wpi_bind. eapply wpi_ok; [reflexivity|]. by apply (wpi_switch s ch L).
Qed.

Lemma keeping_advance L c : keeping 1 L kinds c -> (c_pos c < length data)%nat -> keeping 0 L kinds (Conf (c_regs c) (c_fields c) (c_marks c) (Datatypes.S (c_pos c)) (c_user c)).
Proof.
  intros (_ & q & s & Hu & Hf & Hm & HL) Hp. split; [cbn; lia|]. exists q, s. cbn [c_user c_pos c_marks c_regs]. split_and!; [done| | |done].
  - by replace (base + Z.of_nat (Datatypes.S (c_pos c)) + 0) with (base + Z.of_nat (c_pos c) + 1) by lia.
  - intros k a Hk Ha. destruct (Hm k a Hk Ha). split; [lia|done].
Qed.

(** The loop: steps of the parser with the invariant of HttpParserProofs. *)
Lemma wpi_loop fuel : forall c L, conf_ok c -> keeping 0 L kinds c ->
  wpi (execute_loop settings data fuel) (fun _ c' => conf_ok c' /\ c_pos c' = length data /\ exists L, keeping 0 L kinds c') c.
Proof.
  induction fuel as [|fuel IH]; intros c L Hok Hc; unfold wpi; cbn [execute_loop]; destruct (data !! c_pos c) as [b|] eqn:E; try done.
  1,3: apply lookup_ge_None in E; split; [done|]; split; [by destruct Hc; lia|by exists L].
  apply lookup_lt_Some in E. pose proof (wp_step settings data (i8 b) c Hok E) as Hw. pose proof (wpi_step (i8 b) L c Hok E Hc) as Hi.
  unfold iteration, mbind, M_bind. unfold wpi, stepped, wp, after in Hw, Hi. destruct (step settings data (i8 b) c) as [[] c'|k c'|c'|fl c'] eqn:Es; [|done..].
  destruct Hw as [Hok' _], Hi as [[L' Hc'] Hp']. cbn [advance]. unfold advance. apply (IH _ L'); [exact Hok'|by apply keeping_advance].
Qed.

(** The callbacks at the end of the buffer. *)
Lemma wpi_finish L c : keeping 0 L kinds c -> wpi (finish settings data) (fun _ c' => keeping 0 L [] c' /\ c_pos c' = c_pos c /\ c_regs c' = c_regs c) c.
Proof.
  intros Hc. unfold finish, kinds in *.
  do 5 (apply wpi_bind; eapply wpi_mono; [eapply noclear_ok; [|exact Hc]; set_solver|]; clear Hc; intros ? ?c (Hc & ?Hp & ?Hr & _)).
  unfold CALLBACK_NOCLEAR, wpi. assert (on_data settings d_url = None) as -> by (by destruct server). destruct (get_mark _ _); (split_and!; [done|congruence..]).
Qed.

(** A request that more bytes may belong to. *)
Definition open_request (pb b : Z) (p : http_parser) (q : easy_http_request_t) : Prop :=
  parser_ok p /\ fine pb b q /\ (value_state (r_state (regs p)) = true -> has_last q).

Lemma execute_ok p q s : data <> [] -> open_request base base p q ->
  match http_parser_execute settings data p (Some (q, s)) with
  | Returned n p' u => exists q' s', u = Some (q', s') /\
      (http_parser_has_error p' = true \/
       (n < length data)%nat /\ message_complete_called q' = true /\ fine base (base + Z.of_nat n + 1) (set_called (message_begin_called q') (header_complete_called q') false q') \/
       n = length data /\ open_request base (base + Z.of_nat n) p' q')
  | Faulted fl fs => fl = Out_of_bounds /\ over_read (method fs) = true
  end.
Proof.
  intros Hd (Hp & Hf & Hl). pose proof (execute_safe_nonempty settings data p (Some (q, s)) Hp Hd) as Hsafe. rewrite execute_eq in * by done.
  set (c := Conf (regs p) (fields p) (initial_marks (r_state (regs p))) 0 (Some (q, s))) in *.
  assert (keeping 0 (bool_decide (has_last q)) kinds c) as Hc.
  { apply keeping_intro; [lia|by rewrite Z.add_0_r| |].
    - intros k a _ Ha. assert (a = 0%nat) as -> by (destruct k, (r_state (regs p)); cbn in Ha; congruence). split; [done|]. rewrite Z.add_0_r. by apply target_within.
    - case_bool_decide as E; [done|]. destruct (value_state (r_state (regs p))) eqn:Ev; [by destruct E; auto|]. split; [done|]. by destruct (r_state (regs p)). }
  pose proof (wpi_loop (length data) c _ (initial_conf_ok p _ Hp) Hc) as Hw. unfold mbind, M_bind in *. unfold wpi in Hw.
  destruct (execute_loop settings data (length data) c) as [[] c1|k c1|c1|fl c1]; cbn [leave] in *; [|destruct Hw as (? & q' & s' & ? & ? & ?); exists q', s'; split; [done|]; right; by left|destruct Hw as [[q' s'] ?]; exists q', s'; split; [done|by left]|done].
  destruct Hw as ([Hr _] & Hpos & L & Hc1). pose proof (wpi_finish L c1 Hc1) as Hw2. pose proof (wp_finish settings data c1 ltac:(lia)) as Hw3. unfold wpi, wp in Hw2, Hw3.
  destruct (finish settings data c1) as [[] c2|k c2|c2|fl c2]; cbn [leave] in *; [|destruct Hw2 as (? & q' & s' & ? & ? & ?); exists q', s'; split; [done|]; right; by left|destruct Hw2 as [[q' s'] ?]; exists q', s'; split; [done|by left]|done].
  destruct Hw2 as ((_ & q' & s' & Hu & Hf' & _ & HL) & Hpos2 & Er). exists q', s'. split; [done|]. right; right. split; [done|].
  destruct Hw3 as [Er' Ef]. rewrite Hpos2, Hpos, Z.add_0_r in Hf'. split_and!; [|done|].
  - unfold parser_ok. cbn [regs fields]. rewrite Er, Ef. by apply regs_ok_stored.
  - cbn [regs r_state]. intros Hv. destruct L; [done|]. destruct HL as [HL _]. congruence.
Qed.
End steps.

(** ** Decoding *)
Section decoding.
Context {S : Type} `{PoolOps S}.
Variable server : bool.

(** The pool with a note of whether it refused an allocation: where it refuses one the
    run goes on, as if there had been memory. *)
Definition noting : PoolOps (S * bool) := {|
  p_alloc s n := match p_alloc (fst s) n with (Some a, t) => (Some a, (t, snd s)) | (None, t) => (Some 0, (t, true)) end;
  p_room s := p_room (fst s); p_inv s := p_inv (fst s) |}.
Definition unrefused (u : option (easy_http_request_t * (S * bool))) : option (easy_http_request_t * S) :=
  x ← u; if snd (snd x) : bool then None else Some (fst x, fst (snd x)).

Definition settings_of (input : list Z) (base : Z) := if server then easy_http_request_settings (S := S) input base else easy_http_response_settings input base.
Definition noting_settings (input : list Z) (base : Z) := if server then @easy_http_request_settings _ noting input base else @easy_http_response_settings _ noting input base.

Lemma unrefused_bind u (f : easy_http_request_t * S -> option (easy_http_request_t * S)) g :
  (forall p s (b : bool), (if b then None else f (p, s)) = unrefused (g (p, (s, b)))) -> unrefused u ≫= f = unrefused (u ≫= g).
Proof. intros E. destruct u as [[p [s b]]|]; [|done]. cbn. rewrite <- E. by destruct b. Qed.

Lemma field_agrees base f a l u : easy_http_request_on_header_field base f a l (unrefused u) = viewed unrefused (@easy_http_request_on_header_field _ noting base f a l u).
Proof.
  unfold easy_http_request_on_header_field, viewed. cbn [fst snd]. f_equal. apply unrefused_bind. intros p s b. cbn [fst snd]. destruct (last_was_value p).
  - unfold new_header. cbn [p_alloc noting fst snd]. destruct (p_alloc s sizeof_easy_http_header_t) as [[x|] t]; cbn [mbind option_bind fst snd last_header headers set_headers]; rewrite lookup_app_r, Nat.sub_diag by lia; by destruct b.
  - cbn [mbind option_bind fst snd]. destruct (last_header p) as [i|]; [|by destruct b]. cbn [mbind option_bind]. destruct (headers p !! i); [|by destruct b]. by destruct b.
Qed.
Lemma value_agrees input base f a l u : easy_http_request_on_header_value input base f a l (unrefused u) = viewed unrefused (@easy_http_request_on_header_value _ input base f a l u).
Proof.
  unfold easy_http_request_on_header_value, viewed. cbn [fst snd]. f_equal. apply unrefused_bind. intros p s b. cbn [fst snd]. destruct (last_header p) as [i|]; [|by destruct b]. cbn [mbind option_bind].
  destruct (if negb (last_was_value p) then _ else _) as [t|]; [|by destruct b]. cbn [mbind option_bind]. destruct (headers p !! i); by destruct b.
Qed.

Lemma settings_agree input base : Agree (settings_of input base) (noting_settings input base) unrefused.
Proof.
  unfold settings_of, noting_settings. destruct server; (split; [intros []|..]); cbn; try done; try (intros f a l u; (apply field_agrees || apply value_agrees)).
  all: intros; unfold viewed, easy_http_request_on_fragment, easy_http_request_on_query_string, easy_http_request_on_path, easy_http_request_on_body; unfold easy_http_request_message_begin, easy_http_request_headers_complete, easy_http_request_message_complete; cbn [fst snd]; f_equal; apply unrefused_bind; intros p s b; by destruct b.
Qed.

Abbreviation decode := (if server then easy_http_server_on_decode else easy_http_client_on_decode).

Definition message_ok (m : easy_message_t S) : Prop :=
  match user_data m with
  | None => True
  | Some q => 0 <= parsed_byte q <= Z.of_nat (length (input m)) /\ open_request (parsed_byte q) (parsed_byte q) (parser q) q
  end.

(** The strings of a request. *)
Definition strings (q : easy_http_request_t) : list string :=
  str_path q :: str_query_string q :: str_fragment q :: str_body q :: concat (map (fun h => [name h; value h]) (headers q)).

(** A request decoded from the first [k] bytes. *)
Definition request_of (l : list Z) (q : easy_http_request_t) : Prop :=
  Forall (fun s => is_Some (text l s)) (strings q) /\ Forall (fun i => (i < length (headers q))%nat) (foreach (headers_in q)).

Lemma fine_strings pb b q l : fine pb b q -> b <= Z.of_nat (length l) -> request_of l q.
Proof.
  intros [H1 H2 H3 H4 H5 _ [_ H6] _ _] Hb. split; [|done]. assert (forall s, within b s -> is_Some (text l s)) as Ht.
  { intros s Hs. destruct (text_within l b s Hs Hb) as (x & E & _). by exists x. }
  unfold strings. repeat (constructor; [by apply Ht|]). clear H6. induction H5 as [|h hs [? ?] _ IH]; cbn; [done|]. constructor; [by apply Ht|]. constructor; [by apply Ht|done].
Qed.

(** The request a message is decoded into, and the pool. *)
Definition started (m : easy_message_t S) : option easy_http_request_t * S :=
  match user_data m with Some p => (Some p, pool m) | None => easy_http_request_create (pool m) (if server then HTTP_REQUEST else HTTP_RESPONSE) end.

(** The parser reads behind the end of a method's name. *)
Definition method_over_read (m : easy_message_t S) : Prop :=
  exists q s fs, started m = (Some q, s) /\
    http_parser_execute (settings_of (input m) (parsed_byte q)) (drop (Z.to_nat (parsed_byte q)) (input m)) (parser q) (Some (q, s)) = Faulted Out_of_bounds fs /\ over_read (method fs) = true.
(** On the way the pool refuses memory for a header. *)
Definition header_refused (m : easy_message_t S) : Prop :=
  exists q s n p q' t, started m = (Some q, s) /\
    http_parser_execute (noting_settings (input m) (parsed_byte q)) (drop (Z.to_nat (parsed_byte q)) (input m)) (parser q) (Some (q, (s, false))) = Returned n p (Some (q', (t, true))).

Lemma noting_memory (s : S * bool) : exists a s', @p_alloc _ noting s sizeof_easy_http_header_t = (Some a, s').
Proof. cbn. destruct (p_alloc (fst s) sizeof_easy_http_header_t) as [[a|] t]; by eexists _, _. Qed.

(** A run of the parser on the pool of a message. *)
Lemma execute_real input data base p q s : 0 <= base -> base + Z.of_nat (length data) <= Z.of_nat (length input) < 2 ^ 31 -> data <> [] -> open_request base base p q ->
  match http_parser_execute (settings_of input base) data p (Some (q, s)) with
  | Returned n p' (Some (q', s')) =>
      http_parser_has_error p' = true \/
       (n < length data)%nat /\ message_complete_called q' = true /\ fine base (base + Z.of_nat n + 1) (set_called (message_begin_called q') (header_complete_called q') false q') \/
       n = length data /\ open_request base (base + Z.of_nat n) p' q'
  | Returned n p' None => exists q' t, http_parser_execute (noting_settings input base) data p (Some (q, (s, false))) = Returned n p' (Some (q', (t, true)))
  | Faulted fl fs => fl = Out_of_bounds /\ over_read (method fs) = true
  end.
Proof.
  intros Hb Hin Hd Ho. pose proof (@execute_ok _ noting noting_memory server input data base Hb Hin p q (s, false) Hd Ho) as He. fold (noting_settings input base) in He.
  change (Some (q, s)) with (unrefused (Some (q, (s, false)))). rewrite (@execute_agrees _ _ _ _ _ (settings_agree input base)).
  destruct (http_parser_execute (noting_settings input base) data p (Some (q, (s, false)))) as [n p' u|fl fs]; [|done]. cbn [view_result]. destruct He as (q' & [t []] & -> & He); cbn; [by eexists _, _|done].
Qed.

Lemma fine_complete pb b q p k : fine pb b (set_called (message_begin_called q) (header_complete_called q) false q) -> parsed_byte q = pb /\ forall l, b <= Z.of_nat (length l) -> request_of l (set_keep_alive k (set_parsed_byte (b - 1) (set_parser p q))).
Proof. intros Hf. split; [by destruct Hf|]. intros l Hl. exact (fine_strings _ _ _ _ Hf Hl). Qed.

Lemma on_decode_ok m : message_ok m -> Z.of_nat (length (input m)) < 2 ^ 31 ->
  match decode m with
  | None => method_over_read m \/ header_refused m
  | Some (Some q, m') => user_data m' = None /\ status m' = status m /\ 0 < parsed_byte q + 1 <= Z.of_nat (length (input m)) /\ input m' = drop (Z.to_nat (parsed_byte q + 1)) (input m) /\
      request_of (take (Z.to_nat (parsed_byte q + 1)) (input m)) q
  | Some (None, m') => input m' = input m /\ (status m' = EASY_ERROR \/ status m' = status m /\ message_ok m')
  end.
Proof.
  intros Hm Hl.
  assert (decode m = on_decode (if server then HTTP_REQUEST else HTTP_RESPONSE) (if server then easy_http_request_settings else easy_http_response_settings) m) as -> by (by destruct server).
  unfold on_decode.
  assert (exists user s, started m = (user, s) /\
    match user with None => True | Some q => 0 <= parsed_byte q <= Z.of_nat (length (input m)) /\ open_request (parsed_byte q) (parsed_byte q) (parser q) q end) as (user & s & Est & Hu).
  { unfold message_ok, started in *. destruct (user_data m) as [q|]; [by exists (Some q), (pool m)|]. unfold easy_http_request_create. destruct (p_alloc _ _) as [[a|] s]; [|by exists None, s]. eexists (Some _), s. split; [done|]. cbn [parsed_byte parser]. split; [lia|].
    split_and!; [|constructor; cbn; try done; try by apply within_none|by destruct server].
    unfold parser_ok, regs_ok, HTTP_MAX_HEADER_SIZE. destruct server; cbn; split_and!; done || lia. }
  fold (started m). rewrite Est. destruct user as [q|]; [|by cbn; auto]. destruct Hu as [Hpb Ho].
  rewrite wraps_small by lia. destruct (Z.leb_spec (Z.of_nat (length (input m)) - parsed_byte q) 0); [cbn; split; [done|]; right; split; [done|]; by split|].
  pose proof (execute_real (input m) (drop (Z.to_nat (parsed_byte q)) (input m)) (parsed_byte q) (parser q) q s ltac:(lia)) as He. rewrite length_drop in He. specialize (He ltac:(lia)).
  assert (drop (Z.to_nat (parsed_byte q)) (input m) <> []) as Hne by (intros E; apply (f_equal length) in E; rewrite length_drop in E; cbn in E; lia). specialize (He Hne Ho).
  assert ((if server then easy_http_request_settings else easy_http_response_settings) (input m) (parsed_byte q) = settings_of (input m) (parsed_byte q)) as -> by (unfold settings_of; by destruct server).
  destruct (http_parser_execute (settings_of _ _) _ _ _) as [n p u|fl fs] eqn:Ex; [|destruct He as [-> Ho']; left; by exists q, s, fs].
  destruct u as [[q' s']|]; [|destruct He as (q' & t & He); right; by exists q, s, n, p, q', t].
  destruct (http_parser_has_error p) eqn:Ee; [by cbn; auto|]. assert (n <= length (input m) - Z.to_nat (parsed_byte q))%nat as Hn by (destruct He as [He|[(Hlt & _)|(-> & _)]]; [done|lia..]).
  rewrite (wraps_small 32 (Z.of_nat n)) by lia. destruct (Z.ltb_spec (Z.of_nat n) 0); [lia|]. cbn [orb]. destruct He as [He|[(Hlt & Hc & Hf)|(-> & Ho')]]; [done|..].
  - destruct (fine_complete _ _ _ p (http_should_keep_alive (fields p)) Hf) as [Epb Hreq]. cbn [message_complete_called set_parsed_byte set_parser]. rewrite Hc. cbn [negb]. cbn [parsed_byte set_parser set_keep_alive set_parsed_byte user_data status input].
    rewrite Epb, wraps_small by lia. split_and!; [done|done|lia|lia|done|]. replace (parsed_byte q + Z.of_nat n) with (parsed_byte q + Z.of_nat n + 1 - 1) at 2 by lia. apply Hreq. rewrite length_take. lia.
  - destruct Ho' as (Hp' & Hf & Hv). cbn [message_complete_called set_parsed_byte set_parser]. rewrite (fine_open _ _ _ Hf). cbn [negb input status user_data]. split; [done|]. right. split; [done|]. unfold message_ok. cbn [user_data input parsed_byte set_parsed_byte set_parser parser].
    rewrite (fine_parsed _ _ _ Hf), wraps_small by lia. split; [lia|]. split_and!; [done| |done]. by destruct Hf.
Qed.


(** Bytes of a message arrive. *)
Definition arrive (bytes : list Z) (m : easy_message_t S) : easy_message_t S := Message (input m ++ bytes) (user_data m) (status m) (wait_close m) (pool m).

Lemma message_ok_arrive bytes m : message_ok m -> message_ok (arrive bytes m).
Proof. unfold message_ok, arrive. cbn [user_data input]. destruct (user_data m); [|done]. rewrite length_app. intros [? ?]. split; [lia|done]. Qed.

(** Decoding after each read, until there is a request or an error. *)
Fixpoint receive (reads : list (list Z)) (m : easy_message_t S) : option (option easy_http_request_t * easy_message_t S) :=
  match reads with
  | [] => Some (None, m)
  | bytes :: reads =>
      r ← decode (arrive bytes m);
      match fst r with
      | Some _ => Some r
      | None => if status (snd r) =? EASY_ERROR then Some r else receive reads (snd r)
      end
  end.

Lemma receive_ok reads : forall m, message_ok m -> status m = 0 -> Z.of_nat (length (input m ++ concat reads)) < 2 ^ 31 ->
  match receive reads m with
  | None => exists seen bytes later m', reads = seen ++ bytes :: later /\ receive seen m = Some (None, m') /\ (method_over_read (arrive bytes m') \/ header_refused (arrive bytes m'))
  | Some (Some q, m') => exists seen later l, reads = seen ++ later /\ input m ++ concat seen = l ++ input m' /\ l <> [] /\ request_of l q
  | Some (None, m') => status m' = EASY_ERROR \/ input m' = input m ++ concat reads /\ message_ok m'
  end.
Proof.
  induction reads as [|bytes reads IH]; intros m Hm Hs Hl; cbn [receive concat].
  { right. by rewrite app_nil_r. }
  cbn [concat] in Hl. rewrite app_assoc in Hl. pose proof (on_decode_ok (arrive bytes m) (message_ok_arrive bytes m Hm)) as Hd. cbn [arrive input status] in Hd.
  specialize (Hd ltac:(rewrite length_app in Hl; lia)). destruct (decode (arrive bytes m)) as [[[q|] m']|] eqn:Ed; cbn [mbind option_bind fst snd]; [| |by exists [], bytes, reads, m].
  - destruct Hd as (_ & _ & Hk & Hi & Hr). exists [bytes], reads, (take (Z.to_nat (parsed_byte q + 1)) (input m ++ bytes)). cbn [app concat]. rewrite app_nil_r, Hi, take_drop. split_and!; [done|done| |done].
    intros E. apply (f_equal length) in E. rewrite length_take in E. cbn in E. lia.
  - destruct Hd as [Hi Hd]. destruct (Z.eqb_spec (status m') EASY_ERROR); [by left|]. destruct Hd as [Hd|[Hst Hok]]; [done|]. specialize (IH m' Hok ltac:(congruence)). rewrite Hi in IH. specialize (IH Hl).
    destruct (receive reads m') as [[[q|] m'']|].
    + destruct IH as (seen & later & l & -> & El & ? & ?). exists (bytes :: seen), later, l. cbn [app concat]. rewrite app_assoc. by split_and!.
    + by rewrite app_assoc.
    + destruct IH as (seen & bytes' & later & m1 & -> & Er & Hf). exists (bytes :: seen), bytes', later, m1. split; [done|]. split; [|done]. cbn [receive]. rewrite Ed. cbn [mbind option_bind fst snd].
      rewrite (proj2 (Z.eqb_neq _ _)); [done|]. rewrite Hst. cbn [arrive status]. by rewrite Hs.
Qed.

(** C21 (safety).  Whatever arrives for a message, less than 2^31 bytes in all, and
    however it is cut into reads, decoding a request or a response ends with a request
    whose strings, and the names and values of whose headers, lie in the bytes it was
    decoded from, these bytes being taken away; or with an error; or it waits for more.
    An access outside of an object happens in two ways only: in the read at which it
    happens, the parser reads behind the name of a method, or the pool has refused
    memory for a header, which is not checked. *)
Theorem http_decode_safe s w reads : Z.of_nat (length (concat reads)) < 2 ^ 31 ->
  match receive reads (Message [] None 0 w s) with
  | None => exists seen bytes later m, reads = seen ++ bytes :: later /\ receive seen (Message [] None 0 w s) = Some (None, m) /\ (method_over_read (arrive bytes m) \/ header_refused (arrive bytes m))
  | Some (Some q, m) => exists seen later l, reads = seen ++ later /\ concat seen = l ++ input m /\ l <> [] /\ request_of l q
  | Some (None, m) => status m = EASY_ERROR \/ input m = concat reads /\ message_ok m
  end.
Proof. intros Hl. exact (receive_ok reads (Message [] None 0 w s) I eq_refl Hl). Qed.
End decoding.

(** ** Examples *)

Definition line (s : String.string) : list Z := bytes_of s ++ [13; 10].

(** A request and the beginning of the next one, in three reads. *)
Definition demo_get : list (list Z) := [line "GET /a?b HTTP/1.1" ++ bytes_of "Ho"; line "st: x" ++ [13]; [10] ++ bytes_of "GET"].

Abbreviation demo_result := (@receive Z bump true demo_get (Message [] None 0 false 0)).

Lemma http_decode_safe_witness : exists q m seen later l, demo_result = Some (Some q, m) /\ demo_get = seen ++ later /\ concat seen = l ++ input m /\ request_of l q /\
  input m = bytes_of "GET" /\ str_path q = EasyBuf.BufString 4 2 /\ str_query_string q = EasyBuf.BufString 7 1.
Proof.
  pose proof (@http_decode_safe Z bump true 0 false demo_get ltac:(reflexivity)) as H.
  assert ((r ← demo_result; q ← fst r; Some (input (snd r), str_path q, str_query_string q)) = Some (bytes_of "GET", EasyBuf.BufString 4 2, EasyBuf.BufString 7 1)) as E by (vm_compute; reflexivity).
  revert H E. generalize demo_result as r. intros [[[q|] m]|] H E; [|discriminate E..]. injection E as Ei Ep Eq. destruct H as (seen & later & l & Er & Ec & _ & Hr). exists q, m, seen, later, l. by split_and!.
Defined.

(** A request whose body comes in chunks, with the text of its body. *)
Definition demo_chunked : list Z :=
  line "POST / HTTP/1.1" ++ line "Transfer-Encoding: chunked" ++ line "" ++ line "5" ++ line "hello" ++ line "6" ++ line " world" ++ line "0" ++ line "".

(** A header without a colon before one with. *)
Definition demo_no_colon : list Z := line "GET / HTTP/1.1" ++ line "Foo" ++ line "Bar: y" ++ line "".

Definition decoded (bytes : list Z) : option (list (option (list Z))) :=
  r ← @easy_http_server_on_decode Z bump (Message bytes None 0 false 0); q ← fst r;
  Some (map (text bytes) (str_body q :: map name (headers q))).

(** A string of a request is taken to be contiguous: the start of what
    came before is computed from its length.  A body in chunks is not contiguous: of
    "hello" and " world" the handler is given eleven bytes that end with " world" but
    begin inside the framing of the chunks, and likewise a header line without a
    colon makes the name of the next header begin inside that line. *)
Example http_strings_contiguous :
  decoded demo_chunked = Some [Some ([13; 10] ++ line "6" ++ bytes_of " world"); Some (bytes_of "Transfer-Encoding")] /\
  decoded demo_no_colon = Some [Some []; Some (bytes_of "o" ++ [13; 10] ++ bytes_of "Bar")].
Proof. vm_compute. split; reflexivity. Qed.

End HttpHandlerSafety.
