(* ===== verification/HttpHandlerEncode.v ===== *)
(** * HTTP requests and responses: writing them

    easy_http_server_on_encode and easy_http_client_on_encode of
    packet/http/easy_http_handler.c.  Both compute the size of the header, make a
    buffer of that size, and write into it with snprintf, which stops at the end of
    the buffer but returns how much it would have written, and with memcpy, which
    does not stop. *)

From Stdlib Require Import Ascii String ZArith Lia.
From stdpp Require Import base list numbers option.
From S2P Require Import Prelude CString EasyPool HttpHandler.

Local Open Scope Z_scope.

Module HttpHandlerEncode.
Import EasyPool.

(** ** Buffers *)

(** The memory of a buffer from [pos] to [end], and the offset of [last]. *)
Record buffer := Buffer { mem : list Z; last : nat }.

(** [b->last += snprintf(b->last, b->end - b->last, ...)] of a formatted text.  Behind
    the end the size is that of a huge object. *)
Definition snprintf (text : list Z) (b : buffer) : option buffer :=
  if (last b <=? length (mem b))%nat then
    match (length (mem b) - last b)%nat with
    | O => Some (Buffer (mem b) (last b + length text))
    | S k => m ← puts (mem b) (last b) (take k text ++ [0]); Some (Buffer m (last b + length text))
    end
  else None.

(** [memcpy(b->last, ...)], then [b->last] is moved. *)
Definition memcpy (bytes : list Z) (b : buffer) : option buffer :=
  m ← puts (mem b) (last b) bytes; Some (Buffer m (last b + length bytes)).

(** A string: the memory it points to, and its length. *)
Record view := View { points_to : list Z; len : Z }.

Definition CRLF : list Z := [13; 10].

(** The headers of a table in the order of [easy_http_header_hash_foreach]. *)
Abbreviation header_list := (list (view * view)).

Definition add_sizes (l : header_list) (size : Z) : Z := fold_left (fun size h => i32 (i32 (size + (len (fst h) + 2)) + (len (snd h) + 2))) l size.

(** The [len] bytes of a string, and the C string it points to. *)
Definition view_bytes (v : view) : option (list Z) := gets (points_to v) 0 (Z.to_nat (len v)).
Definition c_string (v : view) : option (list Z) := cstr (points_to v).

Fixpoint put_headers (l : header_list) (b : buffer) : option buffer :=
  match l with
  | [] => Some b
  | (n, v) :: l =>
      n ← view_bytes n; b ← memcpy n b; b ← memcpy [58; 32] b;
      v ← view_bytes v; b ← memcpy v b; b ← memcpy CRLF b; put_headers l b
  end.

(** What the socket is given of a buffer. *)
Definition taken (b : buffer) : option (list Z) := gets (mem b) 0 (last b).

Section encode.
Context {S : Type} `{PoolOps S}.
(** What memory holds that was just allocated. *)
Variable junk : nat -> Z.

Definition sizeof_easy_buf_t : Z := 64.

Definition easy_buf_create (s : S) (size : Z) : option buffer * S :=
  match p_alloc s sizeof_easy_buf_t with
  | (None, s) => (None, s)
  | (Some _, s) =>
      let size := if u32 size =? 0 then u32 (p_room s) else u32 size in
      match p_alloc s size with
      | (None, s) => (None, s)
      | (Some _, s) => (Some (Buffer (map junk (seq 0 (Z.to_nat size))) 0), s)
      end
  end.

(** ** The server *)

(** The half of easy_http_request_t that is answered with. *)
Record response := Response {
  status_line : view; content_type : view; headers_out : header_list; output : list (list Z); content_length : Z;
  is_raw_header : bool; http_major : Z; http_minor : Z; keep_alive : bool }.

Definition literal (s : String.string) : view := View (bytes_of s ++ [0]) (Z.of_nat (length (bytes_of s))).

(** [None]: an access outside of an object; else the code, and the buffers added to
    the output of the connection. *)
Definition easy_http_server_on_encode (s : S) (p : response) : option (Z * S * list (list Z)) :=
  if is_raw_header p then Some (EASY_OK, s, output p)
  else
    let status_line := if len (status_line p) =? 0 then literal "200 OK" else status_line p in
    let content_type := if len (content_type p) =? 0 then literal "text/html" else content_type p in
    let size := i32 (add_sizes (headers_out p) (i32 (len status_line + len content_type)) + 128) in
    let content_length := if content_length p =? -1 then fold_left (fun n b => i64 (n + i32 (Z.of_nat (length b)))) (output p) 0 else content_length p in
    match easy_buf_create s size with
    | (None, s) => Some (EASY_ERROR, s, [])
    | (Some b, s) =>
        status ← c_string status_line;
        b ← snprintf (bytes_of "HTTP/" ++ sdec (http_major p) ++ bytes_of "." ++ sdec (http_minor p) ++ bytes_of " " ++ status ++ CRLF) b;
        b ← put_headers (headers_out p) b;
        type ← c_string content_type;
        b ← snprintf (bytes_of "Content-Type: " ++ type ++ CRLF) b;
        b ← snprintf (bytes_of "Content-Length: " ++ sdec content_length ++ CRLF) b;
        b ← snprintf (bytes_of "Connection: " ++ (if keep_alive p then bytes_of "keep-alive" else bytes_of "close") ++ CRLF) b;
        b ← memcpy CRLF b;
        bytes ← taken b;
        Some (EASY_OK, s, bytes :: output p)
    end.

(** ** The client *)

(** [easy_http_packet_t]; [None] is a null pointer, whose length is zero. *)
Record packet := Packet {
  str_path : option view; str_query_string : option view; p_headers_out : header_list; p_output : list (list Z);
  p_is_raw_header : bool; post_method : bool; p_keep_alive : bool }.

Definition len_of (v : option view) : Z := match v with Some v => len v | None => 0 end.
(** [ptr ? ptr : default] *)
Definition c_string_or (default : list Z) (v : option view) : option (list Z) := match v with Some v => c_string v | None => Some default end.

Definition easy_http_client_on_encode (s : S) (p : packet) : option (Z * S * list (list Z)) :=
  if p_is_raw_header p then Some (EASY_OK, s, p_output p)
  else
    let length := if post_method p then len_of (str_query_string p) else 0 in
    let size := i32 (add_sizes (p_headers_out p) (i32 (len_of (str_path p) + len_of (str_query_string p))) + 64) in
    match easy_buf_create s size with
    | (None, s) => Some (EASY_ERROR, s, [])
    | (Some b, s) =>
        url ← c_string_or (bytes_of "/") (str_path p);
        query ← c_string_or [] (str_query_string p);
        b ← (if post_method p then snprintf (bytes_of "POST " ++ url ++ bytes_of " HTTP/1.1" ++ CRLF) b
             else snprintf (bytes_of "GET " ++ url ++ (match str_query_string p with Some _ => bytes_of "?" | None => bytes_of " " end) ++ query ++ bytes_of " HTTP/1.1" ++ CRLF) b);
        b ← put_headers (p_headers_out p) b;
        b ← (if 0 <? length then snprintf (bytes_of "Content-Length: " ++ sdec length ++ CRLF) b else Some b);
        b ← (if p_keep_alive p then snprintf (bytes_of "Connection: keep-alive" ++ CRLF) b else Some b);
        b ← memcpy CRLF b;
        b ← (if 0 <? length then snprintf query b else Some b);
        bytes ← taken b;
        Some (EASY_OK, s, bytes :: p_output p)
    end.
End encode.

(** ** Writing into a buffer *)

(** A buffer of [n] bytes of which the first have been written. *)
Definition written (n : nat) (out : list Z) (b : buffer) : Prop := exists rest, mem b = out ++ rest /\ length (mem b) = n /\ last b = length out.

Lemma puts_written n out b bs : written n out b -> (length out + length bs <= n)%nat ->
  exists rest, puts (mem b) (last b) bs = Some (out ++ bs ++ rest) /\ length (out ++ bs ++ rest) = n.
Proof.
  intros (rest & E & Hl & ->) Hn. rewrite puts_some by lia. rewrite E in *. rewrite take_app_length. eexists. split; [done|]. rewrite !length_app, length_drop. rewrite length_app in *. lia.
Qed.

Lemma memcpy_fits n out b bs : written n out b -> (length out + length bs <= n)%nat -> exists b', memcpy bs b = Some b' /\ written n (out ++ bs) b'.
Proof.
  intros Hb Hn. destruct (puts_written n out b bs Hb Hn) as (rest & E & Hl). unfold memcpy. rewrite E. eexists. split; [done|]. exists rest. cbn. rewrite <- app_assoc. split_and!; [done|done|]. rewrite length_app. destruct Hb as (_ & _ & _ & ->). done.
Qed.

Lemma snprintf_fits n out b t : written n out b -> (length out + length t < n)%nat -> exists b', snprintf t b = Some b' /\ written n (out ++ t) b'.
Proof.
  intros Hb Hn. destruct (puts_written n out b (t ++ [0]) Hb) as (rest & E & Hl); [rewrite length_app; cbn; lia|]. unfold snprintf. destruct Hb as (r & Em & Hm & Hlast). rewrite Hm, Hlast.
  destruct (Nat.leb_spec (length out) n); [|lia]. destruct (n - length out)%nat as [|k] eqn:Ek; [lia|]. rewrite take_ge by lia. rewrite <- Hlast, E. eexists. split; [done|]. exists ([0] ++ rest). cbn [mem last]. rewrite <- !app_assoc in *. split_and!; [done|done|]. rewrite length_app. lia.
Qed.

(** A text that does not fit loses its end, and its last place becomes a zero. *)
Lemma snprintf_cut n out b t : written n out b -> (length out < n <= length out + length t)%nat ->
  exists b', snprintf t b = Some b' /\ mem b' = out ++ take (n - length out - 1) t ++ [0] /\ last b' = (length out + length t)%nat /\ length (mem b') = n.
Proof.
  intros Hb Hn. set (k := (n - length out - 1)%nat). assert (length (take k t ++ [0]) = S k) as Ek by (rewrite length_app, length_take; cbn; unfold k; lia).
  destruct (puts_written n out b (take k t ++ [0]) Hb) as (rest & E & Hl); [rewrite Ek; unfold k; lia|]. unfold snprintf. destruct Hb as (r & Em & Hm & Hlast). rewrite Hm.
  rewrite Hlast in E |- *. destruct (Nat.leb_spec (length out) n); [|lia]. replace (n - length out)%nat with (S k) by (unfold k; lia). rewrite E. eexists. split; [done|]. cbn [mem last].
  assert (rest = []) as -> by (rewrite !length_app in Hl; rewrite length_app in Ek; apply nil_length_inv; unfold k in *; lia). rewrite app_nil_r in *. split_and!; done.
Qed.

Lemma taken_written n out b : written n out b -> taken b = Some out.
Proof.
  intros (rest & E & Hl & Hlast). unfold taken, gets. rewrite Hlast, E. rewrite length_app. destruct (Nat.leb_spec (0 + length out) (length out + length rest)); [|lia]. by rewrite drop_0, take_app_length.
Qed.

(** ** Texts *)

(** A string as a text, with or without an end. *)
Definition spans (v : view) (t : list Z) : Prop := len v = Z.of_nat (length t) /\ exists rest, points_to v = t ++ rest.
Definition says (v : view) (t : list Z) : Prop := len v = Z.of_nat (length t) /\ nonzero t /\ exists rest, points_to v = t ++ 0 :: rest.

Lemma view_bytes_spans v t : spans v t -> view_bytes v = Some t.
Proof.
  intros [El [rest E]]. unfold view_bytes, gets. rewrite El, Nat2Z.id, E, length_app. destruct (Nat.leb_spec (0 + length t) (length t + length rest)); [|lia]. by rewrite drop_0, take_app_length.
Qed.

Lemma c_string_says v t : says v t -> c_string v = Some t.
Proof. intros (_ & Hn & rest & E). unfold c_string. rewrite E. by apply cstr_app. Qed.

Lemma nonzero_check l : forallb (fun b => negb (b =? 0)) l = true -> nonzero l.
Proof. unfold nonzero. induction l as [|b l IH]; [constructor|]. cbn. rewrite andb_true_iff. intros [Hb Hl]. constructor; [lia|by apply IH]. Qed.

Lemma literal_says s : nonzero (bytes_of s) -> says (literal s) (bytes_of s).
Proof. intros Hn. split; [done|]. split; [done|]. by exists []. Qed.

Abbreviation texts := (list (list Z * list Z)).
Definition header_text (h : list Z * list Z) : list Z := fst h ++ [58; 32] ++ snd h ++ CRLF.
Definition headers_text (hs : texts) : list Z := concat (map header_text hs).
Definition spanning (l : header_list) (hs : texts) : Prop := Forall2 (fun v t => spans (fst v) (fst t) /\ spans (snd v) (snd t)) l hs.

Lemma add_sizes_eq l hs size : spanning l hs -> 0 <= size -> size + Z.of_nat (length (headers_text hs)) < 2 ^ 31 -> add_sizes l size = size + Z.of_nat (length (headers_text hs)).
Proof.
  intros Hs. revert size. induction Hs as [|[n v] [tn tv] l hs [[En _] [Ev _]] _ IH]; intros size H0 Hl; [cbn; lia|]. unfold headers_text, header_text in *. cbn [map concat fst snd] in *. rewrite !length_app in *. cbn [length CRLF] in *.
  unfold add_sizes in *. cbn [fold_left fst snd]. rewrite En, Ev. rewrite (wraps_small 32 (size + _)) by lia. rewrite wraps_small by lia. rewrite IH by lia. lia.
Qed.

Lemma put_headers_fits n l hs : spanning l hs -> forall out b, written n out b -> (length out + length (headers_text hs) <= n)%nat -> exists b', put_headers l b = Some b' /\ written n (out ++ headers_text hs) b'.
Proof.
  induction 1 as [|[n0 v0] [tn tv] l hs [Hn Hv] _ IH]; intros out b Hb Hl; [exists b; by rewrite app_nil_r|]. unfold headers_text, header_text in *. cbn [map concat fst snd] in *. rewrite !length_app in Hl. cbn [length CRLF] in Hl.
  cbn [put_headers]. rewrite (view_bytes_spans _ _ Hn), (view_bytes_spans _ _ Hv). cbn [mbind option_bind].
  destruct (memcpy_fits n out b tn Hb ltac:(lia)) as (b1 & -> & H1). cbn [mbind option_bind]. destruct (memcpy_fits n _ b1 [58; 32] H1) as (b2 & -> & H2); [rewrite length_app; cbn; lia|]. cbn [mbind option_bind].
  destruct (memcpy_fits n _ b2 tv H2) as (b3 & -> & H3); [rewrite !length_app; cbn [length CRLF]; lia|]. cbn [mbind option_bind]. destruct (memcpy_fits n _ b3 CRLF H3) as (b4 & -> & H4); [rewrite !length_app; cbn [length CRLF]; lia|]. cbn [mbind option_bind].
  destruct (IH _ b4 H4) as (b' & -> & Hb'); [rewrite !length_app; cbn [length CRLF]; lia|]. exists b'. split; [done|]. rewrite <- !app_assoc in *. exact Hb'.
Qed.

Lemma sdec_small n k : 0 <= n < 10 ^ Z.of_nat k -> n < 2 ^ 64 -> (1 <= k)%nat -> (length (sdec n) <= k)%nat.
Proof. intros Hn H64 Hk. unfold sdec. destruct (Z.ltb_spec n 0); [lia|]. pose proof (udec_length n (Z.of_nat k) ltac:(lia) ltac:(lia) ltac:(lia)). lia. Qed.

Section encoding.
Context {S : Type} `{PoolOps S}.
Variable junk : nat -> Z.

Lemma create_written (s : S) size : 0 < size < 2 ^ 31 ->
  match easy_buf_create junk s size with
  | (Some b, _) => written (Z.to_nat size) [] b
  | (None, _) => exists s n, fst (p_alloc s n) = None
  end.
Proof.
  intros Hs. unfold easy_buf_create. destruct (p_alloc s sizeof_easy_buf_t) as [[a|] s1] eqn:E1; [|exists s, sizeof_easy_buf_t; by rewrite E1]. rewrite wrapu_small by lia.
  destruct (Z.eqb_spec size 0); [lia|]. destruct (p_alloc s1 size) as [[a2|] s2] eqn:E2; [|exists s1, size; by rewrite E2]. eexists. cbn. split_and!; [done| |done]. by rewrite length_map, length_seq.
Qed.

(** ** Responses *)

Definition connection_text (keep : bool) : list Z := bytes_of "Connection: " ++ (if keep then bytes_of "keep-alive" else bytes_of "close") ++ CRLF.

Definition response_text (major minor : Z) (status : list Z) (hs : texts) (type : list Z) (n : Z) (keep : bool) : list Z :=
  (bytes_of "HTTP/" ++ sdec major ++ bytes_of "." ++ sdec minor ++ bytes_of " " ++ status ++ CRLF) ++ headers_text hs ++
  (bytes_of "Content-Type: " ++ type ++ CRLF) ++ (bytes_of "Content-Length: " ++ sdec n ++ CRLF) ++ connection_text keep ++ CRLF.

(** A string, or nothing and the default. *)
Definition says_or (default : String.string) (v : view) (t : list Z) : Prop := len v = 0 /\ t = bytes_of default \/ says v t /\ t <> [].

Lemma says_or_eq default v t : nonzero (bytes_of default) -> says_or default v t -> let w := if len v =? 0 then literal default else v in c_string w = Some t /\ len w = Z.of_nat (length t).
Proof.
  intros Hd [[E ->]|[Ht Hne]]; cbv zeta.
  - rewrite E. cbn [Z.eqb]. split; [|done]. by apply c_string_says, literal_says.
  - pose proof Ht as [El _]. destruct (Z.eqb_spec (len v) 0) as [E0|_]; [destruct t; [done|cbn in El; lia]|]. split; [by apply c_string_says|done].
Qed.

Lemma body_length bufs : Z.of_nat (length (concat bufs)) < 2 ^ 31 -> fold_left (fun n (b : list Z) => i64 (n + i32 (Z.of_nat (length b)))) bufs 0 = Z.of_nat (length (concat bufs)).
Proof.
  enough (forall n, 0 <= n -> n + Z.of_nat (length (concat bufs)) < 2 ^ 31 -> fold_left (fun n (b : list Z) => i64 (n + i32 (Z.of_nat (length b)))) bufs n = n + Z.of_nat (length (concat bufs))) as Hgo by (intros; by rewrite Hgo by lia).
  induction bufs as [|b bufs IH]; intros n Hn Hl; [cbn; lia|]. cbn [fold_left concat] in *. rewrite length_app in *. rewrite (wraps_small 32) by lia. rewrite (wraps_small 64) by lia. rewrite IH by lia. lia.
Qed.

Ltac text_bound := rewrite ?length_app;
  repeat match goal with |- context [length (bytes_of ?s)] => let n := eval vm_compute in (length (bytes_of s)) in change (length (bytes_of s)) with n end; cbn [length CRLF]; lia.
(** One more text that fits. *)
Tactic Notation "fits" ident(b) ident(Hb) := match goal with
  | W : written ?n _ ?b0 |- context [snprintf ?t ?b0] => destruct (snprintf_fits n _ b0 t W) as (b & -> & Hb); [text_bound|]; clear W; cbn [mbind option_bind]
  | W : written ?n _ ?b0 |- context [memcpy ?t ?b0] => destruct (memcpy_fits n _ b0 t W) as (b & -> & Hb); [text_bound|]; clear W; cbn [mbind option_bind]
  | W : written ?n _ ?b0, Hs : spanning ?l ?hs |- context [put_headers ?l ?b0] => destruct (put_headers_fits n l hs Hs _ b0 W) as (b & -> & Hb); [text_bound|]; clear W; cbn [mbind option_bind]
  end.

(** C22 (functional).  When the strings of a response are what their lengths say and
    version and length are numbers as the parser and the library give them, the
    buffer made for its header has room for all of it: the answer is exactly the
    header and then the buffers of the body, or EASY_ERROR, for which there is no
    reason as long as there is memory. *)
Theorem easy_http_server_on_encode_spec s p status type hs n :
  is_raw_header p = false -> says_or "200 OK" (status_line p) status -> says_or "text/html" (content_type p) type -> spanning (headers_out p) hs ->
  0 <= http_major p <= 999 -> 0 <= http_minor p <= 999 ->
  (content_length p = n /\ 0 <= n < 2 ^ 63 \/ content_length p = -1 /\ n = Z.of_nat (length (concat (output p))) /\ n < 2 ^ 31) ->
  Z.of_nat (length status + length type + length (headers_text hs)) + 128 < 2 ^ 31 ->
  exists rc s' out, easy_http_server_on_encode junk s p = Some (rc, s', out) /\
    (rc = EASY_OK /\ out = response_text (http_major p) (http_minor p) status hs type n (keep_alive p) :: output p \/
     rc = EASY_ERROR /\ out = [] /\ exists s n, fst (p_alloc s n) = None).
Proof.
  intros Hraw Hst Hty Hhs Hmaj Hmin Hn Hsize. unfold easy_http_server_on_encode. rewrite Hraw. destruct (says_or_eq _ _ _ (nonzero_check (bytes_of "200 OK") eq_refl) Hst) as [Es Els], (says_or_eq _ _ _ (nonzero_check (bytes_of "text/html") eq_refl) Hty) as [Et Elt].
  set (sl := if len (status_line p) =? 0 then _ else _) in *. set (ct := if len (content_type p) =? 0 then _ else _) in *. rewrite Els, Elt.
  assert (0 <= n < 2 ^ 63) as Hn63 by lia. assert ((if content_length p =? -1 then fold_left (fun n b => i64 (n + i32 (Z.of_nat (length b)))) (output p) 0 else content_length p) = n) as ->.
  { destruct Hn as [[-> ?]|(-> & -> & ?)]; [by destruct (Z.eqb_spec n (-1)); [lia|]|]. by apply body_length. }
  rewrite (wraps_small 32 (Z.of_nat _ + Z.of_nat _)) by lia. rewrite (add_sizes_eq _ hs) by (done || lia). rewrite wraps_small by lia.
  pose proof (create_written s (Z.of_nat (length status) + Z.of_nat (length type) + Z.of_nat (length (headers_text hs)) + 128) ltac:(lia)) as Hb. destruct (easy_buf_create junk s _) as [[b|] s']; [|eexists _, s', _; split; [done|]; by right].
  set (size := Z.to_nat _) in Hb. assert (size = length status + length type + length (headers_text hs) + 128)%nat as Esize by lia. clearbody size.
  pose proof (sdec_small (http_major p) 3 ltac:(lia) ltac:(lia) ltac:(lia)). pose proof (sdec_small (http_minor p) 3 ltac:(lia) ltac:(lia) ltac:(lia)). pose proof (sdec_small n 19 ltac:(lia) ltac:(lia) ltac:(lia)).
  rewrite Es. cbn [mbind option_bind].
  assert (length (if keep_alive p then bytes_of "keep-alive" else bytes_of "close") <= 10)%nat by (destruct (keep_alive p); vm_compute; lia).
  fits b1 W1. fits b2 W2. rewrite Et. cbn [mbind option_bind]. fits b3 W3. fits b4 W4. fits b5 W5. fits b6 W6. rewrite (taken_written _ _ _ W6). cbn [mbind option_bind].
  eexists EASY_OK, s', _. split; [done|]. left. split; [done|]. f_equal. unfold response_text, connection_text. by rewrite <- !app_assoc.
Qed.

(** ** Requests *)

(** The text of a request of the client; [sep] is between the path and the query. *)
Definition request_text (post : bool) (url sep query : list Z) (hs : texts) (keep : bool) : list Z :=
  (if post then bytes_of "POST " ++ url ++ bytes_of " HTTP/1.1" ++ CRLF else bytes_of "GET " ++ url ++ sep ++ query ++ bytes_of " HTTP/1.1" ++ CRLF) ++ headers_text hs ++
  (if post && negb (bool_decide (query = [])) then bytes_of "Content-Length: " ++ sdec (Z.of_nat (length query)) ++ CRLF else []) ++
  (if keep then bytes_of "Connection: keep-alive" ++ CRLF else []) ++ CRLF ++ (if post then query else []).

(** A packet with these strings; without a path the path is a slash, and without a
    query a space is written where the question mark would be. *)
Record request_is (p : packet) (url sep query : list Z) (hs : texts) : Prop := {
  r_raw : p_is_raw_header p = false;
  r_path : match str_path p with Some v => says v url | None => url = bytes_of "/" end;
  r_query : match str_query_string p with Some v => says v query /\ sep = bytes_of "?" | None => query = [] /\ sep = bytes_of " " end;
  r_headers : spanning (p_headers_out p) hs;
  r_size : Z.of_nat (length url + length query + length (headers_text hs)) + 64 < 2 ^ 31 }.

(** The slash of a request without a path is not counted. *)
Definition uncounted (p : packet) : nat := match str_path p with Some _ => 0 | None => 1 end.
(** The size of the buffer. *)
Definition request_size (p : packet) (url query : list Z) (hs : texts) : nat := length url - uncounted p + length query + length (headers_text hs) + 64.

(** All of a request but the query of a POST. *)
Definition request_head (post : bool) (url sep query : list Z) (hs : texts) (keep : bool) : list Z :=
  (if post then bytes_of "POST " ++ url ++ bytes_of " HTTP/1.1" ++ CRLF else bytes_of "GET " ++ url ++ sep ++ query ++ bytes_of " HTTP/1.1" ++ CRLF) ++ headers_text hs ++
  (if post && negb (bool_decide (query = [])) then bytes_of "Content-Length: " ++ sdec (Z.of_nat (length query)) ++ CRLF else []) ++
  (if keep then bytes_of "Connection: keep-alive" ++ CRLF else []) ++ CRLF.

Lemma request_text_head post url sep query hs keep : request_text post url sep query hs keep = request_head post url sep query hs keep ++ (if post then query else []).
Proof. unfold request_text, request_head. by rewrite <- !app_assoc. Qed.

(** Up to there the buffer is large enough. *)
Lemma client_head s p url sep query hs : request_is p url sep query hs -> let size := request_size p url query hs in
  (exists s', easy_http_client_on_encode junk s p = Some (EASY_ERROR, s', []) /\ fst (easy_buf_create junk s (Z.of_nat size)) = None) \/
  exists s' b, written size (request_head (post_method p) url sep query hs (p_keep_alive p)) b /\ is_Some (fst (easy_buf_create junk s (Z.of_nat size))) /\
    easy_http_client_on_encode junk s p =
      (b ← (if post_method p && negb (bool_decide (query = [])) then snprintf query b else Some b); bytes ← taken b; Some (EASY_OK, s', bytes :: p_output p)).
Proof.
  intros [Hraw Hp Hq Hhs Hsize] size. unfold easy_http_client_on_encode, request_head. rewrite Hraw.
  assert (len_of (str_path p) = Z.of_nat (length url - uncounted p) /\ c_string_or (bytes_of "/") (str_path p) = Some url /\ (length url <= length url - uncounted p + 1)%nat) as (-> & -> & Hurl).
  { unfold uncounted. destruct (str_path p) as [v|]; cbn [len_of c_string_or]; [split_and!; [destruct Hp as [-> _]; lia|by apply c_string_says|lia]|]. rewrite Hp. split_and!; [done|done|cbn; lia]. }
  assert (len_of (str_query_string p) = Z.of_nat (length query) /\ c_string_or [] (str_query_string p) = Some query /\ (match str_query_string p with Some _ => bytes_of "?" | None => bytes_of " " end) = sep /\ length sep = 1%nat) as (-> & -> & -> & Hsep).
  { destruct (str_query_string p) as [v|]; destruct Hq as [Hq ->]; cbn [len_of c_string_or]; [|by rewrite Hq]. split_and!; [by destruct Hq as [-> _]|by apply c_string_says|done|done]. }
  rewrite (wraps_small 32 (Z.of_nat _ + Z.of_nat _)) by lia. rewrite (add_sizes_eq _ hs) by (done || lia). rewrite wraps_small by lia.
  assert (Z.of_nat (length url - uncounted p) + Z.of_nat (length query) + Z.of_nat (length (headers_text hs)) + 64 = Z.of_nat size) as -> by (unfold size, request_size; lia).
  pose proof (create_written s (Z.of_nat size) ltac:(unfold size, request_size; lia)) as Hb. destruct (easy_buf_create junk s _) as [[b|] s']; [right|left; by eexists].
  rewrite Nat2Z.id in Hb. assert (length url - uncounted p + length query + length (headers_text hs) + 64 = size)%nat as Esize by done. clearbody size. exists s'. cbn [mbind option_bind fst].
  assert (query <> [] -> (length (sdec (Z.of_nat (length query))) <= length query + 2)%nat) as Hd.
  { intros Hne. assert (0 < length query)%nat by (destruct query; [done|cbn; lia]). apply sdec_small; [|lia|lia]. split; [lia|]. pose proof (Z.pow_gt_lin_r 10 (Z.of_nat (length query + 2)) ltac:(lia) ltac:(lia)). lia. }
  assert ((0 <? (if post_method p then Z.of_nat (length query) else 0)) = post_method p && negb (bool_decide (query = []))) as ->.
  { destruct (post_method p); [|done]. destruct query; [done|]. rewrite bool_decide_false by done. cbn [andb negb]. apply Z.ltb_lt. cbn [length]. lia. }
  destruct (post_method p); cbn [andb].
  - fits b1 W1. fits b2 W2. case_bool_decide as Hne; cbn [negb mbind option_bind]; [|specialize (Hd Hne); fits b3 W3].
    + destruct (p_keep_alive p); [fits b4 W4|cbn [mbind option_bind]]; fits b5 W5; (eexists; split; [|split; [by eexists|reflexivity]]); rewrite <- !app_assoc in *; assumption.
    + destruct (p_keep_alive p); [fits b4 W4|cbn [mbind option_bind]]; fits b5 W5; (eexists; split; [|split; [by eexists|reflexivity]]); rewrite <- !app_assoc in *; assumption.
  - fits b1 W1. fits b2 W2. destruct (p_keep_alive p); [fits b4 W4|cbn [mbind option_bind]]; fits b5 W5; (eexists; split; [|split; [by eexists|reflexivity]]); rewrite <- !app_assoc in *; assumption.
Qed.

Lemma nonempty_length (l : list Z) : l <> [] -> (0 < length l)%nat.
Proof. destruct l; [done|cbn; lia]. Qed.

Lemma head_length url sep query hs : query <> [] ->
  length (request_head true url sep query hs true) = (60 + length (sdec (Z.of_nat (length query))) + length url + length (headers_text hs))%nat.
Proof.
  intros Hne. unfold request_head. rewrite bool_decide_false by done. cbn [andb negb]. rewrite !length_app.
  repeat match goal with |- context [length (bytes_of ?s)] => let n := eval vm_compute in (length (bytes_of s)) in change (length (bytes_of s)) with n end. cbn [length CRLF]. lia.
Qed.

Lemma head_length_close url sep query hs : (length (request_head true url sep query hs false) <= 36 + length (sdec (Z.of_nat (length query))) + length url + length (headers_text hs))%nat.
Proof.
  unfold request_head. cbn [andb]. destruct (negb _); rewrite !length_app;
  repeat match goal with |- context [length (bytes_of ?s)] => let n := eval vm_compute in (length (bytes_of s)) in change (length (bytes_of s)) with n end; cbn [length CRLF]; lia.
Qed.

(** C23 (bounds).  A request of the client whose strings are what their lengths say (or
    a null path, for which a slash is written, or a null query), and whose size fits an
    int, is written completely and inside its buffer, unless it is a POST on a
    connection to be kept with a query of a thousand bytes or more, or of a hundred or
    more if the path is null: it is then exactly the request line, the headers and the
    body, or EASY_ERROR if there is no memory for the buffer. *)
Theorem easy_http_client_on_encode_spec s p url sep query hs : request_is p url sep query hs ->
  (post_method p = true -> p_keep_alive p = true -> Z.of_nat (length query) < match str_path p with Some _ => 1000 | None => 100 end) ->
  exists rc s' out, easy_http_client_on_encode junk s p = Some (rc, s', out) /\
    (rc = EASY_OK /\ out = request_text (post_method p) url sep query hs (p_keep_alive p) :: p_output p \/
     rc = EASY_ERROR /\ out = [] /\ fst (easy_buf_create junk s (Z.of_nat (request_size p url query hs))) = None).
Proof.
  intros Hr Hsmall. pose proof (r_size _ _ _ _ _ Hr) as Hsize. destruct (client_head s p url sep query hs Hr) as [(s' & E & Hn)|(s' & b & W & _ & ->)]; [exists EASY_ERROR, s', []; split; [done|]; by right|].
  rewrite request_text_head. destruct (post_method p); cbn [andb]; [|rewrite app_nil_r; cbn [mbind option_bind]; rewrite (taken_written _ _ _ W); eexists _, s', _; split; [done|]; by left].
  case_bool_decide as Hne; cbn [negb mbind option_bind]; [subst; rewrite app_nil_r, (taken_written _ _ _ W); eexists _, s', _; split; [done|]; by left|]. pose proof (nonempty_length _ Hne).
  destruct (snprintf_fits _ _ b query W) as (b' & -> & W').
  { unfold request_size, uncounted. destruct (p_keep_alive p).
    - rewrite head_length by done. specialize (Hsmall eq_refl eq_refl). destruct (str_path p).
      + pose proof (sdec_small (Z.of_nat (length query)) 3 ltac:(lia) ltac:(lia) ltac:(lia)). lia.
      + pose proof (sdec_small (Z.of_nat (length query)) 2 ltac:(lia) ltac:(lia) ltac:(lia)). lia.
    - pose proof (head_length_close url sep query hs). pose proof (sdec_small (Z.of_nat (length query)) 10 ltac:(lia) ltac:(lia) ltac:(lia)). destruct (str_path p); lia. }
  cbn [mbind option_bind]. rewrite (taken_written _ _ _ W'). eexists _, s', _. split; [done|]. by left.
Qed.

(** A POST with a path on a connection to be kept whose query has 1000 to 9999 bytes
    is sent with a zero instead of its last byte: the length of the number and the
    line for the connection were not counted in full, and snprintf keeps a place for
    the zero.  With 10000 bytes or more the end of the request lies behind the end
    of its buffer. *)
Theorem http_client_post_cut s p url sep query hs : request_is p url sep query hs -> is_Some (str_path p) -> post_method p = true -> p_keep_alive p = true ->
  is_Some (fst (easy_buf_create junk s (Z.of_nat (request_size p url query hs)))) ->
  (1000 <= Z.of_nat (length query) < 10000 -> exists s' text, easy_http_client_on_encode junk s p = Some (EASY_OK, s', (text ++ [0]) :: p_output p) /\
     length (text ++ [0]) = length (request_text true url sep query hs true) /\ text = take (length text) (request_text true url sep query hs true)) /\
  (10000 <= Z.of_nat (length query) -> easy_http_client_on_encode junk s p = None).
Proof.
  intros Hr [vp Ep] Hpost Hkeep [b0 Hmem]. pose proof (r_size _ _ _ _ _ Hr) as Hsize. destruct (client_head s p url sep query hs Hr) as [(s' & E & Hn)|(s' & b & W & _ & ->)]; [congruence|].
  unfold request_size, uncounted in W. rewrite Ep, Nat.sub_0_r in W.
  rewrite Hpost, Hkeep in *. cbn [andb]. set (head := request_head true url sep query hs true) in *. assert (1000 <= Z.of_nat (length query) -> query <> []) as Hne by (intros Hl ->; cbn in Hl; lia).
  split; intros Hq; specialize (Hne ltac:(lia)); rewrite bool_decide_false by done; cbn [negb]; pose proof (head_length url sep query hs Hne) as Hh; fold head in Hh;
    pose proof (nonempty_length _ Hne); rewrite ?request_text_head; fold head.
  - assert (length (sdec (Z.of_nat (length query))) = 4%nat) as E4.
    { pose proof (sdec_small (Z.of_nat (length query)) 4 ltac:(lia) ltac:(lia) ltac:(lia)). unfold sdec in *. destruct (Z.ltb_spec (Z.of_nat (length query)) 0); [lia|]. pose proof (udec_length_lower (Z.of_nat (length query)) 3 ltac:(lia) ltac:(lia) ltac:(lia)). lia. }
    destruct (snprintf_cut _ _ b query W) as (b' & -> & Em & El & En); [lia|]. cbn [mbind option_bind]. unfold taken, gets. rewrite El, En, drop_0. destruct (Nat.leb_spec (0 + (length head + length query)) (length url + length query + length (headers_text hs) + 64)); [|lia].
    rewrite take_ge by (rewrite En; lia). cbn [mbind option_bind]. rewrite Em. set (k := (_ - length head - 1)%nat). assert (k = length query - 1)%nat as Ek by lia.
    exists s', (head ++ take k query). rewrite <- app_assoc. split_and!; [done|rewrite !length_app, length_take; cbn; lia|]. rewrite length_app, length_take, take_app_add. by replace (k `min` length query)%nat with k by lia.
  - assert (5 <= length (sdec (Z.of_nat (length query))))%nat as E5.
    { unfold sdec in *. destruct (Z.ltb_spec (Z.of_nat (length query)) 0); [lia|]. pose proof (udec_length_lower (Z.of_nat (length query)) 4 ltac:(lia) ltac:(lia) ltac:(lia)). lia. }
    pose proof (sdec_small (Z.of_nat (length query)) 10 ltac:(lia) ltac:(lia) ltac:(lia)).
    destruct (snprintf_cut _ _ b query W) as (b' & -> & Em & El & En); [lia|]. cbn [mbind option_bind]. unfold taken, gets. rewrite El, En. destruct (Nat.leb_spec (0 + (length head + length query)) (length url + length query + length (headers_text hs) + 64)); [lia|done].
Qed.
End encoding.

(** ** Examples *)

#[local] Existing Instance HttpHandler.bump.
Definition zeros (_ : nat) : Z := 0.
Definition text_view (t : list Z) : view := View (t ++ [0]) (Z.of_nat (length t)).

Lemma text_view_says t : forallb (fun b => negb (b =? 0)) t = true -> says (text_view t) t.
Proof. intros Ht. split; [done|]. split; [by apply nonzero_check|by exists []]. Qed.

Definition demo_response : response :=
  Response (View [] 0) (text_view (bytes_of "text/plain")) [(text_view (bytes_of "Server"), text_view (bytes_of "easy"))] [bytes_of "hello"; bytes_of " world"] (-1) false 1 1 true.

Lemma easy_http_server_on_encode_spec_witness :
  (exists rc s' out, @easy_http_server_on_encode Z HttpHandler.bump zeros 0 demo_response = Some (rc, s', out) /\
    (rc = EASY_OK /\ out = response_text 1 1 (bytes_of "200 OK") [(bytes_of "Server", bytes_of "easy")] (bytes_of "text/plain") 11 true :: output demo_response \/
     rc = EASY_ERROR /\ out = [] /\ exists s n, fst (@p_alloc Z HttpHandler.bump s n) = None)) /\
  response_text 1 1 (bytes_of "200 OK") [(bytes_of "Server", bytes_of "easy")] (bytes_of "text/plain") 11 true =
    bytes_of "HTTP/1.1 200 OK" ++ CRLF ++ bytes_of "Server: easy" ++ CRLF ++ bytes_of "Content-Type: text/plain" ++ CRLF ++ bytes_of "Content-Length: 11" ++ CRLF ++ bytes_of "Connection: keep-alive" ++ CRLF ++ CRLF.
Proof.
  split; [|reflexivity].
  apply (easy_http_server_on_encode_spec zeros 0 demo_response (bytes_of "200 OK") (bytes_of "text/plain") [(bytes_of "Server", bytes_of "easy")] 11).
  - reflexivity.
  - left. split; reflexivity.
  - right. split; [exact (text_view_says (bytes_of "text/plain") eq_refl)|discriminate].
  - constructor; [|constructor]. split; (split; [reflexivity|exists [0]; reflexivity]).
  - cbn. lia.
  - cbn. lia.
  - right. split; [reflexivity|]. split; [reflexivity|lia].
  - vm_compute. reflexivity.
Defined.

Definition demo_packet (post : bool) (query : list Z) : packet := Packet (Some (text_view (bytes_of "/a"))) (Some (text_view query)) [] [] false post true.

Lemma demo_request post query : forallb (fun b => negb (b =? 0)) query = true -> Z.of_nat (length query) < 2 ^ 30 -> request_is (demo_packet post query) (bytes_of "/a") (bytes_of "?") query [].
Proof.
  intros Hq Hl. split; [done|by apply text_view_says|split; [by apply text_view_says|done]|constructor|]. cbn [headers_text map concat length]. change (length (bytes_of "/a")) with 2%nat. lia.
Qed.

Lemma easy_http_client_on_encode_spec_witness :
  exists rc s' out, @easy_http_client_on_encode Z HttpHandler.bump zeros 0 (demo_packet false (bytes_of "b=c")) = Some (rc, s', out) /\
    (rc = EASY_OK /\ out = [bytes_of "GET /a?b=c HTTP/1.1" ++ CRLF ++ bytes_of "Connection: keep-alive" ++ CRLF ++ CRLF] \/
     rc = EASY_ERROR /\ out = [] /\ fst (@easy_buf_create Z HttpHandler.bump zeros 0 69) = None).
Proof. apply (easy_http_client_on_encode_spec zeros 0 (demo_packet false (bytes_of "b=c")) (bytes_of "/a") (bytes_of "?") (bytes_of "b=c") []); [apply demo_request; reflexivity|discriminate]. Defined.

Lemma http_client_post_cut_witness : exists s' text, @easy_http_client_on_encode Z HttpHandler.bump zeros 0 (demo_packet true (replicate 1000 97)) = Some (EASY_OK, s', [text ++ [0]]) /\
  length (text ++ [0]) = length (request_text true (bytes_of "/a") (bytes_of "?") (replicate 1000 97) [] true).
Proof.
  destruct (http_client_post_cut zeros 0 (demo_packet true (replicate 1000 97)) (bytes_of "/a") (bytes_of "?") (replicate 1000 97) []) as [Hcut _]; [apply demo_request; [reflexivity|rewrite length_replicate; lia]|eexists; reflexivity|reflexivity|reflexivity|eexists; reflexivity|].
  destruct Hcut as (s' & text & E & El & _); [rewrite length_replicate; lia|]. exists s', text. split; [exact E|exact El].
Defined.

End HttpHandlerEncode.
