(* ===== verification/HttpHeaders.v ===== *)
(** * HTTP headers: the hash table as a list

    The table of headers of packet/http/easy_http_handler.c (HttpHandler) against a
    list of headers with the newest first: getting a name finds the newest header of
    that name, deleting takes it away and uncovers the one before. *)

From Stdlib Require Import Ascii String ZArith Lia.
From stdpp Require Import base list numbers option.
From S2P Require Import Prelude CString EasyHash EasyBuf HttpHandler HttpHandlerSafety.

Local Open Scope Z_scope.

Module HttpHeaders.
Import HttpHandler HttpHandlerSafety.

Section headers.
Variable mem : string -> option (list Z).
Variable nodes : list easy_http_header_t.
(** The names of the headers. *)
Variable key_of : nat -> list Z.
Definition known (i : nat) : Prop := exists h, nodes !! i = Some h /\ mem (name h) = Some (key_of i) /\ EasyBuf.len (name h) = Z.of_nat (length (key_of i)).

(** ** The reference *)

Definition newest (key : list Z) (l : list nat) : option nat := List.find (fun i => bool_decide (key_of i = key)) l.
Fixpoint remove_newest (key : list Z) (l : list nat) : list nat :=
  match l with
  | [] => []
  | i :: l => if bool_decide (key_of i = key) then l else i :: remove_newest key l
  end.

Inductive op := Add (header : nat) | Get (key : list Z) | Del (key : list Z).

Definition spec_op (o : op) (l : list nat) : option nat * list nat :=
  match o with
  | Add i => (None, i :: l)
  | Get key => (newest key l, l)
  | Del key => (newest key l, remove_newest key l)
  end.

Definition run_op (o : op) (t : easy_http_header_hash_t) : option (option nat * easy_http_header_hash_t) :=
  match o with
  | Add i => t ← easy_http_header_hash_add mem nodes t i; Some (None, t)
  | Get key => r ← easy_http_header_hash_get mem nodes t key; Some (r, t)
  | Del key => easy_http_header_hash_del mem nodes t key
  end.

Fixpoint spec_ops (os : list op) (l : list nat) : list (option nat) * list nat :=
  match os with
  | [] => ([], l)
  | o :: os => let '(r, l) := spec_op o l in let '(rs, l) := spec_ops os l in (r :: rs, l)
  end.
Fixpoint run_ops (os : list op) (t : easy_http_header_hash_t) : option (list (option nat) * easy_http_header_hash_t) :=
  match os with
  | [] => Some ([], t)
  | o :: os => x ← run_op o t; y ← run_ops os (snd x); Some (fst x :: fst y, snd y)
  end.

(** Each bucket is the part of the list that hashes to it. *)
Definition in_bucket (n : nat) (i : nat) : Prop := Z.to_nat (bucket (key_of i)) = n.
#[local] Instance in_bucket_dec n i : Decision (in_bucket n i).
Proof. unfold in_bucket. apply _. Defined.

Definition rep (t : easy_http_header_hash_t) (l : list nat) : Prop :=
  buckets t = map (fun n => filter (in_bucket n) l) (seq 0 32) /\ count t = u32 (Z.of_nat (length l)) /\ Forall known l.

Lemma rep_bucket t l key : rep t l -> buckets t !! Z.to_nat (bucket key) = Some (filter (in_bucket (Z.to_nat (bucket key))) l).
Proof.
  intros [-> _]. rewrite list_lookup_fmap. pose proof (header_bucket_range key) as Hb. rewrite (lookup_seq_lt 0 32) by done. done.
Qed.

(** Replacing a bucket. *)
Lemma rep_update (l l' : list nat) n0 : (n0 < 32)%nat -> (forall n, n <> n0 -> filter (in_bucket n) l' = filter (in_bucket n) l) ->
  <[n0 := filter (in_bucket n0) l']> (map (fun n => filter (in_bucket n) l) (seq 0 32)) = map (fun n => filter (in_bucket n) l') (seq 0 32).
Proof.
  intros Hn Ho. apply list_eq. intros n. destruct (decide (n = n0)) as [->|Hne].
  - rewrite list_lookup_insert_eq by (by rewrite length_map, length_seq). rewrite list_lookup_fmap, lookup_seq_lt by done. done.
  - rewrite list_lookup_insert_ne by done. rewrite !list_lookup_fmap. destruct (seq 0 32 !! n) as [k|] eqn:E; [|done]. apply lookup_seq in E as [-> ?]. cbn. by rewrite Ho.
Qed.

Lemma named_known key i : known i -> named mem nodes key i = Some (bool_decide (key_of i = key)).
Proof.
  intros (h & Ei & Em & El). unfold named. rewrite Ei. cbn [mbind option_bind]. rewrite El. destruct (Z.eqb_spec (Z.of_nat (length (key_of i))) (Z.of_nat (length key))) as [_|Hne]; [by rewrite Em|].
  rewrite bool_decide_false; [done|]. intros E. by rewrite E in Hne.
Qed.

Lemma walk_spec key chain : Forall known chain -> forall prev,
  exists r, walk mem nodes key prev chain = Some r /\ match newest key chain with
    | None => r = None
    | Some i => exists before next, r = Some (prev ++ before, i, next) /\ remove_newest key chain = before ++ next
    end.
Proof.
  induction 1 as [|i chain Hi _ IH]; intros prev; [by exists None|]. cbn [walk newest List.find remove_newest]. rewrite (named_known key i Hi). cbn [mbind option_bind]. case_bool_decide as E.
  - eexists. split; [done|]. exists [], chain. by rewrite app_nil_r.
  - destruct (IH (prev ++ [i])) as (r & -> & Hr). eexists. split; [done|]. fold (newest key chain). destruct (newest key chain) as [j|]; [|done]. destruct Hr as (before & next & -> & ->). exists (i :: before), next. by rewrite <- app_assoc.
Qed.

Lemma newest_bucket key l : newest key (filter (in_bucket (Z.to_nat (bucket key))) l) = newest key l.
Proof.
  induction l as [|i l IH]; [done|]. rewrite filter_cons. unfold newest in *. case_decide as Hb; cbn [List.find]; [by rewrite IH|]. rewrite bool_decide_false; [done|]. by intros <-.
Qed.

Lemma remove_bucket key l : remove_newest key (filter (in_bucket (Z.to_nat (bucket key))) l) = filter (in_bucket (Z.to_nat (bucket key))) (remove_newest key l).
Proof.
  induction l as [|i l IH]; [done|]. rewrite filter_cons. cbn [remove_newest]. case_decide as Hb; cbn [remove_newest]; case_bool_decide as E; rewrite ?filter_cons, ?decide_True, ?decide_False by done; try done; [by rewrite IH|].
  by destruct Hb; subst.
Qed.

Lemma remove_other key l n : n <> Z.to_nat (bucket key) -> filter (in_bucket n) (remove_newest key l) = filter (in_bucket n) l.
Proof.
  intros Hn. induction l as [|i l IH]; [done|]. cbn [remove_newest]. rewrite filter_cons. case_bool_decide as E; [by rewrite decide_False by (unfold in_bucket; subst; auto)|]. rewrite filter_cons, IH. done.
Qed.

Lemma remove_length key l i : newest key l = Some i -> length l = Datatypes.S (length (remove_newest key l)).
Proof. unfold newest. induction l as [|j l IH]; [done|]. cbn [List.find remove_newest]. case_bool_decide; [done|]. intros E. cbn. by rewrite <- IH. Qed.
Lemma remove_none key l : newest key l = None -> remove_newest key l = l.
Proof. unfold newest. induction l as [|j l IH]; [done|]. cbn [List.find remove_newest]. case_bool_decide; [done|]. intros E. by rewrite IH. Qed.
Lemma remove_known key l : Forall known l -> Forall known (remove_newest key l).
Proof. induction 1; cbn [remove_newest]; [done|]. case_bool_decide; [done|by constructor]. Qed.

Lemma filter_known n l : Forall known l -> Forall known (filter (in_bucket n) l).
Proof. induction 1 as [|i l Hi _ IH]; [constructor|]. rewrite filter_cons. case_decide; [by constructor|done]. Qed.

Lemma header_op_refines o t l : rep t l -> (forall i, o = Add i -> known i) -> exists t', run_op o t = Some (fst (spec_op o l), t') /\ rep t' (snd (spec_op o l)).
Proof.
  intros Ht Hk. pose proof Ht as (Hb & Hc & Hl). destruct o as [i|key|key]; cbn [run_op spec_op fst snd].
  - pose proof (Hk i eq_refl) as Hi. destruct (Hi) as (h & Ei & Em & El). unfold easy_http_header_hash_add. rewrite Ei. cbn [mbind option_bind]. rewrite Em. cbn [mbind option_bind]. rewrite (rep_bucket t l) by done. cbn [mbind option_bind].
    eexists. split; [done|]. split_and!; [|cbn; rewrite Hc; unfold wrapu; rewrite Zplus_mod_idemp_l; f_equal; lia|by constructor]. cbn [buckets]. rewrite Hb, <- (rep_update l (i :: l) (Z.to_nat (bucket (key_of i)))); [|apply header_bucket_range|intros n Hn; rewrite filter_cons, decide_False; [done|by intros E; apply Hn]].
    by rewrite filter_cons, decide_True by done.
  - unfold easy_http_header_hash_get. rewrite (rep_bucket t l) by done. cbn [mbind option_bind]. destruct (walk_spec key (filter (in_bucket (Z.to_nat (bucket key))) l)) with (prev := @nil nat) as (r & -> & Hr); [by apply filter_known|]. cbn [mbind option_bind]. rewrite newest_bucket in Hr.
    exists t. split; [|done]. destruct (newest key l); [destruct Hr as (? & ? & -> & _)|subst r]; done.
  - unfold easy_http_header_hash_del. rewrite (rep_bucket t l) by done. cbn [mbind option_bind]. destruct (walk_spec key (filter (in_bucket (Z.to_nat (bucket key))) l)) with (prev := @nil nat) as (r & -> & Hr); [by apply filter_known|]. cbn [mbind option_bind]. rewrite newest_bucket in Hr.
    destruct (newest key l) as [i|] eqn:E; [|subst r; exists t; split; [done|]; by rewrite remove_none].
    destruct Hr as (before & next & -> & Er). eexists. split; [done|]. cbn [app]. rewrite remove_bucket in Er. split_and!; [|cbn|by apply remove_known].
    + cbn [buckets]. rewrite <- Er, Hb. apply rep_update; [apply header_bucket_range|]. intros n Hn. by apply remove_other.
    + rewrite Hc. apply remove_length in E. rewrite E. unfold wrapu. rewrite Zminus_mod_idemp_l. f_equal. lia.
Qed.

(** Any sequence of additions, lookups and deletions on the empty
    table, the names of the headers added being readable, gives the answers of a list
    with the newest header first, and ends in a table for that list. *)
Theorem easy_http_header_hash_refines os : (forall i, Add i ∈ os -> known i) ->
  exists t, run_ops os no_headers = Some (fst (spec_ops os []), t) /\ rep t (snd (spec_ops os [])).
Proof.
  assert (rep no_headers []) as H0 by (split_and!; [reflexivity|reflexivity|constructor]). revert H0. generalize no_headers as t, (@nil nat) as l. induction os as [|o os IH]; intros t l Ht Hk; [by exists t|].
  destruct (header_op_refines o t l Ht) as (t1 & E1 & H1); [intros i ->; apply Hk; by left|]. destruct (IH t1 _ H1) as (t2 & E2 & H2); [intros i Hi; apply Hk; by right|].
  exists t2. cbn [run_ops spec_ops]. rewrite E1. cbn [mbind option_bind fst snd]. rewrite E2. cbn [mbind option_bind fst snd]. destruct (spec_op o l) as [r l1]. cbn [fst snd] in *. by destruct (spec_ops os l1).
Qed.
End headers.

(** Two headers of one name and one of another. *)
Definition demo_names (i : nat) : list Z := nth i [bytes_of "Cookie"; bytes_of "Host"; bytes_of "Cookie"] [].
Definition demo_nodes : list easy_http_header_t := [Header (EasyBuf.BufString 0 6) NO_STRING; Header (EasyBuf.BufString 6 4) NO_STRING; Header (EasyBuf.BufString 10 6) NO_STRING].
Definition demo_memory : string -> option (list Z) := text (bytes_of "CookieHostCookie").
Definition demo_ops : list op := [Add 0; Add 1; Add 2; Get (bytes_of "Cookie"); Del (bytes_of "Cookie"); Get (bytes_of "Cookie"); Get (bytes_of "Host"); Del (bytes_of "Via")].

Lemma easy_http_header_hash_refines_witness : exists t, run_ops demo_memory demo_nodes demo_ops no_headers = Some ([None; None; None; Some 2%nat; Some 2%nat; Some 0%nat; Some 1%nat; None], t) /\ count t = 2.
Proof.
  destruct (easy_http_header_hash_refines demo_memory demo_nodes demo_names demo_ops) as (t & E & _ & Hc & _).
  - intros i Hi. assert (i = 0%nat \/ i = 1%nat \/ i = 2%nat) as Hi' by (unfold demo_ops in Hi; apply list_elem_of_In in Hi; cbn [In] in Hi; repeat destruct Hi as [Hi|Hi]; try discriminate Hi; try (injection Hi as <-; auto); done).
    destruct Hi' as [->|[->| ->]]; eexists; split_and!; reflexivity.
  - exists t. split; [exact E|]. rewrite Hc. reflexivity.
Defined.

End HttpHeaders.
