(* ===== verification/EasyConnection.v ===== *)
(** * io/easy_connection.c, io/easy_request.c, io/easy_message.c, io/easy_socket.c:
      the server side of a connection

    What is read from a socket collects in a message, whose pool holds the bytes,
    the requests decoded from them and the buffers of their answers.  The pool of a
    message is reference-counted: one reference while the message is on the list of
    its connection, one for each buffer waiting to be written and one for each
    request another thread has; the pool of a connection counts the requests other
    threads have.  The counters, not the lists, decide when memory is given back,
    and the threads follow pointers without asking.

    A connection holds its messages by number, a message its requests by position:
    a request is gone exactly when the pool of its message is.  [None] is an access
    to something that was freed, or a failed assertion.  Callbacks are the interface
    [IoHandler]: decoding, processing in the I/O thread and in a request thread, and
    encoding; a request that is pushed goes through [easy_thread_pool_push].  The
    thread that streams a long answer waits inside its request, as
    TDHSocket/tdh_socket_encode_response.hpp does.

    The model has one I/O thread and any number of request threads and connections;
    a request thread processes one request per step.  The system (memory for a
    message, what writev takes) answers from two lists.  Sizes of reads, timers and
    the moving of connections to other I/O threads are left out, the counters are
    unbounded. *)

From Stdlib Require Import ZArith Lia.
From stdpp Require Import base gmap list numbers option.
From S2P Require Import Prelude.

Local Open Scope Z_scope.

Module EasyConnection.

Definition EASY_CONN_OK : Z := 0.
Definition EASY_CONN_CLOSE : Z := 3.
Definition EASY_MESG_READ_AGAIN : Z := 1.
Definition EASY_MESG_DESTROY : Z := 3.
Definition EASY_CONN_DOING_REQ_CNT : Z := 1024.
Definition EASY_IOTH_DOING_REQ_CNT : Z := 8192.
Definition EASY_IOV_MAX : Z := 256.
Definition EASY_IOV_SIZE : Z := 262144.

(** ** The handler of a service *)

Inductive decoded (P : Type) := DPacket (p : P) (rest : list Z) | DMore | DError.
Arguments DPacket {P}.
Arguments DMore {P}.
Arguments DError {P}.
(** [process] of the I/O thread: answered, given to a request thread, or an error. *)
Inductive processed (P : Type) := Replied (p : P) | Pushed (hv : nat) | Refused.
Arguments Replied {P}.
Arguments Pushed {P}.
Arguments Refused {P}.
(** [process] of a request thread: the answer, a part of it, or an error. *)
Inductive worked (P : Type) := Answer (p : P) | Stream (p : P) | Failure.
Arguments Answer {P}.
Arguments Stream {P}.
Arguments Failure {P}.

Class IoHandler (P H : Type) := {
  h_decode : list Z -> decoded P;
  h_process : H -> P -> H * processed P;
  h_work : H -> P -> H * worked P;
  h_encode : P -> option (list (list Z)) }.

(** ** Data *)

(** The thread that streams the answer of a request is waiting, or was told that
    the connection is closed ([tdhs_client_wait_t] in [r->args]). *)
Inductive wait := NotWaiting | Waiting | Closed.
#[global] Instance wait_eq_dec : EqDecision wait.
Proof. solve_decision. Defined.

Section Model.
Context {P H : Type} `{IoHandler P H}.

Record easy_request_t := Request { ipacket : P; opacket : option P; retcode : Z; args : wait }.

Record easy_message_t := Message {
  requests : list easy_request_t;       (* in its pool *)
  m_ref : Z; m_status : Z; recycle_cnt : Z; input : list Z;
  request_list : list nat; request_done_list : list nat; request_list_count : Z }.

(** The bytes from [pos] to [last]; every buffer has a cleanup for a message. *)
Record easy_buf_t := Buf { data : list Z; cleanup : nat }.

(** A request of a connection: its message and its place there. *)
Abbreviation req := (nat * nat)%type.

(** [sent] is what the socket has taken, [answers] what was answered, in order. *)
Record easy_connection_t := Conn {
  messages : gmap nat easy_message_t; next_message : nat;
  message_list : list nat; output : list easy_buf_t; session_list : list req;
  c_ref : Z; c_status : Z; doing_request_count : Z; done_request_count : Z;
  wait_close : bool; conn_has_error : bool; freed : bool;
  sent : list Z; answers : list P }.

Inductive written := Wrote (n : Z) | WAgain | WError.

(** The thread of a request also needs the connection. *)
Record easy_request_thread_t := RequestThread { task_list : list (nat * req); todo : list (nat * req); ready : list (nat * req) }.
Record env := Env {
  threads : list easy_request_thread_t; io_requests : list (nat * req);
  io_doing : Z; io_done : Z; hst : H; memory : list bool; socket : list written }.

(** *** Record updates *)

Definition r_set_opacket v (r : easy_request_t) := Request (ipacket r) v (retcode r) (args r).
Definition r_set_retcode v (r : easy_request_t) := Request (ipacket r) (opacket r) v (args r).
Definition r_set_args v (r : easy_request_t) := Request (ipacket r) (opacket r) (retcode r) v.

Definition m_set_requests v (m : easy_message_t) := Message v (m_ref m) (m_status m) (recycle_cnt m) (input m) (request_list m) (request_done_list m) (request_list_count m).
Definition m_set_ref v (m : easy_message_t) := Message (requests m) v (m_status m) (recycle_cnt m) (input m) (request_list m) (request_done_list m) (request_list_count m).
Definition m_set_status v (m : easy_message_t) := Message (requests m) (m_ref m) v (recycle_cnt m) (input m) (request_list m) (request_done_list m) (request_list_count m).
Definition m_set_recycle v (m : easy_message_t) := Message (requests m) (m_ref m) (m_status m) v (input m) (request_list m) (request_done_list m) (request_list_count m).
Definition m_set_input v (m : easy_message_t) := Message (requests m) (m_ref m) (m_status m) (recycle_cnt m) v (request_list m) (request_done_list m) (request_list_count m).
Definition m_set_list v (m : easy_message_t) := Message (requests m) (m_ref m) (m_status m) (recycle_cnt m) (input m) v (request_done_list m) (request_list_count m).
Definition m_set_done v (m : easy_message_t) := Message (requests m) (m_ref m) (m_status m) (recycle_cnt m) (input m) (request_list m) v (request_list_count m).
Definition m_set_count v (m : easy_message_t) := Message (requests m) (m_ref m) (m_status m) (recycle_cnt m) (input m) (request_list m) (request_done_list m) v.

Definition c_set_messages v n (c : easy_connection_t) := Conn v n (message_list c) (output c) (session_list c) (c_ref c) (c_status c) (doing_request_count c) (done_request_count c) (wait_close c) (conn_has_error c) (freed c) (sent c) (answers c).
Definition c_set_list v (c : easy_connection_t) := Conn (messages c) (next_message c) v (output c) (session_list c) (c_ref c) (c_status c) (doing_request_count c) (done_request_count c) (wait_close c) (conn_has_error c) (freed c) (sent c) (answers c).
Definition c_set_output v (c : easy_connection_t) := Conn (messages c) (next_message c) (message_list c) v (session_list c) (c_ref c) (c_status c) (doing_request_count c) (done_request_count c) (wait_close c) (conn_has_error c) (freed c) (sent c) (answers c).
Definition c_set_sessions v (c : easy_connection_t) := Conn (messages c) (next_message c) (message_list c) (output c) v (c_ref c) (c_status c) (doing_request_count c) (done_request_count c) (wait_close c) (conn_has_error c) (freed c) (sent c) (answers c).
Definition c_set_ref v (c : easy_connection_t) := Conn (messages c) (next_message c) (message_list c) (output c) (session_list c) v (c_status c) (doing_request_count c) (done_request_count c) (wait_close c) (conn_has_error c) (freed c) (sent c) (answers c).
Definition c_set_status v (c : easy_connection_t) := Conn (messages c) (next_message c) (message_list c) (output c) (session_list c) (c_ref c) v (doing_request_count c) (done_request_count c) (wait_close c) (conn_has_error c) (freed c) (sent c) (answers c).
Definition c_set_counts d n (c : easy_connection_t) := Conn (messages c) (next_message c) (message_list c) (output c) (session_list c) (c_ref c) (c_status c) d n (wait_close c) (conn_has_error c) (freed c) (sent c) (answers c).
Definition c_set_error v (c : easy_connection_t) := Conn (messages c) (next_message c) (message_list c) (output c) (session_list c) (c_ref c) (c_status c) (doing_request_count c) (done_request_count c) (wait_close c) v (freed c) (sent c) (answers c).
Definition c_set_freed v (c : easy_connection_t) := Conn (messages c) (next_message c) (message_list c) (output c) (session_list c) (c_ref c) (c_status c) (doing_request_count c) (done_request_count c) (wait_close c) (conn_has_error c) v (sent c) (answers c).
Definition c_set_sent v (c : easy_connection_t) := Conn (messages c) (next_message c) (message_list c) (output c) (session_list c) (c_ref c) (c_status c) (doing_request_count c) (done_request_count c) (wait_close c) (conn_has_error c) (freed c) v (answers c).
Definition c_set_answers v (c : easy_connection_t) := Conn (messages c) (next_message c) (message_list c) (output c) (session_list c) (c_ref c) (c_status c) (doing_request_count c) (done_request_count c) (wait_close c) (conn_has_error c) (freed c) (sent c) v.

Definition e_set_threads v (e : env) := Env v (io_requests e) (io_doing e) (io_done e) (hst e) (memory e) (socket e).
Definition e_set_requests v (e : env) := Env (threads e) v (io_doing e) (io_done e) (hst e) (memory e) (socket e).
Definition e_set_counts d n (e : env) := Env (threads e) (io_requests e) d n (hst e) (memory e) (socket e).
Definition e_set_hst v (e : env) := Env (threads e) (io_requests e) (io_doing e) (io_done e) v (memory e) (socket e).
Definition e_set_memory v (e : env) := Env (threads e) (io_requests e) (io_doing e) (io_done e) (hst e) v (socket e).
Definition e_set_socket v (e : env) := Env (threads e) (io_requests e) (io_doing e) (io_done e) (hst e) (memory e) v.

(** ** Code working on a connection

    A function on the connection at hand and the rest of the I/O thread. *)

Definition M (A : Type) : Type := easy_connection_t * env -> option (A * (easy_connection_t * env)).
Definition ret {A} (a : A) : M A := fun s => Some (a, s).
Definition bind {A B} (m : M A) (f : A -> M B) : M B := fun s => match m s with Some (a, s) => f a s | None => None end.
Definition fail {A} : M A := fun _ => None.
Definition get_conn : M easy_connection_t := fun s => Some (fst s, s).
Definition get_env : M env := fun s => Some (snd s, s).
Definition mod_conn (f : easy_connection_t -> easy_connection_t) : M unit := fun s => Some (tt, (f (fst s), snd s)).
Definition mod_env (f : env -> env) : M unit := fun s => Some (tt, (fst s, f (snd s))).

Local Notation "x <- m ;; k" := (bind m (fun x => k)) (at level 100, m at next level, right associativity).
Local Notation "m ;; k" := (bind m (fun _ => k)) (at level 100, right associativity).

Fixpoint for_each {A} (l : list A) (f : A -> M unit) : M unit :=
  match l with [] => ret tt | a :: l => f a ;; for_each l f end.

Definition get_message (m : nat) : M easy_message_t := c <- get_conn ;; match messages c !! m with Some x => ret x | None => fail end.
Definition mod_message (m : nat) (f : easy_message_t -> easy_message_t) : M unit :=
  x <- get_message m ;; mod_conn (fun c => c_set_messages (<[m := f x]> (messages c)) (next_message c) c).
Definition get_request (r : req) : M easy_request_t := m <- get_message (fst r) ;; match requests m !! snd r with Some x => ret x | None => fail end.
Definition mod_request (r : req) (f : easy_request_t -> easy_request_t) : M unit :=
  x <- get_request r ;; mod_message (fst r) (fun m => m_set_requests (<[snd r := f x]> (requests m)) m).

(** Memory: one answer of the system. *)
Definition allocate : M bool :=
  e <- get_env ;; match memory e with [] => ret true | b :: l => mod_env (e_set_memory l) ;; ret b end.

(** ** Messages *)

Definition easy_message_create : M (option nat) :=
  ok <- allocate ;;
  if ok : bool then
    c <- get_conn ;;
    let m := next_message c in
    mod_conn (c_set_messages (<[m := Message [] 1 0 0 [] [] [] 0]> (messages c)) (S m)) ;;
    mod_conn (c_set_list (message_list c ++ [m])) ;;
    ret (Some m)
  else ret None.

(** [cleanup] of the service: the thread that waits inside the request goes on. *)
Definition easy_request_server_done (r : req) : M unit :=
  x <- get_request r ;; if bool_decide (args x = Waiting) then mod_request r (r_set_args Closed) else ret tt.

Definition easy_message_destroy (m : nat) (del : bool) : M unit :=
  (if del then
     mod_message m (m_set_status EASY_MESG_DESTROY) ;;
     mod_conn (fun c => c_set_list (filter (fun x => x <> m) (message_list c)) c)
   else ret tt) ;;
  mod_message m (fun x => m_set_ref (m_ref x - 1) x) ;;
  x <- get_message m ;;
  if m_ref x =? 0 then
    for_each (request_list x) (fun k => easy_request_server_done (m, k)) ;;
    for_each (request_done_list x) (fun k => easy_request_server_done (m, k)) ;;
    mod_conn (fun c => c_set_list (filter (fun x => x <> m) (message_list c)) c) ;;
    mod_conn (fun c => c_set_messages (delete m (messages c)) (next_message c) c)
  else ret tt.

(** [easy_buf_destroy] of a buffer of an answer: its cleanup is
    [easy_message_cleanup]. *)
Definition easy_buf_destroy (b : easy_buf_t) : M unit := easy_message_destroy (cleanup b) false.

Definition easy_request_addbuf (r : req) (b : list Z) : M unit :=
  mod_message (fst r) (fun m => m_set_ref (m_ref m + 1) m) ;;
  mod_conn (fun c => c_set_output (output c ++ [Buf b (fst r)]) c).

(** ** Requests *)

Definition push_task (r : nat * req) (t : easy_request_thread_t) : easy_request_thread_t := RequestThread (task_list t ++ [r]) (todo t) (ready t).

(** [cid] is the number of the connection; [hv] the hash that chooses the thread (of
    the connection, when the service gives 0). *)
Definition easy_thread_pool_push (cid : nat) (r : req) (hv : nat) : M unit :=
  mod_request r (r_set_retcode EASY_AGAIN) ;;
  mod_conn (fun c => c_set_ref (c_ref c + 1) c) ;;
  mod_message (fst r) (fun m => m_set_ref (m_ref m + 1) m) ;;
  mod_env (fun e => e_set_threads (alter (push_task (cid, r)) (hv mod length (threads e))%nat (threads e)) e).

Definition easy_connection_request_done (r : req) : M Z :=
  x <- get_request r ;;
  rc <- (match opacket x with
         | Some p =>
             match h_encode p with
             | None => ret EASY_ERROR
             | Some bufs =>
                 for_each bufs (easy_request_addbuf r) ;;
                 mod_conn (fun c => c_set_answers (answers c ++ [p]) c) ;;
                 (if retcode x =? EASY_AGAIN
                  then mod_conn (fun c => c_set_sessions (session_list c ++ [r]) c) ;; mod_request r (r_set_opacket None)
                  else ret tt) ;;
                 ret EASY_OK
             end
         | None => ret EASY_OK
         end) ;;
  if negb (rc =? EASY_OK) then ret EASY_ERROR
  else
    (if retcode x =? EASY_OK then
       m <- get_message (fst r) ;;
       c <- get_conn ;;
       if (0 <? request_list_count m) && (0 <? doing_request_count c) then
         mod_message (fst r) (fun m => m_set_count (request_list_count m - 1) m) ;;
         mod_conn (fun c => c_set_counts (doing_request_count c - 1) (done_request_count c + 1) c) ;;
         mod_env (fun e => e_set_counts (io_doing e - 1) (io_done e) e) ;;
         mod_message (fst r) (fun m => m_set_done (request_done_list m ++ [snd r]) m)
       else fail
     else ret tt) ;;
    ret EASY_OK.

(** ** Writing *)

(** What goes into one writev. *)
Fixpoint gather (l : list easy_buf_t) (cnt sended : Z) : list easy_buf_t :=
  match l with
  | [] => []
  | b :: l =>
      let cnt := cnt + 1 in
      let sended := sended + Z.of_nat (length (data b)) in
      b :: (if (EASY_IOV_MAX <=? cnt) || (EASY_IOV_SIZE <=? sended) then [] else gather l cnt sended)
  end.
Definition iov_bytes (l : list easy_buf_t) : list Z := concat (map data (gather l 0 0)).

(** The buffers that were written completely, and the others. *)
Fixpoint consume (l : list easy_buf_t) (sended : Z) : list easy_buf_t * list easy_buf_t :=
  match l with
  | [] => ([], [])
  | b :: l =>
      let size := Z.of_nat (length (data b)) in
      let left := sended - size in
      if 0 <=? left then
        if left <=? 0 then ([b], l) else let '(gone, rest) := consume l left in (b :: gone, rest)
      else ([], Buf (drop (Z.to_nat sended) (data b)) (cleanup b) :: l)
  end.

(** writev takes at most what it is given. *)
Definition easy_socket_write : M Z :=
  c <- get_conn ;;
  e <- get_env ;;
  let '(w, more) := match socket e with [] => (WAgain, []) | w :: more => (w, more) end in
  mod_env (e_set_socket more) ;;
  match w with
  | WError => ret EASY_ERROR
  | WAgain => ret EASY_AGAIN
  | Wrote n =>
      let n := Z.max 0 (Z.min n (Z.of_nat (length (iov_bytes (output c))))) in
      let '(gone, rest) := consume (output c) n in
      mod_conn (c_set_sent (sent c ++ take (Z.to_nat n) (iov_bytes (output c)))) ;;
      mod_conn (c_set_output rest) ;;
      for_each gone easy_buf_destroy ;;
      ret n
  end.

(** [process] of a request whose answer is streamed, when a part was written. *)
Definition resume (r : req) : M unit :=
  x <- get_request r ;;
  if bool_decide (args x = Waiting) then
    mod_message (fst r) (fun m => m_set_ref (m_ref m + 1) m) ;;
    mod_conn (fun c => c_set_ref (c_ref c + 1) c) ;;
    mod_request r (r_set_args NotWaiting)
  else ret tt.

Definition easy_connection_write_again : M Z :=
  c <- get_conn ;;
  match output c with
  | _ :: _ => ret EASY_AGAIN
  | [] =>
      match session_list c with
      | _ :: _ => mod_conn (c_set_sessions []) ;; for_each (session_list c) resume ;; ret EASY_OK
      | [] => ret (if wait_close c then EASY_ABORT else EASY_OK)
      end
  end.

Definition easy_connection_write_socket : M Z :=
  c <- get_conn ;;
  match output c with
  | [] => ret EASY_OK
  | _ =>
      rc <- easy_socket_write ;;
      if rc =? EASY_ERROR then mod_conn (c_set_error true) ;; ret EASY_ABORT
      else easy_connection_write_again
  end.

(** ** Closing *)

Definition easy_connection_destroy : M unit :=
  mod_conn (fun c => if negb (c_status c =? EASY_CONN_CLOSE) && (0 <? c_ref c) then c_set_status EASY_CONN_CLOSE c else c) ;;
  c <- get_conn ;;
  for_each (session_list c) easy_request_server_done ;;
  c <- get_conn ;;
  if 0 <? c_ref c then ret tt
  else
    mod_conn (c_set_sessions []) ;;
    for_each (message_list c) (fun m => easy_message_destroy m true) ;;
    c <- get_conn ;;
    mod_conn (c_set_output []) ;;
    for_each (output c) easy_buf_destroy ;;
    c <- get_conn ;;
    (* easy_pool_destroy asserts that nobody has the pool *)
    if c_ref c =? 0 then mod_conn (c_set_freed true) else fail.

(** ** Reading *)

(** Requests as long as there are complete packets. *)
Fixpoint decode_loop (fuel : nat) (m : nat) (cnt : Z) : M (option Z) :=
  x <- get_message m ;;
  match input x with
  | [] => ret (Some cnt)
  | _ =>
      match fuel with
      | O => fail
      | S fuel =>
          match h_decode (input x) with
          | DError => ret None
          | DMore => ret (Some cnt)
          | DPacket p rest =>
              mod_message m (m_set_input rest) ;;
              mod_message m (m_set_requests (requests x ++ [Request p None EASY_OK NotWaiting])) ;;
              mod_message m (fun x => m_set_list (request_list x ++ [(length (requests x) - 1)%nat]) x) ;;
              decode_loop fuel m (cnt + 1)
          end
      end
  end.

Definition easy_connection_recycle_message (m : nat) : M (option nat) :=
  x <- get_message m ;;
  match input x with
  | [] => ret (Some m)
  | rest =>
      if recycle_cnt x <? 16 then ret (Some m)
      else
        new <- easy_message_create ;;
        match new with
        | None => ret None
        | Some n =>
            mod_message n (m_set_input rest) ;;
            (if request_list_count x =? 0 then easy_message_destroy m true else mod_message m (m_set_status 0)) ;;
            ret (Some n)
        end
  end.

(** Processing the requests of a message; [None] after an error. *)
Fixpoint process_loop (cid m : nat) (l : list nat) (cnt : Z) : M (option Z) :=
  match l with
  | [] => ret (Some cnt)
  | k :: l =>
      mod_message m (fun x => m_set_list (filter (fun j => j <> k) (request_list x)) x) ;;
      mod_env (fun e => e_set_counts (io_doing e) (io_done e + 1) e) ;;
      x <- get_request (m, k) ;;
      e <- get_env ;;
      let '(h, o) := h_process (hst e) (ipacket x) in
      mod_env (e_set_hst h) ;;
      match o with
      | Refused => ret None
      | _ =>
          cnt <- (match o with
                  | Replied p =>
                      mod_request (m, k) (r_set_opacket (Some p)) ;;
                      rc <- easy_connection_request_done (m, k) ;;
                      ret (if rc =? EASY_OK then cnt + 1 else cnt)
                  | Pushed hv => easy_thread_pool_push cid (m, k) hv ;; ret cnt
                  | Refused => ret cnt
                  end) ;;
          if 128 <=? cnt then
            rc <- easy_connection_write_socket ;;
            if rc =? EASY_ABORT then ret None else process_loop cid m l 0
          else process_loop cid m l cnt
      end
  end.

Definition easy_connection_do_request (cid m : nat) : M Z :=
  x <- get_message m ;;
  d <- decode_loop (length (input x)) m 0 ;;
  match d with
  | None => ret EASY_ERROR
  | Some cnt =>
      (if cnt =? 0 then ret tt
       else
         mod_message m (fun x => m_set_recycle (u16 (recycle_cnt x + 1)) (m_set_count (request_list_count x + cnt) x)) ;;
         mod_conn (fun c => c_set_counts (doing_request_count c + cnt) (done_request_count c) c) ;;
         mod_env (fun e => e_set_counts (io_doing e + cnt) (io_done e) e)) ;;
      r <- easy_connection_recycle_message m ;;
      match r with
      | None => ret EASY_ERROR
      | Some m =>
          mod_message m (fun x => m_set_status (match input x with [] => 0 | _ => EASY_MESG_READ_AGAIN end) x) ;;
          x <- get_message m ;;
          p <- process_loop cid m (request_list x) 0 ;;
          match p with
          | None => ret EASY_ERROR
          | Some _ =>
              rc <- easy_connection_write_socket ;;
              if rc =? EASY_ABORT then ret EASY_ERROR
              else
                x <- get_message m ;;
                (if (request_list_count x =? 0) && negb (m_status x =? EASY_MESG_READ_AGAIN) then easy_message_destroy m true else ret tt) ;;
                ret EASY_OK
          end
      end
  end.

(** The message to read into: the last one if it is not complete, else a new one. *)
Definition read_message : M (option nat) :=
  c <- get_conn ;;
  match list.last (message_list c) with
  | Some m => x <- get_message m ;; if m_status x =? EASY_MESG_READ_AGAIN then ret (Some m) else easy_message_create
  | None => easy_message_create
  end.

(** What read gave: no bytes when the client closed or there was an error. *)
Definition easy_connection_on_readable (cid : nat) (bytes : list Z) : M unit :=
  c <- get_conn ;;
  e <- get_env ;;
  if (EASY_CONN_DOING_REQ_CNT <? doing_request_count c) || (EASY_IOTH_DOING_REQ_CNT <? io_doing e) then easy_connection_destroy
  else
    om <- read_message ;;
    match om with
    | None => easy_connection_destroy
    | Some m =>
        room <- allocate ;;
        if negb room || (length bytes =? 0)%nat then easy_connection_destroy
        else
          mod_message m (fun x => m_set_input (input x ++ bytes) x) ;;
          rc <- easy_connection_do_request cid m ;;
          if rc =? EASY_ERROR then easy_connection_destroy else ret tt
    end.

Definition easy_connection_on_writable : M unit :=
  rc <- easy_connection_write_socket ;; if rc =? EASY_ABORT then easy_connection_destroy else ret tt.

(** A closed connection is tried again every half second. *)
Definition easy_connection_on_timeout_conn : M unit :=
  c <- get_conn ;; if c_status c =? EASY_CONN_OK then ret tt else easy_connection_destroy.

(** ** Answers of the request threads *)

(** One request that comes back: whether its connection goes on the list of those
    to write or of those to close. *)
Inductive noted := ToWrite | ToClose | Nothing.

Definition send_response_one (r : req) : M noted :=
  x <- get_request r ;;
  n <- (if retcode x =? EASY_ERROR then ret (EASY_ERROR, ToClose)
        else rc <- easy_connection_request_done r ;; ret (rc, if rc =? EASY_OK then ToWrite else Nothing)) ;;
  mod_conn (fun c => c_set_ref (c_ref c - 1) c) ;;
  mod_message (fst r) (fun m => m_set_ref (m_ref m - 1) m) ;;
  m <- get_message (fst r) ;;
  (if (request_list_count m =? 0) && (fst n =? EASY_OK) && negb (m_status m =? EASY_MESG_READ_AGAIN) then easy_message_destroy (fst r) true else ret tt) ;;
  ret (snd n).

(** ** The I/O thread with its connections *)

Record io := Io { conns : gmap nat easy_connection_t; env_of : env }.

(** Code on connection [cid]; what was freed is gone. *)
Definition on_conn {A} (cid : nat) (m : M A) (s : io) : option (A * io) :=
  c ← conns s !! cid;
  x ← m (c, env_of s);
  let '(a, (c, e)) := x in
  Some (a, Io (if freed c then delete cid (conns s) else <[cid := c]> (conns s)) e).

(** A connection is added to one of the two lists only, once. *)
Definition easy_connection_add_list (l other : list nat) (cid : nat) : list nat := if bool_decide (cid ∈ l ++ other) then l else l ++ [cid].

Fixpoint send_loop (l : list (nat * req)) (wlist flist : list nat) (s : io) : option (list nat * list nat * io) :=
  match l with
  | [] => Some (wlist, flist, s)
  | (cid, r) :: l =>
      x ← on_conn cid (send_response_one r) s;
      let '(n, s) := x in
      match n with
      | ToWrite => send_loop l (easy_connection_add_list wlist flist cid) flist s
      | ToClose => send_loop l wlist (easy_connection_add_list flist wlist cid) s
      | Nothing => send_loop l wlist flist s
      end
  end.
Fixpoint each_conn (l : list nat) (m : M unit) (s : io) : option io :=
  match l with [] => Some s | cid :: l => x ← on_conn cid m s; each_conn l m (snd x) end.

Definition easy_connection_send_response (l : list (nat * req)) (s : io) : option io :=
  x ← send_loop l [] [] s;
  let '(wlist, flist, s) := x in
  s ← each_conn flist easy_connection_destroy s;
  each_conn wlist easy_connection_on_writable s.

(** The I/O thread is woken: it takes the list of answers. *)
Definition easy_connection_on_wakeup (s : io) : option io :=
  easy_connection_send_response (io_requests (env_of s)) (Io (conns s) (e_set_requests [] (env_of s))).

(** ** Request threads *)

Definition set_thread (t : nat) (x : easy_request_thread_t) (s : io) : io := Io (conns s) (e_set_threads (<[t := x]> (threads (env_of s))) (env_of s)).

(** [easy_request_on_wakeup] takes the list of tasks. *)
Definition easy_request_on_wakeup (t : nat) (s : io) : option io :=
  match threads (env_of s) !! t with
  | Some (RequestThread (r :: l) [] []) => Some (set_thread t (RequestThread [] (r :: l) []) s)
  | _ => Some s
  end.

(** The answers of a thread go to the I/O thread 32 at a time, and at the end. *)
Definition finished (t : nat) (r : nat * req) (x : easy_request_thread_t) (s : io) : io :=
  let rest := tail (todo x) in
  let out := ready x ++ [r] in
  if (32 <=? length out)%nat || (length rest =? 0)%nat then
    let s := set_thread t (RequestThread (task_list x) rest []) s in
    Io (conns s) (e_set_requests (io_requests (env_of s) ++ out) (env_of s))
  else set_thread t (RequestThread (task_list x) rest out) s.

(** One step of the loop of [easy_request_doreq]: the first request of the list.
    A part of an answer is handed over by [easy_request_wakeup], and the thread
    waits. *)
Definition easy_request_doreq (t : nat) (s : io) : option io :=
  match threads (env_of s) !! t with
  | Some (RequestThread tasks ((cid, r) :: rest) out as x) =>
      y ← on_conn cid (c <- get_conn ;; x <- get_request r ;; ret (c_status c, x)) s;
      let '((status, q), s) := y in
      if bool_decide (args q = Waiting) then Some s
      else if (status =? EASY_CONN_CLOSE) || bool_decide (args q = Closed) then
        y ← on_conn cid (mod_request r (r_set_retcode EASY_ERROR)) s;
        Some (finished t (cid, r) x (snd y))
      else
        let '(h, w) := h_work (hst (env_of s)) (ipacket q) in
        let s := Io (conns s) (e_set_hst h (env_of s)) in
        match w with
        | Failure => y ← on_conn cid (mod_request r (r_set_retcode EASY_ERROR)) s; Some (finished t (cid, r) x (snd y))
        | Answer p => y ← on_conn cid (mod_request r (fun q => r_set_retcode EASY_OK (r_set_opacket (Some p) q))) s; Some (finished t (cid, r) x (snd y))
        | Stream p =>
            y ← on_conn cid (mod_request r (fun q => r_set_args Waiting (r_set_retcode EASY_AGAIN (r_set_opacket (Some p) q)))) s;
            let s := snd y in
            Some (Io (conns s) (e_set_requests (io_requests (env_of s) ++ [(cid, r)]) (env_of s)))
        end
  | _ => Some s
  end.

(** ** Events *)

Inductive event := Accept (cid : nat) | Readable (cid : nat) (bytes : list Z) | Writable (cid : nat) | Timer (cid : nat) | Answers | TaskWakeup (t : nat) | TaskStep (t : nat).

(** A new connection; its first read is the next event. *)
Definition easy_connection_new : easy_connection_t := Conn ∅ 0 [] [] [] 0 EASY_CONN_OK 0 0 false false false [] [].
Definition easy_connection_on_accept (cid : nat) (s : io) : io := Io (<[cid := easy_connection_new]> (conns s)) (env_of s).

(** Events of a connection that is gone do not happen, and a closed one is not
    read. *)
Definition event_on (cid : nat) (m : M unit) (s : io) : option io :=
  match conns s !! cid with Some _ => option_map snd (on_conn cid m s) | None => Some s end.
Definition is_closed (cid : nat) (s : io) : bool := match conns s !! cid with Some c => c_status c =? EASY_CONN_CLOSE | None => true end.
Definition step (ev : event) (s : io) : option io :=
  match ev with
  | Accept cid => match conns s !! cid with Some _ => Some s | None => Some (easy_connection_on_accept cid s) end
  | Readable cid bytes => if is_closed cid s then Some s else event_on cid (easy_connection_on_readable cid bytes) s
  | Writable cid => event_on cid easy_connection_on_writable s
  | Timer cid => event_on cid easy_connection_on_timeout_conn s
  | Answers => easy_connection_on_wakeup s
  | TaskWakeup t => easy_request_on_wakeup t s
  | TaskStep t => easy_request_doreq t s
  end.
Fixpoint run (l : list event) (s : io) : option io := match l with [] => Some s | ev :: l => s ← step ev s; run l s end.

End Model.
End EasyConnection.
