(* ===== verification/EasyConnectionProofs.v ===== *)
(** * The reference counts of a connection

    The invariant of a connection and what its operations do to it. *)

From Stdlib Require Import ZArith Lia.
From stdpp Require Import base gmap list numbers option.
From S2P Require Import Prelude EasyConnection.

Local Open Scope Z_scope.

Module EasyConnectionProofs.
Import EasyConnection.

Section Proofs.
Context {P H : Type} {handler : IoHandler P H}.
Abbreviation req := (nat * nat)%type.
Abbreviation conn := (@easy_connection_t P).
Abbreviation message := (@easy_message_t P).
Abbreviation environment := (@env H).

(** ** Postconditions *)

Definition wp {A} (m : M A) (s : conn * environment) (Q : A -> conn -> environment -> Prop) : Prop :=
  match m s with Some (a, (c, e)) => Q a c e | None => False end.

Lemma wpc_bind {A B} (m : M A) (f : A -> M B) s Q : wp m s (fun a c e => wp (f a) (c, e) Q) -> wp (bind m f) s Q.
Proof. unfold wp, bind. destruct (m s) as [[a [c e]]|]; done. Qed.
Lemma wpc_mono {A} (m : M A) s (Q Q' : A -> conn -> environment -> Prop) : wp m s Q -> (forall a c e, Q a c e -> Q' a c e) -> wp m s Q'.
Proof. unfold wp. destruct (m s) as [[a [c e]]|]; auto. Qed.
Lemma wp_ret {A} (a : A) c e (Q : A -> conn -> environment -> Prop) : Q a c e -> wp (ret a) (c, e) Q.
Proof. done. Qed.
Lemma wp_mod_conn f c e (Q : unit -> conn -> environment -> Prop) : Q tt (f c) e -> wp (mod_conn f) (c, e) Q.
Proof. done. Qed.
Lemma wp_mod_env f c e (Q : unit -> conn -> environment -> Prop) : Q tt c (f e) -> wp (mod_env f) (c, e) Q.
Proof. done. Qed.
Lemma wp_conn c e (Q : conn -> conn -> environment -> Prop) : Q c c e -> wp get_conn (c, e) Q.
Proof. done. Qed.
Lemma wp_env c e (Q : environment -> conn -> environment -> Prop) : Q e c e -> wp get_env (c, e) Q.
Proof. done. Qed.
Lemma wp_message {m c e x} {Q : _ -> conn -> environment -> Prop} : messages c !! m = Some x -> Q x c e -> wp (get_message m) (c, e) Q.
Proof. intros Hm HQ. unfold wp, get_message, bind, get_conn. cbn. by rewrite Hm. Qed.
Lemma wp_mod_message {m f c e x} {Q : _ -> conn -> environment -> Prop} : messages c !! m = Some x ->
  Q tt (c_set_messages (<[m := f x]> (messages c)) (next_message c) c) e -> wp (mod_message m f) (c, e) Q.
Proof. intros Hm HQ. apply wpc_bind, (wp_message Hm). done. Qed.
Lemma wp_request {m k c e x q} {Q : _ -> conn -> environment -> Prop} : messages c !! m = Some x -> requests x !! k = Some q -> Q q c e -> wp (get_request (m, k)) (c, e) Q.
Proof. intros Hm Hk HQ. apply wpc_bind, (wp_message Hm). cbn [snd]. by rewrite Hk. Qed.
Lemma wp_mod_request {m k f c e x q} {Q : _ -> conn -> environment -> Prop} : messages c !! m = Some x -> requests x !! k = Some q ->
  Q tt (c_set_messages (<[m := m_set_requests (<[k := f q]> (requests x)) x]> (messages c)) (next_message c) c) e -> wp (mod_request (m, k) f) (c, e) Q.
Proof. intros Hm Hk HQ. apply wpc_bind, (wp_request Hm Hk). by apply (wp_mod_message Hm). Qed.

(** ** Counting *)

Definition cnt (l : list req) (m : nat) : Z := Z.of_nat (length (filter (fun r : req => r.1 = m) l)).
Definition cntm (l : list nat) (m : nat) : Z := Z.of_nat (length (filter (fun x => x = m) l)).

Lemma cnt_nonneg l m : 0 <= cnt l m.
Proof. unfold cnt. lia. Qed.
Lemma cntm_nonneg l m : 0 <= cntm l m.
Proof. unfold cntm. lia. Qed.
Lemma cnt_app l l' m : cnt (l ++ l') m = cnt l m + cnt l' m.
Proof. unfold cnt. rewrite list.filter_app, length_app. lia. Qed.
Lemma cntm_app l l' m : cntm (l ++ l') m = cntm l m + cntm l' m.
Proof. unfold cntm. rewrite list.filter_app, length_app. lia. Qed.
Lemma cnt_cons r l m : cnt (r :: l) m = (if decide (r.1 = m) then 1 else 0) + cnt l m.
Proof. unfold cnt. rewrite list.filter_cons. case_decide; cbn [length]; lia. Qed.
Lemma cntm_cons x l m : cntm (x :: l) m = (if decide (x = m) then 1 else 0) + cntm l m.
Proof. unfold cntm. rewrite list.filter_cons. case_decide; cbn [length]; lia. Qed.
Lemma cntm_cons_eq m l : cntm (m :: l) m = 1 + cntm l m.
Proof. rewrite cntm_cons. by rewrite decide_True. Qed.
Lemma cntm_cons_ne x l m : x <> m -> cntm (x :: l) m = cntm l m.
Proof. intros. rewrite cntm_cons. by rewrite decide_False. Qed.
Lemma cnt_cons_eq m k l : cnt ((m, k) :: l) m = 1 + cnt l m.
Proof. rewrite cnt_cons. by rewrite decide_True. Qed.
Lemma cnt_cons_ne r l m : r.1 <> m -> cnt (r :: l) m = cnt l m.
Proof. intros. rewrite cnt_cons. by rewrite decide_False. Qed.
Lemma cnt_nil m : cnt [] m = 0.
Proof. done. Qed.
Lemma cntm_nil m : cntm [] m = 0.
Proof. done. Qed.
#[global] Instance cnt_proper : Proper ((≡ₚ) ==> eq ==> eq) cnt.
Proof. intros l l' E m ? <-. unfold cnt. by rewrite E. Qed.
#[global] Instance cntm_proper : Proper ((≡ₚ) ==> eq ==> eq) cntm.
Proof. intros l l' E m ? <-. unfold cntm. by rewrite E. Qed.
Lemma cnt_elem r l : r ∈ l -> 0 < cnt l r.1.
Proof. intros Hr. apply elem_of_Permutation in Hr as (l' & ->). rewrite cnt_cons. rewrite decide_True by done. pose proof (cnt_nonneg l' r.1). lia. Qed.
Lemma cntm_elem x l : x ∈ l -> 0 < cntm l x.
Proof. intros Hr. apply elem_of_Permutation in Hr as (l' & ->). rewrite cntm_cons. rewrite decide_True by done. pose proof (cntm_nonneg l' x). lia. Qed.
Lemma cnt_zero l m : cnt l m = 0 -> forall k, (m, k) ∉ l.
Proof. intros H0 k Hk. pose proof (cnt_elem _ _ Hk). cbn [fst] in *. lia. Qed.
Lemma cntm_zero l m : cntm l m = 0 -> m ∉ l.
Proof. intros H0 Hk. pose proof (cntm_elem _ _ Hk). lia. Qed.

(** Requests without an answer, over all messages. *)
Definition msum (ms : gmap nat message) : Z := map_fold (fun _ x acc => request_list_count x + acc) 0 ms.

Lemma msum_insert ms m x : ms !! m = None -> msum (<[m := x]> ms) = request_list_count x + msum ms.
Proof. intros Hm. unfold msum. rewrite map_fold_insert_L; [done|intros; lia|done]. Qed.
Lemma msum_delete ms m x : ms !! m = Some x -> msum ms = request_list_count x + msum (delete m ms).
Proof. intros Hm. rewrite <- (insert_delete_id ms m x Hm) at 1. by rewrite msum_insert by apply lookup_delete_eq. Qed.
Lemma msum_update ms m x y : ms !! m = Some x -> msum (<[m := y]> ms) = msum ms - request_list_count x + request_list_count y.
Proof. intros Hm. rewrite <- insert_delete_eq, msum_insert by apply lookup_delete_eq. rewrite (msum_delete ms m x Hm). lia. Qed.
Lemma msum_nonneg ms : (forall m x, ms !! m = Some x -> 0 <= request_list_count x) -> 0 <= msum ms.
Proof.
  induction ms as [|m x ms Hm IH] using map_ind; intros Hp; [done|]. rewrite msum_insert by done.
  pose proof (Hp m x ltac:(by rewrite lookup_insert_eq)). enough (0 <= msum ms) by lia. apply IH. intros m' x' Hx. apply (Hp m'). rewrite lookup_insert_ne by congruence. done.
Qed.
Lemma msum_ge ms m x : (forall m x, ms !! m = Some x -> 0 <= request_list_count x) -> ms !! m = Some x -> request_list_count x <= msum ms.
Proof.
  intros Hp Hm. rewrite (msum_delete ms m x Hm). enough (0 <= msum (delete m ms)) by lia. apply msum_nonneg. intros m' x' Hx. apply lookup_delete_Some in Hx as [_ Hx]. by eapply Hp.
Qed.

(** ** The invariant

    [T] are the requests of the connection that request threads have to process,
    [D] those that come back, [h] those at hand, [X] the messages referenced by
    buffers at hand, [L] the bytes of buffers that were thrown away; with [qd] the
    requests on the list of a message are counted. *)

Definition outs (c : conn) : list nat := map cleanup (output c).
Definition enc (p : P) : list Z := concat (default [] (h_encode p)).

Record message_ok (qd : bool) (c : conn) (T D h : list req) (X : list nat) (m : nat) (x : message) : Prop := {
  mo_ref : m_ref x = (if decide (m ∈ message_list c) then 1 else 0) + cntm (X ++ outs c) m + cnt (T ++ D) m;
  mo_alive : 0 < m_ref x;
  mo_count : (if qd then Z.of_nat (length (request_list x)) else 0) + cnt (T ++ D ++ h) m <= request_list_count x;
  mo_out : m ∉ message_list c -> cnt (T ++ D ++ h) m = 0;
  mo_list : NoDup (request_list x);
  mo_queued : forall k, k ∈ request_list x -> (m, k) ∉ T ++ D ++ h;
  mo_there : forall k, k ∈ request_list x ++ request_done_list x -> (k < length (requests x))%nat;
  mo_fresh : forall k q, k ∈ request_list x -> requests x !! k = Some q -> retcode q = EASY_OK;
  mo_wait : Forall (fun q => args q = NotWaiting) (requests x);
  mo_next : (m < next_message c)%nat }.

Record core (qd : bool) (c : conn) (T D h : list req) (X : list nat) (L : list Z) : Prop := {
  ok_list : NoDup (message_list c);
  ok_listed : forall m, m ∈ message_list c -> is_Some (messages c !! m);
  ok_message : forall m x, messages c !! m = Some x -> message_ok qd c T D h X m x;
  ok_out : forall m, m ∈ X ++ outs c -> is_Some (messages c !! m);
  ok_req : forall m k, (m, k) ∈ T ++ D ++ h -> exists x q, messages c !! m = Some x /\ requests x !! k = Some q;
  ok_back : forall m k x q, (m, k) ∈ D -> messages c !! m = Some x -> requests x !! k = Some q -> retcode q = EASY_OK \/ retcode q = EASY_ERROR;
  ok_nodup : NoDup (T ++ D ++ h);
  ok_doing : msum (messages c) <= doing_request_count c;
  ok_sessions : session_list c = [];
  ok_stream : sent c ++ concat (map data (output c)) ++ L = concat (map enc (answers c)) }.

Lemma core_count qd c T D h X L m x : core qd c T D h X L -> messages c !! m = Some x -> 0 <= request_list_count x.
Proof. intros C Hm. pose proof (mo_count _ _ _ _ _ _ _ _ (ok_message _ _ _ _ _ _ _ C m x Hm)). pose proof (cnt_nonneg (T ++ D ++ h) m). destruct qd; lia. Qed.

(** Changing a message without touching its reference count. *)
Lemma core_update qd c T D h X L m x y : core qd c T D h X L -> messages c !! m = Some x -> m_ref y = m_ref x -> (if qd then Z.of_nat (length (request_list y)) else 0) + cnt (T ++ D ++ h) m <= request_list_count y ->
  request_list_count y <= request_list_count x -> NoDup (request_list y) -> (forall k, k ∈ request_list y -> (m, k) ∉ T ++ D ++ h) ->
  (forall k, k ∈ request_list y ++ request_done_list y -> (k < length (requests y))%nat) -> Forall (fun q => args q = NotWaiting) (requests y) ->
  (forall k q, (m, k) ∈ T ++ D ++ h -> requests x !! k = Some q -> exists q', requests y !! k = Some q') ->
  (forall k q, (m, k) ∈ D -> requests y !! k = Some q -> retcode q = EASY_OK \/ retcode q = EASY_ERROR) -> (forall k q, k ∈ request_list y -> requests y !! k = Some q -> retcode q = EASY_OK) ->
  core qd (c_set_messages (<[m := y]> (messages c)) (next_message c) c) T D h X L.
Proof.
  intros C Hm Hr Hc Hc' Hn Hq Ht Hw Hreq Hback Hfr. pose proof C as []. split; cbn [messages message_list c_set_messages output session_list doing_request_count sent answers]; try done.
  - intros m' Hm'. destruct (decide (m' = m)) as [->|]; [by rewrite lookup_insert_eq|]. rewrite lookup_insert_ne by done. auto.
  - intros m' x' Hx'. apply lookup_insert_Some in Hx' as [[<- <-]|[Hne Hx']]; [|destruct (ok_message0 m' x' Hx'); by split].
    destruct (ok_message0 m x Hm). split; try done; cbn [message_list c_set_messages]; rewrite Hr; done.
  - intros m' Hm'. destruct (decide (m' = m)) as [->|]; [by rewrite lookup_insert_eq|]. rewrite lookup_insert_ne by done. auto.
  - intros m' k Hk. destruct (ok_req0 m' k Hk) as (x' & q & Hx' & Hq'). destruct (decide (m' = m)) as [->|]; [|exists x', q; by rewrite lookup_insert_ne].
    assert (x' = x) as -> by congruence. destruct (Hreq k q Hk Hq') as (q' & ?). exists y, q'. by rewrite lookup_insert_eq.
  - intros m' k x' q Hk Hx' Hq'. apply lookup_insert_Some in Hx' as [[<- <-]|[Hne Hx']]; [by eapply Hback|by eapply ok_back0].
  - rewrite (msum_update _ _ _ _ Hm). lia.
Qed.

(** ** Giving references back *)

Local Notation "x <- m ;; k" := (bind m (fun x => k)) (at level 100, m at next level, right associativity).
Local Notation "m ;; k" := (bind m (fun _ => k)) (at level 100, right associativity).

(** What an operation leaves alone: the listed messages but for their counters. *)
Record kept (c c' : conn) : Prop := {
  kp_list : message_list c' = message_list c;
  kp_messages : forall m, m ∈ message_list c -> m_set_ref 0 <$> messages c' !! m = m_set_ref 0 <$> messages c !! m;
  kp_ref : c_ref c' = c_ref c;
  kp_status : c_status c' = c_status c;
  kp_freed : freed c' = freed c }.
#[global] Instance kept_preorder : PreOrder kept.
Proof.
  split; [intros c; by split|]. intros c1 c2 c3 [] []. split; try congruence. intros m Hm. rewrite kp_messages1 by congruence. auto.
Qed.

Lemma kept_at c c' m x : kept c c' -> m ∈ message_list c -> messages c !! m = Some x -> exists x', messages c' !! m = Some x' /\ m_set_ref 0 x' = m_set_ref 0 x.
Proof. intros K Hm Hx. pose proof (kp_messages _ _ K m Hm) as E. rewrite Hx in E. destruct (messages c' !! m) as [x'|]; [|done]. exists x'. split; [done|]. by apply (inj Some) in E. Qed.

Lemma server_done_noop (c : conn) (e : environment) m k x q : messages c !! m = Some x -> requests x !! k = Some q -> args q = NotWaiting ->
  easy_request_server_done (m, k) (c, e) = Some (tt, (c, e)).
Proof.
  intros Hm Hk Hq. unfold easy_request_server_done, get_request, get_message, bind, get_conn, ret. cbn [fst snd]. rewrite Hm. cbn [fst snd]. rewrite Hk, Hq. done.
Qed.

Lemma server_done_all (c : conn) (e : environment) m x l : messages c !! m = Some x -> Forall (fun q => args q = NotWaiting) (requests x) -> (forall k, k ∈ l -> (k < length (requests x))%nat) ->
  for_each l (fun k => easy_request_server_done (m, k)) (c, e) = Some (tt, (c, e)).
Proof.
  intros Hm Hw. induction l as [|k l IH]; intros Hl; [done|]. cbn [for_each]. unfold bind at 1.
  destruct (lookup_lt_is_Some_2 (requests x) k ltac:(apply Hl; left)) as [q Hq]. rewrite (server_done_noop c e m k x q Hm Hq) by (by apply (list.Forall_lookup_1 _ _ _ _ Hw Hq)).
  apply IH. intros k' Hk'. apply Hl. by right.
Qed.

Definition unref (m : nat) : @M P H unit :=
  mod_message m (fun x => m_set_ref (m_ref x - 1) x) ;;
  x <- get_message m ;;
  if m_ref x =? 0 then
    for_each (request_list x) (fun k => easy_request_server_done (m, k)) ;;
    for_each (request_done_list x) (fun k => easy_request_server_done (m, k)) ;;
    mod_conn (fun c : conn => c_set_list (filter (fun x => x <> m) (message_list c)) c) ;;
    mod_conn (fun c : conn => c_set_messages (delete m (messages c)) (next_message c) c)
  else ret tt.

(** A counter less, still above zero. *)
Lemma core_unref qd c T D h X L m x : core qd c T D h (m :: X) L -> messages c !! m = Some x -> 1 < m_ref x ->
  core qd (c_set_messages (<[m := m_set_ref (m_ref x - 1) x]> (messages c)) (next_message c) c) T D h X L.
Proof.
  intros C Hm Hr. pose proof C as []. split; cbn [messages message_list c_set_messages output session_list doing_request_count sent answers outs]; try done.
  - intros m' Hm'. destruct (decide (m' = m)) as [->|]; [by rewrite lookup_insert_eq|]. rewrite lookup_insert_ne by done. auto.
  - intros m' x' Hx'. apply lookup_insert_Some in Hx' as [[<- <-]|[Hne Hx']].
    + destruct (ok_message0 m x Hm) as [E]. cbn [app] in E. rewrite cntm_cons_eq in E. split; cbn; try done; unfold outs in *; cbn [output c_set_messages]; lia.
    + destruct (ok_message0 m' x' Hx') as [E]. cbn [app] in E. rewrite cntm_cons_ne in E by done. by split.
  - intros m' Hm'. destruct (decide (m' = m)) as [->|]; [by rewrite lookup_insert_eq|]. rewrite lookup_insert_ne by done. apply ok_out0. cbn [app]. by right.
  - intros m' k Hk. destruct (ok_req0 m' k Hk) as (x' & q & Hx' & Hq'). destruct (decide (m' = m)) as [->|]; [|exists x', q; by rewrite lookup_insert_ne].
    assert (x' = x) as -> by congruence. eexists _, q. by rewrite lookup_insert_eq.
  - intros m' k x' q Hk Hx' Hq'. apply lookup_insert_Some in Hx' as [[<- <-]|[Hne Hx']]; [by eapply ok_back0|by eapply ok_back0].
  - rewrite (msum_update _ _ _ _ Hm). cbn. lia.
Qed.

(** The last reference: nothing refers to the message any more. *)
Lemma core_free qd c T D h X L m x : core qd c T D h (m :: X) L -> messages c !! m = Some x -> m_ref x = 1 ->
  m ∉ message_list c /\ core qd (c_set_messages (delete m (messages c)) (next_message c) c) T D h X L.
Proof.
  intros C Hm Hr. pose proof C as []. destruct (ok_message0 m x Hm). cbn [app] in mo_ref0. rewrite cntm_cons_eq in mo_ref0.
  pose proof (cntm_nonneg (X ++ outs c) m). pose proof (cnt_nonneg (T ++ D) m).
  destruct (decide (m ∈ message_list c)) as [|Hni]; [lia|]. split; [done|]. specialize (mo_out0 Hni).
  assert (forall k, (m, k) ∉ T ++ D ++ h) as Hno by (by apply cnt_zero). assert (m ∉ X ++ outs c) as Hnx by (apply cntm_zero; lia).
  split; cbn [messages message_list c_set_messages output session_list doing_request_count sent answers outs]; try done.
  - intros m' Hm'. rewrite lookup_delete_ne by congruence. auto.
  - intros m' x' Hx'. apply lookup_delete_Some in Hx' as [Hne Hx']. destruct (ok_message0 m' x' Hx') as [E]. cbn [app] in E. rewrite cntm_cons_ne in E by done. by split.
  - intros m' Hm'. rewrite lookup_delete_ne by (intros ->; done). apply ok_out0. cbn [app]. by right.
  - intros m' k Hk. destruct (ok_req0 m' k Hk) as (x' & q & Hx' & Hq'). exists x', q. rewrite lookup_delete_ne; [done|]. intros ->. by eapply Hno.
  - intros m' k x' q Hk Hx' Hq'. apply lookup_delete_Some in Hx' as [Hne Hx']. by eapply ok_back0.
  - rewrite (msum_delete _ _ _ Hm) in ok_doing0. pose proof (core_count _ _ _ _ _ _ _ _ _ C Hm). lia.
Qed.

Lemma unref_ok qd c (e : environment) T D h X L m : core qd c T D h (m :: X) L -> wp (unref m) (c, e) (fun _ c' e' => core qd c' T D h X L /\ e' = e /\ kept c c' /\ output c' = output c).
Proof.
  intros C. destruct (ok_out _ _ _ _ _ _ _ C m ltac:(left)) as [x Hx]. pose proof (ok_message _ _ _ _ _ _ _ C m x Hx) as []. apply wpc_bind, (wp_mod_message Hx), wpc_bind.
  apply (wp_message (x := m_set_ref (m_ref x - 1) x)); [apply lookup_insert_eq|]. cbn [m_ref m_set_ref request_list request_done_list]. destruct (Z.eqb_spec (m_ref x - 1) 0) as [E|E].
  - destruct (core_free qd c T D h X L m x C Hx ltac:(lia)) as [Hni C']. set (c1 := c_set_messages _ _ _). assert (messages c1 !! m = Some (m_set_ref (m_ref x - 1) x)) as Hm1 by apply lookup_insert_eq.
    assert (forall k, k ∈ request_list x \/ k ∈ request_done_list x -> (k < length (requests x))%nat) as Hl by (intros k Hk; apply mo_there0, elem_of_app; done).
    unfold wp, bind at 1. rewrite (server_done_all c1 e m _ (request_list x) Hm1 mo_wait0) by auto. unfold bind at 1. rewrite (server_done_all c1 e m _ (request_done_list x) Hm1 mo_wait0) by auto.
    cbn [mod_conn bind fst snd]. assert (filter (fun y => y <> m) (message_list c1) = message_list c) as Ef by (apply list_filter_all; by intros y Hy ->). rewrite Ef.
    unfold c1. cbn. rewrite delete_insert_eq. destruct c. split_and!; [done|done| |done]. split; try done. intros m' Hm'. cbn in *. rewrite lookup_delete_ne; [done|congruence].
  - apply wp_ret. split_and!; [apply core_unref; [done|done|lia]|done| |done]. split; try done. intros m' Hm'. cbn. destruct (decide (m' = m)) as [->|]; [by rewrite lookup_insert_eq, Hx|by rewrite lookup_insert_ne].
Qed.

Lemma buf_destroy_ok qd c (e : environment) T D h X L b : core qd c T D h (cleanup b :: X) L -> wp (easy_buf_destroy b) (c, e) (fun _ c' e' => core qd c' T D h X L /\ e' = e /\ kept c c' /\ output c' = output c).
Proof. intros C. apply wpc_bind, wp_ret. by apply unref_ok. Qed.

Lemma bufs_destroy_ok qd T D h X L l : forall c (e : environment), core qd c T D h (map cleanup l ++ X) L -> wp (for_each l easy_buf_destroy) (c, e) (fun _ c' e' => core qd c' T D h X L /\ e' = e /\ kept c c' /\ output c' = output c).
Proof.
  induction l as [|b l IH]; intros c e C; cbn [for_each]; [apply wp_ret; split_and!; done|]. apply wpc_bind. eapply wpc_mono; [exact (buf_destroy_ok qd c e T D h (map cleanup l ++ X) L b C)|]. intros _ c1 e1 (C1 & -> & K1 & O1).
  eapply wpc_mono; [by apply IH|]. intros _ c2 e2 (C2 & -> & K2 & O2). split_and!; [done|done|by transitivity c1|congruence].
Qed.

(** Taking a message without open requests off the list leaves its reference. *)
Lemma core_unlist qd c T D h X L m : core qd c T D h X L -> m ∈ message_list c -> cnt (T ++ D ++ h) m = 0 ->
  core qd (c_set_list (filter (fun x => x <> m) (message_list c)) c) T D h (m :: X) L.
Proof.
  intros C Hin H0. pose proof C as []. split; cbn [messages message_list c_set_list output session_list doing_request_count sent answers outs]; try done.
  - by apply list.NoDup_filter.
  - intros m' Hm'. apply list_elem_of_filter in Hm' as [_ Hm']. auto.
  - intros m' x' Hx'. destruct (ok_message0 m' x' Hx'). split; try done; cbn [message_list c_set_list outs app].
    + destruct (decide (m' = m)) as [->|Hne].
      * rewrite cntm_cons_eq. rewrite mo_ref0. rewrite decide_True by done. rewrite decide_False by (rewrite list_elem_of_filter; naive_solver). change (outs (c_set_list _ c)) with (outs c). lia.
      * rewrite cntm_cons_ne by done. rewrite mo_ref0. change (outs (c_set_list _ c)) with (outs c). f_equal. f_equal.
        destruct (decide (m' ∈ message_list c)); [rewrite decide_True by (by apply list_elem_of_filter)|rewrite decide_False by (rewrite list_elem_of_filter; naive_solver)]; done.
    + intros Hni. destruct (decide (m' = m)) as [->|Hne]; [done|]. apply mo_out0. intros Hi. apply Hni, list_elem_of_filter. done.
  - intros m' Hm'. cbn [app] in Hm'. apply elem_of_cons in Hm' as [->|Hm']; [auto|]. by apply ok_out0.
Qed.

Lemma core_same qd c T D h X L m x y : core qd c T D h X L -> messages c !! m = Some x -> m_ref y = m_ref x -> request_list_count y = request_list_count x ->
  request_list y = request_list x -> request_done_list y = request_done_list x -> requests y = requests x -> core qd (c_set_messages (<[m := y]> (messages c)) (next_message c) c) T D h X L.
Proof.
  intros C Hm E1 E2 E3 E4 E5. pose proof (ok_message _ _ _ _ _ _ _ C m x Hm) as [].
  apply (core_update qd c T D h X L m x y C Hm); rewrite ?E2, ?E3, ?E4, ?E5; [done|done|lia|done|done|done|done|eauto| |done]. intros k q Hk Hq. by apply (ok_back _ _ _ _ _ _ _ C m k x q).
Qed.

Lemma message_destroy_ok qd c (e : environment) T D h X L m : core qd c T D h X L -> m ∈ message_list c -> cnt (T ++ D ++ h) m = 0 ->
  wp (easy_message_destroy m true) (c, e) (fun _ c' e' => core qd c' T D h X L /\ e' = e /\ kept (c_set_list (filter (fun x => x <> m) (message_list c)) c) c').
Proof.
  intros C Hin H0. destruct (ok_listed _ _ _ _ _ _ _ C m Hin) as [x Hx]. apply wpc_bind, wpc_bind, (wp_mod_message Hx), wp_mod_conn.
  set (c1 := c_set_messages _ _ _). assert (core qd c1 T D h X L) as C1 by (by apply (core_same qd c T D h X L m x)).
  pose proof (core_unlist qd c1 T D h X L m C1 Hin H0) as C2. eapply wpc_mono; [exact (unref_ok qd _ e T D h X L m C2)|]. intros _ c' e' (C' & -> & K & _). split_and!; [done|done|].
  etransitivity; [|exact K]. split; try done. intros m' Hm'. cbn [messages c_set_list c1 c_set_messages message_list] in *. apply list_elem_of_filter in Hm' as [Hne _]. by rewrite lookup_insert_ne.
Qed.

(** ** Writing *)

Definition quiet (e e' : environment) : Prop := threads e' = threads e /\ io_requests e' = io_requests e.

Lemma gather_prefix l : forall n k, exists r, concat (map data l) = concat (map data (gather l n k)) ++ r.
Proof.
  induction l as [|b l IH]; intros n k; cbn [gather map concat]; [by exists []|]. case_match; cbn [map concat].
  - exists (concat (map data l)). by rewrite app_nil_r.
  - destruct (IH (n + 1) (k + Z.of_nat (length (data b)))) as [r E]. exists r. by rewrite E, app_assoc.
Qed.

Lemma consume_ok l : forall n gone rest, 0 <= n <= Z.of_nat (length (concat (map data l))) -> consume l n = (gone, rest) ->
  map cleanup l = map cleanup gone ++ map cleanup rest /\ concat (map data rest) = drop (Z.to_nat n) (concat (map data l)).
Proof.
  induction l as [|b l IH]; intros n gone rest Hn E; cbn [consume map concat] in *; [injection E as <- <-; by rewrite drop_nil|]. rewrite length_app in Hn.
  destruct (Z.leb_spec 0 (n - Z.of_nat (length (data b)))) as [H0|H0].
  - destruct (Z.leb_spec (n - Z.of_nat (length (data b))) 0) as [H1|H1].
    + injection E as <- <-. split; [done|]. replace (Z.to_nat n) with (length (data b)) by lia. by rewrite drop_app_length.
    + destruct (consume l (n - Z.of_nat (length (data b)))) as [g r] eqn:Ec. injection E as <- <-. destruct (IH (n - Z.of_nat (length (data b))) g r ltac:(lia) Ec) as [E1 E2].
      cbn [map app]. rewrite E1. split; [done|]. rewrite E2. rewrite drop_app_ge by lia. f_equal. lia.
  - injection E as <- <-. cbn [map concat data cleanup app]. split; [done|]. by rewrite drop_app_le by lia.
Qed.

Lemma socket_write_ok qd c (e : environment) T D h : core qd c T D h [] [] -> wp easy_socket_write (c, e) (fun _ c' e' => core qd c' T D h [] [] /\ quiet e e' /\ kept c c').
Proof.
  intros C. unfold easy_socket_write. apply wpc_bind, wp_conn, wpc_bind, wp_env. destruct (match socket e with [] => (WAgain, []) | w :: more => (w, more) end) as [w more].
  apply wpc_bind, wp_mod_env. destruct w as [n| |]; [|apply wp_ret; by split_and!..].
  set (k := Z.max 0 _). assert (0 <= k <= Z.of_nat (length (iov_bytes (output c)))) as Hk by (unfold k; lia).
  destruct (gather_prefix (output c) 0 0) as [r Er]. fold (iov_bytes (output c)) in Er.
  destruct (consume (output c) k) as [gone rest] eqn:Ec. destruct (consume_ok (output c) k gone rest ltac:(rewrite Er, length_app; lia) Ec) as [Eo Ed].
  set (c1 := c_set_output rest (c_set_sent (sent c ++ take (Z.to_nat k) (iov_bytes (output c))) c)).
  assert (core qd c1 T D h (map cleanup gone ++ []) []) as C1.
  { rewrite app_nil_r. pose proof C as []. split; cbn [messages message_list c1 c_set_output c_set_sent output session_list doing_request_count sent answers outs]; try done.
    - intros m x Hx. destruct (ok_message0 m x Hx). split; try done. cbn [c1 c_set_output c_set_sent message_list outs output]. cbn [app] in mo_ref0. rewrite mo_ref0. unfold outs. by rewrite Eo.
    - intros m Hm. apply ok_out0. cbn [app]. unfold outs. by rewrite Eo.
    - rewrite <- ok_stream0, !app_nil_r, Ed, <- app_assoc. f_equal. replace (take (Z.to_nat k) (iov_bytes (output c))) with (take (Z.to_nat k) (concat (map data (output c)))) by (rewrite Er, take_app_le by lia; done).
      apply take_drop. }
  apply wpc_bind, wp_mod_conn, wpc_bind, wp_mod_conn, wpc_bind. eapply wpc_mono; [exact (bufs_destroy_ok qd T D h [] [] gone c1 (e_set_socket more e) C1)|].
  intros _ c' e' (C' & -> & K & _). apply wp_ret. split_and!; [done|done|]. by transitivity c1.
Qed.

Lemma write_socket_ok qd c (e : environment) T D h : core qd c T D h [] [] -> wp easy_connection_write_socket (c, e) (fun _ c' e' => core qd c' T D h [] [] /\ quiet e e' /\ kept c c').
Proof.
  intros C. unfold easy_connection_write_socket. apply wpc_bind, wp_conn. destruct (output c) as [|b l]; [apply wp_ret; by split_and!|].
  apply wpc_bind. eapply wpc_mono; [by apply socket_write_ok|]. intros rc c1 e1 (C1 & Q1 & K1). destruct (rc =? EASY_ERROR).
  - apply wpc_bind, wp_mod_conn, wp_ret. split_and!; [|done|etransitivity; [exact K1|by split]]. pose proof C1 as []. split; try done. intros m x Hx. destruct (ok_message0 m x Hx). by split.
  - unfold easy_connection_write_again. apply wpc_bind, wp_conn. destruct (output c1); [|apply wp_ret; by split_and!]. rewrite (ok_sessions _ _ _ _ _ _ _ C1). apply wp_ret; by split_and!.
Qed.

(** ** Requests changing hands *)

Lemma cnt_hand_eq (T D h : list req) m k : cnt (T ++ D ++ (m, k) :: h) m = 1 + cnt (T ++ D ++ h) m.
Proof. rewrite !cnt_app, cnt_cons_eq. lia. Qed.
Lemma cnt_hand_ne (T D h : list req) m k m' : m' <> m -> cnt (T ++ D ++ (m, k) :: h) m' = cnt (T ++ D ++ h) m'.
Proof. intros Hne. by rewrite !cnt_app, cnt_cons_ne by (cbn; congruence). Qed.

Lemma core_rearrange qd c T D h X L T' D' h' X' : core qd c T D h X L -> (forall r, r ∈ T' ++ D' ++ h' -> r ∈ T ++ D ++ h) ->
  (forall m k x q, (m, k) ∈ D' -> messages c !! m = Some x -> requests x !! k = Some q -> retcode q = EASY_OK \/ retcode q = EASY_ERROR) -> NoDup (T' ++ D' ++ h') ->
  (forall m, cntm X' m + cnt (T' ++ D') m = cntm X m + cnt (T ++ D) m) -> (forall m, cnt (T' ++ D' ++ h') m <= cnt (T ++ D ++ h) m) ->
  (forall m, m ∈ X' -> is_Some (messages c !! m)) -> core qd c T' D' h' X' L.
Proof.
  intros C Hs Hd Hn Hc Hle Hx. pose proof C as []. split; try done.
  - intros m x Hm. destruct (ok_message0 m x Hm). pose proof (Hc m). pose proof (Hle m). pose proof (cnt_nonneg (T' ++ D' ++ h') m). split; try done.
    + rewrite cntm_app in *. lia.
    + lia.
    + intros Hni. specialize (mo_out0 Hni). lia.
    + intros k Hk Hin. by eapply mo_queued0, Hs.
  - intros m Hm. apply elem_of_app in Hm as [Hm|Hm]; [auto|]. apply ok_out0, elem_of_app. by right.
  - intros m k Hk. by apply ok_req0, Hs.
Qed.

Lemma core_regroup qd c T D h X L T' D' h' X' : core qd c T D h X L -> (forall r, r ∈ T' ++ D' ++ h' -> r ∈ T ++ D ++ h) -> (forall r, r ∈ D' -> r ∈ D) -> NoDup (T' ++ D' ++ h') ->
  (forall m, cntm X' m + cnt (T' ++ D') m = cntm X m + cnt (T ++ D) m) -> (forall m, cnt (T' ++ D' ++ h') m <= cnt (T ++ D ++ h) m) ->
  (forall m, m ∈ X' -> is_Some (messages c !! m)) -> core qd c T' D' h' X' L.
Proof. intros C Hs Hd. apply (core_rearrange qd c T D h X L); [done|done|]. intros m k x q Hk. by apply (ok_back _ _ _ _ _ _ _ C), Hd. Qed.

Lemma core_perm qd c T D h X L T' D' : core qd c T D h X L -> T' ≡ₚ T -> D' ≡ₚ D -> core qd c T' D' h X L.
Proof.
  intros C ET ED. apply (core_regroup qd c T D h X L); [done|intros r; by rewrite ET, ED|intros r; by rewrite ED|rewrite ET, ED; apply C|intros m; by rewrite ET, ED|intros m; by rewrite ET, ED|].
  intros m Hm. apply (ok_out _ _ _ _ _ _ _ C), elem_of_app. by left.
Qed.

Lemma core_drop qd c T D h X L r : core qd c T D (r :: h) X L -> core qd c T D h X L.
Proof.
  intros C. apply (core_regroup qd c T D (r :: h) X L); [done|set_solver|done| |done| |].
  - pose proof (ok_nodup _ _ _ _ _ _ _ C) as Hn. rewrite <- Permutation_middle, <- Permutation_middle in Hn. by apply list.NoDup_cons in Hn as [_ Hn].
  - intros m. rewrite !cnt_app, cnt_cons. case_decide; lia.
  - intros m Hm. apply (ok_out _ _ _ _ _ _ _ C), elem_of_app. by left.
Qed.

(** A request that came back, with the reference it brought. *)
Lemma core_received qd c T D h X L r : core qd c T (r :: D) h X L -> core qd c T D (r :: h) (r.1 :: X) L.
Proof.
  intros C. pose proof (ok_nodup _ _ _ _ _ _ _ C) as Hn. apply (core_regroup qd c T (r :: D) h X L); [done|set_solver|set_solver| | | |].
  - rewrite <- (Permutation_middle D h r). exact Hn.
  - intros m. rewrite !cnt_app, cntm_cons, cnt_cons. lia.
  - intros m. rewrite !cnt_app, !cnt_cons. lia.
  - intros m Hm. apply elem_of_cons in Hm as [->|Hm]; [|apply (ok_out _ _ _ _ _ _ _ C), elem_of_app; by left].
    destruct r as [m k]. destruct (ok_req _ _ _ _ _ _ _ C m k) as (x & q & Hx & _); [set_solver|]. by exists x.
Qed.

(** A request at hand that a thread gets, with a reference. *)
Lemma core_given qd c T D h X L r : core qd c T D (r :: h) (r.1 :: X) L -> core qd c (r :: T) D h X L.
Proof.
  intros C. pose proof (ok_nodup _ _ _ _ _ _ _ C) as Hn. apply (core_regroup qd c T D (r :: h) (r.1 :: X) L); [done|set_solver|done| | | |].
  - rewrite <- (Permutation_middle D h r), <- (Permutation_middle T) in Hn. exact Hn.
  - intros m. cbn [app]. rewrite cnt_cons, cntm_cons. lia.
  - intros m. cbn [app]. rewrite cnt_cons, !cnt_app, cnt_cons. lia.
  - intros m Hm. apply (ok_out _ _ _ _ _ _ _ C), elem_of_app. left. by right.
Qed.

(** A reference more. *)
Lemma core_incref qd c T D h X L m x : core qd c T D h X L -> messages c !! m = Some x ->
  core qd (c_set_messages (<[m := m_set_ref (m_ref x + 1) x]> (messages c)) (next_message c) c) T D h (m :: X) L.
Proof.
  intros C Hm. pose proof C as []. split; cbn [messages message_list c_set_messages output session_list doing_request_count sent answers outs]; try done.
  - intros m' Hm'. destruct (decide (m' = m)) as [->|]; [by rewrite lookup_insert_eq|]. rewrite lookup_insert_ne by done. auto.
  - intros m' x' Hx'. apply lookup_insert_Some in Hx' as [[<- <-]|[Hne Hx']].
    + destruct (ok_message0 m x Hm). split; cbn [app message_list c_set_messages m_ref m_set_ref]; try done; [|lia]. rewrite cntm_cons_eq. change (outs (c_set_messages _ _ c)) with (outs c). lia.
    + destruct (ok_message0 m' x' Hx'). split; try done. cbn [app]. by rewrite cntm_cons_ne.
  - intros m' Hm'. destruct (decide (m' = m)) as [->|]; [by rewrite lookup_insert_eq|]. rewrite lookup_insert_ne by done. apply ok_out0. cbn [app] in Hm'. by apply elem_of_cons in Hm' as [?|Hm'].
  - intros m' k Hk. destruct (ok_req0 m' k Hk) as (x' & q & Hx' & Hq'). destruct (decide (m' = m)) as [->|]; [|exists x', q; by rewrite lookup_insert_ne].
    assert (x' = x) as -> by congruence. eexists _, q. by rewrite lookup_insert_eq.
  - intros m' k x' q Hk Hx' Hq'. apply lookup_insert_Some in Hx' as [[<- <-]|[Hne Hx']]; by eapply ok_back0.
  - rewrite (msum_update _ _ _ _ Hm). cbn. lia.
Qed.

(** The first request of a message. *)
Lemma core_dequeue c T D h X L m x k : core true c T D h X L -> messages c !! m = Some x -> m ∈ message_list c -> k ∈ request_list x ->
  core true (c_set_messages (<[m := m_set_list (filter (fun j => j <> k) (request_list x)) x]> (messages c)) (next_message c) c) T D ((m, k) :: h) X L.
Proof.
  intros C Hm Hl Hk. pose proof C as []. pose proof (ok_message0 m x Hm) as Mx. assert ((m, k) ∉ T ++ D ++ h) as Hnew by (by apply Mx).
  assert (forall m' k', (m', k') ∈ T ++ D ++ (m, k) :: h -> (m', k') = (m, k) \/ (m', k') ∈ T ++ D ++ h) as Hin by set_solver.
  split; cbn [messages message_list c_set_messages output session_list doing_request_count sent answers outs]; try done.
  - intros m' Hm'. destruct (decide (m' = m)) as [->|]; [by rewrite lookup_insert_eq|]. rewrite lookup_insert_ne by done. auto.
  - intros m' x' Hx'. apply lookup_insert_Some in Hx' as [[<- <-]|[Hne Hx']].
    + destruct Mx. assert (length (filter (fun j => j <> k) (request_list x)) = (length (request_list x) - 1)%nat) as Hlen.
      { apply list_elem_of_split in Hk as (l1 & l2 & E). rewrite E in mo_list0 |- *. rewrite filter_ne_split by done. rewrite !length_app. cbn [length]. lia. }
      assert (0 < length (request_list x))%nat by (destruct (request_list x); [by apply not_elem_of_nil in Hk|cbn; lia]).
      split; cbn [message_list c_set_messages m_set_list m_ref request_list_count request_list requests request_done_list]; try done.
      * rewrite cnt_hand_eq, Hlen. lia.
      * by apply list.NoDup_filter.
      * intros j Hj. apply list_elem_of_filter in Hj as [Hne Hj]. specialize (mo_queued0 j Hj). set_solver.
      * intros j Hj. apply mo_there0. apply elem_of_app in Hj as [Hj|Hj]; [apply list_elem_of_filter in Hj as [_ Hj]|]; set_solver.
      * intros j q Hj. apply list_elem_of_filter in Hj as [_ Hj]. by apply mo_fresh0.
    + destruct (ok_message0 m' x' Hx'). split; try done.
      * by rewrite cnt_hand_ne.
      * intros Hni. rewrite cnt_hand_ne by done. by apply mo_out0.
      * intros j Hj. specialize (mo_queued0 j Hj). set_solver.
  - intros m' Hm'. destruct (decide (m' = m)) as [->|]; [by rewrite lookup_insert_eq|]. rewrite lookup_insert_ne by done. auto.
  - intros m' k' Hk'. destruct (Hin m' k' Hk') as [[= -> ->]|Hr].
    + destruct (lookup_lt_is_Some_2 (requests x) k) as [q Hq]; [apply Mx; set_solver|]. eexists _, q. by rewrite lookup_insert_eq.
    + destruct (ok_req0 m' k' Hr) as (x' & q & Hx' & Hq'). destruct (decide (m' = m)) as [->|]; [|exists x', q; by rewrite lookup_insert_ne].
      assert (x' = x) as -> by congruence. eexists _, q. by rewrite lookup_insert_eq.
  - intros m' k' x' q Hk' Hx' Hq'. apply lookup_insert_Some in Hx' as [[<- <-]|[Hne Hx']]; by eapply ok_back0.
  - rewrite <- !Permutation_middle. by apply list.NoDup_cons.
  - rewrite (msum_update _ _ _ _ Hm). cbn. lia.
Qed.

(** ** Answering *)

(** What an operation leaves alone of message [m] and the connection. *)
Record steady (m : nat) (c c' : conn) : Prop := {
  st_list : message_list c' = message_list c;
  st_queue : request_list <$> messages c' !! m = request_list <$> messages c !! m;
  st_ref : c_ref c' = c_ref c;
  st_status : c_status c' = c_status c;
  st_freed : freed c' = freed c }.
#[global] Instance steady_preorder m : PreOrder (steady m).
Proof. split; [by split|]. intros c1 c2 c3 [] []. split; congruence. Qed.

Lemma kept_steady m c c' : m ∈ message_list c -> kept c c' -> steady m c c'.
Proof.
  intros Hm []. split; try done. specialize (kp_messages0 m Hm). destruct (messages c' !! m) as [x'|], (messages c !! m) as [x|]; try done.
  cbn in *. apply (inj Some) in kp_messages0. f_equal. exact (f_equal request_list kp_messages0).
Qed.

Lemma core_addout qd c T D h X L m b : core qd c T D h (m :: X) (b ++ L) -> core qd (c_set_output (output c ++ [Buf b m]) c) T D h X L.
Proof.
  intros C. pose proof C as []. assert (outs (c_set_output (output c ++ [Buf b m]) c) = outs c ++ [m]) as Eo by (unfold outs; cbn [output c_set_output]; by rewrite map_app).
  split; try done.
  - intros m' x Hx. destruct (ok_message0 m' x Hx). split; try done. rewrite Eo. cbn [message_list c_set_output]. rewrite mo_ref0. f_equal. f_equal. cbn [app]. rewrite cntm_cons, !cntm_app, cntm_cons, cntm_nil. lia.
  - intros m' Hm'. rewrite Eo in Hm'. apply ok_out0. cbn [app]. set_solver.
  - cbn [sent output answers c_set_output]. rewrite map_app, concat_app. cbn [map concat data]. rewrite app_nil_r, <- app_assoc. exact ok_stream0.
Qed.

Lemma addbufs_ok qd T D h X L as' m k bufs : forall c (e : environment), core qd (c_set_answers as' c) T D h X (concat bufs ++ L) -> m ∈ message_list c ->
  wp (for_each bufs (easy_request_addbuf (m, k))) (c, e) (fun _ c' e' => core qd (c_set_answers as' c') T D h X L /\ e' = e /\ kept c c' /\ answers c' = answers c).
Proof.
  induction bufs as [|b bufs IH]; intros c e C Hm; cbn [for_each]; [by apply wp_ret|]. destruct (ok_listed _ _ _ _ _ _ _ C m Hm) as [x Hx]. change (messages c !! m = Some x) in Hx.
  apply wpc_bind, wpc_bind, (wp_mod_message Hx), wp_mod_conn. cbn [fst]. set (c1 := c_set_messages _ _ _). set (c2 := c_set_output _ _).
  assert (core qd (c_set_answers as' c2) T D h X (concat bufs ++ L)) as C2.
  { cbn [concat] in C. rewrite <- app_assoc in C. exact (core_addout qd _ T D h X _ m b (core_incref qd _ T D h X _ m x C Hx)). }
  assert (kept c c2) as K2.
  { split; try done. intros m' Hm'. cbn. destruct (decide (m' = m)) as [->|]; [by rewrite lookup_insert_eq, Hx|by rewrite lookup_insert_ne]. }
  eapply wpc_mono; [by apply IH|]. intros _ c' e' (C' & -> & K & Ea). split_and!; [done|done|by transitivity c2|done].
Qed.

(** A request at hand is answered. *)
Lemma core_answered qd c T D h X L m k x : core qd c T D ((m, k) :: h) X L -> messages c !! m = Some x -> m ∈ message_list c ->
  core qd (c_set_counts (doing_request_count c - 1) (done_request_count c + 1)
    (c_set_messages (<[m := m_set_done (request_done_list x ++ [k]) (m_set_count (request_list_count x - 1) x)]> (messages c)) (next_message c) c)) T D h X L.
Proof.
  intros C Hm Hl. destruct (ok_req _ _ _ _ _ _ _ C m k) as (x' & q & Hx' & Hq); [set_solver|]. assert (x' = x) as -> by congruence.
  pose proof (mo_count _ _ _ _ _ _ _ _ (ok_message _ _ _ _ _ _ _ C m x Hm)) as Hcnt. rewrite cnt_hand_eq in Hcnt.
  assert (cnt (T ++ D ++ h) m >= 0) by (pose proof (cnt_nonneg (T ++ D ++ h) m); lia). pose proof (ok_doing _ _ _ _ _ _ _ C) as Hdoing.
  apply core_drop in C. pose proof (ok_message _ _ _ _ _ _ _ C m x Hm) as [].
  pose proof (core_update qd c T D h X L m x (m_set_done (request_done_list x ++ [k]) (m_set_count (request_list_count x - 1) x)) C Hm) as C1.
  cbn [m_ref m_set_done m_set_count request_list_count request_list request_done_list requests] in C1. destruct C1 as []; try done; try lia.
  - intros j Hj. rewrite app_assoc in Hj. apply elem_of_app in Hj as [Hj|Hj]; [by apply mo_there0|]. apply list_elem_of_singleton in Hj as ->. by eapply lookup_lt_Some.
  - eauto.
  - intros j q' Hj Hq'. by apply (ok_back _ _ _ _ _ _ _ C m j x q').
  - split; try done. intros m' y Hy. destruct (ok_message0 m' y Hy). by split.
    cbn [messages c_set_counts c_set_messages doing_request_count]. rewrite (msum_update _ _ _ _ Hm). cbn. lia.
Qed.

Lemma request_done_ok qd c (e : environment) T D h X m k x q : core qd c T D ((m, k) :: h) X [] -> m ∈ message_list c -> messages c !! m = Some x -> requests x !! k = Some q -> retcode q = EASY_OK ->
  wp (easy_connection_request_done (m, k)) (c, e) (fun rc c' e' => quiet e e' /\
    ((rc = EASY_ERROR /\ c' = c) \/ (rc = EASY_OK /\ core qd c' T D h X [] /\ steady m c c'))).
Proof.
  intros C Hl Hm Hk Hq. unfold easy_connection_request_done. apply wpc_bind, (wp_request Hm Hk). rewrite Hq.
  assert (forall c1 (e1 : environment), e1 = e -> core qd c1 T D ((m, k) :: h) X [] -> steady m c c1 -> wp (
    (if EASY_OK =? EASY_OK then
       m0 <- get_message m ;;
       c0 <- get_conn ;;
       if (0 <? request_list_count m0) && (0 <? doing_request_count c0) then
         mod_message m (fun m0 => m_set_count (request_list_count m0 - 1) m0) ;;
         mod_conn (fun c0 => c_set_counts (doing_request_count c0 - 1) (done_request_count c0 + 1) c0) ;;
         mod_env (fun e0 => e_set_counts (io_doing e0 - 1) (io_done e0) e0) ;;
         mod_message m (fun m0 => m_set_done (request_done_list m0 ++ [k]) m0)
       else EasyConnection.fail
     else ret tt) ;; ret EASY_OK) (c1, e1) (fun rc c' e' => quiet e e' /\ ((rc = EASY_ERROR /\ c' = c) \/ (rc = EASY_OK /\ core qd c' T D h X [] /\ steady m c c')))) as Hend.
  { intros c1 e1 -> C1 S1. assert (m ∈ message_list c1) as Hl1 by (by rewrite (st_list _ _ _ S1)). destruct (ok_listed _ _ _ _ _ _ _ C1 m Hl1) as [y Hy].
    pose proof (mo_count _ _ _ _ _ _ _ _ (ok_message _ _ _ _ _ _ _ C1 m y Hy)) as Hcnt. rewrite cnt_hand_eq in Hcnt. pose proof (cnt_nonneg (T ++ D ++ h) m).
    pose proof (msum_ge (messages c1) m y (fun m' x' Hx' => core_count _ _ _ _ _ _ _ _ _ C1 Hx') Hy). pose proof (ok_doing _ _ _ _ _ _ _ C1).
    apply wpc_bind. cbn [Z.eqb EASY_OK]. apply wpc_bind, (wp_message Hy), wpc_bind, wp_conn. assert (0 < request_list_count y) as Hpos by (destruct qd; lia).
    destruct (Z.ltb_spec 0 (request_list_count y)); [|lia]. destruct (Z.ltb_spec 0 (doing_request_count c1)); [|lia]. cbn [andb].
    apply wpc_bind, (wp_mod_message Hy), wpc_bind, wp_mod_conn, wpc_bind, wp_mod_env. eapply wp_mod_message; [apply lookup_insert_eq|]. apply wp_ret. split; [done|]. right. split; [done|].
    pose proof (core_answered qd c1 T D h X [] m k y C1 Hy Hl1) as C2.
    split; [cbn; cbn in C2; by rewrite insert_insert_eq|]. etransitivity; [exact S1|]. split; try done. cbn. by rewrite lookup_insert_eq, Hy. }
  destruct (opacket q) as [p|]; [|apply wpc_bind, wp_ret; by apply Hend].
  destruct (h_encode p) as [bufs|] eqn:Ep; [|apply wpc_bind, wp_ret, wp_ret; split; [done|by left]].
  apply wpc_bind, wpc_bind. eapply wpc_mono; [apply (addbufs_ok qd T D ((m, k) :: h) X [] (answers c ++ [p]) m k bufs c e); [|done]|].
  { pose proof C as []. split; try done. intros m' y Hy. destruct (ok_message0 m' y Hy). by split.
    cbn [sent output answers c_set_answers]. rewrite map_app, concat_app, <- ok_stream0. cbn [map concat]. unfold enc. rewrite Ep. cbn [default]. by rewrite !app_nil_r, app_assoc. }
  intros _ c1 e1 (C1 & -> & K1 & Ea). apply wpc_bind, wp_mod_conn, wpc_bind, wp_ret, wp_ret. rewrite Ea. apply Hend; [done|done|]. etransitivity; [by apply kept_steady|]. by split.
Qed.

(** ** Handing requests to threads *)

Definition tasks (e : environment) : list (nat * req) := concat (map (fun t => task_list t ++ todo t) (threads e)).
Definition backs (e : environment) : list (nat * req) := concat (map ready (threads e)) ++ io_requests e.

(** The threads got the requests [N] of connection [cid]. *)
Definition pushed (cid : nat) (N : list req) (e e' : environment) : Prop :=
  tasks e' ≡ₚ map (pair cid) N ++ tasks e /\ backs e' = backs e /\ length (threads e') = length (threads e).

Lemma pushed_quiet cid e e' : quiet e e' -> pushed cid [] e e'.
Proof. intros [E1 E2]. unfold pushed, tasks, backs. by rewrite E1, E2. Qed.
Lemma pushed_trans cid N N' e e1 e2 : pushed cid N e e1 -> pushed cid N' e1 e2 -> pushed cid (N' ++ N) e e2.
Proof. intros (E1 & E2 & E3) (F1 & F2 & F3). split_and!; [|congruence|congruence]. by rewrite F1, E1, map_app, app_assoc. Qed.

Lemma push_task_ok (r : nat * req) (ts : list easy_request_thread_t) i : (i < length ts)%nat ->
  concat (map (fun t => task_list t ++ todo t) (alter (push_task r) i ts)) ≡ₚ r :: concat (map (fun t => task_list t ++ todo t) ts) /\
  concat (map ready (alter (push_task r) i ts)) = concat (map ready ts).
Proof.
  revert i. induction ts as [|t ts IH]; intros i Hi; cbn [length] in *; [lia|]. destruct i as [|i]; cbn [alter list_alter map concat].
  - cbn [push_task task_list todo ready]. split; [|done]. rewrite <- !app_assoc. cbn [app]. by rewrite <- Permutation_middle.
  - destruct (IH i ltac:(lia)) as [E1 E2]. change (list_alter (push_task r) i ts) with (alter (push_task r) i ts). rewrite E1, E2. split; [|done]. by rewrite <- Permutation_middle.
Qed.

Lemma core_ext qd c c' T D h X L : core qd c T D h X L -> messages c' = messages c -> next_message c' = next_message c -> message_list c' = message_list c -> output c' = output c ->
  session_list c' = session_list c -> doing_request_count c' = doing_request_count c -> sent c' = sent c -> answers c' = answers c -> core qd c' T D h X L.
Proof.
  intros [] E1 E2 E3 E4 E5 E6 E7 E8. assert (outs c' = outs c) as E9 by (unfold outs; by rewrite E4).
  split; rewrite ?E1, ?E3, ?E4, ?E5, ?E6, ?E7, ?E8, ?E9; try done. intros m x Hx. destruct (ok_message0 m x Hx). split; rewrite ?E2, ?E3, ?E9; done.
Qed.

Lemma pool_push_ok qd c (e : environment) T D h X L cid m k hv x q : core qd c T D ((m, k) :: h) X L -> threads e <> [] -> messages c !! m = Some x -> requests x !! k = Some q ->
  wp (easy_thread_pool_push cid (m, k) hv) (c, e) (fun _ c' e' => core qd c' ((m, k) :: T) D h X L /\ pushed cid [(m, k)] e e' /\ message_list c' = message_list c /\
    request_list <$> messages c' !! m = request_list <$> messages c !! m /\ c_ref c' = c_ref c + 1 /\ c_status c' = c_status c /\ freed c' = freed c).
Proof.
  intros C Ht Hm Hk. pose proof (ok_message _ _ _ _ _ _ _ C m x Hm) as []. set (y := m_set_requests (<[k := r_set_retcode EASY_AGAIN q]> (requests x)) x).
  assert (core qd (c_set_messages (<[m := y]> (messages c)) (next_message c) c) T D ((m, k) :: h) X L) as C1.
  { apply (core_update qd c T D ((m, k) :: h) X L m x y C Hm); cbn [y m_ref m_set_requests request_list_count request_list request_done_list requests]; try done; try lia.
    - intros j Hj. rewrite length_insert. by apply mo_there0.
    - apply list.Forall_insert; [done|]. exact (list.Forall_lookup_1 _ _ _ _ mo_wait0 Hk).
    - intros j q' _ Hq'. destruct (decide (j = k)) as [->|]; [rewrite list_lookup_insert_eq by (by eapply lookup_lt_Some); eauto|rewrite list_lookup_insert_ne by done; eauto].
    - intros j q' Hj Hq'. destruct (decide (j = k)) as [->|Hne].
      + exfalso. pose proof (ok_nodup _ _ _ _ _ _ _ C) as Hn. apply list.NoDup_app in Hn as (_ & _ & Hn). apply list.NoDup_app in Hn as (_ & Hn & _). apply (Hn (m, k)); [done|left].
      + rewrite list_lookup_insert_ne in Hq' by done. by apply (ok_back _ _ _ _ _ _ _ C m j x q').
    - intros j q' Hj Hq'. assert (j <> k) by (intros ->; apply (mo_queued0 k Hj); set_solver). rewrite list_lookup_insert_ne in Hq' by done. by eapply mo_fresh0. }
  unfold easy_thread_pool_push. apply wpc_bind, (wp_mod_request Hm Hk), wpc_bind, wp_mod_conn, wpc_bind. eapply wp_mod_message; [apply lookup_insert_eq|]. apply wp_mod_env.
  pose proof (core_given qd _ T D h X L (m, k) (core_incref qd _ T D _ X L m y C1 ltac:(apply lookup_insert_eq))) as C2. split_and!; try done.
  - eapply core_ext; [exact C2|done..].
  - destruct (push_task_ok (cid, (m, k)) (threads e) (hv mod length (threads e)) ltac:(apply Nat.mod_upper_bound; destruct (threads e); done)) as [E1 E2].
    split_and!; [exact E1|unfold backs; cbn [threads e_set_threads io_requests]; by rewrite E2|cbn; by rewrite length_alter].
  - cbn. by rewrite lookup_insert_eq, Hm.
Qed.

(** ** Decoding *)

Record same_conn (c c' : conn) : Prop := {
  sc_list : message_list c' = message_list c;
  sc_ref : c_ref c' = c_ref c;
  sc_status : c_status c' = c_status c;
  sc_freed : freed c' = freed c }.
#[global] Instance same_conn_preorder : PreOrder same_conn.
Proof. split; [by split|]. intros c1 c2 c3 [] []. split; congruence. Qed.

(** [n] requests on the list of [m] are not counted yet. *)
Definition queued (c : conn) (A : list req) (m : nat) (n : Z) : Prop :=
  forall m' x, messages c !! m' = Some x -> Z.of_nat (length (request_list x)) + cnt A m' <= request_list_count x + (if decide (m' = m) then n else 0).

Lemma core_uncounted qd c T D h X L : core qd c T D h X L -> core false c T D h X L.
Proof. intros []. split; try done. intros m x Hx. destruct (ok_message0 m x Hx). split; try done. destruct qd; lia. Qed.
Lemma core_queued c T D h X L m : core true c T D h X L -> queued c (T ++ D ++ h) m 0.
Proof. intros C m' x Hx. pose proof (mo_count _ _ _ _ _ _ _ _ (ok_message _ _ _ _ _ _ _ C m' x Hx)) as Hc. cbv iota in Hc. case_decide; lia. Qed.
Lemma core_counted c T D h X L m : core false c T D h X L -> queued c (T ++ D ++ h) m 0 -> core true c T D h X L.
Proof. intros [] Hq. split; try done. intros m' x Hx. destruct (ok_message0 m' x Hx). split; try done. specialize (Hq m' x Hx). cbv iota. destruct (decide (m' = m)); lia. Qed.

Lemma decoded_step c T D h X L m x p rest n : core false c T D h X L -> messages c !! m = Some x -> queued c (T ++ D ++ h) m n ->
  let y := Message (requests x ++ [Request p None EASY_OK NotWaiting]) (m_ref x) (m_status x) (recycle_cnt x) rest (request_list x ++ [length (requests x)]) (request_done_list x) (request_list_count x) in
  let c' := c_set_messages (<[m := y]> (messages c)) (next_message c) c in
  core false c' T D h X L /\ queued c' (T ++ D ++ h) m (n + 1).
Proof.
  intros C Hm Hq y c'. pose proof (ok_message _ _ _ _ _ _ _ C m x Hm) as [].
  assert (forall j q, (m, j) ∈ T ++ D ++ h -> requests x !! j = Some q -> (j < length (requests x))%nat) as Hlt by (intros; by eapply lookup_lt_Some). split.
  - apply (core_update false c T D h X L m x y C Hm); cbn [y m_ref request_list_count request_list request_done_list requests]; try done; try lia.
    + apply list.NoDup_app. split_and!; [done| |apply NoDup_singleton]. intros j Hj Hj'. apply list_elem_of_singleton in Hj' as ->. pose proof (mo_there0 (length (requests x)) ltac:(set_solver)). lia.
    + intros j Hj. apply elem_of_app in Hj as [Hj|Hj]; [by apply mo_queued0|]. apply list_elem_of_singleton in Hj as ->. intros Hin.
      destruct (ok_req _ _ _ _ _ _ _ C m _ Hin) as (x' & q & Hx' & Hq'). assert (x' = x) as -> by congruence. apply lookup_lt_Some in Hq'. lia.
    + intros j Hj. rewrite length_app. cbn [length]. assert (j ∈ request_list x ++ request_done_list x \/ j = length (requests x)) as [Hj'|Hj'] by set_solver; [|lia]. pose proof (mo_there0 j Hj'). lia.
    + apply list.Forall_app. split; [done|]. by apply list.Forall_singleton.
    + intros j q Hj Hq'. exists q. rewrite lookup_app_l by eauto. done.
    + intros j q Hj Hq'. destruct (ok_req _ _ _ _ _ _ _ C m j ltac:(set_solver)) as (x' & q' & Hx' & Hq''). assert (x' = x) as -> by congruence.
      rewrite lookup_app_l in Hq' by (by eapply lookup_lt_Some). by apply (ok_back _ _ _ _ _ _ _ C m j x q).
    + intros j q Hj Hq'. apply elem_of_app in Hj as [Hj|Hj].
      * rewrite lookup_app_l in Hq' by (apply mo_there0; set_solver). by eapply mo_fresh0.
      * apply list_elem_of_singleton in Hj as ->. rewrite lookup_app_r, Nat.sub_diag in Hq' by lia. by injection Hq' as <-.
  - intros m' z Hz. cbn [c' messages c_set_messages] in Hz. apply lookup_insert_Some in Hz as [[<- <-]|[Hne Hz]].
    2: { specialize (Hq m' z Hz). rewrite decide_False in Hq |- * by done. done. }
    specialize (Hq m x Hm). rewrite decide_True in Hq |- * by done. cbn [y request_list request_list_count]. rewrite length_app. cbn [length]. lia.
Qed.

(** The handler makes progress: a packet takes at least a byte. *)
Definition progress : Prop := forall l p rest, h_decode l = DPacket p rest -> (length rest < length l)%nat.

Lemma decode_loop_ok T D h X L m (Hprog : progress) : forall fuel c (e : environment) n x, core false c T D h X L -> messages c !! m = Some x -> (length (input x) <= fuel)%nat -> 0 <= n -> queued c (T ++ D ++ h) m n ->
  wp (decode_loop fuel m n) (c, e) (fun r c' e' => e' = e /\ core false c' T D h X L /\ same_conn c c' /\ is_Some (messages c' !! m) /\
    match r with Some n' => 0 <= n' /\ queued c' (T ++ D ++ h) m n' | None => True end).
Proof.
  induction fuel as [|fuel IH]; intros c e n x C Hm Hf Hn Hq; cbn [decode_loop]; apply wpc_bind, (wp_message Hm).
  - destruct (input x); [|cbn in Hf; lia]. apply wp_ret. by split_and!.
  - destruct (input x) as [|b l] eqn:Ei; [apply wp_ret; by split_and!|]. rewrite <- Ei in *. destruct (h_decode (input x)) as [p rest| |] eqn:Ed; [|apply wp_ret; by split_and!..].
    apply wpc_bind, (wp_mod_message Hm), wpc_bind. eapply wp_mod_message; [apply lookup_insert_eq|]. apply wpc_bind. eapply wp_mod_message; [apply lookup_insert_eq|].
    cbn [m_set_input m_set_requests m_set_list requests request_list m_ref m_status recycle_cnt input request_done_list request_list_count messages c_set_messages next_message].
    rewrite !insert_insert_eq. rewrite length_app. cbn [length]. rewrite Nat.add_sub. destruct (decoded_step c T D h X L m x p rest n C Hm Hq) as [C1 Q1].
    eapply wpc_mono; [eapply (IH _ e (n + 1) _ C1); [apply lookup_insert_eq|cbn [input]; apply Hprog in Ed; lia|lia|exact Q1]|].
    intros r c' e' (-> & C' & S' & Hm' & Hr). split_and!; [done|done| |done|done]. etransitivity; [|exact S']. by split.
Qed.

End Proofs.
End EasyConnectionProofs.
