(* ===== verification/EasyConnectionSafety.v ===== *)
(** * The server side of a connection is safe

    Every operation of a connection keeps the invariant of EasyConnectionProofs.v,
    and so does the I/O thread with its request threads: nothing that was freed is
    used, as long as no answer is streamed. *)

From Stdlib Require Import ZArith Lia.
From stdpp Require Import base gmap list numbers option.
From S2P Require Import Prelude EasyConnection EasyConnectionProofs.

Local Open Scope Z_scope.

Module EasyConnectionSafety.
Import EasyConnection EasyConnectionProofs.

Section Safety.
Context {P H : Type} {handler : IoHandler P H}.
Abbreviation req := (nat * nat)%type.
Abbreviation conn := (@easy_connection_t P).
Abbreviation message := (@easy_message_t P).
Abbreviation environment := (@env H).

Local Notation "x <- m ;; k" := (bind m (fun x => k)) (at level 100, m at next level, right associativity).
Local Notation "m ;; k" := (bind m (fun _ => k)) (at level 100, right associativity).

(** ** New messages *)

Lemma allocate_ok (c : conn) (e : environment) : wp allocate (c, e) (fun _ c' e' => c' = c /\ quiet e e').
Proof. unfold allocate. apply wpc_bind, wp_env. destruct (memory e); [by apply wp_ret|]. apply wpc_bind, wp_mod_env, wp_ret. done. Qed.

Definition with_message (m : nat) (x : message) (c : conn) : conn := c_set_list (message_list c ++ [m]) (c_set_messages (<[m := x]> (messages c)) (S m) c).

Lemma core_create qd c T D h X L : core qd c T D h X L -> core qd (with_message (next_message c) (Message [] 1 0 0 [] [] [] 0) c) T D h X L.
Proof.
  intros C. pose proof C as []. set (m := next_message c). set (x := Message _ _ _ _ _ _ _ _).
  assert (messages c !! m = None) as Hn by (destruct (messages c !! m) as [y|] eqn:E; [|done]; pose proof (mo_next _ _ _ _ _ _ _ _ (ok_message0 m y E)); unfold m in *; lia).
  assert (m ∉ message_list c) as Hni by (intros Hi; destruct (ok_listed0 m Hi) as [y Hy]; congruence).
  assert (forall k, (m, k) ∉ T ++ D ++ h) as Hnr by (intros k Hk; destruct (ok_req0 m k Hk) as (y & q & Hy & _); congruence).
  assert (m ∉ X ++ outs c) as Hno by (intros Hi; destruct (ok_out0 m Hi) as [y Hy]; congruence).
  assert (forall l : list req, (forall k, (m, k) ∉ l) -> cnt l m = 0) as Hz.
  { intros l Hl. unfold cnt. enough (filter (fun r : req => r.1 = m) l = []) as -> by done. apply list.elem_of_nil_inv. intros [m' k] Hi. apply list_elem_of_filter in Hi as [E Hi]. cbn in E. subst m'. by eapply Hl. }
  assert (cntm (X ++ outs c) m = 0) as Hz'.
  { unfold cntm. enough (filter (fun y => y = m) (X ++ outs c) = []) as -> by done. apply list.elem_of_nil_inv. intros y Hi. apply list_elem_of_filter in Hi as [-> Hi]. done. }
  split; cbn [messages message_list with_message c_set_list c_set_messages output session_list doing_request_count sent answers]; try done.
  - apply list.NoDup_app. split_and!; [done| |apply NoDup_singleton]. intros m' Hm' Hm''. apply list_elem_of_singleton in Hm'' as ->. done.
  - intros m' Hm'. apply elem_of_app in Hm' as [Hm'|Hm']; [|apply list_elem_of_singleton in Hm' as ->; by rewrite lookup_insert_eq]. rewrite lookup_insert_ne by (intros ->; done). auto.
  - intros m' y Hy. apply lookup_insert_Some in Hy as [[<- <-]|[Hne Hy]].
    + split; cbn [x m_ref request_list_count request_list request_done_list requests with_message c_set_list message_list c_set_messages next_message length]; try done.
      * rewrite decide_True by set_solver. change (outs (with_message m x c)) with (outs c). rewrite Hz'. rewrite Hz; [done|]. intros k Hk. apply (Hnr k). set_solver.
      * rewrite Hz by done. by destruct qd.
      * set_solver.
      * apply NoDup_nil_2.
      * set_solver.
      * lia.
    + destruct (ok_message0 m' y Hy). split; try done; cbn [with_message c_set_list message_list c_set_messages next_message].
      * change (outs (with_message m x c)) with (outs c). rewrite mo_ref0. f_equal. f_equal. destruct (decide (m' ∈ message_list c)); [rewrite decide_True by set_solver|rewrite decide_False by set_solver]; done.
      * intros Hi. apply mo_out0. set_solver.
      * unfold m in *. lia.
  - intros m' Hm'. rewrite lookup_insert_ne; [by apply ok_out0|]. intros ->. done.
  - intros m' k Hk. destruct (ok_req0 m' k Hk) as (y & q & Hy & Hq). exists y, q. rewrite lookup_insert_ne; [done|]. intros ->. by eapply Hnr.
  - intros m' k y q Hk Hy Hq. apply lookup_insert_Some in Hy as [[<- <-]|[Hne Hy]]; [done|]. by eapply ok_back0.
  - rewrite msum_insert by done. cbn. lia.
Qed.

(** A message of the connection. *)
Definition has (m : nat) (c : conn) : Prop := m ∈ message_list c.
Definition same_rest (c c' : conn) : Prop := c_ref c' = c_ref c /\ c_status c' = c_status c /\ freed c' = freed c.
#[local] Instance same_rest_preorder : PreOrder same_rest.
Proof. split; [by intros c|]. intros c1 c2 c3 (? & ? & ?) (? & ? & ?). unfold same_rest. by split_and!; congruence. Qed.

Lemma message_create_ok qd c (e : environment) T D h X L : core qd c T D h X L ->
  wp easy_message_create (c, e) (fun r c' e' => quiet e e' /\ core qd c' T D h X L /\ same_rest c c' /\
    match r with Some m => has m c' /\ m ∉ message_list c /\ (forall m', has m' c -> has m' c' /\ messages c' !! m' = messages c !! m') /\ request_list <$> messages c' !! m = Some [] | None => c' = c end).
Proof.
  intros C. unfold easy_message_create. apply wpc_bind. eapply wpc_mono; [apply allocate_ok|]. intros ok c1 e1 [-> Q]. destruct ok; [|apply wp_ret; by split_and!].
  apply wpc_bind, wp_conn, wpc_bind, wp_mod_conn, wpc_bind, wp_mod_conn, wp_ret.
  assert (next_message c ∉ message_list c) as Hni.
  { intros Hi. destruct (ok_listed _ _ _ _ _ _ _ C _ Hi) as [y Hy]. pose proof (mo_next _ _ _ _ _ _ _ _ (ok_message _ _ _ _ _ _ _ C _ y Hy)). lia. }
  split_and!; [done|apply (core_create qd c T D h X L C)|done|unfold has; cbn; set_solver|done| |cbn; by rewrite lookup_insert_eq].
  intros m' Hm'. unfold has in *. cbn. split; [set_solver|]. rewrite lookup_insert_ne; [done|]. intros <-. done.
Qed.

(** ** Processing the requests of a message *)

Lemma core_set_opacket qd c T D h X L m k x q p : core qd c T D h X L -> messages c !! m = Some x -> requests x !! k = Some q ->
  core qd (c_set_messages (<[m := m_set_requests (<[k := r_set_opacket p q]> (requests x)) x]> (messages c)) (next_message c) c) T D h X L.
Proof.
  intros C Hm Hk. pose proof (ok_message _ _ _ _ _ _ _ C m x Hm) as []. pose proof (lookup_lt_Some _ _ _ Hk) as Hlt.
  apply (core_update qd c T D h X L m x _ C Hm); cbn [m_ref m_set_requests request_list_count request_list request_done_list requests]; try done; try lia.
  - intros j Hj. rewrite length_insert. by apply mo_there0.
  - apply list.Forall_insert; [done|]. exact (list.Forall_lookup_1 _ _ _ _ mo_wait0 Hk).
  - intros j q' _ Hq'. destruct (decide (j = k)) as [->|]; [rewrite list_lookup_insert_eq by done; eauto|rewrite list_lookup_insert_ne by done; eauto].
  - intros j q' Hj Hq'. apply list_lookup_insert_Some in Hq' as [(<- & <- & _)|[Hne Hq']]; [by apply (ok_back _ _ _ _ _ _ _ C m k x q)|by apply (ok_back _ _ _ _ _ _ _ C m j x q')].
  - intros j q' Hj Hq'. apply list_lookup_insert_Some in Hq' as [(<- & <- & _)|[Hne Hq']]; [by apply (mo_fresh0 k q)|by apply (mo_fresh0 j q')].
Qed.

(** The requests [N] went to the threads of connection [cid]. *)
Record gave (cid m : nat) (N : list req) (c c' : conn) (e e' : environment) : Prop := {
  gv_pushed : pushed cid N e e';
  gv_ref : c_ref c' = c_ref c + Z.of_nat (length N);
  gv_list : message_list c' = message_list c;
  gv_status : c_status c' = c_status c;
  gv_freed : freed c' = freed c }.

Lemma gave_trans cid m N N' c c1 c2 e e1 e2 : gave cid m N c c1 e e1 -> gave cid m N' c1 c2 e1 e2 -> gave cid m (N' ++ N) c c2 e e2.
Proof. intros [] []. split; [by eapply pushed_trans|rewrite length_app; lia|congruence..]. Qed.
Lemma gave_steady cid m c c' e e' : steady m c c' -> quiet e e' -> gave cid m [] c c' e e'.
Proof. intros [] Q. split; [by apply pushed_quiet|cbn; lia|done..]. Qed.

Lemma process_loop_ok cid m l : forall c (e : environment) T D n x, core true c T D [] [] [] -> has m c -> threads e <> [] -> messages c !! m = Some x -> request_list x = l ->
  wp (process_loop cid m l n) (c, e) (fun r c' e' => exists N, core true c' (N ++ T) D [] [] [] /\ gave cid m N c c' e e').
Proof.
  induction l as [|k l IH]; intros c e T D n x C Hm Ht Hx Hl; cbn [process_loop]; [apply wp_ret; exists []; split; [done|by apply gave_steady]|].
  assert (k ∈ request_list x) as Hk by (rewrite Hl; left). pose proof (ok_message _ _ _ _ _ _ _ C m x Hx) as Mx.
  assert (filter (fun j => j <> k) (request_list x) = l) as Ef.
  { rewrite Hl. pose proof (mo_list _ _ _ _ _ _ _ _ Mx) as Hn. rewrite Hl in Hn. exact (filter_ne_split k [] l Hn). }
  destruct (lookup_lt_is_Some_2 (requests x) k) as [q Hq]; [apply (mo_there _ _ _ _ _ _ _ _ Mx); set_solver|]. pose proof (mo_fresh _ _ _ _ _ _ _ _ Mx k q Hk Hq) as Hrc.
  pose proof (core_dequeue c T D [] [] [] m x k C Hx Hm Hk) as C1. rewrite Ef in C1.
  apply wpc_bind, (wp_mod_message Hx), wpc_bind, wp_mod_env. rewrite Ef. set (x1 := m_set_list l x) in *. set (c1 := c_set_messages _ _ _) in *. set (e1 := e_set_counts _ _ e).
  assert (messages c1 !! m = Some x1) as Hx1 by apply lookup_insert_eq.
  apply wpc_bind, (wp_request Hx1 Hq), wpc_bind, wp_env. destruct (h_process (hst e1) (ipacket q)) as [hs o]. apply wpc_bind, wp_mod_env. set (e2 := e_set_hst hs e1).
  (* what follows an answer or a push *)
  assert (forall cnt c3 (e3 : environment) N, core true c3 (N ++ T) D [] [] [] -> gave cid m N c c3 e e3 -> request_list <$> messages c3 !! m = Some l ->
    wp (if 128 <=? cnt then rc <- easy_connection_write_socket ;; if rc =? EASY_ABORT then ret None else process_loop cid m l 0 else process_loop cid m l cnt) (c3, e3)
      (fun r c' e' => exists N, core true c' (N ++ T) D [] [] [] /\ gave cid m N c c' e e')) as Hnext.
  { intros cnt c3 e3 N C3 G3 Hl3.
    assert (forall cnt c4 (e4 : environment), core true c4 (N ++ T) D [] [] [] -> gave cid m N c c4 e e4 -> request_list <$> messages c4 !! m = Some l -> wp (process_loop cid m l cnt) (c4, e4)
      (fun r c' e' => exists N, core true c' (N ++ T) D [] [] [] /\ gave cid m N c c' e e')) as Hloop.
    { intros cnt' c4 e4 C4 G4 Hl4. destruct (messages c4 !! m) as [x4|] eqn:Hx4; [|done]. injection Hl4 as Hl4.
      eapply wpc_mono; [eapply (IH c4 e4 (N ++ T) D cnt' x4 C4); [unfold has; by rewrite (gv_list _ _ _ _ _ _ _ G4)| |done|done]|].
      - intros E. destruct (gv_pushed _ _ _ _ _ _ _ G4) as (_ & _ & El). rewrite E in El. destruct (threads e); done.
      - intros r c' e' (N' & C' & G'). exists (N' ++ N). rewrite <- app_assoc. split; [done|]. by eapply gave_trans. }
    destruct (128 <=? cnt); [|by apply Hloop]. apply wpc_bind. eapply wpc_mono; [apply (write_socket_ok _ _ _ _ _ _ C3)|]. intros rc c4 e4 (C4 & Q4 & K4).
    assert (steady m c3 c4) as S4 by (apply kept_steady; [rewrite (gv_list _ _ _ _ _ _ _ G3)|]; done). pose proof (gave_trans _ _ _ _ _ _ _ _ _ _ G3 (gave_steady cid m c3 c4 e3 e4 S4 Q4)) as G4. cbn [app] in G4.
    destruct (rc =? EASY_ABORT); [apply wp_ret; by exists N|]. apply Hloop; [done|done|]. by rewrite (st_queue _ _ _ S4). }
  assert (gave cid m [] c c1 e e2) as G2 by (split; [by apply pushed_quiet|cbn; lia|done..]). destruct o as [p|hv|].
  - apply wpc_bind, wpc_bind, (wp_mod_request Hx1 Hq), wpc_bind. pose proof (core_set_opacket true c1 T D _ [] [] m k x1 q (Some p) C1 Hx1 Hq) as C2. set (c2 := c_set_messages _ _ c1) in *.
    eapply wpc_mono; [eapply (request_done_ok true c2 e2 T D [] [] m k _ (r_set_opacket (Some p) q) C2); [done|apply lookup_insert_eq|cbn; apply list_lookup_insert_eq; by eapply lookup_lt_Some|done]|].
    assert (steady m c1 c2) as S2 by (split; try done; cbn; by rewrite !lookup_insert_eq).
    intros rc c3 e3 (Q3 & Hr). apply wp_ret. destruct Hr as [[-> ->]|(-> & C3 & S3)].
    + apply (Hnext _ _ _ []); [exact (core_drop true c2 T D [] [] [] (m, k) C2)|exact (gave_trans _ _ _ _ _ _ _ _ _ _ G2 (gave_steady cid m c1 c2 e2 e3 S2 Q3))|by rewrite (st_queue _ _ _ S2), Hx1].
    + pose proof (transitivity S2 S3) as S. apply (Hnext _ _ _ []); [done|exact (gave_trans _ _ _ _ _ _ _ _ _ _ G2 (gave_steady cid m c1 c3 e2 e3 S Q3))|by rewrite (st_queue _ _ _ S), Hx1].
  - apply wpc_bind, wpc_bind. eapply wpc_mono; [apply (pool_push_ok true c1 e2 T D [] [] [] cid m k hv x1 q C1 Ht Hx1 Hq)|].
    intros _ c3 e3 (C3 & P3 & Hl3 & Hq3 & Hr3 & Hs3 & Hf3). apply wp_ret. apply (Hnext _ _ _ [(m, k)]); [done| |by rewrite Hq3, Hx1].
    refine (gave_trans _ _ _ _ _ _ _ _ _ _ G2 (Build_gave _ _ [(m, k)] _ _ _ _ P3 _ Hl3 Hs3 Hf3)). cbn [length]. lia.
  - apply wp_ret. exists []. split; [exact (core_drop true c1 T D [] [] [] (m, k) C1)|done].
Qed.

(** ** Recycling and reading *)

Lemma recycle_ok c (e : environment) T D m : core true c T D [] [] [] -> has m c ->
  wp (easy_connection_recycle_message m) (c, e) (fun r c' e' => quiet e e' /\ core true c' T D [] [] [] /\ same_rest c c' /\ match r with Some m' => has m' c' | None => True end).
Proof.
  intros C Hm. destruct (ok_listed _ _ _ _ _ _ _ C m Hm) as [x Hx]. unfold easy_connection_recycle_message. apply wpc_bind, (wp_message Hx).
  destruct (input x) as [|b rest]; [apply wp_ret; by split_and!|]. destruct (recycle_cnt x <? 16); [apply wp_ret; by split_and!|].
  apply wpc_bind. eapply wpc_mono; [by apply message_create_ok|]. intros [n|] c1 e1 (Q1 & C1 & R1 & Hr); [|apply wp_ret; by split_and!]. destruct Hr as (Hn & Hnew & Hkeep & _).
  destruct (ok_listed _ _ _ _ _ _ _ C1 n Hn) as [y Hy]. apply wpc_bind, (wp_mod_message Hy). set (c2 := c_set_messages _ _ c1). assert (core true c2 T D [] [] []) as C2 by (by apply (core_same true c1 T D [] [] [] n y)).
  destruct (Hkeep m Hm) as [Hm1 E1]. assert (n <> m) as Hne by (intros ->; done). assert (messages c2 !! m = Some x) as Hx2 by (cbn [c2 messages c_set_messages]; rewrite lookup_insert_ne by done; congruence).
  apply wpc_bind. destruct (Z.eqb_spec (request_list_count x) 0) as [E0|E0].
  - pose proof (mo_count _ _ _ _ _ _ _ _ (ok_message _ _ _ _ _ _ _ C2 m x Hx2)) as Hcnt. cbv iota in Hcnt. pose proof (cnt_nonneg (T ++ D ++ []) m).
    eapply wpc_mono; [apply (message_destroy_ok true c2 e1 T D [] [] [] m C2 Hm1 ltac:(lia))|]. intros _ c3 e3 (C3 & -> & K3). apply wp_ret. split_and!; [done|done| |].
    + etransitivity; [exact R1|]. destruct K3. by split_and!.
    + unfold has. rewrite (kp_list _ _ K3). cbn [message_list c_set_list]. by apply list_elem_of_filter.
  - apply (wp_mod_message Hx2), wp_ret. split_and!; [done|by apply (core_same true c2 T D [] [] [] m x)|done|done].
Qed.

(** What reading does to the rest: requests [N] went to threads. *)
Definition rest_after (cid : nat) (N : list req) (c c' : conn) (e e' : environment) : Prop :=
  pushed cid N e e' /\ c_ref c' = c_ref c + Z.of_nat (length N) /\ c_status c' = c_status c /\ freed c' = freed c.

Lemma rest_after_quiet cid c c' e e' : same_rest c c' -> quiet e e' -> rest_after cid [] c c' e e'.
Proof. intros (? & ? & ?) Q. split_and!; [by apply pushed_quiet|cbn; lia|done|done]. Qed.
Lemma rest_after_trans cid N N' c c1 c2 e e1 e2 : rest_after cid N c c1 e e1 -> rest_after cid N' c1 c2 e1 e2 -> rest_after cid (N' ++ N) c c2 e e2.
Proof. intros (? & ? & ? & ?) (? & ? & ? & ?). split_and!; [by eapply pushed_trans|rewrite length_app; lia|congruence..]. Qed.

Lemma core_count_up c T D h X L m x n v : core false c T D h X L -> messages c !! m = Some x -> 0 <= n -> queued c (T ++ D ++ h) m n ->
  core true (c_set_counts (doing_request_count c + n) (done_request_count c) (c_set_messages (<[m := m_set_recycle v (m_set_count (request_list_count x + n) x)]> (messages c)) (next_message c) c)) T D h X L.
Proof.
  intros C Hm Hn Hq. pose proof C as []. split; cbn [messages message_list c_set_messages c_set_counts output session_list doing_request_count sent answers outs]; try done.
  - intros m' Hm'. destruct (decide (m' = m)) as [->|]; [by rewrite lookup_insert_eq|]. rewrite lookup_insert_ne by done. auto.
  - intros m' y Hy. apply lookup_insert_Some in Hy as [[<- <-]|[Hne Hy]].
    + specialize (Hq m x Hm). rewrite decide_True in Hq by done. destruct (ok_message0 m x Hm). by split.
    + specialize (Hq m' y Hy). rewrite decide_False in Hq by done. destruct (ok_message0 m' y Hy). split; try done. cbv iota. lia.
  - intros m' Hm'. destruct (decide (m' = m)) as [->|]; [by rewrite lookup_insert_eq|]. rewrite lookup_insert_ne by done. auto.
  - intros m' k Hk. destruct (ok_req0 m' k Hk) as (x' & q & Hx' & Hq'). destruct (decide (m' = m)) as [->|]; [|exists x', q; by rewrite lookup_insert_ne].
    assert (x' = x) as -> by congruence. eexists _, q. by rewrite lookup_insert_eq.
  - intros m' k x' q Hk Hx' Hq'. apply lookup_insert_Some in Hx' as [[<- <-]|[Hne Hx']]; by eapply ok_back0.
  - rewrite (msum_update _ _ _ _ Hm). cbn. lia.
Qed.

Lemma conn_do_request_ok cid m c (e : environment) T D x (Hprog : progress) : core true c T D [] [] [] -> has m c -> threads e <> [] -> messages c !! m = Some x ->
  wp (easy_connection_do_request cid m) (c, e) (fun rc c' e' => exists N, core (negb (rc =? EASY_ERROR)) c' (N ++ T) D [] [] [] /\ rest_after cid N c c' e e').
Proof.
  intros C Hm Ht Hx. unfold easy_connection_do_request. apply wpc_bind, (wp_message Hx), wpc_bind.
  eapply wpc_mono; [apply (decode_loop_ok T D [] [] [] m Hprog _ c e 0 x (core_uncounted _ _ _ _ _ _ _ C) Hx); [done|done|by apply core_queued with (m := m) in C]|].
  intros [n|] c1 e1 (-> & C1 & S1 & [x1 Hx1] & Hn); [|apply wp_ret; exists []; split; [done|]; destruct S1; by apply rest_after_quiet]. destruct Hn as [Hn Hq].
  (* the new requests are counted *)
  apply wpc_bind. apply (wpc_mono _ _ (fun _ c2 e2 => core true c2 T D [] [] [] /\ message_list c2 = message_list c1 /\ same_rest c1 c2 /\ quiet e e2)).
  { destruct (Z.eqb_spec n 0) as [->|Hnz]; [apply wp_ret; split_and!; [by eapply core_counted|done..]|].
    apply wpc_bind, (wp_mod_message Hx1), wpc_bind, wp_mod_conn, wp_mod_env. split_and!; [|done..]. by apply (core_count_up c1 T D [] [] [] m x1 n). }
  intros _ c2 e2 (C2 & Hl2 & R2 & Q2). assert (has m c2) as Hm2 by (unfold has; rewrite Hl2, (sc_list _ _ S1); done).
  apply wpc_bind. eapply wpc_mono; [by apply recycle_ok|]. intros [m'|] c3 e3 (Q3 & C3 & R3 & Hm'); cycle 1.
  { apply wp_ret. exists []. split; [by eapply core_uncounted|]. apply rest_after_quiet; [|unfold quiet in *; intuition congruence]. destruct S1, R2 as (? & ? & ?), R3 as (? & ? & ?). unfold same_rest. intuition congruence. }
  assert (rest_after cid [] c c3 e e3) as A3 by (apply rest_after_quiet; [destruct S1, R2 as (? & ? & ?), R3 as (? & ? & ?); unfold same_rest; intuition congruence|unfold quiet in *; intuition congruence]).
  destruct (ok_listed _ _ _ _ _ _ _ C3 m' Hm') as [y Hy]. apply wpc_bind, (wp_mod_message Hy), wpc_bind. set (y4 := m_set_status _ y). set (c4 := c_set_messages _ _ c3). assert (core true c4 T D [] [] []) as C4 by (by apply (core_same true c3 T D [] [] [] m' y)).
  assert (messages c4 !! m' = Some y4) as Hy4 by apply lookup_insert_eq. assert (rest_after cid [] c c4 e e3) as A4 by exact A3.
  apply (wp_message Hy4), wpc_bind. eapply wpc_mono; [eapply (process_loop_ok cid m' _ c4 e3 T D 0 y4 C4 Hm'); [|done|done]|].
  { intros E. destruct A3 as [(_ & _ & El) _]. rewrite E in El. destruct (threads e); done. }
  intros r c5 e5 (N & C5 & G5). assert (rest_after cid N c c5 e e5) as A5. { destruct G5. rewrite <- (app_nil_r N). eapply rest_after_trans; [exact A4|]. by split_and!. }
  destruct r as [n5|]; [|apply wp_ret; exists N; split; [by eapply core_uncounted|done]].
  apply wpc_bind. eapply wpc_mono; [apply (write_socket_ok _ _ _ _ _ _ C5)|]. intros rc c6 e6 (C6 & Q6 & K6).
  assert (rest_after cid N c c6 e e6) as A6. { change N with ([] ++ N). eapply rest_after_trans; [exact A5|]. apply rest_after_quiet; [|done]. destruct K6. by split_and!. }
  destruct (rc =? EASY_ABORT); [apply wp_ret; exists N; split; [by eapply core_uncounted|done]|].
  assert (has m' c6) as Hm6 by (unfold has; rewrite (kp_list _ _ K6), (gv_list _ _ _ _ _ _ _ G5); done). destruct (ok_listed _ _ _ _ _ _ _ C6 m' Hm6) as [y6 Hy6].
  apply wpc_bind, (wp_message Hy6), wpc_bind. destruct (Z.eqb_spec (request_list_count y6) 0) as [E0|E0]; [|apply wp_ret, wp_ret; by exists N].
  destruct (negb (m_status y6 =? EASY_MESG_READ_AGAIN)); cbn [andb]; [|apply wp_ret, wp_ret; by exists N].
  pose proof (mo_count _ _ _ _ _ _ _ _ (ok_message _ _ _ _ _ _ _ C6 m' y6 Hy6)) as Hcnt. cbv iota in Hcnt. pose proof (cnt_nonneg ((N ++ T) ++ D ++ []) m').
  eapply wpc_mono; [apply (message_destroy_ok true c6 e6 (N ++ T) D [] [] [] m' C6 Hm6 ltac:(lia))|]. intros _ c7 e7 (C7 & -> & K7). apply wp_ret. exists N. split; [done|].
  change N with ([] ++ N). eapply rest_after_trans; [exact A6|]. apply rest_after_quiet; [|done]. destruct K7. by split_and!.
Qed.

(** ** Closing *)

(** A connection between two events: its counter is the number of requests other
    threads have. *)
Definition conn_inv (c : conn) (T D : list req) : Prop :=
  (exists qd, core qd c T D [] [] [] /\ (c_status c <> EASY_CONN_CLOSE -> qd = true)) /\ c_ref c = Z.of_nat (length (T ++ D)) /\ freed c = false.

Lemma destroy_messages_ok qd X L l : forall c (e : environment), core qd c [] [] [] X L -> message_list c = l ->
  wp (for_each l (fun m => easy_message_destroy m true)) (c, e) (fun _ c' e' => core qd c' [] [] [] X L /\ e' = e /\ message_list c' = [] /\ same_rest c c').
Proof.
  induction l as [|m l IH]; intros c e C Hl; cbn [for_each]; [apply wp_ret; by split_and!|]. apply wpc_bind.
  eapply wpc_mono; [apply (message_destroy_ok qd c e [] [] [] X L m C); [rewrite Hl; left|done]|]. intros _ c1 e1 (C1 & -> & K1).
  assert (message_list c1 = l) as Hl1.
  { rewrite (kp_list _ _ K1). cbn [message_list c_set_list]. pose proof (ok_list _ _ _ _ _ _ _ C) as Hn. rewrite Hl in Hn |- *. exact (filter_ne_split m [] l Hn). }
  eapply wpc_mono; [by apply IH|]. intros _ c2 e2 (C2 & -> & E2 & R2). split_and!; [done|done|done|]. etransitivity; [|exact R2]. destruct K1. by split_and!.
Qed.

Lemma conn_destroy_ok qd c (e : environment) T D : core qd c T D [] [] [] -> c_ref c = Z.of_nat (length (T ++ D)) -> freed c = false ->
  wp easy_connection_destroy (c, e) (fun _ c' e' => quiet e e' /\ ((freed c' = true /\ T ++ D = [] /\ messages c' = ∅) \/ (T ++ D <> [] /\ c_status c' = EASY_CONN_CLOSE /\ conn_inv c' T D))).
Proof.
  intros C Hr Hf. unfold easy_connection_destroy. apply wpc_bind, wp_mod_conn, wpc_bind, wp_conn. set (c1 := if negb (c_status c =? EASY_CONN_CLOSE) && (0 <? c_ref c) then c_set_status EASY_CONN_CLOSE c else c).
  assert (core qd c1 T D [] [] []) as C1 by (unfold c1; case_match; [by eapply core_ext|done]). assert (c_ref c1 = c_ref c /\ freed c1 = freed c) as [Er Ef] by (unfold c1; by case_match).
  rewrite (ok_sessions _ _ _ _ _ _ _ C1). apply wpc_bind. cbn [for_each]. apply wp_ret, wpc_bind, wp_conn. rewrite Er. destruct (Z.ltb_spec 0 (c_ref c)) as [Hpos|Hz].
  { apply wp_ret. split; [done|]. right. assert (c_status c1 = EASY_CONN_CLOSE) as Es.
    { unfold c1. destruct (Z.ltb_spec 0 (c_ref c)); [|lia]. destruct (Z.eqb_spec (c_status c) EASY_CONN_CLOSE) as [E|E]; done. }
    split; [intros E0; rewrite E0 in Hr; cbn [length] in Hr; lia|]. split; [done|]. split_and!; [exists qd; split; [done|by intros]|congruence|congruence]. }
  assert (T ++ D = []) as E0 by (destruct (T ++ D); [done|cbn [length] in Hr; lia]). apply app_eq_nil in E0 as [-> ->].
  apply wpc_bind, wp_mod_conn, wpc_bind. eapply wpc_mono; [apply (destroy_messages_ok qd [] [] (message_list c1)); [|done]|].
  { eapply core_ext; [exact C1|done|done|done|done|by rewrite (ok_sessions _ _ _ _ _ _ _ C1)|done..]. }
  intros _ c2 e2 (C2 & -> & E2 & (R2 & _ & _)). apply wpc_bind, wp_conn, wpc_bind, wp_mod_conn, wpc_bind.
  assert (core qd (c_set_output [] c2) [] [] [] (map cleanup (output c2) ++ []) (concat (map data (output c2)))) as C3.
  { rewrite app_nil_r. pose proof C2 as []. split; try done.
    - intros m x Hx. destruct (ok_message0 m x Hx). split; try done. cbn [c_set_output message_list outs output map]. by rewrite app_nil_r.
    - intros m Hm. cbn [outs c_set_output output map] in Hm. rewrite app_nil_r in Hm. by apply ok_out0.
    - cbn [sent output answers c_set_output map concat app]. by rewrite <- ok_stream0, app_nil_r. }
  eapply wpc_mono; [apply (bufs_destroy_ok qd [] [] [] [] (concat (map data (output c2))) (output c2) _ e C3)|]. intros _ c4 e4 (C4 & -> & K4 & O4). apply wpc_bind, wp_conn.
  assert (c_ref c4 = 0) as Hz4. { rewrite (kp_ref _ _ K4). cbn [c_ref c_set_output]. rewrite R2. cbn [c_ref c_set_sessions]. rewrite Er, Hr. done. }
  rewrite Hz4. apply wp_mod_conn. split; [done|]. left. split_and!; [done|done|]. apply map_empty. intros m. cbn [messages c_set_freed]. destruct (messages c4 !! m) as [x|] eqn:Hx; [|done].
  exfalso. destruct (ok_message _ _ _ _ _ _ _ C4 m x Hx). assert (message_list c4 = []) as E4 by (by rewrite (kp_list _ _ K4)).
  unfold outs in mo_ref0. rewrite E4, O4 in mo_ref0. rewrite decide_False in mo_ref0 by apply not_elem_of_nil. change (cntm _ m) with 0 in mo_ref0. change (cnt _ m) with 0 in mo_ref0. lia.
Qed.

(** ** Events of a connection *)

(** A connection after an event: requests [N] went to threads; it was freed, and
    then no thread has a request of it, or is in its invariant. *)
Definition conn_post (cid : nat) (T D : list req) (e : environment) (c' : conn) (e' : environment) : Prop :=
  exists N, pushed cid N e e' /\ ((freed c' = true /\ N ++ T ++ D = []) \/ conn_inv c' (N ++ T) D).

Lemma destroy_post qd cid c (e : environment) T D N c0 e0 : core qd c (N ++ T) D [] [] [] -> rest_after cid N c0 c e0 e -> c_ref c0 = Z.of_nat (length (T ++ D)) -> freed c0 = false ->
  wp easy_connection_destroy (c, e) (fun _ c' e' => conn_post cid T D e0 c' e').
Proof.
  intros C (Pu & Hr & Hs & Hf) Hr0 Hf0. eapply wpc_mono; [apply (conn_destroy_ok qd c e (N ++ T) D C); [rewrite Hr, Hr0, !length_app; lia|congruence]|].
  intros _ c' e' (Q & Hc). exists N. split; [by apply (pushed_trans cid N [] _ _ _ Pu), pushed_quiet|]. rewrite app_assoc. destruct Hc as [(? & ? & _)|(_ & _ & ?)]; auto.
Qed.

Lemma read_message_ok c (e : environment) T D : core true c T D [] [] [] ->
  wp read_message (c, e) (fun r c' e' => quiet e e' /\ core true c' T D [] [] [] /\ same_rest c c' /\ match r with Some m => has m c' | None => True end).
Proof.
  intros C. assert (wp easy_message_create (c, e) (fun r c' e' => quiet e e' /\ core true c' T D [] [] [] /\ same_rest c c' /\ match r with Some m => has m c' | None => True end)) as W.
  { eapply wpc_mono; [by apply message_create_ok|]. intros r c' e' (? & ? & ? & Hr). split_and!; [done|done|done|]. destruct r; [by destruct Hr|done]. }
  unfold read_message. apply wpc_bind, wp_conn. destruct (list.last (message_list c)) as [m|] eqn:El; [|done]. assert (has m c) as Hm by (apply last_Some in El as [l El]; unfold has; rewrite El; set_solver).
  destruct (ok_listed _ _ _ _ _ _ _ C m Hm) as [x Hx]. apply wpc_bind, (wp_message Hx). destruct (m_status x =? EASY_MESG_READ_AGAIN); [apply wp_ret; by split_and!|done].
Qed.

Lemma readable_ok cid bytes c (e : environment) T D (Hprog : progress) : conn_inv c T D -> c_status c <> EASY_CONN_CLOSE -> threads e <> [] ->
  wp (easy_connection_on_readable cid bytes) (c, e) (fun _ c' e' => conn_post cid T D e c' e').
Proof.
  intros ((qd & C & Hqd) & Hr & Hf) Hs Ht. rewrite (Hqd Hs) in C. clear qd Hqd. unfold easy_connection_on_readable. apply wpc_bind, wp_conn, wpc_bind, wp_env.
  assert (rest_after cid [] c c e e) as A0 by (by apply rest_after_quiet). case_match; [by apply (destroy_post true cid c e T D [] c e)|].
  apply wpc_bind. eapply wpc_mono; [by apply read_message_ok|]. intros om c1 e1 (Q1 & C1 & R1 & Hm). assert (rest_after cid [] c c1 e e1) as A1 by (by apply rest_after_quiet).
  destruct om as [m|]; [|by apply (destroy_post true cid c1 e1 T D [] c e)]. apply wpc_bind. eapply wpc_mono; [apply allocate_ok|]. intros room c2 e2 [-> Q2].
  assert (rest_after cid [] c c1 e e2) as A2 by (apply rest_after_quiet; [done|unfold quiet in *; intuition congruence]).
  case_match; [by apply (destroy_post true cid c1 e2 T D [] c e)|]. destruct (ok_listed _ _ _ _ _ _ _ C1 m Hm) as [x Hx]. apply wpc_bind, (wp_mod_message Hx), wpc_bind. set (c3 := c_set_messages _ _ c1).
  assert (core true c3 T D [] [] []) as C3 by (by apply (core_same true c1 T D [] [] [] m x)). assert (rest_after cid [] c c3 e e2) as A3 by exact A2.
  eapply wpc_mono; [eapply (conn_do_request_ok cid m c3 e2 T D _ Hprog C3 Hm); [|apply lookup_insert_eq]|].
  { intros E. destruct A2 as [(_ & _ & El) _]. rewrite E in El. destruct (threads e); done. }
  intros rc c4 e4 (N & C4 & A4). pose proof (rest_after_trans _ _ _ _ _ _ _ _ _ A3 A4) as A. rewrite app_nil_r in A. destruct (rc =? EASY_ERROR); [by apply (destroy_post false cid c4 e4 T D N c e)|].
  apply wp_ret. exists N. destruct A as (Pu & Hr4 & Hs4 & Hf4). split; [done|]. right. split_and!; [by exists true|rewrite Hr4, Hr, !length_app; lia|congruence].
Qed.

Lemma writable_ok cid c (e : environment) T D : conn_inv c T D -> wp easy_connection_on_writable (c, e) (fun _ c' e' => conn_post cid T D e c' e').
Proof.
  intros ((qd & C & Hqd) & Hr & Hf). unfold easy_connection_on_writable. apply wpc_bind. eapply wpc_mono; [apply (write_socket_ok _ _ _ _ _ _ C)|]. intros rc c1 e1 (C1 & Q1 & K1).
  assert (rest_after cid [] c c1 e e1) as A1 by (apply rest_after_quiet; [destruct K1; by split_and!|done]). destruct (rc =? EASY_ABORT); [by apply (destroy_post qd cid c1 e1 T D [] c e)|].
  apply wp_ret. exists []. split; [by apply pushed_quiet|]. right. destruct K1. split_and!; [exists qd; split; [done|intros Hs; apply Hqd; congruence]|cbn [app]; congruence|congruence].
Qed.

Lemma conn_close_ok cid c (e : environment) T D : conn_inv c T D -> wp easy_connection_destroy (c, e) (fun _ c' e' => conn_post cid T D e c' e').
Proof. intros ((qd & C & _) & Hr & Hf). apply (destroy_post qd cid c e T D [] c e); try done. by apply rest_after_quiet. Qed.

Lemma timeout_ok cid c (e : environment) T D : conn_inv c T D -> wp easy_connection_on_timeout_conn (c, e) (fun _ c' e' => conn_post cid T D e c' e').
Proof.
  intros I. unfold easy_connection_on_timeout_conn. apply wpc_bind, wp_conn. case_match; [|by apply conn_close_ok]. apply wp_ret. exists []. split; [by apply pushed_quiet|by right].
Qed.

(** A request that comes back. *)
Lemma send_response_one_ok c (e : environment) T D r : conn_inv c T (r :: D) -> wp (send_response_one r) (c, e) (fun _ c' e' => quiet e e' /\ conn_inv c' T D).
Proof.
  destruct r as [m k]. intros ((qd & C & Hqd) & Hr & Hf). destruct (ok_req _ _ _ _ _ _ _ C m k ltac:(set_solver)) as (x & q & Hx & Hq).
  pose proof (ok_back _ _ _ _ _ _ _ C m k x q ltac:(left) Hx Hq) as Hrc. apply core_received in C. cbn [fst] in C.
  assert (has m c) as Hm. { unfold has. destruct (decide (m ∈ message_list c)) as [|Hni]; [done|]. pose proof (mo_out _ _ _ _ _ _ _ _ (ok_message _ _ _ _ _ _ _ C m x Hx) Hni) as E. rewrite cnt_hand_eq in E. pose proof (cnt_nonneg (T ++ D ++ []) m). lia. }
  unfold send_response_one. apply wpc_bind, (wp_request Hx Hq), wpc_bind.
  (* giving back the references of the thread *)
  assert (forall n c1 (e1 : environment), core qd c1 T D [] [m] [] -> steady m c c1 -> quiet e e1 -> wp (
    mod_conn (fun c => c_set_ref (c_ref c - 1) c) ;; mod_message m (fun m => m_set_ref (m_ref m - 1) m) ;; m0 <- get_message m ;;
    (if (request_list_count m0 =? 0) && (fst n =? EASY_OK) && negb (m_status m0 =? EASY_MESG_READ_AGAIN) then easy_message_destroy m true else ret tt) ;; ret (snd n : noted)) (c1, e1)
    (fun _ c' e' => quiet e e' /\ conn_inv c' T D)) as Hend.
  { intros n c1 e1 C1 S1 Q1. assert (has m c1) as Hm1 by (unfold has; rewrite (st_list _ _ _ S1); done). destruct (ok_listed _ _ _ _ _ _ _ C1 m Hm1) as [y Hy].
    apply wpc_bind, wp_mod_conn, wpc_bind, (wp_mod_message (c := c_set_ref (c_ref c1 - 1) c1) Hy), wpc_bind. eapply wp_message; [apply lookup_insert_eq|]. set (c2 := c_set_messages _ _ _).
    assert (core qd c2 T D [] [] []) as C2.
    { apply (core_unref qd (c_set_ref (c_ref c1 - 1) c1) T D [] [] [] m y); [by eapply core_ext|done|]. destruct (ok_message _ _ _ _ _ _ _ C1 m y Hy). rewrite mo_ref0. rewrite decide_True by done. cbn [app]. rewrite cntm_cons_eq.
      pose proof (cntm_nonneg (outs c1) m). pose proof (cnt_nonneg (T ++ D) m). lia. }
    assert (conn_inv c2 T D) as I2. { split_and!; [exists qd; split; [done|intros Hs; apply Hqd; by rewrite <- (st_status _ _ _ S1)]|cbn; rewrite (st_ref _ _ _ S1), Hr, !length_app; cbn [length]; lia|cbn; rewrite (st_freed _ _ _ S1); done]. }
    apply wpc_bind. cbn [m_status m_set_ref request_list_count]. destruct (Z.eqb_spec (request_list_count y) 0) as [E0|E0]; cbn [andb]; [|by apply wp_ret, wp_ret].
    destruct ((n.1 =? EASY_OK) && negb (m_status y =? EASY_MESG_READ_AGAIN)); [|by apply wp_ret, wp_ret].
    assert (messages c2 !! m = Some (m_set_ref (m_ref y - 1) y)) as Hy2 by apply lookup_insert_eq. pose proof (mo_count _ _ _ _ _ _ _ _ (ok_message _ _ _ _ _ _ _ C2 m _ Hy2)) as Hcnt. cbn [request_list_count m_set_ref] in Hcnt.
    pose proof (cnt_nonneg (T ++ D ++ []) m). eapply wpc_mono; [apply (message_destroy_ok qd c2 e1 T D [] [] [] m C2 Hm1 ltac:(destruct qd; lia))|]. intros _ c3 e3 (C3 & -> & K3). apply wp_ret. split; [done|].
    destruct I2 as (_ & Hr2 & Hf2). destruct K3 as [_ _ K3 K4 K5]. split_and!; [exists qd; split; [done|]|rewrite K3; exact Hr2|rewrite K5; exact Hf2].
    intros Hs. apply Hqd. rewrite <- (st_status _ _ _ S1). intros E. apply Hs. rewrite K4. exact E. }
  destruct (Z.eqb_spec (retcode q) EASY_ERROR) as [Ee|Ee].
  - apply wp_ret. apply (Hend (EASY_ERROR, ToClose)); [by eapply core_drop|done|done].
  - apply wpc_bind. eapply wpc_mono; [apply (request_done_ok qd c e T D [] [m] m k x q C Hm Hx Hq); by destruct Hrc|]. intros rc c1 e1 (Q1 & Hc1). apply wp_ret.
    destruct Hc1 as [[-> ->]|(-> & C1 & S1)]; [apply (Hend (EASY_ERROR, Nothing)); [by eapply core_drop|done|done]|by apply (Hend (EASY_OK, ToWrite))].
Qed.

End Safety.
End EasyConnectionSafety.
