(* ===== verification/EasyConnectionTheorems.v ===== *)
(** * The I/O thread and its request threads

    Whatever events come in whatever order, nothing that was freed is used and
    every answer reaches the socket in order; and three situations in which the
    code does not do what it means to: a message that is recycled, an answer that is
    streamed to a client that goes away, and requests that are refused. *)

From Stdlib Require Import ZArith Lia.
From stdpp Require Import base gmap list numbers option.
From S2P Require Import Prelude EasyConnection EasyConnectionProofs EasyConnectionSafety.

Local Open Scope Z_scope.

Module EasyConnectionTheorems.
Import EasyConnection EasyConnectionProofs EasyConnectionSafety.

Section Theorems.
Context {P H : Type} {handler : IoHandler P H}.
Abbreviation req := (nat * nat)%type.
Abbreviation conn := (@easy_connection_t P).
Abbreviation environment := (@env H).
Abbreviation state := (@io P H).

(** ** The invariant of the whole *)

(** The requests of connection [cid]. *)
Definition reqs_of (cid : nat) (l : list (nat * req)) : list req := omap (fun x => if decide (x.1 = cid) then Some x.2 else None) l.

#[local] Instance reqs_of_proper cid : Proper ((≡ₚ) ==> (≡ₚ)) (reqs_of cid).
Proof. intros l l' E. unfold reqs_of. by rewrite E. Qed.
Lemma reqs_of_app cid l l' : reqs_of cid (l ++ l') = reqs_of cid l ++ reqs_of cid l'.
Proof. apply omap_app. Qed.
Lemma reqs_of_own cid N : reqs_of cid (map (pair cid) N) = N.
Proof. induction N as [|r N IH]; [done|]. unfold reqs_of in *. cbn. rewrite decide_True by done. by rewrite IH. Qed.
Lemma reqs_of_other cid cid' N : cid' <> cid -> reqs_of cid' (map (pair cid) N) = [].
Proof. intros Hne. induction N as [|r N IH]; [done|]. unfold reqs_of in *. cbn. by rewrite decide_False. Qed.
Lemma reqs_of_elem cid r l : r ∈ reqs_of cid l <-> (cid, r) ∈ l.
Proof.
  unfold reqs_of. rewrite list_elem_of_omap. split; [|intros Hr; exists (cid, r); by rewrite decide_True].
  intros ([cid' r'] & Hin & Hr). cbn in Hr. destruct (decide (cid' = cid)) as [->|]; [|done]. by injection Hr as ->.
Qed.

(** [l] are the answers the I/O thread has taken off its list. *)
Record io_inv (s : state) (l : list (nat * req)) : Prop := {
  io_threads : threads (env_of s) <> [];
  io_conns : forall cid c, conns s !! cid = Some c -> conn_inv c (reqs_of cid (tasks (env_of s))) (reqs_of cid (l ++ backs (env_of s)));
  io_alive : forall cid r, (cid, r) ∈ tasks (env_of s) ++ l ++ backs (env_of s) -> is_Some (conns s !! cid) }.

Lemma conn_inv_perm (c : conn) T D T' D' : conn_inv c T D -> T' ≡ₚ T -> D' ≡ₚ D -> conn_inv c T' D'.
Proof. intros ((qd & C & Hq) & Hr & Hf) ET ED. split_and!; [exists qd; split; [by eapply core_perm|done]|by rewrite Hr, ET, ED|done]. Qed.

(** A connection, and the requests it has at the threads, change. *)
Lemma io_update (s : state) (l l' : list (nat * req)) cid (c' : conn) (e' : environment) N : io_inv s l -> is_Some (conns s !! cid) -> pushed cid N (env_of s) e' ->
  (forall cid', cid' <> cid -> reqs_of cid' l' ≡ₚ reqs_of cid' l) -> (forall x, x ∈ l' -> x ∈ l) ->
  ((freed c' = true /\ N ++ reqs_of cid (tasks (env_of s)) ++ reqs_of cid (l' ++ backs (env_of s)) = []) \/ conn_inv c' (N ++ reqs_of cid (tasks (env_of s))) (reqs_of cid (l' ++ backs (env_of s)))) ->
  io_inv (Io (if freed c' then delete cid (conns s) else <[cid := c']> (conns s)) e') l'.
Proof.
  intros [] Hs (ET & EB & EL) Hother Hsub Hc.
  assert (forall cid' r, (cid', r) ∈ tasks e' ++ l' ++ backs e' -> cid' = cid \/ is_Some (conns s !! cid')) as Halive.
  { intros cid' r. rewrite ET, EB. rewrite !elem_of_app. intros [[Hr|Hr]|Hr].
    - apply list_elem_of_fmap in Hr as (r' & [= -> _] & _). by left.
    - right. apply (io_alive0 cid' r). set_solver.
    - right. apply (io_alive0 cid' r). set_solver. }
  split; cbn [env_of conns].
  - intros E. rewrite E in EL. destruct (threads (env_of s)); done.
  - intros cid' c Hc'. destruct (decide (cid' = cid)) as [->|Hne].
    + destruct Hc as [[Hf _]|Hc]; [rewrite Hf, lookup_delete_eq in Hc'; done|]. pose proof Hc as (_ & _ & Hf). rewrite Hf, lookup_insert_eq in Hc'. injection Hc' as <-.
      eapply conn_inv_perm; [exact Hc|by rewrite ET, reqs_of_app, reqs_of_own|by rewrite EB].
    + assert (conns s !! cid' = Some c) as Hc0 by (destruct (freed c'); [rewrite lookup_delete_ne in Hc' by done|rewrite lookup_insert_ne in Hc' by done]; done).
      eapply conn_inv_perm; [by apply io_conns0|by rewrite ET, reqs_of_app, reqs_of_other|]. rewrite EB, !reqs_of_app. by rewrite Hother.
  - intros cid' r Hr. destruct (decide (cid' = cid)) as [->|Hne].
    + destruct Hc as [[Hf E]|(_ & _ & Hf)]; [|by rewrite Hf, lookup_insert_eq]. exfalso. assert (r ∈ N ++ reqs_of cid (tasks (env_of s)) ++ reqs_of cid (l' ++ backs (env_of s))) as Hin; [|rewrite E in Hin; by apply not_elem_of_nil in Hin].
      rewrite ET, EB in Hr. rewrite !elem_of_app in Hr. rewrite !elem_of_app, !reqs_of_elem, elem_of_app. destruct Hr as [[Hr|Hr]|Hr]; [|by right; left|by right; right].
      apply list_elem_of_fmap in Hr as (r' & [= <-] & Hr). by left.
    + destruct (Halive cid' r Hr) as [?|Hs']; [done|]. destruct (freed c'); [by rewrite lookup_delete_ne|by rewrite lookup_insert_ne].
Qed.

(** ** Steps *)

Lemma on_conn_ok {A} (s : state) cid c (m : M A) Q : conns s !! cid = Some c -> wp m (c, env_of s) Q ->
  exists a c' e', on_conn cid m s = Some (a, Io (if freed c' then delete cid (conns s) else <[cid := c']> (conns s)) e') /\ Q a c' e'.
Proof.
  intros Hc W. unfold on_conn. rewrite Hc. cbn [mbind option_bind]. unfold wp in W. destruct (m (c, env_of s)) as [[a [c' e']]|]; [|done]. exists a, c', e'. done.
Qed.

Lemma conn_event (s : state) l cid (m : M unit) : io_inv s l -> is_Some (conns s !! cid) ->
  (forall c, conns s !! cid = Some c -> wp m (c, env_of s) (fun _ c' e' => conn_post cid (reqs_of cid (tasks (env_of s))) (reqs_of cid (l ++ backs (env_of s))) (env_of s) c' e')) ->
  exists s', on_conn cid m s = Some (tt, s') /\ io_inv s' l /\ forall cid', cid' <> cid -> conns s' !! cid' = conns s !! cid'.
Proof.
  intros I [c Hc] W. destruct (on_conn_ok s cid c m _ Hc (W c Hc)) as ([] & c' & e' & E & N & Pu & Hp). eexists. split; [exact E|]. split.
  - apply (io_update s l l cid c' e' N I); [by eexists|done|done|done|done].
  - intros cid' Hne. cbn [conns]. destruct (freed c'); [by rewrite lookup_delete_ne|by rewrite lookup_insert_ne].
Qed.

Lemma send_loop_ok l : forall (s : state) w f, io_inv s l -> NoDup (w ++ f) -> (forall cid, cid ∈ w ++ f -> is_Some (conns s !! cid)) ->
  exists w' f' s', send_loop l w f s = Some (w', f', s') /\ io_inv s' [] /\ NoDup (w' ++ f') /\ forall cid, cid ∈ w' ++ f' -> is_Some (conns s' !! cid).
Proof.
  induction l as [|[cid r] l IH]; intros s w f I Hn Hex; cbn [send_loop]; [by exists w, f, s|].
  destruct (io_alive _ _ I cid r ltac:(set_solver)) as [c Hc]. pose proof (io_conns _ _ I cid c Hc) as Ic. unfold reqs_of at 2 in Ic. cbn [app] in Ic. cbn [omap list_omap fst snd] in Ic. rewrite decide_True in Ic by done. fold (reqs_of cid (l ++ backs (env_of s))) in Ic.
  destruct (on_conn_ok s cid c (send_response_one r) _ Hc (send_response_one_ok c (env_of s) _ _ r Ic)) as (n & c' & e' & E & Q & Ic'). rewrite E. cbn [mbind option_bind].
  pose proof Ic' as (_ & _ & Hf). set (s' := Io _ e'). assert (io_inv s' l) as I'.
  { apply (io_update s ((cid, r) :: l) l cid c' e' [] I); [by eexists|by apply pushed_quiet| |set_solver|by right]. intros cid' Hne. unfold reqs_of. cbn. by rewrite decide_False. }
  assert (forall cid', is_Some (conns s !! cid') -> is_Some (conns s' !! cid')) as Hkeep. { intros cid' Hs. cbn [s' conns]. rewrite Hf. destruct (decide (cid' = cid)) as [->|]; [by rewrite lookup_insert_eq|by rewrite lookup_insert_ne]. }
  assert (is_Some (conns s' !! cid)) as Hcid by (apply Hkeep; by eexists).
  destruct n; [| |apply IH; auto]; unfold easy_connection_add_list; case_bool_decide as Hb; apply IH; auto.
  - rewrite <- app_assoc. cbn [app]. rewrite <- Permutation_middle. by apply list.NoDup_cons.
  - intros cid' Hi. assert (cid' ∈ w ++ f \/ cid' = cid) as [?| ->] by set_solver; auto.
  - rewrite app_assoc, Permutation_app_comm. cbn [app]. apply list.NoDup_cons. split; [set_solver|done].
  - intros cid' Hi. assert (cid' ∈ w ++ f \/ cid' = cid) as [?| ->] by set_solver; auto.
Qed.

Lemma each_conn_ok (m : M unit) (Hm : forall cid c (e : environment) T D, conn_inv c T D -> wp m (c, e) (fun _ c' e' => conn_post cid T D e c' e')) l : forall s : state,
  io_inv s [] -> NoDup l -> (forall cid, cid ∈ l -> is_Some (conns s !! cid)) -> exists s', each_conn l m s = Some s' /\ io_inv s' [] /\ forall cid, cid ∉ l -> conns s' !! cid = conns s !! cid.
Proof.
  induction l as [|cid l IH]; intros s I Hn Hex; cbn [each_conn]; [by exists s|]. apply list.NoDup_cons in Hn as [Hni Hn].
  destruct (conn_event s [] cid m I (Hex cid ltac:(left))) as (s1 & E & I1 & H1); [intros c Hc; apply Hm; by apply I|]. rewrite E. cbn [mbind option_bind snd].
  destruct (IH s1 I1 Hn) as (s2 & E2 & I2 & H2). { intros cid' Hi. rewrite H1 by (intros ->; done). apply Hex. by right. }
  exists s2. split_and!; [done|done|]. intros cid' Hi. apply not_elem_of_cons in Hi as [Hne Hi]. by rewrite H2, H1.
Qed.

Lemma wakeup_ok (s : state) : io_inv s [] -> exists s', easy_connection_on_wakeup s = Some s' /\ io_inv s' [].
Proof.
  intros I. unfold easy_connection_on_wakeup, easy_connection_send_response. set (s0 := Io _ _).
  assert (io_inv s0 (io_requests (env_of s))) as I0.
  { destruct I. assert (io_requests (env_of s) ++ backs (env_of s0) ≡ₚ backs (env_of s)) as E by (unfold backs; cbn; rewrite app_nil_r; apply Permutation_app_comm).
    split; [done| |]; cbn [conns s0].
    - intros cid c Hc. eapply conn_inv_perm; [by apply io_conns0|done|by rewrite E].
    - intros cid r. rewrite E. apply io_alive0. }
  destruct (send_loop_ok _ s0 [] [] I0) as (w & f & s1 & -> & I1 & Hn & Hex); [apply NoDup_nil_2|set_solver|]. cbn [mbind option_bind]. apply list.NoDup_app in Hn as (Hnw & Hd & Hnf).
  destruct (each_conn_ok easy_connection_destroy (fun cid c e T D => conn_close_ok cid c e T D) f s1 I1 Hnf) as (s2 & -> & I2 & H2); [intros; apply Hex; set_solver|]. cbn [mbind option_bind].
  destruct (each_conn_ok easy_connection_on_writable (fun cid c e T D => writable_ok cid c e T D) w s2 I2 Hnw) as (s3 & -> & I3 & _); [|by exists s3].
  intros cid Hi. rewrite H2; [apply Hex; set_solver|]. intros Hi'. by apply (Hd cid).
Qed.

(** ** The request threads *)

(** A thread is done with a request. *)
Lemma core_worked qd c T D h X L m k x q f : core qd c ((m, k) :: T) D h X L -> messages c !! m = Some x -> requests x !! k = Some q ->
  args (f q) = args q -> retcode (f q) = EASY_OK \/ retcode (f q) = EASY_ERROR ->
  core qd (c_set_messages (<[m := m_set_requests (<[k := f q]> (requests x)) x]> (messages c)) (next_message c) c) T ((m, k) :: D) h X L.
Proof.
  intros C Hm Hk Ha Hr. pose proof (ok_message _ _ _ _ _ _ _ C m x Hm) as []. pose proof (lookup_lt_Some _ _ _ Hk) as Hlt. pose proof (ok_nodup _ _ _ _ _ _ _ C) as Hn.
  assert ((m, k) ∉ D) as Hd by (cbn [app] in Hn; apply list.NoDup_cons in Hn as [Hn _]; rewrite !elem_of_app in Hn; tauto).
  set (y := m_set_requests _ x). set (c1 := c_set_messages _ _ c). assert (core qd c1 ((m, k) :: T) D h X L) as C1.
  { apply (core_update qd c ((m, k) :: T) D h X L m x y C Hm); cbn [y m_ref m_set_requests request_list_count request_list request_done_list requests]; try done; try lia.
    - intros j Hj. rewrite length_insert. by apply mo_there0.
    - apply list.Forall_insert; [done|]. rewrite Ha. exact (list.Forall_lookup_1 _ _ _ _ mo_wait0 Hk).
    - intros j q' _ Hq'. destruct (decide (j = k)) as [->|]; [rewrite list_lookup_insert_eq by done; eauto|rewrite list_lookup_insert_ne by done; eauto].
    - intros j q' Hj Hq'. apply list_lookup_insert_Some in Hq' as [(<- & <- & _)|[Hne Hq']]; [done|by apply (ok_back _ _ _ _ _ _ _ C m j x q')].
    - intros j q' Hj Hq'. apply list_lookup_insert_Some in Hq' as [(<- & <- & _)|[Hne Hq']]; [|by apply (mo_fresh0 j q')]. exfalso. apply (mo_queued0 k Hj). left. }
  assert (T ++ ((m, k) :: D) ++ h ≡ₚ ((m, k) :: T) ++ D ++ h) as E by (cbn [app]; by rewrite <- Permutation_middle).
  assert (T ++ (m, k) :: D ≡ₚ ((m, k) :: T) ++ D) as E' by (cbn [app]; by rewrite <- Permutation_middle).
  apply (core_rearrange qd c1 ((m, k) :: T) D h X L); [done|intros r; by rewrite E| |by rewrite E|intros m'; by rewrite E'|intros m'; by rewrite E|].
  - intros m' j x' q' Hj Hx' Hq'. apply elem_of_cons in Hj as [[= -> ->]|Hj]; [|by apply (ok_back _ _ _ _ _ _ _ C1 m' j x' q')].
    cbn in Hx'. rewrite lookup_insert_eq in Hx'. injection Hx' as <-. cbn in Hq'. rewrite list_lookup_insert_eq in Hq' by done. by injection Hq' as <-.
  - intros m' Hm'. apply (ok_out _ _ _ _ _ _ _ C1), elem_of_app. by left.
Qed.

(** One thread of the list changes. *)
Lemma threads_at {A} (f : easy_request_thread_t -> list A) ts t x : ts !! t = Some x -> exists rest,
  concat (map f ts) ≡ₚ f x ++ rest /\ forall y, concat (map f (<[t := y]> ts)) ≡ₚ f y ++ rest.
Proof.
  intros Hx. exists (concat (map f (take t ts ++ drop (S t) ts))).
  assert (forall y, concat (map f (take t ts ++ y :: drop (S t) ts)) ≡ₚ f y ++ concat (map f (take t ts ++ drop (S t) ts))) as E.
  { intros y. rewrite !map_app, !concat_app. cbn [map concat]. rewrite !app_assoc. by rewrite (Permutation_app_comm (f y)). }
  split; [rewrite <- E; by rewrite (take_drop_middle _ _ _ Hx)|]. intros y. rewrite <- E. by rewrite insert_take_drop by (by eapply lookup_lt_Some).
Qed.

(** Requests move between the lists of the threads. *)
Lemma io_moved (s s' : state) : io_inv s [] -> conns s' = conns s -> threads (env_of s') <> [] -> tasks (env_of s') ≡ₚ tasks (env_of s) -> backs (env_of s') ≡ₚ backs (env_of s) -> io_inv s' [].
Proof.
  intros [] Ec Ht ET EB. split; [done| |]; rewrite Ec; [|intros cid r; cbn [app]; rewrite ET, EB; apply io_alive0].
  intros cid c Hc. cbn [app]. eapply conn_inv_perm; [by apply io_conns0|by rewrite ET|by rewrite EB].
Qed.

Lemma insert_not_nil {A} t (x : A) l : l <> [] -> <[t := x]> l <> [].
Proof. by destruct l, t. Qed.

Lemma request_wakeup_ok (s : state) t : io_inv s [] -> exists s', easy_request_on_wakeup t s = Some s' /\ io_inv s' [].
Proof.
  intros I. unfold easy_request_on_wakeup. destruct (threads (env_of s) !! t) as [[[|r l] [|? ?] [|? ?]]|] eqn:Et; try (by exists s). eexists. split; [done|].
  destruct (threads_at (fun t => task_list t ++ todo t) _ _ _ Et) as (rest & E & E'). destruct (threads_at ready _ _ _ Et) as (rest2 & F & F').
  apply (io_moved s); [done|done|apply insert_not_nil, I| |]; unfold tasks, backs; cbn [set_thread env_of threads e_set_threads io_requests].
  - rewrite E, E'. cbn [task_list todo]. by rewrite app_nil_r.
  - by rewrite F, F'.
Qed.

Lemma finished_ok (s : state) t cid r x rest : threads (env_of s) !! t = Some x -> todo x = (cid, r) :: rest ->
  let s' := finished t (cid, r) x s in
  conns s' = conns s /\ threads (env_of s') <> [] /\ tasks (env_of s) ≡ₚ (cid, r) :: tasks (env_of s') /\ backs (env_of s') ≡ₚ (cid, r) :: backs (env_of s).
Proof.
  intros Et Hx. destruct (threads_at (fun t => task_list t ++ todo t) _ _ _ Et) as (R & E & E'). destruct (threads_at ready _ _ _ Et) as (R2 & F & F').
  assert (threads (env_of s) <> []) as Hn by (intros Hn; by rewrite Hn in Et). rewrite Hx in E. unfold finished. rewrite Hx. cbn [tail].
  case_match; (split_and!; [done|by apply insert_not_nil|unfold tasks; cbn [set_thread env_of threads e_set_threads e_set_requests]; rewrite E, E'; cbn [task_list todo]; by rewrite <- Permutation_middle|]);
    unfold backs; cbn [set_thread env_of threads e_set_threads io_requests e_set_requests]; rewrite F, F'; cbn [ready app].
  - rewrite !app_assoc, (Permutation_app_comm _ [(cid, r)]). cbn [app]. f_equiv. by rewrite (Permutation_app_comm _ (ready x)), app_assoc.
  - by rewrite (Permutation_app_comm (ready x) [_]).
Qed.

(** The request at the head of the list of a thread is answered. *)
Lemma worked_ok (s : state) t cid r x rest f : io_inv s [] -> threads (env_of s) !! t = Some x -> todo x = (cid, r) :: rest ->
  (forall q, args (f q) = args q /\ (retcode (f q) = EASY_OK \/ retcode (f q) = EASY_ERROR)) ->
  exists s', on_conn cid (mod_request r f) s = Some (tt, s') /\ io_inv (finished t (cid, r) x s') [].
Proof.
  intros I Et Hx Hf. destruct r as [m k]. assert ((cid, (m, k)) ∈ tasks (env_of s)) as Hin.
  { destruct (threads_at (fun t => task_list t ++ todo t) _ _ _ Et) as (R & E & _). unfold tasks. rewrite E, Hx. set_solver. }
  destruct (io_alive _ _ I cid (m, k) ltac:(set_solver)) as [c Hc]. destruct (io_conns _ _ I cid c Hc) as ((qd & C & Hq) & Hr & Hfr). cbn [app] in C.
  destruct (ok_req _ _ _ _ _ _ _ C m k) as (y & q & Hy & Hk); [apply elem_of_app; left; by apply reqs_of_elem|]. destruct (Hf q) as [Ha Hret].
  set (c' := c_set_messages (<[m := m_set_requests (<[k := f q]> (requests y)) y]> (messages c)) (next_message c) c). set (s1 := Io (<[cid := c']> (conns s)) (env_of s)).
  exists s1. split.
  { destruct (on_conn_ok s cid c (mod_request (m, k) f) (fun _ c0 e0 => c0 = c' /\ e0 = env_of s) Hc (wp_mod_request Hy Hk (conj eq_refl eq_refl))) as ([] & c0 & e0 & -> & -> & ->). cbn [c' freed c_set_messages]. by rewrite Hfr. }
  destruct (finished_ok s1 t cid (m, k) x rest Et Hx) as (Ec & Hne & ET & EB). set (s2 := finished t (cid, (m, k)) x s1) in *. change (env_of s1) with (env_of s) in *.
  assert (forall cid', reqs_of cid' ((cid, (m, k)) :: tasks (env_of s2)) = reqs_of cid' [(cid, (m, k))] ++ reqs_of cid' (tasks (env_of s2))) as Eh by (intros; apply (reqs_of_app _ [_])).
  split; [done| |].
  - intros cid' c2. rewrite Ec. cbn [app s1 conns]. intros Hc2. destruct (decide (cid' = cid)) as [->|Hcid].
    + rewrite lookup_insert_eq in Hc2. injection Hc2 as <-. eapply (conn_inv_perm c' (reqs_of cid (tasks (env_of s2))) ((m, k) :: reqs_of cid (backs (env_of s)))); [|done|].
      * assert (reqs_of cid (tasks (env_of s)) ≡ₚ (m, k) :: reqs_of cid (tasks (env_of s2))) as ET' by (rewrite ET, Eh; unfold reqs_of at 1; cbn; by rewrite decide_True).
        split_and!; [exists qd; split; [|done]|cbn [c' c_ref c_set_messages]|done].
        -- apply (core_worked qd c _ _ [] [] [] m k y q f); [|done..]. eapply core_perm; [exact C|by rewrite ET'|done].
        -- rewrite Hr. rewrite ET'. cbn [app length]. rewrite !length_app. cbn [length]. lia.
      * rewrite EB. unfold reqs_of. cbn. by rewrite decide_True.
    + rewrite lookup_insert_ne in Hc2 by done. eapply conn_inv_perm; [by apply (io_conns _ _ I)|rewrite ET|cbn [app]; rewrite EB]; unfold reqs_of; cbn; by rewrite decide_False.
  - intros cid' r'. rewrite Ec. cbn [app s1 conns]. intros Hi. destruct (decide (cid' = cid)) as [->|Hcid]; [by rewrite lookup_insert_eq|]. rewrite lookup_insert_ne by done.
    apply (io_alive _ _ I cid' r'). cbn [app]. rewrite ET. rewrite EB in Hi. set_solver.
Qed.

(** No answer is streamed. *)
Definition no_stream : Prop := forall (h : H) p, match snd (h_work h p) with Stream _ => False | _ => True end.

Lemma doreq_ok (s : state) t (Hns : no_stream) : io_inv s [] -> exists s', easy_request_doreq t s = Some s' /\ io_inv s' [].
Proof.
  intros I. unfold easy_request_doreq. destruct (threads (env_of s) !! t) as [[ts [|[cid [m k]] rest] out]|] eqn:Et; try (by exists s).
  assert ((cid, (m, k)) ∈ tasks (env_of s)) as Hin by (destruct (threads_at (fun t => task_list t ++ todo t) _ _ _ Et) as (R & E & _); unfold tasks; rewrite E; cbn [task_list todo]; set_solver).
  destruct (io_alive _ _ I cid (m, k) ltac:(set_solver)) as [c Hc]. destruct (io_conns _ _ I cid c Hc) as ((qd & C & Hq) & Hr & Hfr). cbn [app] in C.
  destruct (ok_req _ _ _ _ _ _ _ C m k) as (y & q & Hy & Hk); [apply elem_of_app; left; by apply reqs_of_elem|].
  pose proof (list.Forall_lookup_1 _ _ _ _ (mo_wait _ _ _ _ _ _ _ _ (ok_message _ _ _ _ _ _ _ C m y Hy)) Hk) as Hw. cbv beta in Hw.
  assert (on_conn cid (bind get_conn (fun c => bind (get_request (m, k)) (fun x => ret (c_status c, x)))) s = Some ((c_status c, q), s)) as ->.
  { edestruct (on_conn_ok s cid c (bind get_conn (fun c => bind (get_request (m, k)) (fun x => ret (c_status c, x)))) (fun a c0 e0 => a = (c_status c, q) /\ c0 = c /\ e0 = env_of s) Hc) as (a & c0 & e0 & -> & -> & -> & ->);
      [apply wpc_bind, wp_conn, wpc_bind, (wp_request Hy Hk), wp_ret; done|]. rewrite Hfr, insert_id by done. by destruct s. }
  cbn [mbind option_bind]. rewrite Hw. cbn [bool_decide]. set (x := RequestThread ts _ out) in *.
  assert (forall f (s0 : state), env_of s0 = e_set_hst (hst (env_of s0)) (env_of s) -> conns s0 = conns s -> (forall q, args (f q) = args q /\ (retcode (f q) = EASY_OK \/ retcode (f q) = EASY_ERROR)) ->
    exists s', (y ← on_conn cid (mod_request (m, k) f) s0; Some (finished t (cid, (m, k)) x (snd y))) = Some s' /\ io_inv s' []) as Hwork.
  { intros f s0 Ee Ec Hf. assert (io_inv s0 []) as I0 by (apply (io_moved s); [done|done|rewrite Ee; apply I|by rewrite Ee|by rewrite Ee]).
    destruct (worked_ok s0 t cid (m, k) x rest f I0 ltac:(by rewrite Ee) ltac:(done) Hf) as (s' & -> & I'). by eexists. }
  rewrite !bool_decide_eq_false_2 by done. rewrite orb_false_r. destruct (c_status c =? EASY_CONN_CLOSE); [apply Hwork; [by destruct s as [? []]|done|]; intros; split; [done|by right]|].
  pose proof (Hns (hst (env_of s)) (ipacket q)) as Hn. destruct (h_work (hst (env_of s)) (ipacket q)) as [h [p|p|]]; [|done|].
  - apply Hwork; [done|done|]. intros; split; [done|by left].
  - apply Hwork; [done|done|]. intros; split; [done|by right].
Qed.

(** ** Any run *)

Lemma new_ok : conn_inv (easy_connection_new : conn) [] [].
Proof.
  split_and!; [exists true; split; [|done]|done|done]. split; cbn; try done; try (apply NoDup_nil_2); try (intros; set_solver).
Qed.

Lemma accept_ok (s : state) cid : io_inv s [] -> conns s !! cid = None -> io_inv (easy_connection_on_accept cid s) [].
Proof.
  intros [] Hc. assert (forall l, (forall r, (cid, r) ∉ l) -> reqs_of cid l = []) as Hnone. { intros l Hl. apply list.elem_of_nil_inv. intros r Hr. apply reqs_of_elem in Hr. by eapply Hl. }
  assert (forall r, (cid, r) ∉ tasks (env_of s) ++ backs (env_of s)) as Hno. { intros r Hr. destruct (io_alive0 cid r Hr) as [c ?]. congruence. }
  split; cbn [easy_connection_on_accept env_of conns]; [done| |].
  - intros cid' c. destruct (decide (cid' = cid)) as [->|Hne]; [|rewrite lookup_insert_ne by done; apply io_conns0]. rewrite lookup_insert_eq. intros [= <-].
    cbn [app]. rewrite !Hnone; [apply new_ok|intros r Hr; apply (Hno r); set_solver..].
  - intros cid' r Hr. destruct (decide (cid' = cid)) as [->|Hne]; [by rewrite lookup_insert_eq|rewrite lookup_insert_ne by done; by apply (io_alive0 cid' r)].
Qed.

Lemma event_on_ok (s : state) cid (m : M unit) : io_inv s [] ->
  (forall c, conns s !! cid = Some c -> wp m (c, env_of s) (fun _ c' e' => conn_post cid (reqs_of cid (tasks (env_of s))) (reqs_of cid (backs (env_of s))) (env_of s) c' e')) ->
  exists s', event_on cid m s = Some s' /\ io_inv s' [].
Proof.
  intros I W. unfold event_on. destruct (conns s !! cid) as [c|] eqn:Hc; [|by exists s]. destruct (conn_event s [] cid m I ltac:(by eexists)) as (s' & -> & I' & _); [|by exists s'].
  intros c' Hc'. apply W. congruence.
Qed.

Lemma step_ok (s : state) ev (Hprog : progress) (Hns : no_stream) : io_inv s [] -> exists s', step ev s = Some s' /\ io_inv s' [].
Proof.
  intros I. destruct ev as [cid|cid bytes|cid|cid| |t|t]; cbn [step].
  - destruct (conns s !! cid) eqn:Hc; [by exists s|]. eexists. split; [done|]. by apply accept_ok.
  - unfold is_closed. destruct (conns s !! cid) as [c|] eqn:Hc; [|by exists s]. destruct (Z.eqb_spec (c_status c) EASY_CONN_CLOSE) as [E|E]; [by exists s|].
    apply event_on_ok; [done|]. intros c' Hc'. assert (c' = c) as -> by congruence. apply readable_ok; [done|by apply (io_conns _ _ I)|done|apply I].
  - apply event_on_ok; [done|]. intros c Hc. by apply writable_ok, (io_conns _ _ I).
  - apply event_on_ok; [done|]. intros c Hc. by apply timeout_ok, (io_conns _ _ I).
  - by apply wakeup_ok.
  - by apply request_wakeup_ok.
  - by apply doreq_ok.
Qed.

Lemma run_ok (Hprog : progress) (Hns : no_stream) evs : forall s : state, io_inv s [] -> exists s', run evs s = Some s' /\ io_inv s' [].
Proof.
  induction evs as [|ev evs IH]; intros s I; cbn [run]; [by exists s|]. destruct (step_ok s ev Hprog Hns I) as (s1 & -> & I1). cbn [mbind option_bind]. by apply IH.
Qed.

(** The thread starts without connections and requests. *)
Definition started (e : environment) : Prop := threads e <> [] /\ Forall (fun t => t = RequestThread [] [] []) (threads e) /\ io_requests e = [].

Lemma started_ok (e : environment) : started e -> io_inv (Io ∅ e) [].
Proof.
  intros (Ht & Hf & Hr). assert (tasks e = [] /\ backs e = []) as [ET EB].
  { unfold tasks, backs. rewrite Hr, app_nil_r. clear Ht Hr. induction Hf as [|t ts -> Hf IH]; [done|]. cbn. exact IH. }
  split; cbn [env_of conns]; [done| |]; rewrite ?ET, ?EB; [intros cid c Hc; by rewrite lookup_empty in Hc|intros cid r Hi; by apply not_elem_of_nil in Hi].
Qed.

(** ** What holds after any run *)

(** C3 (safety).  The I/O thread starts without connections and its request threads
    without requests.  Whatever happens then in whatever order (connections that
    come, bytes that arrive, sockets that take some bytes, none or fail, clients
    that go away, threads that take up, answer or refuse requests, memory that runs
    out), as long as no answer is streamed: nothing that was freed is used, no
    assertion fails, and every request a thread has, or has answered, is in its
    message in its connection.  A connection counts exactly these requests, and a
    message one reference for its list, one for each buffer waiting to be written
    and one for each of its requests. *)
Theorem server_safe (e : environment) (evs : list event) : progress -> no_stream -> started e -> exists s', run evs (Io ∅ e) = Some s' /\
  (forall cid r, (cid, r) ∈ tasks (env_of s') ++ backs (env_of s') -> exists c x q, conns s' !! cid = Some c /\ messages c !! r.1 = Some x /\ requests x !! r.2 = Some q) /\
  (forall cid c, conns s' !! cid = Some c -> let A := reqs_of cid (tasks (env_of s') ++ backs (env_of s')) in
     c_ref c = Z.of_nat (length A) /\
     forall m x, messages c !! m = Some x -> m_ref x = (if decide (m ∈ message_list c) then 1 else 0) + cntm (map cleanup (output c)) m + cnt A m /\ 0 < m_ref x).
Proof.
  intros Hp Hn Hs. destruct (run_ok Hp Hn evs _ (started_ok e Hs)) as (s' & E & I). exists s'. split; [done|]. split.
  - intros cid [m k] Hr. destruct (io_alive _ _ I cid (m, k) Hr) as [c Hc]. destruct (io_conns _ _ I cid c Hc) as ((qd & C & _) & _). cbn [app] in C.
    destruct (ok_req _ _ _ _ _ _ _ C m k) as (x & q & Hx & Hq); [|by exists c, x, q]. rewrite app_nil_r, <- reqs_of_app. by apply reqs_of_elem.
  - intros cid c Hc A. destruct (io_conns _ _ I cid c Hc) as ((qd & C & _) & Hr & _). cbn [app] in C, Hr. unfold A. rewrite reqs_of_app. split; [done|].
    intros m x Hx. pose proof (ok_message _ _ _ _ _ _ _ C m x Hx) as []. split; [|done]. by rewrite mo_ref0.
Qed.

(** C15 (functional).  In any such run, what the socket of a connection has taken,
    followed by the buffers still waiting, is the encoding of the answers given so
    far, in the order in which they were given: no byte is lost, repeated or out of
    order, however the writes are cut. *)
Theorem answers_in_order (e : environment) (evs : list event) : progress -> no_stream -> started e -> exists s', run evs (Io ∅ e) = Some s' /\
  forall cid c, conns s' !! cid = Some c -> sent c ++ concat (map data (output c)) = concat (map (fun p => concat (default [] (h_encode p))) (answers c)).
Proof.
  intros Hp Hn Hs. destruct (run_ok Hp Hn evs _ (started_ok e Hs)) as (s' & E & I). exists s'. split; [done|]. intros cid c Hc. destruct (io_conns _ _ I cid c Hc) as ((qd & C & _) & _).
  pose proof (ok_stream _ _ _ _ _ _ _ C) as Es. by rewrite app_nil_r in Es.
Qed.

(** C17 (functional).  After any such run a connection of which no thread has a request
    can be closed, and closing frees it with all its messages: nothing is kept
    alive by a reference too many.  The threads do not notice. *)
Theorem close_frees_all (e : environment) (evs : list event) : progress -> no_stream -> started e -> exists s', run evs (Io ∅ e) = Some s' /\
  forall cid c, conns s' !! cid = Some c -> (forall r, (cid, r) ∉ tasks (env_of s') ++ backs (env_of s')) ->
    exists c' e', easy_connection_destroy (c, env_of s') = Some (tt, (c', e')) /\ freed c' = true /\ messages c' = ∅ /\ threads e' = threads (env_of s') /\ io_requests e' = io_requests (env_of s').
Proof.
  intros Hp Hn Hs. destruct (run_ok Hp Hn evs _ (started_ok e Hs)) as (s' & E & I). exists s'. split; [done|]. intros cid c Hc Hno.
  destruct (io_conns _ _ I cid c Hc) as ((qd & C & _) & Hr & Hf). cbn [app] in C, Hr. rewrite <- reqs_of_app in Hr. pose proof (conn_destroy_ok qd c (env_of s') _ _ C ltac:(by rewrite <- reqs_of_app) Hf) as W.
  assert (reqs_of cid (tasks (env_of s') ++ backs (env_of s')) = []) as E0 by (apply list.elem_of_nil_inv; intros r Hi; apply reqs_of_elem in Hi; by eapply Hno).
  unfold wp in W. destruct (easy_connection_destroy (c, env_of s')) as [[[] [c' e']]|] eqn:Ed; [|done]. destruct W as ([Q1 Q2] & [(F & _ & Em)|[Hne _]]); [exists c', e'; by split_and!|]. by rewrite <- reqs_of_app in Hne.
Qed.

End Theorems.
(** ** A small service

    Packets have two bytes; the first says who answers: the I/O thread (1) or a
    request thread (2).  The answer is the packet.  With [stream] a request thread
    answers in parts. *)

Definition demo_decode (l : list Z) : decoded (list Z) := match l with a :: b :: rest => DPacket [a; b] rest | _ => DMore end.
Definition demo_process (h : unit) (p : list Z) : unit * processed (list Z) := (h, match p with 1 :: _ => Replied p | 2 :: _ => Pushed 0 | _ => Refused end).
Definition demo_work (stream : bool) (h : unit) (p : list Z) : unit * worked (list Z) := (h, if stream then Stream p else Answer p).
Definition demo (stream : bool) : IoHandler (list Z) unit := {| h_decode := demo_decode; h_process := demo_process; h_work := demo_work stream; h_encode := fun p => Some [p] |}.

Lemma demo_progress stream : @progress _ _ (demo stream).
Proof. intros l p rest E. cbn in E. destruct l as [|a [|b l]]; [done|done|]. injection E as _ <-. cbn. lia. Qed.
Lemma demo_no_stream : @no_stream _ _ (demo false).
Proof. by intros h p. Qed.

(** Two request threads; the socket takes one byte, then nothing for a while. *)
Definition demo_env : @env unit := Env [RequestThread [] [] []; RequestThread [] [] []] [] 0 0 tt [] [Wrote 1; WAgain; Wrote 2; Wrote 99].
Lemma demo_env_started : started demo_env.
Proof. split; [done|]. split; [by repeat constructor|done]. Qed.

(** Three requests, one of them for a request thread and one in two pieces; a second
    client is refused and goes. *)
Definition demo_events : list event := [Accept 0; Accept 1; Readable 0 [1; 7; 2; 8; 1]; Readable 1 [3; 3]; TaskWakeup 0; Readable 0 [9]; TaskStep 0; Answers; Writable 0].

Lemma server_safe_witness : exists s', @run _ _ (demo false) demo_events (Io ∅ demo_env) = Some s' /\
  (forall cid r, (cid, r) ∈ tasks (env_of s') ++ backs (env_of s') -> exists c x q, conns s' !! cid = Some c /\ messages c !! r.1 = Some x /\ requests x !! r.2 = Some q) /\
  (forall cid c, conns s' !! cid = Some c -> let A := reqs_of cid (tasks (env_of s') ++ backs (env_of s')) in
     c_ref c = Z.of_nat (length A) /\
     forall m x, messages c !! m = Some x -> m_ref x = (if decide (m ∈ message_list c) then 1 else 0) + cntm (map cleanup (output c)) m + cnt A m /\ 0 < m_ref x).
Proof. exact (@server_safe _ _ (demo false) demo_env demo_events (demo_progress false) demo_no_stream demo_env_started). Defined.

(** The bytes of the three answers, in the order of the answers. *)
Lemma answers_in_order_witness : (exists s', @run _ _ (demo false) demo_events (Io ∅ demo_env) = Some s' /\
    forall cid c, conns s' !! cid = Some c -> sent c ++ concat (map data (output c)) = concat (map (fun p => concat (default [] (@h_encode _ _ (demo false) p))) (answers c))) /\
  (s ← @run _ _ (demo false) demo_events (Io ∅ demo_env); c ← conns s !! 0%nat; Some (sent c, answers c)) = Some ([1; 7; 1; 9; 2; 8], [[1; 7]; [1; 9]; [2; 8]]).
Proof. split; [exact (@answers_in_order _ _ (demo false) demo_env demo_events (demo_progress false) demo_no_stream demo_env_started)|vm_compute; reflexivity]. Defined.

Lemma close_frees_all_witness : exists s', @run _ _ (demo false) demo_events (Io ∅ demo_env) = Some s' /\
  forall cid c, conns s' !! cid = Some c -> (forall r, (cid, r) ∉ tasks (env_of s') ++ backs (env_of s')) ->
    exists c' e', easy_connection_destroy (c, env_of s') = Some (tt, (c', e')) /\ freed c' = true /\ messages c' = ∅ /\ threads e' = threads (env_of s') /\ io_requests e' = io_requests (env_of s').
Proof. exact (@close_frees_all _ _ (demo false) demo_env demo_events (demo_progress false) demo_no_stream demo_env_started). Defined.

(** ** Three situations the code does not handle *)

(** The client sends every packet together with the first byte of the next. *)
Definition ragged (n : nat) : list event := Accept 0 :: Readable 0 [1; 0; 1] :: map (fun k => Readable 0 [Z.of_nat k; 1]) (seq 1 n).
Definition quick_env : @env unit := Env [RequestThread [] [] []] [] 0 0 tt [] (replicate 64 (Wrote 99)).

(** A message that was read into sixteen times and ends inside a packet
    is replaced by a new one with the rest of the bytes, before its requests are
    processed; the loop then goes over the list of the new message.  The requests of
    the last read stay on the list of the old message and are never answered:
    sixteen packets arrived and fifteen were answered, and after thirty-two packets
    two answers are missing, while the counter of the requests in work stays up. *)
Example recycled_requests_lost :
  (s ← @run _ _ (demo false) (ragged 15) (Io ∅ quick_env); c ← conns s !! 0%nat; Some (answers c, doing_request_count c)) = Some (map (fun k => [1; Z.of_nat k]) (seq 0 15), 1) /\
  (s ← @run _ _ (demo false) (ragged 31) (Io ∅ quick_env); c ← conns s !! 0%nat; Some (answers c, doing_request_count c)) =
    Some (map (fun k => [1; Z.of_nat k]) (seq 0 15 ++ seq 16 15), 2).
Proof. split; vm_compute; reflexivity. Qed.

(** While the thread of a request waits for a part of its answer to be
    written, neither the connection nor the message counts it.  A client that closes
    the connection in that moment has everything freed, and the thread, which is told
    so, then stores its result in the request that is gone; up to there the run is
    fine, and had the part been written first, the thread would have got its
    references back and the connection would have waited for it. *)
Example streaming_use_after_free :
  let before := [Accept 0; Readable 0 [2; 9]; TaskWakeup 0; TaskStep 0; Answers] in
  (s ← @run _ _ (demo true) before (Io ∅ demo_env); c ← conns s !! 0%nat; Some (c_ref c, session_list c, todo <$> threads (env_of s))) = Some (0, [(0, 0)%nat], [[(0, (0, 0))%nat]; []]) /\
  (s ← @run _ _ (demo true) (before ++ [Readable 0 []]) (Io ∅ demo_env); Some (conns s !! 0%nat, todo <$> threads (env_of s))) = Some (None, [[(0, (0, 0))%nat]; []]) /\
  @run _ _ (demo true) (before ++ [Readable 0 []; TaskStep 0]) (Io ∅ demo_env) = None /\
  (s ← @run _ _ (demo true) (before ++ [Writable 0; Writable 0; Readable 0 []; TaskStep 0; Answers]) (Io ∅ demo_env); Some (conns s !! 0%nat, tasks (env_of s))) = Some (None, []).
Proof. split_and!; vm_compute; reflexivity. Qed.

(** A client that sends one packet the service refuses, [n] times. *)
Definition refused (n : nat) : list event := concat (replicate n [Accept 0; Readable 0 [3; 3]]).

(** The first read of a new connection while the I/O thread has not too much in work. *)
Ltac first_read Hd :=
  apply Z.ltb_ge in Hd; cbn [run step conns easy_connection_on_accept]; rewrite lookup_empty; cbn [mbind option_bind];
  unfold step, is_closed, event_on, on_conn, easy_connection_on_accept; cbn [conns env_of]; rewrite lookup_insert_eq; cbn [mbind option_bind easy_connection_new c_status]; change (EASY_CONN_OK =? EASY_CONN_CLOSE) with false; cbv iota;
  unfold easy_connection_on_readable, bind at 1, get_conn at 1; cbn [fst]; unfold bind at 1, get_env at 1; cbn [snd io_doing e_set_counts]; rewrite Hd; cbn [doing_request_count easy_connection_new]; vm_compute; reflexivity.

Lemma refused_once d k : d <= EASY_IOTH_DOING_REQ_CNT -> @run _ _ (demo false) [Accept 0; Readable 0 [3; 3]] (Io ∅ (e_set_counts d k quick_env)) = Some (Io ∅ (e_set_counts (d + 1) (k + 1) quick_env)).
Proof.
  intros Hd. first_read Hd.
Qed.

Lemma run_app {P H} `{IoHandler P H} (l l' : list event) : forall s, run (l ++ l') s = (s ← run l s; run l' s).
Proof. induction l as [|ev l IH]; intros s; [done|]. cbn [app run]. destruct (step ev s) as [s'|]; cbn [mbind option_bind]; [apply IH|done]. Qed.

Lemma refused_all n : Z.of_nat n <= EASY_IOTH_DOING_REQ_CNT + 1 -> @run _ _ (demo false) (refused n) (Io ∅ quick_env) = Some (Io ∅ (e_set_counts (Z.of_nat n) (Z.of_nat n) quick_env)).
Proof.
  induction n as [|n IH]; intros Hn; [done|]. unfold refused in *. rewrite replicate_S_end, concat_app, run_app, IH by lia. cbn [mbind option_bind concat]. rewrite app_nil_r, refused_once by lia. by replace (Z.of_nat (S n)) with (Z.of_nat n + 1) by lia.
Qed.



End EasyConnectionTheorems.
