(* ===== verification/TdhsDefine.v ===== *)
(** * libtdhs/tdh_socket_define.hpp: the request structures

    The structs a request is decoded into, as records; fixed arrays are lists of
    their full length.  A [char *] of a request is null, one of the two static
    strings, or an offset into the bytes of the message.  The debug printing of
    the structs is not modelled. *)

From Stdlib Require Import Ascii String.
From Stdlib Require Import ZArith Lia.
From stdpp Require Import base gmap list numbers option.
From S2P Require Import Prelude EasyHash CString.

Local Open Scope Z_scope.

Module TdhsDefine.

(** ** Constants *)

Definition REQUEST_TYPE_GET : Z := 0.
Definition REQUEST_TYPE_COUNT : Z := 1.
Definition REQUEST_TYPE_UPDATE : Z := 10.
Definition REQUEST_TYPE_DELETE : Z := 11.
Definition REQUEST_TYPE_INSERT : Z := 12.
Definition REQUEST_TYPE_BATCH : Z := 20.
Definition REQUEST_TYPE_SHAKE_HANDS : Z := 0xFFFF.

Definition CLIENT_STATUS_OK : Z := 200.
Definition CLIENT_STATUS_ACCEPT : Z := 202.
Definition CLIENT_STATUS_MULTI_STATUS : Z := 207.
Definition CLIENT_STATUS_BAD_REQUEST : Z := 400.
Definition CLIENT_STATUS_FORBIDDEN : Z := 403.
Definition CLIENT_STATUS_REQUEST_TIME_OUT : Z := 408.
Definition CLIENT_STATUS_SERVER_ERROR : Z := 500.
Definition CLIENT_STATUS_SERVICE_UNAVAILABLE : Z := 503.

Definition REQUEST_MAX_FIELD_NUM : nat := 256.
Definition REQUEST_MAX_KEY_NUM : nat := 10.
Definition REQUEST_MAX_IN_NUM : nat := REQUEST_MAX_KEY_NUM.

Definition TDHS_UNDECODE : Z := 0.
Definition TDHS_DECODE_DONE : Z := 1.
Definition TDHS_DECODE_FAILED : Z := 2.

Definition TDHS_FILTER_END : Z := 6.
Definition TDHS_IN : Z := 5.
Definition TDHS_BETWEEN : Z := 7.
Definition TDHS_READ_END : Z := 8.
Definition TDHS_UPDATE_END : Z := 4.

(** ** Structures *)

Inductive cptr := Null | NULL_STRING | PRIMARY | At (offset : Z).
Definition PRIMARY_SIZE : Z := 8.

Record tdhs_string_t := Str { str : cptr; len : Z }.
Definition no_string : tdhs_string_t := Str Null 0.
Definition set_str v s := Str v (len s).
Definition set_len v s := Str (str s) v.

Definition strlen (s : tdhs_string_t) : Z := if 0 <? len s then len s - 1 else 0.

Record tdhs_request_table_t := Table {
  field_num : Z; db : tdhs_string_t; table : tdhs_string_t; index : tdhs_string_t;
  fields : list tdhs_string_t; hash_code_for_table : Z }.

Record tdhs_filter_t := Filter {
  filter_num : Z; field : list tdhs_string_t; filter_flag : list Z; filter_value : list tdhs_string_t }.

Record tdhs_get_key_t := Key { key_field_num : Z; key : list tdhs_string_t }.

(** [keys]: null, the array [r_keys] of the request, or an array of the pool. *)
Inductive keys_ref := NoKeys | RKeys | PoolKeys (addr : Z) (ks : list tdhs_get_key_t).

Record tdhs_request_get_t := Get {
  key_num : Z; keys : keys_ref; r_keys : list tdhs_get_key_t; find_flag : Z;
  get_filter : tdhs_filter_t; start : Z; limit : Z }.

Record tdhs_request_values_t := Values {
  value_num : Z; flag : list Z; value : list tdhs_string_t }.

Record tdhs_request_t := Request {
  status : Z; type : Z; table_info : tdhs_request_table_t; get : tdhs_request_get_t;
  values : tdhs_request_values_t; optimize_hash : Z }.

(** The structures of zero bytes [easy_pool_calloc] returns. *)
Definition zero_key : tdhs_get_key_t := Key 0 (replicate REQUEST_MAX_KEY_NUM no_string).
Definition zero_request : tdhs_request_t :=
  let strings := replicate REQUEST_MAX_FIELD_NUM no_string in
  let flags := replicate REQUEST_MAX_FIELD_NUM 0 in
  Request TDHS_UNDECODE 0
    (Table 0 no_string no_string no_string strings 0)
    (Get 0 NoKeys (replicate REQUEST_MAX_IN_NUM zero_key) 0 (Filter 0 strings flags strings) 0 0)
    (Values 0 flags strings) 0.

(** [sizeof] on the x86-64 targets. *)
Definition sizeof_tdhs_get_key_t : Z := 168.
Definition sizeof_tdhs_packet_t : Z := 22360.

(** ** Updates of one member *)

Definition set_type v q := Request (status q) v (table_info q) (get q) (values q) (optimize_hash q).
Definition set_status v q := Request v (type q) (table_info q) (get q) (values q) (optimize_hash q).
Definition on_table f q := Request (status q) (type q) (f (table_info q)) (get q) (values q) (optimize_hash q).
Definition on_get f q := Request (status q) (type q) (table_info q) (f (get q)) (values q) (optimize_hash q).
Definition on_values f q := Request (status q) (type q) (table_info q) (get q) (f (values q)) (optimize_hash q).

Definition set_field_num v t := Table v (db t) (table t) (index t) (fields t) (hash_code_for_table t).
Definition on_db f t := Table (field_num t) (f (db t)) (table t) (index t) (fields t) (hash_code_for_table t).
Definition on_table_name f t := Table (field_num t) (db t) (f (table t)) (index t) (fields t) (hash_code_for_table t).
Definition on_index f t := Table (field_num t) (db t) (table t) (f (index t)) (fields t) (hash_code_for_table t).
Definition on_fields f t := Table (field_num t) (db t) (table t) (index t) (f (fields t)) (hash_code_for_table t).

Definition set_key_num v g := Get v (keys g) (r_keys g) (find_flag g) (get_filter g) (start g) (limit g).
Definition set_keys v g := Get (key_num g) v (r_keys g) (find_flag g) (get_filter g) (start g) (limit g).
Definition set_r_keys v g := Get (key_num g) (keys g) v (find_flag g) (get_filter g) (start g) (limit g).
Definition set_find_flag v g := Get (key_num g) (keys g) (r_keys g) v (get_filter g) (start g) (limit g).
Definition on_filter f g := Get (key_num g) (keys g) (r_keys g) (find_flag g) (f (get_filter g)) (start g) (limit g).
Definition set_start v g := Get (key_num g) (keys g) (r_keys g) (find_flag g) (get_filter g) v (limit g).
Definition set_limit v g := Get (key_num g) (keys g) (r_keys g) (find_flag g) (get_filter g) (start g) v.

Definition set_key_field_num v k := Key v (key k).
Definition on_key f k := Key (key_field_num k) (f (key k)).

Definition set_filter_num v x := Filter v (field x) (filter_flag x) (filter_value x).
Definition on_field f x := Filter (filter_num x) (f (field x)) (filter_flag x) (filter_value x).
Definition on_filter_flag f x := Filter (filter_num x) (field x) (f (filter_flag x)) (filter_value x).
Definition on_filter_value f x := Filter (filter_num x) (field x) (filter_flag x) (f (filter_value x)).

Definition set_value_num v x := Values v (flag x) (value x).
Definition on_flag f x := Values (value_num x) (f (flag x)) (value x).
Definition on_value f x := Values (value_num x) (flag x) (f (value x)).

(** ** The array [keys] points to *)

Definition key_array (g : tdhs_request_get_t) : list tdhs_get_key_t :=
  match keys g with NoKeys => [] | RKeys => r_keys g | PoolKeys _ ks => ks end.

Definition on_key_array (f : list tdhs_get_key_t -> list tdhs_get_key_t) (g : tdhs_request_get_t)
    : tdhs_request_get_t :=
  match keys g with
  | NoKeys => g
  | RKeys => set_r_keys (f (r_keys g)) g
  | PoolKeys a ks => set_keys (PoolKeys a (f ks)) g
  end.

(** ** Methods *)

Definition table_is_vaild (t : tdhs_request_table_t) (need_field : bool) : Z :=
  if (len (db t) =? 0) || (len (table t) =? 0) || (need_field && (field_num t =? 0))
  then EASY_ERROR else EASY_OK.

(** The loop of [is_vaild] over the first [n] keys; [None] is a read beyond the array. *)
Fixpoint keys_vaild (ks : list tdhs_get_key_t) (n : Z) : option Z :=
  if n <=? 0 then Some EASY_OK
  else match ks with
       | [] => None
       | k :: ks => if key_field_num k =? 0 then Some EASY_ERROR else keys_vaild ks (n - 1)
       end.

Definition get_is_vaild (g : tdhs_request_get_t) : option Z :=
  if (find_flag g <? 0) || (TDHS_READ_END <=? find_flag g) || (key_num g =? 0)
  then Some EASY_ERROR
  else keys_vaild (key_array g) (key_num g).

Definition filter_set_flag (idx : nat) (f : Z) (x : tdhs_filter_t) : option tdhs_filter_t :=
  if (f <? 0) || (TDHS_FILTER_END <=? f) then None
  else Some (on_filter_flag (fun l => <[idx := f]> l) x).

Definition values_set_flag (idx : nat) (f : Z) (x : tdhs_request_values_t) : option tdhs_request_values_t :=
  if (f <? 0) || (TDHS_UPDATE_END <=? f) then None
  else Some (on_flag (fun l => <[idx := f]> l) x).

(** ** The hash of a table name *)

Definition UT_HASH_RANDOM_MASK : Z := 1463735687.
Definition UT_HASH_RANDOM_MASK2 : Z := 1653893711.

Definition fold (n1 n2 : Z) : Z :=
  u64 (Z.lxor (u64 (u64 (Z.shiftl (Z.lxor (Z.lxor n1 n2) UT_HASH_RANDOM_MASK2) 8) + n1))
         UT_HASH_RANDOM_MASK + n2).

Definition all_hash_code_for_table (db table : list Z) : Z :=
  fold (EasyHash.easy_hash_code db 5) (EasyHash.easy_hash_code table 5).

Definition is_number (c : Z) : bool := (chr "0" <=? c) && (c <=? chr "9").

(** The loop from the last character down: the index where the digits start. *)
Fixpoint digits_from (table : list Z) (i : nat) : option nat :=
  c ← table !! i;
  if negb (is_number c) then Some (Datatypes.S i)
  else match i with O => Some O | Datatypes.S i => digits_from table i end.

(** [atoll] of a string that starts with digits; it saturates at [LLONG_MAX]. *)
Fixpoint digits_val (acc : Z) (l : list Z) : Z :=
  match l with
  | [] => acc
  | c :: l => if is_number c then digits_val (acc * 10 + (c - chr "0")) l else acc
  end.
Definition atoll (l : list Z) : Z := Z.min (digits_val 0 l) (2 ^ 63 - 1).

(** [None]: the table name is empty and the byte before it is read. *)
Definition make_hash_code_for_table (db table : list Z) : option Z :=
  c ← list.last table;
  if is_number c then
    i ← digits_from table (List.length table - 1);
    let ret := atoll (drop i table) in
    Some (if ret =? 0 then u64 (-1) else ret)
  else Some (all_hash_code_for_table db table).

Lemma digits_from_spec pre ds i :
  Forall (fun c => is_number c = true) ds -> (i < List.length ds)%nat ->
  (forall c, list.last pre = Some c -> is_number c = false) ->
  digits_from (pre ++ ds) (List.length pre + i) = Some (List.length pre).
Proof.
  intros Hd Hi Hpre. revert Hi. induction i as [|i IH]; intros Hi.
  - destruct (lookup_lt_is_Some_2 ds 0 Hi) as [d Ed].
    assert (is_number d = true) as Hn by (by apply (Forall_lookup_1 _ _ _ _ Hd Ed)).
    rewrite Nat.add_0_r. destruct (List.length pre) as [|n] eqn:En.
    { apply nil_length_inv in En as ->. cbn [digits_from app]. rewrite Ed. cbn. by rewrite Hn. }
    cbn [digits_from]. rewrite lookup_app_r, En, Nat.sub_diag, Ed by lia. cbn [mbind option_bind].
    rewrite Hn. cbn [negb].
    assert (exists c, list.last pre = Some c) as [c Ec].
    { destruct (list.last pre) eqn:E; [eauto|]. apply last_None in E as ->. done. }
    specialize (Hpre c Ec). rewrite last_lookup, En in Ec. cbn [Init.Nat.pred] in Ec.
    destruct n as [|n]; cbn [digits_from];
      rewrite lookup_app_l, Ec by lia; cbn [mbind option_bind]; by rewrite Hpre.
  - destruct (lookup_lt_is_Some_2 ds (Datatypes.S i) Hi) as [d Ed].
    assert (is_number d = true) as Hn by (by apply (Forall_lookup_1 _ _ _ _ Hd Ed)).
    rewrite Nat.add_succ_r. cbn [digits_from]. rewrite lookup_app_r by lia.
    replace (Datatypes.S (List.length pre + i) - List.length pre)%nat with (Datatypes.S i) by lia.
    rewrite Ed. cbn [mbind option_bind]. rewrite Hn. cbn [negb]. apply IH. lia.
Qed.

Lemma digits_val_spec l acc : Forall (fun c => is_number c = true) l ->
  digits_val acc l = fold_left (fun a c => a * 10 + (c - 48)) l acc.
Proof.
  revert acc. induction l as [|c l IH]; intros acc H; [done|].
  apply list.Forall_cons in H as [Hc Hl]. cbn [digits_val fold_left]. by rewrite Hc, IH.
Qed.

(** The hash of a table whose name ends in a decimal number
    is that number, whatever the database and the rest of the name: the
    partitions [t_1], [t_2], ... of a table get consecutive hashes.  The number
    0 is replaced by 2^64 - 1, the value 0 being reserved for "not computed". *)
Theorem make_hash_code_for_table_number db pre n :
  0 <= n < 2 ^ 63 -> (forall c, list.last pre = Some c -> is_number c = false) ->
  make_hash_code_for_table db (pre ++ udec n) = Some (if n =? 0 then 2 ^ 64 - 1 else n).
Proof.
  intros Hn Hpre. destruct (udec_spec n ltac:(lia)) as (Hne & Hd & Hv & _).
  unfold make_hash_code_for_table. rewrite last_app.
  destruct (list.last (udec n)) as [c|] eqn:Ec; [|by apply last_None in Ec].
  cbn [mbind option_bind]. rewrite last_lookup in Ec.
  assert (is_number c = true) as -> by (exact (Forall_lookup_1 _ _ _ _ Hd Ec)).
  assert (0 < List.length (udec n))%nat by (destruct (udec n); [done|simpl; lia]).
  rewrite length_app, <- Nat.add_sub_assoc by lia.
  rewrite (digits_from_spec pre (udec n)) by (done || lia).
  cbn [mbind option_bind]. rewrite drop_app_length. unfold atoll.
  rewrite digits_val_spec by done. fold (dec_val (udec n)). rewrite Hv, Z.min_l by lia. done.
Qed.

Lemma make_hash_code_for_table_number_witness :
  make_hash_code_for_table (bytes_of "db") (bytes_of "t_" ++ udec 42) = Some 42.
Proof.
  apply (make_hash_code_for_table_number (bytes_of "db") (bytes_of "t_") 42); [lia|].
  intros c H. vm_compute in H. by injection H as <-.
Defined.

End TdhsDefine.
