(* ===== verification/TdhsRead.v ===== *)
(** * libtdhs/util.hpp: the reading macros, and exact parsers

    The macros read from the packet at [pos] with [read_len] bytes left and
    return EASY_ERROR from the enclosing function when the bytes do not suffice.
    A function body is a state transformer that continues ([Next]), has returned
    ([Return]) or has left defined behaviour ([Crash]).

    [exact] says that a body reads exactly the encodings of a set of values: it
    continues if and only if the unread bytes start with one, consumes it, and
    changes the environment as a function of the value and its position. *)

From Stdlib Require Import ZArith Lia.
From stdpp Require Import base list numbers option.
From S2P Require Import Prelude CString TdhsDefine.

Local Open Scope Z_scope.

Module TdhsRead.
Import TdhsDefine.

(** What goes wrong: a read outside the message, an index beyond [key[10]] of a
    key, an index beyond an array of keys, an exhausted loop bound. *)
Inductive crash := Memory | KeyFields | Keys | Fuel.

Record state (Σ : Type) := State { env : Σ; read_len : Z; pos : Z }.
Arguments State {_}.
Arguments env {_}.
Arguments read_len {_}.
Arguments pos {_}.

Inductive outcome (Σ A : Type) :=
  | Next (a : A) (s : state Σ)
  | Return (rc : Z) (s : state Σ)
  | Crash (c : crash).
Arguments Next {_ _}.
Arguments Return {_ _}.
Arguments Crash {_ _}.

Definition M (Σ A : Type) : Type := state Σ -> outcome Σ A.

Definition ret {Σ A} (a : A) : M Σ A := fun s => Next a s.
Definition bind {Σ A B} (m : M Σ A) (f : A -> M Σ B) : M Σ B :=
  fun s => match m s with
           | Next a s => f a s
           | Return rc s => Return rc s
           | Crash c => Crash c
           end.

Notation "x <- m ;; k" := (bind m (fun x => k)) (at level 100, m at next level, right associativity) : easy_scope.
Notation "m ;; k" := (bind m (fun _ => k)) (at level 100, right associativity) : easy_scope.
Local Open Scope easy_scope.

(** [return rc;] *)
Definition return_ {Σ A} (rc : Z) : M Σ A := fun s => Return rc s.
(** [if (f(...) != EASY_OK) return EASY_ERROR;] where the end of [f] is [return EASY_OK;]. *)
Definition must {Σ} (m : M Σ unit) : M Σ unit :=
  fun s => match m s with
           | Return rc s => if rc =? EASY_OK then Next tt s else Return EASY_ERROR s
           | o => o
           end.
Definition modify {Σ} (f : Σ -> Σ) : M Σ unit :=
  fun s => Next tt (State (f (env s)) (read_len s) (pos s)).
Definition inspect {Σ A} (f : Σ -> A) : M Σ A := fun s => Next (f (env s)) s.
(** A change of the environment that is defined only in some of them. *)
Definition modify_or {Σ} (c : crash) (f : Σ -> option Σ) : M Σ unit :=
  fun s => match f (env s) with
           | Some e => Next tt (State e (read_len s) (pos s))
           | None => Crash c
           end.
(** [if (!b) return rc;] *)
Definition check {Σ} (rc : Z) (b : bool) : M Σ unit := if b then ret tt else return_ rc.

(** [for (i = 0; i < n; i++)]; a round consumes a byte or leaves the loop, so
    the bytes left bound the number of rounds. *)
Fixpoint loop {Σ} (fuel : nat) (body : Z -> M Σ unit) (i n : Z) : M Σ unit :=
  if i <? n then
    match fuel with
    | O => fun _ => Crash Fuel
    | S fuel => body i ;; loop fuel body (i + 1) n
    end
  else ret tt.

Definition for_loop {Σ} (body : Z -> M Σ unit) (n : Z) : M Σ unit :=
  fun s => loop (S (Z.to_nat (read_len s))) body 0 n s.

(** ** Big-endian numbers *)

Definition be_val (l : list Z) : Z := fold_left (fun a b => a * 256 + b) l 0.
Definition htonl_bytes (n : Z) : list Z :=
  [n / 2 ^ 24 mod 256; n / 2 ^ 16 mod 256; n / 2 ^ 8 mod 256; n mod 256].

(** [ntohl( *(uint32_t * )(data + p))] *)
Definition load32 (data : list Z) (p : Z) : option Z :=
  if p <? 0 then None else l ← gets data (Z.to_nat p) 4; Some (be_val l).

Definition load8 (data : list Z) (p : Z) : option Z :=
  if p <? 0 then None else data !! Z.to_nat p.

(** ** The macros *)
Section macros.
Context {Σ : Type}.
Variable data : list Z.

Definition load (f : list Z -> Z -> option Z) : M Σ Z :=
  fun s => match f data (pos s) with Some v => Next v s | None => Crash Memory end.

Definition done_ (n : Z) : M Σ unit :=
  fun s => Next tt (State (env s) (u32 (read_len s - n)) (pos s + n)).

Definition enough (n : Z) : M Σ unit :=
  fun s => if read_len s <? n then Return EASY_ERROR s else Next tt s.

Definition read_uint8 : M Σ Z := enough 1 ;; v <- load load8 ;; done_ 1 ;; ret v.

Definition read_uint32 : M Σ Z := enough 4 ;; v <- load load32 ;; done_ 4 ;; ret v.

Definition read_str (n : Z) : M Σ cptr :=
  enough n ;;
  (fun s => Next (if n =? 0 then NULL_STRING else At (pos s)) s).

Definition read_str_done (n : Z) : M Σ unit :=
  done_ n ;;
  if n =? 0 then ret tt
  else c <- (fun s => match load8 data (pos s - 1) with Some v => Next v s | None => Crash Memory end) ;;
       check EASY_ERROR (c =? 0).

(** Reading a length into [x.len] and the string into [x.str], where [upd]
    applies a change to [x], an object the environment may not have. *)
Definition read_string (upd : (tdhs_string_t -> tdhs_string_t) -> Σ -> option Σ) : M Σ unit :=
  n <- read_uint32 ;;
  modify_or KeyFields (upd (set_len n)) ;;
  p <- read_str n ;;
  modify_or KeyFields (upd (set_str p)) ;;
  read_str_done n.

End macros.

(** ** Bytes at a place of the message *)

Definition count {A} (l : list A) : Z := Z.of_nat (length l).

Lemma count_app {A} (l1 l2 : list A) : count (l1 ++ l2) = count l1 + count l2.
Proof. unfold count. rewrite length_app. lia. Qed.

Section placed.
Variable data : list Z.

Definition placed (o : Z) (l : list Z) : Prop := 0 <= o /\ l `prefix_of` drop (Z.to_nat o) data.

Lemma placed_app o l1 l2 : placed o (l1 ++ l2) <-> placed o l1 /\ placed (o + count l1) l2.
Proof.
  unfold placed, count. split.
  - intros [Ho [t Ht]]. rewrite <- app_assoc in Ht. split; [split; [done|by eexists]|]. split; [lia|].
    exists t. rewrite Z2Nat.inj_add, Nat2Z.id, <- drop_drop, Ht, drop_app_length by lia. done.
  - intros [[Ho [t Ht]] [_ [u Hu]]]. split; [done|]. exists u.
    rewrite Z2Nat.inj_add, Nat2Z.id, <- drop_drop, Ht, drop_app_length in Hu by lia. by rewrite Ht, Hu, app_assoc.
Qed.

Lemma placed_gets o l k : placed o l -> (length l = k)%nat -> (0 < k)%nat -> gets data (Z.to_nat o) k = Some l.
Proof.
  intros [Ho [t Ht]] <- Hk. unfold gets. apply (f_equal length) in Ht as Hl. rewrite length_drop, length_app in Hl.
  destruct (Nat.leb_spec (Z.to_nat o + length l) (length data)).
  - by rewrite Ht, take_app_length.
  - lia.
Qed.
End placed.

(** ** Exact parsers *)

(** A set of values with their encodings; [wf] and [eff] may depend on the
    position of the encoding and on the environment before. *)
Record format (Σ X A : Type) := Format {
  enc : X -> list Z; wf : X -> Z -> Σ -> Prop; eff : X -> Z -> Σ -> Σ; val : X -> A }.
Arguments Format {_ _ _}.
Arguments enc {_ _ _}.
Arguments wf {_ _ _}.
Arguments eff {_ _ _}.
Arguments val {_ _ _}.

Definition size {Σ X A} (F : format Σ X A) (x : X) : Z := Z.of_nat (length (enc F x)).

(** Formats of the monad's operations. *)
Definition f_ret {Σ A} (a : A) : format Σ unit A :=
  Format (fun _ => []) (fun _ _ _ => True) (fun _ _ e => e) (fun _ => a).
Definition f_check {Σ} (b : bool) : format Σ unit unit :=
  Format (fun _ => []) (fun _ _ _ => b = true) (fun _ _ e => e) (fun _ => tt).
Definition f_modify {Σ} (f : Σ -> option Σ) : format Σ unit unit :=
  Format (fun _ => []) (fun _ _ e => is_Some (f e)) (fun _ _ e => default e (f e)) (fun _ => tt).
Definition f_bind {Σ X A Y B} (F : format Σ X A) (G : A -> format Σ Y B) : format Σ (X * Y) B :=
  Format (fun x => enc F x.1 ++ enc (G (val F x.1)) x.2)
    (fun x p e => wf F x.1 p e /\ wf (G (val F x.1)) x.2 (p + size F x.1) (eff F x.1 p e))
    (fun x p e => eff (G (val F x.1)) x.2 (p + size F x.1) (eff F x.1 p e))
    (fun x => val (G (val F x.1)) x.2).
(** A continuation that depends on the environment, its bytes and value not. *)
Definition f_inspect {Σ X A B} (f : Σ -> A) (en : X -> list Z) (v : X -> B) (G : A -> format Σ X B)
    : format Σ X B :=
  Format en (fun x p e => wf (G (f e)) x p e) (fun x p e => eff (G (f e)) x p e) v.
Definition f_uint8 {Σ} : format Σ Z Z :=
  Format (fun x => [x]) (fun x _ _ => 0 <= x < 2 ^ 8) (fun _ _ e => e) (fun x => x).
Definition f_uint32 {Σ} : format Σ Z Z :=
  Format htonl_bytes (fun x _ _ => 0 <= x < 2 ^ 32) (fun _ _ e => e) (fun x => x).

(** The strings of the protocol: empty, or ending in a zero byte. *)
Definition str_ok (s : list Z) : Prop :=
  bytes_ok s /\ Z.of_nat (length s) < 2 ^ 32 /\ (s = [] \/ exists s', s = s' ++ [0]).
Definition enc_str (s : list Z) : list Z := htonl_bytes (Z.of_nat (length s)) ++ s.
(** The object a string at offset [p] is read into. *)
Definition str_at (p : Z) (s : list Z) : tdhs_string_t :=
  Str (if Z.of_nat (length s) =? 0 then NULL_STRING else At p) (Z.of_nat (length s)).
Definition f_string {Σ} (upd : (tdhs_string_t -> tdhs_string_t) -> Σ -> option Σ) : format Σ (list Z) unit :=
  Format enc_str (fun s _ e => str_ok s /\ is_Some (upd (fun x => x) e))
    (fun s p e => default e (upd (fun _ => str_at (p + 4) s) e)) (fun _ => tt).

(** A loop reads one value per round. *)
Section loops.
Context {Σ X : Type} (F : Z -> format Σ X unit) (en : X -> list Z).
Fixpoint loop_wf (i n : Z) (xs : list X) (p : Z) (e : Σ) : Prop :=
  match xs with
  | [] => n <= i
  | x :: xs => i < n /\ wf (F i) x p e /\ loop_wf (i + 1) n xs (p + Z.of_nat (length (en x))) (eff (F i) x p e)
  end.
Fixpoint loop_eff (i : Z) (xs : list X) (p : Z) (e : Σ) : Σ :=
  match xs with
  | [] => e
  | x :: xs => loop_eff (i + 1) xs (p + Z.of_nat (length (en x))) (eff (F i) x p e)
  end.
Definition f_loop (i n : Z) : format Σ (list X) unit :=
  Format (fun xs => concat (map en xs)) (loop_wf i n) (loop_eff i) (fun _ => tt).
End loops.

Lemma htonl_bytes_length n : length (htonl_bytes n) = 4%nat.
Proof. done. Qed.

Lemma be_val_htonl n : 0 <= n < 2 ^ 32 -> be_val (htonl_bytes n) = n.
Proof. intros Hn. unfold be_val, htonl_bytes. cbn [fold_left]. mlia. Qed.

Lemma htonl_be_val l : bytes_ok l -> length l = 4%nat ->
  htonl_bytes (be_val l) = l /\ 0 <= be_val l < 2 ^ 32.
Proof.
  intros Hb Hl. destruct l as [|a [|b [|c [|d [|]]]]]; try discriminate.
  unfold bytes_ok in Hb. repeat (apply list.Forall_cons in Hb as [? Hb]).
  unfold htonl_bytes, be_val. cbn [fold_left]. split; [|lia]. repeat f_equal; mlia.
Qed.

Lemma htonl_bytes_ok n : bytes_ok (htonl_bytes n).
Proof. repeat constructor; apply Z.mod_pos_bound; lia. Qed.

Section exact.
Context {Σ : Type}.
Variable data : list Z.
Hypothesis data_ok : bytes_ok data.

Definition inv (s : state Σ) : Prop :=
  0 <= pos s /\ 0 <= read_len s < 2 ^ 32 /\ pos s + read_len s <= Z.of_nat (length data).
(** The unread bytes. *)
Definition rest (s : state Σ) : list Z := take (Z.to_nat (read_len s)) (drop (Z.to_nat (pos s)) data).
Definition adv (n : Z) (e : Σ) (s : state Σ) : state Σ := State e (read_len s - n) (pos s + n).

(** The crashes that are ruled out: accesses outside the message and loops that
    do not end. *)
Definition safe_crash (c : crash) : Prop := c = KeyFields \/ c = Keys.

Record exact {X A} (m : M Σ A) (F : format Σ X A) : Prop := {
  ex_sound : forall s a s', inv s -> m s = Next a s' -> exists x, wf F x (pos s) (env s) /\
    enc F x `prefix_of` rest s /\ a = val F x /\ s' = adv (size F x) (eff F x (pos s) (env s)) s;
  ex_complete : forall s x, inv s -> wf F x (pos s) (env s) -> enc F x `prefix_of` rest s ->
    m s = Next (val F x) (adv (size F x) (eff F x (pos s) (env s)) s);
  ex_safe : forall s, inv s ->
    match m s with Next _ _ => True | Return rc _ => rc <> EASY_OK | Crash c => safe_crash c end }.

Lemma rest_length s : inv s -> Z.of_nat (length (rest s)) = read_len s.
Proof. intros (Hp & Hl & Hd). unfold rest. rewrite length_take, length_drop. lia. Qed.

Lemma prefix_adv s l e : inv s -> l `prefix_of` rest s ->
  inv (adv (Z.of_nat (length l)) e s) /\ rest s = l ++ rest (adv (Z.of_nat (length l)) e s).
Proof.
  intros I Hl. pose proof (prefix_length _ _ Hl) as Hle. pose proof (rest_length s I) as Hr.
  destruct I as (Hp & Hlen & Hd). split; [unfold inv, adv; cbn [pos read_len]; lia|].
  destruct Hl as [k Hk].
  assert (rest (adv (Z.of_nat (length l)) e s) = drop (length l) (rest s)) as ->.
  { unfold rest, adv. cbn [pos read_len]. rewrite skipn_firstn_comm, drop_drop. f_equal; [lia|]. f_equal. lia. }
  rewrite Hk, drop_app_length. done.
Qed.

Lemma gets_rest s k l : inv s -> l `prefix_of` rest s -> length l = k ->
  gets data (Z.to_nat (pos s)) k = Some l.
Proof.
  intros I Hl Hk. destruct Hl as [t Ht]. pose proof (rest_length s I) as Hr. destruct I as (Hp & Hlen & Hd).
  unfold gets. rewrite Ht, length_app in Hr.
  destruct (Nat.leb_spec (Z.to_nat (pos s) + k) (length data)); [|lia]. f_equal.
  unfold rest in Ht. apply (f_equal (take k)) in Ht. rewrite take_take, Nat.min_l in Ht by lia.
  rewrite Ht. subst k. apply take_app_length.
Qed.

Lemma rest_bytes s : bytes_ok (rest s).
Proof. apply Forall_take, Forall_drop, data_ok. Qed.

Lemma rest_split s k : inv s -> Z.of_nat k <= read_len s ->
  exists l, l `prefix_of` rest s /\ length l = k /\ bytes_ok l.
Proof.
  intros I Hk. pose proof (rest_length s I). exists (take k (rest s)). split_and!.
  - apply prefix_take.
  - rewrite length_take. lia.
  - apply Forall_take, rest_bytes.
Qed.

(** *** The operations of the monad *)

Lemma exact_ret {A} (a : A) : exact (ret a) (f_ret a).
Proof.
  assert (forall s : state Σ, s = adv 0 (env s) s) as E.
  { intros [e l p]. unfold adv. cbn. by rewrite Z.sub_0_r, Z.add_0_r. }
  split; cbn.
  - intros s b s' I [= <- <-]. exists tt. split_and!; [done|apply prefix_nil|done|apply E].
  - intros s [] I _ _. unfold ret. f_equal. apply E.
  - done.
Qed.

Lemma exact_check rc b : rc <> EASY_OK -> exact (check rc b) (f_check b).
Proof.
  intros Hrc. destruct b; cbn.
  - destruct (exact_ret tt) as [H1 H2 H3]. split; [|by intros; apply H2|done].
    intros s a s' I H. destruct (H1 s a s' I H) as (x & _ & H'). by exists x.
  - split; cbn; by intros.
Qed.

Lemma exact_modify_or c f : safe_crash c -> exact (modify_or c f) (f_modify f).
Proof.
  intros Hc. unfold modify_or. split; cbn.
  - intros s a s' I H. destruct (f (env s)) as [e|] eqn:E; [|done]. injection H as <- <-.
    exists tt. split_and!; [by eexists|apply prefix_nil|done|].
    unfold adv. cbn. by rewrite Z.sub_0_r, Z.add_0_r.
  - intros s [] I [e He] _. rewrite He. unfold adv. cbn. by rewrite Z.sub_0_r, Z.add_0_r.
  - intros s I. by destruct (f (env s)).
Qed.

Lemma exact_modify f : exact (modify f) (f_modify (fun e => Some (f e))).
Proof. exact (exact_modify_or Keys (fun e => Some (f e)) (or_intror eq_refl)). Qed.

Lemma exact_bind {X A Y B} (m : M Σ A) (k : A -> M Σ B) (F : format Σ X A) (G : A -> format Σ Y B) :
  exact m F -> (forall x p e, wf F x p e -> exact (k (val F x)) (G (val F x))) ->
  exact (bind m k) (f_bind F G).
Proof.
  intros Hm Hk. assert (forall s x y (e e' : Σ),
    adv (size (G (val F x)) y) e' (adv (size F x) e s) = adv (size (f_bind F G) (x, y)) e' s) as Hadv.
  { intros. unfold adv, size, f_bind. cbn. rewrite length_app. f_equal; lia. }
  unfold bind. split.
  - intros s b s' I H. destruct (m s) as [a s1| |] eqn:E; try done.
    destruct (ex_sound _ _ Hm s a s1 I E) as (x & Hwf & Hp & -> & ->).
    destruct (prefix_adv s _ (eff F x (pos s) (env s)) I Hp) as [I1 Hr].
    destruct (ex_sound _ _ (Hk _ _ _ Hwf) _ b s' I1 H) as (y & Hwf2 & [t Ht] & -> & ->).
    exists (x, y). cbn -[size]. split_and!; [done|done| |done|apply Hadv].
    exists t. rewrite Hr, Ht. by rewrite app_assoc.
  - intros s [x y] I [Hx Hy] [t Ht]. cbn -[size] in *.
    assert (enc F x `prefix_of` rest s) as Hp by (exists (enc (G (val F x)) y ++ t); by rewrite app_assoc).
    rewrite (ex_complete _ _ Hm s x I Hx Hp).
    destruct (prefix_adv s _ (eff F x (pos s) (env s)) I Hp) as [I1 Hr].
    change (Z.of_nat (length (enc F x))) with (size F x) in I1, Hr.
    rewrite (ex_complete _ _ (Hk _ _ _ Hx) _ y I1).
    + f_equal. apply Hadv.
    + exact Hy.
    + exists t. rewrite <- app_assoc in Ht. rewrite Hr in Ht. by apply app_inv_head in Ht.
  - intros s I. destruct (m s) as [a s1|rc s1|c] eqn:E.
    + destruct (ex_sound _ _ Hm s a s1 I E) as (x & Hwf & Hp & -> & ->).
      destruct (prefix_adv s _ (eff F x (pos s) (env s)) I Hp) as [I1 Hr]. by apply (ex_safe _ _ (Hk _ _ _ Hwf)).
    + pose proof (ex_safe _ _ Hm s I) as H. by rewrite E in H.
    + pose proof (ex_safe _ _ Hm s I) as H. by rewrite E in H.
Qed.

Lemma exact_inspect {X A B} (f : Σ -> A) (k : A -> M Σ B) en v (G : A -> format Σ X B) :
  (forall a, exact (k a) (G a)) -> (forall a, enc (G a) = en) -> (forall a, val (G a) = v) ->
  exact (bind (inspect f) k) (f_inspect f en v G).
Proof.
  intros Hk He Hv. unfold bind, inspect. split; cbn.
  - intros s a s' I H. destruct (ex_sound _ _ (Hk _) s a s' I H) as (x & H1 & H2 & H3 & H4).
    unfold size in H4. rewrite He in H2, H4. rewrite Hv in H3. by exists x.
  - intros s x I Hw Hp. rewrite <- (He (f (env s))) in Hp.
    rewrite (ex_complete _ _ (Hk _) s x I Hw Hp). unfold size. by rewrite He, Hv.
  - intros s I. apply (ex_safe _ _ (Hk _) s I).
Qed.

Lemma exact_must {X} (m : M Σ unit) (F : format Σ X unit) : exact m F -> exact (must m) F.
Proof.
  intros Hm. unfold must. split.
  - intros s a s' I H. destruct (m s) as [b s1|rc s1|] eqn:E; [|destruct (Z.eqb_spec rc EASY_OK)|done].
    + injection H as <- <-. by apply (ex_sound _ _ Hm).
    + pose proof (ex_safe _ _ Hm s I) as Hs. by rewrite E in Hs.
    + done.
  - intros s x I Hw Hp. by rewrite (ex_complete _ _ Hm s x I Hw Hp).
  - intros s I. pose proof (ex_safe _ _ Hm s I) as Hs. destruct (m s) as [|rc s1|]; try done.
    by destruct (Z.eqb_spec rc EASY_OK).
Qed.

Lemma exact_ext {X A} (m m' : M Σ A) (F : format Σ X A) : (forall s, m s = m' s) -> exact m F -> exact m' F.
Proof.
  intros E [H1 H2 H3]. split.
  - intros s a s'. rewrite <- E. apply H1.
  - intros s x. rewrite <- E. apply H2.
  - intros s. rewrite <- E. apply H3.
Qed.

(** Another description of the same set of values. *)
Lemma exact_conv {X Y A} (m : M Σ A) (F : format Σ X A) (G : format Σ Y A) :
  exact m F ->
  (forall x p e, wf F x p e -> exists y, wf G y p e /\ enc G y = enc F x /\ eff G y p e = eff F x p e /\ val G y = val F x) ->
  (forall y p e, wf G y p e -> exists x, wf F x p e /\ enc G y = enc F x /\ eff G y p e = eff F x p e /\ val G y = val F x) ->
  exact m G.
Proof.
  intros Hm H1 H2. unfold size. split.
  - intros s a s' I H. destruct (ex_sound _ _ Hm s a s' I H) as (x & Hw & Hp & -> & ->).
    destruct (H1 x _ _ Hw) as (y & Hy & E1 & E2 & E3). exists y. unfold size. by rewrite E1, E2, E3.
  - intros s y I Hw Hp. destruct (H2 y _ _ Hw) as (x & Hx & E1 & E2 & E3).
    unfold size. rewrite E1, E2, E3. rewrite E1 in Hp. by apply (ex_complete _ _ Hm).
  - apply Hm.
Qed.

(** *** The macros *)

Lemma lookup_rest s l i b : inv s -> l `prefix_of` rest s -> l !! i = Some b ->
  data !! (Z.to_nat (pos s) + i)%nat = Some b.
Proof.
  intros I Hp Hi. pose proof (prefix_lookup_Some _ _ _ _ Hi Hp) as Hr.
  unfold rest in Hr. rewrite <- lookup_drop. by apply lookup_take_Some in Hr as [Hr _].
Qed.

(** The shape the two fixed-size readers share. *)
Lemma exact_fixed (n : nat) (f : list Z -> Z -> option Z) (F : format Σ Z Z) :
  0 < Z.of_nat n < 256 ->
  (forall x, 0 <= x < 2 ^ (8 * Z.of_nat n) -> length (enc F x) = n) ->
  (forall s l, inv s -> l `prefix_of` rest s -> length l = n -> bytes_ok l ->
     exists x, f data (pos s) = Some x /\ 0 <= x < 2 ^ (8 * Z.of_nat n) /\ enc F x = l) ->
  (forall s x, inv s -> 0 <= x < 2 ^ (8 * Z.of_nat n) -> enc F x `prefix_of` rest s -> f data (pos s) = Some x) ->
  (forall x p e, wf F x p e <-> 0 <= x < 2 ^ (8 * Z.of_nat n)) ->
  (forall x p e, eff F x p e = e) -> (forall x, val F x = x) ->
  exact (enough (Z.of_nat n) ;; v <- load data f ;; done_ (Z.of_nat n) ;; ret v) F.
Proof.
  intros Hn Hlen Hload Hback Hwf Heff Hval.
  assert (forall s x, inv s -> Z.of_nat n <= read_len s -> f data (pos s) = Some x ->
    (enough (Z.of_nat n) ;; v <- load data f ;; done_ (Z.of_nat n) ;; ret v) s = Next x (adv (Z.of_nat n) (env s) s)) as Hrun.
  { intros s x I Hl E. unfold bind, enough, load, done_, ret.
    destruct (Z.ltb_spec (read_len s) (Z.of_nat n)); [lia|]. rewrite E. unfold adv.
    destruct I as (? & ? & ?). rewrite wrapu_small by lia. done. }
  assert (forall s, inv s -> exists v, (enough (Z.of_nat n) ;; v <- load data f ;; done_ (Z.of_nat n) ;; ret v) s = v /\
    (v = Return EASY_ERROR s /\ read_len s < Z.of_nat n \/
     exists x, v = Next x (adv (Z.of_nat n) (env s) s) /\ 0 <= x < 2 ^ (8 * Z.of_nat n) /\ enc F x `prefix_of` rest s)) as Hall.
  { intros s I. eexists. split; [reflexivity|]. destruct (Z.lt_ge_cases (read_len s) (Z.of_nat n)) as [Hlt|Hge].
    - left. split; [|done]. unfold bind, enough. by destruct (Z.ltb_spec (read_len s) (Z.of_nat n)); [|lia].
    - right. destruct (rest_split s n I Hge) as (l & Hp & Hl & Hb).
      destruct (Hload s l I Hp Hl Hb) as (x & E & Hx & <-). exists x. split_and!; try lia; [|done].
      by apply Hrun. }
  split.
  - intros s a s' I H. destruct (Hall s I) as (v & E & [[-> _]|(x & -> & Hx & Hp)]); rewrite E in H; [done|].
    injection H as <- <-. exists x. rewrite Hwf, Heff, Hval. unfold size. rewrite Hlen by done. done.
  - intros s x I Hw Hp. apply Hwf in Hw. rewrite Heff, Hval. unfold size. rewrite Hlen by done.
    apply Hrun; [done| |by apply Hback].
    apply prefix_length in Hp. rewrite Hlen in Hp by done. pose proof (rest_length s I). lia.
  - intros s I. destruct (Hall s I) as (v & -> & [[-> _]|(x & -> & _)]); done.
Qed.

Lemma exact_uint8 : exact (read_uint8 data) f_uint8.
Proof.
  assert (forall s b, inv s -> [b] `prefix_of` rest s -> load8 data (pos s) = Some b) as Hl.
  { intros s b I Hp. unfold load8. pose proof (lookup_rest s [b] 0 b I Hp eq_refl) as H.
    rewrite Nat.add_0_r in H. destruct (Z.ltb_spec (pos s) 0); [destruct I; lia|done]. }
  apply (exact_fixed 1); try done.
  - intros s l I Hp Hlen Hb. destruct l as [|b [|]]; try discriminate. exists b.
    apply list.Forall_cons in Hb as [Hb _]. change (2 ^ (8 * Z.of_nat 1)) with 256.
    split_and!; [by apply Hl|apply Hb|apply Hb|done].
  - intros s x I _ Hp. by apply Hl.
Qed.

Lemma exact_uint32 : exact (read_uint32 data) f_uint32.
Proof.
  assert (forall s l, inv s -> l `prefix_of` rest s -> length l = 4%nat -> load32 data (pos s) = Some (be_val l)) as Hl.
  { intros s l I Hp Hlen. unfold load32. rewrite (gets_rest s 4 l I Hp Hlen).
    destruct (Z.ltb_spec (pos s) 0); [destruct I; lia|done]. }
  apply (exact_fixed 4); try done.
  - intros s l I Hp Hlen Hb. exists (be_val l). destruct (htonl_be_val l Hb Hlen) as [E Hr].
    change (2 ^ (8 * Z.of_nat 4)) with (2 ^ 32). split_and!; [by apply Hl|lia|lia|done].
  - intros s x I Hx Hp. rewrite (Hl s _ I Hp) by done. f_equal. by apply be_val_htonl.
Qed.

(** An object of the environment a string is read into. *)
Class Lens (upd : (tdhs_string_t -> tdhs_string_t) -> Σ -> option Σ) : Prop := {
  upd_some : forall f g e, is_Some (upd f e) -> is_Some (upd g e);
  upd_upd : forall f g e e', upd f e = Some e' -> upd g e' = upd (fun x => g (f x)) e }.

Definition f_chars (upd : (tdhs_string_t -> tdhs_string_t) -> Σ -> option Σ) (n : Z)
    : format Σ (list Z) unit :=
  Format (fun s => s)
    (fun s _ e => Z.of_nat (length s) = n /\ str_ok s /\ is_Some (upd (fun x => x) e))
    (fun s p e => default e (upd (set_str (if n =? 0 then NULL_STRING else At p)) e)) (fun _ => tt).

Lemma str_ok_last s d : str_ok s -> s <> [] -> list.last s = Some d -> d = 0.
Proof. intros (_ & _ & [->|[s' ->]]) Hne H; [done|]. rewrite last_snoc in H. congruence. Qed.

(** Everything after the length. *)
Definition chars upd (n : Z) : M Σ unit :=
  p <- read_str n ;; modify_or KeyFields (upd (set_str p)) ;; read_str_done data n.

Lemma chars_run upd n s l e : 0 <= n < 2 ^ 32 -> inv s -> l `prefix_of` rest s -> Z.of_nat (length l) = n ->
  upd (set_str (if n =? 0 then NULL_STRING else At (pos s))) (env s) = Some e ->
  chars upd n s =
  if decide (l = [] \/ list.last l = Some 0) then Next tt (adv n e s) else Return EASY_ERROR (adv n e s).
Proof.
  intros Hn I Hp Hl E. unfold chars, bind, read_str, enough, modify_or, read_str_done, done_.
  pose proof (prefix_length _ _ Hp) as Hle. pose proof (rest_length s I) as Hr.
  unfold bind. destruct (Z.ltb_spec (read_len s) n); [lia|]. rewrite E. cbn [read_len pos env].
  assert (0 <= read_len s < 2 ^ 32) by apply I.
  rewrite wrapu_small by lia. destruct (Z.eqb_spec n 0) as [->|Hn0].
  { destruct l; [|simpl in Hl; lia]. by rewrite decide_True by (by left). }
  destruct (list.last l) as [b|] eqn:Hlast; [|apply last_None in Hlast as ->; simpl in *; lia].
  cbn [pos]. assert (load8 data (pos s + n - 1) = Some b) as ->.
  { unfold load8. rewrite last_lookup in Hlast. pose proof (lookup_rest s l _ b I Hp Hlast) as Hd.
    assert (0 <= pos s) by apply I. destruct (Z.ltb_spec (pos s + n - 1) 0); [lia|].
    rewrite <- Hd. f_equal. lia. }
  unfold check. destruct (Z.eqb_spec b 0) as [->|Hb]; [by rewrite decide_True by (by right)|].
  rewrite decide_False; [done|]. intros [->|Hs]; [simpl in *; lia|congruence].
Qed.

Lemma chars_cases upd n s : 0 <= n < 2 ^ 32 -> inv s ->
  (exists s', chars upd n s = Return EASY_ERROR s') \/ chars upd n s = Crash KeyFields \/
  exists l e, l `prefix_of` rest s /\ Z.of_nat (length l) = n /\ bytes_ok l /\ (l = [] \/ list.last l = Some 0) /\
    upd (set_str (if n =? 0 then NULL_STRING else At (pos s))) (env s) = Some e /\ chars upd n s = Next tt (adv n e s).
Proof.
  intros Hn I. destruct (Z.lt_ge_cases (read_len s) n) as [Hlt|Hge].
  { left. exists s. unfold chars, bind, read_str, enough, bind. by destruct (Z.ltb_spec (read_len s) n); [|lia]. }
  destruct (rest_split s (Z.to_nat n) I ltac:(lia)) as (l & Hp & Hlen & Hb).
  destruct (upd (set_str (if n =? 0 then NULL_STRING else At (pos s))) (env s)) as [e|] eqn:E.
  - pose proof (chars_run upd n s l e Hn I Hp ltac:(lia) E) as Hr. destruct (decide _) as [Hd|].
    + right. right. exists l, e. split_and!; try done; lia.
    + left. by eexists.
  - right. left. unfold chars, bind, read_str, enough, modify_or, bind.
    destruct (Z.ltb_spec (read_len s) n); [lia|]. by rewrite E.
Qed.

Lemma exact_chars upd n : Lens upd -> 0 <= n < 2 ^ 32 -> exact (chars upd n) (f_chars upd n).
Proof.
  intros HL Hn. unfold f_chars. split; cbn [enc wf eff val size].
  - intros s a s' I H. destruct (chars_cases upd n s Hn I) as [[s1 E]|[E|(l & e & Hp & Hl & Hb & Hz & He & E)]];
      rewrite E in H; try done.
    injection H as <- <-. exists l. rewrite He. unfold size. cbn [enc default]. rewrite Hl. split_and!; try done.
    + split_and!; [done|lia|]. destruct Hz as [->|Hz]; [by left|right]. by apply last_Some in Hz.
    + eapply upd_some. by rewrite He.
  - intros s l I (Hl & Hok & Hu) Hp.
    destruct (upd_some _ (set_str (if n =? 0 then NULL_STRING else At (pos s))) _ Hu) as [e He].
    rewrite (chars_run upd n s l e Hn I Hp Hl He), He. unfold size. cbn [enc default].
    rewrite Hl, decide_True; [done|].
    destruct Hok as (_ & _ & [->|[s' ->]]); [by left|right]. apply last_snoc.
  - intros s I. destruct (chars_cases upd n s Hn I) as [[s1 E]|[E|(l & e & Hp & Hl & Hb & Hz & He & E)]];
      rewrite E; [done|by left|done].
Qed.

Lemma upd_both upd n q e e1 : Lens upd -> upd (set_len n) e = Some e1 ->
  upd (set_str q) e1 = upd (fun _ => Str q n) e.
Proof. intros HL H. exact (upd_upd _ (set_str q) _ _ H). Qed.

Lemma exact_string upd : Lens upd -> exact (read_string data upd) (f_string upd).
Proof.
  intros HL. unfold read_string.
  eapply (exact_conv _ (f_bind f_uint32 (fun n => f_bind (f_modify (upd (set_len n))) (fun _ => f_chars upd n)))).
  - apply exact_bind; [apply exact_uint32|]. intros n p e Hn.
    apply exact_bind; [by apply exact_modify_or; left|]. intros _ _ _ _. by apply exact_chars.
  - intros [n [[] s]] p e (Hn & [e1 He1] & Hl & Hs & Hu). cbn in Hl, He1. subst n. exists s. split_and!.
    + split; [done|]. eapply upd_some. by rewrite He1.
    + done.
    + cbn [eff f_bind f_modify f_uint32 f_chars f_string val fst snd size enc app]. cbn [app length].
      rewrite He1. cbn [default].
      rewrite (upd_both _ _ _ _ _ HL He1). unfold size. cbn. rewrite Z.add_0_r. change (Z.of_nat 4) with 4.
      change (Str (if Z.of_nat (length s) =? 0 then NULL_STRING else At (p + 4)) (Z.of_nat (length s)))
        with (str_at (p + 4) s).
      destruct (upd_some _ (fun _ => str_at (p + 4) s) e (mk_is_Some _ _ He1)) as [e2 He2].
      rewrite He2. done.
    + done.
  - intros s p e (Hs & Hu). destruct (upd_some _ (set_len (Z.of_nat (length s))) _ Hu) as [e1 He1].
    exists (Z.of_nat (length s), (tt, s)). split_and!.
    + cbn [wf f_bind f_modify f_uint32 f_chars val fst snd eff]. rewrite He1. cbn [default].
      split_and!; [lia|apply Hs|done|done|done|]. rewrite (upd_upd _ _ _ _ He1). by eapply upd_some.
    + done.
    + cbn [eff f_bind f_modify f_uint32 f_chars f_string val fst snd].
      rewrite He1. cbn [default]. rewrite (upd_both _ _ _ _ _ HL He1). unfold size. cbn. rewrite Z.add_0_r. change (Z.of_nat 4) with 4.
      change (Str (if Z.of_nat (length s) =? 0 then NULL_STRING else At (p + 4)) (Z.of_nat (length s)))
        with (str_at (p + 4) s).
      destruct (upd_some _ (fun _ => str_at (p + 4) s) _ Hu) as [e2 He2]. by rewrite He2.
    + done.
Qed.

(** *** Loops *)

Lemma loop_run {X} (F : Z -> format Σ X unit) en (body : Z -> M Σ unit) n :
  (forall i, exact (body i) (F i)) -> (forall i, enc (F i) = en) -> (forall x, en x <> []) ->
  forall fuel i s, inv s -> (Z.to_nat (read_len s) < fuel)%nat ->
  match loop fuel body i n s with
  | Next _ s' => exists xs, loop_wf F en i n xs (pos s) (env s) /\ concat (map en xs) `prefix_of` rest s /\
      s' = adv (Z.of_nat (length (concat (map en xs)))) (loop_eff F en i xs (pos s) (env s)) s
  | Return rc _ => rc <> EASY_OK
  | Crash c => safe_crash c
  end.
Proof.
  intros Hb Hen Hne. induction fuel as [|fuel IH]; intros i s I Hf; [lia|]. cbn [loop].
  destruct (Z.ltb_spec i n).
  2: { exists []. cbn. split_and!; [lia|apply prefix_nil|]. unfold adv.
       rewrite Z.sub_0_r, Z.add_0_r. by destruct s. }
  unfold bind. destruct (body i s) as [[] s1|rc s1|c] eqn:E;
    [|pose proof (ex_safe _ _ (Hb i) s I) as Hs; by rewrite E in Hs..].
  destruct (ex_sound _ _ (Hb i) s tt s1 I E) as (x & Hw & Hp & _ & ->).
  unfold size. rewrite Hen in *.
  destruct (prefix_adv s (en x) (eff (F i) x (pos s) (env s)) I Hp) as [I1 Hr].
  specialize (Hne x).
  assert (0 < length (en x))%nat by (destruct (en x); [done|simpl; lia]).
  pose proof (rest_length s I) as Hrl. apply prefix_length in Hp.
  specialize (IH (i + 1) _ I1 ltac:(cbn [read_len adv]; lia)).
  destruct (loop fuel body (i + 1) n _) as [[] s2|rc s2|c]; [|done..].
  destruct IH as (xs & Hw2 & [t Ht] & ->). exists (x :: xs). cbn [map concat loop_wf loop_eff]. split_and!; try done.
  - exists t. by rewrite Hr, Ht, app_assoc.
  - unfold adv. cbn [read_len pos env]. rewrite length_app. f_equal; lia.
Qed.

Lemma loop_complete {X} (F : Z -> format Σ X unit) en (body : Z -> M Σ unit) n :
  (forall i, exact (body i) (F i)) -> (forall i, enc (F i) = en) -> (forall x, en x <> []) ->
  forall fuel i s xs, inv s -> (Z.to_nat (read_len s) < fuel)%nat ->
  loop_wf F en i n xs (pos s) (env s) -> concat (map en xs) `prefix_of` rest s ->
  loop fuel body i n s = Next tt (adv (Z.of_nat (length (concat (map en xs)))) (loop_eff F en i xs (pos s) (env s)) s).
Proof.
  intros Hb Hen Hne. induction fuel as [|fuel IH]; intros i s xs I Hf Hw Hp; [lia|]. cbn [loop].
  destruct xs as [|x xs]; cbn [map concat loop_wf loop_eff] in *.
  { destruct (Z.ltb_spec i n); [lia|]. unfold adv. cbn. rewrite Z.sub_0_r, Z.add_0_r. by destruct s. }
  destruct Hw as (Hi & Hx & Hw). destruct (Z.ltb_spec i n); [|lia]. unfold bind.
  destruct Hp as [t Ht]. rewrite <- app_assoc in Ht.
  assert (en x `prefix_of` rest s) as Hp by (by eexists).
  rewrite (ex_complete _ _ (Hb i) s x I Hx) by (by rewrite Hen). unfold size. rewrite Hen.
  destruct (prefix_adv s (en x) (eff (F i) x (pos s) (env s)) I Hp) as [I1 Hr].
  specialize (Hne x). assert (0 < length (en x))%nat by (destruct (en x); [done|simpl; lia]).
  pose proof (rest_length s I) as Hrl. apply prefix_length in Hp.
  rewrite (IH (i + 1) _ xs I1); [|cbn [read_len adv]; lia|done|].
  - f_equal. unfold adv. cbn [read_len pos env]. rewrite length_app. f_equal; lia.
  - exists t. rewrite Hr in Ht. by apply app_inv_head in Ht.
Qed.

Lemma exact_loop {X} (F : Z -> format Σ X unit) en (body : Z -> M Σ unit) n :
  (forall i, exact (body i) (F i)) -> (forall i, enc (F i) = en) -> (forall x, en x <> []) ->
  exact (for_loop body n) (f_loop F en 0 n).
Proof.
  intros Hb Hen Hne. unfold for_loop. split.
  - intros s [] s' I H. pose proof (loop_run F en body n Hb Hen Hne (S (Z.to_nat (read_len s))) 0 s I ltac:(lia)) as Hr.
    rewrite H in Hr. destruct Hr as (xs & Hw & Hp & ->). by exists xs.
  - intros s xs I Hw Hp. by apply (loop_complete F en body n Hb Hen Hne); try lia.
  - intros s I. pose proof (loop_run F en body n Hb Hen Hne (S (Z.to_nat (read_len s))) 0 s I ltac:(lia)) as Hr.
    by destruct (loop _ _ _ _ s).
Qed.

End exact.
End TdhsRead.
