(* ===== verification/TdhsProtocol.v ===== *)
(** * libtdhs/tdh_socket_protocol.cpp: the framing of packets

    A packet is a header of five big-endian words and its data; the data of a
    batch request are packets again.  The message is the bytes received so far;
    a read outside them, or a write outside the packets allocated, is [None]. *)

From Stdlib Require Import ZArith Lia.
From stdpp Require Import base list numbers option.
From S2P Require Import Prelude CString EasyPool TdhsDefine TdhsRead.

Local Open Scope Z_scope.

Module TdhsProtocol.
Import TdhsDefine TdhsRead.

Definition TDHS_MAGIC_CODE : Z := 0xFFFFFFFF.
Definition TDH_SOCKET_HEADER_LENGTH : Z := 20.

(** [next] is the index of a packet in the same allocation; [wbuff] the bytes of
    the buffer to be sent. *)
Record tdhs_packet_t := Packet {
  command_id_or_response_code : Z; seq_id : Z; reserved : Z; length : Z; rdata : Z;
  wbuff : option (list Z); req : tdhs_request_t; start_time : Z; next : option nat }.

Definition zero_packet : tdhs_packet_t := Packet 0 0 0 0 0 None zero_request 0 None.
Definition set_next v p := Packet (command_id_or_response_code p) (seq_id p) (reserved p) (length p) (rdata p)
  (wbuff p) (req p) (start_time p) v.

(** The message: what was received, the read position, and the pool. *)
Record easy_message_t (S : Type) := Message {
  input : list Z; input_pos : Z; status : Z; next_read_len : Z; pool : S }.
Arguments Message {_}.
Arguments input {_}.
Arguments input_pos {_}.
Arguments status {_}.
Arguments next_read_len {_}.
Arguments pool {_}.

Definition set_status {S} v (m : easy_message_t S) := Message (input m) (input_pos m) v (next_read_len m) (pool m).
Definition set_input_pos {S} v (m : easy_message_t S) := Message (input m) v (status m) (next_read_len m) (pool m).
Definition set_next_read_len {S} v (m : easy_message_t S) := Message (input m) (input_pos m) (status m) v (pool m).
Definition set_pool {S} (v : S) (m : easy_message_t S) := Message (input m) (input_pos m) (status m) (next_read_len m) v.

(** ** Headers *)

Definition GET_HEADER_INFO (data : list Z) (pos : Z) : option (Z * Z * Z * Z) :=
  com ← load32 data (pos + 4);
  seq ← load32 data (pos + 8);
  rev ← load32 data (pos + 12);
  len ← load32 data (pos + 16);
  Some (com, seq, rev, len).

Definition header_bytes (com seq rev len : Z) : list Z :=
  htonl_bytes TDHS_MAGIC_CODE ++ htonl_bytes com ++ htonl_bytes seq ++ htonl_bytes rev ++ htonl_bytes len.

Definition WRITE_PACKET_HEADER_INFO (p : tdhs_packet_t) (b : list Z) : option (list Z) :=
  puts b 0 (header_bytes (command_id_or_response_code p) (seq_id p) (reserved p) (length p)).

(** ** Decoding *)

(** Writing element [i] of the packets. *)
Definition put_packet (ps : list tdhs_packet_t) (i : nat) (p : tdhs_packet_t) : option (list tdhs_packet_t) :=
  if decide (i < List.length ps)%nat then Some (<[i := p]> ps) else None.

(** The packets of a batch: [inl] is the error return. *)
Fixpoint batch_loop (fuel : nat) (data : list Z) (now : Z) (i n : Z) (pos left_length : Z) (ps : list tdhs_packet_t)
    : option (unit + list tdhs_packet_t) :=
  if negb (i <? n) then Some (inr ps)
  else match fuel with
  | O => None
  | S fuel =>
      if left_length <? TDH_SOCKET_HEADER_LENGTH then Some (inl tt)
      else
        h ← GET_HEADER_INFO data pos;
        let '(com, seq, _, datalen) := h in
        let pos := pos + TDH_SOCKET_HEADER_LENGTH in
        let left_length := u32 (left_length - TDH_SOCKET_HEADER_LENGTH) in
        if left_length <? datalen then Some (inl tt)
        else
          let k := Z.to_nat (1 + i) in
          ps ← put_packet ps k (Packet com seq 0 datalen pos None zero_request now None);
          prev ← ps !! (k - 1)%nat;
          ps ← put_packet ps (k - 1) (set_next (Some k) prev);
          batch_loop fuel data now (i + 1) n (pos + datalen) (u32 (left_length - datalen)) ps
  end.

Section decode.
Context {S : Type} `{EasyPool.PoolOps S}.

(** [now] is the time of day; the result is NULL or the packets allocated. *)
Definition tdhs_decode (now : Z) (m : easy_message_t S) : option (option (list tdhs_packet_t) * easy_message_t S) :=
  let data := input m in
  let pos := input_pos m in
  let len := u32 (Z.of_nat (List.length data) - pos) in
  if len <? TDH_SOCKET_HEADER_LENGTH then Some (None, m)
  else
    magic_code ← load32 data pos;
    if negb (magic_code =? TDHS_MAGIC_CODE) then Some (None, set_status EASY_ERROR m)
    else
      h ← GET_HEADER_INFO data pos;
      let '(com_or_resp, seq, reverse, datalen) := h in
      let batch_request_num := if com_or_resp =? REQUEST_TYPE_BATCH then reverse else 0 in
      if 0x4000000 <? datalen then Some (None, set_status EASY_ERROR m)
      else
        let len := u32 (len - TDH_SOCKET_HEADER_LENGTH) in
        if len <? datalen then Some (None, set_next_read_len (u32 (datalen - len)) m)
        else
          let size := u32 (sizeof_tdhs_packet_t * u32 (1 + batch_request_num)) in
          match EasyPool.p_alloc (pool m) size with
          | (None, s) => Some (None, set_status EASY_ERROR (set_pool s m))
          | (Some _, s) =>
              let ps := replicate (Z.to_nat (size / sizeof_tdhs_packet_t)) zero_packet in
              let rdata := pos + TDH_SOCKET_HEADER_LENGTH in
              ps ← put_packet ps 0 (Packet com_or_resp seq reverse datalen rdata None zero_request now None);
              let m := set_input_pos rdata (set_pool s m) in
              r ← batch_loop (Datatypes.S (Z.to_nat datalen)) data now 0 batch_request_num rdata datalen ps;
              Some match r with
                   | inl _ => (None, set_status EASY_ERROR m)
                   | inr ps => (Some ps, set_input_pos (rdata + datalen) m)
                   end
          end.
End decode.

(** ** Encoding *)

(** The buffers handed to the request, in order; the packets are a chain. *)
Fixpoint tdhs_encode (ps : list tdhs_packet_t) : option (list (list Z)) :=
  match ps with
  | [] => Some []
  | p :: ps =>
      b ← wbuff p;
      b ← WRITE_PACKET_HEADER_INFO p b;
      bs ← tdhs_encode ps;
      Some (b :: bs)
  end.

(** ** Frames

    A packet on the wire.  The first word of a header is the magic code; inside
    a batch it is not looked at. *)
Record frame := Frame { f_magic : Z; f_com : Z; f_seq : Z; f_rev : Z; f_body : list Z }.

Definition frame_bytes (f : frame) : list Z :=
  htonl_bytes (f_magic f) ++ htonl_bytes (f_com f) ++ htonl_bytes (f_seq f) ++ htonl_bytes (f_rev f) ++
  htonl_bytes (count (f_body f)) ++ f_body f.
Definition word (n : Z) : Prop := 0 <= n < 2 ^ 32.
Definition frame_ok (f : frame) : Prop :=
  word (f_magic f) /\ word (f_com f) /\ word (f_seq f) /\ word (f_rev f) /\ word (count (f_body f)).

(** The packet of a frame whose body is at [rdata]; inside a batch the reserved
    word is dropped. *)
Definition outer_packet (now : Z) (rdata : Z) (f : frame) : tdhs_packet_t :=
  Packet (f_com f) (f_seq f) (f_rev f) (count (f_body f)) rdata None zero_request now None.
Definition inner_packet (now : Z) (rdata : Z) (f : frame) : tdhs_packet_t :=
  Packet (f_com f) (f_seq f) 0 (count (f_body f)) rdata None zero_request now None.

(** A packet followed by those of the frames at [pos], linked; [k] is the index
    of the first of them. *)
Fixpoint chain (now pos : Z) (k : nat) (p : tdhs_packet_t) (fs : list frame) : list tdhs_packet_t :=
  match fs with
  | [] => [p]
  | f :: fs =>
      set_next (Some k) p ::
      chain now (pos + count (frame_bytes f)) (Datatypes.S k) (inner_packet now (pos + TDH_SOCKET_HEADER_LENGTH) f) fs
  end.

Lemma count_htonl n : count (htonl_bytes n) = 4.
Proof. done. Qed.

Lemma frame_count f : count (frame_bytes f) = TDH_SOCKET_HEADER_LENGTH + count (f_body f).
Proof. unfold frame_bytes, TDH_SOCKET_HEADER_LENGTH. rewrite !count_app, !count_htonl. lia. Qed.

Lemma load32_placed data o n : placed data o (htonl_bytes n) -> word n -> load32 data o = Some n.
Proof.
  intros Hp Hn. unfold load32. destruct (Z.ltb_spec o 0); [destruct Hp; lia|].
  rewrite (placed_gets data o _ 4 Hp eq_refl) by lia. cbn [mbind option_bind]. by rewrite be_val_htonl.
Qed.

Lemma load32_some data o : bytes_ok data -> 0 <= o -> o + 4 <= count data ->
  exists n, load32 data o = Some n /\ word n /\ placed data o (htonl_bytes n).
Proof.
  intros Hb Ho Hl. set (l := take 4 (drop (Z.to_nat o) data)).
  assert (List.length l = 4)%nat as Hlen by (unfold l, count in *; rewrite length_take, length_drop; lia).
  destruct (htonl_be_val l) as [E Hw]; [by apply Forall_take, Forall_drop|done|]. exists (be_val l).
  assert (placed data o (htonl_bytes (be_val l))) as Hp by (rewrite E; split; [done|apply prefix_take]).
  split; [by apply load32_placed|by split].
Qed.

(** The offsets of the words of a header. *)
Ltac words pos :=
  replace (pos + 4 + 4) with (pos + 8) in * by lia; replace (pos + 8 + 4) with (pos + 12) in * by lia;
  replace (pos + 12 + 4) with (pos + 16) in * by lia; replace (pos + 16 + 4) with (pos + 20) in * by lia.

(** A header with enough bytes behind it is that of one frame. *)
Lemma header_of_frame data pos f : placed data pos (frame_bytes f) -> frame_ok f ->
  load32 data pos = Some (f_magic f) /\
  GET_HEADER_INFO data pos = Some (f_com f, f_seq f, f_rev f, count (f_body f)) /\
  placed data (pos + TDH_SOCKET_HEADER_LENGTH) (f_body f).
Proof.
  intros Hp (H0 & H1 & H2 & H3 & H4). unfold frame_bytes in Hp. rewrite !placed_app in Hp.
  destruct Hp as (P0 & P1 & P2 & P3 & P4 & P5).
  rewrite ?count_htonl in *. words pos.
  unfold GET_HEADER_INFO. split; [by apply load32_placed|]. split; [|exact P5].
  rewrite (load32_placed _ _ _ P1 H1). cbn [mbind option_bind]. rewrite (load32_placed _ _ _ P2 H2).
  cbn [mbind option_bind]. rewrite (load32_placed _ _ _ P3 H3). cbn [mbind option_bind].
  by rewrite (load32_placed _ _ _ P4 H4).
Qed.

Lemma frame_at data pos : bytes_ok data -> 0 <= pos -> pos + TDH_SOCKET_HEADER_LENGTH <= count data ->
  exists magic com seq rev len, load32 data pos = Some magic /\ GET_HEADER_INFO data pos = Some (com, seq, rev, len) /\
    word magic /\ word com /\ word seq /\ word rev /\ word len /\
    (pos + TDH_SOCKET_HEADER_LENGTH + len <= count data -> exists body,
       let f := Frame magic com seq rev body in placed data pos (frame_bytes f) /\ frame_ok f /\ count body = len).
Proof.
  intros Hb Hp Hl. unfold TDH_SOCKET_HEADER_LENGTH in *.
  destruct (load32_some data pos Hb) as (magic & E0 & W0 & P0); [lia..|].
  destruct (load32_some data (pos + 4) Hb) as (com & E1 & W1 & P1); [lia..|].
  destruct (load32_some data (pos + 8) Hb) as (seq & E2 & W2 & P2); [lia..|].
  destruct (load32_some data (pos + 12) Hb) as (rev & E3 & W3 & P3); [lia..|].
  destruct (load32_some data (pos + 16) Hb) as (len & E4 & W4 & P4); [lia..|].
  exists magic, com, seq, rev, len. unfold GET_HEADER_INFO. rewrite E1, E2, E3, E4. cbn [mbind option_bind].
  split; [done|]. split; [done|]. split_and!; try apply W0; try apply W1; try apply W2; try apply W3; try apply W4.
  intros Hlen. set (body := take (Z.to_nat len) (drop (Z.to_nat (pos + 20)) data)). exists body.
  assert (count body = len) as Hc.
  { unfold body, count in *. rewrite length_take, length_drop. destruct W4. lia. }
  cbn [f_magic f_com f_seq f_rev f_body]. split; [|split; [unfold frame_ok; cbn; by rewrite Hc|exact Hc]].
  unfold frame_bytes. cbn [f_magic f_com f_seq f_rev f_body]. rewrite Hc, !placed_app.
  rewrite !count_htonl. words pos.
  split_and!; try done. split; [lia|apply prefix_take].
Qed.

(** ** The loop over the packets of a batch *)

Lemma put_packet_ok pre q ps p : put_packet (pre ++ q :: ps) (List.length pre) p = Some (pre ++ p :: ps).
Proof.
  unfold put_packet. rewrite decide_True by (rewrite length_app; simpl; lia). f_equal.
  rewrite insert_app_r_alt by lia. by rewrite Nat.sub_diag.
Qed.

(** One round: the packet after [p] is filled in and linked. *)
Lemma batch_round data now fuel i n pos left pre p c f : bytes_ok data -> frame_ok f ->
  placed data pos (frame_bytes f) -> count (frame_bytes f) <= left < 2 ^ 32 -> i < n -> i = count pre ->
  batch_loop (Datatypes.S fuel) data now i n pos left (pre ++ p :: replicate c zero_packet) =
  match c with
  | O => None
  | Datatypes.S c =>
      batch_loop fuel data now (i + 1) n (pos + count (frame_bytes f)) (left - count (frame_bytes f))
        ((pre ++ [set_next (Some (Datatypes.S (List.length pre))) p]) ++
         inner_packet now (pos + TDH_SOCKET_HEADER_LENGTH) f :: replicate c zero_packet)
  end.
Proof.
  intros Hb Hf Hp Hl Hi Hpre. rewrite frame_count in *. destruct (header_of_frame data pos f Hp Hf) as (_ & Hh & _).
  pose proof (Z.ltb_lt i n) as Hin. cbn [batch_loop]. destruct (Z.ltb_spec i n); [|lia]. cbn [negb].
  unfold TDH_SOCKET_HEADER_LENGTH in *. assert (0 <= count (f_body f)) by (unfold count; lia).
  destruct (Z.ltb_spec left 20); [lia|]. rewrite Hh. cbn [mbind option_bind].
  rewrite (wrapu_small 32 (left - 20)) by lia. destruct (Z.ltb_spec (left - 20) (count (f_body f))); [lia|].
  rewrite wrapu_small by lia.
  assert (Z.to_nat (1 + i) = Datatypes.S (List.length pre)) as -> by (unfold count in Hpre; lia).
  destruct c as [|c].
  { unfold put_packet. rewrite decide_False; [done|]. rewrite length_app. simpl. lia. }
  cbn [replicate]. change (pre ++ p :: zero_packet :: ?l) with (pre ++ [p] ++ zero_packet :: l).
  rewrite (app_assoc pre [p]).
  replace (Datatypes.S (List.length pre)) with (List.length (pre ++ [p])) at 1 by (rewrite length_app; simpl; lia).
  rewrite put_packet_ok. cbn [mbind option_bind]. rewrite <- app_assoc. cbn [app].
  rewrite Nat.sub_1_r. cbn [Nat.pred]. rewrite list_lookup_middle by done. cbn [mbind option_bind].
  rewrite put_packet_ok. cbn [mbind option_bind]. rewrite <- app_assoc. cbn [app].
  by rewrite Z.add_assoc, Z.sub_add_distr.
Qed.

Lemma batch_loop_frames data now fs : bytes_ok data -> forall fuel i n pos left pre p c,
  Forall frame_ok fs -> placed data pos (concat (map frame_bytes fs)) ->
  count (concat (map frame_bytes fs)) <= left < 2 ^ 32 -> n = i + count fs -> i = count pre ->
  (Z.to_nat left < fuel)%nat ->
  batch_loop fuel data now i n pos left (pre ++ p :: replicate c zero_packet) =
  if (List.length fs <=? c)%nat
  then Some (inr (pre ++ chain now pos (Datatypes.S (List.length pre)) p fs ++ replicate (c - List.length fs) zero_packet))
  else None.
Proof.
  intros Hb. induction fs as [|f fs IH]; intros fuel i n pos left pre p c Hok Hp Hl Hn Hi Hf.
  { destruct fuel as [|fuel]; [lia|]. cbn [batch_loop chain List.length]. destruct (Z.ltb_spec i n); [unfold count in Hn at 1; cbn [List.length] in Hn; lia|].
    cbn [negb]. change (0 <=? c)%nat with true. by rewrite Nat.sub_0_r. }
  apply list.Forall_cons in Hok as [Hf0 Hok]. cbn [map concat] in Hp, Hl. apply placed_app in Hp as [Hp1 Hp2].
  rewrite count_app in Hl. assert (0 <= count (concat (map frame_bytes fs))) by (unfold count; lia).
  pose proof (frame_count f) as Hfc. unfold TDH_SOCKET_HEADER_LENGTH in Hfc.
  assert (0 <= count (f_body f)) by (unfold count; lia).
  destruct fuel as [|fuel]; [lia|]. unfold count in Hn at 1. cbn [List.length] in Hn.
  rewrite (batch_round data now fuel i n pos left pre p c f) by (done || lia).
  destruct c as [|c]; [done|]. rewrite IH; [|done|done|lia|unfold count; lia| |lia].
  2: { unfold count in *. rewrite length_app. cbn [List.length]. lia. }
  cbn [List.length Nat.leb]. destruct (List.length fs <=? c)%nat; [|done].
  rewrite length_app. cbn [List.length chain Nat.sub]. rewrite <- !app_assoc. cbn [app].
  by rewrite Nat.add_1_r.
Qed.

Lemma batch_loop_total data now : bytes_ok data -> forall fuel i n pos left pre p c,
  0 <= pos -> pos + left <= count data -> 0 <= left < 2 ^ 32 -> i = count pre -> n <= i + Z.of_nat c ->
  (Z.to_nat left < fuel)%nat -> exists r,
  batch_loop fuel data now i n pos left (pre ++ p :: replicate c zero_packet) = Some r /\
  forall ps, r = inr ps -> exists fs, Forall frame_ok fs /\ placed data pos (concat (map frame_bytes fs)) /\
    count (concat (map frame_bytes fs)) <= left /\ count fs = Z.max 0 (n - i).
Proof.
  intros Hb. induction fuel as [|fuel IH]; intros i n pos left pre p c Hp Hd Hl Hi Hn Hf; [lia|].
  destruct (Z.lt_ge_cases i n) as [Hlt|Hge].
  2: { exists (inr (pre ++ p :: replicate c zero_packet)). split.
       - cbn [batch_loop]. by destruct (Z.ltb_spec i n); [lia|].
       - intros ps _. exists []. split; [by apply list.Forall_nil|]. split; [split; [done|apply prefix_nil]|]. unfold count. cbn. lia. }
  destruct (Z.lt_ge_cases left TDH_SOCKET_HEADER_LENGTH) as [Hs|Hs].
  { exists (inl tt). split; [|done]. cbn [batch_loop]. destruct (Z.ltb_spec i n); [|lia]. cbn [negb].
    by destruct (Z.ltb_spec left TDH_SOCKET_HEADER_LENGTH); [|lia]. }
  destruct (frame_at data pos Hb Hp ltac:(lia)) as (magic & com & seq & rev & len & _ & Hh & Wm & Wc & Ws & Wr & Wl & Hfr).
  destruct (Z.lt_ge_cases (left - TDH_SOCKET_HEADER_LENGTH) len) as [Ht|Ht].
  { exists (inl tt). split; [|done]. cbn [batch_loop]. destruct (Z.ltb_spec i n); [|lia]. cbn [negb].
    destruct (Z.ltb_spec left TDH_SOCKET_HEADER_LENGTH); [lia|]. rewrite Hh. cbn [mbind option_bind].
    unfold TDH_SOCKET_HEADER_LENGTH in *. rewrite wrapu_small by lia.
    by destruct (Z.ltb_spec (left - 20) len); [|lia]. }
  destruct (Hfr ltac:(lia)) as (body & Hpl & Hok & Hlen). set (f := Frame magic com seq rev body) in *.
  pose proof (frame_count f) as Hfc. cbn [f f_body] in Hfc. unfold TDH_SOCKET_HEADER_LENGTH in *. unfold word in *.
  rewrite (batch_round data now fuel i n pos left pre p c f) by (done || lia).
  destruct c as [|c]; [lia|].
  destruct (IH (i + 1) n (pos + count (frame_bytes f)) (left - count (frame_bytes f))
    (pre ++ [set_next (Some (Datatypes.S (List.length pre))) p]) (inner_packet now (pos + 20) f) c)
    as (r & Hr & Hfs); [lia|lia|lia| |lia|lia|].
  { unfold count in *. rewrite length_app. cbn [List.length]. lia. }
  exists r. split; [exact Hr|]. intros ps Hps. destruct (Hfs ps Hps) as (fs & H1 & H2 & H3 & H4).
  exists (f :: fs). cbn [map concat]. rewrite count_app. split_and!; [by constructor|by apply placed_app|lia|].
  unfold count in *. cbn [List.length]. lia.
Qed.

(** ** tdhs_decode *)
Section theorems.
Context {S : Type} `{EasyPool.PoolOps S}.

Definition MAX_DATA : Z := 0x4000000.
(** The number of packets inside. *)
Definition batch_num (f : frame) : Z := if f_com f =? REQUEST_TYPE_BATCH then f_rev f else 0.
Definition packets_size (n : Z) : Z := sizeof_tdhs_packet_t * (1 + n).

Definition message_ok (m : easy_message_t S) : Prop :=
  bytes_ok (input m) /\ 0 <= input_pos m <= count (input m) /\ count (input m) - input_pos m < 2 ^ 32.

(** What is left to do behind a header of which all data is there. *)
Definition decode_batch (now : Z) (m : easy_message_t S) (f : frame)
    : option (option (list tdhs_packet_t) * easy_message_t S) :=
  let rdata := input_pos m + TDH_SOCKET_HEADER_LENGTH in
  let size := u32 (sizeof_tdhs_packet_t * u32 (1 + batch_num f)) in
  match EasyPool.p_alloc (pool m) size with
  | (None, s) => Some (None, set_status EASY_ERROR (set_pool s m))
  | (Some _, s) =>
      ps ← put_packet (replicate (Z.to_nat (size / sizeof_tdhs_packet_t)) zero_packet) 0 (outer_packet now rdata f);
      r ← batch_loop (Datatypes.S (Z.to_nat (count (f_body f)))) (input m) now 0 (batch_num f) rdata (count (f_body f)) ps;
      Some match r with
           | inl _ => (None, set_status EASY_ERROR (set_input_pos rdata (set_pool s m)))
           | inr ps => (Some ps, set_input_pos (rdata + count (f_body f)) (set_pool s m))
           end
  end.

Lemma decode_header now m f : message_ok m -> placed (input m) (input_pos m) (frame_bytes f) -> frame_ok f ->
  f_magic f = TDHS_MAGIC_CODE -> count (f_body f) <= MAX_DATA ->
  tdhs_decode now m = decode_batch now m f.
Proof.
  intros (Hb & Hpos & Hl) Hp Hf Hm Hd. destruct (header_of_frame _ _ f Hp Hf) as (E1 & E2 & _).
  pose proof (frame_count f) as Hfc. unfold TDH_SOCKET_HEADER_LENGTH in Hfc.
  assert (count (frame_bytes f) <= count (input m) - input_pos m) as Hle.
  { destruct Hp as [_ Hp]. apply prefix_length in Hp. rewrite length_drop in Hp. unfold count in *. lia. }
  assert (0 <= count (f_body f)) by (unfold count; lia).
  unfold tdhs_decode, decode_batch, outer_packet, batch_num. cbv zeta. fold (count (input m)).
  rewrite wrapu_small by lia. unfold TDH_SOCKET_HEADER_LENGTH in *.
  destruct (Z.ltb_spec (count (input m) - input_pos m) 20); [lia|]. rewrite E1, E2. cbn [mbind option_bind].
  rewrite Hm, Z.eqb_refl. cbn [negb]. unfold MAX_DATA in Hd. destruct (Z.ltb_spec 0x4000000 (count (f_body f))); [lia|].
  rewrite wrapu_small by lia. by destruct (Z.ltb_spec (count (input m) - input_pos m - 20) (count (f_body f))); [lia|].
Qed.

Lemma batch_num_word f : frame_ok f -> word (batch_num f).
Proof. intros (_ & _ & _ & H1 & _). unfold batch_num, word in *. destruct (_ =? _); lia. Qed.

(** How many packets fit into the memory that is allocated. *)
Lemma packets_room n : word n ->
  let size := u32 (sizeof_tdhs_packet_t * u32 (1 + n)) in
  (packets_size n < 2 ^ 32 -> size = packets_size n /\ Z.to_nat (size / sizeof_tdhs_packet_t) = Datatypes.S (Z.to_nat n)) /\
  (2 ^ 32 <= packets_size n -> size / sizeof_tdhs_packet_t < 1 + n).
Proof.
  intros Hn size. unfold packets_size, sizeof_tdhs_packet_t, word in *. split.
  - intros Hs. unfold size. rewrite (wrapu_small 32 (1 + n)), wrapu_small by lia. split; [done|].
    rewrite Z.mul_comm, Z.div_mul by lia. lia.
  - intros Hs. unfold size. pose proof (wrapu_range 32 (22360 * u32 (1 + n)) ltac:(lia)).
    apply Z.div_lt_upper_bound; lia.
Qed.

(** A complete packet is decoded to the chain of its frames; a batch of so many
    packets that the size of the array wraps leaves defined behaviour. *)
Lemma decode_frame now m f fs a s : message_ok m -> placed (input m) (input_pos m) (frame_bytes f) -> frame_ok f ->
  f_magic f = TDHS_MAGIC_CODE -> count (f_body f) <= MAX_DATA ->
  Forall frame_ok fs -> count fs = batch_num f -> concat (map frame_bytes fs) `prefix_of` f_body f ->
  EasyPool.p_alloc (pool m) (u32 (sizeof_tdhs_packet_t * u32 (1 + batch_num f))) = (Some a, s) ->
  tdhs_decode now m =
  if packets_size (batch_num f) <? 2 ^ 32
  then Some (Some (chain now (input_pos m + TDH_SOCKET_HEADER_LENGTH) 1
                     (outer_packet now (input_pos m + TDH_SOCKET_HEADER_LENGTH) f) fs),
             set_input_pos (input_pos m + count (frame_bytes f)) (set_pool s m))
  else None.
Proof.
  intros Hmo Hp Hf Hm Hd Hfs Hn Hpre Ha. rewrite (decode_header now m f) by done. unfold decode_batch. rewrite Ha.
  destruct (packets_room (batch_num f) (batch_num_word f Hf)) as [Hroom1 Hroom2]. set (size := u32 _) in *.
  destruct (header_of_frame _ _ f Hp Hf) as (_ & _ & Hbody).
  assert (placed (input m) (input_pos m + TDH_SOCKET_HEADER_LENGTH) (concat (map frame_bytes fs))) as Hpl.
  { destruct Hpre as [t Ht]. rewrite Ht in Hbody. by apply placed_app in Hbody as [? _]. }
  assert (count (concat (map frame_bytes fs)) <= count (f_body f)) as Hle.
  { apply prefix_length in Hpre. unfold count. lia. }
  assert (forall c, put_packet (replicate (Datatypes.S c) zero_packet) 0 (outer_packet now (input_pos m + TDH_SOCKET_HEADER_LENGTH) f) =
    Some ([] ++ outer_packet now (input_pos m + TDH_SOCKET_HEADER_LENGTH) f :: replicate c zero_packet)) as Hput.
  { intros c. exact (put_packet_ok [] zero_packet (replicate c zero_packet) _). }
  assert (word (count (f_body f))) as Hw by apply Hf. unfold word in Hw.
  destruct (Z.ltb_spec (packets_size (batch_num f)) (2 ^ 32)) as [Hlt|Hge].
  - destruct (Hroom1 Hlt) as [_ ->]. rewrite Hput. cbn [mbind option_bind].
    rewrite (batch_loop_frames _ now fs); [|apply Hmo|done|done|lia|lia|done|lia].
    replace (Z.to_nat (batch_num f)) with (List.length fs) by (unfold count in Hn; lia).
    rewrite Nat.leb_refl, Nat.sub_diag. cbn [mbind option_bind replicate app List.length]. rewrite app_nil_r, frame_count.
    by rewrite Z.add_assoc.
  - specialize (Hroom2 Hge). destruct (Z.to_nat (size / sizeof_tdhs_packet_t)) as [|c] eqn:E; [done|]. rewrite Hput.
    cbn [mbind option_bind]. rewrite (batch_loop_frames _ now fs); [|apply Hmo|done|done|lia|lia|done|lia].
    unfold count in Hn. destruct (Nat.leb_spec (List.length fs) c); [|done]. lia.
Qed.

(** What a call of tdhs_decode may return. *)
Definition decode_post (now : Z) (m : easy_message_t S) (r : option (list tdhs_packet_t)) (m' : easy_message_t S) : Prop :=
  (r = None -> status m' = EASY_ERROR \/ status m' = status m /\ input_pos m' = input_pos m) /\
  (forall ps, r = Some ps -> exists f fs,
     placed (input m) (input_pos m) (frame_bytes f) /\ frame_ok f /\ f_magic f = TDHS_MAGIC_CODE /\
     count (f_body f) <= MAX_DATA /\ Forall frame_ok fs /\ count fs = batch_num f /\
     concat (map frame_bytes fs) `prefix_of` f_body f /\
     ps = chain now (input_pos m + TDH_SOCKET_HEADER_LENGTH) 1
            (outer_packet now (input_pos m + TDH_SOCKET_HEADER_LENGTH) f) fs /\
     status m' = status m /\ input_pos m' = input_pos m + count (frame_bytes f)).

Lemma post_none now m m' : status m' = EASY_ERROR \/ status m' = status m /\ input_pos m' = input_pos m ->
  decode_post now m None m'.
Proof. intros Hm. by split. Qed.

Lemma placed_prefix data o l1 l2 : placed data o l1 -> placed data o l2 -> count l2 <= count l1 -> l2 `prefix_of` l1.
Proof.
  intros [_ [t1 H1]] [_ [t2 H2]] Hl. unfold count in Hl. rewrite H1 in H2.
  apply app_eq_inv in H2 as [(k & -> & _)|(k & -> & _)]; [by eexists|].
  rewrite length_app in Hl. assert (k = []) as -> by (destruct k; [done|simpl in Hl; lia]). by rewrite app_nil_r.
Qed.

(** Behind the header. *)
Lemma decode_batch_post now m f : message_ok m -> placed (input m) (input_pos m) (frame_bytes f) -> frame_ok f ->
  f_magic f = TDHS_MAGIC_CODE -> count (f_body f) <= MAX_DATA -> packets_size (batch_num f) < 2 ^ 32 ->
  exists r m', decode_batch now m f = Some (r, m') /\ decode_post now m r m'.
Proof.
  intros Hmo Hp Hf Hmagic Hd Hs. pose proof (decode_frame now m f) as Hdf.
  pose proof (decode_header now m f Hmo Hp Hf Hmagic Hd) as Hdh.
  unfold decode_batch in *. destruct (EasyPool.p_alloc (pool m) _) as [[a|] s] eqn:Ha.
  2: { eexists None, _. split; [done|]. apply post_none. by left. }
  destruct (packets_room (batch_num f) (batch_num_word f Hf)) as [Hroom _]. destruct (Hroom Hs) as [_ Hn].
  rewrite Hn in *. destruct (header_of_frame _ _ f Hp Hf) as (_ & _ & Hbody).
  assert (word (count (f_body f))) as Hw by apply Hf. unfold word in Hw.
  assert (input_pos m + TDH_SOCKET_HEADER_LENGTH + count (f_body f) <= count (input m)) as Hin.
  { destruct Hp as [_ Hp]. apply prefix_length in Hp. rewrite length_drop in Hp. pose proof (frame_count f).
    destruct Hmo as (_ & ? & _). unfold count, TDH_SOCKET_HEADER_LENGTH in *. lia. }
  pose proof (put_packet_ok [] zero_packet (replicate (Z.to_nat (batch_num f)) zero_packet)
    (outer_packet now (input_pos m + TDH_SOCKET_HEADER_LENGTH) f)) as Hput.
  cbn [replicate app List.length] in *. rewrite Hput in *. cbn [mbind option_bind] in *.
  pose proof (batch_num_word f Hf) as Hbw. unfold word in Hbw.
  destruct (batch_loop_total (input m) now (proj1 Hmo) (Datatypes.S (Z.to_nat (count (f_body f)))) 0 (batch_num f)
    (input_pos m + TDH_SOCKET_HEADER_LENGTH) (count (f_body f)) []
    (outer_packet now (input_pos m + TDH_SOCKET_HEADER_LENGTH) f) (Z.to_nat (batch_num f))) as (r & Hr & Hfs);
    [destruct Hmo as (_ & ? & _); unfold TDH_SOCKET_HEADER_LENGTH; lia|lia|lia|done|lia|lia|].
  cbn [app] in Hr. rewrite Hr in *. cbn [mbind option_bind] in *. destruct r as [[]|ps].
  { eexists None, _. split; [done|]. apply post_none. by left. }
  eexists (Some ps), _. split; [done|]. split; [done|]. intros ps' [= <-].
  destruct (Hfs ps eq_refl) as (fs & H1 & H2 & H3 & H4). exists f, fs.
  assert (concat (map frame_bytes fs) `prefix_of` f_body f) as Hpre by (by eapply placed_prefix).
  assert (count fs = batch_num f) as Hcnt by lia.
  specialize (Hdf fs a s Hmo Hp Hf Hmagic Hd H1 Hcnt Hpre eq_refl).
  destruct (Z.ltb_spec (packets_size (batch_num f)) (2 ^ 32)); [|lia]. rewrite Hdh in Hdf. injection Hdf as Hps Hpos.
  do 7 (split; [done|]). split; [done|]. split; [done|]. rewrite frame_count. cbn [input_pos set_input_pos set_pool]. lia.
Qed.

Lemma decode_total now m : message_ok m ->
  (forall com seq rev len, GET_HEADER_INFO (input m) (input_pos m) = Some (com, seq, rev, len) ->
     com = REQUEST_TYPE_BATCH -> packets_size rev < 2 ^ 32) ->
  exists r m', tdhs_decode now m = Some (r, m') /\ decode_post now m r m'.
Proof.
  intros Hmo Hbatch. pose proof Hmo as (Hb & Hpos & Hl).
  destruct (Z.lt_ge_cases (count (input m) - input_pos m) TDH_SOCKET_HEADER_LENGTH) as [Hs|Hs].
  { exists None, m. split; [|apply post_none; by right]. unfold tdhs_decode. cbv zeta. fold (count (input m)).
    rewrite wrapu_small by lia. by destruct (Z.ltb_spec (count (input m) - input_pos m) TDH_SOCKET_HEADER_LENGTH); [|lia]. }
  destruct (frame_at (input m) (input_pos m) Hb) as (magic & com & seq & rev & len & E1 & E2 & Wm & Wc & Ws & Wr & Wl & Hf); [lia..|].
  unfold word in Wl. specialize (Hbatch _ _ _ _ E2).
  destruct (decide (magic = TDHS_MAGIC_CODE /\ len <= MAX_DATA /\
    input_pos m + TDH_SOCKET_HEADER_LENGTH + len <= count (input m))) as [(-> & Hd & Hin)|Hno].
  - destruct (Hf Hin) as (body & Hp & Hok & Hc). set (f := Frame TDHS_MAGIC_CODE com seq rev body) in *.
    assert (count (f_body f) <= MAX_DATA) by (cbn; lia).
    rewrite (decode_header now m f) by done. apply decode_batch_post; try done.
    unfold batch_num. cbn [f f_com f_rev]. destruct (Z.eqb_spec com REQUEST_TYPE_BATCH); [auto|].
    by vm_compute.
  - unfold tdhs_decode. cbv zeta. fold (count (input m)). unfold TDH_SOCKET_HEADER_LENGTH in *.
    rewrite wrapu_small by lia. destruct (Z.ltb_spec (count (input m) - input_pos m) 20); [lia|].
    rewrite E1, E2. cbn [mbind option_bind]. destruct (Z.eqb_spec magic TDHS_MAGIC_CODE) as [->|]; cbn [negb].
    2: { eexists None, _. split; [done|]. apply post_none. by left. }
    destruct (Z.ltb_spec 0x4000000 len). { eexists None, _. split; [done|]. apply post_none. by left. }
    rewrite wrapu_small by lia. destruct (Z.ltb_spec (count (input m) - input_pos m - 20) len).
    { eexists None, _. split; [done|]. apply post_none. by right. }
    destruct Hno. unfold MAX_DATA. lia.
Qed.

(** C12 (safety).  On any bytes received so far, tdhs_decode reads inside them
    and writes inside the packets it allocates, provided the number of packets a
    batch announces is below 192082, so that the size of the array fits 32
    bits.  What it returns are the packets of one frame at the read position,
    with the right magic code and at most 64 MB of data, all of it received,
    and the read position moves behind it; when it returns nothing, either the
    message is marked as an error or the read position has not moved. *)
Theorem tdhs_decode_safe now m : message_ok m ->
  (forall com seq rev len, GET_HEADER_INFO (input m) (input_pos m) = Some (com, seq, rev, len) ->
     com = REQUEST_TYPE_BATCH -> packets_size rev < 2 ^ 32) ->
  exists r m', tdhs_decode now m = Some (r, m') /\ decode_post now m r m'.
Proof. apply decode_total. Qed.

(** ** Partial packets *)

Lemma load32_mono data data' o n : data `prefix_of` data' -> load32 data o = Some n -> load32 data' o = Some n.
Proof.
  intros [t ->]. unfold load32. destruct (o <? 0); [done|]. unfold gets.
  destruct (Nat.leb_spec (Z.to_nat o + 4) (List.length data)) as [Hle|]; [|done]. cbn [mbind option_bind]. intros [= <-].
  rewrite length_app. destruct (Nat.leb_spec (Z.to_nat o + 4) (List.length data + List.length t)); [|lia].
  cbn [mbind option_bind]. f_equal. f_equal. rewrite drop_app_le, take_app_le by (rewrite ?length_drop; lia). done.
Qed.

Lemma header_mono data data' o h : data `prefix_of` data' -> GET_HEADER_INFO data o = Some h -> GET_HEADER_INFO data' o = Some h.
Proof.
  intros Hd. unfold GET_HEADER_INFO. intros Hh.
  repeat match type of Hh with
  | context [load32 data ?p] =>
      let E := fresh in destruct (load32 data p) eqn:E; [apply (load32_mono _ _ _ _ Hd) in E; rewrite E|done];
      cbn [mbind option_bind] in *
  end. done.
Qed.

(** While a packet is incomplete, whatever the split, tdhs_decode
    returns nothing, marks no error and leaves the read position; once the
    header is complete it asks for exactly the bytes that are missing. *)
Theorem tdhs_decode_partial now m f pre part : frame_ok f -> f_magic f = TDHS_MAGIC_CODE -> count (f_body f) <= MAX_DATA ->
  bytes_ok (f_body f) -> bytes_ok pre -> input m = pre ++ part -> input_pos m = count pre ->
  part `prefix_of` frame_bytes f -> count part < count (frame_bytes f) ->
  tdhs_decode now m =
  Some (None, if count part <? TDH_SOCKET_HEADER_LENGTH then m
              else set_next_read_len (count (frame_bytes f) - count part) m).
Proof.
  intros Hf Hmagic Hd Hbb Hbp Hin Hpos Hpre Hlt.
  assert (0 <= count part) by (unfold count; lia). assert (0 <= count (f_body f)) by (unfold count; lia).
  assert (count (input m) - input_pos m = count part) as Hlen by (rewrite Hin, count_app; lia).
  pose proof (frame_count f) as Hfc. unfold TDH_SOCKET_HEADER_LENGTH, MAX_DATA in *.
  assert (placed (pre ++ frame_bytes f) (count pre) (frame_bytes f)) as Hpl.
  { split; [unfold count; lia|]. unfold count. by rewrite Nat2Z.id, drop_app_length. }
  destruct (header_of_frame _ _ f Hpl Hf) as (E1 & E2 & _).
  unfold tdhs_decode. cbv zeta. fold (count (input m)). rewrite Hlen, wrapu_small by lia.
  unfold TDH_SOCKET_HEADER_LENGTH. destruct (Z.ltb_spec (count part) 20); [done|].
  assert (input m `prefix_of` pre ++ frame_bytes f) as Hmono by (rewrite Hin; by apply prefix_app).
  assert (bytes_ok (input m)) as Hb.
  { rewrite Hin. apply list.Forall_app. split; [done|]. destruct Hpre as [t Ht].
    assert (bytes_ok (frame_bytes f)) as Hfb.
    { unfold frame_bytes. repeat (apply list.Forall_app; split); try apply htonl_bytes_ok. done. }
    rewrite Ht in Hfb. by apply list.Forall_app in Hfb as [? _]. }
  destruct (frame_at (input m) (input_pos m) Hb) as (magic & com & seq & rev & len & F1 & F2 & _);
    [unfold count in *; lia|unfold TDH_SOCKET_HEADER_LENGTH; lia|].
  rewrite F1, F2. cbn [mbind option_bind]. apply (load32_mono _ _ _ _ Hmono) in F1. apply (header_mono _ _ _ _ Hmono) in F2.
  rewrite Hpos in F1, F2. rewrite F1 in E1. rewrite F2 in E2. injection E1 as ->. injection E2 as -> -> -> ->.
  rewrite Hmagic, Z.eqb_refl. cbn [negb]. destruct (Z.ltb_spec 0x4000000 (count (f_body f))); [lia|].
  rewrite wrapu_small by lia. destruct (Z.ltb_spec (count part - 20) (count (f_body f))); [|lia].
  rewrite wrapu_small by lia. do 3 f_equal. lia.
Qed.

(** ** Encoding and decoding *)

(** A packet ready to be sent: its buffer has room for the header, then [body]. *)
Definition ready (p : tdhs_packet_t) (body : list Z) : Prop :=
  (exists hole, wbuff p = Some (hole ++ body) /\ count hole = TDH_SOCKET_HEADER_LENGTH) /\
  word (command_id_or_response_code p) /\ word (seq_id p) /\ word (reserved p).

Definition frame_of (p : tdhs_packet_t) (body : list Z) : frame :=
  Frame TDHS_MAGIC_CODE (command_id_or_response_code p) (seq_id p) (reserved p) body.

Lemma encode_ready p body : ready p body ->
  exists b, wbuff p = Some b /\ WRITE_PACKET_HEADER_INFO p b =
    Some (header_bytes (command_id_or_response_code p) (seq_id p) (reserved p) (length p) ++ body).
Proof.
  intros [(hole & Hb & Hh) _]. exists (hole ++ body). split; [done|]. unfold WRITE_PACKET_HEADER_INFO.
  set (h := header_bytes _ _ _ _). assert (List.length h = List.length hole) as Hl.
  { unfold count, TDH_SOCKET_HEADER_LENGTH in Hh. unfold h. cbn. lia. }
  unfold puts. rewrite length_app, Hl. destruct (Nat.leb_spec (0 + List.length hole) (List.length hole + List.length body)); [|lia].
  cbn [take app Nat.add]. by rewrite drop_app_length.
Qed.

(** The frames of the packets inside a batch. *)
Definition inner_ready (p : tdhs_packet_t) (f : frame) : Prop :=
  ready p (f_body f) /\ length p = count (f_body f) /\ word (length p) /\ f = frame_of p (f_body f).

Lemma encode_frames ps fs : Forall2 inner_ready ps fs ->
  exists bs, tdhs_encode ps = Some bs /\ concat bs = concat (map frame_bytes fs) /\ Forall frame_ok fs.
Proof.
  induction 1 as [|p f ps fs (Hr & Hl & Hw & Ef) _ (bs & E1 & E2 & E3)]; [by exists []|].
  destruct (encode_ready p _ Hr) as (b & Eb & Ew). cbn [tdhs_encode]. rewrite Eb. cbn [mbind option_bind]. rewrite Ew.
  cbn [mbind option_bind]. rewrite E1. cbn [mbind option_bind]. eexists. split; [done|]. cbn [concat map]. rewrite E2.
  split.
  - f_equal. rewrite Ef. unfold frame_bytes, header_bytes, frame_of. cbn [f_magic f_com f_seq f_rev f_body].
    rewrite Hl, <- !app_assoc. done.
  - constructor; [|done]. rewrite Ef. destruct Hr as (_ & ? & ? & ?). unfold frame_ok. cbn. rewrite <- Hl. split_and!; done.
Qed.

(** A chain that may be sent: a batch with its packets, or one other packet. *)
Definition sendable (p : tdhs_packet_t) (ps : list tdhs_packet_t) (f : frame) (fs : list frame) : Prop :=
  Forall2 inner_ready ps fs /\ count (f_body f) <= MAX_DATA /\
  (command_id_or_response_code p = REQUEST_TYPE_BATCH /\ reserved p = count ps /\ ready p [] /\
     f = frame_of p (concat (map frame_bytes fs)) /\ length p = count (f_body f) \/
   command_id_or_response_code p <> REQUEST_TYPE_BATCH /\ ps = [] /\ inner_ready p f).

Lemma sendable_facts p ps f fs : sendable p ps f fs ->
  (exists bs, tdhs_encode (p :: ps) = Some bs /\ concat bs = frame_bytes f) /\ frame_ok f /\
  f_magic f = TDHS_MAGIC_CODE /\ Forall frame_ok fs /\ count fs = batch_num f /\ count ps = count fs /\
  concat (map frame_bytes fs) `prefix_of` f_body f.
Proof.
  intros (H2 & Hd & Hcase). pose proof (Forall2_length H2) as Hlen.
  destruct (encode_frames ps fs H2) as (bs & E1 & E2 & E3). unfold MAX_DATA in Hd.
  destruct Hcase as [(Hc & Hr & Hrd & -> & Hl)|(Hc & -> & Hi)].
  - destruct (encode_ready p [] Hrd) as (b & Eb & Ew). split.
    { cbn [tdhs_encode]. rewrite Eb. cbn [mbind option_bind]. rewrite Ew. cbn [mbind option_bind]. rewrite E1.
      cbn [mbind option_bind]. eexists. split; [done|]. cbn [concat]. rewrite E2, Hl.
      unfold frame_bytes at 2, header_bytes, frame_of. cbn [f_magic f_com f_seq f_rev f_body]. by rewrite <- !app_assoc. }
    destruct Hrd as (_ & Wc & Ws & Wr). cbn [frame_of f_body] in *.
    split. { unfold frame_ok, frame_of. cbn [f_magic f_com f_seq f_rev f_body]. split_and!; try done; try apply Wc;
      try apply Ws; try apply Wr; unfold word, count in *; lia. }
    split; [done|]. split; [done|]. unfold batch_num, frame_of. cbn [f_com f_rev f_body]. rewrite Hc, Z.eqb_refl, Hr.
    unfold count. rewrite Hlen. done.
  - destruct fs as [|]; [|done]. destruct (encode_frames [p] [f]) as (bs' & F1 & F2 & F3); [by constructor|].
    split; [exists bs'; split; [done|]; rewrite F2; cbn [map concat]; apply app_nil_r|].
    apply list.Forall_cons in F3 as [F3 _]. destruct Hi as (_ & _ & _ & Ef). split; [done|]. rewrite Ef. split; [done|].
    split; [done|]. unfold batch_num, frame_of. cbn [f_com]. destruct (Z.eqb_spec (command_id_or_response_code p) REQUEST_TYPE_BATCH); [done|].
    split; [done|]. split; [done|]. apply prefix_nil.
Qed.


(** A batch of at least 192082 packets, all of them well formed,
    writes packets beyond the memory allocated for them: the size is computed
    in 32 bits.  Such a batch fits the 64 MB a packet may have. *)
Theorem tdhs_decode_batch_overflow now m f fs a s : message_ok m -> placed (input m) (input_pos m) (frame_bytes f) ->
  frame_ok f -> f_magic f = TDHS_MAGIC_CODE -> f_com f = REQUEST_TYPE_BATCH -> f_rev f = count fs ->
  f_body f = concat (map frame_bytes fs) -> count (f_body f) <= MAX_DATA -> Forall frame_ok fs -> 192082 <= count fs ->
  EasyPool.p_alloc (pool m) (u32 (sizeof_tdhs_packet_t * u32 (1 + count fs))) = (Some a, s) ->
  tdhs_decode now m = None.
Proof.
  intros Hmo Hp Hf Hm Hc Hr Hb Hd Hfs Hn Ha.
  assert (batch_num f = count fs) as Hbn by (unfold batch_num; by rewrite Hc, Z.eqb_refl, Hr).
  rewrite (decode_frame now m f fs a s); try done; [|by rewrite Hb|by rewrite Hbn].
  destruct (Z.ltb_spec (packets_size (batch_num f)) (2 ^ 32)) as [Hlt|]; [|done].
  unfold packets_size, sizeof_tdhs_packet_t in Hlt. lia.
Qed.

End theorems.

(** ** Examples *)

Definition demo_body : list Z := [1; 2; 3].
Definition demo_frame : frame := Frame TDHS_MAGIC_CODE REQUEST_TYPE_DELETE 7 0 demo_body.
Definition demo_message (data : list Z) : easy_message_t (EasyPool.slots * EasyPool.easy_pool_t) :=
  Message data 0 EASY_OK 0 EasyPool.demo_pool.

Lemma demo_frame_ok : frame_ok demo_frame.
Proof. repeat split; vm_compute; congruence. Qed.

Lemma demo_message_ok data : bytes_ok data -> count data < 2 ^ 32 -> message_ok (demo_message data).
Proof. intros Hb Hl. split; [done|]. cbn [input input_pos demo_message]. unfold count in *. lia. Qed.

Ltac words_ok := repeat split; vm_compute; congruence.
Ltac bytes := repeat (constructor; [vm_compute; split; congruence|]); constructor.

Lemma tdhs_decode_safe_witness : exists r m',
  tdhs_decode 5 (demo_message (frame_bytes demo_frame)) = Some (r, m') /\
  decode_post 5 (demo_message (frame_bytes demo_frame)) r m'.
Proof.
  apply (tdhs_decode_safe 5 (demo_message (frame_bytes demo_frame))).
  - apply demo_message_ok; [bytes|vm_compute; done].
  - intros com seq rev len E Hc. vm_compute in E. injection E as <- <- <- <-. discriminate Hc.
Defined.

Lemma tdhs_decode_partial_witness :
  tdhs_decode 5 (demo_message (take 21 (frame_bytes demo_frame))) =
  Some (None, set_next_read_len 2 (demo_message (take 21 (frame_bytes demo_frame)))).
Proof.
  exact (tdhs_decode_partial 5 (demo_message (take 21 (frame_bytes demo_frame))) demo_frame []
    (take 21 (frame_bytes demo_frame)) demo_frame_ok eq_refl ltac:(vm_compute; congruence) ltac:(bytes) ltac:(bytes)
    eq_refl eq_refl (prefix_take _ _) ltac:(vm_compute; done)).
Defined.

(** A batch of one delete request. *)
Definition hole : list Z := replicate 20 0.
Definition demo_inner : tdhs_packet_t := Packet REQUEST_TYPE_DELETE 7 0 3 0 (Some (hole ++ demo_body)) zero_request 0 None.
Definition demo_batch : tdhs_packet_t := Packet REQUEST_TYPE_BATCH 6 1 23 0 (Some hole) zero_request 0 None.


(** A batch of [k] delete requests without data. *)
Definition empty_frame : frame := Frame 0 REQUEST_TYPE_DELETE 0 0 [].

Lemma empty_frames k : let l := concat (map frame_bytes (replicate k empty_frame)) in
  count l = 20 * Z.of_nat k /\ bytes_ok l.
Proof.
  induction k as [|k [IH1 IH2]]; [split; [done|constructor]|].
  cbv zeta. rewrite replicate_S, map_cons, concat_cons, count_app, IH1. split.
  - change (count (frame_bytes empty_frame)) with 20. lia.
  - apply list.Forall_app. split; [bytes|exact IH2].
Qed.

Lemma tdhs_decode_batch_overflow_witness : exists m, tdhs_decode 5 m = None /\ input_pos m = 0.
Proof.
  set (k := Z.to_nat 192083). assert (Z.of_nat k = 192083) as Hk by (apply Z2Nat.id; lia). clearbody k.
  destruct (empty_frames k) as [Hc Hb]. set (fs := replicate k empty_frame) in *.
  set (f := Frame TDHS_MAGIC_CODE REQUEST_TYPE_BATCH 1 192083 (concat (map frame_bytes fs))).
  assert (count fs = 192083) as Hfs by (unfold count, fs; by rewrite length_replicate).
  assert (frame_ok f) as Hf.
  { unfold frame_ok, word. cbn [f f_magic f_com f_seq f_rev f_body]. rewrite Hc, Hk. by repeat split. }
  assert (bytes_ok (frame_bytes f)) as Hbf.
  { unfold frame_bytes. repeat (apply list.Forall_app; split); try apply htonl_bytes_ok. exact Hb. }
  pose proof (frame_count f) as Hfc. cbn [f f_body] in Hfc. rewrite Hc, Hk in Hfc.
  destruct (EasyPool.p_alloc EasyPool.demo_pool (u32 (sizeof_tdhs_packet_t * u32 (1 + 192083)))) as [[a|] s] eqn:Ea;
    [|vm_compute in Ea; discriminate].
  exists (demo_message (frame_bytes f)). split; [|done].
  apply (tdhs_decode_batch_overflow 5 (demo_message (frame_bytes f)) f fs a s).
  - apply demo_message_ok; [exact Hbf|]. rewrite Hfc. unfold TDH_SOCKET_HEADER_LENGTH. lia.
  - split; [cbn [input_pos demo_message]; lia|]. exists []. by rewrite app_nil_r.
  - exact Hf.
  - reflexivity.
  - reflexivity.
  - rewrite Hfs. reflexivity.
  - reflexivity.
  - cbn [f f_body]. rewrite Hc, Hk. vm_compute. congruence.
  - apply Forall_replicate. words_ok.
  - rewrite Hfs. lia.
  - rewrite Hfs. exact Ea.
Defined.

End TdhsProtocol.
