(* ===== verification/TdhsServer.v ===== *)
(** * The protocol on a connection

    TDHSocket/tdh_socket.cpp gives tdhs_decode and tdhs_encode to libeasy as the
    callbacks of its service.  Here they are an instance of the interface [IoHandler]
    of the connections, with any processing: the decoder makes progress and its
    packets do not depend on what follows them, so that it does not matter how the
    bytes of a client are cut into reads, and what a client is sent is a sequence of
    complete frames. *)

From Stdlib Require Import ZArith Lia.
From stdpp Require Import base gmap list numbers option.
From S2P Require Import Prelude CString EasyPool EasyConnection EasyConnectionProofs EasyConnectionSafety EasyConnectionTheorems TdhsDefine TdhsRead TdhsProtocol.

Local Open Scope Z_scope.

Module TdhsServer.

(** ** A packet does not depend on what follows *)
Section stable.
Import TdhsDefine TdhsRead TdhsProtocol.

Lemma load32_here data more o : bytes_ok data -> 0 <= o -> o + 4 <= count data -> load32 (data ++ more) o = load32 data o.
Proof. intros Hb Ho Hl. destruct (load32_some data o Hb Ho Hl) as (n & E & _). rewrite E. by apply (load32_mono data); [by eexists|]. Qed.

Lemma header_here data more o : bytes_ok data -> 0 <= o -> o + TDH_SOCKET_HEADER_LENGTH <= count data ->
  exists com seq rev len, GET_HEADER_INFO data o = Some (com, seq, rev, len) /\ GET_HEADER_INFO (data ++ more) o = Some (com, seq, rev, len) /\ word rev /\ word len.
Proof.
  intros Hb Ho Hl. destruct (frame_at data o Hb Ho Hl) as (magic & com & seq & rev & len & _ & E & _ & _ & _ & Wr & Wl & _). exists com, seq, rev, len. split; [done|]. split; [|by split].
  by apply (header_mono data); [by eexists|].
Qed.

Lemma batch_loop_here data more now fuel : forall i n pos left ps, bytes_ok data -> 0 <= pos -> 0 <= left < 2 ^ 32 -> pos + left <= count data ->
  batch_loop fuel (data ++ more) now i n pos left ps = batch_loop fuel data now i n pos left ps.
Proof.
  induction fuel as [|fuel IH]; intros i n pos left ps Hb Hp Hl Hc; cbn [batch_loop]; [done|]. destruct (negb (i <? n)); [done|].
  unfold TDH_SOCKET_HEADER_LENGTH in *. destruct (Z.ltb_spec left 20); [done|]. destruct (header_here data more pos Hb Hp) as (com & seq & rev & len & -> & -> & _ & Wl); [unfold TDH_SOCKET_HEADER_LENGTH; lia|].
  cbn [mbind option_bind]. unfold word in Wl. rewrite (wrapu_small 32 (left - 20)) by lia. destruct (Z.ltb_spec (left - 20) len); [done|]. rewrite wrapu_small by lia.
  destruct (put_packet ps _ _) as [ps1|]; [|done]. cbn [mbind option_bind]. destruct (ps1 !! _); [|done]. cbn [mbind option_bind]. destruct (put_packet ps1 _ _); [|done]. cbn [mbind option_bind]. apply IH; [done|lia..].
Qed.

Context {S : Type} `{EasyPool.PoolOps S}.

(** A message that starts with [data]. *)
Definition fresh (pool0 : S) (data : list Z) : TdhsProtocol.easy_message_t S := TdhsProtocol.Message data 0 0 0 pool0.

Definition same_answer (data more : list Z) (r r' : option (option (list tdhs_packet_t) * TdhsProtocol.easy_message_t S)) : Prop :=
  match r with
  | Some (Some ps, m) => exists m', r' = Some (Some ps, m') /\ input_pos m' = input_pos m /\ TDH_SOCKET_HEADER_LENGTH <= input_pos m <= count data
  | Some (None, m) => status m <> 0 -> exists m', r' = Some (None, m') /\ status m' = status m
  | None => r' = None
  end.

Lemma tdhs_decode_here now pool0 data more : bytes_ok data -> count (data ++ more) < 2 ^ 32 ->
  same_answer data more (tdhs_decode now (fresh pool0 data)) (tdhs_decode now (fresh pool0 (data ++ more))).
Proof.
  intros Hb Hc. pose proof Hc as Hc'. rewrite count_app in Hc'. assert (0 <= count data /\ 0 <= count more) as [? ?] by (unfold count; lia). unfold tdhs_decode, fresh. cbn [TdhsProtocol.input input_pos pool]. fold (count data). fold (count (data ++ more)).
  rewrite count_app, !Z.sub_0_r, (wrapu_small 32 (count data)), (wrapu_small 32 (count data + count more)) by lia. unfold TDH_SOCKET_HEADER_LENGTH. destruct (Z.ltb_spec (count data) 20); [by cbn|]. destruct (Z.ltb_spec (count data + count more) 20); [lia|].
  rewrite load32_here by (done || lia). destruct (load32_some data 0 Hb ltac:(lia) ltac:(lia)) as (magic & -> & _). cbn [mbind option_bind]. destruct (negb (magic =? TDHS_MAGIC_CODE)); [intros _; eexists; by split|].
  destruct (header_here data more 0 Hb ltac:(lia)) as (com & seq & rev & len & -> & -> & Wr & Wl); [unfold TDH_SOCKET_HEADER_LENGTH; lia|]. cbn [mbind option_bind]. unfold word in *.
  destruct (Z.ltb_spec 0x4000000 len); [intros _; eexists; by split|]. rewrite (wrapu_small 32 (count data - 20)), (wrapu_small 32 (count data + count more - 20)) by lia. destruct (Z.ltb_spec (count data - 20) len); [by cbn|]. destruct (Z.ltb_spec (count data + count more - 20) len); [lia|].
  destruct (EasyPool.p_alloc pool0) as [[a|] s]; [|intros _; eexists; by split]. destruct (put_packet _ 0) as [ps|]; [|done]. cbn [mbind option_bind TdhsProtocol.set_input_pos]. rewrite batch_loop_here by (done || lia).
  destruct (batch_loop _ data _ _ _ _ _ ps) as [[[]|ps']|]; cbn [mbind option_bind same_answer]; [intros _; eexists; by split| |done]. eexists. split; [done|]. cbn. unfold TDH_SOCKET_HEADER_LENGTH. split; [done|lia].
Qed.

Lemma tdhs_decode_back now pool0 data ps m : bytes_ok data -> tdhs_decode now (fresh pool0 data) = Some (Some ps, m) -> 0 < input_pos m.
Proof.
  intros Hb. unfold tdhs_decode, fresh. cbn [TdhsProtocol.input input_pos pool]. destruct (_ <? TDH_SOCKET_HEADER_LENGTH) eqn:El; [done|]. destruct (load32 data 0); [|done]. cbn [mbind option_bind]. destruct (negb _); [done|].
  assert (TDH_SOCKET_HEADER_LENGTH <= count data) as Hl. { apply Z.ltb_ge in El. rewrite Z.sub_0_r in El. unfold count. unfold wrapu in El. pose proof (Z.mod_le (Z.of_nat (List.length data)) (2 ^ 32)). lia. }
  destruct (header_here data [] 0 Hb ltac:(lia) ltac:(lia)) as (com & seq & rev & len & -> & _ & _ & Wl). cbn [mbind option_bind]. unfold word in Wl.
  destruct (0x4000000 <? len); [done|]. destruct (_ <? len); [done|]. destruct (EasyPool.p_alloc _ _) as [[a|] s]; [|done]. destruct (put_packet _ _ _); [|done]. cbn [mbind option_bind].
  destruct (batch_loop _ _ _ _ _ _ _ _) as [[[]|ps']|]; [done| |done]. cbn [mbind option_bind]. intros [= _ <-]. cbn [input_pos set_input_pos]. unfold TDH_SOCKET_HEADER_LENGTH. lia.
Qed.
End stable.

(** ** Reads of a connection *)
Import EasyConnection EasyConnectionProofs EasyConnectionSafety EasyConnectionTheorems.

Section reads.
Context {P H : Type} {handler : IoHandler P H}.
Abbreviation conn := (@easy_connection_t P).
Abbreviation environment := (@env H).

Local Notation "x <- m ;; k" := (bind m (fun x => k)) (at level 100, m at next level, right associativity).
Local Notation "m ;; k" := (bind m (fun _ => k)) (at level 100, right associativity).

(** The packets at the beginning of some bytes, and the bytes left, or an error. *)
Fixpoint packets_of (fuel : nat) (l : list Z) : list P * option (list Z) :=
  match l, fuel with
  | [], _ | _, O => ([], Some l)
  | _, S fuel =>
      match h_decode l with
      | DPacket p rest => let '(ps, r) := packets_of fuel rest in (p :: ps, r)
      | DMore => ([], Some l)
      | DError => ([], None)
      end
  end.

(** Packets take bytes, and do not depend on bytes that follow, in streams shorter
    than [max]. *)
Definition stable (max : nat) : Prop := forall l l', (length (l ++ l') < max)%nat ->
  match h_decode l with DPacket p rest => h_decode (l ++ l') = DPacket p (rest ++ l') | DError => h_decode (l ++ l') = DError | DMore => True end.

Lemma packets_fuel (Hp : progress) fuel : forall l fuel', (length l <= fuel)%nat -> (length l <= fuel')%nat -> packets_of fuel l = packets_of fuel' l.
Proof.
  induction fuel as [|fuel IH]; intros l fuel' Hf Hf'; (destruct l as [|b l]; [by destruct fuel'|]); [cbn in Hf; lia|]. destruct fuel' as [|fuel']; [cbn in Hf'; lia|]. cbn [packets_of].
  destruct (h_decode (b :: l)) as [p rest| |] eqn:E; [|done..]. apply Hp in E. by rewrite (IH rest fuel') by (cbn in *; lia).
Qed.

Definition packets (l : list Z) : list P * option (list Z) := packets_of (length l) l.

Lemma packets_eq (Hp : progress) l : packets l = match l with [] => ([], Some []) | _ => match h_decode l with DPacket p rest => let '(ps, r) := packets rest in (p :: ps, r) | DMore => ([], Some l) | DError => ([], None) end end.
Proof.
  unfold packets. destruct l as [|b l]; [done|]. cbn [length packets_of]. destruct (h_decode (b :: l)) as [p rest| |] eqn:E; [|done..]. apply Hp in E. by rewrite (packets_fuel Hp (length l) rest (length rest)) by (cbn in *; lia).
Qed.

(** More bytes do not change the packets there are. *)
Lemma packets_app (Hp : progress) max (Hs : stable max) l' l : (length (l ++ l') < max)%nat ->
  packets (l ++ l') = let '(ps, r) := packets l in match r with None => (ps, None) | Some rest => let '(qs, r) := packets (rest ++ l') in (ps ++ qs, r) end.
Proof.
  revert l. enough (forall n l, (length l <= n)%nat -> (length (l ++ l') < max)%nat ->
    packets (l ++ l') = let '(ps, r) := packets l in match r with None => (ps, None) | Some rest => let '(qs, r) := packets (rest ++ l') in (ps ++ qs, r) end) as Hgo by (intros; by eapply Hgo).
  assert (forall x : list P * option (list Z), x = let '(qs, r) := x in ([] ++ qs, r)) as Hid by (by intros []).
  induction n as [|n IH]; intros l Hn Hl; (destruct l as [|b l]; [apply Hid|]); [cbn in Hn; lia|]. rewrite (packets_eq Hp (b :: l)). pose proof (Hs (b :: l) l' Hl) as Hd.
  destruct (h_decode (b :: l)) as [p rest| |] eqn:E; [|apply Hid|rewrite packets_eq by done; cbn [app] in *; by rewrite Hd].
  apply Hp in E. rewrite packets_eq by done. cbn [app] in *. rewrite Hd. rewrite (IH rest); [|cbn in *; lia|cbn [length] in *; rewrite !length_app in *; lia].
  destruct (packets rest) as [ps [r|]]; [|done]. by destruct (packets (r ++ l')).
Qed.

(** What the loop of [easy_connection_do_request] decodes. *)
Lemma decode_loop_packets (Hp : progress) m fuel : forall (c : conn) (e : environment) n x, messages c !! m = Some x -> (length (input x) <= fuel)%nat ->
  exists c' x', decode_loop fuel m n (c, e) = Some (match snd (packets (input x)) with Some _ => Some (n + Z.of_nat (length (fst (packets (input x))))) | None => None end, (c', e)) /\
    messages c' !! m = Some x' /\ map ipacket (requests x') = map ipacket (requests x) ++ fst (packets (input x)) /\ (forall rest, snd (packets (input x)) = Some rest -> input x' = rest).
Proof.
  induction fuel as [|fuel IH]; intros c e n x Hm Hf; rewrite (packets_eq Hp (input x)).
  - destruct (input x) as [|b l] eqn:Ei; [|cbn in Hf; lia]. exists c, x. split_and!; [|done|cbn; by rewrite app_nil_r|by intros rest [= <-]].
    cbn [decode_loop]. unfold bind, get_message, get_conn, ret. cbn. rewrite Hm. cbn. rewrite Ei. cbn. by rewrite Z.add_0_r.
  - destruct (input x) as [|b l] eqn:Ei; [exists c, x; split_and!; [|done|cbn; by rewrite app_nil_r|by intros rest [= <-]]; cbn [decode_loop]; unfold bind, get_message, get_conn, ret; cbn; rewrite Hm; cbn; rewrite Ei; cbn; by rewrite Z.add_0_r|].
    destruct (h_decode (b :: l)) as [p rest| |] eqn:Ed.
    + set (x1 := Message (requests x ++ [Request p None EASY_OK NotWaiting]) (m_ref x) (m_status x) (recycle_cnt x) rest (request_list x ++ [length (requests x)]) (request_done_list x) (request_list_count x)).
      set (c1 := c_set_messages (<[m := x1]> (messages c)) (next_message c) c). destruct (IH c1 e (n + 1) x1) as (c' & x' & E & Hm' & Hr & Hi); [apply lookup_insert_eq|cbn [x1 input]; apply Hp in Ed; cbn in *; lia|].
      exists c', x'. cbn [x1 input requests] in *. destruct (packets rest) as [ps r]. cbn [fst snd] in *. split_and!; [|done|rewrite Hr, map_app, <- app_assoc; done|done].
      assert (decode_loop (S fuel) m n (c, e) = decode_loop fuel m (n + 1) (c1, e)) as ->.
      { cbn [decode_loop]. unfold bind at 1, get_message at 1, bind at 1, get_conn at 1. cbn [fst]. rewrite Hm. cbn [ret]. rewrite Ei, Ed.
        unfold mod_message, get_message, mod_conn, get_conn, bind, ret. cbn [fst snd]. rewrite Hm. cbn [fst snd c_set_messages messages]. rewrite lookup_insert_eq. cbn [fst snd c_set_messages messages]. rewrite insert_insert_eq, lookup_insert_eq. cbn [fst snd c_set_messages messages].
        rewrite insert_insert_eq. cbn [m_set_requests m_set_input m_set_list requests request_list m_ref m_status recycle_cnt input request_done_list request_list_count next_message]. rewrite length_app. cbn [length]. rewrite Nat.add_sub. done. }
      rewrite E. destruct r; [|done]. cbn [length]. do 3 f_equal. lia.
    + exists c, x. split_and!; [|done|cbn; by rewrite app_nil_r|by intros rest [= <-]]. cbn [decode_loop]. unfold bind, get_message, get_conn, ret. cbn. rewrite Hm. cbn. rewrite Ei, Ed. cbn. by rewrite Z.add_0_r.
    + exists c, x. split_and!; [|done|cbn; by rewrite app_nil_r|done]. cbn [decode_loop]. unfold bind, get_message, get_conn, ret. cbn. rewrite Hm. cbn. by rewrite Ei, Ed.
Qed.

(** Bytes arrive in a message, and are decoded; then more, until an error. *)
Fixpoint receive (m : nat) (reads : list (list Z)) : M bool :=
  match reads with
  | [] => ret true
  | bytes :: reads =>
      mod_message m (fun x => m_set_input (input x ++ bytes) x) ;; x <- get_message m ;; d <- decode_loop (length (input x)) m 0 ;;
      match d with Some _ => receive m reads | None => ret false end
  end.

Lemma receive_packets (Hp : progress) max (Hs : stable max) m reads : forall (c : conn) (e : environment) x l, messages c !! m = Some x -> (length (l ++ concat reads) < max)%nat ->
  packets l = (map ipacket (requests x), Some (input x)) -> exists ok c' x', receive m reads (c, e) = Some (ok, (c', e)) /\ messages c' !! m = Some x' /\
    packets (l ++ concat reads) = (map ipacket (requests x'), if ok : bool then Some (input x') else None).
Proof.
  induction reads as [|bytes reads IH]; intros c e x l Hm Hl E; cbn [receive concat].
  - exists true, c, x. rewrite app_nil_r. by split_and!.
  - cbn [concat] in Hl. rewrite app_assoc in Hl |- *. set (x1 := m_set_input (input x ++ bytes) x). set (c1 := c_set_messages (<[m := x1]> (messages c)) (next_message c) c). assert (messages c1 !! m = Some x1) as Hm1 by apply lookup_insert_eq.
    destruct (decode_loop_packets Hp m (length (input x1)) c1 e 0 x1 Hm1 ltac:(lia)) as (c2 & x2 & E2 & Hm2 & Hr2 & Hi2).
    assert (packets (l ++ bytes) = (map ipacket (requests x2), snd (packets (input x1)))) as Eb.
    { rewrite (packets_app Hp max Hs) by (rewrite length_app in Hl; lia). rewrite E, Hr2. cbn [x1 m_set_input input requests]. by destruct (packets (input x ++ bytes)). }
    assert (forall (f : option Z -> M bool), (mod_message m (fun x => m_set_input (input x ++ bytes) x) ;; x <- get_message m ;; d <- decode_loop (length (input x)) m 0 ;; f d) (c, e) =
      f (match snd (packets (input x1)) with Some _ => Some (0 + Z.of_nat (length (fst (packets (input x1))))) | None => None end) (c2, e)) as ->.
    { intros f. unfold bind at 1, mod_message, get_message at 1, mod_conn, bind at 1 2, get_conn at 1, ret at 1. cbn [fst snd]. rewrite Hm. cbn [fst snd]. fold x1. fold c1. unfold bind at 1, get_message at 1, bind at 1, get_conn at 1. cbn [fst]. rewrite Hm1. unfold ret at 1. unfold bind at 1. by rewrite E2. }
    destruct (snd (packets (input x1))) as [rest|] eqn:Er.
    + specialize (Hi2 rest eq_refl). apply (IH c2 e x2 (l ++ bytes) Hm2 Hl). by rewrite Eb, Hi2.
    + exists false, c2, x2. split_and!; [done|done|]. rewrite (packets_app Hp max Hs) by done. by rewrite Eb.
Qed.
End reads.

(** ** The service *)
Section service.
Context {S H : Type} `{EasyPool.PoolOps S}.
(** The pool of a message and the time of day; what is done with a request, in the
    I/O thread and in a request thread. *)
Variables (pool0 : S) (now : Z).

(** Packets in a chain, and the bytes of a request they are in. *)
Abbreviation tdhs_chain := (list TdhsProtocol.tdhs_packet_t * list Z)%type.
Variables (process : H -> tdhs_chain -> H * processed tdhs_chain) (work : H -> tdhs_chain -> H * worked tdhs_chain).

(** tdhs_decode at the beginning of what is not read yet, with a pool that still has
    its room.  An error closes the connection; so does, here, a batch whose packets
    do not fit the memory made for them. *)
Definition tdhs_decode_bytes (l : list Z) : decoded tdhs_chain :=
  let data := map u8 l in
  match TdhsProtocol.tdhs_decode now (fresh pool0 data) with
  | Some (Some ps, m) => DPacket (ps, take (Z.to_nat (TdhsProtocol.input_pos m)) data) (drop (Z.to_nat (TdhsProtocol.input_pos m)) l)
  | Some (None, m) => if TdhsProtocol.status m =? 0 then DMore else DError
  | None => DError
  end.

Definition tdhs_service : IoHandler tdhs_chain H := {| h_decode := tdhs_decode_bytes; h_process := process; h_work := work; h_encode p := TdhsProtocol.tdhs_encode (fst p) |}.

Lemma bytes_u8 l : bytes_ok (map u8 l).
Proof. induction l as [|b l IH]; constructor; [by apply (wrapu_range 8)|exact IH]. Qed.

Lemma tdhs_progress : @progress _ _ tdhs_service.
Proof.
  intros l p rest. cbn [h_decode tdhs_service]. unfold tdhs_decode_bytes. destruct (TdhsProtocol.tdhs_decode now _) as [[[ps|] m]|] eqn:E; [|by case_match|done]. intros [= _ <-].
  pose proof (tdhs_decode_back now pool0 (map u8 l) ps m (bytes_u8 l) E). rewrite length_drop. destruct l as [|b l]; [|cbn [length]; lia]. discriminate E.
Qed.

Lemma tdhs_stable : @stable _ _ tdhs_service (Z.to_nat (2 ^ 32)).
Proof.
  intros l l' Hl. cbn [h_decode tdhs_service]. unfold tdhs_decode_bytes. rewrite map_app. pose proof (tdhs_decode_here now pool0 (map u8 l) (map u8 l') (bytes_u8 l)) as Hs. rewrite <- map_app in Hs. unfold TdhsRead.count in Hs. rewrite length_map in Hs. specialize (Hs ltac:(lia)). rewrite map_app in Hs.
  destruct (TdhsProtocol.tdhs_decode now (fresh pool0 (map u8 l))) as [[[ps|] m]|]; cbn [same_answer] in Hs.
  - destruct Hs as (m' & -> & -> & Hpos). unfold TdhsRead.count in Hpos. rewrite length_map in Hpos. rewrite take_app_le by (rewrite length_map; lia). by rewrite drop_app_le by lia.
  - destruct (Z.eqb_spec (TdhsProtocol.status m) 0) as [|Hne]; [done|]. destruct (Hs Hne) as (m' & -> & ->). by destruct (Z.eqb_spec (TdhsProtocol.status m) 0).
  - by rewrite Hs.
Qed.


(** A packet of an answer, and its frame. *)
Definition reply_ready (p : TdhsProtocol.tdhs_packet_t) : Prop := exists body, TdhsProtocol.ready p body /\ TdhsProtocol.length p = TdhsRead.count body /\ TdhsProtocol.word (TdhsProtocol.length p).
Definition reply_frame (p : TdhsProtocol.tdhs_packet_t) : TdhsProtocol.frame := TdhsProtocol.frame_of p (drop 20 (default [] (TdhsProtocol.wbuff p))).

Lemma encode_replies ps : Forall reply_ready ps -> exists bs, TdhsProtocol.tdhs_encode ps = Some bs /\ concat bs = concat (map TdhsProtocol.frame_bytes (map reply_frame ps)) /\ Forall TdhsProtocol.frame_ok (map reply_frame ps).
Proof.
  intros Hps. apply (TdhsProtocol.encode_frames ps). induction Hps as [|p ps (body & Hr & Hl & Hw) _ IH]; [constructor|]. constructor; [|exact IH].
  assert (reply_frame p = TdhsProtocol.frame_of p body) as ->; [|by split_and!]. unfold reply_frame. destruct Hr as [(hole & -> & Hh) _]. cbn [default from_option]. unfold TdhsRead.count, TdhsProtocol.TDH_SOCKET_HEADER_LENGTH in Hh.
  unfold id. by rewrite drop_app_length' by lia.
Qed.

(** C16 (functional).  In every run of the service without streamed answers, if each
    packet answered has its buffer with room for the header, then what a client has
    been sent, with what still waits, is one complete frame for each packet of each
    answer, in order: nothing of another answer comes between the parts of one. *)
Theorem tdhs_replies (e : @env H) evs : @no_stream _ _ tdhs_service -> started e -> exists s', @run _ _ tdhs_service evs (Io ∅ e) = Some s' /\
  forall cid c, conns s' !! cid = Some c -> Forall (fun a => Forall reply_ready (fst a)) (answers c) ->
    let frames := concat (map (fun a => map reply_frame (fst a)) (answers c)) in
    Forall TdhsProtocol.frame_ok frames /\ sent c ++ concat (map data (output c)) = concat (map TdhsProtocol.frame_bytes frames).
Proof.
  intros Hn Hs. destruct (@run_ok _ _ tdhs_service tdhs_progress Hn evs _ (started_ok e Hs)) as (s' & E & I). exists s'. split; [done|]. intros cid c Hc Hready.
  destruct (io_conns _ _ I cid c Hc) as ((qd & C & _) & _). pose proof (ok_stream _ _ _ _ _ _ _ C) as Es. rewrite app_nil_r in Es. rewrite Es. cbv zeta. clear - Hready.
  induction Hready as [|a l Ha _ [IH1 IH2]]; [done|]. destruct (encode_replies (fst a) Ha) as (bs & E1 & E2 & E3). cbn [map concat]. rewrite map_app, concat_app, <- E2, IH2. split; [by apply list.Forall_app|].
  unfold enc at 1. cbn [h_encode tdhs_service]. by rewrite E1.
Qed.
End service.

(** ** A small service

    Deletions are answered by the I/O thread, other requests by a request thread,
    with a packet of one byte and the sequence number of the request. *)

Abbreviation demo_chain := (list TdhsProtocol.tdhs_packet_t * list Z)%type.
Definition demo_reply (c : demo_chain) : demo_chain :=
  match fst c with
  | p :: _ => ([TdhsProtocol.Packet 200 (TdhsProtocol.seq_id p) 0 1 0 (Some (replicate 20 0 ++ [42])) TdhsDefine.zero_request 0 None], [])
  | [] => ([], [])
  end.
Definition demo_dispatch (h : unit) (c : demo_chain) : unit * processed demo_chain :=
  (h, match fst c with p :: _ => if TdhsProtocol.command_id_or_response_code p =? TdhsDefine.REQUEST_TYPE_DELETE then Replied (demo_reply c) else Pushed 1 | [] => Refused end).
Definition demo_execute (h : unit) (c : demo_chain) : unit * worked demo_chain := (h, Answer (demo_reply c)).
Definition demo_tdhs : IoHandler demo_chain unit := tdhs_service EasyPool.demo_pool 5 demo_dispatch demo_execute.

(** A deletion and a request of another kind. *)
Definition demo_stream : list Z := TdhsProtocol.frame_bytes TdhsProtocol.demo_frame ++ TdhsProtocol.frame_bytes (TdhsProtocol.Frame TdhsProtocol.TDHS_MAGIC_CODE TdhsDefine.REQUEST_TYPE_GET 8 0 [4; 5]).

Definition demo_conn : @easy_connection_t demo_chain := Conn {[ 0%nat := Message [] 1 0 0 [] [] [] 0 ]} 1 [0%nat] [] [] 0 EASY_CONN_OK 0 0 false false false [] [].


Lemma demo_tdhs_no_stream : @no_stream _ _ demo_tdhs.
Proof. by intros h p. Qed.

(** The second request comes in two reads, and is answered after the first. *)
Definition demo_run : list event := [Accept 0; Readable 0 (take 30 demo_stream); Readable 0 (drop 30 demo_stream); TaskWakeup 1; TaskStep 1; Answers; Writable 0].

Lemma tdhs_replies_witness : (exists s', @run _ _ demo_tdhs demo_run (Io ∅ demo_env) = Some s' /\
    forall cid c, conns s' !! cid = Some c -> Forall (fun a => Forall reply_ready (fst a)) (answers c) ->
      let frames := concat (map (fun a => map reply_frame (fst a)) (answers c)) in
      Forall TdhsProtocol.frame_ok frames /\ sent c ++ concat (map data (output c)) = concat (map TdhsProtocol.frame_bytes frames)) /\
  (s ← @run _ _ demo_tdhs demo_run (Io ∅ demo_env); c ← conns s !! 0%nat; Some (sent c ++ concat (map data (output c)))) =
    Some (concat (map TdhsProtocol.frame_bytes [TdhsProtocol.Frame TdhsProtocol.TDHS_MAGIC_CODE 200 7 0 [42]; TdhsProtocol.Frame TdhsProtocol.TDHS_MAGIC_CODE 200 8 0 [42]])).
Proof. split; [exact (tdhs_replies EasyPool.demo_pool 5 demo_dispatch demo_execute demo_env demo_run demo_tdhs_no_stream demo_env_started)|vm_compute; reflexivity]. Defined.

End TdhsServer.
