(* ===== verification/TdhsDecode.v ===== *)
(** * TDHSocket/tdh_socket_decode_request_binary{,_v2}.cpp: request decoding

    The two versions of the binary protocol share their format and differ in
    where the keys of a condition are kept: version 1 in the ten places of the
    request, version 2 in an array of the message's pool when there are more.
    The functions below take the difference as a [version]; the two source
    files contain the same text otherwise. *)

From Stdlib Require Import ZArith Lia.
From stdpp Require Import base list numbers option.
From S2P Require Import Prelude EasyPool TdhsDefine TdhsRead.

Local Open Scope Z_scope.
Local Open Scope easy_scope.

Module TdhsDecode.
Import TdhsDefine TdhsRead.

Definition ERROR_OUT_OF_IN : Z := -100.

(** The request, the pool of the message, and the local variable [outOfIn]. *)
Record denv (S : Type) := Env { rq : tdhs_request_t; pl : S; outOfIn : bool }.
Arguments Env {_}.
Arguments rq {_}.
Arguments pl {_}.
Arguments outOfIn {_}.

Definition on_rq {S} (f : tdhs_request_t -> tdhs_request_t) (e : denv S) : denv S :=
  Env (f (rq e)) (pl e) (outOfIn e).
Definition set_outOfIn {S} (b : bool) (e : denv S) : denv S := Env (rq e) (pl e) b.

Section decode.
Context {S : Type}.

(** ** The strings of a request, as objects of the environment *)

Abbreviation upd := ((tdhs_string_t -> tdhs_string_t) -> denv S -> option (denv S)).

Definition u_db : upd := fun f e => Some (on_rq (on_table (on_db f)) e).
Definition u_table : upd := fun f e => Some (on_rq (on_table (on_table_name f)) e).
Definition u_index : upd := fun f e => Some (on_rq (on_table (on_index f)) e).
Definition u_field (i : Z) : upd := fun f e => Some (on_rq (on_table (on_fields (alter f (Z.to_nat i)))) e).
Definition u_filter_field (i : Z) : upd :=
  fun f e => Some (on_rq (on_get (on_filter (on_field (alter f (Z.to_nat i))))) e).
Definition u_filter_value (i : Z) : upd :=
  fun f e => Some (on_rq (on_get (on_filter (on_filter_value (alter f (Z.to_nat i))))) e).
Definition u_value (i : Z) : upd := fun f e => Some (on_rq (on_values (on_value (alter f (Z.to_nat i)))) e).
(** A variable on the stack that is not used afterwards. *)
Definition u_temp : upd := fun _ e => Some e.
(** [keys[i].key[j]] and [temp_key.key[j]]: nothing tests [j] against the ten
    elements of the array. *)
Definition u_key (i j : Z) : upd := fun f e =>
  if j <? Z.of_nat REQUEST_MAX_KEY_NUM
  then Some (on_rq (on_get (on_key_array (alter (on_key (alter f (Z.to_nat j))) (Z.to_nat i)))) e)
  else None.
Definition u_temp_key (j : Z) : upd := fun _ e =>
  if j <? Z.of_nat REQUEST_MAX_KEY_NUM then Some e else None.

(** [keys[i].key_field_num = n], for an [i] in the array. *)
Definition put_key_field_num (i n : Z) (e : denv S) : option (denv S) :=
  if i <? Z.of_nat (length (key_array (get (rq e))))
  then Some (on_rq (on_get (on_key_array (alter (set_key_field_num n) (Z.to_nat i)))) e)
  else None.

(** ** The two versions *)

Record version := Version {
  (** the array for [key_num] keys, how many of them are kept, and the pool *)
  choose_keys : Z -> S -> keys_ref * Z * S;
  (** is more than that with [TDHS_IN] an error of its own *)
  in_check : bool }.

Definition keys_v1 (key_num : Z) (s : S) : keys_ref * Z * S := (RKeys, Z.of_nat REQUEST_MAX_KEY_NUM, s).
Definition v1 : version := Version keys_v1 false.

(** The size of the array is computed in 64 bits and passed as [uint32_t]. *)
Definition keys_v2 `{EasyPool.PoolOps S} (key_num : Z) (s : S) : keys_ref * Z * S :=
  if key_num <=? Z.of_nat REQUEST_MAX_IN_NUM then (RKeys, Z.of_nat REQUEST_MAX_IN_NUM, s)
  else
    let n := u32 (sizeof_tdhs_get_key_t * key_num) in
    match EasyPool.p_alloc s n with
    | (None, s) => (RKeys, Z.of_nat REQUEST_MAX_IN_NUM, s)
    | (Some a, s) => (PoolKeys a (replicate (Z.to_nat (n / sizeof_tdhs_get_key_t)) zero_key), key_num, s)
    end.
Definition v2 `{EasyPool.PoolOps S} : version := Version keys_v2 true.

(** ** The decoding functions *)

Variable data : list Z.
Variable v : version.

Definition decode_field (i : Z) : M (denv S) unit :=
  if i <? Z.of_nat REQUEST_MAX_FIELD_NUM then read_string data (u_field i)
  else read_string data u_temp.

Definition decode_index : M (denv S) unit :=
  n <- read_uint32 data ;;
  modify (on_rq (on_table (on_index (set_len n)))) ;;
  if 0 <? n then chars data u_index n
  else modify (on_rq (on_table (on_index (fun _ => Str PRIMARY PRIMARY_SIZE)))).

Definition decode_fields : M (denv S) unit :=
  n <- read_uint32 data ;;
  modify (on_rq (on_table (set_field_num n))) ;;
  for_loop decode_field n.

Definition _decode_to_table_info (need_field : bool) : M (denv S) unit :=
  read_string data u_db ;;
  read_string data u_table ;;
  decode_index ;;
  decode_fields ;;
  rc <- inspect (fun e => table_is_vaild (table_info (rq e)) need_field) ;;
  check EASY_ERROR (rc =? EASY_OK).

(** [set_flag] of the filter and of the values. *)
Definition set_filter_flag (i tmp8 : Z) : M (denv S) unit :=
  r <- inspect (fun e => filter_set_flag (Z.to_nat i) tmp8 (get_filter (get (rq e)))) ;;
  match r with
  | None => return_ EASY_ERROR
  | Some x => modify (on_rq (on_get (on_filter (fun _ => x))))
  end.

Definition set_value_flag (i tmp8 : Z) : M (denv S) unit :=
  r <- inspect (fun e => values_set_flag (Z.to_nat i) tmp8 (values (rq e))) ;;
  match r with
  | None => return_ EASY_ERROR
  | Some x => modify (on_rq (on_values (fun _ => x)))
  end.

Definition decode_filter_entry (i : Z) : M (denv S) unit :=
  if i <? Z.of_nat REQUEST_MAX_FIELD_NUM then
    read_string data (u_filter_field i) ;;
    tmp8 <- read_uint8 data ;;
    set_filter_flag i tmp8 ;;
    read_string data (u_filter_value i)
  else
    read_string data u_temp ;;
    tmp8 <- read_uint8 data ;;
    read_string data u_temp.

Definition _decode_to_filter : M (denv S) unit :=
  n <- read_uint32 data ;;
  modify (on_rq (on_get (on_filter (set_filter_num n)))) ;;
  for_loop decode_filter_entry n.

Definition decode_key (in_limit i : Z) : M (denv S) unit :=
  if i <? in_limit then
    n <- read_uint32 data ;;
    modify_or Keys (put_key_field_num i n) ;;
    for_loop (fun j => read_string data (u_key i j)) n
  else
    modify (set_outOfIn true) ;;
    n <- read_uint32 data ;;
    for_loop (fun j => read_string data (u_temp_key j)) n.

Definition set_keys_of (n : Z) (e : denv S) : denv S :=
  Env (on_get (set_keys (choose_keys v n (pl e)).1.1) (rq e)) (choose_keys v n (pl e)).2 (outOfIn e).

Definition decode_keys : M (denv S) unit :=
  n <- read_uint32 data ;;
  modify (on_rq (on_get (set_key_num n))) ;;
  in_limit <- inspect (fun e => (choose_keys v n (pl e)).1.2) ;;
  modify (set_keys_of n) ;;
  for_loop (decode_key in_limit) n.

Definition decode_range : M (denv S) unit :=
  tmp8 <- read_uint8 data ;;
  modify (on_rq (on_get (set_find_flag tmp8))) ;;
  start <- read_uint32 data ;;
  modify (on_rq (on_get (set_start start))) ;;
  limit <- read_uint32 data ;;
  modify (on_rq (on_get (set_limit limit))).

Definition check_condition : M (denv S) unit :=
  e <- inspect (fun e => e) ;;
  check ERROR_OUT_OF_IN (negb (in_check v && outOfIn e && (find_flag (get (rq e)) =? TDHS_IN))) ;;
  check ERROR_OUT_OF_IN (negb ((key_num (get (rq e)) <? 2) && (find_flag (get (rq e)) =? TDHS_BETWEEN))) ;;
  match get_is_vaild (get (rq e)) with
  | None => fun _ => Crash Keys
  | Some rc => check EASY_ERROR (rc =? EASY_OK)
  end.

(** Keys, operator, range and filter: the part of _decode_to_get and of
    decode_to_delete_or_count after the table. *)
Definition decode_condition : M (denv S) unit :=
  decode_keys ;;
  decode_range ;;
  check_condition ;;
  must _decode_to_filter.

Definition _decode_to_get : M (denv S) unit :=
  must (_decode_to_table_info true) ;;
  decode_condition.

(** [if (read_len != 0) return EASY_ERROR;] *)
Definition at_end : M (denv S) unit :=
  fun s => if read_len s =? 0 then Next tt s else Return EASY_ERROR s.

Definition decode_to_get : M (denv S) unit := must _decode_to_get ;; at_end.

Definition decode_value (i : Z) : M (denv S) unit :=
  if i <? Z.of_nat REQUEST_MAX_FIELD_NUM then
    tmp8 <- read_uint8 data ;;
    set_value_flag i tmp8 ;;
    read_string data (u_value i)
  else
    tmp8 <- read_uint8 data ;;
    read_string data u_temp.

(** The part decode_to_update and decode_to_insert have in common. *)
Definition start_values (n : Z) : M (denv S) unit :=
  modify (on_rq (on_values (set_value_num n))) ;;
  fields <- inspect (fun e => field_num (table_info (rq e))) ;;
  check EASY_ERROR (n =? fields).

Definition decode_values : M (denv S) unit :=
  n <- read_uint32 data ;;
  start_values n ;;
  for_loop decode_value n.

Definition decode_to_update : M (denv S) unit := must _decode_to_get ;; decode_values ;; at_end.

Definition decode_to_delete_or_count : M (denv S) unit :=
  must (_decode_to_table_info false) ;;
  decode_condition ;;
  at_end.

Definition decode_to_insert : M (denv S) unit :=
  must (_decode_to_table_info false) ;;
  decode_values ;;
  at_end.

(** The switch over the request types that are not a batch. *)
Definition decode_single (type : Z) : M (denv S) unit :=
  if type =? REQUEST_TYPE_GET then decode_to_get
  else if type =? REQUEST_TYPE_COUNT then decode_to_delete_or_count
  else if type =? REQUEST_TYPE_UPDATE then decode_to_update
  else if type =? REQUEST_TYPE_DELETE then decode_to_delete_or_count
  else if type =? REQUEST_TYPE_INSERT then decode_to_insert
  else return_ EASY_ERROR.

End decode.
Arguments Version {_}.
Arguments version : clear implicits.
End TdhsDecode.
