(* ===== verification/TdhsFormat.v ===== *)
(** * The request format of the TDHS binary protocol

    A reference description of the protocol, independent of the decoder: what a
    request says, how it is written, and what it means that a decoded request
    structure says the same. *)

From Stdlib Require Import ZArith Lia.
From stdpp Require Import base list numbers option.
From S2P Require Import Prelude TdhsDefine TdhsRead TdhsDecode.

Local Open Scope Z_scope.

Module TdhsFormat.
Import TdhsDefine TdhsRead TdhsDecode.

(** ** Requests *)

Record table_v := TableV {
  t_db : list Z; t_table : list Z; t_index : list Z; t_fields : list (list Z) }.
Record filter_v := FilterV { f_field : list Z; f_flag : Z; f_value : list Z }.
Record cond_v := CondV {
  c_keys : list (list (list Z)); c_flag : Z; c_start : Z; c_limit : Z; c_filters : list filter_v }.
Record value_v := ValueV { v_flag : Z; v_value : list Z }.

Inductive request_v :=
  | GetV (t : table_v) (c : cond_v)
  | CountV (t : table_v) (c : cond_v)
  | UpdateV (t : table_v) (c : cond_v) (vs : list value_v)
  | DeleteV (t : table_v) (c : cond_v)
  | InsertV (t : table_v) (vs : list value_v).

Definition type_of (r : request_v) : Z :=
  match r with
  | GetV _ _ => REQUEST_TYPE_GET
  | CountV _ _ => REQUEST_TYPE_COUNT
  | UpdateV _ _ _ => REQUEST_TYPE_UPDATE
  | DeleteV _ _ => REQUEST_TYPE_DELETE
  | InsertV _ _ => REQUEST_TYPE_INSERT
  end.
Definition table_of (r : request_v) : table_v :=
  match r with GetV t _ | CountV t _ | UpdateV t _ _ | DeleteV t _ | InsertV t _ => t end.
Definition cond_of (r : request_v) : option cond_v :=
  match r with GetV _ c | CountV _ c | UpdateV _ c _ | DeleteV _ c => Some c | InsertV _ _ => None end.
Definition values_of (r : request_v) : option (list value_v) :=
  match r with UpdateV _ _ vs | InsertV _ vs => Some vs | _ => None end.

(** ** Encodings *)

Definition enc_list {A} (en : A -> list Z) (l : list A) : list Z := htonl_bytes (count l) ++ concat (map en l).
Definition enc_table (t : table_v) : list Z :=
  enc_str (t_db t) ++ enc_str (t_table t) ++ enc_str (t_index t) ++ enc_list enc_str (t_fields t).
Definition enc_key (k : list (list Z)) : list Z := enc_list enc_str k.
Definition enc_filter (f : filter_v) : list Z := enc_str (f_field f) ++ [f_flag f] ++ enc_str (f_value f).
Definition enc_cond (c : cond_v) : list Z :=
  enc_list enc_key (c_keys c) ++ [c_flag c] ++ htonl_bytes (c_start c) ++ htonl_bytes (c_limit c) ++
  enc_list enc_filter (c_filters c).
Definition enc_value (x : value_v) : list Z := [v_flag x] ++ enc_str (v_value x).
Definition enc_request (r : request_v) : list Z :=
  match r with
  | GetV t c | CountV t c | DeleteV t c => enc_table t ++ enc_cond c
  | UpdateV t c vs => enc_table t ++ enc_cond c ++ enc_list enc_value vs
  | InsertV t vs => enc_table t ++ enc_list enc_value vs
  end.

(** ** Validity *)

Definition all_ok {A} (P : Z -> A -> Prop) (l : list A) : Prop :=
  count l < 2 ^ 32 /\ forall i x, l !! i = Some x -> P (Z.of_nat i) x.

Definition table_ok (need_field : bool) (t : table_v) : Prop :=
  str_ok (t_db t) /\ str_ok (t_table t) /\ str_ok (t_index t) /\ all_ok (fun _ => str_ok) (t_fields t) /\
  t_db t <> [] /\ t_table t <> [] /\ (need_field = true -> t_fields t <> []).

(** A key has one to ten components. *)
Definition key_ok (k : list (list Z)) : Prop :=
  0 < count k <= Z.of_nat REQUEST_MAX_KEY_NUM /\ all_ok (fun _ => str_ok) k.

(** The operator of an entry beyond the 256 that are kept is not looked at. *)
Definition filter_ok (i : Z) (f : filter_v) : Prop :=
  str_ok (f_field f) /\ str_ok (f_value f) /\ 0 <= f_flag f < 2 ^ 8 /\
  (i < Z.of_nat REQUEST_MAX_FIELD_NUM -> f_flag f < TDHS_FILTER_END).

Definition cond_ok (c : cond_v) : Prop :=
  all_ok (fun _ => key_ok) (c_keys c) /\ c_keys c <> [] /\ 0 <= c_flag c < TDHS_READ_END /\
  0 <= c_start c < 2 ^ 32 /\ 0 <= c_limit c < 2 ^ 32 /\ all_ok filter_ok (c_filters c) /\
  (c_flag c = TDHS_BETWEEN -> 2 <= count (c_keys c)).

Definition value_ok (i : Z) (x : value_v) : Prop :=
  str_ok (v_value x) /\ 0 <= v_flag x < 2 ^ 8 /\
  (i < Z.of_nat REQUEST_MAX_FIELD_NUM -> v_flag x < TDHS_UPDATE_END).

Definition values_ok (t : table_v) (vs : list value_v) : Prop :=
  all_ok value_ok vs /\ count vs = count (t_fields t).

Definition request_ok (r : request_v) : Prop :=
  match r with
  | GetV t c => table_ok true t /\ cond_ok c
  | CountV t c | DeleteV t c => table_ok false t /\ cond_ok c
  | UpdateV t c vs => table_ok true t /\ cond_ok c /\ values_ok t vs
  | InsertV t vs => table_ok false t /\ values_ok t vs
  end.

(** ** Meaning of the structures *)

Section holds.
(** The bytes of the message. *)
Variable data : list Z.

(** The object [x] is the string [s]. *)
Definition holds (s : list Z) (x : tdhs_string_t) : Prop :=
  len x = count s /\
  (s = [] -> str x = NULL_STRING) /\
  (s <> [] -> exists o, str x = At o /\ 0 <= o /\ take (length s) (drop (Z.to_nat o) data) = s).

(** The first [n] elements of an array are those of a list, as far as it goes. *)
Definition array_holds {A B} (n : nat) (P : A -> B -> Prop) (l : list A) (xs : list B) : Prop :=
  forall i a, l !! i = Some a -> (i < n)%nat -> exists x, xs !! i = Some x /\ P a x.

Definition table_holds (t : table_v) (x : tdhs_request_table_t) : Prop :=
  holds (t_db t) (db x) /\ holds (t_table t) (table x) /\
  (t_index t = [] -> index x = Str PRIMARY PRIMARY_SIZE) /\ (t_index t <> [] -> holds (t_index t) (index x)) /\
  field_num x = count (t_fields t) /\ array_holds REQUEST_MAX_FIELD_NUM holds (t_fields t) (fields x).

Definition key_holds (k : list (list Z)) (x : tdhs_get_key_t) : Prop :=
  key_field_num x = count k /\ array_holds REQUEST_MAX_KEY_NUM holds k (key x).

Definition filter_holds (l : list filter_v) (x : tdhs_filter_t) : Prop :=
  filter_num x = count l /\
  array_holds REQUEST_MAX_FIELD_NUM (fun f => holds (f_field f)) l (field x) /\
  array_holds REQUEST_MAX_FIELD_NUM (fun f => eq (f_flag f)) l (filter_flag x) /\
  array_holds REQUEST_MAX_FIELD_NUM (fun f => holds (f_value f)) l (filter_value x).

Definition cond_holds (c : cond_v) (x : tdhs_request_get_t) : Prop :=
  key_num x = count (c_keys c) /\
  array_holds (length (c_keys c)) key_holds (c_keys c) (key_array x) /\
  find_flag x = c_flag c /\ start x = c_start c /\ limit x = c_limit c /\
  filter_holds (c_filters c) (get_filter x).

Definition values_holds (l : list value_v) (x : tdhs_request_values_t) : Prop :=
  value_num x = count l /\
  array_holds REQUEST_MAX_FIELD_NUM (fun f => eq (v_flag f)) l (flag x) /\
  array_holds REQUEST_MAX_FIELD_NUM (fun f => holds (v_value f)) l (value x).

Definition request_holds (r : request_v) (x : tdhs_request_t) : Prop :=
  table_holds (table_of r) (table_info x) /\
  (forall c, cond_of r = Some c -> cond_holds c (get x)) /\
  (forall vs, values_of r = Some vs -> values_holds vs (values x)).
End holds.

(** The arrays of a request structure have their declared lengths. *)
Definition shaped (q : tdhs_request_t) : Prop :=
  length (fields (table_info q)) = REQUEST_MAX_FIELD_NUM /\
  length (field (get_filter (get q))) = REQUEST_MAX_FIELD_NUM /\
  length (filter_flag (get_filter (get q))) = REQUEST_MAX_FIELD_NUM /\
  length (filter_value (get_filter (get q))) = REQUEST_MAX_FIELD_NUM /\
  length (flag (values q)) = REQUEST_MAX_FIELD_NUM /\
  length (value (values q)) = REQUEST_MAX_FIELD_NUM /\
  length (r_keys (get q)) = REQUEST_MAX_IN_NUM /\
  Forall (fun k => length (key k) = REQUEST_MAX_KEY_NUM) (r_keys (get q)).

Lemma zero_request_shaped : shaped zero_request.
Proof. repeat split; try done. by apply Forall_replicate. Qed.

End TdhsFormat.
