(* ===== verification/TdhsDecodeProofs.v ===== *)
(** * The decoders read the format exactly

    For each decoding function a [format] of the values of TdhsFormat.v: the
    function accepts the encodings of valid values and nothing else, and stores
    what they say. *)

From Stdlib Require Import ZArith Lia.
From stdpp Require Import base list numbers option.
From S2P Require Import Prelude TdhsDefine TdhsRead TdhsDecode TdhsFormat.

Local Open Scope Z_scope.
Local Open Scope easy_scope.

Module TdhsDecodeProofs.
Import TdhsDefine TdhsRead TdhsDecode TdhsFormat.

(** ** Loops whose rounds store into one object *)

(** The values of a sequence with the positions of their encodings. *)
Fixpoint offs {X} (en : X -> list Z) (p : Z) (xs : list X) : list (Z * X) :=
  match xs with
  | [] => []
  | x :: xs => (p, x) :: offs en (p + count (en x)) xs
  end.

Fixpoint steps {V T} (step : Z -> V -> T -> T) (i : Z) (vs : list V) (t : T) : T :=
  match vs with
  | [] => t
  | v :: vs => steps step (i + 1) vs (step i v t)
  end.

Section loop_forms.
Context {Σ X T : Type}.
Variables (F : Z -> format Σ X unit) (en : X -> list Z) (J : Σ -> Prop) (W : Z -> X -> Prop).
Variables (n : Z) (L : (T -> T) -> Σ -> Σ) (step : Z -> Z * X -> T -> T).
Hypothesis Hwf : forall i x p e, 0 <= i < n -> J e -> wf (F i) x p e <-> W i x.
Hypothesis HJ : forall i x p e, 0 <= i < n -> J e -> W i x -> J (eff (F i) x p e).

Lemma loop_wf_iff xs i p e : 0 <= i -> J e ->
  loop_wf F en i n xs p e <->
  length xs = Z.to_nat (n - i) /\ forall k x, xs !! k = Some x -> W (i + Z.of_nat k) x.
Proof.
  revert i p e. induction xs as [|x xs IH]; intros i p e Hi Je; cbn [loop_wf length].
  { split; [intros Hn; split; [lia|done]|intros [Hn _]; lia]. }
  split.
  - intros (Hin & Hx & Hxs). apply Hwf in Hx; [|lia|done].
    apply IH in Hxs as [Hl Hall]; [|lia|by apply HJ]. split; [lia|]. intros [|k] y Hy; cbn in Hy.
    + injection Hy as <-. by rewrite Z.add_0_r.
    + replace (i + Z.of_nat (S k)) with (i + 1 + Z.of_nat k) by lia. by apply Hall.
  - intros [Hl Hall]. assert (W i x) as Hx by (rewrite <- (Z.add_0_r i); by apply (Hall 0%nat)).
    split_and!; [lia|apply Hwf; [lia|done|done]|]. apply IH; [lia|apply HJ; [lia|done..]|]. split; [lia|].
    intros k y Hy. replace (i + 1 + Z.of_nat k) with (i + Z.of_nat (S k)) by lia. by apply Hall.
Qed.

Lemma loop_J xs i p e : 0 <= i -> J e -> loop_wf F en i n xs p e -> J (loop_eff F en i xs p e).
Proof.
  revert i p e. induction xs as [|x xs IH]; intros i p e Hi Je; cbn [loop_wf loop_eff]; [done|].
  intros (Hin & Hx & Hxs). apply IH; [lia| |done]. apply HJ; [lia|done|]. by apply Hwf in Hx; [|lia|].
Qed.

Hypothesis Lid : forall e, J e -> L (fun t => t) e = e.
Hypothesis LL : forall f g e, J e -> L f (L g e) = L (fun t => f (g t)) e.
Hypothesis Heff : forall i x p e, 0 <= i < n -> J e -> W i x -> eff (F i) x p e = L (step i (p, x)) e.

Lemma loop_eff_eq xs i p e : 0 <= i -> J e -> loop_wf F en i n xs p e ->
  loop_eff F en i xs p e = L (steps step i (offs en p xs)) e.
Proof.
  revert i p e. induction xs as [|x xs IH]; intros i p e Hi Je; cbn [loop_wf loop_eff offs steps].
  { intros _. symmetry. by apply Lid. }
  intros (Hin & Hx & Hxs). pose proof Hx as Hx'. apply Hwf in Hx'; [|lia|done].
  rewrite IH; [|lia|apply HJ; [lia|done..]|done]. rewrite Heff by (done || lia). by rewrite LL.
Qed.
End loop_forms.

Lemma unit_eq (a b : unit) : a = b.
Proof. by destruct a, b. Qed.

(** ** Storing into arrays *)

Definition put_at {V A} (lim : nat) (g : V -> A) (i : Z) (v : V) (l : list A) : list A :=
  if i <? Z.of_nat lim then <[Z.to_nat i := g v]> l else l.

Lemma steps_put_length {V A} lim (g : V -> A) i vs l : length (steps (put_at lim g) i vs l) = length l.
Proof.
  revert i l. induction vs as [|v vs IH]; intros i l; cbn [steps]; [done|]. rewrite IH. unfold put_at.
  destruct (_ <? _); [apply length_insert|done].
Qed.

Lemma steps_put_before {V A} lim (g : V -> A) i vs l k : 0 <= i -> Z.of_nat k < i ->
  steps (put_at lim g) i vs l !! k = l !! k.
Proof.
  revert i l. induction vs as [|v vs IH]; intros i l Hi Hk; cbn [steps]; [done|]. rewrite IH by lia.
  unfold put_at. destruct (_ <? _); [|done]. rewrite list_lookup_insert_ne by lia. done.
Qed.

Lemma steps_put_lookup {V A} lim (g : V -> A) vs i l k v : 0 <= i -> vs !! k = Some v ->
  (Z.to_nat i + k < lim)%nat -> (Z.to_nat i + k < length l)%nat ->
  steps (put_at lim g) i vs l !! (Z.to_nat i + k)%nat = Some (g v).
Proof.
  revert i l k. induction vs as [|w vs IH]; intros i l k Hi Hk Hlim Hl; [done|]. cbn [steps].
  destruct k as [|k]; cbn in Hk.
  - injection Hk as ->. rewrite steps_put_before by lia. unfold put_at.
    destruct (Z.ltb_spec i (Z.of_nat lim)); [|lia]. rewrite Nat.add_0_r in *. by rewrite list_lookup_insert_eq by lia.
  - replace (Z.to_nat i + S k)%nat with (Z.to_nat (i + 1) + k)%nat in * by lia. apply IH; try done; try lia.
    unfold put_at. destruct (_ <? _); rewrite ?length_insert; done.
Qed.

Lemma offs_lookup {X} (en : X -> list Z) p xs k o x : offs en p xs !! k = Some (o, x) -> xs !! k = Some x.
Proof.
  revert p k. induction xs as [|y xs IH]; intros p [|k] H; cbn in *; [done|done| |by eapply IH]. by injection H as -> ->.
Qed.

Lemma offs_is_Some {X} (en : X -> list Z) p xs k x : xs !! k = Some x -> exists o, offs en p xs !! k = Some (o, x).
Proof.
  revert p k. induction xs as [|y xs IH]; intros p [|k] H; cbn in *; [done|done| |by eapply IH].
  injection H as ->. by eexists.
Qed.

Lemma alter_const {A} (x : A) i (l : list A) : alter (fun _ => x) i l = <[i := x]> l.
Proof. revert i. induction l as [|y l IH]; intros [|i]; cbn; [done..|]. f_equal. apply IH. Qed.

(** ** The objects strings are read into *)
Section lenses.
Context {S : Type}.
Implicit Types e : denv S.

Ltac lens := split;
  [intros f g e [e' He]; unfold u_key, u_temp_key in *; repeat case_match; try done; by eexists
  |intros f g [q s o] e' He; unfold u_key, u_temp_key in *; repeat case_match; try done;
   injection He as <-; cbn; unfold on_rq; cbn; try done].

#[export] Instance lens_db : Lens (Σ := denv S) u_db.
Proof. lens. Qed.
#[export] Instance lens_table : Lens (Σ := denv S) u_table.
Proof. lens. Qed.
#[export] Instance lens_index : Lens (Σ := denv S) u_index.
Proof. lens. Qed.
#[export] Instance lens_temp : Lens (Σ := denv S) u_temp.
Proof. lens. Qed.
#[export] Instance lens_temp_key j : Lens (Σ := denv S) (u_temp_key j).
Proof. lens. Qed.

Lemma alter_alter {A} (f g : A -> A) i (l : list A) : alter f i (alter g i l) = alter (fun x => f (g x)) i l.
Proof. revert i. induction l as [|x l IH]; intros [|i]; cbn; [done..|]. f_equal. apply IH. Qed.

#[export] Instance lens_field i : Lens (Σ := denv S) (u_field i).
Proof. lens. unfold u_field, on_rq, on_table, on_fields. cbn. by rewrite alter_alter. Qed.
#[export] Instance lens_filter_field i : Lens (Σ := denv S) (u_filter_field i).
Proof. lens. unfold u_filter_field, on_rq, on_get, on_filter, on_field. cbn. by rewrite alter_alter. Qed.
#[export] Instance lens_filter_value i : Lens (Σ := denv S) (u_filter_value i).
Proof. lens. unfold u_filter_value, on_rq, on_get, on_filter, on_filter_value. cbn. by rewrite alter_alter. Qed.
#[export] Instance lens_value i : Lens (Σ := denv S) (u_value i).
Proof. lens. unfold u_value, on_rq, on_values, on_value. cbn. by rewrite alter_alter. Qed.

Lemma on_key_array_twice f g x : on_key_array f (on_key_array g x) = on_key_array (fun l => f (g l)) x.
Proof. unfold on_key_array. destruct x as [n [| |a ks] r ff fl s l]; done. Qed.

Lemma on_key_array_ext f g x : (forall l, f l = g l) -> on_key_array f x = on_key_array g x.
Proof. intros H. unfold on_key_array. destruct (keys x); by rewrite ?H. Qed.

Lemma alter_ext {A} (f g : A -> A) i (l : list A) : (forall x, f x = g x) -> alter f i l = alter g i l.
Proof. intros H. revert i. induction l as [|x l IH]; intros [|i]; cbn; [done..| |]; f_equal; auto. Qed.

Lemma alter_id {A} (f : A -> A) i (l : list A) : (forall x, f x = x) -> alter f i l = l.
Proof. intros H. revert i. induction l as [|x l IH]; intros [|i]; cbn; [done..| |]; f_equal; auto. Qed.

Lemma keys_twice f g e : on_rq (on_get (on_key_array f)) (on_rq (on_get (on_key_array g)) e) =
  on_rq (on_get (on_key_array (fun l => f (g l)))) e.
Proof. destruct e as [[? ? ? [? [] ? ? ? ? ?] ? ?] ? ?]; done. Qed.

Lemma keys_ext f g e : (forall l, f l = g l) ->
  on_rq (on_get (on_key_array f)) e = on_rq (on_get (on_key_array g)) e.
Proof. intros H. unfold on_rq, on_get. by rewrite (on_key_array_ext f g). Qed.

Lemma keys_id f e : (forall l, f l = l) -> on_rq (on_get (on_key_array f)) e = e.
Proof.
  intros H. rewrite (keys_ext f (fun l => l)) by done. destruct e as [[? ? ? [? [] ? ? ? ? ?] ? ?] ? ?]; done.
Qed.

#[export] Instance lens_key i j : Lens (Σ := denv S) (u_key i j).
Proof.
  lens. unfold on_get. cbn. rewrite on_key_array_twice. do 3 f_equal. apply on_key_array_ext. intros l.
  rewrite alter_alter. unfold on_key. cbn. revert l. induction (Z.to_nat i) as [|k IH]; intros [|x l]; cbn; try done.
  - by rewrite alter_alter.
  - f_equal. apply IH.
Qed.
End lenses.

(** ** Counted sequences *)

Definition f_pre {Σ} (ok : Z -> Σ -> Prop) (g : Z -> Σ -> Σ) (n : Z) : format Σ unit unit :=
  Format (fun _ => []) (fun _ _ e => ok n e) (fun _ _ e => g n e) (fun _ => tt).

Definition f_counted {Σ X T} (en : X -> list Z) (W : Z -> X -> Prop) (ok : Z -> Σ -> Prop) (g : Z -> Σ -> Σ)
    (L : (T -> T) -> Σ -> Σ) (step : Z -> Z * X -> T -> T) : format Σ (list X) unit :=
  Format (enc_list en)
    (fun xs _ e => all_ok W xs /\ ok (count xs) e)
    (fun xs p e => L (steps step 0 (offs en (p + 4) xs)) (g (count xs) e))
    (fun _ => tt).

Lemma count_to_nat {X} (xs : list X) n : 0 <= n -> length xs = Z.to_nat (n - 0) -> n = count xs.
Proof. unfold count. lia. Qed.

Lemma exact_counted {Σ X T} data (pre : Z -> M Σ unit) (body : Z -> M Σ unit) (F : Z -> format Σ X unit) en W ok g
    (L : (T -> T) -> Σ -> Σ) step :
  bytes_ok data -> (forall n, exact data (pre n) (f_pre ok g n)) ->
  (forall i, exact data (body i) (F i)) -> (forall i, enc (F i) = en) -> (forall x, en x <> []) ->
  (forall i x p e, wf (F i) x p e <-> W i x) ->
  (forall e, L (fun t => t) e = e) -> (forall f h e, L f (L h e) = L (fun t => f (h t)) e) ->
  (forall i x p e, 0 <= i -> W i x -> eff (F i) x p e = L (step i (p, x)) e) ->
  exact data (n <- read_uint32 data ;; pre n ;; for_loop body n) (f_counted en W ok g L step).
Proof.
  intros Hd Hpre Hb Hen Hne Hwf Lid LL Heff.
  assert (forall n xs p e, loop_wf F en 0 n xs p e <->
    length xs = Z.to_nat (n - 0) /\ forall k x, xs !! k = Some x -> W (0 + Z.of_nat k) x) as Hl.
  { intros n xs p e. apply (loop_wf_iff F en (fun _ => True)); auto; lia. }
  assert (forall n xs p e, loop_wf F en 0 n xs p e -> loop_eff F en 0 xs p e = L (steps step 0 (offs en p xs)) e) as He.
  { intros n xs p e H. apply (loop_eff_eq F en (fun _ => True) W n); auto; try lia. intros. apply Heff; [lia|done]. }
  set (C := f_bind f_uint32 (fun n => f_bind (f_pre ok g n) (fun _ => f_loop F en 0 n))).
  assert (forall n xs p e, eff C (n, (tt, xs)) p e = loop_eff F en 0 xs (p + 4) (g n e)) as HC.
  { intros. unfold C, size. cbn. by rewrite Z.add_0_r. }
  eapply (exact_conv data _ C).
  - apply exact_bind; [by apply exact_uint32|]. intros n _ _ _. apply exact_bind; [apply Hpre|].
    intros _ _ _ _. by apply exact_loop.
  - intros [n [[] xs]] p e (Hn & Hg & Hxs). cbn [fst snd val f_uint32 f_pre eff wf f_loop] in *.
    assert (loop_wf F en 0 n xs (p + 4) (g n e)) as Hxs'.
    { apply Hl. by apply Hl in Hxs. }
    apply He in Hxs'. apply Hl in Hxs as [Hlen Hall].
    apply count_to_nat in Hlen as ->; [|lia]. exists xs. split_and!; try done.
    + split; [split; [apply Hn|done]|done].
    + by rewrite HC, Hxs'.
  - intros xs p e [[Hcnt Hall] Hg]. exists (count xs, (tt, xs)).
    assert (forall p e, loop_wf F en 0 (count xs) xs p e) as Hxs.
    { intros. apply Hl. split; [unfold count; lia|done]. }
    split_and!; try done.
    + split; [split; [cbn; unfold count; lia|exact Hcnt]|split; [exact Hg|apply Hxs]].
    + rewrite HC. by rewrite (He (count xs)) by apply Hxs.
Qed.

Lemma exact_pre_modify {Σ} data (g : Z -> Σ -> Σ) n : exact data (modify (g n)) (f_pre (fun _ _ => True) g n).
Proof.
  eapply exact_conv; [apply exact_modify| |]; intros [] p e _; exists tt; split_and!; try done. by eexists.
Qed.

Section formats.
Context {S : Type}.
Variable data : list Z.
Hypothesis data_ok : bytes_ok data.
Implicit Types e : denv S.

Lemma enc_str_ne s : enc_str s <> [].
Proof. done. Qed.

(** Storing strings into an array of which the first [lim] entries are kept. *)
Definition put_str (lim : nat) : Z -> Z * list Z -> list tdhs_string_t -> list tdhs_string_t :=
  put_at lim (fun ox => str_at (ox.1 + 4) ox.2).

Definition f_table_field (i : Z) : format (denv S) (list Z) unit :=
  if i <? Z.of_nat REQUEST_MAX_FIELD_NUM then f_string (u_field i) else f_string u_temp.

Lemma exact_field i : exact data (decode_field data i) (f_table_field i).
Proof. unfold decode_field, f_table_field. destruct (_ <? _); apply exact_string; done || apply _. Qed.

Definition f_table_fields : format (denv S) (list (list Z)) unit :=
  f_counted enc_str (fun _ => str_ok) (fun _ _ => True) (fun n => on_rq (on_table (set_field_num n)))
    (fun f => on_rq (on_table (on_fields f))) (put_str REQUEST_MAX_FIELD_NUM).

Lemma exact_table_fields :
  exact data (decode_fields data) f_table_fields.
Proof.
  apply (exact_counted data _ _ f_table_field); try done.
  - apply exact_pre_modify.
  - apply exact_field.
  - intros i. unfold f_table_field. by destruct (_ <? _).
  - intros i x p e. unfold f_table_field. destruct (_ <? _); cbn; split; [tauto|by eauto|tauto|by eauto].
  - by intros [[? ? [] ? ? ?] ? ?].
  - intros i x p [[? ? [] ? ? ?] ? ?] Hi _. unfold f_table_field, put_str, put_at. destruct (_ <? _); [|done].
    cbn -[u_field alter]. unfold u_field. cbn -[alter]. unfold on_rq, on_table, on_fields. cbn -[alter].
    by rewrite alter_const.
Qed.

Definition f_index : format (denv S) (list Z) unit :=
  Format enc_str (fun s _ _ => str_ok s)
    (fun s p => on_rq (on_table (on_index (fun _ => if count s =? 0 then Str PRIMARY PRIMARY_SIZE else str_at (p + 4) s))))
    (fun _ => tt).

Definition f_index_chars (n : Z) : format (denv S) (list Z) unit :=
  if 0 <? n then f_chars u_index n
  else Format (fun s => s) (fun s _ _ => s = [])
    (fun _ _ => on_rq (on_table (on_index (fun _ => Str PRIMARY PRIMARY_SIZE)))) (fun _ => tt).

Lemma exact_index_chars n : 0 <= n < 2 ^ 32 ->
  exact data (if 0 <? n then chars data u_index n
              else modify (on_rq (on_table (on_index (fun _ => Str PRIMARY PRIMARY_SIZE))))) (f_index_chars n).
Proof.
  intros Hn. unfold f_index_chars. destruct (0 <? n); [apply exact_chars; [done|apply _|done]|].
  eapply exact_conv; [apply exact_modify| |]; cbn.
  - intros [] p e _. by exists [].
  - intros s p e ->. exists tt. split_and!; [by eexists|done..].
Qed.

Lemma exact_index : exact data (decode_index data) f_index.
Proof.
  unfold decode_index.
  set (C := f_bind f_uint32 (fun n => f_bind
    (f_modify (fun e => Some (on_rq (on_table (on_index (set_len n))) e))) (fun _ => f_index_chars n))).
  assert (forall s p e, eff C (count s, (tt, s)) p e = eff f_index s p e) as HC.
  { intros s p [[? ? [] ? ? ?] ? ?]. unfold C, size, f_index_chars, f_index, u_index, count. cbn -[Z.add Z.of_nat].
    change (Z.of_nat 0) with 0. change (Z.of_nat 4) with 4. rewrite Z.add_0_r.
    destruct s as [|x s]; [done|]. by destruct (Z.ltb_spec 0 (Z.of_nat (length (x :: s)))); [|cbn in *; lia]. }
  assert (forall s, enc f_index s = enc C (count s, (tt, s))) as HE.
  { intros s. unfold C, f_index_chars. cbn -[Z.of_nat]. by destruct (0 <? _). }
  eapply (exact_conv data _ C).
  - apply exact_bind; [by apply exact_uint32|]. intros n p e Hn.
    apply exact_bind; [apply exact_modify|]. intros _ _ _ _. by apply exact_index_chars.
  - intros [n [[] s]] p e (Hn & _ & Hs). cbn [fst snd val f_uint32] in Hs.
    assert (n = count s /\ str_ok s) as [-> Hok].
    { unfold f_index_chars in Hs. destruct (Z.ltb_spec 0 n); cbn in Hs, Hn.
      - unfold count. split; [symmetry|]; apply Hs.
      - subst s. unfold count. cbn. split; [lia|]. split_and!; [constructor|done|by left]. }
    exists s. split_and!; [done|apply HE|by rewrite HC|apply unit_eq].
  - intros s p e Hok. exists (count s, (tt, s)). split_and!; [|apply HE|by rewrite HC|apply unit_eq].
    split; [split; [unfold count; cbn; lia|apply Hok]|split; [by eexists|]].
    unfold f_index_chars, count. cbn -[Z.of_nat]. destruct (Z.ltb_spec 0 (Z.of_nat (length s))); cbn.
    + split_and!; [done|done|by eexists].
    + destruct s; [done|cbn in *; lia].
Qed.

(** ** The table *)

Definition put_table (p : Z) (t : table_v) (x : tdhs_request_table_t) : tdhs_request_table_t :=
  let p2 := p + count (enc_str (t_db t)) in
  let p3 := p2 + count (enc_str (t_table t)) in
  let p4 := p3 + count (enc_str (t_index t)) in
  Table (count (t_fields t)) (str_at (p + 4) (t_db t)) (str_at (p2 + 4) (t_table t))
    (if count (t_index t) =? 0 then Str PRIMARY PRIMARY_SIZE else str_at (p3 + 4) (t_index t))
    (steps (put_str REQUEST_MAX_FIELD_NUM) 0 (offs enc_str (p4 + 4) (t_fields t)) (fields x))
    (hash_code_for_table x).

Definition f_table (need_field : bool) : format (denv S) table_v unit :=
  Format enc_table (fun t _ _ => table_ok need_field t) (fun t p => on_rq (on_table (put_table p t))) (fun _ => tt).

Lemma count_nil {A} (l : list A) : count l = 0 <-> l = [].
Proof. unfold count. split; [destruct l; [done|simpl; lia]|by intros ->]. Qed.

Lemma table_check (b : bool) (x : tdhs_request_table_t) :
  (table_is_vaild x b =? EASY_OK) = true <->
  len (db x) <> 0 /\ len (table x) <> 0 /\ (b = true -> field_num x <> 0).
Proof.
  unfold table_is_vaild. destruct (Z.eqb_spec (len (db x)) 0), (Z.eqb_spec (len (table x)) 0), b,
    (Z.eqb_spec (field_num x) 0); cbn; naive_solver.
Qed.

Lemma exact_table need : exact data (_decode_to_table_info data need) (f_table need).
Proof.
  unfold _decode_to_table_info.
  set (E := f_inspect (fun e => table_is_vaild (table_info (rq e)) need) (fun _ : unit => []) (fun _ => tt)
              (fun rc => f_check (rc =? EASY_OK))).
  set (C := f_bind (f_string u_db) (fun _ => f_bind (f_string u_table) (fun _ => f_bind f_index (fun _ =>
              f_bind f_table_fields (fun _ => E))))).
  assert (forall a b c l p e, eff C (a, (b, (c, (l, tt)))) p e = eff (f_table need) (TableV a b c l) p e) as HC.
  { intros a b c l p [[? ? [] ? ? ?] ? ?]. reflexivity. }
  assert (forall a b c l p e, table_is_vaild (table_info (rq (eff C (a, (b, (c, (l, tt)))) p e))) need =? EASY_OK = true
    <-> a <> [] /\ b <> [] /\ (need = true -> l <> [])) as HV.
  { intros a b c l p e. rewrite table_check, HC. pose proof (count_nil a). pose proof (count_nil b).
    pose proof (count_nil l). unfold count in *. cbn. tauto. }
  assert (forall a b c l, enc_table (TableV a b c l) = enc C (a, (b, (c, (l, tt))))) as HE.
  { intros. cbn. by rewrite app_nil_r. }
  eapply (exact_conv data _ C).
  - repeat (apply exact_bind; [first [apply exact_string; [done|apply _]|apply exact_index|apply exact_table_fields]|];
      intros _ _ _ _).
    apply exact_inspect; [|done..]. intros. by apply exact_check.
  - intros [a [b [c [l []]]]] p e ([Ha _] & [Hb _] & Hc & [Hl _] & Hv).
    exists (TableV a b c l). split_and!; [|apply HE|by rewrite HC|done].
    apply (HV a b c l p e) in Hv. done.
  - intros [a b c l] p e (Ha & Hb & Hc & Hl & Hv). exists (a, (b, (c, (l, tt)))).
    split_and!; [|apply HE|by rewrite HC|done].
    split; [by split; [|eexists]|]. split; [by split; [|eexists]|]. split; [done|]. split; [by split; [|eexists]|].
    by apply (HV a b c l p e).
Qed.
(** ** The filter *)

Definition f_flag_check (last : Z) (f : Z) (put : denv S -> denv S) : format (denv S) unit unit :=
  Format (fun _ => []) (fun _ _ _ => 0 <= f < last) (fun _ _ => put) (fun _ => tt).

(** [set_flag] of a structure [A] inside the request. *)
Lemma exact_flag {A} (proj : denv S -> A) (upd : (A -> A) -> denv S -> denv S) (set : A -> option A) put last f :
  (forall x, set x = if (f <? 0) || (last <=? f) then None else Some (put x)) ->
  (forall e, upd (fun _ => put (proj e)) e = upd put e) ->
  exact data (r <- inspect (fun e => set (proj e)) ;;
              match r with None => return_ EASY_ERROR | Some x => modify (upd (fun _ => x)) end)
    (f_flag_check last f (upd put)).
Proof.
  intros Hset Hupd.
  set (G := fun r : option A => match r with
    | None => f_check (Σ := denv S) false
    | Some x => f_modify (fun e => Some (upd (fun _ => x) e)) end).
  eapply (exact_conv data _ (f_inspect (fun e => set (proj e)) (fun _ : unit => []) (fun _ => tt) G)).
  - apply exact_inspect; [|by intros []..]. intros [x|]; [apply exact_modify|]. by apply (exact_check data EASY_ERROR false).
  - intros [] p e H. exists tt. cbn in *. rewrite Hset in *.
    destruct (Z.ltb_spec f 0), (Z.leb_spec last f); cbn in *; try done.
  - intros [] p e H. exists tt. cbn in *. rewrite Hset.
    destruct (Z.ltb_spec f 0), (Z.leb_spec last f); cbn in *; try lia. split_and!; [by eexists|done| |done]. by rewrite Hupd.
Qed.

Definition put_filter (i : Z) (ox : Z * filter_v) (x : tdhs_filter_t) : tdhs_filter_t :=
  Filter (filter_num x)
    (put_at REQUEST_MAX_FIELD_NUM (fun ox => str_at (ox.1 + 4) (f_field ox.2)) i ox (field x))
    (put_at REQUEST_MAX_FIELD_NUM (fun ox => f_flag ox.2) i ox (filter_flag x))
    (put_at REQUEST_MAX_FIELD_NUM
       (fun ox => str_at (ox.1 + count (enc_str (f_field ox.2)) + 1 + 4) (f_value ox.2)) i ox (filter_value x)).

Definition f_filter_entry (i : Z) : format (denv S) filter_v unit :=
  Format enc_filter (fun f _ _ => filter_ok i f) (fun f p => on_rq (on_get (on_filter (put_filter i (p, f))))) (fun _ => tt).

Lemma exact_filter_entry i : exact data (decode_filter_entry data i) (f_filter_entry i).
Proof.
  unfold decode_filter_entry. destruct (Z.ltb_spec i (Z.of_nat REQUEST_MAX_FIELD_NUM)) as [Hi|Hi].
  - set (C := f_bind (f_string (u_filter_field i)) (fun _ => f_bind f_uint8 (fun t => f_bind
      (f_flag_check TDHS_FILTER_END t (on_rq (on_get (on_filter (on_filter_flag (fun l => <[Z.to_nat i := t]> l))))))
      (fun _ => f_string (u_filter_value i))))).
    assert (forall a t b p e, eff C (a, (t, (tt, b))) p e = eff (f_filter_entry i) (FilterV a t b) p e) as HC.
    { intros a t b p [[? ? ? [? ? ? ? [] ? ?] ? ?] ? ?]. unfold C, u_filter_field, u_filter_value, size.
      cbn -[alter insert Z.add enc_str Z.of_nat].
      unfold put_filter, put_at, on_rq, on_get, on_filter, on_field, on_filter_flag, on_filter_value.
      destruct (Z.ltb_spec i (Z.of_nat REQUEST_MAX_FIELD_NUM)); [|lia]. cbn -[alter insert Z.add enc_str Z.of_nat].
      by rewrite !alter_const, Z.add_0_r. }
    eapply (exact_conv data _ C).
    + apply exact_bind; [apply exact_string; [done|apply _]|]. intros _ _ _ _.
      apply exact_bind; [by apply exact_uint8|]. intros t _ _ _.
      apply exact_bind; [|intros _ _ _ _; apply exact_string; [done|apply _]].
      by apply (exact_flag (fun e => get_filter (get (rq e))) (fun f => on_rq (on_get (on_filter f)))).
    + intros [a [t [[] b]]] p e ([Ha _] & Ht & Hf & Hb & _). exists (FilterV a t b).
      split_and!; [|done|by rewrite HC|done]. cbn in *. unfold filter_ok. cbn. tauto.
    + intros [a t b] p e (Ha & Hb & Ht & Hf). exists (a, (t, (tt, b))).
      split_and!; [|done|by rewrite HC|done]. cbn in *. split_and!; try done; try tauto; try lia; by eexists.
  - set (C := f_bind (f_string u_temp) (fun _ => f_bind f_uint8 (fun _ => f_string (Σ := denv S) u_temp))).
    assert (forall a t b p e, eff C (a, (t, b)) p e = eff (f_filter_entry i) (FilterV a t b) p e) as HC.
    { intros a t b p [[? ? ? [? ? ? ? [] ? ?] ? ?] ? ?]. cbn. unfold put_filter, put_at, on_rq.
      by destruct (Z.ltb_spec i (Z.of_nat REQUEST_MAX_FIELD_NUM)); [lia|]. }
    eapply (exact_conv data _ C).
    + apply exact_bind; [apply exact_string; [done|apply _]|]. intros _ _ _ _.
      apply exact_bind; [by apply exact_uint8|]. intros t _ _ _. apply exact_string; [done|apply _].
    + intros [a [t b]] p e ([Ha _] & Ht & Hb & _). exists (FilterV a t b).
      split_and!; [|done|by rewrite HC|done]. cbn in *. unfold filter_ok. cbn. split_and!; try tauto; lia.
    + intros [a t b] p e (Ha & Hb & Ht & Hf). exists (a, (t, b)).
      split_and!; [|done|by rewrite HC|done]. cbn in *. split_and!; try done; try lia; by eexists.
Qed.

Definition f_filter : format (denv S) (list filter_v) unit :=
  f_counted enc_filter filter_ok (fun _ _ => True) (fun n => on_rq (on_get (on_filter (set_filter_num n))))
    (fun f => on_rq (on_get (on_filter f))) put_filter.

Lemma exact_filter : exact data (_decode_to_filter data) f_filter.
Proof.
  apply (exact_counted data _ _ f_filter_entry); try done.
  - apply exact_pre_modify.
  - apply exact_filter_entry.
  - by intros [[? ? ? [? ? ? ? [] ? ?] ? ?] ? ?].
Qed.

(** ** Values *)

Definition put_value (i : Z) (ox : Z * value_v) (x : tdhs_request_values_t) : tdhs_request_values_t :=
  Values (value_num x)
    (put_at REQUEST_MAX_FIELD_NUM (fun ox => v_flag ox.2) i ox (flag x))
    (put_at REQUEST_MAX_FIELD_NUM (fun ox => str_at (ox.1 + 1 + 4) (v_value ox.2)) i ox (value x)).

Definition f_value_entry (i : Z) : format (denv S) value_v unit :=
  Format enc_value (fun f _ _ => value_ok i f) (fun f p => on_rq (on_values (put_value i (p, f)))) (fun _ => tt).

Lemma exact_value_entry i : exact data (decode_value data i) (f_value_entry i).
Proof.
  unfold decode_value. destruct (Z.ltb_spec i (Z.of_nat REQUEST_MAX_FIELD_NUM)) as [Hi|Hi].
  - set (C := f_bind f_uint8 (fun t => f_bind
      (f_flag_check TDHS_UPDATE_END t (on_rq (on_values (on_flag (fun l => <[Z.to_nat i := t]> l)))))
      (fun _ => f_string (u_value i)))).
    assert (forall t b p e, eff C (t, (tt, b)) p e = eff (f_value_entry i) (ValueV t b) p e) as HC.
    { intros t b p [[? ? ? ? [] ?] ? ?]. unfold C, u_value, size.
      cbn -[alter insert Z.add Z.of_nat]. unfold put_value, put_at, on_rq, on_values, on_flag, on_value.
      destruct (Z.ltb_spec i (Z.of_nat REQUEST_MAX_FIELD_NUM)); [|lia]. cbn -[alter insert Z.add Z.of_nat].
      by rewrite !alter_const, Z.add_0_r. }
    eapply (exact_conv data _ C).
    + apply exact_bind; [by apply exact_uint8|]. intros t _ _ _.
      apply exact_bind; [|intros _ _ _ _; apply exact_string; [done|apply _]].
      by apply (exact_flag (fun e => values (rq e)) (fun f => on_rq (on_values f))).
    + intros [t [[] b]] p e (Ht & Hf & Hb & _). exists (ValueV t b).
      split_and!; [|done|by rewrite HC|done]. cbn in *. unfold value_ok. cbn. tauto.
    + intros [t b] p e (Hb & Ht & Hf). exists (t, (tt, b)).
      split_and!; [|done|by rewrite HC|done]. cbn in *. split_and!; try done; try tauto; try lia; by eexists.
  - set (C := f_bind f_uint8 (fun _ => f_string (Σ := denv S) u_temp)).
    assert (forall t b p e, eff C (t, b) p e = eff (f_value_entry i) (ValueV t b) p e) as HC.
    { intros t b p [[? ? ? ? [] ?] ? ?]. cbn. unfold put_value, put_at, on_rq.
      by destruct (Z.ltb_spec i (Z.of_nat REQUEST_MAX_FIELD_NUM)); [lia|]. }
    eapply (exact_conv data _ C).
    + apply exact_bind; [by apply exact_uint8|]. intros t _ _ _. apply exact_string; [done|apply _].
    + intros [t b] p e (Ht & Hb & _). exists (ValueV t b).
      split_and!; [|done|by rewrite HC|done]. cbn in *. unfold value_ok. cbn. split_and!; try tauto; lia.
    + intros [t b] p e (Hb & Ht & Hf). exists (t, b).
      split_and!; [|done|by rewrite HC|done]. cbn in *. split_and!; try done; try lia; by eexists.
Qed.

Definition f_values : format (denv S) (list value_v) unit :=
  f_counted enc_value value_ok (fun n e => n = field_num (table_info (rq e)))
    (fun n => on_rq (on_values (set_value_num n))) (fun f => on_rq (on_values f)) put_value.

Lemma exact_values : exact data (decode_values data) f_values.
Proof.
  apply (exact_counted data start_values _ f_value_entry); try done.
  - intros n. unfold start_values.
    set (C := f_bind (f_modify (fun e => Some (on_rq (on_values (set_value_num n)) e))) (fun _ =>
      f_inspect (fun e => field_num (table_info (rq e))) (fun _ : unit => []) (fun _ => tt) (fun k => f_check (n =? k)))).
    eapply (exact_conv data _ C).
    + apply exact_bind; [apply exact_modify|]. intros _ _ _ _. apply exact_inspect; [|done..].
      intros k. by apply exact_check.
    + intros [[] []] p e [_ H]. cbn in H. apply Z.eqb_eq in H. by exists tt.
    + intros [] p e H. exists (tt, tt). cbn in H. split_and!; try done. split; [by eexists|]. by apply Z.eqb_eq.
  - apply exact_value_entry.
  - by intros [[? ? ? ? [] ?] ? ?].
Qed.

(** ** Keys *)

(** The components of a key that is kept. *)
Definition put_key (i : Z) (ox : Z * list (list Z)) (l : list tdhs_get_key_t) : list tdhs_get_key_t :=
  alter (fun k => Key (count ox.2)
           (steps (put_str REQUEST_MAX_KEY_NUM) 0 (offs enc_str (ox.1 + 4) ox.2) (key k))) (Z.to_nat i) l.

Definition component_ok (j : Z) (s : list Z) : Prop := str_ok s /\ j < Z.of_nat REQUEST_MAX_KEY_NUM.

Definition f_kept_key (i : Z) : format (denv S) (list (list Z)) unit :=
  Format enc_key
    (fun k _ e => all_ok component_ok k /\ i < count (key_array (get (rq e))))
    (fun k p => on_rq (on_get (on_key_array (put_key i (p, k))))) (fun _ => tt).

Definition f_temp_key : format (denv S) (list (list Z)) unit :=
  Format enc_key (fun k _ _ => all_ok component_ok k) (fun _ _ => set_outOfIn true) (fun _ => tt).

Lemma exact_kept_key i :
  exact data (n <- read_uint32 data ;; modify_or Keys (put_key_field_num i n) ;;
              for_loop (fun j => read_string data (u_key i j)) n) (f_kept_key i).
Proof.
  set (C := f_counted enc_str component_ok (fun n e => is_Some (put_key_field_num i n e))
    (fun n e => default e (put_key_field_num (S := S) i n e))
    (fun f => on_rq (on_get (on_key_array (alter (on_key f) (Z.to_nat i))))) (put_str REQUEST_MAX_KEY_NUM)).
  assert (forall k p e, i < count (key_array (get (rq e))) -> eff C k p e = eff (f_kept_key i) k p e) as HC.
  { intros k p e He. cbn -[alter]. unfold put_key_field_num. unfold count in He.
    destruct (Z.ltb_spec i (Z.of_nat (length (key_array (get (rq e)))))); [|lia]. cbn -[alter].
    rewrite keys_twice. apply keys_ext. intros l. unfold put_key. rewrite alter_alter. by apply alter_ext. }
  assert (forall n e, is_Some (put_key_field_num (S := S) i n e) <-> i < count (key_array (get (rq e)))) as HP.
  { intros n e. unfold put_key_field_num, count. destruct (Z.ltb_spec i (Z.of_nat (length (key_array (get (rq e)))))).
    - split; [done|by eexists].
    - split; [by intros [? ?]|lia]. }
  eapply (exact_conv data _ C).
  - apply (exact_counted data (fun n => modify_or Keys (put_key_field_num i n)) _ (fun j => f_string (u_key i j))).
    + done.
    + intros n. apply exact_modify_or. by right.
    + intros j. apply exact_string; [done|apply _].
    + done.
    + done.
    + intros j x p e. cbn. unfold u_key, component_ok. destruct (Z.ltb_spec j (Z.of_nat REQUEST_MAX_KEY_NUM)).
      * split; [tauto|]. intros [? _]. split; [done|by eexists].
      * split; [by intros [_ [? ?]]|lia].
    + intros e. apply keys_id. intros l. by apply alter_id; intros [].
    + intros f h e. rewrite keys_twice. apply keys_ext. intros l. by rewrite alter_alter.
    + intros j x p e Hj [_ Hlt]. cbn -[alter]. unfold u_key, put_str, put_at.
      destruct (Z.ltb_spec j (Z.of_nat REQUEST_MAX_KEY_NUM)); [|lia]. cbn -[alter]. apply keys_ext. intros l.
      apply alter_ext. intros k. unfold on_key. by rewrite alter_const.
  - intros k p e (Hk & Hp). apply HP in Hp. exists k. split_and!; [by split|done|by rewrite HC|done].
  - intros k p e (Hk & Hp). exists k. split_and!; [split; [done|by apply HP]|done|by rewrite HC|done].
Qed.

Lemma exact_temp_key :
  exact data (modify (set_outOfIn true) ;; n <- read_uint32 data ;;
              for_loop (fun j => read_string data (u_temp_key j)) n) f_temp_key.
Proof.
  set (C := f_bind (f_modify (fun e => Some (set_outOfIn true e)))
    (fun _ => f_counted enc_str component_ok (fun _ _ => True) (fun _ e => e) (fun _ e => e) (fun _ _ x => x : unit))).
  eapply (exact_conv data _ C).
  - apply exact_bind; [apply exact_modify|]. intros _ _ _ _.
    eapply (exact_ext data (n <- read_uint32 data ;; ret tt ;; for_loop (fun j => read_string data (u_temp_key j)) n)).
    { intros s. unfold bind. by destruct (read_uint32 data s). }
    apply (exact_counted data (fun _ => ret tt) _ (fun j => f_string (u_temp_key j))); try done.
    + intros n. exact (exact_ret data tt).
    + intros j. apply exact_string; [done|apply _].
    + intros j x p e. cbn. unfold u_temp_key, component_ok. destruct (Z.ltb_spec j (Z.of_nat REQUEST_MAX_KEY_NUM)).
      * split; [tauto|]. intros [? _]. split; [done|by eexists].
      * split; [by intros [_ [? ?]]|lia].
    + intros j x p e _ [_ Hj]. cbn. unfold u_temp_key. by destruct (_ <? _).
  - intros [[] k] p e (_ & Hk & _). by exists k.
  - intros k p e Hk. exists (tt, k). split_and!; try done. split; [by eexists|by split].
Qed.

Definition f_key (in_limit i : Z) : format (denv S) (list (list Z)) unit :=
  if i <? in_limit then f_kept_key i else f_temp_key.

Lemma f_key_enc lim i : enc (f_key lim i) = enc_key.
Proof. unfold f_key. by destruct (_ <? _). Qed.

Lemma exact_key lim i : exact data (decode_key data lim i) (f_key lim i).
Proof.
  unfold decode_key, f_key. destruct (_ <? _); [apply exact_kept_key|apply exact_temp_key].
Qed.

Variable v : version S.

(** The environment in which the keys are read. *)
Definition with_keys (n : Z) (e : denv S) : denv S * Z :=
  (set_keys_of v n (on_rq (on_get (set_key_num n)) e), (choose_keys v n (pl e)).1.2).

Definition f_keys : format (denv S) (list (list (list Z))) unit :=
  Format (enc_list enc_key)
    (fun ks p e => count ks < 2 ^ 32 /\
       loop_wf (f_key (with_keys (count ks) e).2) enc_key 0 (count ks) ks (p + 4) (with_keys (count ks) e).1)
    (fun ks p e => loop_eff (f_key (with_keys (count ks) e).2) enc_key 0 ks (p + 4) (with_keys (count ks) e).1)
    (fun _ => tt).

Lemma loop_wf_length {X} (F : Z -> format (denv S) X unit) en n xs i p e :
  loop_wf F en i n xs p e -> 0 <= i -> length xs = Z.to_nat (n - i).
Proof.
  revert i p e. induction xs as [|x xs IH]; intros i p e H Hi; cbn in *; [lia|].
  destruct H as (Hin & _ & H). apply IH in H; lia.
Qed.

Lemma exact_keys : exact data (decode_keys data v) f_keys.
Proof.
  unfold decode_keys.
  set (C := f_bind f_uint32 (fun n => f_bind (f_modify (fun e => Some (on_rq (on_get (set_key_num n)) e))) (fun _ =>
    f_inspect (fun e => (choose_keys v n (pl e)).1.2) (fun x : unit * list (list (list Z)) => concat (map enc_key x.2)) (fun _ => tt)
      (fun lim => f_bind (f_modify (fun e => Some (set_keys_of v n e))) (fun _ => f_loop (f_key lim) enc_key 0 n))))).
  assert (forall ks p e, eff C (count ks, (tt, (tt, ks))) p e = eff f_keys ks p e) as HC.
  { intros ks p e. unfold C, size. cbn -[Z.of_nat]. change (Z.of_nat 0) with 0. by rewrite !Z.add_0_r. }
  eapply (exact_conv data _ C).
  - apply exact_bind; [by apply exact_uint32|]. intros n _ _ _. apply exact_bind; [apply exact_modify|]. intros _ _ _ _.
    apply exact_inspect; [|done..]. intros lim. apply exact_bind; [apply exact_modify|]. intros _ _ _ _.
    apply exact_loop; [apply exact_key|apply f_key_enc|done].
  - intros [n [[] [[] ks]]] p e (Hn & _ & _ & Hw). exists ks. cbn [fst snd val f_uint32] in *.
    pose proof (loop_wf_length _ _ _ _ _ _ _ Hw ltac:(lia)) as Hl. apply count_to_nat in Hl as ->; [|apply Hn].
    split_and!; [|done|by rewrite HC|done]. split; [apply Hn|].
    unfold size in Hw. cbn -[Z.of_nat] in Hw. change (Z.of_nat 0) with 0 in Hw. rewrite !Z.add_0_r in Hw. exact Hw.
  - intros ks p e [Hn Hw]. exists (count ks, (tt, (tt, ks))). split_and!; [|done|by rewrite HC|done].
    split; [split; [cbn; unfold count; lia|done]|]. split; [by eexists|]. split; [by eexists|].
    unfold size. cbn -[Z.of_nat]. change (Z.of_nat 0) with 0. rewrite !Z.add_0_r. exact Hw.
Qed.

(** ** The rest of a condition *)

Definition put_range (x : Z * Z * Z) (g : tdhs_request_get_t) : tdhs_request_get_t :=
  set_limit x.2 (set_start x.1.2 (set_find_flag x.1.1 g)).

Definition f_range : format (denv S) (Z * Z * Z) unit :=
  Format (fun x => [x.1.1] ++ htonl_bytes x.1.2 ++ htonl_bytes x.2)
    (fun x _ _ => 0 <= x.1.1 < 2 ^ 8 /\ 0 <= x.1.2 < 2 ^ 32 /\ 0 <= x.2 < 2 ^ 32)
    (fun x _ => on_rq (on_get (put_range x))) (fun _ => tt).

Lemma exact_range : exact data (decode_range data) f_range.
Proof.
  unfold decode_range.
  set (Mod := fun (f : Z -> tdhs_request_get_t -> tdhs_request_get_t) x =>
    f_modify (fun e : denv S => Some (on_rq (on_get (f x)) e))).
  set (C := f_bind f_uint8 (fun f => f_bind (Mod set_find_flag f) (fun _ => f_bind f_uint32 (fun a =>
    f_bind (Mod set_start a) (fun _ => f_bind f_uint32 (fun b => Mod set_limit b)))))).
  eapply (exact_conv data _ C).
  - repeat (apply exact_bind; [first [by apply exact_uint8|by apply exact_uint32|apply exact_modify]|]; intros ? _ _ _).
    apply exact_modify.
  - intros [f [[] [a [[] [b []]]]]] p e (Hf & _ & Ha & _ & Hb & _). by exists (f, a, b).
  - intros [[f a] b] p e (Hf & Ha & Hb). exists (f, (tt, (a, (tt, (b, tt))))). split_and!; try done.
    repeat (split; [done || by eexists|]). by eexists.
Qed.

Definition checks_ok (e : denv S) : Prop :=
  in_check v && outOfIn e && (find_flag (get (rq e)) =? TDHS_IN) = false /\
  (key_num (get (rq e)) <? 2) && (find_flag (get (rq e)) =? TDHS_BETWEEN) = false /\
  get_is_vaild (get (rq e)) = Some EASY_OK.

Definition f_checks : format (denv S) unit unit :=
  Format (fun _ => []) (fun _ _ e => checks_ok e) (fun _ _ e => e) (fun _ => tt).

Lemma exact_checks : exact data (check_condition v) f_checks.
Proof.
  unfold check_condition.
  set (G := fun e : denv S =>
    f_bind (f_check (negb (in_check v && outOfIn e && (find_flag (get (rq e)) =? TDHS_IN)))) (fun _ =>
    f_bind (f_check (negb ((key_num (get (rq e)) <? 2) && (find_flag (get (rq e)) =? TDHS_BETWEEN)))) (fun _ =>
    f_check (Σ := denv S) match get_is_vaild (get (rq e)) with None => false | Some rc => rc =? EASY_OK end))).
  eapply (exact_conv data _ (f_inspect (fun e => e) (fun _ => []) (fun _ => tt) G)).
  - apply exact_inspect; [|done..]. intros e.
    apply exact_bind; [by apply exact_check|]. intros _ _ _ _. apply exact_bind; [by apply exact_check|]. intros _ _ _ _.
    destruct (get_is_vaild (get (rq e))); [by apply exact_check|]. split; try done. intros s _. by right.
  - intros [[] [[] []]] p e (H1 & H2 & H3). exists tt. cbn in *. split_and!; try done.
    apply negb_true_iff in H1, H2. split_and!; try done. destruct (get_is_vaild (get (rq e))); [|done].
    by apply Z.eqb_eq in H3 as ->.
  - intros [] p e (H1 & H2 & H3). exists (tt, (tt, tt)). split_and!; try done. cbn.
    rewrite H1, H2, H3. by split_and!.
Qed.

(** A condition, as the decoder sees it. *)
Definition f_cond : format (denv S) (list (list (list Z)) * (Z * Z * Z * (unit * list filter_v))) unit :=
  f_bind f_keys (fun _ => f_bind f_range (fun _ => f_bind f_checks (fun _ => f_filter))).

Lemma exact_cond : exact data (decode_condition data v) f_cond.
Proof.
  repeat (apply exact_bind; [first [apply exact_keys|apply exact_range|apply exact_checks]|]; intros _ _ _ _).
  apply exact_must, exact_filter.
Qed.

End formats.

End TdhsDecodeProofs.
