(* ===== verification/TdhsDecodeTheorems.v ===== *)
(** * Decoding a request is the inverse of writing it

    From the formats of TdhsDecodeProofs.v: the decoders of both protocol
    versions accept exactly the encodings of valid requests, what they store
    says what the encoded request says, and nothing outside the packet is read
    on any input. *)

From Stdlib Require Import ZArith Lia.
From stdpp Require Import base list numbers option.
From S2P Require Import Prelude EasyPool TdhsDefine TdhsRead TdhsDecode TdhsFormat TdhsDecodeProofs.

Local Open Scope Z_scope.
Local Open Scope easy_scope.

Module TdhsDecodeTheorems.
Import TdhsDefine TdhsRead TdhsDecode TdhsFormat TdhsDecodeProofs.

(** ** Bytes at a place of the message *)
Section placed.
Variable data : list Z.

Lemma placed_str o s : placed data o (enc_str s) -> holds data s (str_at (o + 4) s).
Proof.
  unfold enc_str. rewrite placed_app. intros [_ [Ho [t Ht]]]. change (count (htonl_bytes _)) with 4 in *.
  unfold holds, str_at, count. cbn [len str]. split; [done|]. split; [by intros ->|]. intros Hne.
  destruct (Z.eqb_spec (Z.of_nat (length s)) 0); [by destruct s|]. exists (o + 4). split_and!; [done|lia|].
  by rewrite Ht, take_app_length.
Qed.

Lemma placed_offs {X} (en : X -> list Z) xs p k o x :
  placed data p (concat (map en xs)) -> offs en p xs !! k = Some (o, x) -> placed data o (en x).
Proof.
  revert p k. induction xs as [|y xs IH]; intros p k Hp Hk; [done|]. cbn [map concat] in Hp.
  apply placed_app in Hp as [H1 H2]. destruct k as [|k]; cbn in Hk; [by injection Hk as <- <-|]. by apply (IH _ k H2).
Qed.

Lemma array_placed {X A} (en : X -> list Z) lim (P : X -> A -> Prop) (g : Z * X -> A) p xs arr :
  placed data p (concat (map en xs)) -> length arr = lim -> (forall o x, placed data o (en x) -> P x (g (o, x))) ->
  array_holds lim P xs (steps (put_at lim g) 0 (offs en p xs) arr).
Proof.
  intros Hp Hl HP i a Hi Hlim. destruct (offs_is_Some en p xs i a Hi) as [o Ho].
  exists (g (o, a)). split; [|by eapply HP, placed_offs].
  apply (steps_put_lookup lim g _ 0 arr i); [lia|done|simpl; lia|simpl; lia].
Qed.

(** ** What is stored is what was written *)

Lemma table_stored p t x : placed data p (enc_table t) -> length (fields x) = REQUEST_MAX_FIELD_NUM ->
  table_holds data t (put_table p t x).
Proof.
  intros Hp Hl. unfold enc_table, enc_list in Hp. rewrite !placed_app in Hp.
  destruct Hp as (Hdb & Ht & Hi & _ & Hf). unfold table_holds, put_table. cbn [db table index field_num fields].
  split; [by apply placed_str|]. split; [by apply placed_str|].
  split; [by intros ->|]. split.
  { intros Hne. destruct (Z.eqb_spec (count (t_index t)) 0) as [E|_]; [by apply count_nil in E|]. by apply placed_str. }
  split; [done|]. unfold put_str. apply (array_placed enc_str); [done|done|]. intros o s Ho. by apply placed_str.
Qed.

Lemma steps_filter i vs x :
  steps put_filter i vs x = Filter (filter_num x)
    (steps (put_at REQUEST_MAX_FIELD_NUM (fun ox => str_at (ox.1 + 4) (f_field ox.2))) i vs (field x))
    (steps (put_at REQUEST_MAX_FIELD_NUM (fun ox => f_flag ox.2)) i vs (filter_flag x))
    (steps (put_at REQUEST_MAX_FIELD_NUM
       (fun ox => str_at (ox.1 + count (enc_str (f_field ox.2)) + 1 + 4) (f_value ox.2))) i vs (filter_value x)).
Proof.
  revert i x. induction vs as [|v vs IH]; intros i x; cbn [steps]; [by destruct x|]. rewrite IH. done.
Qed.

Lemma steps_values i vs x :
  steps put_value i vs x = Values (value_num x)
    (steps (put_at REQUEST_MAX_FIELD_NUM (fun ox => v_flag ox.2)) i vs (flag x))
    (steps (put_at REQUEST_MAX_FIELD_NUM (fun ox => str_at (ox.1 + 1 + 4) (v_value ox.2))) i vs (value x)).
Proof.
  revert i x. induction vs as [|v vs IH]; intros i x; cbn [steps]; [by destruct x|]. rewrite IH. done.
Qed.

Lemma filter_stored p l x : placed data p (enc_list enc_filter l) ->
  length (field x) = REQUEST_MAX_FIELD_NUM -> length (filter_flag x) = REQUEST_MAX_FIELD_NUM ->
  length (filter_value x) = REQUEST_MAX_FIELD_NUM -> filter_num x = count l ->
  filter_holds data l (steps put_filter 0 (offs enc_filter (p + 4) l) x).
Proof.
  intros Hp H1 H2 H3 Hn. unfold enc_list in Hp. apply placed_app in Hp as [_ Hp]. rewrite steps_filter.
  unfold filter_holds. cbn [filter_num field filter_flag filter_value]. split; [done|].
  assert (forall o f, placed data o (enc_filter f) -> holds data (f_field f) (str_at (o + 4) (f_field f)) /\
    holds data (f_value f) (str_at (o + count (enc_str (f_field f)) + 1 + 4) (f_value f))) as Hs.
  { intros o f Hf. unfold enc_filter in Hf. rewrite !placed_app in Hf. destruct Hf as (Ha & _ & Hb).
    split; by apply placed_str. }
  split_and!; apply (array_placed enc_filter); try done; intros o f Hf; by apply Hs.
Qed.

Lemma values_stored p l x : placed data p (enc_list enc_value l) ->
  length (flag x) = REQUEST_MAX_FIELD_NUM -> length (value x) = REQUEST_MAX_FIELD_NUM -> value_num x = count l ->
  values_holds data l (steps put_value 0 (offs enc_value (p + 4) l) x).
Proof.
  intros Hp H1 H2 Hn. unfold enc_list in Hp. apply placed_app in Hp as [_ Hp]. rewrite steps_values.
  unfold values_holds. cbn [value_num flag value]. split; [done|].
  split; apply (array_placed enc_value); try done. intros o f Hf. unfold enc_value in Hf.
  apply placed_app in Hf as [_ Hf]. by apply placed_str.
Qed.

Lemma steps_key_length vs i l : length (steps put_key i vs l) = length l.
Proof.
  revert i l. induction vs as [|v vs IH]; intros i l; cbn [steps]; [done|]. rewrite IH. apply length_alter.
Qed.

Lemma steps_key_before vs i l k : 0 <= i -> Z.of_nat k < i -> steps put_key i vs l !! k = l !! k.
Proof.
  revert i l. induction vs as [|w vs IH]; intros i l Hi Hk; cbn [steps]; [done|].
  rewrite IH by lia. unfold put_key. by rewrite list_lookup_alter_ne by lia.
Qed.

Lemma steps_key_lookup vs i l k ox y : 0 <= i -> vs !! k = Some ox -> l !! (Z.to_nat i + k)%nat = Some y ->
  steps put_key i vs l !! (Z.to_nat i + k)%nat = Some (Key (count ox.2)
    (steps (put_str REQUEST_MAX_KEY_NUM) 0 (offs enc_str (ox.1 + 4) ox.2) (key y))).
Proof.
  revert i l k. induction vs as [|w vs IH]; intros i l k Hi Hk Hl; [done|]. cbn [steps].
  destruct k as [|k]; cbn in Hk.
  - injection Hk as ->. rewrite steps_key_before by lia. rewrite Nat.add_0_r in *.
    unfold put_key. by rewrite list_lookup_alter_eq, Hl.
  - replace (Z.to_nat i + S k)%nat with (Z.to_nat (i + 1) + k)%nat in * by lia. apply IH; [lia|done|].
    unfold put_key. rewrite list_lookup_alter_ne by lia. done.
Qed.

Lemma keys_stored p ks l : placed data p (enc_list enc_key ks) -> count ks <= count l ->
  Forall (fun k => length (key k) = REQUEST_MAX_KEY_NUM) l ->
  array_holds (length ks) (key_holds data) ks (steps put_key 0 (offs enc_key (p + 4) ks) l).
Proof.
  intros Hp Hl Hkl i k Hi Hlt. unfold enc_list in Hp. apply placed_app in Hp as [_ Hp].
  destruct (offs_is_Some enc_key (p + 4) ks i k Hi) as [o Ho]. pose proof (placed_offs _ _ _ _ _ _ Hp Ho) as Hk.
  destruct (lookup_lt_is_Some_2 l i) as [y Hy]; [unfold count in Hl; lia|].
  eexists. split; [by apply (steps_key_lookup _ 0 l i (o, k) y)|]. split; [done|]. cbn [key fst snd].
  unfold enc_key, enc_list in Hk. apply placed_app in Hk as [_ Hk]. unfold put_str.
  apply (array_placed enc_str); [done| |intros; by apply placed_str].
  by apply (Forall_lookup_1 _ _ _ _ Hkl Hy).
Qed.
End placed.

(** ** Conditions *)

(** What a version guarantees about the array it chooses. *)
Class VersionLaws {S} (v : version S) : Prop := choose_ok : forall n s,
  (choose_keys v n s).1 = (RKeys, Z.of_nat REQUEST_MAX_KEY_NUM) \/
  exists a c, (choose_keys v n s).1 = (PoolKeys a (replicate c zero_key), n).

#[export] Instance v1_laws {S} : VersionLaws (S := S) v1.
Proof. by left. Qed.

#[export] Instance v2_laws {S} `{EasyPool.PoolOps S} : VersionLaws (S := S) v2.
Proof.
  intros n s. cbn -[replicate]. unfold keys_v2. destruct (Z.leb_spec n (Z.of_nat REQUEST_MAX_IN_NUM)); [by left|].
  destruct (EasyPool.p_alloc s (u32 (sizeof_tdhs_get_key_t * n))) as [[a|] s']; [|by left]. right. by eexists a, _.
Qed.

Section conditions.
Context {S : Type} (v : version S) `{!VersionLaws v}.

(** The number of keys there is room for. *)
Definition room_for (n : Z) (s : S) : Z :=
  match (choose_keys v n s).1.1 with
  | NoKeys => 0
  | RKeys => Z.of_nat REQUEST_MAX_KEY_NUM
  | PoolKeys _ ks => count ks
  end.
Definition key_room (n : Z) (e : denv S) : Z := count (key_array (get (rq (with_keys v n e).1))).

Lemma keys_vaild_spec ks n : 0 <= n ->
  keys_vaild ks n = Some EASY_OK <->
  n <= count ks /\ forall i k, ks !! i = Some k -> Z.of_nat i < n -> key_field_num k <> 0.
Proof.
  revert n. induction ks as [|k ks IH]; intros n Hn; cbn [keys_vaild]; unfold count in *; cbn [length].
  - destruct (Z.leb_spec n 0); [split; [intros _; split; [lia|done]|done]|split; [done|intros [? _]; lia]].
  - destruct (Z.leb_spec n 0); [split; [intros _; split; [lia|intros; lia]|done]|].
    destruct (Z.eqb_spec (key_field_num k) 0) as [E|E].
    + split; [done|]. intros [_ H']. by destruct (H' 0%nat k eq_refl ltac:(lia)).
    + rewrite IH by lia. split; intros [H1 H2]; (split; [lia|]).
      * intros [|i] k' Hk' Hlt; cbn in Hk'; [by injection Hk' as <-|]. apply (H2 i k' Hk'). lia.
      * intros i k' Hk' Hlt. apply (H2 (Datatypes.S i) k' Hk'). lia.
Qed.

(** The state in which the keys are read. *)
Lemma with_keys_spec n e : shaped (rq e) -> let e1 := (with_keys v n e).1 in let lim := (with_keys v n e).2 in
  (exists K s', e1 = Env (on_get (set_keys K) (on_get (set_key_num n) (rq e))) s' (outOfIn e)) /\
  Forall (fun k => length (key k) = REQUEST_MAX_KEY_NUM) (key_array (get (rq e1))) /\
  (n <= key_room n e -> n <= lim) /\ key_num (get (rq e1)) = n.
Proof.
  intros (_ & _ & _ & _ & _ & _ & Hl & Hf) e1 lim. subst e1 lim. unfold key_room, with_keys, set_keys_of.
  cbn [fst snd rq outOfIn on_rq pl].
  pose proof (choose_ok n (pl e)) as HK. destruct (choose_keys v n (pl e)) as [[K l] s']. cbn [fst snd] in *.
  split; [by eexists K, s'|].
  destruct HK as [[= -> ->]|(a & c & [= -> ->])]; cbn [get on_get set_keys key_array keys r_keys set_key_num key_num].
  - split; [done|]. unfold count. rewrite Hl. done.
  - split; [by apply Forall_replicate|]. done.
Qed.

Lemma key_room_eq n e : shaped (rq e) -> key_room n e = room_for n (pl e).
Proof.
  intros (_ & _ & _ & _ & _ & _ & Hl & _). unfold key_room, room_for, with_keys, set_keys_of.
  cbn [fst snd rq on_rq pl get on_get]. unfold key_array, set_keys. cbn [keys r_keys].
  destruct (choose_keys v n (pl e)).1.1; [done|unfold count; cbn; by rewrite Hl|done].
Qed.

Definition key_good (lim cap i : Z) (k : list (list Z)) : Prop := all_ok component_ok k /\ (i < lim -> i < cap).

Lemma key_array_on f g : f [] = [] -> key_array (on_key_array f g) = f (key_array g).
Proof. intros Hf. destruct g as [? [] ? ? ? ? ?]; done. Qed.

Lemma key_num_on f g : key_num (on_key_array f g) = key_num g.
Proof. destruct g as [? [] ? ? ? ? ?]; done. Qed.

(** What the loop over the keys preserves. *)
Definition key_frame (n cap : Z) (e : denv S) : Prop :=
  count (key_array (get (rq e))) = cap /\ key_num (get (rq e)) = n.

Lemma f_key_wf lim n cap i x p e : key_frame n cap e -> wf (f_key lim i) x p e <-> key_good lim cap i x.
Proof.
  intros [Hc _]. unfold f_key, key_good. destruct (Z.ltb_spec i lim); cbn; rewrite ?Hc.
  - split; [intros [? ?]; by split|intros [? ?]; split; [done|auto]].
  - split; [intros ?; split; [done|lia]|by intros [? _]].
Qed.

Lemma f_key_frame lim n cap i x p e : key_frame n cap e -> key_frame n cap (eff (f_key lim i) x p e).
Proof.
  intros [Hc Hn]. unfold f_key. destruct (_ <? _); [|done]. split; cbn [eff f_kept_key on_rq rq get on_get].
  - rewrite key_array_on by done. unfold count, put_key. by rewrite length_alter.
  - rewrite <- Hn. apply key_num_on.
Qed.

Lemma keys_loop_wf lim n cap ks p e : key_frame n cap e ->
  loop_wf (f_key lim) enc_key 0 n ks p e <->
  length ks = Z.to_nat (n - 0) /\ forall k x, ks !! k = Some x -> key_good lim cap (0 + Z.of_nat k) x.
Proof.
  intros He. apply (loop_wf_iff _ _ (key_frame n cap)); [|by intros; apply f_key_frame|lia|done].
  intros i x q e' _ He'. by apply (f_key_wf _ n).
Qed.

Lemma keys_loop_frame lim n cap ks p e : key_frame n cap e -> loop_wf (f_key lim) enc_key 0 n ks p e ->
  key_frame n cap (loop_eff (f_key lim) enc_key 0 ks p e).
Proof.
  intros He Hw. apply (loop_J _ _ (key_frame n cap) (key_good lim cap) n); try done; [|by intros; apply f_key_frame].
  intros i x q e' _ He'. by apply (f_key_wf _ n).
Qed.

Lemma keys_loop_eff lim n cap ks p e : key_frame n cap e -> n <= lim -> loop_wf (f_key lim) enc_key 0 n ks p e ->
  loop_eff (f_key lim) enc_key 0 ks p e = on_rq (on_get (on_key_array (steps put_key 0 (offs enc_key p ks)))) e.
Proof.
  intros He Hlim Hw.
  apply (loop_eff_eq (f_key lim) enc_key (key_frame n cap) (key_good lim cap) n
           (fun f => on_rq (on_get (on_key_array f)))); try done.
  - intros i x q e' _ He'. by apply (f_key_wf _ n).
  - intros. by apply f_key_frame.
  - intros e' _. by apply keys_id.
  - intros f g e' _. apply keys_twice.
  - intros i x q e' Hi _ _. unfold f_key. by destruct (Z.ltb_spec i lim); [|lia].
Qed.

Lemma checks_range f a b (e : denv S) : 0 <= key_num (get (rq e)) ->
  checks_ok v (on_rq (on_get (put_range (f, a, b))) e) <->
  in_check v && outOfIn e && (f =? TDHS_IN) = false /\ (f = TDHS_BETWEEN -> 2 <= key_num (get (rq e))) /\
  0 <= f < TDHS_READ_END /\ 0 < key_num (get (rq e)) <= count (key_array (get (rq e))) /\
  forall i k, key_array (get (rq e)) !! i = Some k -> Z.of_nat i < key_num (get (rq e)) -> key_field_num k <> 0.
Proof.
  intros Hn. unfold checks_ok, get_is_vaild.
  change (key_num (get (rq (on_rq (on_get (put_range (f, a, b))) e)))) with (key_num (get (rq e))).
  change (key_array (get (rq (on_rq (on_get (put_range (f, a, b))) e)))) with (key_array (get (rq e))).
  change (find_flag (get (rq (on_rq (on_get (put_range (f, a, b))) e)))) with f.
  change (outOfIn (on_rq (on_get (put_range (f, a, b))) e)) with (outOfIn e).
  assert ((key_num (get (rq e)) <? 2) && (f =? TDHS_BETWEEN) = false <->
    (f = TDHS_BETWEEN -> 2 <= key_num (get (rq e)))) as ->.
  { destruct (Z.ltb_spec (key_num (get (rq e))) 2), (Z.eqb_spec f TDHS_BETWEEN); cbn; split; try done; lia. }
  destruct (Z.ltb_spec f 0), (Z.leb_spec TDHS_READ_END f), (Z.eqb_spec (key_num (get (rq e))) 0); cbn [orb];
    try (split; [intros (_ & _ & ?); discriminate|intros (_ & _ & ? & ? & _); lia]).
  rewrite keys_vaild_spec by done. split.
  - intros (H1 & H2 & H3 & H4). split_and!; try done; try lia.
  - intros (H1 & H2 & H3 & H4 & H5). split_and!; try done; try lia.
Qed.

Definition cond_x (c : cond_v) : list (list (list Z)) * (Z * Z * Z * (unit * list filter_v)) :=
  (c_keys c, ((c_flag c, c_start c, c_limit c), (tt, c_filters c))).

Lemma cond_x_enc c : enc (f_cond v) (cond_x c) = enc_cond c.
Proof. reflexivity. Qed.

Lemma cond_x_surj x : exists c, x = cond_x c.
Proof. destruct x as [ks [[[f a] b] [[] fl]]]. by exists (CondV ks f a b fl). Qed.

(** The environment after the keys. *)
Definition keys_env (c : cond_v) (p : Z) (e : denv S) : denv S :=
  on_rq (on_get (on_key_array (steps put_key 0 (offs enc_key (p + 4) (c_keys c))))) (with_keys v (count (c_keys c)) e).1.

Lemma count_nonneg {A} (l : list A) : 0 <= count l.
Proof. unfold count. lia. Qed.

Lemma keys_env_facts c p e : shaped (rq e) ->
  key_num (get (rq (keys_env c p e))) = count (c_keys c) /\ outOfIn (keys_env c p e) = outOfIn e /\
  key_array (get (rq (keys_env c p e))) =
    steps put_key 0 (offs enc_key (p + 4) (c_keys c)) (key_array (get (rq (with_keys v (count (c_keys c)) e).1))).
Proof.
  intros Hsh. destruct (with_keys_spec (count (c_keys c)) e Hsh) as ((K & s' & E) & _ & _ & Hn).
  unfold keys_env. split_and!.
  - etransitivity; [apply key_num_on|exact Hn].
  - by rewrite E.
  - cbn [on_rq rq on_get get]. rewrite key_array_on; [done|]. by rewrite <- length_zero_iff_nil, steps_key_length.
Qed.

Lemma cond_keys_nonempty c p e i k y : count (c_keys c) <= key_room (count (c_keys c)) e -> c_keys c !! i = Some k ->
  steps put_key 0 (offs enc_key (p + 4) (c_keys c)) (key_array (get (rq (with_keys v (count (c_keys c)) e).1))) !! i = Some y ->
  key_field_num y = count k.
Proof.
  intros Hr Hk Hy. destruct (offs_is_Some enc_key (p + 4) _ i k Hk) as [o Ho].
  destruct (lookup_lt_is_Some_2 (key_array (get (rq (with_keys v (count (c_keys c)) e).1))) i) as [z Hz].
  { apply lookup_lt_Some in Hk. unfold key_room, count in *. lia. }
  pose proof (steps_key_lookup _ 0 _ i _ z ltac:(lia) Ho Hz) as Hs. change (Z.to_nat 0 + i)%nat with i in Hs.
  rewrite Hs in Hy. by injection Hy as <-.
Qed.

Lemma components_ok x : all_ok component_ok x <-> all_ok (fun _ => str_ok) x /\ count x <= Z.of_nat REQUEST_MAX_KEY_NUM.
Proof.
  unfold all_ok, component_ok. split.
  - intros [H1 H2]. split; [split; [done|intros i s Hs; by apply (H2 i)]|]. unfold count in *.
    destruct (decide (length x <= REQUEST_MAX_KEY_NUM)%nat); [lia|].
    destruct (lookup_lt_is_Some_2 x REQUEST_MAX_KEY_NUM) as [s Hs]; [lia|]. apply H2 in Hs. lia.
  - intros [[H1 H2] H3]. split; [done|]. intros i s Hs. split; [by apply (H2 i)|].
    apply lookup_lt_Some in Hs. unfold count in H3. lia.
Qed.

Lemma keys_frame c e : shaped (rq e) ->
  key_frame (count (c_keys c)) (key_room (count (c_keys c)) e) (with_keys v (count (c_keys c)) e).1.
Proof. intros Hsh. destruct (with_keys_spec (count (c_keys c)) e Hsh) as (_ & _ & _ & Hn). done. Qed.

Lemma keys_wf_iff c p e : shaped (rq e) -> count (c_keys c) <= key_room (count (c_keys c)) e ->
  wf (f_keys v) (c_keys c) p e <-> all_ok (fun _ => all_ok component_ok) (c_keys c).
Proof.
  intros Hsh Hr. cbn [wf f_keys]. rewrite (keys_loop_wf _ _ _ _ _ _ (keys_frame c e Hsh)). unfold all_ok at 1, key_good.
  assert (length (c_keys c) = Z.to_nat (count (c_keys c) - 0)) as Hl by (unfold count; lia).
  split.
  - intros (H1 & _ & H2). split; [done|]. intros i k Hk. by apply (H2 i k).
  - intros (H1 & H2). split_and!; try done. intros i k Hk. split; [by apply (H2 i)|]. intros _.
    apply lookup_lt_Some in Hk. unfold count in *. lia.
Qed.

Lemma keys_eff_eq c p e : shaped (rq e) -> count (c_keys c) <= key_room (count (c_keys c)) e ->
  wf (f_keys v) (c_keys c) p e -> eff (f_keys v) (c_keys c) p e = keys_env c p e.
Proof.
  intros Hsh Hr [_ Hw]. destruct (with_keys_spec (count (c_keys c)) e Hsh) as (_ & _ & Hlim & _).
  exact (keys_loop_eff _ _ _ _ _ _ (keys_frame c e Hsh) (Hlim Hr) Hw).
Qed.

(** Enough room for the keys follows from the checks. *)
Lemma checks_room c p e : shaped (rq e) -> wf (f_keys v) (c_keys c) p e ->
  checks_ok v (on_rq (on_get (put_range (c_flag c, c_start c, c_limit c))) (eff (f_keys v) (c_keys c) p e)) ->
  count (c_keys c) <= key_room (count (c_keys c)) e.
Proof.
  intros Hsh [_ Hw] Hchk. destruct (keys_loop_frame _ _ _ _ _ _ (keys_frame c e Hsh) Hw) as [H1 H2].
  cbn [eff f_keys] in Hchk. apply checks_range in Hchk as (_ & _ & _ & H & _); [lia|].
  rewrite H2. apply count_nonneg.
Qed.

Lemma checks_env c p e : shaped (rq e) -> outOfIn e = false -> count (c_keys c) <= key_room (count (c_keys c)) e ->
  checks_ok v (on_rq (on_get (put_range (c_flag c, c_start c, c_limit c))) (keys_env c p e)) <->
  c_keys c <> [] /\ 0 <= c_flag c < TDHS_READ_END /\ (c_flag c = TDHS_BETWEEN -> 2 <= count (c_keys c)) /\
  forall i k, c_keys c !! i = Some k -> 0 < count k.
Proof.
  intros Hsh Ho Hr. destruct (keys_env_facts c p e Hsh) as (F1 & F2 & F3).
  rewrite checks_range, F1, F2, F3, Ho, andb_false_r by (rewrite F1; apply count_nonneg).
  pose proof (count_nil (c_keys c)) as Hnil. pose proof (count_nonneg (c_keys c)) as Hnn.
  assert (forall l, count (steps put_key 0 (offs enc_key (p + 4) (c_keys c)) l) = count l) as Hcl.
  { intros l. unfold count. by rewrite steps_key_length. }
  rewrite Hcl. fold (key_room (count (c_keys c)) e). split.
  - intros (_ & H2 & H3 & H4 & H5). split_and!; try done; try lia.
    + intros E. apply Hnil in E. lia.
    + intros i k Hk. destruct (lookup_lt_is_Some_2 (steps put_key 0 (offs enc_key (p + 4) (c_keys c))
        (key_array (get (rq (with_keys v (count (c_keys c)) e).1)))) i) as [y Hy].
      { rewrite steps_key_length. apply lookup_lt_Some in Hk. unfold key_room, count in *. lia. }
      pose proof (cond_keys_nonempty c p e i k y Hr Hk Hy) as E. pose proof (count_nonneg k).
      specialize (H5 i y Hy). apply lookup_lt_Some in Hk. unfold count in *. lia.
  - intros (H1 & H2 & H3 & H4). split_and!; try done; try lia.
    + assert (count (c_keys c) <> 0) by (intros E; by apply Hnil in E). lia.
    + intros i y Hy Hlt. destruct (lookup_lt_is_Some_2 (c_keys c) i) as [k Hk]; [unfold count in Hlt; lia|].
      rewrite (cond_keys_nonempty c p e i k y Hr Hk Hy). specialize (H4 i k Hk). lia.
Qed.

(** The conditions the decoder accepts are the valid ones there is room for. *)
Lemma cond_wf_iff c p e : shaped (rq e) -> outOfIn e = false ->
  wf (f_cond v) (cond_x c) p e <-> cond_ok c /\ count (c_keys c) <= key_room (count (c_keys c)) e.
Proof.
  intros Hsh Ho. split.
  - intros (Hw & (Hf & Ha & Hb) & Hchk & Hfl & _). cbn [fst snd cond_x wf f_checks] in *.
    pose proof (checks_room c p e Hsh Hw Hchk) as Hr. split; [|done].
    cbn [eff f_range] in Hchk. rewrite (keys_eff_eq c p e Hsh Hr Hw) in Hchk.
    apply checks_env in Hchk as (H1 & H2 & H3 & H4); [|done..]. apply keys_wf_iff in Hw as [Hc Hall]; [|done..].
    split; [split; [done|]|split_and!; done || lia].
    intros i k Hk. pose proof (H4 i k Hk). apply Hall in Hk. apply components_ok in Hk as [? ?]. by split_and!; [lia|..].
  - intros [([Hc Hk] & Hne & Hf & Ha & Hb & Hfl & Hbt) Hr].
    assert (wf (f_keys v) (c_keys c) p e) as Hw.
    { apply keys_wf_iff; [done..|]. split; [done|]. intros i k Hik. apply components_ok.
      destruct (Hk i k Hik) as [? ?]. split; [done|lia]. }
    split; [exact Hw|]. cbn [fst snd cond_x]. split; [cbn; unfold TDHS_READ_END in Hf; lia|].
    split; [|by split]. cbn [wf f_checks eff f_range]. rewrite (keys_eff_eq c p e Hsh Hr Hw).
    apply checks_env; try done. split_and!; try done; try lia. intros i k Hik. destruct (Hk i k Hik) as [? _]. lia.
Qed.

Lemma cond_eff_eq c p e : shaped (rq e) -> outOfIn e = false -> wf (f_cond v) (cond_x c) p e ->
  eff (f_cond v) (cond_x c) p e =
  eff f_filter (c_filters c) (p + size (f_keys v) (c_keys c) + size (f_range (S := S)) (c_flag c, c_start c, c_limit c) + 0)
    (on_rq (on_get (put_range (c_flag c, c_start c, c_limit c))) (keys_env c p e)).
Proof.
  intros Hsh Ho Hw. apply (cond_wf_iff c p e Hsh Ho) in Hw as Hc. destruct Hw as [Hw _]. destruct Hc as [_ Hr].
  cbn [eff f_cond f_bind cond_x fst snd f_range f_checks]. by rewrite (keys_eff_eq c p e Hsh Hr Hw).
Qed.

(** What a condition leaves alone. *)
Lemma cond_frame c p e : shaped (rq e) -> outOfIn e = false -> wf (f_cond v) (cond_x c) p e ->
  table_info (rq (eff (f_cond v) (cond_x c) p e)) = table_info (rq e) /\
  values (rq (eff (f_cond v) (cond_x c) p e)) = values (rq e).
Proof.
  intros Hsh Ho Hw. rewrite cond_eff_eq by done.
  destruct (with_keys_spec (count (c_keys c)) e Hsh) as ((K & s' & E) & _). unfold keys_env. by rewrite E.
Qed.

Lemma cond_stored data c p e : shaped (rq e) -> outOfIn e = false -> wf (f_cond v) (cond_x c) p e ->
  placed data p (enc_cond c) -> cond_holds data c (get (rq (eff (f_cond v) (cond_x c) p e))).
Proof.
  intros Hsh Ho Hw Hp. rewrite cond_eff_eq by done. apply (cond_wf_iff c p e Hsh Ho) in Hw as [_ Hr].
  rewrite <- cond_x_enc in Hp. cbn [enc f_cond f_bind cond_x fst snd f_checks] in Hp. rewrite !placed_app in Hp.
  destruct Hp as (Hk & _ & _ & Hfl).
  destruct (keys_env_facts c p e Hsh) as (F1 & F2 & F3).
  destruct (with_keys_spec (count (c_keys c)) e Hsh) as ((K & s' & E) & Hlen & _ & _).
  set (e2 := on_rq (on_get (put_range (c_flag c, c_start c, c_limit c))) (keys_env c p e)).
  assert (get_filter (get (rq e2)) = get_filter (get (rq e))) as Hfe.
  { unfold e2, keys_env. rewrite E. cbn [rq get on_rq on_get put_range]. by destruct K. }
  unfold cond_holds. cbn [eff f_filter f_counted on_rq rq on_get get on_filter].
  cbn [key_num find_flag start limit get_filter]. split_and!; try done.
  - change (array_holds (length (c_keys c)) (key_holds data) (c_keys c) (key_array (get (rq (keys_env c p e))))).
    rewrite F3. by apply keys_stored.
  - fold e2. apply filter_stored; [exact Hfl|..]; [..|done];
      cbn [on_filter get_filter set_filter_num field filter_flag filter_value]; rewrite Hfe; apply Hsh.
Qed.

Lemma steps_key_Forall vs i l : Forall (fun k => length (key k) = REQUEST_MAX_KEY_NUM) l ->
  Forall (fun k => length (key k) = REQUEST_MAX_KEY_NUM) (steps put_key i vs l).
Proof.
  revert i l. induction vs as [|w vs IH]; intros i l Hl; cbn [steps]; [done|]. apply IH. unfold put_key.
  apply Forall_alter; [done|]. intros x Hx Hk. cbn [key]. unfold put_str. by rewrite steps_put_length.
Qed.

Lemma cond_shaped c p e : shaped (rq e) -> outOfIn e = false -> wf (f_cond v) (cond_x c) p e ->
  shaped (rq (eff (f_cond v) (cond_x c) p e)).
Proof.
  intros Hsh Ho Hw. rewrite cond_eff_eq by done.
  destruct (with_keys_spec (count (c_keys c)) e Hsh) as ((K & s' & E) & _). unfold keys_env. rewrite E.
  destruct Hsh as (H1 & H2 & H3 & H4 & H5 & H6 & H7 & H8).
  unfold shaped. cbn [eff f_filter f_counted on_rq rq on_get get on_filter get_filter table_info values r_keys].
  rewrite !steps_filter. cbn [field filter_flag filter_value]. rewrite !steps_put_length.
  assert (get_filter (put_range (c_flag c, c_start c, c_limit c)
    (on_key_array (steps put_key 0 (offs enc_key (p + 4) (c_keys c)))
       (set_keys K (set_key_num (count (c_keys c)) (get (rq e)))))) = get_filter (get (rq e))) as Hfe.
  { by destruct K. }
  cbn [set_filter_num field filter_flag filter_value]. rewrite Hfe. split_and!; try done; destruct K; try done.
  - cbn. by rewrite steps_key_length.
  - cbn. by apply steps_key_Forall.
Qed.

End conditions.

(** ** Requests *)
Section requests.
Context {S : Type} (v : version S) `{!VersionLaws v}.
Variable data : list Z.
Hypothesis data_ok : bytes_ok data.

(** A decoder that must consume the whole packet. *)
Lemma exact_whole {X} (m : M (denv S) unit) (F : format (denv S) X unit) s : exact data m F -> inv data s ->
  (forall s', (m ;; at_end) s = Next tt s' ->
     exists x, wf F x (pos s) (env s) /\ enc F x = rest data s /\ env s' = eff F x (pos s) (env s)) /\
  (forall x, wf F x (pos s) (env s) -> enc F x = rest data s ->
     exists s', (m ;; at_end) s = Next tt s' /\ env s' = eff F x (pos s) (env s)) /\
  match (m ;; at_end) s with Next _ _ => True | Return rc _ => rc <> EASY_OK | Crash c => safe_crash c end.
Proof.
  intros Hm I. pose proof (rest_length data s I) as Hr.
  assert (forall x e, enc F x `prefix_of` rest data s -> read_len (adv (size F x) e s) = 0 <-> enc F x = rest data s) as Hall.
  { intros x e [t Ht]. unfold size. cbn [read_len adv]. rewrite <- Hr, Ht, length_app. split.
    - intros Hz. assert (t = []) as -> by (destruct t; [done|simpl in *; lia]). by rewrite app_nil_r.
    - intros E. apply (f_equal length) in E. rewrite length_app in E. lia. }
  unfold bind, at_end. split_and!.
  - intros s' H. destruct (m s) as [[] s1| |] eqn:E; try done.
    destruct (ex_sound _ _ _ Hm s tt s1 I E) as (x & Hw & Hp & _ & ->).
    destruct (Z.eqb_spec (read_len (adv (size F x) (eff F x (pos s) (env s)) s)) 0) as [Hz|]; [|done].
    injection H as <-. exists x. split_and!; [done|by eapply Hall|done].
  - intros x Hw Hx. rewrite (ex_complete _ _ _ Hm s x I Hw) by (by rewrite Hx).
    destruct (Z.eqb_spec (read_len (adv (size F x) (eff F x (pos s) (env s)) s)) 0) as [Hz|Hz]; [by eexists|].
    destruct Hz. apply Hall; [by rewrite Hx|done].
  - pose proof (ex_safe _ _ _ Hm s I) as Hs. destruct (m s) as [a s1|rc s1|c]; try done. by destruct (_ =? _).
Qed.

Lemma shaped_table p t q : shaped q -> shaped (on_table (put_table p t) q).
Proof.
  intros (H1 & H). split; [|done]. cbn. unfold put_str. by rewrite steps_put_length.
Qed.

Definition f_get (need : bool) :=
  f_bind (f_table (S := S) need) (fun _ => f_cond v).

Lemma get_wf_iff need t c p e : shaped (rq e) -> outOfIn e = false ->
  wf (f_get need) (t, cond_x c) p e <->
  table_ok need t /\ cond_ok c /\ count (c_keys c) <= room_for v (count (c_keys c)) (pl e).
Proof.
  intros Hsh Ho. cbn [wf f_get f_bind fst snd f_table eff].
  pose proof (shaped_table p t _ Hsh) as Hsh'.
  rewrite (cond_wf_iff v c) by done. rewrite key_room_eq by done. done.
Qed.

Lemma get_stored need t c p e : shaped (rq e) -> outOfIn e = false -> wf (f_get need) (t, cond_x c) p e ->
  placed data p (enc_table t ++ enc_cond c) -> let q := rq (eff (f_get need) (t, cond_x c) p e) in
  table_holds data t (table_info q) /\ cond_holds data c (get q) /\ values q = values (rq e).
Proof.
  intros Hsh Ho [_ Hw] Hp q. subst q. apply placed_app in Hp as [Ht Hc].
  pose proof (shaped_table p t _ Hsh) as Hsh'. cbn [eff f_get f_bind fst snd wf] in *.
  destruct (cond_frame v c _ (eff (f_table need) t p e) Hsh' Ho Hw) as [E1 E2]. split_and!.
  - rewrite E1. cbn. by apply table_stored; [|apply Hsh].
  - by apply cond_stored.
  - by rewrite E2.
Qed.

Lemma get_shaped need t c p e : shaped (rq e) -> outOfIn e = false -> wf (f_get need) (t, cond_x c) p e ->
  shaped (rq (eff (f_get need) (t, cond_x c) p e)).
Proof.
  intros Hsh Ho [_ Hw]. pose proof (shaped_table p t _ Hsh) as Hsh'. cbn [eff f_get f_bind fst snd wf] in *.
  by apply cond_shaped.
Qed.

Lemma get_type need t c p e : shaped (rq e) -> outOfIn e = false -> wf (f_get need) (t, cond_x c) p e ->
  TdhsDefine.type (rq (eff (f_get need) (t, cond_x c) p e)) = TdhsDefine.type (rq e).
Proof.
  intros Hsh Ho [_ Hw]. pose proof (shaped_table p t _ Hsh) as Hsh'. cbn [eff f_get f_bind fst snd wf] in *.
  by rewrite cond_eff_eq.
Qed.

Lemma values_shaped vs p (e : denv S) : shaped (rq e) -> shaped (rq (eff f_values vs p e)).
Proof.
  intros (H1 & H2 & H3 & H4 & H5 & H6 & H7). unfold shaped.
  cbn [eff f_values f_counted on_rq rq on_values table_info get values]. rewrite !steps_values.
  cbn [flag value]. by rewrite !steps_put_length.
Qed.

Lemma values_wf_iff vs p e :
  wf (f_values (S := S)) vs p e <-> all_ok value_ok vs /\ count vs = field_num (table_info (rq e)).
Proof. done. Qed.

Lemma values_stored_env vs p e : placed data p (enc_list enc_value vs) ->
  length (flag (values (rq e))) = REQUEST_MAX_FIELD_NUM -> length (value (values (rq e))) = REQUEST_MAX_FIELD_NUM ->
  let q := rq (eff (f_values (S := S)) vs p e) in
  values_holds data vs (values q) /\ table_info q = table_info (rq e) /\ get q = get (rq e).
Proof. intros Hp H1 H2 q. split; [|done]. by apply values_stored. Qed.

(** There is room for the keys of a request in the array its version chooses. *)
Definition keys_fit (r : request_v) (s : S) : Prop :=
  forall c, cond_of r = Some c -> count (c_keys c) <= room_for v (count (c_keys c)) s.

(** The start of decoding a packet of [len] bytes at [p]. *)
Definition start_state (q : tdhs_request_t) (s : S) (len p : Z) : state (denv S) := State (Env q s false) len p.
Definition packet_in (len p : Z) : Prop := 0 <= p /\ 0 <= len < 2 ^ 32 /\ p + len <= count data.
Definition bytes_at (len p : Z) : list Z := take (Z.to_nat len) (drop (Z.to_nat p) data).

(** [m] decodes the requests of a type, and nothing else. *)
Definition decodes (type : Z) (m : M (denv S) unit) : Prop := forall q s len p,
  shaped q -> packet_in len p ->
  (forall st, m (start_state q s len p) = Next tt st -> exists r,
     type_of r = type /\ request_ok r /\ keys_fit r s /\ enc_request r = bytes_at len p /\
     request_holds data r (rq (env st)) /\ shaped (rq (env st)) /\ TdhsDefine.type (rq (env st)) = TdhsDefine.type q) /\
  (forall r, type_of r = type -> request_ok r -> keys_fit r s -> enc_request r = bytes_at len p -> exists st,
     m (start_state q s len p) = Next tt st /\ request_holds data r (rq (env st))) /\
  match m (start_state q s len p) with Next _ _ => True | Return rc _ => rc <> EASY_OK | Crash c => safe_crash c end.

(** A value of a format is a request: same bytes, and what is stored says it. *)
Definition is_request {X} (F : format (denv S) X unit) (x : X) (r : request_v) (p : Z) (e : denv S) : Prop :=
  wf F x p e /\ enc F x = enc_request r /\
  (placed data p (enc_request r) -> request_holds data r (rq (eff F x p e))) /\ shaped (rq (eff F x p e)) /\
  TdhsDefine.type (rq (eff F x p e)) = TdhsDefine.type (rq e).

Lemma decodes_whole {X} type (m : M (denv S) unit) (F : format (denv S) X unit) :
  exact data m F ->
  (forall x p e, shaped (rq e) -> outOfIn e = false -> wf F x p e -> exists r,
     type_of r = type /\ request_ok r /\ keys_fit r (pl e) /\ is_request F x r p e) ->
  (forall r p e, shaped (rq e) -> outOfIn e = false -> type_of r = type -> request_ok r -> keys_fit r (pl e) ->
     exists x, is_request F x r p e) ->
  decodes type (m ;; at_end).
Proof.
  intros Hm H1 H2 q s len p Hsh Hp. set (st0 := start_state q s len p).
  assert (inv data st0) as I by exact Hp.
  assert (forall l, l = rest data st0 -> placed data p l) as Hpl.
  { intros l ->. split; [apply Hp|]. apply prefix_take. }
  destruct (exact_whole m F st0 Hm I) as (Hs & Hc & Hok). split_and!; [..|exact Hok].
  - intros st H. destruct (Hs st H) as (x & Hw & Hx & ->).
    destruct (H1 x p (Env q s false) Hsh eq_refl Hw) as (r & Ht & Hr & Hk & _ & Hen & Hh & Hsh' & Hty).
    exists r. split; [done|]. split; [done|]. split; [done|]. split; [by rewrite <- Hen|]. split; [|done].
    apply Hh, Hpl. by rewrite <- Hen.
  - intros r Ht Hr Hk Hen. destruct (H2 r p (Env q s false) Hsh eq_refl Ht Hr Hk) as (x & Hw & Hx & Hh & _).
    destruct (Hc x Hw) as (st & Hrun & Est); [by rewrite Hx|]. exists st. split; [done|]. rewrite Est. by apply Hh, Hpl.
Qed.

Lemma decodes_ext type (m m' : M (denv S) unit) : (forall s, m s = m' s) -> decodes type m -> decodes type m'.
Proof. intros E H q s len p Hsh Hp. rewrite <- E. by apply H. Qed.

Lemma bind_assoc {A B C} (m : M (denv S) A) (f : A -> M (denv S) B) (g : B -> M (denv S) C) s :
  bind (bind m f) g s = bind m (fun a => bind (f a) g) s.
Proof. unfold bind. by destruct (m s). Qed.

(** The table and the condition of a request. *)
Lemma get_request need t c p e (mk : table_v -> cond_v -> request_v) :
  (forall t c, enc_request (mk t c) = enc_table t ++ enc_cond c /\ table_of (mk t c) = t /\ cond_of (mk t c) = Some c /\
               values_of (mk t c) = None) ->
  shaped (rq e) -> outOfIn e = false -> wf (f_get need) (t, cond_x c) p e ->
  is_request (f_get need) (t, cond_x c) (mk t c) p e.
Proof.
  intros Hmk Hsh Ho Hw. destruct (Hmk t c) as (E1 & E2 & E3 & E4). split; [done|]. rewrite E1. split; [done|].
  split; [|split; [by apply get_shaped|by apply get_type]]. intros Hp. destruct (get_stored need t c p e Hsh Ho Hw Hp) as (Ht & Hc & Hv).
  unfold request_holds. rewrite E2, E3, E4. split_and!; [done|by intros c' [= <-]|done].
Qed.

Lemma decodes_cond type need m (mk : table_v -> cond_v -> request_v) :
  exact data m (f_get need) ->
  (forall t c, enc_request (mk t c) = enc_table t ++ enc_cond c /\ table_of (mk t c) = t /\ cond_of (mk t c) = Some c /\
               values_of (mk t c) = None) ->
  (forall t c, request_ok (mk t c) <-> table_ok need t /\ cond_ok c) ->
  (forall t c, type_of (mk t c) = type) -> (forall r, type_of r = type -> exists t c, r = mk t c) ->
  decodes type (m ;; at_end).
Proof.
  intros Hm Hmk Hok Hty Hinv. apply (decodes_whole _ _ (f_get need)).
  - done.
  - intros [t x] p e Hsh Ho Hw. destruct (cond_x_surj x) as [c ->]. exists (mk t c).
    apply get_wf_iff in Hw as Hw'; [|done..]. destruct Hw' as (H1 & H2 & H3).
    split_and!; [done|by apply Hok| |by apply get_request].
    intros c' Hc'. destruct (Hmk t c) as (_ & _ & E & _). rewrite E in Hc'. by injection Hc' as <-.
  - intros r p e Hsh Ho Ht Hr Hk. destruct (Hinv r Ht) as (t & c & ->). exists (t, cond_x c).
    apply get_request; [done..|]. apply get_wf_iff; [done..|]. apply Hok in Hr as [? ?]. split_and!; try done.
    apply (Hk c), Hmk.
Qed.

Lemma exact_get need : exact data (must (_decode_to_table_info data need) ;; decode_condition data v) (f_get need).
Proof.
  apply exact_bind; [by apply exact_must, exact_table|]. intros _ _ _ _. by apply exact_cond.
Qed.

Lemma get_fields need t c p e : shaped (rq e) -> outOfIn e = false -> wf (f_get need) (t, cond_x c) p e ->
  field_num (table_info (rq (eff (f_get need) (t, cond_x c) p e))) = count (t_fields t).
Proof.
  intros Hsh Ho [_ Hw]. pose proof (shaped_table p t _ Hsh) as Hsh'. cbn [eff f_get f_bind fst snd wf] in *.
  destruct (cond_frame v c _ (eff (f_table need) t p e) Hsh' Ho Hw) as [E1 _]. by rewrite E1.
Qed.

Lemma decodes_update : decodes REQUEST_TYPE_UPDATE (decode_to_update data v).
Proof.
  eapply (decodes_ext _ ((must (_decode_to_get data v) ;; decode_values data) ;; at_end)); [intros; apply bind_assoc|].
  set (F := f_bind (f_get true) (fun _ => f_values)).
  assert (forall t c vs p e, shaped (rq e) -> outOfIn e = false -> wf F ((t, cond_x c), vs) p e ->
    is_request F ((t, cond_x c), vs) (UpdateV t c vs) p e) as HF.
  { intros t c vs p e Hsh Ho Hw. split; [done|]. split; [symmetry; apply app_assoc|]. destruct Hw as [Hw _].
    split; [|split; [apply values_shaped; by apply get_shaped|rewrite <- (get_type true t c p e Hsh Ho Hw); reflexivity]]. intros Hp.
    cbn [enc_request] in Hp. rewrite app_assoc in Hp. apply placed_app in Hp as [Hp1 Hp2].
    destruct (get_stored true t c p e Hsh Ho Hw Hp1) as (Ht & Hc & Hv).
    destruct (values_stored_env vs _ (eff (f_get true) (t, cond_x c) p e) Hp2) as (Hvs & E1 & E2);
      [rewrite Hv; apply Hsh..|].
    change (eff F (t, cond_x c, vs) p e) with
      (eff f_values vs (p + count (enc_table t ++ enc_cond c)) (eff (f_get true) (t, cond_x c) p e)).
    unfold request_holds. cbn [table_of cond_of values_of].
    split_and!; [by rewrite E1|intros c' [= <-]; by rewrite E2|by intros vs' [= <-]]. }
  apply (decodes_whole _ _ F).
  - apply exact_bind; [by apply exact_must, exact_get|]. intros _ _ _ _. by apply exact_values.
  - intros [[t x] vs] p e Hsh Ho Hw. destruct (cond_x_surj x) as [c ->]. exists (UpdateV t c vs).
    split; [done|]. pose proof (HF t c vs p e Hsh Ho Hw) as Hr. destruct Hw as [Hw Hvs].
    cbn [fst snd] in Hvs, Hw. rewrite values_wf_iff, get_fields in Hvs by done.
    apply get_wf_iff in Hw as (H1 & H2 & H3); [|done..]. split; [split; [exact H1|split; [exact H2|exact Hvs]]|]. split; [|exact Hr]. by intros c' [= <-].
  - intros r p e Hsh Ho Ht Hr Hk. destruct r as [| |t c vs| |]; try discriminate.
    exists ((t, cond_x c), vs). apply HF; [done..|]. destruct Hr as (H1 & H2 & H3).
    assert (wf (f_get true) (t, cond_x c) p e) as Hw by (apply get_wf_iff; [done..|]; split_and!; auto).
    split; [exact Hw|]. apply values_wf_iff. cbn [fst snd]. by rewrite get_fields.
Qed.

Lemma decodes_insert : decodes REQUEST_TYPE_INSERT (decode_to_insert data).
Proof.
  eapply (decodes_ext _ ((must (_decode_to_table_info data false) ;; decode_values data) ;; at_end));
    [intros; apply bind_assoc|].
  set (F := f_bind (f_table (S := S) false) (fun _ => f_values)).
  assert (forall t vs p e, shaped (rq e) -> wf F (t, vs) p e -> is_request F (t, vs) (InsertV t vs) p e) as HF.
  { intros t vs p e Hsh Hw. split; [done|]. split; [done|].
    split; [|split; [apply values_shaped; by apply (shaped_table p t)|done]]. intros Hp. cbn [enc_request] in Hp.
    apply placed_app in Hp as [Hp1 Hp2].
    destruct (values_stored_env vs _ (eff (f_table (S := S) false) t p e) Hp2) as (Hvs & E1 & E2); [apply Hsh..|].
    change (eff F (t, vs) p e) with (eff f_values vs (p + count (enc_table t)) (eff (f_table (S := S) false) t p e)).
    unfold request_holds. cbn [table_of cond_of values_of].
    split_and!; [|done|by intros vs' [= <-]]. rewrite E1. by apply table_stored; [|apply Hsh]. }
  apply (decodes_whole _ _ F).
  - apply exact_bind; [by apply exact_must, exact_table|]. intros _ _ _ _. by apply exact_values.
  - intros [t vs] p e Hsh Ho Hw. exists (InsertV t vs). split; [done|].
    pose proof (HF t vs p e Hsh Hw) as Hr. destruct Hw as [Hw Hvs]. by split_and!.
  - intros r p e Hsh Ho Ht Hr Hk. destruct r as [| | | |t vs]; try discriminate. exists (t, vs). by apply HF.
Qed.

(** Every type of request. *)
Lemma decodes_single type : decodes type (decode_single data v type).
Proof.
  unfold decode_single.
  destruct (Z.eqb_spec type REQUEST_TYPE_GET) as [->|H0].
  { apply (decodes_cond _ true _ GetV); try done; [by apply exact_must, exact_get|]. intros [] Hr; try discriminate. by eexists _, _. }
  destruct (Z.eqb_spec type REQUEST_TYPE_COUNT) as [->|H1].
  { eapply decodes_ext; [intros; apply bind_assoc|].
    apply (decodes_cond _ false _ CountV); try done; [by apply exact_get|]. intros [] Hr; try discriminate. by eexists _, _. }
  destruct (Z.eqb_spec type REQUEST_TYPE_UPDATE) as [->|H2]; [apply decodes_update|].
  destruct (Z.eqb_spec type REQUEST_TYPE_DELETE) as [->|H3].
  { eapply decodes_ext; [intros; apply bind_assoc|].
    apply (decodes_cond _ false _ DeleteV); try done; [by apply exact_get|]. intros [] Hr; try discriminate. by eexists _, _. }
  destruct (Z.eqb_spec type REQUEST_TYPE_INSERT) as [->|H4]; [apply decodes_insert|].
  intros q s len p _ _. split_and!; [done| |done]. intros [] Ht; cbn [type_of] in Ht; congruence.
Qed.

End requests.

End TdhsDecodeTheorems.
