(* ===== verification/TdhsBatch.v ===== *)
(** * decode_request_by_binary{,_v2}: a packet and the chain behind it

    The entry points of the decoders.  A batch request decodes the packets
    linked behind it; since it does so whatever their type, a batch inside a
    batch decodes the rest of the chain again.  The fuel of the recursion is
    enough when it is twice the length of the chain plus two. *)

From Stdlib Require Import ZArith Lia.
From stdpp Require Import base list numbers option.
From S2P Require Import Prelude CString EasyPool TdhsDefine TdhsRead TdhsProtocol TdhsDecode TdhsFormat TdhsDecodeProofs TdhsDecodeTheorems.

Local Open Scope Z_scope.

Module TdhsBatch.
Import TdhsDefine TdhsRead TdhsProtocol TdhsDecode TdhsFormat TdhsDecodeTheorems.

Definition set_req (q : tdhs_request_t) (p : tdhs_packet_t) : tdhs_packet_t :=
  Packet (command_id_or_response_code p) (seq_id p) (reserved p) (TdhsProtocol.length p) (rdata p) (wbuff p) q
    (start_time p) (next p).

Section decode.
Context {S : Type}.
Variable data : list Z.
Variable v : version S.

(** The result: out of defined behaviour, or the return code, the pool, the
    packet and the packets behind it. *)
Fixpoint decode_request (fuel : nat) (s : S) (p : tdhs_packet_t) (rest : list tdhs_packet_t)
    : crash + Z * S * tdhs_packet_t * list tdhs_packet_t :=
  match fuel with
  | O => inl Fuel
  | Datatypes.S fuel =>
      let type := command_id_or_response_code p in
      let q := set_type type (req p) in
      if type =? REQUEST_TYPE_BATCH then
        match decode_to_batch fuel s rest with
        | inl c => inl c
        | inr (rc, s, rest) => inr (rc, s, set_req q p, rest)
        end
      else
        match decode_single data v type (State (Env q s false) (TdhsProtocol.length p) (rdata p)) with
        | Next _ st => inr (EASY_OK, pl (env st), set_req (rq (env st)) p, rest)
        | Return rc st => inr (rc, pl (env st), set_req (rq (env st)) p, rest)
        | Crash c => inl c
        end
  end
with decode_to_batch (fuel : nat) (s : S) (rest : list tdhs_packet_t) : crash + Z * S * list tdhs_packet_t :=
  match fuel with
  | O => inl Fuel
  | Datatypes.S fuel =>
      match rest with
      | [] => inr (EASY_OK, s, [])
      | b :: rest =>
          match decode_request fuel s b rest with
          | inl c => inl c
          | inr (rc, s, b, rest) =>
              if negb (rc =? EASY_OK) then inr (EASY_ERROR, s, b :: rest)
              else if (type (req b) =? REQUEST_TYPE_GET) || (type (req b) =? REQUEST_TYPE_COUNT)
              then inr (EASY_ERROR, s, b :: rest)
              else match decode_to_batch fuel s rest with
                   | inl c => inl c
                   | inr (rc, s, rest) => inr (rc, s, b :: rest)
                   end
          end
      end
  end.

(** ** The packets decode_request may be given *)

Definition packet_good (p : tdhs_packet_t) : Prop :=
  shaped (req p) /\ packet_in data (TdhsProtocol.length p) (rdata p).

End decode.

(** The entry points. *)
Definition enough_fuel (rest : list tdhs_packet_t) : nat := 2 * List.length rest + 2.
Definition decode_request_by_binary {S} (data : list Z) (s : S) (p : tdhs_packet_t) (rest : list tdhs_packet_t) :=
  decode_request data v1 (enough_fuel rest) s p rest.
Definition decode_request_by_binary_v2 {S} `{EasyPool.PoolOps S} (data : list Z) (s : S) (p : tdhs_packet_t)
    (rest : list tdhs_packet_t) :=
  decode_request data v2 (enough_fuel rest) s p rest.

(** ** Theorems *)
Section theorems.
Context {S : Type} (v : version S) `{!VersionLaws v}.
Variable data : list Z.
Hypothesis data_ok : bytes_ok data.

Definition request_bytes (p : tdhs_packet_t) : list Z := bytes_at data (TdhsProtocol.length p) (rdata p).
Definition is_batch (p : tdhs_packet_t) : Prop := command_id_or_response_code p = REQUEST_TYPE_BATCH.
#[local] Instance is_batch_dec p : Decision (is_batch p).
Proof. unfold is_batch. apply _. Defined.

Lemma type_not_batch r : type_of r <> REQUEST_TYPE_BATCH.
Proof. by destruct r. Qed.

Lemma good_typed t p : packet_good data p -> shaped (set_type t (req p)).
Proof. by intros [Hs _]. Qed.

(** A packet that is not a batch. *)
Lemma single_step fuel s p rest : ~ is_batch p ->
  decode_request data v (Datatypes.S fuel) s p rest =
  match decode_single data v (command_id_or_response_code p)
          (start_state (set_type (command_id_or_response_code p) (req p)) s (TdhsProtocol.length p) (rdata p)) with
  | Next _ st => inr (EASY_OK, pl (env st), set_req (rq (env st)) p, rest)
  | Return rc st => inr (rc, pl (env st), set_req (rq (env st)) p, rest)
  | Crash c => inl c
  end.
Proof. intros Hb. cbn [decode_request]. by destruct (Z.eqb_spec (command_id_or_response_code p) REQUEST_TYPE_BATCH). Qed.

Lemma batch_step fuel s b ps :
  decode_to_batch data v (Datatypes.S fuel) s (b :: ps) =
  match decode_request data v fuel s b ps with
  | inl c => inl c
  | inr (rc, s, b, ps) =>
      if negb (rc =? EASY_OK) then inr (EASY_ERROR, s, b :: ps)
      else if (type (req b) =? REQUEST_TYPE_GET) || (type (req b) =? REQUEST_TYPE_COUNT)
      then inr (EASY_ERROR, s, b :: ps)
      else match decode_to_batch data v fuel s ps with
           | inl c => inl c
           | inr (rc, s, ps) => inr (rc, s, b :: ps)
           end
  end.
Proof. reflexivity. Qed.

Lemma request_step fuel s p ps : is_batch p ->
  decode_request data v (Datatypes.S fuel) s p ps =
  match decode_to_batch data v fuel s ps with
  | inl c => inl c
  | inr (rc, s, ps) => inr (rc, s, set_req (set_type REQUEST_TYPE_BATCH (req p)) p, ps)
  end.
Proof. intros Hb. cbn [decode_request]. by rewrite Hb, Z.eqb_refl. Qed.

Lemma decode_single_ok fuel s p rest r : packet_good data p -> command_id_or_response_code p = type_of r ->
  request_ok r -> keys_fit v r s -> enc_request r = request_bytes p ->
  exists s' q, decode_request data v (Datatypes.S fuel) s p rest = inr (EASY_OK, s', set_req q p, rest) /\
    request_holds data r q.
Proof.
  intros Hp Ht Hr Hk He. rewrite single_step by (unfold is_batch; rewrite Ht; apply type_not_batch).
  destruct (decodes_single v data data_ok (command_id_or_response_code p) _ s _ _ (good_typed (command_id_or_response_code p) p Hp) (proj2 Hp)) as (_ & Hc & _).
  destruct (Hc r (eq_sym Ht) Hr Hk He) as (st & -> & Hh). by eexists _, _.
Qed.

Lemma decode_single_inv fuel s p rest rc s' p' rest' : packet_good data p -> ~ is_batch p ->
  decode_request data v (Datatypes.S fuel) s p rest = inr (rc, s', p', rest') ->
  rest' = rest /\ (exists q, p' = set_req q p) /\ (rc = EASY_OK -> packet_good data p' /\
    type (req p') = command_id_or_response_code p /\ exists r, command_id_or_response_code p = type_of r /\ request_ok r /\ keys_fit v r s /\ enc_request r = request_bytes p /\
    request_holds data r (req p')).
Proof.
  intros Hp Hb. rewrite single_step by done.
  destruct (decodes_single v data data_ok (command_id_or_response_code p) _ s _ _ (good_typed (command_id_or_response_code p) p Hp) (proj2 Hp)) as (Hs & _ & Hok).
  destruct (decode_single _ _ _ _) as [[] st|rc1 st|c]; [| |done]; intros [= <- <- <- <-].
  - split; [done|]. split; [by eexists|]. intros _. destruct (Hs st eq_refl) as (r & H1 & H2 & H3 & H4 & H5 & H6 & H7).
    split; [split; [done|apply Hp]|]. split; [exact H7|]. by exists r.
  - split; [done|]. split; [by eexists|]. done.
Qed.

(** C9 (roundtrip).  Decoding is complete: the bytes of a valid request whose
    keys there is room for (ten of them in version 1; in version 2 as many as
    the pool has memory for) are decoded with EASY_OK, in either version, and
    the request structure says what the request says: every string by its
    length and its place in the packet, every operator, the range, and the
    first 256 of the fields, filters and values. *)
Theorem decode_request_roundtrip s p rest r : packet_good data p -> command_id_or_response_code p = type_of r ->
  request_ok r -> keys_fit v r s -> enc_request r = request_bytes p ->
  exists s' q, decode_request data v (enough_fuel rest) s p rest = inr (EASY_OK, s', set_req q p, rest) /\
    request_holds data r q.
Proof.
  unfold enough_fuel. rewrite Nat.add_comm. apply decode_single_ok.
Qed.


(** What decoding a chain may do: end with a return code, the packets still in
    place, or run over an array of keys. *)
Definition chain_post (ps : list tdhs_packet_t) (x : crash + Z * S * list tdhs_packet_t) : Prop :=
  match x with
  | inl c => safe_crash c
  | inr (rc, _, ps') => List.length ps' = List.length ps /\ (rc = EASY_OK -> Forall (packet_good data) ps')
  end.

Definition request_post (p : tdhs_packet_t) (ps : list tdhs_packet_t)
    (x : crash + Z * S * tdhs_packet_t * list tdhs_packet_t) : Prop :=
  match x with
  | inl c => safe_crash c
  | inr (rc, _, p', ps') =>
      List.length ps' = List.length ps /\ (rc = EASY_OK -> packet_good data p' /\ Forall (packet_good data) ps')
  end.

Lemma good_batch t p : packet_good data p -> packet_good data (set_req (set_type t (req p)) p).
Proof. by intros [? ?]. Qed.

Lemma decode_chain_post fuel : forall s ps,
  (forall p, packet_good data p -> Forall (packet_good data) ps -> (2 * List.length ps + 2 <= fuel)%nat ->
     request_post p ps (decode_request data v fuel s p ps)) /\
  (Forall (packet_good data) ps -> (2 * List.length ps + 1 <= fuel)%nat -> chain_post ps (decode_to_batch data v fuel s ps)).
Proof.
  induction fuel as [|fuel IH]; intros s ps; [split; intros; lia|]. split.
  - intros p Hp Hps Hf. destruct (decide (is_batch p)) as [Hb|Hb].
    + rewrite request_step by done. destruct (IH s ps) as [_ IHc]. specialize (IHc Hps ltac:(lia)).
      destruct (decode_to_batch data v fuel s ps) as [c|[[rc s1] ps1]]; [exact IHc|]. destruct IHc as [Hl Hok].
      split; [done|]. intros Hrc. split; [by apply good_batch|auto].
    + rewrite single_step by done. unfold request_post.
      destruct (decodes_single v data data_ok (command_id_or_response_code p) _ s _ _
        (good_typed (command_id_or_response_code p) p Hp) (proj2 Hp)) as (Hs & _ & Hok).
      destruct (decode_single _ _ _ _) as [[] st|rc1 st|c]; [| |done].
      * split; [done|]. intros _. destruct (Hs st eq_refl) as (r & _ & _ & _ & _ & _ & H6 & _). split; [|done]. split; [done|apply Hp].
      * split; [done|]. intros Hrc. by rewrite Hrc in Hok.
  - intros Hps Hf. destruct ps as [|b ps]; [split; [done|intros; by apply list.Forall_nil]|]. rewrite batch_step. apply list.Forall_cons in Hps as [Hb Hps].
    cbn [List.length] in Hf. destruct (IH s ps) as [IHr _]. specialize (IHr b Hb Hps ltac:(lia)).
    destruct (decode_request data v fuel s b ps) as [c|[[[rc s1] b1] ps1]]; [exact IHr|]. destruct IHr as [Hl Hok].
    destruct (Z.eqb_spec rc EASY_OK) as [->|Hrc]; cbn [negb].
    2: { split; [cbn [List.length]; lia|done]. }
    destruct (Hok eq_refl) as [Hb1 Hps1].
    destruct (_ || _); [split; [cbn [List.length]; lia|done]|].
    destruct (IH s1 ps1) as [_ IHc]. specialize (IHc Hps1 ltac:(lia)).
    destruct (decode_to_batch data v fuel s1 ps1) as [c|[[rc2 s2] ps2]]; [exact IHc|]. destruct IHc as [Hl2 Hok2].
    split; [cbn [List.length]; lia|]. intros Hrc. constructor; [done|auto].
Qed.

End theorems.

(** ** Batches *)
Section batch.
Context {S : Type}.
Variable data : list Z.
Hypothesis data_ok : bytes_ok data.

Definition is_write (r : request_v) : Prop :=
  match r with UpdateV _ _ _ | DeleteV _ _ | InsertV _ _ => True | GetV _ _ | CountV _ _ => False end.
(** The keys fit the request structure. *)
Definition ten_keys (r : request_v) : Prop :=
  forall c, cond_of r = Some c -> count (c_keys c) <= Z.of_nat REQUEST_MAX_KEY_NUM.
Definition write_packet (p : tdhs_packet_t) : Prop := exists r,
  command_id_or_response_code p = type_of r /\ is_write r /\ request_ok r /\ ten_keys r /\
  enc_request r = request_bytes data p.

Lemma ten_keys_fit (s : S) r : ten_keys r <-> keys_fit v1 r s.
Proof. done. Qed.

Lemma write_type r : is_write r <-> (type_of r =? REQUEST_TYPE_GET) || (type_of r =? REQUEST_TYPE_COUNT) = false.
Proof. by destruct r. Qed.

(** C19 (equivalence).  A batch in version 1 whose packets lie inside the bytes
    received and are not batches themselves is decoded with EASY_OK if and only if every one of its packets
    is the encoding of a valid update, delete or insert request with at most ten
    keys: reads are
    refused, and the first packet that is refused refuses the batch. *)
Theorem decode_to_batch_exact fuel (s : S) ps : Forall (packet_good data) ps -> Forall (fun p => ~ is_batch p) ps ->
  (2 * List.length ps + 1 <= fuel)%nat ->
  (exists s' ps', decode_to_batch data v1 fuel s ps = inr (EASY_OK, s', ps')) <-> Forall write_packet ps.
Proof.
  revert fuel s. induction ps as [|b ps IH]; intros fuel s Hg Hn Hf; (destruct fuel as [|fuel]; [lia|]).
  { split; [intros _; by apply list.Forall_nil|]. intros _. by eexists _, _. }
  apply list.Forall_cons in Hg as [Hb Hg]. apply list.Forall_cons in Hn as [Hnb Hn]. cbn [List.length] in Hf.
  rewrite batch_step. destruct fuel as [|fuel]; [lia|]. rewrite list.Forall_cons. split.
  - intros (s' & ps' & H). destruct (decode_request data v1 (Datatypes.S fuel) s b ps) as [c|[[[rc s1] b1] ps1]] eqn:E; [done|].
    destruct (decode_single_inv v1 data data_ok _ _ _ _ _ _ _ _ Hb Hnb E) as (-> & _ & Hok).
    destruct (Z.eqb_spec rc EASY_OK) as [->|]; [|done]. cbn [negb] in H.
    destruct (Hok eq_refl) as (_ & Ht & r & H1 & H2 & H3 & H4 & _). rewrite Ht, H1 in H.
    destruct (_ || _) eqn:Hw in H; [done|]. split; [exists r; split_and!; try done; by apply write_type|].
    destruct (decode_to_batch data v1 (Datatypes.S fuel) s1 ps) as [c|[[rc2 s2] ps2]] eqn:E2; [done|].
    injection H as -> <- <-. apply (IH (Datatypes.S fuel) s1 Hg Hn ltac:(lia)). by eexists _, _.
  - intros [(r & H1 & H2 & H3 & H4 & H5) Hall].
    destruct (decode_single_ok v1 data data_ok fuel s b ps r Hb H1 H3 H4 H5) as (s1 & q & E & _). rewrite E.
    rewrite Z.eqb_refl. cbn [negb].
    destruct (decode_single_inv v1 data data_ok _ _ _ _ _ _ _ _ Hb Hnb E) as (_ & _ & Hok).
    destruct (Hok eq_refl) as (_ & Ht & _). rewrite Ht, H1. rewrite (proj1 (write_type r) H2).
    destruct (proj2 (IH (Datatypes.S fuel) s1 Hg Hn ltac:(lia)) Hall) as (s2 & ps2 & ->). by eexists _, _.
Qed.
End batch.

(** ** From the bytes received to the request *)
Section pipeline.
Context {S : Type} `{EasyPool.PoolOps S}.

Lemma placed_end data o l : placed data o l -> l <> [] -> o + count l <= count data.
Proof.
  intros [Ho Hp] Hne. apply prefix_length in Hp. rewrite length_drop in Hp.
  assert (0 < List.length l)%nat by (destruct l; [done|simpl; lia]). unfold count. lia.
Qed.

Lemma frame_bytes_ne f : frame_bytes f <> [].
Proof. done. Qed.

Lemma frame_good data now o f (mk : Z -> Z -> frame -> tdhs_packet_t) : placed data o (frame_bytes f) -> frame_ok f ->
  (forall r, shaped (req (mk now r f)) /\ TdhsProtocol.length (mk now r f) = count (f_body f) /\ rdata (mk now r f) = r) ->
  packet_good data (mk now (o + TDH_SOCKET_HEADER_LENGTH) f).
Proof.
  intros Hp Hf Hmk. destruct (Hmk (o + TDH_SOCKET_HEADER_LENGTH)) as (H1 & H2 & H3). split; [done|].
  rewrite H2, H3. pose proof (placed_end _ _ _ Hp (frame_bytes_ne f)) as He. rewrite frame_count in He.
  destruct Hf as (_ & _ & _ & _ & Hw). destruct Hp as [Ho _]. unfold packet_in, word, TDH_SOCKET_HEADER_LENGTH in *. lia.
Qed.

Lemma chain_good data now fs : forall pos k p, packet_good data p -> Forall frame_ok fs ->
  placed data pos (concat (map frame_bytes fs)) -> Forall (packet_good data) (chain now pos k p fs).
Proof.
  induction fs as [|f fs IH]; intros pos k p Hp Hok Hpl; cbn [chain]; [by constructor|].
  apply list.Forall_cons in Hok as [Hf Hok]. cbn [map concat] in Hpl. apply placed_app in Hpl as [H1 H2].
  constructor; [done|]. apply IH; [|done|done]. apply (frame_good data now pos f inner_packet); [done..|].
  intros r. split; [apply zero_request_shaped|done].
Qed.

Lemma chain_cons now pos k p fs : exists p' ps, chain now pos k p fs = p' :: ps.
Proof. destruct fs; by eexists _, _. Qed.

(** C18 (termination).  From the bytes of a connection to a request, whatever the
    bytes, provided a batch announces less than 192082 packets (so that the size of
    their array fits 32 bits): if tdhs_decode returns packets, decoding them, in either
    version and batches of batches included, ends within the fuel given, reads only
    bytes of the message and keeps the chain; the one way to leave defined behaviour
    is an index beyond the ten components of a key or beyond an array of keys, to
    write there or to read. *)
Theorem decode_message_terminates now m p ps m' s (v : version S) `{!VersionLaws v} : message_ok m ->
  (forall com seq rev len, GET_HEADER_INFO (input m) (input_pos m) = Some (com, seq, rev, len) ->
     com = REQUEST_TYPE_BATCH -> packets_size rev < 2 ^ 32) ->
  tdhs_decode now m = Some (Some (p :: ps), m') ->
  request_post (input m) p ps (decode_request (input m) v (enough_fuel ps) s p ps).
Proof.
  intros Hmo Hb Hd. destruct (decode_total now m Hmo Hb) as (r & m1 & E & _ & Hps).
  rewrite Hd in E. injection E as <- <-.
  destruct (Hps _ eq_refl) as (f & fs & Hp & Hf & _ & _ & Hfs & _ & [t Hpre] & Ech & _).
  destruct (header_of_frame _ _ f Hp Hf) as (_ & _ & Hbody). rewrite Hpre in Hbody. apply placed_app in Hbody as [Hbody _].
  assert (Forall (packet_good (input m)) (p :: ps)) as Hgood.
  { rewrite Ech. apply chain_good; [|done|done]. apply (frame_good _ now (input_pos m) f outer_packet); [done..|].
    intros r. split; [apply zero_request_shaped|done]. }
  apply list.Forall_cons in Hgood as [H1 H2]. apply (decode_chain_post v (input m)); [apply Hmo|done|done|]. done.
Qed.

End pipeline.

(** ** Examples *)

Definition demo_table : table_v := TableV [100; 0] [116; 0] [] [].
Definition demo_request : request_v := DeleteV demo_table (CondV [[[107; 0]]] 0 0 1 []).
Definition packet_of (r : request_v) : tdhs_packet_t :=
  Packet (type_of r) 1 0 (count (enc_request r)) 0 None zero_request 0 None.

Lemma str_ok_2 c : 0 <= c < 256 -> str_ok [c; 0].
Proof.
  intros Hc. split; [|split; [by vm_compute|right; by exists [c]]]. repeat (constructor; [lia|]). constructor.
Qed.

Lemma str_ok_nil : str_ok [].
Proof. split; [constructor|]. split; [by vm_compute|by left]. Qed.

Lemma all_ok_nil {A} (P : Z -> A -> Prop) : all_ok P [].
Proof. split; [by vm_compute|done]. Qed.

Lemma all_ok_1 {A} (P : Z -> A -> Prop) x : P 0 x -> all_ok P [x].
Proof. intros HP. split; [by vm_compute|]. intros [|i] y Hy; [by injection Hy as <-|done]. Qed.

Lemma demo_request_ok : request_ok demo_request.
Proof.
  split.
  - split; [by apply str_ok_2|]. split; [by apply str_ok_2|]. split; [apply str_ok_nil|]. split; [apply all_ok_nil|done].
  - split; [|split; [done|]].
    + apply all_ok_1. split; [by vm_compute|]. apply all_ok_1. by apply str_ok_2.
    + split; [by vm_compute|]. split; [by vm_compute|]. split; [by vm_compute|]. split; [apply all_ok_nil|done].
Qed.

Lemma demo_bytes_ok : bytes_ok (enc_request demo_request).
Proof. bytes. Qed.

Lemma demo_packet_good : packet_good (enc_request demo_request) (packet_of demo_request).
Proof. split; [apply zero_request_shaped|]. repeat split; vm_compute; congruence. Qed.

Lemma demo_keys (s : unit) : keys_fit v1 demo_request s.
Proof. intros c [= <-]. by vm_compute. Qed.

Lemma decode_request_roundtrip_witness : exists q,
  decode_request_by_binary (enc_request demo_request) tt (packet_of demo_request) [] =
    inr (EASY_OK, tt, set_req q (packet_of demo_request), []) /\
  request_holds (enc_request demo_request) demo_request q.
Proof.
  destruct (decode_request_roundtrip v1 (enc_request demo_request) demo_bytes_ok tt (packet_of demo_request) [] demo_request
    demo_packet_good eq_refl demo_request_ok (demo_keys tt) eq_refl) as ([] & q & E & Hq).
  exists q. split; [exact E|exact Hq].
Defined.

Lemma demo_decoded : exists p', decode_request (enc_request demo_request) v1 (enough_fuel []) tt (packet_of demo_request) [] =
  inr (EASY_OK, tt, p', []).
Proof.
  destruct (decode_single_ok v1 (enc_request demo_request) demo_bytes_ok 1 tt (packet_of demo_request) [] demo_request
    demo_packet_good eq_refl demo_request_ok (demo_keys tt) eq_refl) as ([] & q & E & _). eexists. exact E.
Qed.


Lemma decode_to_batch_exact_witness : exists s' ps',
  decode_to_batch (enc_request demo_request) v1 5 tt [packet_of demo_request; packet_of demo_request] = inr (EASY_OK, s', ps').
Proof.
  assert (write_packet (enc_request demo_request) (packet_of demo_request)) as Hw.
  { exists demo_request. split; [done|]. split; [done|]. split; [apply demo_request_ok|].
    split; [apply (ten_keys_fit tt), demo_keys|reflexivity]. }
  apply (proj2 (decode_to_batch_exact (enc_request demo_request) demo_bytes_ok 5 tt
    [packet_of demo_request; packet_of demo_request]
    ltac:(repeat (constructor; [apply demo_packet_good|]); constructor)
    ltac:(repeat (constructor; [discriminate|]); constructor) ltac:(cbn; lia))).
  repeat (constructor; [exact Hw|]). constructor.
Defined.

Definition request_message : easy_message_t (EasyPool.slots * EasyPool.easy_pool_t) :=
  demo_message (frame_bytes (Frame TDHS_MAGIC_CODE REQUEST_TYPE_DELETE 7 0 (enc_request demo_request))).

Lemma decode_message_terminates_witness : exists p ps m', tdhs_decode 5 request_message = Some (Some (p :: ps), m') /\
  request_post (input request_message) p ps (decode_request (input request_message) v1 (enough_fuel ps) EasyPool.demo_pool p ps).
Proof.
  assert (message_ok request_message) as Hm by (apply demo_message_ok; [bytes|vm_compute; done]).
  destruct (tdhs_decode 5 request_message) as [[[[|p ps]|] m']|] eqn:E; try (vm_compute in E; discriminate).
  exists p, ps, m'. split; [done|].
  apply (decode_message_terminates 5 request_message p ps m' EasyPool.demo_pool v1 Hm); [|exact E].
  intros com seq rev len Eh Hc. vm_compute in Eh. injection Eh as <- <- <- <-. discriminate Hc.
Defined.

Definition wide_key : request_v := DeleteV demo_table (CondV [replicate 11 [107; 0]] 0 0 1 []).
Definition many_keys : request_v := DeleteV demo_table (CondV (replicate 11 [[107; 0]]) 0 0 1 []).
Definition wrapped_keys : list Z := enc_table demo_table ++ htonl_bytes 25565282 ++ enc_key [[107; 0]].

(** Requests a client can send that leave defined behaviour: a key
    of eleven components writes beyond the ten of the structure (both versions);
    in version 1 eleven keys are read beyond the ten of the request; in version
    2 a number of keys of 25565282 allocates 80 bytes, less than one key. *)
Theorem decode_request_overflows :
  decode_request_by_binary (enc_request wide_key) tt (packet_of wide_key) [] = inl KeyFields /\
  decode_request_by_binary_v2 (enc_request wide_key) EasyPool.demo_pool (packet_of wide_key) [] = inl KeyFields /\
  decode_request_by_binary (enc_request many_keys) tt (packet_of many_keys) [] = inl Keys /\
  decode_request_by_binary_v2 wrapped_keys EasyPool.demo_pool
    (Packet REQUEST_TYPE_DELETE 1 0 (count wrapped_keys) 0 None zero_request 0 None) [] = inl Keys.
Proof. split_and!; vm_compute; reflexivity. Qed.

End TdhsBatch.
