(* ===== verification/TdhsConnection.v ===== *)
(** * TDHSocket: connections, permissions and dispatch

    What the I/O thread does with a packet (tdh_socket_handler.cpp):
    the first packet of a connection is a handshake
    (tdh_socket_connection_context.cpp) whose codes are compared with those of
    the server (tdh_socket_share.cpp); then requests are decoded, their
    permission is checked, and they are handed to a thread of the pool for
    quick reads, slow reads or writes (tdh_socket_optimize.cpp,
    tdh_socket_table_balance.cpp).  [None] is an access outside an object. *)

From Stdlib Require Import Ascii.
From Stdlib Require Import ZArith Lia.
From stdpp Require Import base list numbers option.
From S2P Require Import Prelude CString EasyHash EasyPool TdhsDefine TdhsRead TdhsProtocol TdhsDecode TdhsFormat TdhsDecodeTheorems TdhsBatch.

Local Open Scope Z_scope.

Module TdhsConnection.
Import TdhsDefine TdhsRead TdhsProtocol TdhsDecode TdhsDecodeTheorems TdhsBatch.

(** ** Codes *)

(** [tdhs_string_t::compare] of the bytes of two strings. *)
Fixpoint compare (v1 v2 : list Z) : Z :=
  match v1, v2 with
  | c1 :: v1, c2 :: v2 => if negb (c1 =? c2) then i8 c1 - i8 c2 else compare v1 v2
  | _, _ => i32 (count v1 - count v2)
  end.

Definition MAX_AUTH_CODE_LENGTH : Z := 256.

(** What the configuration variable points to: nothing, a string of MySQL's with
    its terminator, or the copy itself. *)
Inductive code_ptr := NoCode | External (s : list Z) | Copy.

(** The variable, the copy, and the length of the string over it. *)
Record auth_code := AuthCode { code : code_ptr; code_char : list Z; code_string_len : Z }.

Definition reset_auth_code (a : auth_code) : option auth_code :=
  let zeros := replicate (Z.to_nat MAX_AUTH_CODE_LENGTH) 0 in
  match code a with
  | NoCode => Some (AuthCode Copy zeros 0)
  | c =>
      s ← cstr (match c with External s => s | _ => code_char a end);
      let code_len := count s in
      let code_len := if MAX_AUTH_CODE_LENGTH <=? code_len then MAX_AUTH_CODE_LENGTH - 1 else code_len in
      l ← gets (match c with External s => s | _ => zeros end) 0 (Z.to_nat code_len);
      char ← puts zeros 0 l;
      Some (AuthCode Copy char (code_len + 1))
  end.

Definition code_string (a : auth_code) : list Z := take (Z.to_nat (code_string_len a)) (code_char a).

(** [tdhs_auth_read] and [tdhs_auth_write]. *)
Definition tdhs_auth (a : auth_code) (s : list Z) : bool := compare (code_string a) s =? 0.

(** ** The context of a connection *)

Definition PERMISSION_READ : Z := 1.
Definition PERMISSION_WRITE : Z := Z.shiftl 1 1.
Definition onBit (flag bit : Z) : Z := Z.lor flag bit.
Definition testFlag (flag bit : Z) : bool := Z.land flag bit =? bit.

(** [decode_request] is the decoder of a version of the protocol. *)
Inductive protocol := Binary | BinaryV2.
Record context := Context { is_shaked : bool; decode_with : option protocol; time_out : Z; permission : Z }.
Definition init_context : context := Context false None 0 0.

Definition TDHS_PROTOCOL_END : Z := 3.
Definition decode_request_array (version : Z) : option protocol :=
  if version =? 1 then Some Binary else if version =? 2 then Some BinaryV2 else None.

Definition SHAKE_HANDS_HEADER : list Z := [chr "T"; chr "D"; chr "H"; chr "S"].
Definition SHAKE_HANDS_TOTAL_SIZE : Z := 12.

Definition u_first : (tdhs_string_t -> tdhs_string_t) -> tdhs_string_t * tdhs_string_t -> option (tdhs_string_t * tdhs_string_t) :=
  fun f e => Some (f (fst e), snd e).
Definition u_second : (tdhs_string_t -> tdhs_string_t) -> tdhs_string_t * tdhs_string_t -> option (tdhs_string_t * tdhs_string_t) :=
  fun f e => Some (fst e, f (snd e)).

(** The bytes of a string of the message, terminator included. *)
Definition string_bytes (data : list Z) (s : tdhs_string_t) : option (list Z) :=
  match str s with At o => gets data (Z.to_nat o) (Z.to_nat (len s)) | _ => Some [] end.

Local Open Scope easy_scope.
(** The codes at the end of a handshake. *)
Definition read_codes (data : list Z) : M (tdhs_string_t * tdhs_string_t) unit := read_string data u_first ;; read_string data u_second.
Local Close Scope easy_scope.

Section handshake.
(** The codes of the server. *)
Variables read_code write_code : auth_code.

Definition shake_hands_if (data : list Z) (request : tdhs_packet_t) (c : context) : option (Z * context) :=
  if is_shaked c then Some (EASY_OK, c)
  else
    bad ← (if negb (command_id_or_response_code request =? REQUEST_TYPE_SHAKE_HANDS) ||
              (length request <? SHAKE_HANDS_TOTAL_SIZE) then Some true
           else h ← gets data (Z.to_nat (rdata request)) 4; Some (negb (bool_decide (h = SHAKE_HANDS_HEADER))));
    if (bad : bool) then
      info ← gets data (Z.to_nat (rdata request)) (Z.to_nat SHAKE_HANDS_TOTAL_SIZE);
      Some (EASY_ERROR, c)
    else
      protocol_version ← load32 data (rdata request + 4);
      if TDHS_PROTOCOL_END <=? protocol_version then Some (EASY_ERROR, c)
      else
        let d := decode_request_array protocol_version in
        match d with
        | None => Some (EASY_ERROR, Context false d (time_out c) (permission c))
        | Some _ =>
            t ← load32 data (rdata request + 8);
            match read_codes data (State (no_string, no_string) (u32 (length request - SHAKE_HANDS_TOTAL_SIZE)) (rdata request + SHAKE_HANDS_TOTAL_SIZE)) with
            | Crash _ => None
            | Return rc _ => Some (rc, Context false d t (permission c))
            | Next _ st =>
                r ← string_bytes data (fst (env st));
                w ← string_bytes data (snd (env st));
                let p := permission c in
                let p := if tdhs_auth read_code r then onBit p PERMISSION_READ else p in
                let p := if tdhs_auth write_code w then onBit p PERMISSION_WRITE else p in
                Some (EASY_AGAIN, Context true d t p)
            end
        end.
End handshake.

Definition can_read (auth_on : bool) (c : context) : bool := if auth_on then testFlag (permission c) PERMISSION_READ else true.
Definition can_write (auth_on : bool) (c : context) : bool := if auth_on then testFlag (permission c) PERMISSION_WRITE else true.

(** [decode]: the result of the decoder, and the state of the request. *)
Section decoding.
Context {S : Type} `{EasyPool.PoolOps S}.
Definition run_decoder (d : protocol) (data : list Z) (s : S) (p : tdhs_packet_t) (rest : list tdhs_packet_t) :=
  match d with Binary => decode_request_by_binary data s p rest | BinaryV2 => decode_request_by_binary_v2 data s p rest end.
Definition set_req_status (v : Z) (p : tdhs_packet_t) : tdhs_packet_t := set_req (TdhsDefine.set_status v (req p)) p.

Definition context_decode (c : context) (data : list Z) (s : S) (p : tdhs_packet_t) (rest : list tdhs_packet_t)
    : option (Z * S * tdhs_packet_t * list tdhs_packet_t) :=
  d ← decode_with c;
  match run_decoder d data s p rest with
  | inl _ => None
  | inr (state, s, p, rest) =>
      if negb (state =? 0) then
        Some (if state =? ERROR_OUT_OF_IN then ERROR_OUT_OF_IN else EASY_ERROR, s, set_req_status TDHS_DECODE_FAILED p, rest)
      else Some (EASY_OK, s, set_req_status TDHS_DECODE_DONE p, rest)
  end.
End decoding.

(** ** Choosing a thread *)

Inductive tdhs_optimize_t := TDHS_QUICK | TDHS_SLOW | TDHS_WRITE.
#[export] Instance optimize_eq : EqDecision tdhs_optimize_t.
Proof. solve_decision. Defined.

(** The settings of the server.  [filter]: whether the current Bloom filter, if
    there are filters, knows the hash of a request; [stream_count] and
    [task_count]: what the thread of a pool is busy with; [connection_key]: the
    hash of the address of the connection. *)
Record config := Config {
  auth_on : bool; auth_read_code : auth_code; auth_write_code : auth_code;
  thread_strategy : Z; tdhs_optimize_on : bool; filter : option (Z -> bool);
  tdhs_thread_num : Z; active_slow_read_thread_num : Z;
  concurrency_insert : bool; concurrency_update : bool; concurrency_delete : bool;
  quick_limit : Z; slow_limit : Z; write_limit : Z; slow_read_limit : bool;
  thread_count : tdhs_optimize_t -> Z; stream_count : tdhs_optimize_t -> Z -> option Z; task_count : tdhs_optimize_t -> Z -> Z;
  connection_key : Z }.

(** The counters of tdh_socket_optimize.cpp and tdh_socket_table_balance.cpp. *)
Record counters := Counters {
  poll_key : Z; total_execute_count : Z; table_execute_count : Z -> Z; quick_hash_key : Z; slow_hash_key : Z; round_hash_key : Z }.

(** The text of a string: [str] and [strlen()]. *)
Definition string_text (data : list Z) (s : tdhs_string_t) : option (list Z) :=
  match str s with
  | At o => gets data (Z.to_nat o) (Z.to_nat (strlen s))
  | PRIMARY => Some (take (Z.to_nat (strlen s)) [chr "P"; chr "R"; chr "I"; chr "M"; chr "A"; chr "R"; chr "Y"])
  | _ => Some []
  end.

(** [hash_code_table()]: computed once. *)
Definition hash_code_table (data : list Z) (t : tdhs_request_table_t) : option Z :=
  if hash_code_for_table t =? 0 then
    d ← string_text data (db t); n ← string_text data (table t); make_hash_code_for_table d n
  else Some (hash_code_for_table t).

Definition hash_string (data : list Z) (s : tdhs_string_t) : option Z :=
  l ← string_text data s; Some (EasyHash.easy_hash_code l 5).
(** Folding a hash into what was hashed so far. *)
Definition fold_in (hash h : Z) : Z := if negb (hash =? 0) then fold hash h else h.

Fixpoint calc_hash_key (data : list Z) (n : nat) (key : list tdhs_string_t) (hash : Z) : option Z :=
  match n with
  | O => Some hash
  | Datatypes.S n => s ← head key; h ← hash_string data s; calc_hash_key data n (tail key) (fold_in hash h)
  end.
Fixpoint calc_hash_keys (data : list Z) (n : nat) (keys : list tdhs_get_key_t) (hash : Z) : option Z :=
  match n with
  | O => Some hash
  | Datatypes.S n =>
      k ← head keys; h ← calc_hash_key data (Z.to_nat (key_field_num k)) (key k) 0; calc_hash_keys data n (tail keys) (fold_in hash h)
  end.
Definition calc_hash_get (data : list Z) (q : tdhs_request_t) : option Z :=
  t ← hash_code_table data (table_info q);
  i ← hash_string data (index (table_info q));
  k ← calc_hash_keys data (Z.to_nat (key_num (get q))) (key_array (get q)) 0;
  let hash := fold (fold t i) k in
  let hash := fold hash (EasyHash.easy_hash_key (find_flag (get q))) in
  let hash := fold hash (EasyHash.easy_hash_key (start (get q))) in
  Some (fold hash (EasyHash.easy_hash_key (limit (get q)))).

Definition is_read (q : tdhs_request_t) : bool := (type q =? REQUEST_TYPE_GET) || (type q =? REQUEST_TYPE_COUNT).

(** Strategy 2: the reads are spread over the quick and the slow threads. *)
Definition spread (cf : config) (n : counters) : tdhs_optimize_t * counters :=
  let hash := EasyHash.easy_hash_key (poll_key n) in
  (if hash mod u32 (tdhs_thread_num cf + active_slow_read_thread_num cf) <=? tdhs_thread_num cf then TDHS_QUICK else TDHS_SLOW,
   Counters (u64 (poll_key n + 1)) (total_execute_count n) (table_execute_count n) (quick_hash_key n) (slow_hash_key n) (round_hash_key n)).

Definition set_optimize_hash v q := Request (TdhsDefine.status q) (type q) (table_info q) (get q) (values q) v.

Definition optimize (cf : config) (data : list Z) (q : tdhs_request_t) (n : counters) : option (tdhs_optimize_t * tdhs_request_t * counters) :=
  if is_read q then
    if thread_strategy cf =? 1 then Some (TDHS_QUICK, q, n)
    else
      let default := let '(o, n) := spread cf n in Some (o, q, n) in
      if thread_strategy cf =? 3 then
        match filter cf with
        | Some check =>
            if tdhs_optimize_on cf then
              hash ← calc_hash_get data q;
              Some (if check hash then TDHS_QUICK else TDHS_SLOW, set_optimize_hash hash q, n)
            else default
        | None => default
        end
      else default
  else Some (TDHS_WRITE, q, n).

Definition TDHS_GUESS_TABLE_NUM : Z := 64 * 1024.

Definition next_round (n : counters) : Z * counters :=
  (EasyHash.easy_hash_key (round_hash_key n),
   Counters (poll_key n) (total_execute_count n) (table_execute_count n) (quick_hash_key n) (slow_hash_key n) (u64 (round_hash_key n + 1))).

Definition table_need_balance (cf : config) (data : list Z) (q : tdhs_request_t) (o : tdhs_optimize_t) (custom_hash : Z) (n : counters)
    : option (Z * counters) :=
  if is_read q then
    hash ← hash_code_table data (table_info q);
    let i := hash mod TDHS_GUESS_TABLE_NUM in
    let table_count := u64 (table_execute_count n i + 1) in
    let total_count := u64 (total_execute_count n + 1) in
    let n := Counters (poll_key n) total_count (fun j => if j =? i then table_count else table_execute_count n j)
               (quick_hash_key n) (slow_hash_key n) (round_hash_key n) in
    if bool_decide (o = TDHS_QUICK) && (0 <? custom_hash) && (thread_strategy cf =? 1) then Some (custom_hash, n)
    else if table_count =? 0 then None
    else
      let '(hash, n) :=
        if total_count / table_count <? tdhs_thread_num cf then
          if bool_decide (o = TDHS_QUICK) then
            (EasyHash.easy_hash_key (quick_hash_key n),
             Counters (poll_key n) (total_execute_count n) (table_execute_count n) (u64 (quick_hash_key n + 1)) (slow_hash_key n) (round_hash_key n))
          else
            (EasyHash.easy_hash_key (slow_hash_key n),
             Counters (poll_key n) (total_execute_count n) (table_execute_count n) (quick_hash_key n) (u64 (slow_hash_key n + 1)) (round_hash_key n))
        else (hash, n) in
      if bool_decide (o = TDHS_SLOW) then
        if active_slow_read_thread_num cf =? 0 then None
        else let hash := hash mod active_slow_read_thread_num cf in
             Some (if hash =? 0 then active_slow_read_thread_num cf else hash, n)
      else Some (hash, n)
  else
    let by_table := h ← hash_code_table data (table_info q); Some (h, n) in
    let balanced (on : bool) := if on then if 0 <? custom_hash then Some (custom_hash, n) else Some (next_round n) else by_table in
    if type q =? REQUEST_TYPE_INSERT then balanced (concurrency_insert cf)
    else if type q =? REQUEST_TYPE_UPDATE then balanced (concurrency_update cf)
    else if type q =? REQUEST_TYPE_DELETE then balanced (concurrency_delete cf)
    else if type q =? REQUEST_TYPE_BATCH then Some (next_round n)
    else by_table.

Definition MAX_STREAM_COUNT_FOR_IGNORE : Z := 2.

(** [hv == 0] is replaced by the hash of the connection. *)
Definition or_connection (cf : config) (hv : Z) : Z := if hv =? 0 then connection_key cf else hv.

(** [stream_count] is [None] while the thread has no context. *)
Definition need_redispatch (cf : config) (tp : tdhs_optimize_t) (hv : Z) : Z :=
  let hv := or_connection cf hv in
  match stream_count cf tp (hv mod thread_count cf tp) with
  | Some n => if MAX_STREAM_COUNT_FOR_IGNORE <? n then u64 (hv + 1) else hv
  | None => hv
  end.

(** What becomes of a request: an error is answered, it is put into the queue of
    a thread, or nothing. *)
Inductive action := Reply (status code : Z) | Push (tp : tdhs_optimize_t) (thread : Z) | Wake | Quiet.

Definition push_for_limited (cf : config) (tp : tdhs_optimize_t) (hv limit : Z) : Z * action :=
  let thread := or_connection cf hv mod thread_count cf tp in
  if (0 <? limit) && (limit <? task_count cf tp thread) then (EASY_BREAK, Quiet)
  else (EASY_OK, Push tp thread).

Definition CLIENT_ERROR_CODE_NOT_ENOUGH_MEMORY : Z := 6.
Definition CLIENT_ERROR_CODE_DECODE_REQUEST_FAILED : Z := 7.
Definition CLIENT_ERROR_CODE_UNAUTHENTICATION : Z := 12.
Definition CLIENT_ERROR_CODE_THROTTLED : Z := 14.

Definition throttled : Z * action := (EASY_OK, Reply CLIENT_STATUS_SERVICE_UNAVAILABLE CLIENT_ERROR_CODE_THROTTLED).
Definition pushed (x : Z * action) : Z * action := if negb (fst x =? EASY_OK) then throttled else (EASY_AGAIN, snd x).

(** ** The I/O thread *)

Section process.
Context {S : Type} `{EasyPool.PoolOps S}.
Variable cf : config.

Record io_state := IoState { ctx : context; cnt : counters; io_pool : S }.

(** The result of [tdhs_response_error_global] is taken to be EASY_OK: the answer
    is a packet of four bytes (TdhsResponse). *)
Definition dispatch (data : list Z) (c : context) (n : counters) (s : S) (p : tdhs_packet_t) (rest : list tdhs_packet_t)
    : option (Z * action * io_state) :=
  o ← optimize cf data (req p) n;
  let '(o, q, n) := o in
  if (if bool_decide (o = TDHS_WRITE) then negb (can_write (auth_on cf) c) else negb (can_read (auth_on cf) c)) then
    Some (EASY_OK, Reply CLIENT_STATUS_FORBIDDEN CLIENT_ERROR_CODE_UNAUTHENTICATION, IoState c n s)
  else
    match o with
    | TDHS_QUICK =>
        h ← table_need_balance cf data q o (reserved p) n;
        Some (pushed (push_for_limited cf TDHS_QUICK (need_redispatch cf TDHS_QUICK (fst h)) (quick_limit cf)), IoState c (snd h) s)
    | TDHS_SLOW =>
        if (thread_strategy cf =? 3) && tdhs_optimize_on cf && slow_read_limit cf then Some (throttled, IoState c n s)
        else
          h ← table_need_balance cf data q o (reserved p) n;
          Some (pushed (push_for_limited cf TDHS_SLOW (need_redispatch cf TDHS_SLOW (fst h)) (slow_limit cf)), IoState c (snd h) s)
    | TDHS_WRITE =>
        h ← table_need_balance cf data (match rest with b :: _ => req b | [] => q end) o (reserved p) n;
        Some (pushed (push_for_limited cf TDHS_WRITE (fst h) (write_limit cf)), IoState c (snd h) s)
    end.

(** [wait]: the stream the request belongs to, as [is_inited] and [is_waiting]; a
    stream that is not waiting aborts the process. *)
Definition on_server_io_process (retcode : Z) (wait : option (bool * bool)) (data : list Z)
    (ipacket : option (tdhs_packet_t * list tdhs_packet_t)) (st : io_state) : option (Z * action * io_state) :=
  if retcode =? EASY_AGAIN then
    match wait with
    | Some (true, true) => Some (EASY_AGAIN, Wake, st)
    | Some (true, false) => None
    | _ => Some (EASY_AGAIN, Quiet, st)
    end
  else
    match ipacket with
    | None => Some (EASY_ERROR, Quiet, st)
    | Some (p, rest) =>
        x ← shake_hands_if (auth_read_code cf) (auth_write_code cf) data p (ctx st);
        let '(ret, c) := x in
        if negb (ret =? EASY_OK) then Some (ret, Quiet, IoState c (cnt st) (io_pool st))
        else
          y ← context_decode c data (io_pool st) p rest;
          let '(decode_ret, s, p, rest) := y in
          if negb (decode_ret =? EASY_OK) then
            Some (EASY_OK, if decode_ret =? ERROR_OUT_OF_IN then Reply CLIENT_STATUS_SERVER_ERROR CLIENT_ERROR_CODE_NOT_ENOUGH_MEMORY
                           else Reply CLIENT_STATUS_BAD_REQUEST CLIENT_ERROR_CODE_DECODE_REQUEST_FAILED, IoState c (cnt st) s)
          else dispatch data c (cnt st) s p rest
    end.
End process.

(** ** Codes: properties *)

Lemma i8_inj c1 c2 : 0 <= c1 < 256 -> 0 <= c2 < 256 -> i8 c1 - i8 c2 = 0 -> c1 = c2.
Proof.
  intros H1 H2. unfold wraps. change (2 ^ (8 - 1)) with 128. change (2 ^ 8) with 256. intros H.
  assert (forall c, 0 <= c < 256 -> (c + 128) mod 256 = if c <? 128 then c + 128 else c - 128) as E.
  { intros c Hc. destruct (Z.ltb_spec c 128); [apply Z.mod_small; lia|].
    rewrite <- (Z.mod_small (c - 128) 256) by lia. replace (c + 128) with (c - 128 + 1 * 256) by lia. apply Z.mod_add. lia. }
  rewrite !E in H by done. destruct (Z.ltb_spec c1 128), (Z.ltb_spec c2 128); lia.
Qed.

Lemma i32_zero z : - 2 ^ 32 < z < 2 ^ 32 -> i32 z = 0 -> z = 0.
Proof.
  intros Hz H. unfold wraps in H. change (2 ^ (32 - 1)) with (2 ^ 31) in H.
  pose proof (Z.div_mod (z + 2 ^ 31) (2 ^ 32) ltac:(lia)) as Hd. replace ((z + 2 ^ 31) mod 2 ^ 32) with (2 ^ 31) in Hd by lia.
  assert (z = 2 ^ 32 * ((z + 2 ^ 31) / 2 ^ 32)) as Hq by lia. clear Hd H. nia.
Qed.

(** Two strings compare equal exactly if they are. *)
Lemma compare_eq v1 v2 : bytes_ok v1 -> bytes_ok v2 -> count v1 < 2 ^ 32 -> count v2 < 2 ^ 32 -> compare v1 v2 = 0 <-> v1 = v2.
Proof.
  intros H1 H2 L1 L2. split.
  - revert v2 H2 L2. induction H1 as [|c1 v1 Hc1 _ IH]; intros v2 H2 L2 E.
    + destruct v2 as [|c2 v2]; [done|]. cbn in E. apply i32_zero in E; [unfold count in *; cbn [List.length] in *; lia|].
      unfold count in *. cbn [List.length] in *. lia.
    + destruct v2 as [|c2 v2].
      { cbn in E. apply i32_zero in E; unfold count in *; cbn [List.length] in *; lia. }
      apply list.Forall_cons in H2 as [Hc2 H2]. cbn in E. destruct (Z.eqb_spec c1 c2) as [->|Hne]; cbn [negb] in E.
      * f_equal. apply IH; [|done| |done]; unfold count in *; cbn [List.length] in *; lia.
      * destruct Hne. by apply i8_inj.
  - intros <-. clear H2 L1 L2. induction v1 as [|c v1 IH]; [done|]. apply list.Forall_cons in H1 as [_ H1]. cbn. rewrite Z.eqb_refl. by apply IH.
Qed.

Definition code_ok (a : auth_code) : Prop := bytes_ok (code_string a) /\ count (code_string a) < 2 ^ 32.

Lemma tdhs_auth_eq a s : code_ok a -> str_ok s -> tdhs_auth a s = bool_decide (s = code_string a).
Proof.
  intros [Hb Hl] (Hs & Hsl & _). unfold tdhs_auth. pose proof (compare_eq (code_string a) s Hb Hs Hl Hsl) as Hc.
  destruct (Z.eqb_spec (compare (code_string a) s) 0) as [E|E].
  - rewrite bool_decide_eq_true_2; [done|]. symmetry. by apply Hc.
  - rewrite bool_decide_eq_false_2; [done|]. intros ->. by apply E, Hc.
Qed.

(** What a code stands for after it was set: the first 255 characters with their
    terminator; the empty string when none is set. *)
Lemma reset_auth_code_spec a s junk : nonzero s -> bytes_ok s ->
  (exists a', reset_auth_code (AuthCode (External (s ++ 0 :: junk)) (code_char a) (code_string_len a)) = Some a' /\
     code_string a' = take 255 s ++ [0] /\ code_ok a') /\
  (exists a', reset_auth_code (AuthCode NoCode (code_char a) (code_string_len a)) = Some a' /\ code_string a' = [] /\ code_ok a').
Proof.
  intros Hs Hb. split; [|eexists; split; [done|]; split; [done|]; split; [by constructor|done]].
  unfold reset_auth_code. cbn [code]. rewrite cstr_app by done. cbn [mbind option_bind].
  set (n := if _ <=? _ then _ else _). assert (Z.to_nat n = List.length (take 255 s)) as Hn.
  { unfold n, MAX_AUTH_CODE_LENGTH, count. rewrite length_take. destruct (Z.leb_spec 256 (Z.of_nat (List.length s))); lia. }
  assert (0 <= n < 256) as Hn2 by (unfold n, MAX_AUTH_CODE_LENGTH, count; destruct (Z.leb_spec 256 (Z.of_nat (List.length s))); lia).
  assert (gets (s ++ 0 :: junk) 0 (Z.to_nat n) = Some (take 255 s)) as ->.
  { rewrite Hn. rewrite <- (take_drop 255 s) at 1. rewrite <- app_assoc. apply (gets_spec [] (take 255 s) _). }
  cbn [mbind option_bind]. change (Z.to_nat MAX_AUTH_CODE_LENGTH) with 256%nat.
  assert (List.length (take 255 s) < 256)%nat as Hlt by lia.
  destruct (split_at (replicate 256 0) 0 (List.length (take 255 s))) as (z1 & z2 & z3 & Ez & E1 & E2); [rewrite length_replicate; lia|].
  destruct z1; [|done]. cbn [app] in Ez. rewrite Ez. pose proof (puts_spec [] z2 z3 (take 255 s) E2) as Ep. cbn [app List.length] in Ep. rewrite Ep.
  cbn [mbind option_bind]. eexists. split; [done|].
  assert (exists z4, z3 = 0 :: z4) as [z4 ->].
  { pose proof (f_equal List.length Ez) as Hl. rewrite length_replicate, length_app in Hl. destruct z3 as [|z z3]; [cbn in Hl; lia|].
    exists z3. f_equal. assert (replicate 256 0 !! List.length z2 = Some z) as Hz by (rewrite Ez; by apply list_lookup_middle).
    apply lookup_replicate in Hz as [-> _]. done. }
  assert (code_string (AuthCode Copy (take 255 s ++ 0 :: z4) (n + 1)) = take 255 s ++ [0]) as Ec.
  { unfold code_string. cbn [code_string_len code_char]. rewrite (Z2Nat.inj_add n 1), Hn by lia. change (Z.to_nat 1) with 1%nat.
    rewrite take_app_add. done. }
  split; [exact Ec|]. unfold code_ok. rewrite Ec. split.
  - apply list.Forall_app. split; [by apply Forall_take|]. by constructor.
  - unfold count. rewrite length_app. cbn [List.length]. lia.
Qed.
(** ** The handshake *)

Record hello := Hello { h_version : Z; h_timeout : Z; h_read : list Z; h_write : list Z; h_rest : list Z }.
Definition hello_bytes (h : hello) : list Z :=
  SHAKE_HANDS_HEADER ++ htonl_bytes (h_version h) ++ htonl_bytes (h_timeout h) ++ enc_str (h_read h) ++ enc_str (h_write h) ++ h_rest h.
Definition hello_ok (h : hello) : Prop :=
  (h_version h = 1 \/ h_version h = 2) /\ word (h_timeout h) /\ str_ok (h_read h) /\ str_ok (h_write h).

#[local] Instance lens_first : Lens u_first.
Proof. split; [done|]. by intros f g [x y] e' [= <-]. Qed.
#[local] Instance lens_second : Lens u_second.
Proof. split; [done|]. by intros f g [x y] e' [= <-]. Qed.

Section handshake_lemmas.
Variable data : list Z.
Hypothesis data_ok : bytes_ok data.

Definition f_codes : format (tdhs_string_t * tdhs_string_t) (list Z * list Z) unit := f_bind (f_string u_first) (fun _ => f_string u_second).

Lemma exact_codes : exact data (read_codes data) f_codes.
Proof. apply exact_bind; [by apply exact_string, _|]. intros. by apply exact_string, _. Qed.

(** The two codes, as objects and as bytes. *)
Lemma codes_read s r w : inv data s -> str_ok r -> str_ok w -> enc_str r ++ enc_str w `prefix_of` rest data s ->
  exists st, read_codes data s = Next tt st /\ string_bytes data (fst (env st)) = Some r /\ string_bytes data (snd (env st)) = Some w.
Proof.
  intros I Hr Hw Hp. assert (wf f_codes (r, w) (pos s) (env s)) as Hwf by (cbn; split; split; try done; by eexists).
  rewrite (ex_complete _ _ _ exact_codes s (r, w) I Hwf Hp). eexists. split; [done|]. cbn [env adv].
  unfold f_codes, f_bind. cbn [eff fst snd val f_string u_first u_second default].
  assert (placed data (pos s) (enc_str r ++ enc_str w)) as Hpl.
  { destruct I as (Hpos & _). split; [done|]. etrans; [exact Hp|]. unfold rest. apply prefix_take. }
  unfold enc_str in Hpl at 1. rewrite <- app_assoc in Hpl. apply placed_app in Hpl as [_ Hpl]. rewrite count_htonl in Hpl.
  apply placed_app in Hpl as [P1 P2]. unfold enc_str in P2. apply placed_app in P2 as [_ P2]. rewrite count_htonl in P2.
  assert (forall o l, placed data o l -> string_bytes data (str_at o l) = Some l) as Hb.
  { intros o l Hl. unfold string_bytes, str_at. cbn [str len]. destruct l as [|x l]; [done|].
    destruct (Z.eqb_spec (Z.of_nat (List.length (x :: l))) 0); [cbn [List.length] in *; lia|].
    rewrite Nat2Z.id. apply placed_gets; [done|done|cbn [List.length]; lia]. }
  split; [by apply Hb|]. cbn [fst snd]. unfold size. cbn [enc f_string]. apply Hb.
  replace (pos s + Z.of_nat (List.length (enc_str r)) + 4) with (pos s + 4 + count r + 4); [done|].
  unfold enc_str. rewrite length_app. change (List.length (htonl_bytes _)) with 4%nat. unfold count. lia.
Qed.

Lemma gets_some o k : 0 <= o -> o + Z.of_nat k <= count data -> exists l, gets data (Z.to_nat o) k = Some l.
Proof. intros Ho Hk. unfold gets, count in *. destruct (Nat.leb_spec (Z.to_nat o + k) (List.length data)); [by eexists|lia]. Qed.

(** Reading the codes returns EASY_ERROR or reads on. *)
Definition tame {Σ A} (m : M Σ A) : Prop := forall s, match m s with Next _ _ => True | Return rc _ => rc = EASY_ERROR | Crash c => c = Memory end.

Lemma tame_bind {Σ A B} (m : M Σ A) (k : A -> M Σ B) : tame m -> (forall a, tame (k a)) -> tame (bind m k).
Proof. intros Hm Hk s. specialize (Hm s). unfold bind. destruct (m s); [apply Hk|done|done]. Qed.

Lemma tame_read_string {Σ} (upd : (tdhs_string_t -> tdhs_string_t) -> Σ -> option Σ) : (forall f e, is_Some (upd f e)) -> tame (read_string data upd).
Proof.
  intros Hu. assert (forall n, tame (Σ := Σ) (enough n)) as He by (intros n s; unfold enough; by destruct (read_len s <? n)).
  assert (forall f, tame (Σ := Σ) (load data f)) as Hl by (intros f s; unfold load; by destruct (f data (pos s))).
  assert (forall n, tame (Σ := Σ) (done_ n)) as Hd by by intros n s.
  assert (forall c f, tame (Σ := Σ) (modify_or c (upd f))) as Hm by (intros c f s; unfold modify_or; by destruct (Hu f (env s)) as [e ->]).
  assert (tame (Σ := Σ) (read_uint32 data)) as Hr.
  { unfold read_uint32. apply tame_bind; [done|intros _]. apply tame_bind; [apply Hl|intros v]. by apply tame_bind; [apply Hd|intros _ s]. }
  unfold read_string. apply tame_bind; [done|intros n]. apply tame_bind; [apply Hm|intros _].
  apply tame_bind; [unfold read_str; by apply tame_bind; [|intros _ s]|intros q]. apply tame_bind; [apply Hm|intros _].
  unfold read_str_done. apply tame_bind; [apply Hd|intros _]. destruct (n =? 0); [by intros s|].
  apply tame_bind; [intros s; by destruct (load8 data (pos s - 1))|]. intros c s. unfold check. by destruct (c =? 0).
Qed.

Lemma read_codes_cases s : inv data s ->
  (exists st r w, read_codes data s = Next tt st /\ str_ok r /\ str_ok w /\ enc_str r ++ enc_str w `prefix_of` rest data s) \/
  (exists st, read_codes data s = Return EASY_ERROR st).
Proof.
  intros I. assert (tame (read_codes data)) as Ht.
  { apply tame_bind; [apply tame_read_string; by eexists|]. intros _. apply tame_read_string. by eexists. }
  specialize (Ht s). pose proof (ex_safe _ _ _ exact_codes s I) as Hs. pose proof (ex_sound _ _ _ exact_codes s) as Hx.
  destruct (read_codes data s) as [[] st|rc st|c].
  - left. destruct (Hx tt st I eq_refl) as ([r w] & Hwf & Hp & _). exists st, r, w. split; [done|]. cbn in Hwf.
    destruct Hwf as ((Hr & _) & Hw & _). done.
  - right. exists st. by rewrite Ht.
  - subst c. by destruct Hs.
Qed.

(** ** shake_hands_if *)

Section spec.
Variables read_code write_code : auth_code.
Hypotheses (read_ok : code_ok read_code) (write_ok : code_ok write_code).

(** The permissions a handshake gives. *)
Definition grants (h : hello) (p : Z) : Z :=
  let p := if bool_decide (h_read h = code_string read_code) then onBit p PERMISSION_READ else p in
  if bool_decide (h_write h = code_string write_code) then onBit p PERMISSION_WRITE else p.

(** The packet is a handshake that says [h]. *)
Definition says_hello (p : tdhs_packet_t) (h : hello) : Prop :=
  command_id_or_response_code p = REQUEST_TYPE_SHAKE_HANDS /\ hello_ok h /\ request_bytes data p = hello_bytes h.

Lemma hello_placed p h : packet_in data (length p) (rdata p) -> request_bytes data p = hello_bytes h ->
  gets data (Z.to_nat (rdata p)) 4 = Some SHAKE_HANDS_HEADER /\
  placed data (rdata p + 4) (htonl_bytes (h_version h)) /\ placed data (rdata p + 8) (htonl_bytes (h_timeout h)) /\
  enc_str (h_read h) ++ enc_str (h_write h) `prefix_of`
    rest data (State (no_string, no_string) (length p - SHAKE_HANDS_TOTAL_SIZE) (rdata p + SHAKE_HANDS_TOTAL_SIZE)).
Proof.
  intros (Hp & Hl & Hd) E. assert (placed data (rdata p) (hello_bytes h)) as Hpl.
  { rewrite <- E. split; [done|]. apply prefix_take. }
  unfold hello_bytes in Hpl. apply placed_app in Hpl as [P0 Hpl]. apply placed_app in Hpl as [P1 Hpl]. apply placed_app in Hpl as [P2 Hpl].
  rewrite ?count_htonl in *. change (count SHAKE_HANDS_HEADER) with 4 in *. replace (rdata p + 4 + 4) with (rdata p + 8) in * by lia.
  split; [apply placed_gets; [done|done|lia]|]. split; [done|]. split; [done|].
  unfold rest. cbn [read_len TdhsRead.pos]. unfold request_bytes, bytes_at in E.
  assert (take (Z.to_nat (length p - SHAKE_HANDS_TOTAL_SIZE)) (drop (Z.to_nat (rdata p + SHAKE_HANDS_TOTAL_SIZE)) data) =
    drop 12 (hello_bytes h)) as ->.
  { rewrite <- E, skipn_firstn_comm, drop_drop. unfold SHAKE_HANDS_TOTAL_SIZE. f_equal; [lia|]. f_equal. lia. }
  unfold hello_bytes. change (drop 12 _) with (enc_str (h_read h) ++ enc_str (h_write h) ++ h_rest h). rewrite app_assoc. by eexists.
Qed.

(** The bytes of a packet with room for a handshake, cut into its parts. *)
Lemma cut_hello p v t l : packet_in data (length p) (rdata p) -> SHAKE_HANDS_TOTAL_SIZE <= length p ->
  gets data (Z.to_nat (rdata p)) 4 = Some SHAKE_HANDS_HEADER ->
  placed data (rdata p + 4) (htonl_bytes v) -> placed data (rdata p + 8) (htonl_bytes t) ->
  l `prefix_of` rest data (State (no_string, no_string) (length p - SHAKE_HANDS_TOTAL_SIZE) (rdata p + SHAKE_HANDS_TOTAL_SIZE)) ->
  exists more, request_bytes data p = SHAKE_HANDS_HEADER ++ htonl_bytes v ++ htonl_bytes t ++ l ++ more.
Proof.
  intros (Hp & Hl & Hd) H12 Hg P1 P2 [more Hr]. exists more. unfold request_bytes, bytes_at. unfold rest in Hr. cbn [read_len TdhsRead.pos] in Hr.
  unfold SHAKE_HANDS_TOTAL_SIZE in *.
  assert (placed data (rdata p) (SHAKE_HANDS_HEADER ++ htonl_bytes v ++ htonl_bytes t)) as Hpl.
  { apply placed_app. split.
    - split; [done|]. unfold gets in Hg. case_match; [|done]. injection Hg as Hg. rewrite <- Hg. apply prefix_take.
    - change (count SHAKE_HANDS_HEADER) with 4. apply placed_app. rewrite count_htonl. by replace (rdata p + 4 + 4) with (rdata p + 8) by lia. }
  destruct Hpl as [_ [tl Htl]]. rewrite Htl.
  assert (tl = drop (Z.to_nat (rdata p + 12)) data) as ->.
  { rewrite Z2Nat.inj_add, <- drop_drop, Htl by lia. done. }
  rewrite take_app_ge by (cbn; lia).
  replace (Z.to_nat (length p) - List.length (SHAKE_HANDS_HEADER ++ htonl_bytes v ++ htonl_bytes t))%nat with (Z.to_nat (length p - 12)) by (cbn; lia).
  rewrite Hr. by rewrite <- !app_assoc.
Qed.

(** What follows the header. *)
Lemma after_header p c v t : is_shaked c = false -> packet_in data (length p) (rdata p) -> SHAKE_HANDS_TOTAL_SIZE <= length p ->
  command_id_or_response_code p = REQUEST_TYPE_SHAKE_HANDS -> gets data (Z.to_nat (rdata p)) 4 = Some SHAKE_HANDS_HEADER ->
  v = 1 \/ v = 2 -> word t -> placed data (rdata p + 4) (htonl_bytes v) -> placed data (rdata p + 8) (htonl_bytes t) ->
  exists rc c', match read_codes data (State (no_string, no_string) (u32 (length p - SHAKE_HANDS_TOTAL_SIZE)) (rdata p + SHAKE_HANDS_TOTAL_SIZE)) with
    | Crash _ => None
    | Return rc _ => Some (rc, Context false (decode_request_array v) t (permission c))
    | Next _ st =>
        r ← string_bytes data (fst (env st));
        w ← string_bytes data (snd (env st));
        let p := permission c in
        let p := if tdhs_auth read_code r then onBit p PERMISSION_READ else p in
        let p := if tdhs_auth write_code w then onBit p PERMISSION_WRITE else p in
        Some (EASY_AGAIN, Context true (decode_request_array v) t p)
    end = Some (rc, c') /\
  (rc = EASY_AGAIN /\ (exists h, says_hello p h /\
     c' = Context true (decode_request_array (h_version h)) (h_timeout h) (grants h (permission c))) \/
   rc = EASY_ERROR /\ is_shaked c' = false /\ permission c' = permission c /\ forall h, ~ says_hello p h).
Proof.
  intros Hsh Hin H12 Hcom Hg Hv Ht P1 P2. pose proof Hin as (Hp & Hl & Hd). rewrite wrapu_small by (unfold SHAKE_HANDS_TOTAL_SIZE in *; lia).
  set (s0 := State _ _ _). assert (inv data s0) as I.
  { unfold inv, s0. cbn [TdhsRead.pos read_len]. fold (count data). unfold SHAKE_HANDS_TOTAL_SIZE in *. lia. }
  destruct (read_codes_cases s0 I) as [(st & r & w & E & Hr & Hw & Hpre)|(st & E)].
  - destruct (codes_read s0 r w I Hr Hw Hpre) as (st' & E' & Er & Ew). rewrite E'.
    rewrite Er. cbn [mbind option_bind]. rewrite Ew. cbn [mbind option_bind]. rewrite !tdhs_auth_eq by done.
    destruct (cut_hello p v t (enc_str r ++ enc_str w) Hin H12 Hg P1 P2 Hpre) as [more Em].
    do 2 eexists. split; [done|]. left. split; [done|]. exists (Hello v t r w more). split; [|done].
    split; [done|]. split; [done|]. rewrite Em. unfold hello_bytes. cbn [h_version h_timeout h_read h_write h_rest]. by rewrite <- !app_assoc.
  - rewrite E. do 2 eexists. split; [done|]. right. split_and!; try done. intros h (_ & Hok & Eb).
    destruct (hello_placed p h Hin Eb) as (_ & _ & _ & Hpre).
    destruct (codes_read s0 (h_read h) (h_write h) I) as (st' & E' & _); [apply Hok|apply Hok|exact Hpre|]. by rewrite E' in E.
Qed.

Lemma shake_hands_ok p c : is_shaked c = false -> packet_in data (length p) (rdata p) -> SHAKE_HANDS_TOTAL_SIZE <= length p ->
  exists rc c', shake_hands_if read_code write_code data p c = Some (rc, c') /\
  (rc = EASY_AGAIN /\ (exists h, says_hello p h /\
     c' = Context true (decode_request_array (h_version h)) (h_timeout h) (grants h (permission c))) \/
   rc = EASY_ERROR /\ is_shaked c' = false /\ permission c' = permission c /\ forall h, ~ says_hello p h).
Proof.
  intros Hsh Hin H12. pose proof Hin as (Hp & Hl & Hd). unfold shake_hands_if. rewrite Hsh.
  destruct (gets_some (rdata p) 4) as (hd & Ehd); [unfold SHAKE_HANDS_TOTAL_SIZE in *; lia..|].
  destruct (gets_some (rdata p) 12) as (info & Einfo); [unfold SHAKE_HANDS_TOTAL_SIZE in *; lia..|].
  change (Z.to_nat SHAKE_HANDS_TOTAL_SIZE) with 12%nat.
  destruct (Z.eqb_spec (command_id_or_response_code p) REQUEST_TYPE_SHAKE_HANDS) as [Hcom|Hcom]; cbn [negb orb].
  2: { cbn [mbind option_bind]. rewrite Einfo. do 2 eexists. split; [done|]. right. split_and!; try done. by intros h (? & _). }
  destruct (Z.ltb_spec (length p) SHAKE_HANDS_TOTAL_SIZE); [lia|]. rewrite Ehd. cbn [mbind option_bind].
  destruct (bool_decide_reflect (hd = SHAKE_HANDS_HEADER)) as [->|Hhd]; cbn [negb].
  2: { rewrite Einfo. do 2 eexists. split; [done|]. right. split_and!; try done. intros h (_ & _ & Eb).
       destruct (hello_placed p h Hin Eb) as (Eg & _). rewrite Eg in Ehd. by injection Ehd as <-. }
  unfold SHAKE_HANDS_TOTAL_SIZE in H12.
  destruct (load32_some data (rdata p + 4) data_ok) as (v & Ev & Wv & P1); [lia..|]. rewrite Ev. cbn [mbind option_bind].
  assert (v <> 1 -> v <> 2 -> forall h, ~ says_hello p h) as Hno.
  { intros N1 N2 h (_ & Hok & Eb). destruct (hello_placed p h Hin Eb) as (_ & Pv & _).
    assert (word (h_version h)) as Wh by (destruct Hok as [[-> | ->] _]; done).
    rewrite (load32_placed _ _ _ Pv Wh) in Ev. injection Ev as <-. by destruct Hok as [[? | ?] _]. }
  destruct (Z.leb_spec TDHS_PROTOCOL_END v) as [Hge|Hlt].
  { do 2 eexists. split; [done|]. right. split_and!; try done. unfold TDHS_PROTOCOL_END in *. apply Hno; lia. }
  destruct (decode_request_array v) as [d|] eqn:Ed.
  2: { do 2 eexists. split; [done|]. right. split_and!; try done. unfold decode_request_array in Ed. apply Hno; intros ->; done. }
  destruct (load32_some data (rdata p + 8) data_ok) as (t & Et & Wt & P2); [lia..|]. rewrite Et. cbn [mbind option_bind].
  rewrite <- Ed. apply after_header; try done.
  unfold decode_request_array in Ed. destruct (Z.eqb_spec v 1); [by left|]. destruct (Z.eqb_spec v 2); [by right|done].
Qed.

(** C31 (functional).  The first packet of a connection with room for a handshake is
    accepted exactly if it is one: the command, the magic word, protocol version
    1 or 2, a time-out and two codes.  Then the context has the decoder of that
    version, the time-out, and the permission to read or write exactly if the
    code for it is the server's; any other packet is an error and gives none. *)
Theorem shake_hands_spec p c : is_shaked c = false -> packet_in data (length p) (rdata p) -> SHAKE_HANDS_TOTAL_SIZE <= length p ->
  exists rc c', shake_hands_if read_code write_code data p c = Some (rc, c') /\
  (rc = EASY_AGAIN /\ (exists h, says_hello p h /\
     c' = Context true (decode_request_array (h_version h)) (h_timeout h) (grants h (permission c))) \/
   rc = EASY_ERROR /\ is_shaked c' = false /\ permission c' = permission c /\ forall h, ~ says_hello p h).
Proof. exact (shake_hands_ok p c). Qed.
End spec.
End handshake_lemmas.

(** ** Access control *)

Section access.
Context {S : Type} `{EasyPool.PoolOps S}.

(** One call of the I/O thread, with the settings at that time. *)
Record event := Event {
  e_cf : config; e_retcode : Z; e_wait : option (bool * bool); e_data : list Z; e_packet : option (tdhs_packet_t * list tdhs_packet_t) }.

Definition io_step (e : event) (st : io_state) : option (Z * action * io_state) :=
  on_server_io_process (e_cf e) (e_retcode e) (e_wait e) (e_data e) (e_packet e) st.

(** The calls for one connection, in order. *)
Fixpoint run (evs : list event) (st : io_state (S := S)) : option (list (Z * action) * io_state) :=
  match evs with
  | [] => Some ([], st)
  | e :: evs => x ← io_step e st; y ← run evs (snd x); Some (fst x :: fst y, snd y)
  end.

Definition event_ok (e : event) : Prop :=
  bytes_ok (e_data e) /\ code_ok (auth_read_code (e_cf e)) /\ code_ok (auth_write_code (e_cf e)) /\
  forall p rest, e_packet e = Some (p, rest) -> packet_in (e_data e) (length p) (rdata p).

(** The event is a handshake that says [h]. *)
Definition accepted (e : event) (h : hello) : Prop := exists p rest, e_packet e = Some (p, rest) /\ says_hello (e_data e) p h.

Definition entitled (e : event) (h : hello) (tp : tdhs_optimize_t) : Prop :=
  if bool_decide (tp = TDHS_WRITE) then h_write h = code_string (auth_write_code (e_cf e)) else h_read h = code_string (auth_read_code (e_cf e)).

Definition allowed (past : list event) (c : context) : Prop :=
  is_shaked c = false /\ permission c = 0 \/
  is_shaked c = true /\ exists e h, e ∈ past /\ accepted e h /\ permission c = grants (auth_read_code (e_cf e)) (auth_write_code (e_cf e)) h 0.

Lemma allowed_more past e c : allowed past c -> allowed (past ++ [e]) c.
Proof. intros [Hc|(Hs & e0 & h & He & Hc)]; [by left|right]. split; [done|]. exists e0, h. split; [|done]. apply elem_of_app. by left. Qed.

(** A packet too short for a handshake. *)
Lemma shake_hands_short rc wc data p c rc' c' : is_shaked c = false -> length p < SHAKE_HANDS_TOTAL_SIZE ->
  shake_hands_if rc wc data p c = Some (rc', c') -> rc' = EASY_ERROR /\ c' = c.
Proof.
  intros Hs Hl. unfold shake_hands_if. rewrite Hs. destruct (Z.ltb_spec (length p) SHAKE_HANDS_TOTAL_SIZE); [|lia]. rewrite orb_true_r.
  cbn [mbind option_bind]. destruct (gets _ _ _); [|done]. by intros [= <- <-].
Qed.

Lemma shake_hands_step e p rest past c rc c' : event_ok e -> e_packet e = Some (p, rest) -> allowed past c ->
  shake_hands_if (auth_read_code (e_cf e)) (auth_write_code (e_cf e)) (e_data e) p c = Some (rc, c') ->
  allowed (past ++ [e]) c' /\ (rc = EASY_OK -> c' = c /\ is_shaked c = true).
Proof.
  intros (Hb & Hr & Hw & Hpk) He Ha E. specialize (Hpk p rest He). destruct (is_shaked c) eqn:Hs.
  { unfold shake_hands_if in E. rewrite Hs in E. injection E as <- <-. split; [by apply allowed_more|done]. }
  destruct Ha as [[_ Hp0]|[Ht _]]; [|by rewrite Hs in Ht].
  destruct (Z.lt_ge_cases (length p) SHAKE_HANDS_TOTAL_SIZE) as [Hlt|Hge].
  { destruct (shake_hands_short _ _ _ _ _ _ _ Hs Hlt E) as [-> ->]. split; [by left|done]. }
  destruct (shake_hands_ok (e_data e) Hb _ _ Hr Hw p c Hs Hpk Hge) as (rc0 & c0 & E0 & Hcase). rewrite E in E0. injection E0 as <- <-.
  destruct Hcase as [(-> & h & Hh & ->)|(-> & Hs' & Hp' & _)]; (split; [|done]).
  - right. split; [done|]. exists e, h. split; [apply elem_of_app; right; by left|]. split; [by exists p, rest|]. cbn [permission]. by rewrite Hp0.
  - left. by rewrite Hp'.
Qed.

Lemma grants_flag rc wc h : testFlag (grants rc wc h 0) PERMISSION_READ = bool_decide (h_read h = code_string rc) /\
  testFlag (grants rc wc h 0) PERMISSION_WRITE = bool_decide (h_write h = code_string wc).
Proof. unfold grants. by destruct (bool_decide (h_read h = code_string rc)), (bool_decide (h_write h = code_string wc)). Qed.

Lemma dispatch_ctx (cf : config) data c n (s : S) p rest ret act st' :
  dispatch cf data c n s p rest = Some (ret, act, st') -> ctx st' = c.
Proof.
  unfold dispatch. destruct (optimize cf data (req p) n) as [[[o q] n']|]; [|done]. cbn [mbind option_bind].
  destruct (if bool_decide (o = TDHS_WRITE) then _ else _); [intros E; by simplify_eq|].
  destruct o; [|destruct (_ && _ && _); [intros E; by simplify_eq|]|];
    (destruct (table_need_balance _ _ _ _ _ _) as [h|]; [|done]); cbn [mbind option_bind]; intros E; by simplify_eq.
Qed.

(** Only a request with the permission for its pool is put into a queue. *)
Lemma dispatch_push (cf : config) data c n (s : S) p rest ret tp thread st' :
  dispatch cf data c n s p rest = Some (ret, Push tp thread, st') -> auth_on cf = true ->
  testFlag (permission c) (if bool_decide (tp = TDHS_WRITE) then PERMISSION_WRITE else PERMISSION_READ) = true.
Proof.
  assert (forall cf t hv lim r tp thread, pushed (push_for_limited cf t hv lim) = (r, Push tp thread) -> tp = t) as Hpush.
  { intros cf0 t hv lim r tp0 th. unfold pushed, push_for_limited, throttled. by destruct ((0 <? lim) && _); cbn; [|intros [= <- <- <-]]. }
  unfold dispatch. destruct (optimize cf data (req p) n) as [[[o q] n']|]; [|done]. cbn [mbind option_bind]. intros E Hon.
  destruct (if bool_decide (o = TDHS_WRITE) then _ else _) eqn:Eauth; [done|].
  assert (tp = o) as ->.
  { destruct o; [|destruct (_ && _ && _); [done|]|]; (destruct (table_need_balance _ _ _ _ _ _) as [h|]; [|done]);
      cbn [mbind option_bind] in E; injection E as E _; by apply Hpush in E. }
  unfold can_write, can_read in Eauth. rewrite Hon in Eauth. destruct (bool_decide (o = TDHS_WRITE)); by apply negb_false_iff.
Qed.

Lemma io_step_allowed e past st ret act st' : event_ok e -> allowed past (ctx st) -> io_step e st = Some (ret, act, st') ->
  allowed (past ++ [e]) (ctx st') /\
  forall tp thread, act = Push tp thread -> exists e0 h, e0 ∈ past /\ accepted e0 h /\ (auth_on (e_cf e) = true -> entitled e0 h tp).
Proof.
  intros Hok Ha. unfold io_step, on_server_io_process. destruct (e_retcode e =? EASY_AGAIN).
  { destruct (e_wait e) as [[[|] [|]]|]; try done; intros [= <- <- <-]; (split; [by apply allowed_more|done]). }
  destruct (e_packet e) as [[p rest]|] eqn:Ep; [|intros [= <- <- <-]; split; [by apply allowed_more|done]].
  destruct (shake_hands_if _ _ _ _ _) as [[rc c]|] eqn:Es; [|done]. cbn [mbind option_bind].
  destruct (shake_hands_step e p rest past (ctx st) rc c Hok Ep Ha Es) as [Hc Heq].
  destruct (Z.eqb_spec rc EASY_OK) as [->|Hne]; cbn [negb]; [|intros [= <- <- <-]; by split].
  destruct (Heq eq_refl) as [-> Hsh]. destruct (context_decode _ _ _ _ _) as [[[[dr s] p'] rest']|]; [|done]. cbn [mbind option_bind].
  destruct (negb (dr =? EASY_OK)).
  { intros [= <- <- <-]. split; [done|]. intros tp th Hact. by destruct (dr =? ERROR_OUT_OF_IN). }
  intros Ed. rewrite (dispatch_ctx _ _ _ _ _ _ _ _ _ _ Ed). split; [done|]. intros tp th ->.
  destruct Ha as [[Hs0 _]|(_ & e0 & h & He0 & Hacc & Hperm)]; [by rewrite Hsh in Hs0|].
  exists e0, h. split; [done|]. split; [done|]. intros Hon. pose proof (dispatch_push _ _ _ _ _ _ _ _ _ _ _ Ed Hon) as Hf.
  rewrite Hperm in Hf. destruct (grants_flag (auth_read_code (e_cf e0)) (auth_write_code (e_cf e0)) h) as [Hr Hw].
  unfold entitled. destruct (bool_decide (tp = TDHS_WRITE)); [rewrite Hw in Hf|rewrite Hr in Hf]; by apply bool_decide_eq_true in Hf.
Qed.

(** C7 (safety).  Whatever packets arrive on a connection, in whatever order and
    under changing settings: a request is put into the queue of a thread only
    after a handshake on that connection, and while authentication is on only if
    the handshake carried the code the server had then, the read code for the
    pools of the reads and the write code for that of the writes. *)
Theorem access_control evs n (s : S) outs st i rc tp thread :
  Forall event_ok evs -> run evs (IoState init_context n s) = Some (outs, st) -> outs !! i = Some (rc, Push tp thread) ->
  exists j e0 h e, (j < i)%nat /\ evs !! j = Some e0 /\ accepted e0 h /\ evs !! i = Some e /\
    (auth_on (e_cf e) = true -> entitled e0 h tp).
Proof.
  intros Hok Hrun Hout.
  assert (forall evs past st0 outs i, Forall event_ok evs -> allowed past (ctx st0) -> run evs st0 = Some (outs, st) -> outs !! i = Some (rc, Push tp thread) ->
    exists e0 h e, e0 ∈ past ++ take i evs /\ accepted e0 h /\ evs !! i = Some e /\ (auth_on (e_cf e) = true -> entitled e0 h tp)) as Hgen.
  { clear. induction evs as [|e evs IH]; intros past st0 outs i Hok Ha Hrun Hi; [by injection Hrun as <- _|].
    apply list.Forall_cons in Hok as [He Hok]. cbn [run] in Hrun. destruct (io_step e st0) as [[[ret act] st1]|] eqn:Es; [|done].
    cbn [mbind option_bind snd fst] in Hrun. destruct (run evs st1) as [[outs1 st2]|] eqn:Er; [|done]. cbn [mbind option_bind fst snd] in Hrun.
    injection Hrun as <- <-. destruct (io_step_allowed e past st0 ret act st1 He Ha Es) as [Ha1 Hpush]. destruct i as [|i].
    - injection Hi as -> ->. destruct (Hpush tp thread eq_refl) as (e0 & h & H1 & H2 & H3). exists e0, h, e.
      rewrite app_nil_r. done.
    - destruct (IH (past ++ [e]) st1 outs1 i Hok Ha1 Er Hi) as (e0 & h & e' & H1 & H2 & H3). exists e0, h, e'.
      rewrite <- app_assoc in H1. done. }
  assert (allowed [] init_context) as H0 by by left.
  destruct (Hgen evs [] (IoState init_context n s) outs i Hok H0 Hrun Hout) as (e0 & h & e & Hin & Hacc & He & Hent). cbn [app] in Hin.
  apply elem_of_take in Hin as (j & Hj & Hlt). by exists j, e0, h, e.
Qed.
End access.

(** ** Witnesses *)

(** The codes [ab] for reading and [cd] for writing. *)
Definition demo_code (c : code_ptr) : auth_code := default (AuthCode NoCode [] 0) (reset_auth_code (AuthCode c [] 0)).
Definition demo_config : config := Config true (demo_code (External [97; 98; 0])) (demo_code (External [99; 100; 0])) 2 false None 4 2
  false false false 0 0 0 false (fun _ => 4) (fun _ _ => Some 0) (fun _ _ => 0) 77.
Definition demo_hello : hello := Hello 1 1000 [97; 98; 0] [99; 100; 0] [].
Definition demo_counters : counters := Counters 0 0 (fun _ => 0) 0 0 0.
Definition packet_for (com : Z) (body : list Z) : tdhs_packet_t := Packet com 1 0 (count body) 0 None zero_request 0 None.
Definition event_for (com : Z) (body : list Z) : event := Event demo_config 0 None body (Some (packet_for com body, [])).
Definition demo_events : list event :=
  [event_for REQUEST_TYPE_SHAKE_HANDS (hello_bytes demo_hello);
   event_for REQUEST_TYPE_DELETE (TdhsFormat.enc_request TdhsBatch.demo_request)].

Lemma demo_code_ok s : nonzero s -> bytes_ok s -> code_ok (demo_code (External (s ++ [0]))).
Proof.
  intros Hs Hb. destruct (reset_auth_code_spec (AuthCode NoCode [] 0) s [] Hs Hb) as [(a & E & _ & Hok) _]. unfold demo_code.
  cbn [code_char code_string_len] in E. by rewrite E.
Qed.

Lemma demo_config_ok : code_ok (auth_read_code demo_config) /\ code_ok (auth_write_code demo_config).
Proof.
  split; [apply (demo_code_ok [97; 98])|apply (demo_code_ok [99; 100])]; unfold nonzero, bytes_ok; repeat (constructor; [lia|]); constructor.
Qed.

Lemma event_for_ok com body : forallb is_byte body = true -> count body < 2 ^ 32 -> event_ok (event_for com body).
Proof.
  intros Hb Hl. split; [|split; [apply demo_config_ok|split; [apply demo_config_ok|]]].
  - apply list.Forall_forall. intros x Hx. apply list_elem_of_In in Hx. rewrite forallb_forall in Hb. specialize (Hb x Hx). unfold is_byte in Hb. lia.
  - intros p rest [= <- <-]. unfold packet_in, packet_for. cbn [length rdata e_data event_for]. unfold count in *. lia.
Qed.

Lemma shake_hands_spec_witness : exists rc c',
  shake_hands_if (auth_read_code demo_config) (auth_write_code demo_config) (hello_bytes demo_hello)
    (packet_for REQUEST_TYPE_SHAKE_HANDS (hello_bytes demo_hello)) init_context = Some (rc, c') /\
  rc = EASY_AGAIN /\ c' = Context true (Some Binary) 1000 3.
Proof.
  destruct (shake_hands_spec (hello_bytes demo_hello)
    ltac:(unfold bytes_ok; vm_compute; repeat (constructor; [split; [discriminate|reflexivity]|]); constructor)
    (auth_read_code demo_config) (auth_write_code demo_config) (proj1 demo_config_ok) (proj2 demo_config_ok)
    (packet_for REQUEST_TYPE_SHAKE_HANDS (hello_bytes demo_hello)) init_context) as (rc & c' & E & _).
  - reflexivity.
  - split; [reflexivity|]. split; [split; [discriminate|reflexivity]|discriminate].
  - discriminate.
  - exists rc, c'. split; [exact E|]. vm_compute in E. injection E as <- <-. split; reflexivity.
Defined.

Lemma access_control_witness : exists outs st rc thread,
  run demo_events (IoState init_context demo_counters EasyPool.demo_pool) = Some (outs, st) /\ outs !! 1%nat = Some (rc, Push TDHS_WRITE thread) /\
  exists j e0 h e, (j < 1)%nat /\ demo_events !! j = Some e0 /\ accepted e0 h /\ demo_events !! 1%nat = Some e /\
    (auth_on (e_cf e) = true -> entitled e0 h TDHS_WRITE).
Proof.
  destruct (run demo_events (IoState init_context demo_counters EasyPool.demo_pool)) as [[outs st]|] eqn:E; [|vm_compute in E; discriminate E].
  assert (exists rc thread, outs !! 1%nat = Some (rc, Push TDHS_WRITE thread)) as (rc & thread & Hout).
  { vm_compute in E. injection E as <- _. by do 2 eexists. }
  exists outs, st, rc, thread. split; [reflexivity|]. split; [exact Hout|].
  apply (access_control demo_events demo_counters EasyPool.demo_pool outs st 1 rc TDHS_WRITE thread); [|exact E|exact Hout].
  constructor; [|constructor; [|constructor]]; apply event_for_ok; reflexivity.
Defined.
End TdhsConnection.
