(* ===== verification/TdhsOptimize.v ===== *)
(** * libtdhs/tdh_socket_bloom_filter.c, TDHSocket/tdh_socket_optimize.cpp: hot requests

    Reads that were executed before are taken to be quick: their hashes are kept
    in a group of bloom filters, of which one is current.  When the current filter
    has too many entries it is emptied and the next one, which has been filled
    with the newer entries, becomes current.  [None] is an access outside the
    bits of a filter, or a division by zero. *)

From Stdlib Require Import ZArith Lia.
From stdpp Require Import base list numbers option.
From S2P Require Import Prelude CString EasyHash TdhsDefine TdhsConnection.

Local Open Scope Z_scope.

Module TdhsOptimize.
Import TdhsDefine TdhsConnection.

(** ** A filter *)

Record bloom_filter := Bloom { asize : Z; a : list Z; fsize : Z }.

Definition CHAR_BIT : Z := 8.
Definition FSIZE (size : Z) : Z := u64 (size + CHAR_BIT - 1) / CHAR_BIT * 1.
Definition SETBIT (a : list Z) (n : Z) : option (list Z) :=
  x ← a !! Z.to_nat (n / CHAR_BIT);
  Some (<[Z.to_nat (n / CHAR_BIT) := u8 (Z.lor x (Z.shiftl 1 (n mod CHAR_BIT)))]> a).
Definition GETBIT (a : list Z) (n : Z) : option Z :=
  x ← a !! Z.to_nat (n / CHAR_BIT); Some (Z.land x (Z.shiftl 1 (n mod CHAR_BIT))).

(** The two results of malloc: whether there is memory. *)
Definition create_bfilter (malloc1 malloc2 : bool) (size : Z) : option bloom_filter :=
  if negb malloc1 then None
  else
    let n := FSIZE size in
    if negb malloc2 then None else Some (Bloom size (replicate (Z.to_nat n) 0) n).

Definition position (b : bloom_filter) (input : Z) : option Z := if asize b =? 0 then None else Some (input mod asize b).
Definition bfilter_add (b : bloom_filter) (input : Z) : option bloom_filter :=
  n ← position b input; bits ← SETBIT (a b) n; Some (Bloom (asize b) bits (fsize b)).
Definition bfilter_check (b : bloom_filter) (input : Z) : option Z := n ← position b input; GETBIT (a b) n.

(** ** The group *)

Record tdhs_bloom_filter_t := Filter { filter : option bloom_filter; filter_num : Z }.

Definition resest (f : tdhs_bloom_filter_t) : tdhs_bloom_filter_t :=
  Filter (option_map (fun b => Bloom (asize b) (replicate (Z.to_nat (fsize b)) 0) (fsize b)) (filter f)) 0.
Definition destory (f : tdhs_bloom_filter_t) : tdhs_bloom_filter_t := Filter None 0.
Definition check (f : tdhs_bloom_filter_t) (hash : Z) : option Z :=
  match filter f with Some b => bfilter_check b hash | None => Some 0 end.
Definition add_hash (f : tdhs_bloom_filter_t) (hash : Z) : option (bool * tdhs_bloom_filter_t) :=
  match filter f with
  | Some b =>
      r ← bfilter_check b hash;
      if r =? 0 then b ← bfilter_add b hash; Some (true, Filter (Some b) (i64 (filter_num f + 1))) else Some (false, f)
  | None => Some (false, f)
  end.

(** The static variables; [switch_lock] is taken or not. *)
Record optimizer := Optimizer {
  filters : option (list tdhs_bloom_filter_t); current_filter_index : Z; filter_switch : bool; switch_lock : bool }.
(** The variables of the plugin. *)
Record options := Options {
  bloom_filter_group : Z; bloom_filter_num_buckets : Z; guess_hot_request_num : Z; optimize_on : bool }.

Section group.
Variable cf : options.

(** [mallocs i]: the results for filter [i]. *)
Fixpoint create_filters (mallocs : nat -> bool * bool) (i n : nat) : option (list tdhs_bloom_filter_t) :=
  match n with
  | O => Some []
  | S n =>
      b ← create_bfilter (fst (mallocs i)) (snd (mallocs i)) (bloom_filter_num_buckets cf);
      fs ← create_filters mallocs (S i) n;
      Some (Filter (Some b) 0 :: fs)
  end.
Definition init_optimize (malloc : bool) (mallocs : nat -> bool * bool) (st : optimizer) : Z * optimizer :=
  let set fs := Optimizer fs (current_filter_index st) (filter_switch st) (switch_lock st) in
  if (0 <? bloom_filter_group cf) && (0 <? bloom_filter_num_buckets cf) then
    if negb malloc then (EASY_ERROR, set None)
    else match create_filters mallocs 0 (Z.to_nat (bloom_filter_group cf)) with
         | None => (EASY_ERROR, set None)
         | Some fs => (EASY_OK, set (Some fs))
         end
  else (EASY_OK, st).
Definition destory_optimize (st : optimizer) : optimizer :=
  Optimizer None (current_filter_index st) (filter_switch st) (switch_lock st).

Definition slot (st : optimizer) (i : Z) : option nat :=
  if bloom_filter_group cf =? 0 then None else Some (Z.to_nat (u64 (current_filter_index st + i) mod bloom_filter_group cf)).

(** The loop over the group, from filter [i] on, [n] to go. *)
Fixpoint add_loop (n : nat) (i : Z) (st : optimizer) (fs : list tdhs_bloom_filter_t) (hash : Z) : option (list tdhs_bloom_filter_t) :=
  match n with
  | O => Some fs
  | S n =>
      k ← slot st i;
      f ← fs !! k;
      x ← add_hash f hash;
      let '(added, f) := x in
      let fs := <[k := f]> fs in
      if negb added then Some fs
      else if filter_num f <? u32 (guess_hot_request_num cf) / bloom_filter_group cf then Some fs
      else add_loop n (i + 1) st fs hash
  end.

(** [easy_trylock] fails if the lock is taken. *)
Definition add_optimize (data : list Z) (q : tdhs_request_t) (st : optimizer) : option optimizer :=
  match filters st with
  | Some fs =>
      if optimize_on cf && is_read q then
        if filter_switch st then Some st
        else
          k ← slot st 0;
          f ← fs !! k;
          let over := guess_hot_request_num cf <? filter_num f in
          if over && switch_lock st then Some st
          else
            let '(fs, st) :=
              if over then
                let fs := <[k := resest f]> fs in (fs, Optimizer (Some fs) (u64 (current_filter_index st + 1)) false false)
              else (fs, st) in
            hash ← (if negb (optimize_hash q =? 0) then Some (optimize_hash q) else calc_hash_get data q);
            fs ← add_loop (Z.to_nat (bloom_filter_group cf)) 0 st fs hash;
            Some (Optimizer (Some fs) (current_filter_index st) (filter_switch st) (switch_lock st))
      else Some st
  | None => Some st
  end.

(** The check of [optimize]: the current filter. *)
Definition check_current (st : optimizer) (hash : Z) : option Z :=
  fs ← filters st; k ← slot st 0; f ← fs !! k; check f hash.
End group.

(** ** The bits of a filter *)

Definition bit (b : bloom_filter) (n : Z) : bool := Z.testbit (default 0 (a b !! Z.to_nat (n / CHAR_BIT))) (n mod CHAR_BIT).

Record bloom_ok (b : bloom_filter) : Prop := {
  bl_size : 0 < asize b < 2 ^ 32;
  bl_fsize : fsize b = FSIZE (asize b);
  bl_len : List.length (a b) = Z.to_nat (fsize b);
  bl_bytes : bytes_ok (a b) }.

Lemma bit_byte b n : bloom_ok b -> 0 <= n < asize b -> exists x, a b !! Z.to_nat (n / CHAR_BIT) = Some x /\ 0 <= x < 256.
Proof.
  intros [Hs Hf Hl Hb] Hn. destruct (lookup_lt_is_Some_2 (a b) (Z.to_nat (n / CHAR_BIT))) as [x Hx].
  { rewrite Hl, Hf. unfold FSIZE, CHAR_BIT. rewrite wrapu_small by lia. rewrite Z.mul_1_r.
    assert (n / 8 < (asize b + 8 - 1) / 8) by (Z.to_euclidean_division_equations; lia). assert (0 <= n / 8) by (apply Z.div_pos; lia). lia. }
  exists x. split; [done|]. unfold bytes_ok in Hb. rewrite list.Forall_lookup in Hb. by apply (Hb _ _ Hx).
Qed.

Lemma land_bit x k : 0 <= k -> (Z.land x (Z.shiftl 1 k) =? 0) = negb (Z.testbit x k).
Proof.
  intros Hk. rewrite Z.shiftl_1_l. destruct (Z.testbit x k) eqn:E; cbn [negb].
  - apply Z.eqb_neq. intros H0. apply (f_equal (fun z => Z.testbit z k)) in H0.
    rewrite Z.land_spec, E, Z.pow2_bits_true, Z.bits_0 in H0 by done. done.
  - apply Z.eqb_eq. apply Z.bits_inj_0. intros i. rewrite Z.land_spec. destruct (Z.eq_dec i k) as [->|Hne]; [by rewrite E|].
    rewrite Z.pow2_bits_false by lia. by rewrite andb_false_r.
Qed.

Lemma check_bit b x : bloom_ok b -> exists r, bfilter_check b x = Some r /\ (r =? 0) = negb (bit b (x mod asize b)).
Proof.
  intros Hb. pose proof (bl_size _ Hb) as Hs. unfold bfilter_check, position. destruct (Z.eqb_spec (asize b) 0) as [?|_]; [lia|]. cbn [mbind option_bind].
  pose proof (Z.mod_pos_bound x (asize b) ltac:(lia)) as Hm. destruct (bit_byte b _ Hb Hm) as (y & Hy & _).
  unfold GETBIT, bit. rewrite Hy. cbn [mbind option_bind default from_option]; unfold id. eexists. split; [done|]. apply land_bit. apply Z.mod_pos_bound. done.
Qed.

Lemma add_bit b x : bloom_ok b -> exists b', bfilter_add b x = Some b' /\ bloom_ok b' /\ asize b' = asize b /\
  forall n, 0 <= n < asize b -> bit b' n = bit b n || (n =? x mod asize b).
Proof.
  intros Hb. pose proof Hb as [Hs Hf Hl Hby]. unfold bfilter_add, position. destruct (Z.eqb_spec (asize b) 0) as [?|_]; [lia|]. cbn [mbind option_bind].
  pose proof (Z.mod_pos_bound x (asize b) ltac:(lia)) as Hm. set (m := x mod asize b) in *. destruct (bit_byte b _ Hb Hm) as (y & Hy & Hr).
  unfold SETBIT. rewrite Hy. cbn [mbind option_bind]. set (k := m mod CHAR_BIT). assert (0 <= k < 8) as Hk by (apply Z.mod_pos_bound; done).
  set (y' := u8 (Z.lor y (Z.shiftl 1 k))). assert (0 <= y' < 256) as Hy' by (apply wrapu_range; lia).
  eexists. split; [done|]. split_and!; [|done|].
  - split; cbn [asize a fsize]; [done|done|by rewrite length_insert|]. unfold bytes_ok. by apply Forall_insert.
  - intros n Hn. destruct (bit_byte b n Hb Hn) as (z & Hz & _). unfold bit at 1 2. cbn [a].
    assert (0 <= n / CHAR_BIT /\ 0 <= m / CHAR_BIT) as [] by (split; apply Z.div_pos; unfold CHAR_BIT; lia).
    destruct (Z.eq_dec (n / CHAR_BIT) (m / CHAR_BIT)) as [E|E].
    + rewrite E, list_lookup_insert_eq by (by apply lookup_lt_Some in Hy). rewrite Hy. cbn [default from_option id]; unfold id.
      assert (0 <= n mod CHAR_BIT < 8) by (by apply Z.mod_pos_bound). unfold y', wrapu.
      rewrite Z.mod_pow2_bits_low, Z.lor_spec, Z.shiftl_1_l by lia. f_equal.
      destruct (Z.eqb_spec n m) as [->|Hnm]; [apply Z.pow2_bits_true; lia|]. apply Z.pow2_bits_false.
      unfold k. intros Ek. apply Hnm. rewrite (Z.div_mod n CHAR_BIT), (Z.div_mod m CHAR_BIT) by done. lia.
    + rewrite list_lookup_insert_ne by lia. destruct (Z.eqb_spec n m) as [->|]; [done|]. by rewrite orb_false_r.
Qed.

Lemma empty_bloom size : 0 < size < 2 ^ 32 -> let b := Bloom size (replicate (Z.to_nat (FSIZE size)) 0) (FSIZE size) in
  bloom_ok b /\ forall n, bit b n = false.
Proof.
  intros Hs b. split.
  - split; cbn; [done|done|by rewrite length_replicate|]. unfold bytes_ok. apply list.Forall_forall. intros x Hx. apply elem_of_replicate in Hx as [-> _]. lia.
  - intros n. unfold bit. cbn [a b]. destruct (replicate _ 0 !! _) as [x|] eqn:E; cbn [default from_option]; unfold id; [|apply Z.bits_0].
    apply lookup_replicate in E as [-> _]. apply Z.bits_0.
Qed.

Fixpoint add_all (b : bloom_filter) (xs : list Z) : option bloom_filter :=
  match xs with [] => Some b | x :: xs => b ← bfilter_add b x; add_all b xs end.

(** A filter answers exactly: a hash is reported if and only if one with the same
    remainder was added (so none that was added is missed), and the accesses stay
    inside the bits allocated. *)
Theorem bloom_filter_exact size xs x : 0 < size < 2 ^ 32 ->
  exists b b' r, create_bfilter true true size = Some b /\ add_all b xs = Some b' /\ bfilter_check b' x = Some r /\
  (r <> 0 <-> exists y, y ∈ xs /\ y mod size = x mod size).
Proof.
  intros Hs. destruct (empty_bloom size Hs) as [Hb H0]. eexists. unfold create_bfilter. cbn [negb].
  assert (forall xs b, bloom_ok b -> asize b = size -> exists b', add_all b xs = Some b' /\ bloom_ok b' /\ asize b' = size /\
    forall n, 0 <= n < size -> bit b' n = true <-> bit b n = true \/ exists y, y ∈ xs /\ y mod size = n) as Hall.
  { clear. induction xs as [|y xs IH]; intros b Hb Ha.
    - exists b. split_and!; try done. intros n _. split; [by left|]. intros [?|(y & Hy & _)]; [done|by apply elem_of_nil in Hy].
    - destruct (add_bit b y Hb) as (b1 & E & Hb1 & Ha1 & Hbit). cbn [add_all]. rewrite E. cbn [mbind option_bind].
      destruct (IH b1 Hb1) as (b2 & E2 & Hb2 & Ha2 & Hbit2); [congruence|]. exists b2. split_and!; try done.
      intros n Hn. rewrite Hbit2, Hbit by (rewrite ?Ha; done). rewrite Ha, orb_true_iff, Z.eqb_eq.
      setoid_rewrite elem_of_cons. naive_solver. }
  destruct (Hall xs _ Hb eq_refl) as (b' & E & Hb' & Ha' & Hbit). destruct (check_bit b' x Hb') as (r & Er & Hr).
  exists b', r. split_and!; try done. rewrite Ha' in Hr.
  pose proof (Hbit (x mod size) (Z.mod_pos_bound x size ltac:(lia))) as Hm. rewrite H0 in Hm.
  rewrite <- Z.eqb_neq, Hr, negb_false_iff, Hm. split; [by intros [?|?]|by right].
Qed.

(** ** Hot requests *)

Section hot.
Variable cf : options.

Definition filter_ok (f : tdhs_bloom_filter_t) : Prop := exists b, filter f = Some b /\ bloom_ok b /\ asize b = bloom_filter_num_buckets cf.
Record group_ok (st : optimizer) (fs : list tdhs_bloom_filter_t) : Prop := {
  gr_group : 0 < bloom_filter_group cf < 2 ^ 32;
  gr_index : 0 <= current_filter_index st < 2 ^ 64;
  gr_filters : filters st = Some fs;
  gr_len : List.length fs = Z.to_nat (bloom_filter_group cf);
  gr_ok : Forall filter_ok fs }.

(** What a filter reports. *)
Definition holds (f : tdhs_bloom_filter_t) (hash : Z) : Prop := exists r, check f hash = Some r /\ r <> 0.
(** A filter with more entries. *)
Definition more (f f' : tdhs_bloom_filter_t) : Prop := forall hash, holds f hash -> holds f' hash.

#[local] Instance more_preorder : PreOrder more.
Proof. split; [by intros f h|]. intros x y z Hxy Hyz h Hx. by apply Hyz, Hxy. Qed.

Lemma holds_bit f b hash : filter f = Some b -> bloom_ok b -> holds f hash <-> bit b (hash mod asize b) = true.
Proof.
  intros Hf Hb. unfold holds, check. rewrite Hf. destruct (check_bit b hash Hb) as (r & Er & Hr). split.
  - intros (r' & Er' & Hne). assert (r' = r) as -> by congruence. apply Z.eqb_neq in Hne. rewrite Hne in Hr. by destruct (bit _ _).
  - intros Hbit. exists r. split; [done|]. rewrite Hbit in Hr. by apply Z.eqb_neq.
Qed.

Lemma add_hash_ok f hash : filter_ok f -> exists added f', add_hash f hash = Some (added, f') /\ filter_ok f' /\ holds f' hash /\ more f f'.
Proof.
  intros (b & Hf & Hb & Ha). unfold add_hash. rewrite Hf. destruct (check_bit b hash Hb) as (r & -> & Hr). cbn [mbind option_bind].
  destruct (Z.eqb_spec r 0) as [E0|Hne].
  - destruct (add_bit b hash Hb) as (b' & -> & Hb' & Ha' & Hbit). cbn [mbind option_bind]. eexists _, _. split; [done|].
    pose proof (bl_size _ Hb) as Hs. split_and!; [exists b'; split_and!; [done|done|congruence]|..].
    + rewrite holds_bit by done. rewrite Ha', Hbit by (apply Z.mod_pos_bound; lia). by rewrite Z.eqb_refl, orb_true_r.
    + intros x. rewrite (holds_bit f b) by done. rewrite (holds_bit _ b') by done. rewrite Ha', Hbit by (apply Z.mod_pos_bound; lia). by intros ->.
  - eexists _, _. split; [done|]. split_and!; [by exists b| |by intros x]. rewrite (holds_bit f b) by done. by destruct (bit _ _).
Qed.

Lemma slot_ok st fs i : group_ok st fs -> exists k f, slot cf st i = Some k /\ fs !! k = Some f /\ filter_ok f.
Proof.
  intros [Hg _ _ Hl Hok]. unfold slot. destruct (Z.eqb_spec (bloom_filter_group cf) 0) as [?|_]; [lia|].
  eexists. pose proof (Z.mod_pos_bound (u64 (current_filter_index st + i)) (bloom_filter_group cf) ltac:(lia)).
  destruct (lookup_lt_is_Some_2 fs (Z.to_nat (u64 (current_filter_index st + i) mod bloom_filter_group cf))) as [f Hf]; [lia|].
  exists f. split_and!; [done|done|]. rewrite list.Forall_lookup in Hok. by apply (Hok _ _ Hf).
Qed.

Lemma more_insert fs k f f' : fs !! k = Some f -> more f f' -> Forall2 more fs (<[k := f']> fs).
Proof.
  intros Hk Hm. apply Forall2_same_length_lookup_2; [by rewrite length_insert|]. intros i x y Hx Hy.
  destruct (decide (k = i)) as [->|Hne].
  - rewrite list_lookup_insert_eq in Hy by (by apply lookup_lt_Some in Hk). by simplify_eq.
  - rewrite list_lookup_insert_ne in Hy by done. simplify_eq. by intros h.
Qed.

Lemma add_loop_same n : forall i st st' fs hash, current_filter_index st' = current_filter_index st ->
  add_loop cf n i st' fs hash = add_loop cf n i st fs hash.
Proof.
  induction n as [|n IH]; intros i st st' fs hash Hi; [done|]. cbn [add_loop].
  assert (slot cf st' i = slot cf st i) as -> by (unfold slot; by rewrite Hi).
  destruct (slot cf st i) as [k|]; [|done]. cbn [mbind option_bind]. destruct (fs !! k) as [f|]; [|done]. cbn [mbind option_bind].
  destruct (add_hash f hash) as [[added f']|]; [|done]. cbn [mbind option_bind]. by rewrite (IH _ st).
Qed.

Lemma add_loop_ok n : forall i st fs hash, group_ok st fs -> exists fs', add_loop cf n i st fs hash = Some fs' /\
  List.length fs' = List.length fs /\ Forall filter_ok fs' /\ Forall2 more fs fs' /\
  (n <> O -> forall k, slot cf st i = Some k -> exists f, fs' !! k = Some f /\ holds f hash).
Proof.
  induction n as [|n IH]; intros i st fs hash Hg; cbn [add_loop].
  { exists fs. split_and!; try done; apply Hg. }
  destruct (slot_ok st fs i Hg) as (k & f & -> & Hf & Hok). cbn [mbind option_bind]. rewrite Hf. cbn [mbind option_bind].
  destruct (add_hash_ok f hash Hok) as (added & f' & -> & Hok' & Hh & Hm). cbn [mbind option_bind].
  set (fs1 := <[k := f']> fs). pose proof Hg as [Hgr Hidx Hfs Hl Hall].
  assert (List.length fs1 = List.length fs /\ Forall filter_ok fs1 /\ Forall2 more fs fs1 /\ fs1 !! k = Some f') as (H1 & H2 & H3 & H4).
  { split_and!; [apply length_insert|by apply Forall_insert|by eapply more_insert|]. apply list_lookup_insert_eq. by apply lookup_lt_Some in Hf. }
  assert (exists fs', Some fs1 = Some fs' /\ List.length fs' = List.length fs /\ Forall filter_ok fs' /\ Forall2 more fs fs' /\
    (S n <> O -> forall k', Some k = Some k' -> exists f, fs' !! k' = Some f /\ holds f hash)) as Hstop.
  { exists fs1. split_and!; try done. intros _ k' [= <-]. by exists f'. }
  case_match; [exact Hstop|]. case_match; [exact Hstop|]. clear Hstop.
  destruct (IH (i + 1) (Optimizer (Some fs1) (current_filter_index st) (filter_switch st) (switch_lock st)) fs1 hash) as (fs2 & E & L2 & O2 & M2 & _).
  { split; try done. cbn. by rewrite H1. }
  rewrite (add_loop_same n (i + 1) st) in E by done. exists fs2. split_and!; [done|congruence|done| |].
  - by transitivity fs1.
  - intros _ k' [= <-]. destruct (Forall2_lookup_l _ _ _ _ _ M2 H4) as (f2 & Hf2 & Hm2). exists f2. split; [done|by apply Hm2].
Qed.

Lemma resest_ok f : filter_ok f -> filter_ok (resest f).
Proof.
  intros (b & Hf & Hb & Ha). unfold filter_ok, resest. rewrite Hf. cbn [option_map filter]. eexists. split; [done|]. split; [|done].
  rewrite (bl_fsize _ Hb). apply (empty_bloom (asize b) (bl_size _ Hb)).
Qed.

Lemma next_index i : 0 <= i < 2 ^ 64 -> u64 (i + 1) <> i.
Proof. intros Hi. unfold wrapu. destruct (Z.eq_dec (i + 1) (2 ^ 64)) as [E|]; [rewrite E, Z_mod_same_full; lia|]. rewrite Z.mod_small; lia. Qed.


Lemma create_filters_ok mallocs n : 0 < bloom_filter_num_buckets cf < 2 ^ 32 -> (forall i, mallocs i = (true, true)) ->
  forall i, exists fs, create_filters cf mallocs i n = Some fs /\ List.length fs = n /\ Forall filter_ok fs.
Proof.
  intros Hb Hm. induction n as [|n IH]; intros i; cbn [create_filters]; [by exists []|]. rewrite Hm. cbn [fst snd create_bfilter negb mbind option_bind].
  destruct (IH (S i)) as (fs & -> & Hl & Hok). cbn [mbind option_bind]. eexists. split; [done|]. split; [by cbn; rewrite Hl|].
  constructor; [|done]. eexists. split; [done|]. split; [by apply empty_bloom|done].
Qed.

(** With memory, the filters are there after the start. *)
Lemma init_optimize_ok mallocs st : 0 < bloom_filter_num_buckets cf < 2 ^ 32 -> 0 < bloom_filter_group cf < 2 ^ 32 ->
  0 <= current_filter_index st < 2 ^ 64 -> (forall i, mallocs i = (true, true)) ->
  exists st' fs, init_optimize cf true mallocs st = (EASY_OK, st') /\ group_ok st' fs /\ filter_switch st' = filter_switch st /\ switch_lock st' = switch_lock st.
Proof.
  intros Hb Hg Hi Hm. unfold init_optimize. destruct (Z.ltb_spec 0 (bloom_filter_group cf)); [|lia]. destruct (Z.ltb_spec 0 (bloom_filter_num_buckets cf)); [|lia].
  destruct (create_filters_ok mallocs (Z.to_nat (bloom_filter_group cf)) Hb Hm 0) as (fs & E & Hl & Hok). cbn [andb negb]. rewrite E.
  eexists _, fs. split; [done|]. by split_and!.
Qed.
End hot.

(** ** Witnesses *)

Lemma bloom_filter_exact_witness : exists b b' r, create_bfilter true true 100 = Some b /\ add_all b [7; 12345] = Some b' /\
  bfilter_check b' 345 = Some r /\ r <> 0.
Proof.
  destruct (bloom_filter_exact 100 [7; 12345] 345 ltac:(lia)) as (b & b' & r & E1 & E2 & E3 & H). exists b, b', r.
  split; [exact E1|]. split; [exact E2|]. split; [exact E3|]. apply H. exists 12345. split; [|reflexivity].
  apply list_elem_of_In. right. left. reflexivity.
Defined.

(** A request for the key k of the table t of the database d. *)
Definition demo_data : list Z := [100; 0; 116; 0; 107; 0].
Definition demo_get : tdhs_request_t :=
  Request 1 REQUEST_TYPE_GET (Table 0 (Str (At 0) 2) (Str (At 2) 2) (Str PRIMARY 8) [] 0)
    (Get 1 RKeys (replicate REQUEST_MAX_KEY_NUM (Key 1 (Str (At 4) 2 :: replicate 9 no_string))) 0 (get_filter (get zero_request)) 0 1)
    (values zero_request) 0.
Definition demo_options : options := Options 2 64 1 true.


End TdhsOptimize.
