(* ===== verification/TdhsThrottle.v ===== *)
(** * The throttle of slow reads

    slow_read_limit of TDHSocket/tdh_socket_share.cpp, which TdhsConnection has as a
    parameter of the dispatch: when the strategy is the third and the throttle is on,
    it decides for each slow read whether it is refused.  Its doubles are IEEE
    doubles of the Standard Library's SpecFloat, as x86-64 computes them. *)

From Stdlib Require Import ZArith Lia.
From Stdlib Require Import SpecFloat.
From stdpp Require Import base list numbers option.
From S2P Require Import Prelude.

Local Open Scope Z_scope.

Module TdhsThrottle.

(** ** Doubles *)

Abbreviation double := spec_float.
Definition fdiv : double -> double -> double := SFdiv 53 1024.
Definition fmul : double -> double -> double := SFmul 53 1024.
Definition fadd : double -> double -> double := SFadd 53 1024.
(** An integer, rounded. *)
Definition of_Z (z : Z) : double := binary_normalize 53 1024 z 0 false.

(** The value of a finite double, towards zero; [None] for the others, and where the
    result is no [unsigned long long]: such a conversion is undefined. *)
Definition to_ullong (f : double) : option Z :=
  match f with
  | S754_zero _ => Some 0
  | S754_finite s m e =>
      let v := if 0 <=? e then Z.pos m * 2 ^ e else Z.pos m / 2 ^ (- e) in
      let v := if s : bool then - v else v in
      if (0 <=? v) && (v <? 2 ^ 64) then Some v else None
  | _ => None
  end.

(** ** slow_read_limit *)

Definition NANOSECONDS_PER_SECOND : Z := 1000000.
Definition SLOW_READ_SLICE_TIME : Z := 1 * NANOSECONDS_PER_SECOND / 10.

(** [slow_read_throttle], and the counters slow_read_io_num and throttle_count. *)
Record tdhs_throttle_t := Throttle {
  start_read_io_num : Z; slice_start : Z; slice_end : Z; slice_time : Z;
  slow_read_io_num : Z; throttle_count : Z }.
Definition no_throttle : tdhs_throttle_t := Throttle 0 0 0 0 0 0.

(** The slice a read at [now] belongs to: the current one, made longer, or a new one. *)
Definition slice (now : Z) (t : tdhs_throttle_t) : tdhs_throttle_t :=
  if (slice_start t <? now) && (now <? slice_end t) then
    Throttle (start_read_io_num t) (slice_start t) (u64 (now + slice_time t)) (slice_time t) (slow_read_io_num t) (throttle_count t)
  else Throttle (slow_read_io_num t) now (u64 (now + 5 * SLOW_READ_SLICE_TIME)) (5 * SLOW_READ_SLICE_TIME) (slow_read_io_num t) (throttle_count t).

Definition ios_limit (limits : Z) (t : tdhs_throttle_t) : double :=
  let f := fdiv (of_Z limits) (fdiv (of_Z (u64 (slice_end t - slice_start t))) (of_Z NANOSECONDS_PER_SECOND)) in
  if SFltb (of_Z 0) f then f else of_Z 1.

(** [true] refuses the read; [None] is an undefined conversion. *)
Definition slow_read_limit (tdhs_throttle_on : bool) (tdhs_slow_read_limits now : Z) (t : tdhs_throttle_t) : option (bool * tdhs_throttle_t) :=
  if negb tdhs_throttle_on then Some (false, t)
  else
    let t := slice now t in
    let elapsed_time := u64 (now - slice_start t) in
    let limit := ios_limit tdhs_slow_read_limits t in
    let ios_base := of_Z (u64 (slow_read_io_num t - start_read_io_num t)) in
    if SFltb ios_base limit then
      Some (false, Throttle (start_read_io_num t) (slice_start t) (slice_end t) (slice_time t) (u64 (slow_read_io_num t + 1)) (throttle_count t))
    else
      wait_time ← to_ullong (fmul (fdiv (fadd ios_base (of_Z 1)) limit) (of_Z NANOSECONDS_PER_SECOND));
      let wait_time := if elapsed_time <? wait_time then wait_time - elapsed_time else 0 in
      let time := u64 (u64 (wait_time * SLOW_READ_SLICE_TIME) * 10) in
      Some (true, Throttle (start_read_io_num t) (slice_start t) (u64 (slice_end t + u64 (time - 3 * SLOW_READ_SLICE_TIME))) time (slow_read_io_num t) (u64 (throttle_count t + 1))).

(** The answers to reads at some times. *)
Fixpoint answers (limits : Z) (times : list Z) (t : tdhs_throttle_t) : option (list bool * tdhs_throttle_t) :=
  match times with
  | [] => Some ([], t)
  | now :: times => x ← slow_read_limit true limits now t; y ← answers limits times (snd x); Some (fst x :: fst y, snd y)
  end.

(** ** Properties *)

(** Between two doubles of which one is positive. *)
Lemma limit_positive limits t : SFltb (of_Z 0) (ios_limit limits t) = true.
Proof. unfold ios_limit. cbv zeta. destruct (SFltb (of_Z 0) (fdiv _ _)) eqn:E; [exact E|reflexivity]. Qed.

(** Switched off, nothing is refused or counted.  A read outside the slice begins one
    and is accepted, whatever the limit is; an accepted read is counted once, a refused
    one is not, and is counted as refused. *)
Theorem slow_read_limit_spec limits now t :
  slow_read_limit false limits now t = Some (false, t) /\
  (now <= slice_start t \/ slice_end t <= now -> slow_read_limit true limits now t =
     Some (false, Throttle (slow_read_io_num t) now (u64 (now + 500000)) 500000 (u64 (slow_read_io_num t + 1)) (throttle_count t))) /\
  (forall b t', slow_read_limit true limits now t = Some (b, t') ->
     slow_read_io_num t' = (if b : bool then slow_read_io_num t else u64 (slow_read_io_num t + 1)) /\ throttle_count t' = if b then u64 (throttle_count t + 1) else throttle_count t).
Proof.
  split; [done|]. split.
  - intros Hout. unfold slow_read_limit. cbn [negb]. assert (slice now t = Throttle (slow_read_io_num t) now (u64 (now + 500000)) 500000 (slow_read_io_num t) (throttle_count t)) as ->.
    { unfold slice. destruct Hout; destruct (Z.ltb_spec (slice_start t) now), (Z.ltb_spec now (slice_end t)); try lia; done. }
    cbn [slow_read_io_num start_read_io_num]. rewrite Z.sub_diag. change (of_Z (u64 0)) with (of_Z 0). by rewrite limit_positive.
  - intros b t'. unfold slow_read_limit. cbn [negb]. assert (slow_read_io_num (slice now t) = slow_read_io_num t /\ throttle_count (slice now t) = throttle_count t) as [E1 E2] by (unfold slice; by destruct (_ && _)).
    destruct (SFltb _ _); [intros [= <- <-]; cbn; by rewrite E1, E2|]. destruct (to_ullong _) as [w|]; [|done]. cbn [mbind option_bind]. intros [= <- <-]. cbn. by rewrite E1, E2.
Qed.

(** A moment, in microseconds. *)
Definition moment : Z := 1330000000000000.
Definition hour : Z := 3600 * NANOSECONDS_PER_SECOND.

(** The limit is meant as reads per second.  With the default of 2, four
    reads in a slice of half a second are accepted, the fifth is refused, and so is a
    read an hour later, when none has been read for an hour: waiting times are taken
    for slices a million times as long.  With a limit of 100, the fifteenth of reads
    that come every 0.49 seconds is refused: each read makes the slice longer, and the
    number of reads allowed in it smaller. *)
Example throttle_misjudges :
  (exists t, answers 2 (map (fun k => moment + 1000 * Z.of_nat k) (seq 0 5) ++ [moment + hour]) no_throttle = Some ([false; false; false; false; true; true], t)) /\
  (exists t, answers 100 (map (fun k => moment + 490000 * Z.of_nat k) (seq 0 15)) no_throttle = Some (replicate 14 false ++ [true], t)).
Proof. split; eexists; vm_compute; reflexivity. Qed.

End TdhsThrottle.
