(* ===== verification/TdhsResponse.v ===== *)
(** * TDHSocket/tdh_socket_encode_response.hpp: building and streaming responses

    A response reuses the packet of its request.  Its buffer keeps a hole for the
    header of the packet, which [tdhs_encode] fills in when the packet is sent.  A
    result set larger than the buffer is streamed: whenever the buffer is full
    it is sent as a packet of its own and used again.  A write outside the
    buffer is [None]. *)

From Stdlib Require Import ZArith Lia.
From stdpp Require Import base gmap list numbers option.
From S2P Require Import Prelude CString EasyPool EasyBuf TdhsDefine TdhsRead TdhsProtocol.

Local Open Scope Z_scope.

Module TdhsResponse.
Import TdhsDefine TdhsRead TdhsProtocol.

(** A buffer: the bytes from [stream_buffer] to [end], and the offsets of [pos]
    and [last] in them. *)
Record wbuf := WBuf { mem : list Z; b_pos : Z; b_last : Z }.

(** A packet with its write buffer, NULL before one is created. *)
Record response := Response { packet : tdhs_packet_t; buf : option wbuf }.

Definition set_code v p := Packet v (seq_id p) (reserved p) (length p) (rdata p) (wbuff p) (req p) (start_time p) (next p).
Definition set_length v p := Packet (command_id_or_response_code p) (seq_id p) (reserved p) v (rdata p) (wbuff p) (req p) (start_time p) (next p).
Definition set_wbuff v p := Packet (command_id_or_response_code p) (seq_id p) (reserved p) (length p) (rdata p) v (req p) (start_time p) (next p).

(** Storing bytes at [b->last] and advancing it; [packet.length] is counted
    separately. *)
Definition append (l : list Z) (r : response) : option response :=
  b ← buf r;
  if b_last b <? 0 then None
  else m ← puts (mem b) (Z.to_nat (b_last b)) l; Some (Response (packet r) (Some (WBuf m (b_pos b) (b_last b + count l)))).

Definition add_length (n : Z) (r : response) : response :=
  Response (set_length (u32 (length (packet r) + n)) (packet r)) (buf r).

Fixpoint append_each (l : list Z) (r : response) : option response :=
  match l with
  | [] => Some r
  | c :: l => r ← append [c] r; append_each l r
  end.

Definition tdhs_init_response (p : tdhs_packet_t) : tdhs_packet_t := set_length 0 (set_code CLIENT_STATUS_OK p).

Section create.
Context {S : Type} `{EasyPool.PoolOps S}.
(** The address of the pool, and what fresh memory holds. *)
Variables (pool_addr : Z) (fill : nat -> Z).

(** [easy_buf_create], then room for the header. *)
Definition create_buf (s : S) (size : Z) : option wbuf * S :=
  match EasyBuf.easy_buf_create pool_addr s ∅ size with
  | (Some b, s, h) =>
      (match h !! b with
       | Some (EasyBuf.Buf _ _ _ (EasyBuf.Data pos last end_)) =>
           Some (WBuf (map fill (seq 0 (Z.to_nat (end_ - pos)))) 0 (last - pos + TDH_SOCKET_HEADER_LENGTH))
       | _ => None
       end, s)
  | (None, s, _) => (None, s)
  end.

Definition tdhs_response_batch (s : S) (r : response) : Z * response * S :=
  let p := set_length 0 (set_code CLIENT_STATUS_MULTI_STATUS (packet r)) in
  match create_buf s TDH_SOCKET_HEADER_LENGTH with
  | (None, s) => (EASY_ERROR, Response p (buf r), s)
  | (Some b, s) => (EASY_OK, Response p (Some b), s)
  end.

Definition tdhs_response_error (s : S) (r : response) (status code : Z) : option (Z * response * S) :=
  let length := 4 in
  let p := set_length length (set_code status (packet r)) in
  match create_buf s (length + TDH_SOCKET_HEADER_LENGTH) with
  | (None, s) => Some (EASY_ERROR, Response p (buf r), s)
  | (Some b, s) => r ← append (htonl_bytes code) (Response p (Some b)); Some (EASY_OK, r, s)
  end.

Definition tdhs_response_error_global (s : S) (r : response) (status code : Z) : option (Z * response * S) :=
  tdhs_response_error s (Response (set_next None (packet r)) (buf r)) status code.

Definition write_data_header_to_response (tdhs_write_buff_size : Z) (s : S) (r : response)
    (field_num : Z) (field_types : list Z) : option (Z * response * S) :=
  let size := u32 (4 + field_num) in
  let alloc_size := if tdhs_write_buff_size <? size then size else tdhs_write_buff_size in
  match create_buf s (u32 (alloc_size + TDH_SOCKET_HEADER_LENGTH)) with
  | (None, s) => Some (EASY_ERROR, r, s)
  | (Some b, s) =>
      r ← append (htonl_bytes field_num) (Response (packet r) (Some b));
      types ← gets field_types 0 (Z.to_nat field_num);
      r ← append_each types r;
      Some (EASY_OK, add_length size r, s)
  end.

Definition write_update_header_to_response (s : S) (r : response) (type field_size num : Z)
    : option (Z * response * S) :=
  let size := u32 (4 + num) in
  let alloc_size := u32 (size + (4 + field_size) * num) in
  match create_buf s (u32 (alloc_size + TDH_SOCKET_HEADER_LENGTH)) with
  | (None, s) => Some (EASY_ERROR, r, s)
  | (Some b, s) =>
      r ← append (htonl_bytes (u32 num)) (Response (packet r) (Some b));
      r ← append_each (replicate (Z.to_nat num) type) r;
      Some (EASY_OK, add_length size r, s)
  end.

(** tdh_socket_dbutil.hpp: the columns of the answers to updates, deletions and
    counts, of at most ten digits each; an insertion answers in 48. *)
Definition MYSQL_TYPE_LONG : Z := 3.
Definition create_response_for_update (s : S) (r : response) := write_update_header_to_response s r MYSQL_TYPE_LONG 10 2.
Definition create_response_for_count (s : S) (r : response) := write_update_header_to_response s r MYSQL_TYPE_LONG 10 1.
Definition create_response_for_insert (s : S) (r : response) := write_update_header_to_response s r MYSQL_TYPE_LONG 48 1.
End create.

(** [snprintf(value, cap, ...)] of a text, then its length and as many bytes of
    [value] as the text would have had. *)
Definition write_number (cap : nat) (text : list Z) (r : response) : option response :=
  let value := EasyBuf.vsnprintf cap text in
  let write_len := count text in
  r ← append (htonl_bytes write_len) r;
  let r := add_length 4 r in
  l ← gets value 0 (Z.to_nat write_len);
  r ← append l r;
  Some (add_length write_len r).

Definition write_update_ender_to_response (update_row_num change_row_num : Z) (r : response) : option response :=
  r ← write_number 11 (sdec (i32 update_row_num)) r;
  write_number 11 (sdec (i32 change_row_num)) r.

Definition write_count_ender_to_response (n : Z) (r : response) : option response :=
  write_number 11 (sdec (i32 n)) r.

Definition write_insert_ender_to_response (key : Z) (r : response) : option response :=
  write_number 48 (udec key) r.

(** What is handed to the connection when the packet is sent: the bytes from
    [pos] to [last], with the header filled in. *)
Definition slice (b : wbuf) : list Z := take (Z.to_nat (b_last b - b_pos b)) (drop (Z.to_nat (b_pos b)) (mem b)).
Definition sealed (r : response) : option tdhs_packet_t := b ← buf r; Some (set_wbuff (Some (slice b)) (packet r)).

(** ** Streaming *)

(** A request being answered: its response, the packets sent so far, and the
    state shared with the I/O thread. *)
Record stream := Stream {
  resp : response; sent : list (list Z); is_inited : bool; use_stream_count : Z }.

Section stream.
(** Whether the connection is found closed after the n-th wait. *)
Variable closed : nat -> bool.

(** The request is woken up: the I/O thread encodes the packet and writes the
    buffer out, which moves [pos] to [last]; then either the client has taken
    it, and the buffer is used again, or the connection was closed. *)
Definition send_stream (st : stream) : option (Z * stream) :=
  b ← buf (resp st);
  let p := set_code CLIENT_STATUS_ACCEPT (packet (resp st)) in
  q ← sealed (Response p (Some b));
  bs ← tdhs_encode [q];
  let out := sent st ++ bs in
  let count := u64 (use_stream_count st + 1) in
  if closed (List.length (sent st)) then
    Some (EASY_ERROR, Stream (Response p (Some (WBuf (mem b) (b_last b) (b_last b)))) out true count)
  else
    Some (EASY_OK, Stream (Response (tdhs_init_response p) (Some (WBuf (mem b) 0 TDH_SOCKET_HEADER_LENGTH))) out true count).

Definition on_resp (f : response -> option response) (st : stream) : option stream :=
  r ← f (resp st); Some (Stream r (sent st) (is_inited st) (use_stream_count st)).

Definition room (st : stream) : option Z := b ← buf (resp st); Some (u32 (count (mem b) - b_last b)).

(** The [while (true)] loop; every round but the first writes at least one byte. *)
Fixpoint write_loop (fuel : nat) (data_length : Z) (data : list Z) (read_pos : Z) (st : stream) : option (Z * stream) :=
  match fuel with
  | O => None
  | Datatypes.S fuel =>
      rm ← room st;
      let write_len := Z.min rm (u32 (data_length - read_pos)) in
      r ← (if 0 <? write_len then
             l ← gets data (Z.to_nat read_pos) (Z.to_nat write_len);
             st ← on_resp (append l) st;
             st ← on_resp (fun r => Some (add_length write_len r)) st;
             Some (st, u32 (read_pos + write_len))
           else Some (st, read_pos));
      let '(st, read_pos) := r in
      if read_pos <? data_length then
        s ← send_stream st;
        let '(rc, st) := s in
        if negb (rc =? EASY_OK) then Some (EASY_ERROR, st) else write_loop fuel data_length data read_pos st
      else Some (EASY_OK, st)
  end.

Definition write_data_to_response (data_length : Z) (data : list Z) (st : stream) : option (Z * stream) :=
  rm ← room st;
  s ← (if rm <? 4 then send_stream st else Some (EASY_OK, st));
  let '(rc, st) := s in
  if negb (rc =? EASY_OK) then Some (EASY_ERROR, st)
  else
    st ← on_resp (append (htonl_bytes data_length)) st;
    st ← on_resp (fun r => Some (add_length 4 r)) st;
    if 0 <? data_length then write_loop (Datatypes.S (Datatypes.S (Z.to_nat data_length))) data_length data 0 st
    else Some (EASY_OK, st).

(** ** tdh_socket_dbutil.hpp: sending a record *)

(** The fields of the current row, [None] for NULL, as MySQL prints them. *)
Fixpoint response_record (fields : list (option (list Z))) (st : stream) : option (Z * stream) :=
  match fields with
  | [] => Some (EASY_OK, st)
  | field :: fields =>
      s ← match field with
          | None => write_data_to_response 0 [] st
          | Some rwpstr =>
              if negb (count rwpstr =? 0) then write_data_to_response (u32 (count rwpstr)) rwpstr st
              else write_data_to_response 1 [0] st
          end;
      let '(rc, st) := s in
      if negb (rc =? EASY_OK) then Some (EASY_ASYNC, st) else response_record fields st
  end.

(** The records of a result set, one after the other. *)
Fixpoint response_records (rows : list (list (option (list Z)))) (st : stream) : option (Z * stream) :=
  match rows with
  | [] => Some (EASY_OK, st)
  | row :: rows =>
      s ← response_record row st;
      let '(rc, st) := s in
      if negb (rc =? EASY_OK) then Some (rc, st) else response_records rows st
  end.
End stream.

(** ** The buffer of a response under construction *)

(** [cap] bytes, the hole for the header, then what was written: [cur]. *)
Definition filled (cap : Z) (cur : list Z) (r : response) : Prop :=
  exists hole rest, buf r = Some (WBuf (hole ++ cur ++ rest) 0 (TDH_SOCKET_HEADER_LENGTH + count cur)) /\
    count hole = TDH_SOCKET_HEADER_LENGTH /\ count hole + count cur + count rest = cap.

Lemma append_filled cap cur l r : filled cap cur r -> TDH_SOCKET_HEADER_LENGTH + count cur + count l <= cap ->
  exists b, append l r = Some (Response (packet r) b) /\ filled cap (cur ++ l) (Response (packet r) b).
Proof.
  intros (hole & rest & Hb & Hh & Hc) Hl. unfold TDH_SOCKET_HEADER_LENGTH in *. unfold append. rewrite Hb.
  cbn [mbind option_bind b_last b_pos mem]. destruct (Z.ltb_spec (20 + count cur) 0); [unfold count in *; lia|].
  destruct (split_at rest 0 (List.length l)) as (r1 & r2 & r3 & -> & E1 & E2); [unfold count in *; lia|].
  destruct r1; [|done]. cbn [app] in *.
  replace (Z.to_nat (20 + count cur)) with (List.length (hole ++ cur)) by (rewrite length_app; unfold count in *; lia).
  rewrite (app_assoc hole cur), puts_spec by done. cbn [mbind option_bind].
  eexists. split; [done|]. exists hole, r3. cbn [buf]. rewrite !count_app in *. unfold TDH_SOCKET_HEADER_LENGTH.
  rewrite <- !app_assoc. split_and!; [do 2 f_equal; lia|done|]. unfold count in *. lia.
Qed.

Lemma append_each_filled cap ts : forall cur r, filled cap cur r -> TDH_SOCKET_HEADER_LENGTH + count cur + count ts <= cap ->
  exists b, append_each ts r = Some (Response (packet r) b) /\ filled cap (cur ++ ts) (Response (packet r) b).
Proof.
  induction ts as [|t ts IH]; intros cur r Hf Hl.
  { exists (buf r). rewrite app_nil_r. by destruct r. }
  cbn [append_each]. change (t :: ts) with ([t] ++ ts) in *. rewrite count_app in Hl.
  destruct (append_filled cap cur [t] r Hf) as (b & -> & Hf1); [unfold count in *; lia|]. cbn [mbind option_bind].
  destruct (IH _ _ Hf1) as (b2 & -> & Hf2); [rewrite count_app; unfold count in *; lia|]. exists b2.
  split; [done|]. by rewrite <- app_assoc in Hf2.
Qed.

(** The same, with the numbers of the packet; [length] counts [cur]. *)
Definition counted (cap com seq rev : Z) (cur : list Z) (r : response) : Prop :=
  filled cap cur r /\
  command_id_or_response_code (packet r) = com /\ seq_id (packet r) = seq /\ reserved (packet r) = rev /\
  length (packet r) = count cur.

Definition packet_frame (com seq rev : Z) (l : list Z) : frame := Frame TDHS_MAGIC_CODE com seq rev l.

(** What is sent for it. *)
Lemma counted_encode cap com seq rev cur r : counted cap com seq rev cur r -> word com -> word seq -> word rev ->
  exists q, sealed r = Some q /\ tdhs_encode [q] = Some [frame_bytes (packet_frame com seq rev cur)].
Proof.
  intros ((hole & rest & Hb & Hh & Hc) & Hcom & Hs & Hr & Hl) Wc Ws Wr.
  exists (set_wbuff (Some (hole ++ cur)) (packet r)). unfold sealed. rewrite Hb. cbn [mbind option_bind]. split.
  - do 3 f_equal. unfold slice. cbn [b_last b_pos mem]. rewrite Z.sub_0_r. change (Z.to_nat 0) with O. rewrite drop_0, app_assoc.
    apply take_app_length'. rewrite length_app. unfold TDH_SOCKET_HEADER_LENGTH, count in *. lia.
  - set (q := set_wbuff _ _). assert (ready q cur) as Hrd.
    { split; [by exists hole|]. unfold q. cbn. by rewrite Hcom, Hs, Hr. }
    destruct (encode_ready q _ Hrd) as (wb & Eb & Ew). cbn [tdhs_encode]. rewrite Eb. cbn [mbind option_bind].
    rewrite Ew. cbn [mbind option_bind]. do 2 f_equal. unfold frame_bytes, header_bytes, packet_frame, q. cbn. by rewrite Hcom, Hs, Hr, Hl.
Qed.

Lemma append_counted cap com seq rev cur l r : cap < 2 ^ 32 -> counted cap com seq rev cur r ->
  TDH_SOCKET_HEADER_LENGTH + count cur + count l <= cap ->
  exists b, append l r = Some (Response (packet r) b) /\
    counted cap com seq rev (cur ++ l) (add_length (count l) (Response (packet r) b)).
Proof.
  intros Hcap (Hf & Hc & Hs & Hr & Hl) Hle. destruct (append_filled cap cur l r Hf Hle) as (b & -> & Hf1).
  exists b. split; [done|]. split; [exact Hf1|]. unfold add_length.
  cbn [packet set_length command_id_or_response_code seq_id reserved length].
  assert (0 <= count cur /\ 0 <= count l) by (unfold count; lia). unfold TDH_SOCKET_HEADER_LENGTH in *.
  rewrite Hl, wrapu_small by lia. by rewrite count_app.
Qed.

Section create_lemmas.
Context {S : Type} `{EasyPool.PoolOps S}.
Variables (pool_addr : Z) (fill : nat -> Z).

(** A buffer of [size] bytes, empty but for the hole. *)
Lemma create_buf_filled (s : S) size b s' p : TDH_SOCKET_HEADER_LENGTH <= size ->
  create_buf pool_addr fill s size = (Some b, s') -> filled size [] (Response p (Some b)).
Proof.
  intros Hs. unfold create_buf, EasyBuf.easy_buf_create. unfold TDH_SOCKET_HEADER_LENGTH in *.
  destruct (EasyPool.p_alloc s EasyBuf.sizeof_easy_buf_t) as [[a|] s1]; [|done].
  destruct (Z.eqb_spec size 0); [lia|]. destruct (EasyPool.p_alloc s1 size) as [[pos|] s2]; [|done].
  rewrite lookup_insert_eq. replace (pos + size - pos) with size by lia. intros [= <- <-].
  set (m := map fill (seq 0 (Z.to_nat size))).
  assert (count m = size) as Hm by (unfold m, count; rewrite length_map, length_seq; lia).
  exists (take 20 m), (drop 20 m). cbn [buf app]. rewrite take_drop. unfold count in *.
  rewrite length_take, length_drop. cbn [List.length]. unfold TDH_SOCKET_HEADER_LENGTH. split_and!; [do 2 f_equal; lia|lia..].
Qed.

End create_lemmas.

(** ** Streams *)
Section stream_lemmas.
Variables (cap : Z) (seq rev : Z).
Hypothesis (cap_ok : TDH_SOCKET_HEADER_LENGTH + 4 <= cap < 2 ^ 32) (seq_ok : word seq) (rev_ok : word rev).

(** A packet of the stream: it continues, and fills the buffer at most. *)
Definition stream_frame (f : frame) : Prop :=
  f = packet_frame CLIENT_STATUS_ACCEPT seq rev (f_body f) /\ 0 < count (f_body f) <= cap - TDH_SOCKET_HEADER_LENGTH.

(** [fs] were sent, [cur] is in the buffer. *)
Definition streaming (fs : list frame) (cur : list Z) (st : stream) : Prop :=
  counted cap CLIENT_STATUS_OK seq rev cur (resp st) /\ sent st = map frame_bytes fs /\ Forall stream_frame fs.

Lemma streaming_fits fs cur st : streaming fs cur st -> 0 <= count cur <= cap - TDH_SOCKET_HEADER_LENGTH.
Proof. intros (((hole & rest & _ & Hh & Hc) & _) & _). unfold TDH_SOCKET_HEADER_LENGTH, count in *. lia. Qed.

Lemma streaming_room fs cur st : streaming fs cur st ->
  room st = Some (cap - TDH_SOCKET_HEADER_LENGTH - count cur).
Proof.
  intros Hst. pose proof (streaming_fits _ _ _ Hst) as Hfit. destruct Hst as (((hole & rest & Hb & Hh & Hc) & _) & _).
  unfold room. rewrite Hb. cbn [mbind option_bind mem b_last]. rewrite !count_app. unfold TDH_SOCKET_HEADER_LENGTH in *.
  rewrite wrapu_small by lia. f_equal. lia.
Qed.

(** Writing and counting bytes that fit. *)
Lemma put_streaming fs cur l st : streaming fs cur st ->
  TDH_SOCKET_HEADER_LENGTH + count cur + count l <= cap ->
  exists st1 st2, on_resp (append l) st = Some st1 /\ on_resp (fun r => Some (add_length (count l) r)) st1 = Some st2 /\
    streaming fs (cur ++ l) st2.
Proof.
  intros (Hc & Hsent & Hfs) Hle. unfold on_resp.
  destruct (append_counted cap _ _ _ cur l (resp st) ltac:(lia) Hc Hle) as (b & -> & Hc1).
  do 2 eexists. split; [done|]. split; [done|]. split; [exact Hc1|done].
Qed.

Section closed.
Variable closed : nat -> bool.

(** The buffer is sent as one packet, and is empty again. *)
Lemma send_streaming fs cur st : streaming fs cur st -> 0 < count cur ->
  let fs' := fs ++ [packet_frame CLIENT_STATUS_ACCEPT seq rev cur] in
  Forall stream_frame fs' /\ exists st', sent st' = map frame_bytes fs' /\
  send_stream closed st = Some (if closed (List.length fs) then EASY_ERROR else EASY_OK, st') /\
  (closed (List.length fs) = false -> streaming fs' [] st').
Proof.
  intros Hst Hpos. pose proof (streaming_fits _ _ _ Hst) as Hfit. destruct Hst as (Hc & Hsent & Hfs).
  cbv zeta. set (f := packet_frame CLIENT_STATUS_ACCEPT seq rev cur).
  assert (Forall stream_frame (fs ++ [f])) as Hfs'.
  { apply list.Forall_app. split; [done|]. constructor; [|done]. split; [done|]. cbn [f f_body packet_frame]. lia. }
  split; [exact Hfs'|]. unfold send_stream. destruct Hc as ((hole & rest & Hb & Hh & Hc) & Hcom & Hs & Hr & Hl). rewrite Hb.
  cbn [mbind option_bind]. set (b := WBuf (hole ++ cur ++ rest) 0 _). set (p := set_code _ _).
  destruct (counted_encode cap CLIENT_STATUS_ACCEPT seq rev cur (Response p (Some b))) as (q & -> & E); [|done..|].
  { split; [by exists hole, rest|done]. }
  cbn [mbind option_bind]. rewrite E. cbn [mbind option_bind]. fold f. rewrite Hsent, length_map, map_app.
  change (map frame_bytes [f]) with [frame_bytes f].
  destruct (closed (List.length fs)); (eexists; split; [|split; [done|]]; [done|]); [done|]. intros _.
  split; [split; [|done]|split; [by rewrite map_app|done]]. exists hole, (cur ++ rest). cbn [resp buf mem b app].
  unfold count in *. cbn [List.length]. rewrite length_app. split_and!; [done|done|]. lia.
Qed.

(** All of [D] was sent or is in the buffer; or the connection was closed, and a
    part of [D] was sent. *)
Definition delivered (D : list Z) (st : stream) : Prop :=
  exists fs cur, streaming fs cur st /\ concat (map f_body fs) ++ cur = D.
Definition broken (D : list Z) (st : stream) : Prop :=
  exists fs f, sent st = map frame_bytes (fs ++ [f]) /\ Forall stream_frame (fs ++ [f]) /\
    closed (List.length fs) = true /\ concat (map f_body (fs ++ [f])) `prefix_of` D.
Definition outcome (err : Z) (D : list Z) (x : Z * stream) : Prop :=
  fst x = EASY_OK /\ delivered D (snd x) \/ fst x = err /\ broken D (snd x).

Lemma broken_more D D' st : broken D st -> D `prefix_of` D' -> broken D' st.
Proof. intros (fs & f & H1 & H2 & H3 & H4) HD. exists fs, f. split_and!; try done. by etrans. Qed.

(** The buffer is sent, in the middle of delivering [D ++ D']. *)
Lemma send_delivered fs cur st D' : streaming fs cur st -> 0 < count cur ->
  exists rc st', send_stream closed st = Some (rc, st') /\
  (rc = EASY_OK /\ streaming (fs ++ [packet_frame CLIENT_STATUS_ACCEPT seq rev cur]) [] st' \/
   rc = EASY_ERROR /\ broken (concat (map f_body fs) ++ cur ++ D') st').
Proof.
  intros Hst Hpos. destruct (send_streaming fs cur st Hst Hpos) as (Hfs & st' & Hsent & -> & Hk).
  do 2 eexists. split; [done|]. destruct (closed (List.length fs)) eqn:E; [|by left; auto]. right. split; [done|].
  exists fs, (packet_frame CLIENT_STATUS_ACCEPT seq rev cur). split_and!; try done.
  rewrite map_app, concat_app. cbn [map concat f_body packet_frame]. rewrite app_nil_r. rewrite (app_assoc _ cur D'). by eexists.
Qed.

Lemma sent_body fs cur : concat (map f_body (fs ++ [packet_frame CLIENT_STATUS_ACCEPT seq rev cur])) = concat (map f_body fs) ++ cur.
Proof. rewrite map_app, concat_app. cbn [map concat f_body packet_frame]. by rewrite app_nil_r. Qed.

(** What the body of a round of the loop writes: as much as fits. *)
Lemma write_round data rp fs cur st : count data < 2 ^ 32 -> 0 <= rp < count data -> streaming fs cur st ->
  let n := Z.min (cap - TDH_SOCKET_HEADER_LENGTH - count cur) (count data - rp) in
  let l := take (Z.to_nat n) (drop (Z.to_nat rp) data) in
  exists st', streaming fs (cur ++ l) st' /\ count l = n /\ 0 <= n /\
  forall fuel, write_loop closed (Datatypes.S fuel) (count data) data rp st =
    if rp + n <? count data then
      s ← send_stream closed st';
      let '(rc, st) := s in
      if negb (rc =? EASY_OK) then Some (EASY_ERROR, st) else write_loop closed fuel (count data) data (rp + n) st
    else Some (EASY_OK, st').
Proof.
  intros Hd Hrp Hst n l. pose proof (streaming_fits _ _ _ Hst) as Hfit. pose proof (streaming_room _ _ _ Hst) as Hrm.
  assert (0 <= n) as Hn by lia. assert (count l = n) as Hl.
  { unfold l, count in *. rewrite length_take, length_drop. lia. }
  destruct (put_streaming fs cur l st Hst) as (st1 & st2 & E1 & E2 & Hst2); [unfold TDH_SOCKET_HEADER_LENGTH in *; lia|].
  destruct (Z.ltb_spec 0 n) as [H0|H0].
  - exists st2. split_and!; try done. intros fuel. cbn [write_loop]. rewrite Hrm. cbn [mbind option_bind].
    rewrite (wrapu_small 32 (count data - rp)) by lia. fold n. destruct (Z.ltb_spec 0 n); [|lia].
    unfold gets. destruct (Nat.leb_spec (Z.to_nat rp + Z.to_nat n) (List.length data)); [|unfold count in *; lia].
    fold l. cbn [mbind option_bind]. rewrite E1. cbn [mbind option_bind]. rewrite Hl in E2. rewrite E2.
    cbn [mbind option_bind]. by rewrite wrapu_small by lia.
  - exists st. assert (l = []) as Hnil by (destruct l; [done|unfold count in *; cbn [List.length] in *; lia]).
    rewrite Hnil, app_nil_r. split_and!; try done; [by rewrite <- Hnil|]. intros fuel. cbn [write_loop]. rewrite Hrm.
    cbn [mbind option_bind]. rewrite (wrapu_small 32 (count data - rp)) by lia. fold n. destruct (Z.ltb_spec 0 n); [lia|].
    cbn [mbind option_bind]. replace (rp + n) with rp by lia. done.
Qed.

Lemma write_loop_ok data : count data < 2 ^ 32 -> forall fuel rp fs cur st, 0 <= rp < count data -> streaming fs cur st ->
  (Z.to_nat (count data - rp) + (if Z.eqb (count cur) (cap - TDH_SOCKET_HEADER_LENGTH) then 1 else 0) <= fuel)%nat ->
  exists x, write_loop closed fuel (count data) data rp st = Some x /\
    outcome EASY_ERROR (concat (map f_body fs) ++ cur ++ drop (Z.to_nat rp) data) x.
Proof.
  intros Hd. induction fuel as [|fuel IH]; intros rp fs cur st Hrp Hst Hfuel; [lia|].
  destruct (write_round data rp fs cur st Hd Hrp Hst) as (st1 & Hst1 & Hl & Hn & ->).
  set (n := Z.min _ _) in *. set (l := take (Z.to_nat n) _) in *. pose proof (streaming_fits _ _ _ Hst) as Hfit.
  assert (drop (Z.to_nat rp) data = l ++ drop (Z.to_nat (rp + n)) data) as Hdrop.
  { rewrite Z2Nat.inj_add, <- drop_drop by lia. symmetry. apply take_drop. }
  destruct (Z.ltb_spec (rp + n) (count data)) as [Hmore|Hend].
  - destruct (send_delivered fs (cur ++ l) st1 (drop (Z.to_nat (rp + n)) data) Hst1) as (rc & st2 & -> & Hcase).
    { rewrite count_app. unfold TDH_SOCKET_HEADER_LENGTH in *. lia. }
    cbn [mbind option_bind]. destruct Hcase as [[-> Hst2]|[-> Hbr]]; cbn [Z.eqb negb].
    + destruct (IH (rp + n) (fs ++ [packet_frame CLIENT_STATUS_ACCEPT seq rev (cur ++ l)]) [] st2) as (x & -> & Hx); [lia|exact Hst2| |].
      { change (count []) with 0. destruct (Z.eqb_spec 0 (cap - TDH_SOCKET_HEADER_LENGTH));
          [unfold TDH_SOCKET_HEADER_LENGTH in *; lia|]. destruct (Z.eqb_spec (count cur) (cap - TDH_SOCKET_HEADER_LENGTH)); lia. }
      exists x. split; [done|]. rewrite sent_body in Hx. rewrite Hdrop. by rewrite <- !app_assoc in Hx.
    + eexists. split; [done|]. right. split; [done|]. rewrite Hdrop. by rewrite <- app_assoc in Hbr.
  - eexists. split; [done|]. left. split; [done|]. exists fs, (cur ++ l). split; [done|].
    rewrite Hdrop, (drop_ge data) by (unfold count in *; lia). by rewrite app_nil_r.
Qed.

(** A value is delivered with its length in front. *)
Lemma write_data_ok data D st : count data < 2 ^ 32 -> delivered D st ->
  exists x, write_data_to_response closed (count data) data st = Some x /\ outcome EASY_ERROR (D ++ enc_str data) x.
Proof.
  intros Hd (fs & cur & Hst & HD). unfold write_data_to_response. rewrite (streaming_room _ _ _ Hst). cbn [mbind option_bind].
  pose proof (streaming_fits _ _ _ Hst) as Hfit.
  assert (exists rc st1, (if cap - TDH_SOCKET_HEADER_LENGTH - count cur <? 4 then send_stream closed st else Some (EASY_OK, st)) = Some (rc, st1) /\
    (rc = EASY_ERROR /\ broken (D ++ enc_str data) st1 \/ rc = EASY_OK /\ exists fs cur, streaming fs cur st1 /\
       concat (map f_body fs) ++ cur = D /\ TDH_SOCKET_HEADER_LENGTH + count cur + 4 <= cap)) as (rc & st1 & -> & Hcase).
  { unfold TDH_SOCKET_HEADER_LENGTH in *. destruct (Z.ltb_spec (cap - 20 - count cur) 4) as [Hs|Hs].
    - destruct (send_delivered fs cur st (enc_str data) Hst) as (rc & st' & -> & [[-> Hst2]|[-> Hbr]]); [lia| |];
        do 2 eexists; (split; [done|]).
      + right. split; [done|]. do 2 eexists. split; [exact Hst2|]. rewrite sent_body, app_nil_r. split; [done|]. change (count []) with 0. lia.
      + left. split; [done|]. by rewrite <- HD, <- app_assoc.
    - do 2 eexists. split; [done|]. right. split; [done|]. exists fs, cur. split_and!; try done. lia. }
  clear fs cur Hst HD Hfit. cbn [mbind option_bind].
  destruct Hcase as [[-> Hbr]|(-> & fs & cur & Hst & HD & Hfit)]; cbn [Z.eqb negb].
  { eexists. split; [done|]. by right. }
  destruct (put_streaming fs cur (htonl_bytes (count data)) st1 Hst Hfit) as (st2 & st3 & -> & E & Hst3). cbn [mbind option_bind].
  rewrite count_htonl in E. rewrite E. cbn [mbind option_bind]. unfold enc_str. fold (count data).
  destruct (Z.ltb_spec 0 (count data)) as [H0|H0].
  - destruct (write_loop_ok data Hd (Datatypes.S (Datatypes.S (Z.to_nat (count data)))) 0 fs (cur ++ htonl_bytes (count data)) st3) as (x & -> & Hx);
      [lia|exact Hst3|case_match; lia|]. exists x. split; [done|]. rewrite <- HD.
    change (Z.to_nat 0) with O in Hx. rewrite drop_0, <- !app_assoc in Hx. by rewrite <- app_assoc.
  - eexists. split; [done|]. left. split; [done|]. exists fs, (cur ++ htonl_bytes (count data)). split; [done|].
    destruct data as [|]; [|unfold count in H0; cbn [List.length] in H0; lia]. rewrite app_nil_r. by rewrite <- HD, app_assoc.
Qed.

(** A field as it is sent: an empty value as one zero byte. *)
Definition wire (field : option (list Z)) : list Z := match field with None => [] | Some [] => [0] | Some l => l end.
Definition enc_field (field : option (list Z)) : list Z := enc_str (wire field).
Definition enc_row (row : list (option (list Z))) : list Z := concat (map enc_field row).
Definition field_ok (field : option (list Z)) : Prop := forall l, field = Some l -> count l < 2 ^ 32.

Lemma response_record_ok row : Forall field_ok row -> forall D st, delivered D st ->
  exists x, response_record closed row st = Some x /\ outcome EASY_ASYNC (D ++ enc_row row) x.
Proof.
  induction 1 as [|field row Hf _ IH]; intros D st HD.
  { eexists. split; [done|]. left. cbn. by rewrite app_nil_r. }
  assert (exists x, match field with
    | None => write_data_to_response closed 0 [] st
    | Some rwpstr => if negb (count rwpstr =? 0) then write_data_to_response closed (u32 (count rwpstr)) rwpstr st
                     else write_data_to_response closed 1 [0] st
    end = Some x /\ outcome EASY_ERROR (D ++ enc_field field) x) as ([rc st1] & E & Hx).
  { destruct field as [[|c l]|].
    - by apply (write_data_ok [0] D st).
    - specialize (Hf _ eq_refl). assert (0 < count (c :: l)) by (unfold count; cbn [List.length]; lia).
      destruct (Z.eqb_spec (count (c :: l)) 0); [lia|]. cbn [negb]. rewrite wrapu_small by lia. by apply write_data_ok.
    - by apply (write_data_ok [] D st). }
  cbn [response_record]. rewrite E. cbn [mbind option_bind]. unfold enc_row. cbn [map concat]. fold (enc_row row).
  rewrite app_assoc. destruct Hx as [[Hrc Hd]|[Hrc Hbr]]; cbn [fst snd] in *; subst rc; cbn [Z.eqb negb].
  - by apply IH.
  - eexists. split; [done|]. right. split; [done|]. eapply broken_more; [done|]. by eexists.
Qed.

Lemma response_records_ok rows : Forall (Forall field_ok) rows -> forall D st, delivered D st ->
  exists x, response_records closed rows st = Some x /\ outcome EASY_ASYNC (D ++ concat (map enc_row rows)) x.
Proof.
  induction 1 as [|row rows Hr _ IH]; intros D st HD.
  { eexists. split; [done|]. left. cbn. by rewrite app_nil_r. }
  destruct (response_record_ok row Hr D st HD) as ([rc st1] & E & Hx). cbn [response_records]. rewrite E.
  cbn [mbind option_bind map concat]. rewrite app_assoc.
  destruct Hx as [[Hrc Hd]|[Hrc Hbr]]; cbn [fst snd] in *; subst rc; cbn [Z.eqb negb].
  - by apply IH.
  - eexists. split; [done|]. right. split; [done|]. eapply broken_more; [done|]. by eexists.
Qed.

(** Once everything is delivered, encoding the last packet completes it. *)
Lemma delivered_sealed D st : delivered D st -> exists fs f q, sealed (resp st) = Some q /\ tdhs_encode [q] = Some [frame_bytes f] /\
  sent st = map frame_bytes fs /\ Forall stream_frame fs /\ f = packet_frame CLIENT_STATUS_OK seq rev (f_body f) /\
  count (f_body f) <= cap - TDH_SOCKET_HEADER_LENGTH /\ concat (map f_body (fs ++ [f])) = D.
Proof.
  intros (fs & cur & Hst & HD). pose proof (streaming_fits _ _ _ Hst) as Hfit.
  destruct Hst as (Hc & Hsent & Hfs).
  destruct (counted_encode cap CLIENT_STATUS_OK seq rev cur (resp st) Hc ltac:(done) seq_ok rev_ok) as (q & Hq & He).
  exists fs, (packet_frame CLIENT_STATUS_OK seq rev cur), q. split_and!; try done.
  - cbn [f_body packet_frame]. lia.
  - rewrite map_app, concat_app. cbn [map concat f_body packet_frame]. by rewrite app_nil_r.
Qed.
End closed.
End stream_lemmas.

(** ** Reading a result set back *)

(** The value a length-prefixed field stands for. *)
Definition field_of (l : list Z) : option (list Z) :=
  match l with [] => None | [0] => Some [] | l => Some l end.

Fixpoint read_fields (n : nat) (l : list Z) : option (list (option (list Z)) * list Z) :=
  match n with
  | O => Some ([], l)
  | Datatypes.S n =>
      len ← load32 l 0;
      v ← gets l 4 (Z.to_nat len);
      r ← read_fields n (drop (4 + Z.to_nat len) l);
      Some (field_of v :: fst r, snd r)
  end.

(** The one-byte value zero is sent like the empty one. *)
Definition unambiguous (field : option (list Z)) : Prop := field <> Some [0].

Lemma field_of_wire field : unambiguous field -> field_of (wire field) = field.
Proof.
  intros Hu. destruct field as [[|c [|d l]]|]; try done.
  - cbn. destruct c; [by destruct Hu|done..].
  - cbn. by destruct c.
Qed.

Lemma read_field n v tl : count v < 2 ^ 32 ->
  read_fields (Datatypes.S n) (enc_str v ++ tl) = r ← read_fields n tl; Some (field_of v :: fst r, snd r).
Proof.
  intros Hv. unfold enc_str. fold (count v). rewrite <- app_assoc. cbn [read_fields].
  assert (load32 (htonl_bytes (count v) ++ v ++ tl) 0 = Some (count v)) as ->.
  { apply load32_placed; [|unfold word, count in *; lia]. split; [done|]. by apply prefix_app_r. }
  cbn [mbind option_bind]. replace (Z.to_nat (count v)) with (List.length v) by (unfold count; lia).
  change 4%nat with (List.length (htonl_bytes (count v))). rewrite gets_spec. cbn [mbind option_bind].
  by rewrite app_assoc, <- length_app, drop_app_length.
Qed.

Lemma read_fields_enc fields rest : Forall field_ok fields -> Forall unambiguous fields ->
  read_fields (List.length fields) (concat (map enc_field fields) ++ rest) = Some (fields, rest).
Proof.
  induction fields as [|field fields IH]; intros Hok Hu; [done|].
  apply list.Forall_cons in Hok as [Hok1 Hok]. apply list.Forall_cons in Hu as [Hu1 Hu].
  cbn [List.length map concat]. rewrite <- app_assoc. unfold enc_field at 1. rewrite read_field.
  - rewrite IH by done. cbn. by rewrite field_of_wire.
  - destruct field as [[|]|]; [done|by apply Hok1|done].
Qed.

Lemma enc_rows rows : concat (map enc_row rows) = concat (map enc_field (concat rows)).
Proof. induction rows as [|row rows IH]; [done|]. cbn [map concat]. by rewrite map_app, concat_app, IH. Qed.

Lemma Forall_concat {A} (P : A -> Prop) (ls : list (list A)) : Forall (Forall P) ls -> Forall P (concat ls).
Proof. induction 1; cbn [concat]; [done|]. by apply list.Forall_app. Qed.

(** ** A result set *)
Section result_set.
Context {S : Type} `{EasyPool.PoolOps S}.
Variables (pool_addr : Z) (fill : nat -> Z).

Definition data_cap (tdhs_write_buff_size : Z) (types : list Z) : Z :=
  TDH_SOCKET_HEADER_LENGTH + Z.max (4 + count types) tdhs_write_buff_size.

Lemma write_data_header_ok size (s : S) r types :
  TDH_SOCKET_HEADER_LENGTH + 4 + count types < 2 ^ 32 -> TDH_SOCKET_HEADER_LENGTH + size < 2 ^ 32 ->
  command_id_or_response_code (packet r) = CLIENT_STATUS_OK -> length (packet r) = 0 ->
  exists rc r' s', write_data_header_to_response pool_addr fill size s r (count types) types = Some (rc, r', s') /\
    (rc = EASY_ERROR /\ r' = r \/
     rc = EASY_OK /\ forall b n, streaming (data_cap size types) (seq_id (packet r)) (reserved (packet r)) []
       (htonl_bytes (count types) ++ types) (Stream r' [] b n)).
Proof.
  intros Ht Hsz Hcode Hlen. unfold write_data_header_to_response, data_cap. unfold TDH_SOCKET_HEADER_LENGTH in *.
  assert (0 <= count types) by (unfold count; lia). rewrite (wrapu_small 32 (4 + count types)) by lia.
  set (alloc := if _ <? _ then _ else _). assert (alloc = Z.max (4 + count types) size) as Ha.
  { unfold alloc. destruct (Z.ltb_spec size (4 + count types)); lia. }
  rewrite Ha, wrapu_small by lia. set (c := Z.max _ _ + 20).
  destruct (create_buf pool_addr fill s c) as [[b|] s1] eqn:E.
  2: { do 3 eexists. split; [done|]. by left. }
  pose proof (create_buf_filled pool_addr fill s c b s1 (packet r) ltac:(unfold TDH_SOCKET_HEADER_LENGTH; lia) E) as Hf.
  destruct (append_filled c [] (htonl_bytes (count types)) _ Hf) as (b1 & -> & Hf1).
  { rewrite count_htonl. unfold TDH_SOCKET_HEADER_LENGTH. change (count []) with 0. lia. }
  cbn [mbind option_bind packet] in *. unfold gets. replace (Z.to_nat (count types)) with (List.length types) by (unfold count; lia).
  destruct (Nat.leb_spec (0 + List.length types) (List.length types)); [|lia]. rewrite drop_0, firstn_all. cbn [mbind option_bind].
  destruct (append_each_filled c types _ _ Hf1) as (b2 & -> & Hf2).
  { cbn [app]. rewrite count_htonl. unfold TDH_SOCKET_HEADER_LENGTH. lia. }
  cbn [mbind option_bind packet] in *. do 3 eexists. split; [done|]. right. split; [done|]. intros bb n.
  cbn [app] in Hf2. split; [split|done].
  - cbn [resp]. rewrite (Z.add_comm 20). exact Hf2.
  - cbn [resp add_length packet set_length command_id_or_response_code seq_id reserved length].
    rewrite Hlen, wrapu_small, count_app, count_htonl by lia. done.
Qed.

(** The response to a query that has been sent completely: packets that say that
    the stream continues, then one that says OK, none larger than the buffer,
    each with the length of its body, together [D]. *)
Definition complete (cap seq rev : Z) (D : list Z) (st : stream) : Prop :=
  exists fs f q, sealed (resp st) = Some q /\ tdhs_encode [q] = Some [frame_bytes f] /\ sent st = map frame_bytes fs /\
    Forall (stream_frame cap seq rev) fs /\ f = packet_frame CLIENT_STATUS_OK seq rev (f_body f) /\
    count (f_body f) <= cap - TDH_SOCKET_HEADER_LENGTH /\ concat (map f_body (fs ++ [f])) = D.

(** C11 (roundtrip).  A result set of any size is streamed through one buffer:
    unless the memory for it is refused, the header and the records are written
    without leaving the buffer, for any number of packets, and the loop ends.
    If the connection stays open the packets sent, put together, are the
    number of columns, their types and the fields in order, from which a reader
    gets the records back, provided none is the one-byte value zero, which is sent
    like the empty value; if it is found closed the request stops at once, and
    what was sent is a part of the response. *)
Theorem stream_response size (s : S) r types rows closed :
  TDH_SOCKET_HEADER_LENGTH + 4 + count types < 2 ^ 32 -> TDH_SOCKET_HEADER_LENGTH + size < 2 ^ 32 ->
  command_id_or_response_code (packet r) = CLIENT_STATUS_OK -> length (packet r) = 0 ->
  word (seq_id (packet r)) -> word (reserved (packet r)) -> Forall (Forall field_ok) rows ->
  exists rc r' s', write_data_header_to_response pool_addr fill size s r (count types) types = Some (rc, r', s') /\
  (rc = EASY_ERROR /\ r' = r \/
   rc = EASY_OK /\ exists rc st, response_records closed rows (Stream r' [] false 0) = Some (rc, st) /\
   let D := htonl_bytes (count types) ++ types ++ concat (map enc_row rows) in
   let cap := data_cap size types in
   (rc = EASY_OK /\ complete cap (seq_id (packet r)) (reserved (packet r)) D st \/
    rc = EASY_ASYNC /\ broken cap (seq_id (packet r)) (reserved (packet r)) closed D st)) /\
  (Forall (Forall unambiguous) rows ->
   read_fields (List.length (concat rows)) (concat (map enc_row rows)) = Some (concat rows, [])).
Proof.
  intros Ht Hsz Hcode Hlen Hseq Hrev Hrows.
  destruct (write_data_header_ok size s r types Ht Hsz Hcode Hlen) as (rc & r' & s' & -> & Hcase).
  do 3 eexists. split; [done|]. split.
  - destruct Hcase as [[-> ->]|[-> Hst]]; [by left|]. right. split; [done|].
    set (cap := data_cap size types) in *. assert (TDH_SOCKET_HEADER_LENGTH + 4 <= cap < 2 ^ 32) as Hcap.
    { unfold cap, data_cap, TDH_SOCKET_HEADER_LENGTH, count in *. lia. }
    destruct (response_records_ok cap _ _ Hcap Hseq Hrev closed rows Hrows (htonl_bytes (count types) ++ types) (Stream r' [] false 0))
      as ([rc st] & -> & Hx); [by exists [], (htonl_bytes (count types) ++ types)|].
    do 2 eexists. split; [done|]. rewrite <- app_assoc in Hx. destruct Hx as [[Hrc Hd]|[Hrc Hbr]]; cbn [fst snd] in *; [left|by right].
    split; [done|]. by eapply delivered_sealed.
  - intros Hu. rewrite enc_rows, <- (app_nil_r (concat (map enc_field (concat rows)))). apply read_fields_enc; by apply Forall_concat.
Qed.

(** ** Numbers *)

Lemma append_overflow cap cur l r : filled cap cur r -> cap < TDH_SOCKET_HEADER_LENGTH + count cur + count l -> append l r = None.
Proof.
  intros (hole & rest & Hb & Hh & Hc) Hl. unfold append. rewrite Hb. cbn [mbind option_bind b_last mem]. case_match; [done|].
  unfold puts. unfold TDH_SOCKET_HEADER_LENGTH, count in *. rewrite !length_app. case_match eqn:E; [|done].
  apply Nat.leb_le in E. lia.
Qed.

Lemma write_number_ok cap com seq rev vcap cur text r : cap < 2 ^ 32 -> counted cap com seq rev cur r ->
  (List.length text < vcap)%nat -> TDH_SOCKET_HEADER_LENGTH + count cur + 4 + count text <= cap ->
  exists r', write_number vcap text r = Some r' /\ counted cap com seq rev (cur ++ enc_str text) r'.
Proof.
  intros Hcap Hc Hv Hle. unfold write_number. assert (0 <= count text) by (unfold count; lia).
  destruct (append_counted cap com seq rev cur (htonl_bytes (count text)) r Hcap Hc) as (b & -> & Hc1); [rewrite count_htonl; lia|].
  cbn [mbind option_bind]. rewrite count_htonl in Hc1.
  assert (gets (EasyBuf.vsnprintf vcap text) 0 (Z.to_nat (count text)) = Some text) as ->.
  { unfold EasyBuf.vsnprintf. rewrite take_ge by lia. unfold count. rewrite Nat2Z.id. apply (gets_spec [] text [0]). }
  cbn [mbind option_bind]. destruct (append_counted cap com seq rev _ text _ Hcap Hc1) as (b' & -> & Hc2); [rewrite count_app, count_htonl; lia|].
  cbn [mbind option_bind]. eexists. split; [done|]. unfold enc_str. fold (count text). by rewrite (app_assoc cur).
Qed.

Lemma write_number_overflow cap vcap cur text r : filled cap cur r ->
  TDH_SOCKET_HEADER_LENGTH + count cur + 4 <= cap < TDH_SOCKET_HEADER_LENGTH + count cur + 4 + count text ->
  write_number vcap text r = None.
Proof.
  intros Hf Hc. unfold write_number.
  destruct (append_filled cap cur (htonl_bytes (count text)) r Hf) as (b & -> & Hf1); [rewrite count_htonl; lia|].
  cbn [mbind option_bind]. destruct (gets _ _ _) as [l|] eqn:E; [|done]. cbn [mbind option_bind].
  rewrite (append_overflow cap (cur ++ htonl_bytes (count text))); [done|done|].
  unfold gets in E. case_match eqn:E1; [|done]. injection E as <-. rewrite drop_0, count_app, count_htonl.
  apply Nat.leb_le in E1. unfold count in *. rewrite length_take. lia.
Qed.

Definition update_cap (field_size num : Z) : Z := TDH_SOCKET_HEADER_LENGTH + 4 + num + (4 + field_size) * num.

(** The body starts with the number of columns and their types. *)
Definition columns (type num : Z) : list Z := htonl_bytes num ++ replicate (Z.to_nat num) type.

Lemma write_update_header_ok (s : S) r type field_size num : 0 <= num -> 0 <= field_size -> update_cap field_size num < 2 ^ 32 ->
  command_id_or_response_code (packet r) = CLIENT_STATUS_OK -> length (packet r) = 0 ->
  exists rc r' s', write_update_header_to_response pool_addr fill s r type field_size num = Some (rc, r', s') /\
    (rc = EASY_ERROR /\ r' = r \/
     rc = EASY_OK /\ counted (update_cap field_size num) CLIENT_STATUS_OK (seq_id (packet r)) (reserved (packet r)) (columns type num) r').
Proof.
  intros Hn Hfs Hcap Hcode Hlen. unfold write_update_header_to_response. unfold update_cap, TDH_SOCKET_HEADER_LENGTH in *.
  assert (0 <= (4 + field_size) * num) by nia. rewrite (wrapu_small 32 (4 + num)) by lia.
  rewrite !wrapu_small by (rewrite ?wrapu_small by lia; lia).
  replace (4 + num + (4 + field_size) * num + 20) with (20 + 4 + num + (4 + field_size) * num) by lia.
  set (c := 20 + 4 + num + (4 + field_size) * num) in *.
  destruct (create_buf pool_addr fill s c) as [[b|] s1] eqn:E.
  2: { do 3 eexists. split; [done|]. by left. }
  pose proof (create_buf_filled pool_addr fill s c b s1 (packet r) ltac:(unfold TDH_SOCKET_HEADER_LENGTH; lia) E) as Hf.
  destruct (append_filled c [] (htonl_bytes num) _ Hf) as (b1 & -> & Hf1).
  { rewrite count_htonl. unfold TDH_SOCKET_HEADER_LENGTH. change (count []) with 0. lia. }
  cbn [mbind option_bind packet] in *. destruct (append_each_filled c (replicate (Z.to_nat num) type) _ _ Hf1) as (b2 & -> & Hf2).
  { cbn [app]. rewrite count_htonl. unfold TDH_SOCKET_HEADER_LENGTH, count. rewrite length_replicate. lia. }
  cbn [mbind option_bind packet] in *. do 3 eexists. split; [done|]. right. split; [done|].
  split; [exact Hf2|]. cbn [add_length packet set_length length command_id_or_response_code seq_id reserved]. rewrite Hlen, wrapu_small by lia. unfold columns.
  rewrite count_app, count_htonl. unfold count. rewrite length_replicate. split_and!; try done. lia.
Qed.

Lemma sdec_udec n : 0 <= n < 2 ^ 31 -> sdec (i32 n) = udec n.
Proof. intros Hn. unfold sdec. rewrite wraps_small by lia. destruct (Z.ltb_spec n 0); [lia|done]. Qed.

Lemma udec_count n k : 0 <= n < 2 ^ 64 -> n < 10 ^ k -> 1 <= k -> 0 <= count (udec n) <= k.
Proof. intros. split; [unfold count; lia|by apply udec_length]. Qed.

(** The response is one packet with the given body. *)
Definition answers (r0 : response) (D : list Z) (r : response) : Prop :=
  exists q, sealed r = Some q /\
    tdhs_encode [q] = Some [frame_bytes (packet_frame CLIENT_STATUS_OK (seq_id (packet r0)) (reserved (packet r0)) D)].

(** A response with one or two numbers: unless memory is refused, it is built in
    its buffer when each text fits the columns. *)
Lemma numbers_ok (s : S) r field_size num vcap texts : 0 <= field_size -> update_cap field_size num < 2 ^ 32 ->
  command_id_or_response_code (packet r) = CLIENT_STATUS_OK -> length (packet r) = 0 ->
  word (seq_id (packet r)) -> word (reserved (packet r)) ->
  num = count texts -> Forall (fun t => count t <= field_size /\ count t < Z.of_nat vcap) texts ->
  exists rc r' s', write_update_header_to_response pool_addr fill s r MYSQL_TYPE_LONG field_size num = Some (rc, r', s') /\
    (rc = EASY_ERROR \/ rc = EASY_OK /\ exists r2,
       foldr (fun t k r => r ← write_number vcap t r; k r) Some texts r' = Some r2 /\
       answers r (columns MYSQL_TYPE_LONG num ++ concat (map enc_str texts)) r2).
Proof.
  intros Hfs Hcap Hcode Hlen Ws Wr Hn Ht.
  destruct (write_update_header_ok s r MYSQL_TYPE_LONG field_size num ltac:(unfold count in Hn; lia) Hfs Hcap Hcode Hlen)
    as (rc & r' & s' & -> & [[-> _]|[-> Hc]]); do 3 eexists; (split; [done|]); [by left|]. right. split; [done|].
  assert (TDH_SOCKET_HEADER_LENGTH + count (columns MYSQL_TYPE_LONG num) + (4 + field_size) * count texts <= update_cap field_size num) as Hroom.
  { unfold update_cap, columns. rewrite count_app, count_htonl. unfold count. rewrite length_replicate. unfold count in Hn. lia. }
  revert Hc Hroom. generalize (update_cap field_size num) Hcap (columns MYSQL_TYPE_LONG num) r'. clear r' Hn Hcap.
  intros cap Hcap. induction Ht as [|t ts [Ht Hv] _ IH]; intros cur r' Hc Hroom.
  - exists r'. split; [done|]. destruct (counted_encode _ _ _ _ _ _ Hc) as (q & Hq & He); [done..|].
    cbn. rewrite app_nil_r. by exists q.
  - change (t :: ts) with ([t] ++ ts) in Hroom. rewrite count_app in Hroom. change (count [t]) with 1 in Hroom.
    assert (0 <= count ts) by (unfold count; lia).
    destruct (write_number_ok cap _ _ _ vcap cur t r' Hcap Hc) as (r2 & E & Hc2); [unfold count in *; lia|nia|].
    cbn [foldr]. rewrite E. cbn [mbind option_bind map concat]. rewrite app_assoc. apply IH; [done|].
    unfold enc_str. fold (count t). rewrite !count_app, count_htonl. nia.
Qed.

(** The answers to updates, deletions, counts and insertions: unless
    the memory is refused, each is written inside the buffer made for it, and is
    one packet with the numbers in decimal, for row numbers below 2^31 and any
    insertion id.  A count from 2^31 to 2^32 - 10^9, printed with a sign, is
    written beyond the end of its buffer. *)
Theorem number_responses (s : S) r :
  command_id_or_response_code (packet r) = CLIENT_STATUS_OK -> length (packet r) = 0 ->
  word (seq_id (packet r)) -> word (reserved (packet r)) ->
  (forall u c, 0 <= u < 2 ^ 31 -> 0 <= c < 2 ^ 31 -> exists rc r' s', create_response_for_update pool_addr fill s r = Some (rc, r', s') /\
     (rc = EASY_ERROR \/ rc = EASY_OK /\ exists r2, write_update_ender_to_response u c r' = Some r2 /\
        answers r (columns MYSQL_TYPE_LONG 2 ++ enc_str (udec u) ++ enc_str (udec c)) r2)) /\
  (forall n, 0 <= n < 2 ^ 31 -> exists rc r' s', create_response_for_count pool_addr fill s r = Some (rc, r', s') /\
     (rc = EASY_ERROR \/ rc = EASY_OK /\ exists r2, write_count_ender_to_response n r' = Some r2 /\
        answers r (columns MYSQL_TYPE_LONG 1 ++ enc_str (udec n)) r2)) /\
  (forall key, 0 <= key < 2 ^ 64 -> exists rc r' s', create_response_for_insert pool_addr fill s r = Some (rc, r', s') /\
     (rc = EASY_ERROR \/ rc = EASY_OK /\ exists r2, write_insert_ender_to_response key r' = Some r2 /\
        answers r (columns MYSQL_TYPE_LONG 1 ++ enc_str (udec key)) r2)) /\
  (forall n r' s', 2 ^ 31 <= n <= 2 ^ 32 - 10 ^ 9 -> create_response_for_count pool_addr fill s r = Some (EASY_OK, r', s') ->
     write_count_ender_to_response n r' = None).
Proof.
  intros Hcode Hlen Ws Wr. split_and!.
  - intros u c Hu Hc.
    destruct (numbers_ok s r 10 2 11 [udec u; udec c]) as (rc & r' & s' & E & [->|(-> & r2 & Ef & Ha)]); try done.
    { pose proof (udec_count u 10). pose proof (udec_count c 10). repeat constructor; lia. }
    + do 3 eexists. split; [exact E|by left].
    + do 3 eexists. split; [exact E|]. right. split; [done|]. exists r2. unfold write_update_ender_to_response.
      rewrite !sdec_udec by done. cbn [foldr] in Ef. split; [|by cbn in Ha; rewrite app_nil_r in Ha].
      destruct (write_number 11 (udec u) r') as [x|]; [|done]. cbn [mbind option_bind] in *.
      by destruct (write_number 11 (udec c) x).
  - intros n Hn. destruct (numbers_ok s r 10 1 11 [udec n]) as (rc & r' & s' & E & [->|(-> & r2 & Ef & Ha)]); try done.
    { pose proof (udec_count n 20 ltac:(lia) ltac:(lia) ltac:(lia)). pose proof (udec_count n 10). repeat constructor; lia. }
    + do 3 eexists. split; [exact E|by left].
    + do 3 eexists. split; [exact E|]. right. split; [done|]. exists r2. unfold write_count_ender_to_response.
      rewrite sdec_udec by done. cbn [foldr] in Ef. split; [by destruct (write_number 11 (udec n) r')|].
      by cbn in Ha; rewrite app_nil_r in Ha.
  - intros n Hn. destruct (numbers_ok s r 48 1 48 [udec n]) as (rc & r' & s' & E & [->|(-> & r2 & Ef & Ha)]); try done.
    { pose proof (udec_count n 20 ltac:(lia) ltac:(lia) ltac:(lia)). pose proof (udec_count n 10). repeat constructor; lia. }
    + do 3 eexists. split; [exact E|by left].
    + do 3 eexists. split; [exact E|]. right. split; [done|]. exists r2. unfold write_insert_ender_to_response.
      cbn [foldr] in Ef. split; [by destruct (write_number 48 (udec n) r')|]. by cbn in Ha; rewrite app_nil_r in Ha.
  - intros n r' s' Hn E. unfold create_response_for_count in E.
    destruct (write_update_header_ok s r MYSQL_TYPE_LONG 10 1 ltac:(lia) ltac:(lia) ltac:(done) Hcode Hlen)
      as (rc & r1 & s1 & E1 & [[-> _]|[-> [Hf _]]]); rewrite E1 in E; [done|]. injection E as <- <-.
    apply (write_number_overflow _ _ _ _ _ Hf). split; [done|].
    assert (sdec (i32 n) = 45 :: udec (2 ^ 32 - n)) as ->.
    { unfold sdec, wraps. change (2 ^ (32 - 1)) with (2 ^ 31). rewrite (Z.mod_eq (n + 2 ^ 31)) by lia.
      replace ((n + 2 ^ 31) / 2 ^ 32) with 1 by (apply Z.div_unique with (n - 2 ^ 31); lia).
      destruct (Z.ltb_spec (n + 2 ^ 31 - 2 ^ 32 * 1 - 2 ^ 31) 0); [|lia]. do 2 f_equal. lia. }
    pose proof (udec_length_lower (2 ^ 32 - n) 9 ltac:(lia) ltac:(lia) ltac:(lia)).
    change (count (columns MYSQL_TYPE_LONG 1)) with 5. unfold update_cap, TDH_SOCKET_HEADER_LENGTH, count. cbn [List.length]. lia.
Qed.

End result_set.

(** ** Witnesses *)

Definition demo_response : response := Response (Packet CLIENT_STATUS_OK 7 0 0 0 None zero_request 0 None) None.
Definition demo_rows : list (list (option (list Z))) := [[Some [65; 66; 67; 68; 69; 70; 71; 72; 73]; None]; [Some []; Some [1; 2; 3]]].
Definition demo_types : list Z := [3; 254].

(** With room for eight bytes the response takes more than four packets, these sent
    on the way. *)
Example stream_demo :
  (x ← write_data_header_to_response 0 (fun _ => 170) 8 EasyPool.demo_pool demo_response (count demo_types) demo_types;
   y ← response_records (fun _ => false) demo_rows (Stream (snd (fst x)) [] false 0);
   Some (fst (fst x), fst y, map (drop 16) (sent (snd y)))) =
  Some (EASY_OK, EASY_OK,
    [[0; 0; 0; 6; 0; 0; 0; 2; 3; 254]; [0; 0; 0; 8; 0; 0; 0; 9; 65; 66; 67; 68];
     [0; 0; 0; 5; 69; 70; 71; 72; 73]; [0; 0; 0; 8; 0; 0; 0; 0; 0; 0; 0; 1]]).
Proof. vm_compute. reflexivity. Qed.

Lemma stream_response_witness : exists r' s' st,
  write_data_header_to_response 0 (fun _ => 170) 8 EasyPool.demo_pool demo_response (count demo_types) demo_types = Some (EASY_OK, r', s') /\
  response_records (fun _ => false) demo_rows (Stream r' [] false 0) = Some (EASY_OK, st) /\
  complete 28 7 0 (htonl_bytes 2 ++ demo_types ++ concat (map enc_row demo_rows)) st.
Proof.
  destruct (stream_response 0 (fun _ => 170) 8 EasyPool.demo_pool demo_response demo_types demo_rows (fun _ => false))
    as (rc & r' & s' & E & Hcase & _); try done.
  { repeat constructor; intros l [= <-]; done. }
  destruct Hcase as [[-> _]|(-> & rc2 & st & E2 & Hcase)].
  { vm_compute in E. discriminate E. }
  destruct Hcase as [[-> Hc]|[_ (fs & f & _ & _ & Hcl & _)]]; [|discriminate Hcl].
  exists r', s', st. split; [exact E|]. split; [exact E2|exact Hc].
Defined.

Lemma number_responses_witness : exists r' s' r2,
  create_response_for_count 0 (fun _ => 170) EasyPool.demo_pool demo_response = Some (EASY_OK, r', s') /\
  write_count_ender_to_response 42 r' = Some r2 /\
  answers demo_response [0; 0; 0; 1; 3; 0; 0; 0; 2; 52; 50] r2.
Proof.
  destruct (number_responses 0 (fun _ => 170) EasyPool.demo_pool demo_response) as (_ & Hn & _); try done.
  destruct (Hn 42) as (rc & r' & s' & E & [->|(-> & r2 & E2 & Ha)]); [lia| |].
  { vm_compute in E. discriminate E. }
  exists r', s', r2. split; [exact E|]. split; [exact E2|exact Ha].
Defined.
End TdhsResponse.
