(* ===== verification/TdhsTable.v ===== *)
(** * TDHSocket/tdh_socket_dbutil.hpp: resolving names and filtering records

    The names of a request are looked up in the description of a MySQL table, and
    the conditions of a filter are evaluated on the current record.  The strings
    of a request include their terminating zero byte; [None] is a read or write
    outside an array. *)

From Stdlib Require Import Ascii.
From Stdlib Require Import ZArith Lia.
From stdpp Require Import base list numbers option.
From S2P Require Import Prelude CString TdhsDefine TdhsRead TdhsDecode TdhsFormat.

Local Open Scope Z_scope.

Module TdhsTable.
Import TdhsDefine TdhsRead TdhsDecode TdhsFormat.

(** ** Table descriptions *)

Record column := Column { col_name : list Z; col_type : Z; col_blob : bool }.
(** An index: its name and the names of its parts. *)
Record index_info := IndexInfo { index_name : list Z; key_part : list (list Z) }.
Record table_desc := TableDesc { columns : list column; indexes : list index_info }.

(** [tolower] of the C locale, and equality up to it: [strcasecmp(a, b) == 0]. *)
Definition tolower (c : Z) : Z := if (65 <=? c) && (c <=? 90) then c + 32 else c.
Definition same_name (a b : list Z) : bool := bool_decide (map tolower a = map tolower b).

(** The loop over [table->field]: the first column with the name. *)
Fixpoint find_column (name : list Z) (cols : list column) (j : nat) : option (nat * column) :=
  match cols with
  | [] => None
  | c :: cols => if same_name name (col_name c) then Some (j, c) else find_column name cols (S j)
  end.

(** The column of a string of the request; an empty one matches nothing.  The
    outer [None] is a string without terminator. *)
Definition lookup_column (s : list Z) (t : table_desc) : option (option (nat * column)) :=
  if 0 <? count s then name ← cstr s; Some (find_column name (columns t) 0) else Some None.

(** ** Fields *)

(** [field_idx] and [field_type] of [tdhs_table_t], as far as they are filled. *)
Fixpoint parse_field_loop (fields : list (list Z)) (t : table_desc) (acc : list (nat * Z)) : option (Z * list (nat * Z)) :=
  match fields with
  | [] => Some (EASY_OK, acc)
  | s :: fields =>
      if (REQUEST_MAX_FIELD_NUM <=? length acc)%nat then None
      else
        r ← lookup_column s t;
        match r with
        | None => Some (EASY_ERROR, acc)
        | Some (j, c) => parse_field_loop fields t (acc ++ [(j, Z.land (col_type c) 0xFF)])
        end
  end.
Definition parse_field (t : table_desc) (request_table : table_v) : option (Z * list (nat * Z)) :=
  parse_field_loop (t_fields request_table) t [].

(** ** Filters *)

Fixpoint parse_filter_loop (fs : list filter_v) (t : table_desc) (acc : list nat) : option (Z * list nat) :=
  match fs with
  | [] => Some (EASY_OK, acc)
  | f :: fs =>
      if (REQUEST_MAX_FIELD_NUM <=? length acc)%nat then None
      else
        r ← lookup_column (f_field f) t;
        match r with
        | None => Some (EASY_ERROR, acc)
        | Some (j, c) => if col_blob c then Some (EASY_ERROR, acc) else parse_filter_loop fs t (acc ++ [j])
        end
  end.
Definition parse_filter (t : table_desc) (filter : list filter_v) : option (Z * list nat) :=
  parse_filter_loop filter t [].

(** What MySQL's [Field] does: the size of the image of a column, the image of
    a text stored into it, and the comparison of a value with an image. *)
Class Fields (V : Type) := {
  pack_length : nat -> Z;
  store_image : nat -> list Z -> list Z;
  field_cmp : nat -> V -> list Z -> Z }.
Class FieldsLaws (V : Type) `{Fields V} : Prop := {
  image_length : forall j s, count (store_image j s) = pack_length j }.

Section filters.
Context {V : Type} `{Fields V}.

(** The text of a string: [str] and [strlen()]. *)
Definition text (s : list Z) : list Z := take (length s - 1) s.

Fixpoint calc_filter_buf_loop (fs : list filter_v) (field_idx : list nat) (filter_buf_len : Z) : option Z :=
  match fs with
  | [] => Some filter_buf_len
  | f :: fs =>
      j ← head field_idx;
      calc_filter_buf_loop fs (tail field_idx)
        (if count (f_value f) =? 0 then filter_buf_len else u64 (filter_buf_len + pack_length j))
  end.
Definition calc_filter_buf_size (fs : list filter_v) (field_idx : list nat) : option Z :=
  n ← calc_filter_buf_loop fs field_idx 0; Some (u64 (n + 1)).

Fixpoint fill_filter_loop (fs : list filter_v) (field_idx : list nat) (filter_buf : list Z) (pos : Z) : option (list Z) :=
  match fs with
  | [] => Some filter_buf
  | f :: fs =>
      j ← head field_idx;
      if count (f_value f) =? 0 then fill_filter_loop fs (tail field_idx) filter_buf pos
      else
        b ← puts filter_buf (Z.to_nat pos) (take (Z.to_nat (pack_length j)) (store_image j (text (f_value f))));
        fill_filter_loop fs (tail field_idx) b (pos + pack_length j)
  end.
Definition fill_filter_buf (fs : list filter_v) (field_idx : list nat) (filter_buf : list Z) : option (list Z) :=
  fill_filter_loop fs field_idx filter_buf 0.

Definition filter_cond (flag cv : Z) : bool :=
  if flag =? 0 then cv =? 0
  else if flag =? 1 then 0 <=? cv
  else if flag =? 2 then cv <=? 0
  else if flag =? 3 then 0 <? cv
  else if flag =? 4 then cv <? 0
  else if flag =? 5 then negb (cv =? 0)
  else true.

(** The current record: a value or NULL for each column. *)
Fixpoint filter_loop (row : list (option V)) (fs : list filter_v) (field_idx : list nat) (filter_buf : list Z) (pos : Z) : option bool :=
  match fs with
  | [] => Some true
  | f :: fs =>
      j ← head field_idx;
      field ← row !! j;
      cv ← match field with
           | None => Some (if count (f_value f) =? 0 then 0 else -1)
           | Some v => if count (f_value f) =? 0 then Some 1
                       else bval ← gets filter_buf (Z.to_nat pos) (Z.to_nat (pack_length j)); Some (field_cmp j v bval)
           end;
      if negb (filter_cond (f_flag f) cv) then Some false
      else filter_loop row fs (tail field_idx) filter_buf (if negb (count (f_value f) =? 0) then pos + pack_length j else pos)
  end.
Definition filter_record (row : list (option V)) (fs : list filter_v) (field_idx : list nat) (filter_buf : list Z) : option bool :=
  filter_loop row fs field_idx filter_buf 0.

(** ** The meaning of a filter *)

(** NULL is below every value, and equal to the NULL of a condition. *)
Definition compare (row : list (option V)) (j : nat) (value : list Z) : Z :=
  match row !! j with
  | Some (Some v) => if count value =? 0 then 1 else field_cmp j v (store_image j (text value))
  | _ => if count value =? 0 then 0 else -1
  end.
Definition passes (row : list (option V)) (fs : list filter_v) (field_idx : list nat) : bool :=
  forallb (fun '(f, j) => filter_cond (f_flag f) (compare row j (f_value f))) (zip fs field_idx).
End filters.

(** ** Indexes *)

Fixpoint atoi_loop (l : list Z) (acc : Z) : Z :=
  match l with
  | c :: l => if is_number c then atoi_loop l (acc * 10 + (c - 48)) else acc
  | [] => acc
  end.
(** [atoi] of digits, converted to [size_t]; [strtol] saturates at [LONG_MAX]. *)
Definition atoi (l : list Z) : Z := u64 (i32 (Z.min (atoi_loop l 0) (2 ^ 63 - 1))).

(** The fields between the bars of [|a|b|]: [tmp] is the current one. *)
Fixpoint split_bars (l : list Z) (tmp : list Z) (acc : list (list Z)) : list (list Z) :=
  match l with
  | [] => acc
  | c :: l =>
      if (c =? chr "|") || (c =? 0) then
        let acc := if (0 <? length tmp)%nat then acc ++ [tmp] else acc in
        if (0 <? length tmp)%nat && (REQUEST_MAX_KEY_NUM <=? length acc)%nat then acc else split_bars l [] acc
      else split_bars l (tmp ++ [c]) acc
  end.

(** The parts of an index start with the given fields. *)
Fixpoint parts_match (fields parts : list (list Z)) : bool :=
  match fields, parts with
  | [], _ => true
  | f :: fields, p :: parts => (length p =? length f)%nat && same_name p f && parts_match fields parts
  | _ :: _, [] => false
  end.

Fixpoint find_index (P : index_info -> bool) (l : list index_info) (i : nat) : option nat :=
  match l with
  | [] => None
  | x :: l => if P x then Some i else find_index P l (S i)
  end.

(** [s] is the string of the index, its terminator included. *)
Definition tdhs_open_index (t : table_desc) (s : list Z) : option (Z * nat) :=
  c ← head s;
  idxnum ←
    (if is_number c then
      let index_num := atoi s in
      Some (if index_num <? count (indexes t) then Some (Z.to_nat index_num) else None)
    else if c =? chr "|" then
      let index_fields := split_bars s [] [] in
      Some (if (0 <? length index_fields)%nat then
              find_index (fun k => (length index_fields <=? length (key_part k))%nat && parts_match index_fields (key_part k)) (indexes t) 0
            else None)
    else name ← cstr s; Some (find_index (fun k => same_name (index_name k) name) (indexes t) 0));
  Some match idxnum with None => (EASY_ERROR, O) | Some i => (EASY_OK, i) end.

(** The number of parts of a key is compared with that of the index. *)
Definition CANNOT_MATCH_KEY_NUM : Z := 4.
Definition parse_index (k : index_info) (key_num : Z) : Z :=
  if count (key_part k) <? key_num then CANNOT_MATCH_KEY_NUM else EASY_OK.

(** ** Columns *)

(** The first column with a name. *)
Definition column_for (t : table_desc) (s : list Z) (j : nat) (c : column) : Prop :=
  exists name, cstr s = Some name /\ columns t !! j = Some c /\ same_name name (col_name c) = true /\
    forall i c', columns t !! i = Some c' -> (i < j)%nat -> same_name name (col_name c') = false.
Definition no_column (t : table_desc) (s : list Z) : Prop :=
  s = [] \/ exists name, cstr s = Some name /\ forall c, c ∈ columns t -> same_name name (col_name c) = false.

Lemma find_column_spec name cols : forall j0,
  match find_column name cols j0 with
  | Some (j, c) => (j0 <= j)%nat /\ cols !! (j - j0)%nat = Some c /\ same_name name (col_name c) = true /\
      forall i c', cols !! i = Some c' -> (i < j - j0)%nat -> same_name name (col_name c') = false
  | None => forall c, c ∈ cols -> same_name name (col_name c) = false
  end.
Proof.
  induction cols as [|c cols IH]; intros j0; cbn [find_column]; [by intros c Hc%elem_of_nil|].
  destruct (same_name name (col_name c)) eqn:E.
  - rewrite Nat.sub_diag. split_and!; [done|done|done|]. intros i c' _ Hi. lia.
  - specialize (IH (S j0)). destruct (find_column name cols (S j0)) as [[j c']|].
    + destruct IH as (Hj & Hl & Hs & Hf). replace (j - j0)%nat with (S (j - S j0)) by lia. split_and!; [lia|done|done|].
      intros [|i] c'' Hc Hi; [by injection Hc as <-|]. apply (Hf i); [done|lia].
    + intros c' [->|Hc]%elem_of_cons; [done|by apply IH].
Qed.

Lemma str_ok_cstr s : str_ok s -> s <> [] -> exists name, cstr s = Some name.
Proof.
  intros Hs Hne. destruct (exists_last Hne) as (l & x & ->).
  assert (x = 0) as -> by (eapply str_ok_last; [done|done|apply last_snoc]). clear.
  induction l as [|c l [name IH]]; [by exists []|]. cbn. destruct (c =? 0); [by exists []|]. rewrite IH. by exists (c :: name).
Qed.

Lemma lookup_column_spec s t : str_ok s -> exists r, lookup_column s t = Some r /\
  match r with Some (j, c) => column_for t s j c | None => no_column t s end.
Proof.
  intros Hs. unfold lookup_column. destruct s as [|x s]; [exists None; split; [done|by left]|].
  destruct (str_ok_cstr (x :: s) Hs) as [name En]; [done|]. unfold count at 1.
  destruct (Z.ltb_spec 0 (Z.of_nat (length (x :: s)))); [|cbn [length] in *; lia]. rewrite En. cbn [mbind option_bind].
  eexists. split; [done|]. pose proof (find_column_spec name (columns t) 0) as Hf.
  destruct (find_column name (columns t) 0) as [[j c]|].
  - rewrite Nat.sub_0_r in Hf. destruct Hf as (_ & H1 & H2 & H3). by exists name.
  - right. by exists name.
Qed.

Lemma parse_field_loop_ok t fs : forall acc, Forall str_ok fs -> (length acc + length fs <= REQUEST_MAX_FIELD_NUM)%nat ->
  exists rc idx, parse_field_loop fs t acc = Some (rc, idx) /\
  (rc = EASY_OK /\ (exists idx', idx = acc ++ idx' /\
     Forall2 (fun s x => exists c, column_for t s (fst x) c /\ snd x = Z.land (col_type c) 0xFF) fs idx') \/
   rc = EASY_ERROR /\ exists s, s ∈ fs /\ no_column t s).
Proof.
  induction fs as [|s fs IH]; intros acc Hfs Hl.
  { do 2 eexists. split; [done|]. left. split; [done|]. exists []. by rewrite app_nil_r. }
  apply list.Forall_cons in Hfs as [Hs1 Hfs]. cbn [length] in Hl. cbn [parse_field_loop].
  destruct (Nat.leb_spec REQUEST_MAX_FIELD_NUM (length acc)); [lia|].
  destruct (lookup_column_spec s t Hs1) as (r & -> & Hr). cbn [mbind option_bind]. destruct r as [[j c]|].
  - destruct (IH (acc ++ [(j, Z.land (col_type c) 0xFF)]) Hfs) as (rc & idx & -> & Hx); [rewrite length_app; cbn [length]; lia|].
    do 2 eexists. split; [done|]. destruct Hx as [(-> & idx' & -> & H2)|(-> & s' & Hin & Hno)].
    + left. split; [done|]. eexists. rewrite <- app_assoc. split; [done|]. constructor; [|exact H2]. by exists c.
    + right. split; [done|]. exists s'. split; [by right|done].
  - do 2 eexists. split; [done|]. right. split; [done|]. exists s. split; [by left|done].
Qed.

(** Resolving the fields of a request: with at most 256 of
    them, parse_field stays inside its arrays and gives each the first column
    of that name, ignoring case, with the low byte of its type, and fails exactly
    if one of them is not a column. *)
Theorem parse_field_spec t rt : all_ok (fun _ => str_ok) (t_fields rt) -> (length (t_fields rt) <= REQUEST_MAX_FIELD_NUM)%nat ->
  exists rc idx, parse_field t rt = Some (rc, idx) /\
  (rc = EASY_OK /\ Forall2 (fun s x => exists c, column_for t s (fst x) c /\ snd x = Z.land (col_type c) 0xFF) (t_fields rt) idx \/
   rc = EASY_ERROR /\ exists s, s ∈ t_fields rt /\ no_column t s).
Proof.
  unfold parse_field. intros [_ Hok] Hlen.
  assert (Forall str_ok (t_fields rt)) as Hs by (apply Forall_lookup_2; intros i x Hx; by apply (Hok i)).
  destruct (parse_field_loop_ok t (t_fields rt) [] Hs Hlen) as (rc & idx & -> & Hx). do 2 eexists. split; [done|].
  destruct Hx as [(-> & idx' & -> & H2)|Hx]; [by left|by right].
Qed.

(** ** The filter buffer *)
Section filter_lemmas.
Context {V : Type} `{FieldsLaws V}.

(** The images the buffer holds, for the conditions that have a value. *)
Fixpoint images (fs : list filter_v) (field_idx : list nat) : list Z :=
  match fs, field_idx with
  | f :: fs, j :: field_idx => (if count (f_value f) =? 0 then [] else store_image j (text (f_value f))) ++ images fs field_idx
  | _, _ => []
  end.

Lemma to_nat_count {A} (l : list A) : Z.to_nat (count l) = length l.
Proof. unfold count. lia. Qed.

Lemma calc_filter_loop_ok fs : forall idx n, length idx = length fs -> 0 <= n -> n + count (images fs idx) < 2 ^ 64 ->
  calc_filter_buf_loop fs idx n = Some (n + count (images fs idx)).
Proof.
  induction fs as [|f fs IH]; intros [|j idx] n Hl Hn Hlt; try done; [cbn; f_equal; unfold count; cbn; lia|].
  cbn [images] in *. rewrite count_app in *. injection Hl as Hl. cbn [calc_filter_buf_loop head mbind option_bind tail].
  assert (0 <= count (images fs idx)) by (unfold count; lia). destruct (count (f_value f) =? 0).
  - change (count []) with 0 in *. rewrite IH by (done || lia). done.
  - rewrite image_length in *. assert (0 <= pack_length j) by (rewrite <- (image_length j []); unfold count; lia).
    rewrite wrapu_small by lia. rewrite IH by (done || lia). f_equal. lia.
Qed.

Lemma fill_filter_loop_ok fs : forall idx pre hole post, length idx = length fs -> length hole = length (images fs idx) ->
  fill_filter_loop fs idx (pre ++ hole ++ post) (count pre) = Some (pre ++ images fs idx ++ post).
Proof.
  induction fs as [|f fs IH]; intros [|j idx] pre hole post Hl Hh; try done; [by destruct hole|].
  cbn [images] in *. injection Hl as Hl. cbn [fill_filter_loop head mbind option_bind tail].
  destruct (count (f_value f) =? 0); [by apply IH|].
  pose proof (image_length j (text (f_value f))) as Hi. set (im := store_image j (text (f_value f))) in *.
  rewrite length_app in Hh. destruct (split_at hole 0 (length im)) as (h1 & h2 & h3 & -> & E1 & E2); [lia|].
  destruct h1; [|done]. cbn [app] in *. rewrite length_app in Hh.
  rewrite take_ge by (rewrite <- Hi; unfold count; lia). rewrite to_nat_count, <- app_assoc, puts_spec by done.
  cbn [mbind option_bind]. rewrite (app_assoc pre im), <- Hi, <- count_app. rewrite IH by (done || lia). by rewrite <- !app_assoc.
Qed.

Lemma filter_loop_ok row fs : forall idx pre post, length idx = length fs -> Forall (fun j => (j < length row)%nat) idx ->
  filter_loop row fs idx (pre ++ images fs idx ++ post) (count pre) = Some (passes row fs idx).
Proof.
  induction fs as [|f fs IH]; intros [|j idx] pre post Hl Hrow; try done.
  cbn [images] in *. injection Hl as Hl. apply list.Forall_cons in Hrow as [Hj Hrow].
  destruct (lookup_lt_is_Some_2 row j Hj) as [field Ef]. cbn [filter_loop head mbind option_bind tail]. rewrite Ef.
  cbn [mbind option_bind]. unfold passes. cbn [zip zip_with forallb]. fold (passes row fs idx). unfold compare. rewrite Ef.
  set (im := if count (f_value f) =? 0 then [] else _).
  assert (pre ++ (im ++ images fs idx) ++ post = (pre ++ im) ++ images fs idx ++ post) as Ebuf by by rewrite <- !app_assoc.
  assert ((if negb (count (f_value f) =? 0) then count pre + pack_length j else count pre) = count (pre ++ im)) as ->.
  { rewrite count_app. unfold im. destruct (count (f_value f) =? 0); cbn [negb]; [unfold count; cbn; lia|by rewrite image_length]. }
  destruct field as [v|].
  - unfold im in *. destruct (count (f_value f) =? 0) eqn:Ev; cbn [mbind option_bind].
    + destruct (filter_cond (f_flag f) 1); [|done]. cbn [negb andb]. rewrite Ebuf. by apply IH.
    + rewrite <- (image_length j (text (f_value f))). rewrite !to_nat_count, <- app_assoc, gets_spec.
      cbn [mbind option_bind]. destruct (filter_cond _ _); [|done]. cbn [negb andb]. rewrite app_assoc. by apply IH.
  - destruct (count (f_value f) =? 0); cbn [mbind option_bind]; (destruct (filter_cond _ _); [|done]); cbn [negb andb]; rewrite Ebuf; by apply IH.
Qed.

Lemma parse_filter_loop_ok t fs : forall acc rc idx, parse_filter_loop fs t acc = Some (rc, idx) -> rc = EASY_OK ->
  exists idx', idx = acc ++ idx' /\ length idx' = length fs /\ Forall (fun j => (j < length (columns t))%nat) idx'.
Proof.
  induction fs as [|f fs IH]; intros acc rc idx E Hrc.
  { injection E as <- <-. exists []. by rewrite app_nil_r. }
  cbn [parse_filter_loop] in E. case_match; [done|]. unfold lookup_column in E. destruct (0 <? count (f_field f)); [|by injection E as <- _].
  destruct (cstr (f_field f)) as [name|]; [|done]. cbn [mbind option_bind] in E.
  pose proof (find_column_spec name (columns t) 0) as Hf. destruct (find_column name (columns t) 0) as [[j c]|]; [|by injection E as <- _].
  destruct (col_blob c); [by injection E as <- _|]. rewrite Nat.sub_0_r in Hf. destruct Hf as (_ & Hj & _).
  destruct (IH _ _ _ E Hrc) as (idx' & -> & Hl & Hall). exists (j :: idx'). rewrite <- app_assoc. split; [done|].
  split; [cbn [length]; lia|]. constructor; [by eapply lookup_lt_Some|done].
Qed.

Lemma filter_record_ok t fs idx : parse_filter t fs = Some (EASY_OK, idx) -> count (images fs idx) < 2 ^ 64 - 1 ->
  exists size, calc_filter_buf_size fs idx = Some size /\
  forall zeros, size <= count zeros -> exists buf, fill_filter_buf fs idx zeros = Some buf /\ length buf = length zeros /\
  forall row, length row = length (columns t) -> filter_record row fs idx buf = Some (passes row fs idx).
Proof.
  intros E Hsz. destruct (parse_filter_loop_ok t fs [] _ _ E eq_refl) as (idx' & -> & Hl & Hall). cbn [app] in *.
  assert (0 <= count (images fs idx')) by (unfold count; lia).
  exists (count (images fs idx') + 1). unfold calc_filter_buf_size. rewrite calc_filter_loop_ok by (done || lia).
  cbn [mbind option_bind]. rewrite wrapu_small by lia. split; [done|]. intros zeros Hz.
  destruct (split_at zeros 0 (length (images fs idx'))) as (h1 & hole & post & -> & E1 & E2); [unfold count in *; lia|].
  destruct h1; [|done]. exists (images fs idx' ++ post). split; [exact (fill_filter_loop_ok fs idx' [] hole post Hl E2)|].
  split; [cbn [app]; rewrite !length_app; lia|]. intros row Hrow. apply (filter_loop_ok row fs idx' [] post Hl). by rewrite Hrow.
Qed.

(** C30 (equivalence).  A filter whose fields were resolved is evaluated through a
    buffer of packed values: the buffer has the size computed for it, filling it
    stays inside, and on every record filter_record reads the value of each
    condition where it was written, so its answer is that of comparing the
    columns with the values directly. *)
Theorem filter_record_spec t fs idx : parse_filter t fs = Some (EASY_OK, idx) -> count (images fs idx) < 2 ^ 64 - 1 ->
  exists size, calc_filter_buf_size fs idx = Some size /\
  forall zeros, size <= count zeros -> exists buf, fill_filter_buf fs idx zeros = Some buf /\ length buf = length zeros /\
  forall row, length row = length (columns t) -> filter_record row fs idx buf = Some (passes row fs idx).
Proof. exact (filter_record_ok t fs idx). Qed.
End filter_lemmas.

(** ** Witnesses *)

(** Columns of unsigned 32-bit numbers. *)
#[export] Instance demo_fields : Fields Z := {
  pack_length _ := 4;
  store_image _ s := htonl_bytes (digits_val 0 s);
  field_cmp _ v im := v - be_val im }.
#[export] Instance demo_fields_laws : FieldsLaws Z.
Proof. by split. Qed.

Definition demo_table : table_desc :=
  TableDesc [Column [105; 100] 3 false; Column [78] 3 false] [IndexInfo [80] [[105; 100]]].
Definition demo_filters : list filter_v := [FilterV [110; 0] 3 [49; 50; 0]; FilterV [73; 68; 0] 5 []].

Lemma parse_field_spec_witness : exists idx, parse_field demo_table (TableV [] [] [] [[110; 0]; [73; 68; 0]]) = Some (EASY_OK, idx) /\
  Forall2 (fun s x => exists c, column_for demo_table s (fst x) c /\ snd x = Z.land (col_type c) 0xFF) [[110; 0]; [73; 68; 0]] idx.
Proof.
  destruct (parse_field_spec demo_table (TableV [] [] [] [[110; 0]; [73; 68; 0]])) as (rc & idx & E & Hx).
  - split; [done|]. intros [|[|i]] x Hx; [injection Hx as <-|injection Hx as <-|discriminate Hx].
    all: split; [unfold bytes_ok; repeat (constructor; [lia|]); constructor|].
    all: split; [cbn; lia|right]; first [by exists [110]|by exists [73; 68]].
  - unfold REQUEST_MAX_FIELD_NUM. cbn [t_fields length]. lia.
  - vm_compute in E. injection E as <- <-. destruct Hx as [[_ Hx]|[Hx _]]; [by eexists|discriminate Hx].
Defined.

Lemma filter_record_spec_witness : exists size buf, calc_filter_buf_size demo_filters [1%nat; 0%nat] = Some size /\
  fill_filter_buf demo_filters [1%nat; 0%nat] (replicate 512 0) = Some buf /\
  filter_record [Some 7; Some 13] demo_filters [1%nat; 0%nat] buf = Some true.
Proof.
  destruct (filter_record_spec demo_table demo_filters [1%nat; 0%nat]) as (size & E & H); [reflexivity|reflexivity|].
  assert (size = 5) as -> by (vm_compute in E; by injection E as <-).
  destruct (H (replicate 512 0)) as (buf & Eb & _ & Hr); [unfold count; rewrite length_replicate; lia|].
  exists 5, buf. split; [exact E|]. split; [exact Eb|]. exact (Hr [Some 7; Some 13] eq_refl).
Defined.
End TdhsTable.
