(* ===== verification/TdhsMonitor.v ===== *)
(** * TDHSocket/tdh_socket_monitor.cpp: the monitor thread

    A thread that looks at the counters of InnoDB every few seconds and chooses from
    the reads per second how requests are spread over the threads: the strategy, and
    how many of the threads for slow reads are used.  TdhsConnection reads both when
    it dispatches a request.

    A step is one turn of the loop, a second; what the thread finds in that second is
    its input, and the variables of the server, which can be set at any time, are
    arguments of the step. *)

From Stdlib Require Import Ascii String ZArith Lia.
From stdpp Require Import base list numbers option sets.
From S2P Require Import Prelude CString TdhsDefine TdhsTable TdhsConnection.

Local Open Scope Z_scope.

Module TdhsMonitor.
Import TdhsDefine TdhsTable.

(** ** Data *)

(** tdhs_monitor_interval, tdhs_thread_strategy_requests_lv_1 and _lv_2,
    tdhs_slow_read_thread_num *)
Record settings := Settings { monitor_interval : Z; requests_lv_1 : Z; requests_lv_2 : Z; slow_read_thread_num : Z }.

Record tdhs_innodb_status_t := Status { innodb_buffer_pool_read_requests : Z; innodb_buffer_pool_reads : Z }.
Definition is_done (s : tdhs_innodb_status_t) : bool := (0 <=? innodb_buffer_pool_read_requests s) && (0 <=? innodb_buffer_pool_reads s).
Definition reset_status : tdhs_innodb_status_t := Status (-1) (-1).

(** What the monitor shares with the I/O threads. *)
Record shared := Shared { thread_strategy : Z; active_slow_read_thread_num : Z; last_io_read_per_second : Z }.
Definition TDHS_THREAD_LV_1 : Z := 1.
Definition TDHS_THREAD_LV_2 : Z := 2.
Definition TDHS_THREAD_LV_3 : Z := 3.
Definition initially : shared := Shared TDHS_THREAD_LV_2 1 0.

(** ** check_innodb_status *)

(** [None]: a division by zero. *)
Definition choose (c : settings) (io_read_pre : Z) (g : shared) : option shared :=
  if io_read_pre <? requests_lv_1 c then Some (Shared TDHS_THREAD_LV_1 1 io_read_pre)
  else if (requests_lv_1 c <=? io_read_pre) && (io_read_pre <=? requests_lv_2 c) then
    if requests_lv_2 c <=? requests_lv_1 c then Some (Shared TDHS_THREAD_LV_2 (slow_read_thread_num c) io_read_pre)
    else
      let d := u32 (requests_lv_2 c - requests_lv_1 c) in
      if d =? 0 then None
      else
        let active := u32 (Z.quot (i64 (slow_read_thread_num c * i64 (io_read_pre - requests_lv_1 c))) d) in
        Some (Shared TDHS_THREAD_LV_2 (if 0 <? active then active else 1) io_read_pre)
  else if requests_lv_2 c <? io_read_pre then Some (Shared TDHS_THREAD_LV_3 (slow_read_thread_num c) io_read_pre)
  else Some (Shared (thread_strategy g) (active_slow_read_thread_num g) io_read_pre).

(** The result: what is shared, then the old and the new counters. *)
Definition check_innodb_status (c : settings) (old_status new_status : tdhs_innodb_status_t) (g : shared) : option (shared * tdhs_innodb_status_t * tdhs_innodb_status_t) :=
  g ← (if is_done old_status && is_done new_status then
         let all_read := i64 (innodb_buffer_pool_read_requests new_status - innodb_buffer_pool_read_requests old_status) in
         let io_read := i64 (innodb_buffer_pool_reads new_status - innodb_buffer_pool_reads old_status) in
         if negb (all_read =? 0) then
           if monitor_interval c =? 0 then None else choose c (Z.quot io_read (monitor_interval c)) g
         else Some g
       else Some g);
  Some (g, new_status, reset_status).

(** ** The table of counters *)

(** A record: the bytes that its name begins with in memory, and its value; [None] is
    a null field. *)
Record row := Row { status_name : option (list Z); status_value : option Z }.

(** [strncasecmp(a, b, n) == 0]; [None] is a read behind the memory of [b]. *)
Fixpoint strncasecmp (n : nat) (a b : list Z) : option bool :=
  match n with
  | O => Some true
  | S n =>
      let c := default 0 (head a) in
      d ← head b;
      if negb (tolower c =? tolower d) then Some false else if c =? 0 then Some true else strncasecmp n (tail a) (tail b)
  end.

Definition NAME_READ_REQUESTS : list Z := bytes_of "innodb_buffer_pool_read_requests" ++ [0].
Definition NAME_READS : list Z := bytes_of "innodb_buffer_pool_reads" ++ [0].

(** [n] is the sizeof of the name, with its terminator. *)
Definition get_value_from_field (name : list Z) (r : row) (value : Z) : option Z :=
  match status_name r with
  | None => Some value
  | Some ptr =>
      same ← strncasecmp (length name) name ptr;
      Some (if same : bool then match status_value r with Some v => i64 v | None => value end else value)
  end.

Definition HA_ERR_RECORD_DELETED : Z := 134.

(** The loop over the table: what rnd_next returns, and the record after it; the list
    ends where the table does. *)
Fixpoint read_status (rows : list (Z * row)) (s : tdhs_innodb_status_t) : option tdhs_innodb_status_t :=
  match rows with
  | [] => Some s
  | (r, x) :: rows =>
      if negb (r =? 0) && negb (r =? HA_ERR_RECORD_DELETED) then Some s
      else
        a ← get_value_from_field NAME_READ_REQUESTS x (innodb_buffer_pool_read_requests s);
        b ← get_value_from_field NAME_READS x (innodb_buffer_pool_reads s);
        let s := Status a b in
        if is_done s then Some s else read_status rows s
  end.

(** ** The loop *)

(** The table could not be opened, locked, or has no such fields; or its records. *)
Inductive status_table := NoTable | NoLock | NoFields | Rows (rows : list (Z * row)).

(** A second: whether the thread is cancelled or killed, the result of stopping the
    service when it is killed, and the table. *)
Record second := Second { is_canceled : bool; killed : bool; easy_io_stop : Z; table : status_table }.

Record monitor := Monitor {
  old_status : tdhs_innodb_status_t; new_status : tdhs_innodb_status_t; skip : Z; globals : shared;
  tdhs_cache_table_on : bool; shutdown : bool; running : bool }.
Definition start : monitor := Monitor reset_status reset_status 0 initially true false true.

Definition stop (m : monitor) : monitor := Monitor (old_status m) (new_status m) (skip m) (globals m) (tdhs_cache_table_on m) (shutdown m) false.
(** The service was told to stop by killing the thread. *)
Definition close (down : bool) (m : monitor) : monitor := Monitor (old_status m) (new_status m) (skip m) (globals m) false (shutdown m || down) (running m && negb down).
Definition set_skip (n : Z) (m : monitor) : monitor := Monitor (old_status m) (new_status m) n (globals m) (tdhs_cache_table_on m) (shutdown m) (running m).

Definition look (c : settings) (t : status_table) (m : monitor) : option monitor :=
  match t with
  | Rows rows =>
      new ← read_status rows (new_status m);
      r ← check_innodb_status c (old_status m) new (globals m);
      let '(g, old, new) := r in
      Some (Monitor old new (skip m) g (tdhs_cache_table_on m) (shutdown m) (running m))
  | _ => Some m
  end.

(** One turn of the loop of monitor_thd_thread. *)
Definition turn (c : settings) (e : second) (m : monitor) : option monitor :=
  if negb (running m) then Some m
  else if shutdown m || is_canceled e then Some (stop m)
  else
    let m := if killed e then close (easy_io_stop e =? 0) m else m in
    if negb (running m) then Some m
    else
      let m := set_skip (u32 (skip m + 1)) m in
      if skip m <? monitor_interval c then Some m else look c (table e) (set_skip 0 m).

Fixpoint run (es : list (settings * second)) (m : monitor) : option monitor :=
  match es with
  | [] => Some m
  | (c, e) :: es => m ← turn c e m; run es m
  end.

(** ** What the monitor guarantees *)

(** The bounds of the variables, as they are declared to the server; the number of
    threads, which is read when the server starts, is below 2^31. *)
Definition settings_ok (n : Z) (c : settings) : Prop :=
  1 <= monitor_interval c < 2 ^ 32 /\ 1 <= requests_lv_1 c < 2 ^ 32 /\ 1 <= requests_lv_2 c < 2 ^ 32 /\ slow_read_thread_num c = n.

(** The strategy and the number of threads for a rate of reads. *)
Definition plan (c : settings) (rate : Z) : Z * Z :=
  if rate <? requests_lv_1 c then (TDHS_THREAD_LV_1, 1)
  else if requests_lv_2 c <? rate then (TDHS_THREAD_LV_3, slow_read_thread_num c)
  else (TDHS_THREAD_LV_2,
        if requests_lv_2 c <=? requests_lv_1 c then slow_read_thread_num c
        else Z.max 1 (slow_read_thread_num c * (rate - requests_lv_1 c) / (requests_lv_2 c - requests_lv_1 c))).

Lemma share_bounds n a d : 0 < d -> 0 <= a <= d -> 0 <= n -> 0 <= n * a / d <= n.
Proof. intros Hd Ha Hn. split; [apply Z.div_pos; nia|]. apply Z.div_le_upper_bound; nia. Qed.

Lemma choose_plan n c rate g : settings_ok n c -> 1 <= n < 2 ^ 31 -> choose c rate g = Some (Shared (fst (plan c rate)) (snd (plan c rate)) rate).
Proof.
  intros (Hi & H1 & H2 & Hn) Hnb. unfold choose, plan. destruct (Z.ltb_spec rate (requests_lv_1 c)); [done|]. destruct (Z.leb_spec (requests_lv_1 c) rate); [|lia]. cbn [andb].
  destruct (Z.leb_spec rate (requests_lv_2 c)), (Z.ltb_spec (requests_lv_2 c) rate); try lia; [|done]. destruct (Z.leb_spec (requests_lv_2 c) (requests_lv_1 c)); [done|]. rewrite (wrapu_small 32) by lia.
  destruct (Z.eqb_spec (requests_lv_2 c - requests_lv_1 c) 0); [lia|]. rewrite Hn. set (d := requests_lv_2 c - requests_lv_1 c) in *. set (a := rate - requests_lv_1 c).
  assert (0 <= a <= d) as Ha by (unfold a, d; lia). pose proof (share_bounds n a d ltac:(lia) Ha ltac:(lia)) as Hs. rewrite (wraps_small 64 a) by lia. rewrite wraps_small by nia.
  rewrite Z.quot_div_nonneg by nia. rewrite wrapu_small by lia. cbn [fst snd]. destruct (Z.ltb_spec 0 (n * a / d)); f_equal; f_equal; lia.
Qed.

(** More reads never mean a lower strategy or fewer threads. *)
Lemma plan_mono n c r r' : settings_ok n c -> 1 <= n -> r <= r' -> fst (plan c r) <= fst (plan c r') /\ snd (plan c r) <= snd (plan c r') /\ 1 <= snd (plan c r) <= n.
Proof.
  intros (Hi & H1 & H2 & Hn) Hnb Hr. unfold plan. rewrite Hn. unfold TDHS_THREAD_LV_1, TDHS_THREAD_LV_2, TDHS_THREAD_LV_3.
  assert (requests_lv_1 c < requests_lv_2 c -> requests_lv_1 c <= r <= requests_lv_2 c -> 0 <= n * (r - requests_lv_1 c) / (requests_lv_2 c - requests_lv_1 c) <= n) as Hb by (intros; apply share_bounds; lia).
  assert (requests_lv_1 c < requests_lv_2 c -> n * (r - requests_lv_1 c) / (requests_lv_2 c - requests_lv_1 c) <= n * (r' - requests_lv_1 c) / (requests_lv_2 c - requests_lv_1 c)) as Hm by (intros; apply Z.div_le_mono; nia).
  destruct (Z.ltb_spec r (requests_lv_1 c)), (Z.ltb_spec r' (requests_lv_1 c)), (Z.ltb_spec (requests_lv_2 c) r), (Z.ltb_spec (requests_lv_2 c) r'), (Z.leb_spec (requests_lv_2 c) (requests_lv_1 c)); cbn [fst snd]; lia.
Qed.

Definition shared_ok (n : Z) (g : shared) : Prop := 1 <= thread_strategy g <= 3 /\ 1 <= active_slow_read_thread_num g <= n.

(** ** Runs *)

Lemma strncasecmp_some n a : forall b, 0 ∈ b -> is_Some (strncasecmp n a b).
Proof.
  revert a. induction n as [|n IH]; intros a b Hb; [by eexists|]. cbn [strncasecmp]. destruct b as [|d b]; [by apply elem_of_nil in Hb|]. cbn [head mbind option_bind tail].
  destruct (Z.eqb_spec (tolower (default 0 (head a))) (tolower d)) as [E|_]; cbn [negb]; [|by eexists]. destruct (Z.eqb_spec (default 0 (head a)) 0) as [|Hc]; [by eexists|]. apply IH.
  apply elem_of_cons in Hb as [<-|Hb]; [|done]. destruct Hc. unfold tolower in E. change ((65 <=? 0) && (0 <=? 90)) with false in E. cbv iota in E. destruct ((65 <=? default 0 (head a)) && (default 0 (head a) <=? 90)) eqn:El; [|done]. lia.
Qed.

(** The names in the table end. *)
Definition row_ok (x : Z * row) : Prop := match status_name (snd x) with Some ptr => 0 ∈ ptr | None => True end.
Definition table_ok (t : status_table) : Prop := match t with Rows rows => Forall row_ok rows | _ => True end.

Lemma get_value_some name r x value : row_ok (r, x) -> is_Some (get_value_from_field name x value).
Proof.
  unfold row_ok, get_value_from_field. cbn [snd]. destruct (status_name x) as [ptr|]; [|by eexists]. intros Hp. destruct (strncasecmp_some (length name) name ptr Hp) as [b ->]. by eexists.
Qed.

Lemma read_status_some rows : Forall row_ok rows -> forall s, is_Some (read_status rows s).
Proof.
  induction 1 as [|[r x] rows Hx _ IH]; intros s; [by eexists|]. cbn [read_status]. destruct (negb (r =? 0) && _); [by eexists|].
  destruct (get_value_some NAME_READ_REQUESTS r x (innodb_buffer_pool_read_requests s) Hx) as [a ->]. destruct (get_value_some NAME_READS r x (innodb_buffer_pool_reads s) Hx) as [b ->]. cbn [mbind option_bind].
  destruct (is_done _); [by eexists|apply IH].
Qed.

Lemma look_ok n c t m : settings_ok n c -> 1 <= n < 2 ^ 31 -> table_ok t -> shared_ok n (globals m) -> exists m', look c t m = Some m' /\ shared_ok n (globals m').
Proof.
  intros Hc Hn Ht Hg. destruct t as [| | |rows]; try by exists m. cbn [look]. destruct (read_status_some rows Ht (new_status m)) as [new ->]. cbn [mbind option_bind]. unfold check_innodb_status.
  assert (exists g, (if is_done (old_status m) && is_done new then
      if negb (i64 (innodb_buffer_pool_read_requests new - innodb_buffer_pool_read_requests (old_status m)) =? 0) then
        if monitor_interval c =? 0 then None else choose c (Z.quot (i64 (innodb_buffer_pool_reads new - innodb_buffer_pool_reads (old_status m))) (monitor_interval c)) (globals m)
      else Some (globals m) else Some (globals m)) = Some g /\ shared_ok n g) as (g & -> & Hg').
  { destruct (_ && _); [|by exists (globals m)]. destruct (negb _); [|by exists (globals m)]. destruct (Z.eqb_spec (monitor_interval c) 0) as [E|_]; [destruct Hc; lia|]. rewrite (choose_plan n) by done. eexists. split; [done|].
    destruct (plan_mono n c (Z.quot (i64 (innodb_buffer_pool_reads new - innodb_buffer_pool_reads (old_status m))) (monitor_interval c)) _ Hc ltac:(lia) (Z.le_refl _)) as (_ & _ & Hb). split; [|exact Hb]. cbn.
    unfold plan, TDHS_THREAD_LV_1, TDHS_THREAD_LV_2, TDHS_THREAD_LV_3. destruct (_ <? _); [cbn; lia|]. destruct (_ <? _); cbn; lia. }
  cbn [mbind option_bind]. by eexists.
Qed.

Lemma turn_ok n c e m : settings_ok n c -> 1 <= n < 2 ^ 31 -> table_ok (table e) -> shared_ok n (globals m) -> exists m', turn c e m = Some m' /\ shared_ok n (globals m').
Proof.
  intros Hc Hn Ht Hg. unfold turn. destruct (negb (running m)); [by exists m|]. destruct (shutdown m || is_canceled e); [by eexists|]. cbv zeta.
  assert (shared_ok n (globals (if killed e then close (easy_io_stop e =? 0) m else m))) as Hg1 by (by destruct (killed e)). set (m1 := if killed e then _ else _) in *. destruct (negb (running m1)); [by exists m1|].
  destruct (_ <? _); [by eexists|]. by apply look_ok.
Qed.

Lemma monitor_run_ok n es m : 1 <= n < 2 ^ 31 -> Forall (fun x => settings_ok n (fst x) /\ table_ok (table (snd x))) es -> shared_ok n (globals m) -> exists m', run es m = Some m' /\ shared_ok n (globals m').
Proof.
  intros Hn Hes. revert m. induction Hes as [|[c e] es [Hc Ht] _ IH]; intros m Hg; [by exists m|]. cbn [run fst snd] in *. destruct (turn_ok n c e m Hc Hn Ht Hg) as (m1 & -> & H1). cbn [mbind option_bind]. by apply IH.
Qed.

(** The thread for a slow read, by the number of threads in use. *)
Lemma slow_thread cf data q custom cnt h cnt' : TdhsConnection.is_read q = true -> 1 <= TdhsConnection.active_slow_read_thread_num cf ->
  TdhsConnection.table_need_balance cf data q TdhsConnection.TDHS_SLOW custom cnt = Some (h, cnt') -> 1 <= h <= TdhsConnection.active_slow_read_thread_num cf.
Proof.
  intros Hq Ha. unfold TdhsConnection.table_need_balance. rewrite Hq. destruct (TdhsConnection.hash_code_table data (table_info q)) as [hash|]; [|done]. cbn [mbind option_bind]. cbv zeta.
  rewrite (bool_decide_false (TdhsConnection.TDHS_SLOW = TdhsConnection.TDHS_QUICK)) by done. cbn [andb]. destruct (_ =? 0) eqn:E0; [done|]. clear E0. match goal with |- context [let '(_, _) := ?x in _] => destruct x as [hash' cnt1] end.
  rewrite (bool_decide_true (TdhsConnection.TDHS_SLOW = TdhsConnection.TDHS_SLOW)) by done. destruct (Z.eqb_spec (TdhsConnection.active_slow_read_thread_num cf) 0); [lia|].
  intros [= <- _]. pose proof (Z.mod_pos_bound hash' (TdhsConnection.active_slow_read_thread_num cf) ltac:(lia)). destruct (Z.eqb_spec (hash' mod TdhsConnection.active_slow_read_thread_num cf) 0); lia.
Qed.

(** Only reads are slow. *)
Lemma slow_is_read cf data q cnt o q' cnt' : TdhsConnection.optimize cf data q cnt = Some (o, q', cnt') -> o = TdhsConnection.TDHS_SLOW -> TdhsConnection.is_read q' = true.
Proof.
  unfold TdhsConnection.optimize. intros E ->. destruct (TdhsConnection.is_read q) eqn:Hq; [|done]. destruct (TdhsConnection.spread cf cnt) as [o1 cnt1]. destruct (TdhsConnection.thread_strategy cf =? 1); [done|].
  destruct (TdhsConnection.thread_strategy cf =? 3); [|by injection E as _ <- _]. destruct (TdhsConnection.filter cf) as [check|]; [|by injection E as _ <- _]. destruct (TdhsConnection.tdhs_optimize_on cf); [|by injection E as _ <- _].
  destruct (TdhsConnection.calc_hash_get data q) as [hash|]; [|done]. by injection E as _ <- _.
Qed.

(** Whether a thread has so many streams that are blocked that the next one is taken. *)
Definition blocked (cf : TdhsConnection.config) (i : Z) : bool :=
  match TdhsConnection.stream_count cf TdhsConnection.TDHS_SLOW i with Some k => TdhsConnection.MAX_STREAM_COUNT_FOR_IGNORE <? k | None => false end.

(** Where a slow read is queued. *)
Lemma slow_push {S} (s : S) cf data c cnt p rest rc thread st : 1 <= TdhsConnection.active_slow_read_thread_num cf <= TdhsConnection.thread_count cf TdhsConnection.TDHS_SLOW -> TdhsConnection.thread_count cf TdhsConnection.TDHS_SLOW < 2 ^ 31 ->
  TdhsConnection.dispatch cf data c cnt s p rest = Some (rc, TdhsConnection.Push TdhsConnection.TDHS_SLOW thread, st) ->
  exists h, 1 <= h <= TdhsConnection.active_slow_read_thread_num cf /\
    thread = (if blocked cf (h mod TdhsConnection.thread_count cf TdhsConnection.TDHS_SLOW) then h + 1 else h) mod TdhsConnection.thread_count cf TdhsConnection.TDHS_SLOW.
Proof.
  intros Ha Hn. unfold TdhsConnection.dispatch. destruct (TdhsConnection.optimize cf data _ cnt) as [[[o q] cnt1]|] eqn:Eo; [|done]. cbn [mbind option_bind]. cbv zeta.
  match goal with |- context [if ?b then Some (EASY_OK, TdhsConnection.Reply _ _, _) else _] => destruct b; [done|] end.
  unfold TdhsConnection.pushed, TdhsConnection.push_for_limited, TdhsConnection.throttled. destruct o; cbv iota.
  1,3: destruct (TdhsConnection.table_need_balance _ _ _ _ _ _) as [[h cnt2]|]; [|done]; cbn [mbind option_bind]; by destruct (_ && _).
  destruct ((TdhsConnection.thread_strategy cf =? 3) && _ && _); [done|]. destruct (TdhsConnection.table_need_balance _ _ _ _ _ _) as [[h cnt2]|] eqn:Eb; [|done]. cbn [mbind option_bind fst snd].
  apply slow_thread in Eb; [|by eapply slow_is_read|lia]. destruct (_ && _); [done|]. cbn [fst snd]. change (negb (EASY_OK =? EASY_OK)) with false. cbv iota. intros [= _ <- _]. exists h. split; [done|].
  unfold TdhsConnection.need_redispatch, TdhsConnection.or_connection, blocked. destruct (Z.eqb_spec h 0); [lia|]. destruct (TdhsConnection.stream_count cf _ _) as [k|]; [|by destruct (Z.eqb_spec h 0)].
  destruct (_ <? k); [|by destruct (Z.eqb_spec h 0)]. rewrite wrapu_small by lia. by destruct (Z.eqb_spec (h + 1) 0); [lia|].
Qed.

(** C8 (invariant).  However the variables are set within their bounds, and whatever
    the monitor finds in the table of counters, second for second (names end with a
    zero), it goes on without dividing by zero, the strategy is one of the three, and
    between one and all of the [n] threads for slow reads are in use.  An I/O thread
    that puts a slow read into a queue then chooses a number from one to that of the
    threads in use (the thread is that number modulo [n]), or, if the thread of that number has more than two streams, the
    next one, which may be a thread that is not in use; and more reads per second
    never mean a lower strategy or fewer threads. *)
Theorem monitor_keeps_threads n es : 1 <= n < 2 ^ 31 -> Forall (fun x => settings_ok n (fst x) /\ table_ok (table (snd x))) es ->
  exists m, run es start = Some m /\ shared_ok n (globals m) /\
  (forall S (s : S) cf data c cnt p rest rc thread st, TdhsConnection.thread_count cf TdhsConnection.TDHS_SLOW = n ->
     TdhsConnection.active_slow_read_thread_num cf = active_slow_read_thread_num (globals m) ->
     TdhsConnection.dispatch cf data c cnt s p rest = Some (rc, TdhsConnection.Push TdhsConnection.TDHS_SLOW thread, st) ->
     exists h, 1 <= h <= active_slow_read_thread_num (globals m) /\ thread = (if blocked cf (h mod n) then h + 1 else h) mod n) /\
  (forall c r r' g g', settings_ok n c -> r <= r' -> choose c r (globals m) = Some g -> choose c r' (globals m) = Some g' ->
     thread_strategy g <= thread_strategy g' /\ active_slow_read_thread_num g <= active_slow_read_thread_num g').
Proof.
  intros Hn Hes. destruct (monitor_run_ok n es start Hn Hes) as (m & E & [Hs Ha]); [split; cbn; unfold TDHS_THREAD_LV_2; lia|]. exists m. split; [done|]. split; [done|]. split.
  - intros S s cf data c cnt p rest rc thread st Ec Hcf Hb. rewrite <- Hcf, <- Ec. apply slow_push in Hb; [done| |]; lia.
  - intros c r r' g g' Hc Hr. rewrite !(choose_plan n) by done. intros [= <-] [= <-]. cbn [thread_strategy active_slow_read_thread_num]. destruct (plan_mono n c r r' Hc ltac:(lia) Hr) as (? & ? & _). done.
Qed.

(** ** Example *)

Definition demo_settings : settings := Settings 2 128 1024 28.
Definition demo_row (name : list Z) (v : Z) : Z * row := (0, Row (Some (name ++ [0])) (Some v)).
(** The counters of the server, under the names it gives them. *)
Definition demo_table (requests io : Z) : status_table :=
  Rows [demo_row (bytes_of "Innodb_buffer_pool_pages_free") 7; demo_row (bytes_of "Innodb_buffer_pool_read_requests") requests; demo_row (bytes_of "Innodb_buffer_pool_reads") io; demo_row (bytes_of "Uptime") 9].
Definition demo_second (t : status_table) : settings * second := (demo_settings, Second false false 0 t).
(** Six hundred reads a second, but then the table cannot be opened for one interval. *)
Definition demo_seconds : list (settings * second) :=
  map demo_second [NoTable; demo_table 1000 0; NoTable; demo_table 9000 1200; NoTable; NoTable; NoTable; demo_table 17000 3600].

Lemma demo_seconds_ok : Forall (fun x => settings_ok 28 (fst x) /\ table_ok (table (snd x))) demo_seconds.
Proof. repeat constructor; cbn; try done; unfold row_ok; cbn; set_solver. Qed.

Lemma monitor_keeps_threads_witness : exists m, run demo_seconds start = Some m /\ shared_ok 28 (globals m) /\ thread_strategy (globals m) = 3 /\ active_slow_read_thread_num (globals m) = 28 /\ last_io_read_per_second (globals m) = 1200.
Proof.
  destruct (monitor_keeps_threads 28 demo_seconds ltac:(lia) demo_seconds_ok) as (m & E & Hg & _). exists m. split; [exact E|]. split; [exact Hg|].
  assert (option_map (fun m => (thread_strategy (globals m), active_slow_read_thread_num (globals m), last_io_read_per_second (globals m))) (run demo_seconds start) = Some (3, 28, 1200)) as Ec by (vm_compute; reflexivity).
  rewrite E in Ec. injection Ec as H1 H2 H3. by split_and!.
Defined.

End TdhsMonitor.
