(* ===== verification/TdhsFind.v ===== *)
(** * TDHSocket/tdh_socket_dbcontext.cpp: do_find

    Reading, counting, updating and deleting records share one routine: it
    resolves the names of the request, positions the storage engine on the first
    key and walks the index, applying the filter, the offset and the limit, and
    hands each record to the handler of the request type.  MySQL's table and
    storage engine are an interface ([Handler]); what the routine relies on is a
    class of laws for reading ([Cursor]). *)

From Stdlib Require Import ZArith Lia.
From stdpp Require Import base list numbers option.
From S2P Require Import Prelude CString EasyPool TdhsDefine TdhsRead TdhsProtocol TdhsDecode TdhsFormat TdhsResponse TdhsTable.

Local Open Scope Z_scope.

Module TdhsFind.
Import TdhsDefine TdhsRead TdhsProtocol TdhsFormat TdhsResponse TdhsTable.

Definition TDHS_EQ : Z := 0.
Definition TDHS_GE : Z := 1.
Definition TDHS_LE : Z := 2.
Definition TDHS_GT : Z := 3.
Definition TDHS_LT : Z := 4.
Definition TDHS_DEQ : Z := 6.

(** The codes of MySQL's handler interface. *)
Definition HA_ERR_KEY_NOT_FOUND : Z := 120.
Definition HA_ERR_RECORD_DELETED : Z := 134.
Definition HA_ERR_END_OF_FILE : Z := 137.
Definition HA_ERR_RECORD_IS_THE_SAME : Z := 169.
Definition FIELD_STORE_ERROR : Z := 198.

Inductive ha_rkey_function :=
  HA_READ_KEY_EXACT | HA_READ_KEY_OR_NEXT | HA_READ_KEY_OR_PREV | HA_READ_AFTER_KEY | HA_READ_BEFORE_KEY.

(** Error codes of tdh_socket_error.hpp. *)
Definition CLIENT_STATUS_NOT_FOUND : Z := 404.
Definition CLIENT_STATUS_DB_ERROR : Z := 502.
Definition FAILED_TO_OPEN_TABLE : Z := 1.
Definition FAILED_TO_OPEN_INDEX : Z := 2.
Definition FAILED_TO_MISSING_FIELD : Z := 3.
Definition FAILED_TO_LOCK_TABLE : Z := 5.
Definition NOT_ENOUGH_MEMORY : Z := 6.
Definition MISSING_FIELD_IN_FILTER_OR_USE_BLOB : Z := 8.
Definition FAILED_TO_COMMIT : Z := 9.
Definition KILLED : Z := 13.

(** A table under way ([T]): its current record and position.  [K] are keys as
    the index compares them, with the parts they have; [V] the values of fields. *)
Class Handler (T K V : Type) := {
  store_key_part : T -> nat -> option (list Z) -> T;
  key_copy : T -> nat -> K;
  index_read_map : T -> K -> ha_rkey_function -> Z * T;
  index_read_last_map : T -> K -> Z * T;
  read_range_first : T -> K -> K -> Z * T;
  read_range_next : T -> Z * T;
  index_prev : T -> Z * T;
  index_next : T -> Z * T;
  index_next_same : T -> K -> Z * T;
  key_cmp_if_same : T -> K -> bool;
  record : T -> list (option V);
  killed : T -> bool;
  val_str : V -> list Z;
  val_int : T -> nat -> Z;
  store_record : T -> T;
  set_null : T -> nat -> T;
  field_store : T -> nat -> list Z -> Z * T;
  field_store_int : T -> nat -> Z -> Z * T;
  save_now : T -> nat -> Z * T;
  ha_update_row : T -> Z * T;
  ha_delete_row : T -> Z * T }.

Definition find_flag_of (f : Z) : ha_rkey_function :=
  if (f =? TDHS_EQ) || (f =? TDHS_DEQ) then HA_READ_KEY_EXACT
  else if (f =? TDHS_GE) || (f =? TDHS_BETWEEN) then HA_READ_KEY_OR_NEXT
  else if f =? TDHS_LE then HA_READ_KEY_OR_PREV
  else if f =? TDHS_GT then HA_READ_AFTER_KEY
  else if f =? TDHS_LT then HA_READ_BEFORE_KEY
  else HA_READ_KEY_EXACT.

Section find.
Context {T K V : Type} `{Handler T K V} `{Fields V}.

(** The parts of a key are stored into the record and copied out of it. *)
Fixpoint store_parts (t : T) (i : nat) (key : list (list Z)) : T :=
  match key with
  | [] => t
  | s :: key => store_parts (store_key_part t i (if count s =? 0 then None else Some (text s))) (S i) key
  end.
Definition prepare_keybuf (t : T) (key : list (list Z)) : K * T :=
  let t := store_parts t 0 key in (key_copy t (List.length key), t).

Definition index_prev_same (t : T) (key : K) : Z * T :=
  let '(r, t) := index_prev t in
  if r =? 0 then (if key_cmp_if_same t key then r else HA_ERR_END_OF_FILE, t) else (r, t).

(** ** The loop *)

Section scan.
(** What process_handler keeps, and the handler: it returns its result and
    [process_db_ret]. *)
Context {P : Type}.
Variable process : T -> P -> option (Z * Z * T * P).
(** The condition of the request, its resolved filter and the buffer of it, the
    index used, and the end of the range of TDHS_BETWEEN. *)
Variables (c : cond_v) (field_idx : list nat) (filter_buf : list Z) (kinfo : index_info) (between_end : K).

Record scan := Scan {
  tbl : T; acc : P; is_first : bool; in_index : nat; key_buf : K; limit : Z; skip : Z }.

(** How the loop is left. *)
Inductive left_by :=
  | Break (r : Z) (t : T) (p : P)
  | Killed (t : T) (p : P)
  | BadKey (ret : Z) (t : T) (p : P)
  | Returned (ret : Z) (t : T) (p : P).

Definition read (first : bool) (t : T) (key : K) : Z * T :=
  if first then
    if c_flag c =? TDHS_DEQ then index_read_last_map t key
    else if c_flag c =? TDHS_BETWEEN then read_range_first t key between_end
    else index_read_map t key (find_flag_of (c_flag c))
  else
    match find_flag_of (c_flag c) with
    | HA_READ_BEFORE_KEY | HA_READ_KEY_OR_PREV => index_prev t
    | HA_READ_AFTER_KEY | HA_READ_KEY_OR_NEXT => if c_flag c =? TDHS_BETWEEN then read_range_next t else index_next t
    | HA_READ_KEY_EXACT => if c_flag c =? TDHS_DEQ then index_prev_same t key else index_next_same t key
    end.

Definition is_unlimited : bool := c_limit c =? 0.

Fixpoint scan_loop (fuel : nat) (r : Z) (s : scan) : option left_by :=
  match fuel with
  | O => None
  | S fuel =>
      if negb (is_unlimited || negb (limit s =? 0)) then Some (Break r (tbl s) (acc s))
      else if killed (tbl s) then Some (Killed (tbl s) (acc s))
      else
        let '(r, t) := read (is_first s) (tbl s) (key_buf s) in
        if negb (r =? 0) && negb (r =? HA_ERR_RECORD_DELETED) then
          if (c_flag c =? TDHS_IN) && (S (in_index s) <? List.length (c_keys c))%nat &&
             ((r =? HA_ERR_END_OF_FILE) || (r =? HA_ERR_KEY_NOT_FOUND)) then
            key ← c_keys c !! S (in_index s);
            let ret := parse_index kinfo (count key) in
            if negb (ret =? EASY_OK) then Some (BadKey ret t (acc s))
            else let '(k, t) := prepare_keybuf t key in
                 scan_loop fuel r (Scan t (acc s) true (S (in_index s)) k (limit s) (skip s))
          else Some (Break r t (acc s))
        else if r =? HA_ERR_RECORD_DELETED then
          scan_loop fuel r (Scan t (acc s) false (in_index s) (key_buf s) (limit s) (skip s))
        else
          pass ← (if 0 <? count (c_filters c) then filter_record (record t) (c_filters c) field_idx filter_buf else Some true);
          if negb pass then scan_loop fuel r (Scan t (acc s) false (in_index s) (key_buf s) (limit s) (skip s))
          else
            let limit := if negb is_unlimited && (skip s =? 0) then u32 (limit s - 1) else limit s in
            if skip s =? 0 then
              x ← process t (acc s);
              let '(process_ret, process_db_ret, t, p) := x in
              if negb (process_ret =? EASY_OK) then Some (Returned process_ret t p)
              else if negb (process_db_ret =? 0) && negb (process_db_ret =? HA_ERR_RECORD_DELETED) then Some (Break process_db_ret t p)
              else scan_loop fuel r (Scan t p false (in_index s) (key_buf s) limit (skip s))
            else scan_loop fuel r (Scan t (acc s) false (in_index s) (key_buf s) limit (u32 (skip s - 1)))
  end.
End scan.

(** ** The handlers of the request types *)

(** The response, the counters of [tdhs_table_t], [opened_table->modified] and
    [retcode] of the context. *)
Record find_state := FindState {
  st : stream; update_row_num : Z; change_row_num : Z; modified : bool; retcode : Z }.

Definition on_stream (x : Z * stream) (p : find_state) : find_state :=
  FindState (snd x) (update_row_num p) (change_row_num p) (modified p) (retcode p).
Definition set_resp (r : response) (p : find_state) : find_state :=
  on_stream (0, Stream r (sent (st p)) (is_inited (st p)) (use_stream_count (st p))) p.
Definition changed (du dc : Z) (p : find_state) : find_state :=
  FindState (st p) (u32 (update_row_num p + du)) (u32 (change_row_num p + dc)) true (retcode p).

(** The printed fields of a record, in the order of the request. *)
Definition project (field_idx : list (nat * Z)) (row : list (option V)) : option (list (option (list Z))) :=
  fs ← (mapM (fun x => row !! fst x) field_idx : option (list (option V))); Some (map (option_map val_str) fs).

Definition send_fields (closed : nat -> bool) (field_idx : list (nat * Z)) (row : list (option V)) (p : find_state) : option (Z * find_state) :=
  fields ← project field_idx row;
  x ← response_record closed fields (st p);
  Some (fst x, on_stream x p).

Definition count_one (row : list (option V)) (p : find_state) : option (Z * find_state) :=
  Some (EASY_OK, FindState (st p) (update_row_num p) (u32 (change_row_num p + 1)) (modified p) (retcode p)).

(** A handler that only looks at the record: [process_db_ret] stays zero. *)
Definition read_only {P} (f : list (option V) -> P -> option (Z * P)) (t : T) (p : P) : option (Z * Z * T * P) :=
  x ← f (record t) p; Some (fst x, 0, t, snd x).
Definition response_handler (closed : nat -> bool) (field_idx : list (nat * Z)) := read_only (send_fields closed field_idx).
Definition count_record := read_only count_one.

(** [atoll]: white space, a sign, digits. *)
Fixpoint skip_spaces (l : list Z) : list Z :=
  match l with
  | c :: l' => if (c =? 32) || ((9 <=? c) && (c <=? 13)) then skip_spaces l' else l
  | [] => []
  end.
Definition atoll_text (l : list Z) : Z :=
  match skip_spaces l with
  | c :: l' => if c =? 45 then Z.max (- digits_val 0 l') (- 2 ^ 63)
               else Z.min (digits_val 0 (if c =? 43 then l' else c :: l')) (2 ^ 63 - 1)
  | [] => 0
  end.

(** [store_record] keeps the record as it is before the update.  One field of an
    update; a negative result is an error of the field. *)
Definition update_field (t : T) (j : nat) (x : value_v) : Z * T :=
  let llv := if count (v_value x) =? 0 then 0 else atoll_text (v_value x) in
  if v_flag x =? 0 then if count (v_value x) =? 0 then (0, set_null t j) else field_store t j (text (v_value x))
  else if v_flag x =? 1 then field_store_int t j (i64 (val_int t j + llv))
  else if v_flag x =? 2 then field_store_int t j (i64 (val_int t j - llv))
  else if v_flag x =? 3 then save_now t j
  else (0, t).

Fixpoint update_fields (t : T) (field_idx : list (nat * Z)) (vs : list value_v) : option (bool * T) :=
  match field_idx with
  | [] => Some (true, t)
  | (j, _) :: field_idx =>
      x ← head vs;
      let '(rc, t) := update_field t j x in
      if rc <? 0 then Some (false, t) else update_fields t field_idx (tail vs)
  end.

Definition update_record (vs : list value_v) (field_idx : list (nat * Z)) (t : T) (p : find_state) : option (Z * Z * T * find_state) :=
  x ← update_fields (store_record t) field_idx vs;
  let '(stored, t) := x in
  if negb stored then Some (EASY_OK, FIELD_STORE_ERROR, t, p)
  else
    let '(ret, t) := ha_update_row t in
    Some (if ret =? 0 then (EASY_OK, 0, t, changed 1 1 p)
          else if ret =? HA_ERR_RECORD_IS_THE_SAME
          then (EASY_OK, 0, t, FindState (st p) (u32 (update_row_num p + 1)) (change_row_num p) (modified p) (retcode p))
          else (EASY_OK, ret, t, p)).

Definition delete_record (t : T) (p : find_state) : option (Z * Z * T * find_state) :=
  let '(ret, t) := ha_delete_row t in
  Some (if ret =? 0 then (EASY_OK, 0, t, changed 1 1 p) else (EASY_OK, ret, t, p)).

Definition end_update_record (p : find_state) : option find_state :=
  r ← write_update_ender_to_response (update_row_num p) (change_row_num p) (resp (st p)); Some (set_resp r p).
Definition end_count_record (p : find_state) : option find_state :=
  r ← write_count_ender_to_response (change_row_num p) (resp (st p)); Some (set_resp r p).

(** ** The routine *)

Section do_find.
Context {S : Type} `{EasyPool.PoolOps S}.
Variables (pool_addr : Z) (fill : nat -> Z).
(** Whether malloc gives memory of a size. *)
Variable malloc : Z -> bool.

(** [stack_liker] of util.hpp. *)
Definition CACHE_MEMORY_SIZE : Z := 512.
Definition stack_liker (size : Z) : option (list Z) :=
  if size <=? CACHE_MEMORY_SIZE then Some (replicate (Z.to_nat CACHE_MEMORY_SIZE) 0)
  else if malloc size then Some (replicate (Z.to_nat size) 0) else None.

Definition answer : Type := Z * T * find_state * S.
Definition fail (t : T) (p : find_state) (s : S) (status code : Z) : option answer :=
  x ← tdhs_response_error pool_addr fill s (resp (st p)) status code;
  let '(rc, r, s) := x in Some (rc, t, set_resp r p, s).

(** The three functions do_find is given. *)
Variable create_handler : list (nat * Z) -> S -> response -> option (Z * response * S).
Variable process_handler : list (nat * Z) -> T -> find_state -> option (Z * Z * T * find_state).
Variable end_handler : option (find_state -> option find_state).

(** What follows the loop. *)
Definition after_scan (s : S) (l : left_by) : option answer :=
  match l with
  | Killed t p => fail t p s CLIENT_STATUS_SERVICE_UNAVAILABLE KILLED
  | BadKey ret t p => fail t p s CLIENT_STATUS_NOT_FOUND ret
  | Returned ret t p => Some (ret, t, p, s)
  | Break r t p =>
      if negb (r =? 0) && negb (r =? HA_ERR_RECORD_DELETED) && negb (r =? HA_ERR_KEY_NOT_FOUND) && negb (r =? HA_ERR_END_OF_FILE)
      then fail t p s CLIENT_STATUS_DB_ERROR r
      else match end_handler with
           | None => Some (EASY_OK, t, p, s)
           | Some f => p ← f p; Some (EASY_OK, t, p, s)
           end
  end.

(** From the creation of the response on. *)
Definition find_records (fuel : nat) (t : T) (p : find_state) (s : S) (c : cond_v) (kinfo : index_info)
    (fields : list (nat * Z)) (field_idx : list nat) (filter_buf : list Z) (between_ok : bool) : option answer :=
  let p := set_resp (Response (tdhs_init_response (packet (resp (st p)))) (buf (resp (st p)))) p in
  x ← create_handler fields s (resp (st p));
  let '(rc, r, s) := x in
  let p := set_resp r p in
  if negb (rc =? EASY_OK) then fail t p s CLIENT_STATUS_SERVER_ERROR NOT_ENOUGH_MEMORY
  else
    key ← c_keys c !! O;
    let ret := parse_index kinfo (count key) in
    if negb (ret =? EASY_OK) then fail t p s CLIENT_STATUS_NOT_FOUND ret
    else
      let '(k, t) := prepare_keybuf t key in
      let start e t := l ← scan_loop (process_handler fields) c field_idx filter_buf kinfo e fuel 0
                             (Scan t p true 0 k (c_limit c) (c_start c));
                       after_scan s l in
      if c_flag c =? TDHS_BETWEEN then
        if negb between_ok then fail t p s CLIENT_STATUS_SERVER_ERROR NOT_ENOUGH_MEMORY
        else
          key1 ← c_keys c !! 1%nat;
          let ret := parse_index kinfo (count key1) in
          if negb (ret =? EASY_OK) then fail t p s CLIENT_STATUS_NOT_FOUND ret
          else let '(e, t) := prepare_keybuf t key1 in start e t
      else start k t.

(** [opened]: NULL, without a MySQL table, or with it; [locked]: the table lock;
    [key_length]: of the keys of an index. *)
Definition do_find_locked (fuel : nat) (opened : option (option table_desc)) (locked : bool) (key_length : nat -> Z)
    (t : T) (p : find_state) (s : S) (rt : table_v) (c : cond_v) : option answer :=
  match opened with
  | None => fail t p s CLIENT_STATUS_SERVER_ERROR NOT_ENOUGH_MEMORY
  | Some None => fail t p s CLIENT_STATUS_NOT_FOUND FAILED_TO_OPEN_TABLE
  | Some (Some d) =>
      if negb locked then fail t p s CLIENT_STATUS_SERVER_ERROR FAILED_TO_LOCK_TABLE
      else
        ix ← tdhs_open_index d (t_index rt);
        if negb (fst ix =? EASY_OK) then fail t p s CLIENT_STATUS_NOT_FOUND FAILED_TO_OPEN_INDEX
        else
          pf ← parse_field d rt;
          if negb (fst pf =? EASY_OK) then fail t p s CLIENT_STATUS_NOT_FOUND FAILED_TO_MISSING_FIELD
          else
            fl ← (if 0 <? count (c_filters c) then
                    x ← parse_filter d (c_filters c);
                    if negb (fst x =? EASY_OK) then Some None
                    else n ← calc_filter_buf_size (c_filters c) (snd x); Some (Some (snd x, n))
                  else Some (Some ([], 0)));
            match fl with
            | None => fail t p s CLIENT_STATUS_NOT_FOUND MISSING_FIELD_IN_FILTER_OR_USE_BLOB
            | Some (field_idx, filter_buf_size) =>
                match stack_liker filter_buf_size with
                | None => fail t p s CLIENT_STATUS_SERVER_ERROR NOT_ENOUGH_MEMORY
                | Some b =>
                    filter_buf ← (if 0 <? filter_buf_size then fill_filter_buf (c_filters c) field_idx b else Some b);
                    kinfo ← indexes d !! snd ix;
                    match stack_liker (key_length (snd ix)) with
                    | None => fail t p s CLIENT_STATUS_SERVER_ERROR NOT_ENOUGH_MEMORY
                    | Some _ => find_records fuel t p s c kinfo (snd pf) field_idx filter_buf (bool_decide (is_Some (stack_liker (key_length (snd ix)))))
                    end
                end
            end
  end.

(** The destructor of table_locker_for_context: a failed commit replaces a
    response that is not an error. *)
Definition unlock (unlock_ok : bool) (x : answer) : option answer :=
  let '(rc, t, p, s) := x in
  let code := command_id_or_response_code (packet (resp (st p))) in
  if negb unlock_ok && (200 <=? code) && (code <? 300) && negb (code =? CLIENT_STATUS_MULTI_STATUS) then
    y ← fail t p s CLIENT_STATUS_SERVER_ERROR FAILED_TO_COMMIT;
    let '(ret, t, p, s) := y in
    Some (rc, t, FindState (st p) (update_row_num p) (change_row_num p) (modified p) ret, s)
  else Some x.

Definition do_find (fuel : nat) (opened : option (option table_desc)) (locked : bool) (key_length : nat -> Z) (unlock_ok : bool)
    (t : T) (p : find_state) (s : S) (rt : table_v) (c : cond_v) : option answer :=
  x ← do_find_locked fuel opened locked key_length t p s rt c;
  match opened with
  | Some (Some _) => unlock unlock_ok x
  | _ => Some x
  end.
End do_find.

(** The requests that use it. *)
Section requests.
Context {S : Type} `{EasyPool.PoolOps S}.
Variables (pool_addr : Z) (fill : nat -> Z) (malloc : Z -> bool) (closed : nat -> bool) (tdhs_write_buff_size : Z).

Definition create_response_for_data (fields : list (nat * Z)) (s : S) (r : response) : option (Z * response * S) :=
  write_data_header_to_response pool_addr fill tdhs_write_buff_size s r (count fields) (map snd fields).
Definition do_get := do_find pool_addr fill malloc create_response_for_data (response_handler closed) None.
Definition do_count := do_find pool_addr fill malloc (fun _ => create_response_for_count pool_addr fill) (fun _ => count_record) (Some end_count_record).
Definition do_update (vs : list value_v) :=
  do_find pool_addr fill malloc (fun _ => create_response_for_update pool_addr fill) (update_record vs) (Some end_update_record).
Definition do_delete := do_find pool_addr fill malloc (fun _ => create_response_for_update pool_addr fill) (fun _ => delete_record) (Some end_update_record).
End requests.

(** ** Walking an index *)

(** The entries of an index: a record, or [None] where the engine reports a
    deleted one. *)
Definition entry : Type := option (list (option V)).
Definition live (l : list entry) : list (list (option V)) := omap id l.

Definition ended (r : Z) : Prop := r = HA_ERR_END_OF_FILE \/ r = HA_ERR_KEY_NOT_FOUND.

(** The result [x] of a read and those that follow it are the entries [l], then
    the end. *)
Fixpoint visits (next : T -> Z * T) (l : list entry) (x : Z * T) : Prop :=
  match l with
  | [] => ended (fst x)
  | None :: l => fst x = HA_ERR_RECORD_DELETED /\ visits next l (next (snd x))
  | Some row :: l => fst x = 0 /\ record (snd x) = row /\ visits next l (next (snd x))
  end.

(** What the routine relies on when it reads: the entries of the index below,
    equal to and above a key, in the order of the index, and those from one key to
    another, as the table holds them ([table]); a key is determined by the parts
    stored, the comparison with the current record tells whether it is equal, and
    reading changes nothing in the table. *)
Class Cursor (C : Type) := {
  table : T -> C;
  below : C -> K -> list entry; equal : C -> K -> list entry; above : C -> K -> list entry; within : C -> K -> K -> list entry;
  key_of : list (list Z) -> K; same_key : K -> list (option V) -> bool;
  key_parts : forall t key, key_copy (store_parts t 0 key) (List.length key) = key_of key;
  cmp_same : forall t k, key_cmp_if_same t k = same_key k (record t);
  equal_same : forall σ k row, Some row ∈ equal σ k -> same_key k row = true;
  below_differs : forall σ k row, Some row ∈ below σ k -> same_key k row = false;
  read_exact : forall t k, visits (fun t => index_next_same t k) (equal (table t) k) (index_read_map t k HA_READ_KEY_EXACT);
  read_or_next : forall t k, visits index_next (equal (table t) k ++ above (table t) k) (index_read_map t k HA_READ_KEY_OR_NEXT);
  read_after : forall t k, visits index_next (above (table t) k) (index_read_map t k HA_READ_AFTER_KEY);
  read_or_prev : forall t k, visits index_prev (rev (below (table t) k ++ equal (table t) k)) (index_read_map t k HA_READ_KEY_OR_PREV);
  read_before : forall t k, visits index_prev (rev (below (table t) k)) (index_read_map t k HA_READ_BEFORE_KEY);
  read_last : forall t k, equal (table t) k <> [] -> visits index_prev (rev (below (table t) k ++ equal (table t) k)) (index_read_last_map t k);
  read_last_none : forall t k, equal (table t) k = [] -> ended (fst (index_read_last_map t k));
  read_range : forall t k e, visits read_range_next (within (table t) k e) (read_range_first t k e);
  table_part : forall t i s, table (store_key_part t i s) = table t;
  table_read : forall t k f, table (snd (index_read_map t k f)) = table t;
  table_last : forall t k, table (snd (index_read_last_map t k)) = table t;
  table_range : forall t k e, table (snd (read_range_first t k e)) = table t;
  table_range_next : forall t, table (snd (read_range_next t)) = table t;
  table_prev : forall t, table (snd (index_prev t)) = table t;
  table_next : forall t, table (snd (index_next t)) = table t;
  table_next_same : forall t k, table (snd (index_next_same t k)) = table t }.

Context {C : Type}.

(** The entries a key stands for, in the order the request asks for. *)
Definition matching `{Cursor C} (σ : C) (flag : Z) (k e : K) : list entry :=
  if flag =? TDHS_DEQ then rev (equal σ k)
  else if flag =? TDHS_BETWEEN then within σ k e
  else if flag =? TDHS_GE then equal σ k ++ above σ k
  else if flag =? TDHS_LE then rev (below σ k ++ equal σ k)
  else if flag =? TDHS_GT then above σ k
  else if flag =? TDHS_LT then rev (below σ k)
  else equal σ k.

Lemma store_parts_table `{Cursor C} key : forall t i, table (store_parts t i key) = table t.
Proof. induction key as [|s key IH]; intros t i; [done|]. cbn [store_parts]. by rewrite IH, table_part. Qed.

Lemma read_nothing `{Cursor C} c e first t k : table (snd (read c e first t k)) = table t.
Proof.
  unfold read. destruct first; [repeat case_match; [apply table_last|apply table_range|apply table_read]|].
  assert (table (snd (index_prev_same t k)) = table t) as Hp by (unfold index_prev_same; pose proof (table_prev t); destruct (index_prev t) as [r t']; by case_match).
  repeat case_match; by rewrite ?table_next_same, ?table_range_next, ?table_next, ?table_prev, ?Hp.
Qed.

Lemma live_some row l : live (Some row :: l) = row :: live l.
Proof. done. Qed.
Lemma live_none l : live (None :: l) = live l.
Proof. done. Qed.
Lemma live_app l1 l2 : live (l1 ++ l2) = live l1 ++ live l2.
Proof. apply omap_app. Qed.

(** Going down with the comparison stops below the entries equal to the key. *)
Lemma visits_prev_same `{Cursor C} k l1 l2 : (forall row, Some row ∈ l1 -> same_key k row = true) ->
  (forall row, Some row ∈ l2 -> same_key k row = false) ->
  forall t, visits index_prev (l1 ++ l2) (index_prev t) ->
  exists l, visits (fun t => index_prev_same t k) l (index_prev_same t k) /\ live l = live l1 /\
    (List.length l <= List.length l1 + List.length l2)%nat.
Proof.
  intros Hs1 Hs2. assert (forall t, visits index_prev l2 (index_prev t) ->
    exists l, visits (fun t => index_prev_same t k) l (index_prev_same t k) /\ live l = [] /\ (List.length l <= List.length l2)%nat) as Hend.
  { clear Hs1. induction l2 as [|[row|] l2 IH]; intros t Hv; unfold index_prev_same at 2; destruct (index_prev t) as [r t'] eqn:E; cbn in Hv.
    - exists []. split; [|split; [done|cbn; lia]]. unfold ended in *. destruct (Z.eqb_spec r 0) as [->|]; [destruct Hv; discriminate|done].
    - exists []. split; [|split; [done|cbn; lia]]. destruct Hv as (-> & Hr & _). cbn. rewrite cmp_same, Hr, Hs2 by by left. by left.
    - destruct Hv as (-> & Hv). destruct IH with t' as (l & Hl & El & Hlen); [intros; apply Hs2; by right|done|].
      exists (None :: l). split; [|split; [done|cbn; lia]]. split; [done|]. exact Hl. }
  induction l1 as [|[row|] l1 IH]; intros t Hv; [by apply Hend| |];
    unfold index_prev_same at 2; destruct (index_prev t) as [r t'] eqn:E; cbn in Hv.
  - destruct Hv as (-> & Hr & Hv). destruct IH with t' as (l & Hl & El & Hlen); [intros; apply Hs1; by right|done|].
    exists (Some row :: l). split; [|split; [by rewrite !live_some, El|cbn; lia]].
    cbn. rewrite cmp_same, Hr, Hs1 by by left. done.
  - destruct Hv as (-> & Hv). destruct IH with t' as (l & Hl & El & Hlen); [intros; apply Hs1; by right|done|].
    exists (None :: l). split; [|split; [done|cbn; lia]]. done.
Qed.

(** No walk of the index is longer. *)
Definition walk_length `{Cursor C} (σ : C) (k e : K) : nat :=
  List.length (below σ k) + List.length (equal σ k) + List.length (above σ k) + List.length (within σ k e).

Lemma read_visits `{Cursor C} c t k e : 0 <= c_flag c < TDHS_READ_END -> exists l,
  visits (fun t => read c e false t k) l (read c e true t k) /\ live l = live (matching (table t) (c_flag c) k e) /\
  (List.length l <= walk_length (table t) k e)%nat.
Proof.
  intros Hf. unfold read, matching, walk_length.
  assert (c_flag c = 0 \/ c_flag c = 1 \/ c_flag c = 2 \/ c_flag c = 3 \/ c_flag c = 4 \/ c_flag c = 5 \/ c_flag c = 6 \/ c_flag c = 7) as Hc
    by (unfold TDHS_READ_END in Hf; lia).
  destruct Hc as [->|[->|[->|[->|[->|[->|[->| ->]]]]]]]; cbn.
  1-6,8: eexists; (split; [|split; [reflexivity|rewrite ?length_rev, ?length_app; lia]]).
  - apply read_exact.
  - apply read_or_next.
  - apply read_or_prev.
  - apply read_after.
  - apply read_before.
  - apply read_exact.
  - apply read_range.
  - destruct (rev (equal (table t) k)) as [|x l1] eqn:E.
    { assert (equal (table t) k = []) as E0 by (by rewrite <- (rev_involutive (equal (table t) k)), E). exists []. split; [by apply read_last_none|].
      split; [done|cbn; lia]. }
    assert (equal (table t) k <> []) as Hne by (by intros E0; rewrite E0 in E). pose proof (read_last t k Hne) as Hv.
    rewrite rev_app_distr, E in Hv. destruct (index_read_last_map t k) as [r t'].
    assert (List.length (equal (table t) k) = S (List.length l1)) as Hlen by (by rewrite <- length_rev, E).
    assert (visits index_prev (l1 ++ rev (below (table t) k)) (index_prev t') -> exists l,
      visits (fun t => index_prev_same t k) l (index_prev_same t' k) /\ live l = live l1 /\
      (List.length l <= List.length l1 + List.length (below (table t) k))%nat) as Hw.
    { intros Hv'. rewrite <- (length_rev (below (table t) k)). apply visits_prev_same; [| |done].
      - intros row Hr. apply (equal_same (table t)), list_elem_of_In, (proj2 (in_rev (equal (table t) k) _)). rewrite E. right. by apply list_elem_of_In.
      - intros row Hr. apply (below_differs (table t)), list_elem_of_In, (proj2 (in_rev (below (table t) k) _)). by apply list_elem_of_In. }
    destruct x as [row|]; cbn in Hv; [destruct Hv as (-> & Hr & Hv)|destruct Hv as (-> & Hv)];
      destruct (Hw Hv) as (l & Hl & El & Hll).
    + exists (Some row :: l). split; [done|]. split; [by rewrite !live_some, El|cbn; lia].
    + exists (None :: l). split; [done|]. split; [done|cbn; lia].
Qed.

(** ** The records a request selects *)

Section scanning.
Context `{Cursor C}.
Context {P : Type}.
(** The handler, and what it means: the outcome for a record of the table. *)
Variable process : T -> P -> option (Z * Z * T * P).
Variable f : list (option V) -> C * P -> option (Z * Z * (C * P)).
Variables (c : cond_v) (field_idx : list nat) (filter_buf : list Z) (kinfo : index_info) (e : K).
Hypothesis never_killed : forall t, killed t = false.

(** The walk that continues at [t] continues at [t']. *)
Definition walks_on (t t' : T) : Prop := forall k l, visits (fun t => read c e false t k) l (read c e false t k) -> visits (fun t => read c e false t k) l (read c e false t' k).

(** On the records the handler is meant for. *)
Variable Q : list (option V) -> Prop.
Definition conforms : Prop := forall t p, Q (record t) -> match f (record t) (table t, p) with
  | None => process t p = None
  | Some (rc, db, (σ, p')) => exists t', process t p = Some (rc, db, t', p') /\ table t' = σ /\ walks_on t t'
  end.
Hypothesis process_ok : conforms.

Definition leaves_table : Prop := forall row σ p rc db σ' p', f row (σ, p) = Some (rc, db, (σ', p')) -> σ' = σ.

(** What is done to a record leaves the records of a key as they are, and no walk to
    them gets longer. *)
Definition spares (row : list (option V)) (key : list (list Z)) : Prop := forall σ p rc db σ' p', f row (σ, p) = Some (rc, db, (σ', p')) ->
  live (matching σ' (c_flag c) (key_of key) e) = live (matching σ (c_flag c) (key_of key) e) /\ (walk_length σ' (key_of key) e <= walk_length σ (key_of key) e)%nat.
(** The records of each key in turn leave those of the keys after it. *)
Fixpoint in_turn (keys : list (list (list Z))) : Prop :=
  match keys with
  | [] => True
  | key :: keys => (forall σ row, row ∈ live (matching σ (c_flag c) (key_of key) e) -> Q row -> Forall (spares row) keys) /\ in_turn keys
  end.

Definition fine (db : Z) : bool := (db =? 0) || (db =? HA_ERR_RECORD_DELETED).

(** Handing records over until one is refused. *)
Fixpoint feed (rows : list (list (option V))) (x : C * P) : option (Z * Z * (C * P)) :=
  match rows with
  | [] => Some (EASY_OK, 0, x)
  | row :: rows => y ← f row x; let '(rc, db, x) := y in if (rc =? EASY_OK) && fine db then feed rows x else Some y
  end.

(** Offset and limit; a limit of zero is none. *)
Definition window (skip limit : Z) (rows : list (list (option V))) : list (list (option V)) :=
  let rows := drop (Z.to_nat skip) rows in if is_unlimited c then rows else take (Z.to_nat limit) rows.

Definition test (row : list (option V)) : option bool :=
  if 0 <? count (c_filters c) then filter_record row (c_filters c) field_idx filter_buf else Some true.
(** What the filter says of a record. *)
Variable ok : list (option V) -> bool.

Definition benign (r : Z) : Prop := r = 0 \/ r = HA_ERR_RECORD_DELETED \/ ended r.

Definition scanned (x : option (Z * Z * (C * P))) (l : option left_by) : Prop :=
  match x with
  | None => l = None
  | Some (rc, db, (σ, p)) =>
      if rc =? EASY_OK then exists r t, l = Some (Break r t p) /\ table t = σ /\ (if fine db then benign r else r = db)
      else exists t, l = Some (Returned rc t p) /\ table t = σ
  end.

Definition entries_of (σ : C) (keys : list (list (list Z))) : list (list (option V)) :=
  concat (map (fun key => live (matching σ (c_flag c) (key_of key) e)) keys).
Definition steps_of (σ : C) (keys : list (list (list Z))) : nat := sum_list (map (fun key => S (walk_length σ (key_of key) e)) keys).

Lemma window_kept skip limit row rows : 0 <= skip -> 0 <= limit -> is_unlimited c || negb (limit =? 0) = true ->
  window skip limit (row :: rows) =
  if skip =? 0 then row :: window skip (if is_unlimited c then limit else limit - 1) rows else window (skip - 1) limit rows.
Proof.
  intros Hs Hl Hne. unfold window. destruct (Z.eqb_spec skip 0) as [->|Hs0].
  - change (Z.to_nat 0) with O. rewrite !drop_0. destruct (is_unlimited c); [done|]. cbn in Hne.
    destruct (Z.eqb_spec limit 0); [done|]. replace (Z.to_nat limit) with (S (Z.to_nat (limit - 1))) by lia. done.
  - by replace (Z.to_nat skip) with (S (Z.to_nat (skip - 1))) by lia.
Qed.

Lemma window_none skip limit rows : is_unlimited c || negb (limit =? 0) = false -> window skip limit rows = [].
Proof. unfold window. destruct (is_unlimited c); [done|]. destruct (Z.eqb_spec limit 0) as [->|]; [done|]. done. Qed.

Lemma steps_of_cons σ key keys : steps_of σ (key :: keys) = (S (walk_length σ (key_of key) e) + steps_of σ keys)%nat.
Proof. done. Qed.

Lemma spared row σ p rc db σ' p' later : Forall (spares row) later -> f row (σ, p) = Some (rc, db, (σ', p')) ->
  entries_of σ' later = entries_of σ later /\ (steps_of σ' later <= steps_of σ later)%nat.
Proof.
  intros Hs Ef. induction Hs as [|key later Hk _ [IH1 IH2]]; [done|]. destruct (Hk _ _ _ _ _ _ Ef) as [E1 E2]. unfold entries_of in *. cbn [map concat]. rewrite !steps_of_cons, E1, IH1. split; [done|lia].
Qed.
Lemma leaves_in_turn keys : leaves_table -> in_turn keys.
Proof.
  intros Hl. induction keys as [|key keys IH]; [done|]. split; [|done]. intros σ0 row _ _. apply list.Forall_forall. intros key' _ σ p rc db σ' p' E. by rewrite (Hl _ _ _ _ _ _ _ E).
Qed.

(** The loop, from any of its states: [l] is ahead in the walk for the current
    key, [later] are the keys of TDHS_IN still to come; if there are any, what the
    handler does to the records of a key leaves those of the later ones. *)
Lemma scan_ok fuel : forall later l s r, Forall (fun key => count key <= count (key_part kinfo)) later ->
  (forall row, row ∈ live l -> Q row -> Forall (spares row) later) -> in_turn later ->
  Forall Q (window (skip s) (limit s) (List.filter ok (live l ++ entries_of (table (tbl s)) later))) ->
  benign r -> visits (fun t => read c e false t (key_buf s)) l (read c e (is_first s) (tbl s) (key_buf s)) ->
  0 <= c_flag c < TDHS_READ_END -> later = (if c_flag c =? TDHS_IN then drop (S (in_index s)) (c_keys c) else []) ->
  Forall (fun row => test row = Some (ok row)) (live l ++ entries_of (table (tbl s)) later) ->
  0 <= limit s < 2 ^ 32 -> 0 <= skip s < 2 ^ 32 -> (List.length l + steps_of (table (tbl s)) later < fuel)%nat ->
  scanned (feed (window (skip s) (limit s) (List.filter ok (live l ++ entries_of (table (tbl s)) later))) (table (tbl s), acc s))
    (scan_loop process c field_idx filter_buf kinfo e fuel r s).
Proof.
  induction fuel as [|fuel IH]; intros later l s r Hkeys Hsp Htn HQ Hr Hv Hflag Hin Ht Hlim Hskip Hfuel; [lia|]. cbn [scan_loop].
  destruct (is_unlimited c || negb (limit s =? 0)) eqn:Hgo; cbn [negb].
  2: { rewrite window_none by done. by exists r, (tbl s). }
  rewrite never_killed. pose proof (read_nothing c e (is_first s) (tbl s) (key_buf s)) as Etab. destruct (read c e (is_first s) (tbl s) (key_buf s)) as [r' t] eqn:Er. cbn [snd] in Etab. rewrite <- Etab in *.
  destruct l as [|[row|] l]; cbn [visits fst snd] in Hv.
  - assert (r' <> 0 /\ r' <> HA_ERR_RECORD_DELETED) as [N0 N1] by (destruct Hv as [-> | ->]; done).
    destruct (Z.eqb_spec r' 0); [done|]. destruct (Z.eqb_spec r' HA_ERR_RECORD_DELETED); [done|]. cbn [negb andb].
    assert ((r' =? HA_ERR_END_OF_FILE) || (r' =? HA_ERR_KEY_NOT_FOUND) = true) as -> by (destruct Hv as [-> | ->]; done).
    rewrite andb_true_r. destruct later as [|key later].
    + assert ((c_flag c =? TDHS_IN) && (S (in_index s) <? List.length (c_keys c))%nat = false) as ->.
      { destruct (c_flag c =? TDHS_IN); [|done]. symmetry in Hin. apply (f_equal List.length) in Hin. rewrite length_drop in Hin.
        cbn in Hin. apply Nat.ltb_ge. lia. }
      cbn. unfold window. rewrite drop_nil, take_nil. destruct (is_unlimited c); (exists r', t; split_and!; [done|done|by right; right]).
    + destruct (c_flag c =? TDHS_IN) eqn:Eflag; [|done].
      assert (c_keys c !! S (in_index s) = Some key) as Hk
        by (rewrite <- (Nat.add_0_r (S (in_index s))), <- lookup_drop; by rewrite <- Hin).
      assert (S (in_index s) < List.length (c_keys c))%nat as Hlt by by eapply lookup_lt_Some. apply Nat.ltb_lt in Hlt. rewrite Hlt, Hk.
      cbn [andb mbind option_bind]. apply list.Forall_cons in Hkeys as [Hkey Hkeys]. unfold parse_index.
      destruct (Z.ltb_spec (count (key_part kinfo)) (count key)); [lia|]. change (EASY_OK =? EASY_OK) with true. cbn [negb].
      unfold prepare_keybuf. rewrite key_parts. set (t' := store_parts t 0 key). assert (table t' = table t) as Et' by apply store_parts_table. rewrite <- Et' in *.
      destruct (read_visits c t' (key_of key) e Hflag) as (l' & Hl' & El' & Hlen).
      unfold entries_of in *. cbn [map concat live omap list_omap app] in *. rewrite <- El' in *.
      rewrite steps_of_cons in Hfuel.
      destruct Htn as [Hsp1 Htn].
      apply (IH later l' (Scan t' (acc s) true (S (in_index s)) (key_of key) (limit s) (skip s)) r'); try done.
      * rewrite El'. apply Hsp1.
      * by right; right.
      * cbn [in_index]. rewrite <- Nat.add_1_r, <- drop_drop, <- Hin. done.
      * cbn [List.length tbl] in *. lia.
  - destruct Hv as (-> & Hrow & Hv). rewrite Z.eqb_refl. change (0 =? HA_ERR_RECORD_DELETED) with false. cbn [negb andb].
    rewrite live_some in *. cbn [app] in *. apply list.Forall_cons in Ht as [Ht1 Ht].
    assert (forall row, row ∈ live l -> Q row -> Forall (spares row) later) as Hspl by (intros; apply Hsp; [by right|done]).
    fold (test (record t)). rewrite Hrow, Ht1. cbn [mbind option_bind List.filter List.length] in *.
    destruct (ok row); cbn [negb].
    2: { apply (IH later l (Scan t (acc s) false (in_index s) (key_buf s) (limit s) (skip s)) 0); try done; [by left|cbn [tbl]; lia]. }
    rewrite window_kept in HQ |- * by (done || lia). destruct (Z.eqb_spec (skip s) 0) as [Es|Es].
    + apply list.Forall_cons in HQ as [HQ1 HQ]. rewrite andb_true_r. cbn [feed]. rewrite <- Hrow in HQ1. pose proof (process_ok t (acc s) HQ1) as Hp. rewrite Hrow in Hp. destruct (f row (table t, acc s)) as [[[rc db] [σ p]]|] eqn:Ef; [|by rewrite Hp].
      destruct Hp as (t' & -> & Et' & Hon). cbn [mbind option_bind fst snd]. destruct (rc =? EASY_OK) eqn:Erc; cbn [negb andb].
      2: { cbn [scanned]. rewrite Erc. by exists t'. }
      rewrite <- negb_orb. fold (fine db).
      destruct (fine db) eqn:Edb; cbn [negb].
      2: { cbn [scanned]. rewrite Erc, Edb. by exists db, t'. }
      assert ((if negb (is_unlimited c) then u32 (limit s - 1) else limit s) = (if is_unlimited c then limit s else limit s - 1)) as ->.
      { destruct (is_unlimited c); [done|]. cbn in *. destruct (Z.eqb_spec (limit s) 0); [done|]. by rewrite wrapu_small by lia. }
      assert (entries_of (table t') later = entries_of (table t) later /\ (steps_of (table t') later <= steps_of (table t) later)%nat) as [Ee Es'].
      { rewrite Et'. eapply spared; [|exact Ef]. apply Hsp; [by left|by rewrite <- Hrow]. }
      rewrite <- Ee in *. rewrite <- Et'.
      apply (IH later l (Scan t' p false (in_index s) (key_buf s) (if is_unlimited c then limit s else limit s - 1) (skip s)) 0);
        try done; [by left|by apply Hon| |cbn [tbl]; lia]. cbn [limit]. destruct (is_unlimited c); [done|]. cbn in Hgo. destruct (Z.eqb_spec (limit s) 0); [done|]. lia.
    + rewrite andb_false_r, wrapu_small by lia.
      apply (IH later l (Scan t (acc s) false (in_index s) (key_buf s) (limit s) (skip s - 1)) 0); try done; [by left|cbn [skip]; lia|cbn [tbl]; lia].
  - destruct Hv as (-> & Hv). rewrite Z.eqb_refl. change (HA_ERR_RECORD_DELETED =? 0) with false. cbn [negb andb]. rewrite live_none in *. cbn [List.length] in Hfuel.
    apply (IH later l (Scan t (acc s) false (in_index s) (key_buf s) (limit s) (skip s)) HA_ERR_RECORD_DELETED); try done; [by right; left|cbn [tbl]; lia].
Qed.
End scanning.

(** A handler that only looks at the records. *)
Section reading.
Context `{Cursor C} {P : Type}.
Variable f : list (option V) -> P -> option (Z * P).

Definition looking (row : list (option V)) (x : C * P) : option (Z * Z * (C * P)) := y ← f row (snd x); Some (fst y, 0, (fst x, snd y)).

Lemma looking_conforms c e : conforms (read_only f) looking c e (fun _ => True).
Proof. intros t p _. unfold looking, read_only. cbn [fst snd]. destruct (f (record t) p) as [[rc p']|]; [|done]. cbn [mbind option_bind fst snd]. exists t. split_and!; [done|done|by intros k l]. Qed.
Lemma looking_leaves : leaves_table looking.
Proof. intros row σ p rc db σ' p'. unfold looking. cbn [fst snd]. destruct (f row p) as [[? ?]|]; [|done]. by intros [= _ _ <- _]. Qed.

(** The records one after the other, until one is refused. *)
Fixpoint pass_on (rows : list (list (option V))) (p : P) : option (Z * P) :=
  match rows with
  | [] => Some (EASY_OK, p)
  | row :: rows => x ← f row p; let '(rc, p) := x in if negb (rc =? EASY_OK) then Some (rc, p) else pass_on rows p
  end.
Lemma feed_looking rows : forall σ p, feed looking rows (σ, p) = x ← pass_on rows p; Some (fst x, 0, (σ, snd x)).
Proof.
  induction rows as [|row rows IH]; intros σ p; [done|]. cbn [feed pass_on]. change (looking row (σ, p)) with (y ← f row p; Some (fst y, 0, (σ, snd y))). destruct (f row p) as [[rc p']|]; [|done]. cbn [mbind option_bind fst snd].
  change (fine 0) with true. rewrite andb_true_r. destruct (rc =? EASY_OK); [apply IH|done].
Qed.
End reading.

(** ** The requests that read *)

(** The keys that are looked up, and the end of a range. *)
Definition used_keys (c : cond_v) : list (list (list Z)) := if c_flag c =? TDHS_IN then c_keys c else take 1 (c_keys c).
Definition range_end `{Cursor C} (c : cond_v) : K :=
  key_of (default [] (if c_flag c =? TDHS_BETWEEN then c_keys c !! 1%nat else c_keys c !! O)).

(** The records of a table a condition asks for: those of the keys, in order, that pass the
    filter, without the first [start], [limit] of them at most. *)
Definition selected `{Cursor C} (σ : C) (c : cond_v) (field_idx : list nat) : list (list (option V)) :=
  window c (c_start c) (c_limit c)
    (List.filter (fun row => passes row (c_filters c) field_idx) (entries_of c (range_end c) σ (used_keys c))).

Lemma parse_field_loop_idx d fs : forall acc rc idx, parse_field_loop fs d acc = Some (rc, idx) -> rc = EASY_OK ->
  Forall (fun x => (fst x < List.length (columns d))%nat) acc -> (List.length acc <= REQUEST_MAX_FIELD_NUM)%nat ->
  Forall (fun x => (fst x < List.length (columns d))%nat) idx /\ (List.length idx <= REQUEST_MAX_FIELD_NUM)%nat.
Proof.
  induction fs as [|x fs IH]; intros acc rc idx E Hrc Hacc Hlen; [by injection E as <- <-|].
  cbn [parse_field_loop] in E. destruct (Nat.leb_spec REQUEST_MAX_FIELD_NUM (List.length acc)); [done|]. unfold lookup_column in E. destruct (0 <? count x); [|by injection E as <- _].
  destruct (cstr x) as [name|]; [|done]. cbn [mbind option_bind] in E.
  pose proof (find_column_spec name (columns d) 0) as Hf. destruct (find_column name (columns d) 0) as [[j cl]|]; [|by injection E as <- _].
  rewrite Nat.sub_0_r in Hf. destruct Hf as (_ & Hj & _). apply (IH _ _ _ E Hrc).
  - apply list.Forall_app. split; [done|]. constructor; [|done]. by eapply lookup_lt_Some.
  - rewrite length_app. cbn [List.length]. lia.
Qed.

Lemma project_some fields row : Forall (fun x => (fst x < List.length row)%nat) fields -> exists l, project fields row = Some l.
Proof.
  intros Hf. unfold project. assert (exists l, (mapM (fun x => row !! fst x) fields : option (list (option V))) = Some l) as [l ->].
  { induction Hf as [|x fields Hx _ [l IH]]; [by exists []|]. destruct (lookup_lt_is_Some_2 row (fst x) Hx) as [v Ev].
    exists (v :: l). cbn. rewrite Ev. cbn. by rewrite IH. }
  by eexists.
Qed.

Section reading_requests.
Context `{!FieldsLaws V} `{Cursor C}.
Context {S : Type} `{EasyPool.PoolOps S}.
Variables (pool_addr : Z) (fill : nat -> Z) (malloc : Z -> bool).
Hypotheses (never_killed : forall t, killed t = false) (malloc_ok : forall n, malloc n = true).

(** A request whose names are all found, with keys that fit the index [kinfo]. *)
Record resolved (σ : C) (d : table_desc) (rt : table_v) (c : cond_v) (kinfo : index_info) (fields : list (nat * Z)) (field_idx : list nat) : Prop := {
  r_index : exists i, tdhs_open_index d (t_index rt) = Some (EASY_OK, i) /\ indexes d !! i = Some kinfo;
  r_fields : parse_field d rt = Some (EASY_OK, fields);
  r_filter : parse_filter d (c_filters c) = Some (EASY_OK, field_idx);
  r_images : count (images (c_filters c) field_idx) < 2 ^ 64 - 1;
  r_cond : cond_ok c;
  r_parts : Forall (fun key => count key <= count (key_part kinfo)) (c_keys c);
  r_rows : forall row, row ∈ entries_of c (range_end c) σ (used_keys c) -> List.length row = List.length (columns d) }.

Lemma stack_liker_ok n : exists b, stack_liker malloc n = Some b /\ n <= count b.
Proof.
  unfold stack_liker, CACHE_MEMORY_SIZE. destruct (Z.leb_spec n 512).
  - eexists. split; [done|]. unfold count. rewrite length_replicate. lia.
  - rewrite malloc_ok. eexists. split; [done|]. unfold count. rewrite length_replicate. lia.
Qed.

(** The filter of the request in its buffer. *)
Lemma filter_prepared σ d rt c kinfo fields field_idx : resolved σ d rt c kinfo fields field_idx ->
  exists size b buf, (if 0 <? count (c_filters c) then
      x ← parse_filter d (c_filters c);
      if negb (fst x =? EASY_OK) then Some None else n ← calc_filter_buf_size (c_filters c) (snd x); Some (Some (snd x, n))
    else Some (Some ([], 0))) = Some (Some (field_idx, size)) /\
    stack_liker malloc size = Some b /\ (if 0 <? size then fill_filter_buf (c_filters c) field_idx b else Some b) = Some buf /\
    forall row, List.length row = List.length (columns d) -> test c field_idx buf row = Some (passes row (c_filters c) field_idx).
Proof.
  intros R. destruct (filter_record_ok d (c_filters c) field_idx (r_filter _ _ _ _ _ _ _ R) (r_images _ _ _ _ _ _ _ R)) as (size & Esz & Hfill).
  pose proof (r_filter _ _ _ _ _ _ _ R) as Ef. unfold test. destruct (Z.ltb_spec 0 (count (c_filters c))) as [Hpos|Hnone].
  - destruct (stack_liker_ok size) as (b & Eb & Hb). destruct (Hfill b Hb) as (buf & Ebuf & _ & Hrow). exists size, b, buf.
    rewrite Ef. cbn [mbind option_bind fst snd negb]. change (EASY_OK =? EASY_OK) with true. cbn [negb]. rewrite Esz.
    split; [done|]. split; [done|]. split; [|exact Hrow].
    unfold calc_filter_buf_size in Esz. destruct (calc_filter_buf_loop (c_filters c) field_idx 0) as [m|] eqn:Em; [|done].
    destruct (Z.ltb_spec 0 size) as [|Hle]; [done|]. injection Esz as <-.
    destruct (parse_filter_loop_ok d (c_filters c) [] _ _ Ef eq_refl) as (idx' & -> & Hl & _). cbn [app] in *.
    pose proof (r_images _ _ _ _ _ _ _ R) as Him. assert (0 <= count (images (c_filters c) idx')) by (unfold count; lia).
    rewrite calc_filter_loop_ok in Em by (done || lia). injection Em as <-. rewrite wrapu_small in Hle by lia. lia.
  - assert (c_filters c = []) as E0 by (destruct (c_filters c); [done|unfold count in Hnone; cbn in Hnone; lia]).
    destruct (stack_liker_ok 0) as (b & Eb & _). exists 0, b, b. rewrite E0 in *. injection Ef as <-. done.
Qed.

Definition enough (σ : C) (c : cond_v) (fuel : nat) : Prop := (steps_of (range_end c) σ (used_keys c) < fuel)%nat.

(** The loop from its start. *)
Lemma scan_start {P} (process : T -> P -> option (Z * Z * T * P)) f Q d rt c kinfo fields field_idx buf t p key0 fuel :
  resolved (table t) d rt c kinfo fields field_idx -> c_keys c !! O = Some key0 -> enough (table t) c fuel -> conforms process f c (range_end c) Q -> in_turn f c (range_end c) Q (used_keys c) -> Forall Q (selected (table t) c field_idx) ->
  (forall row, List.length row = List.length (columns d) -> test c field_idx buf row = Some (passes row (c_filters c) field_idx)) ->
  scanned (feed f (selected (table t) c field_idx) (table t, p))
    (scan_loop process c field_idx buf kinfo (range_end c) fuel 0 (Scan t p true 0 (key_of key0) (c_limit c) (c_start c))).
Proof.
  intros R Hk Hfuel Hf Hin HQ Htest. destruct (r_cond _ _ _ _ _ _ _ R) as (_ & _ & Hflag & Hst & Hlim & _).
  set (later := if c_flag c =? TDHS_IN then drop 1 (c_keys c) else []).
  assert (used_keys c = key0 :: later) as Eu.
  { unfold used_keys, later. destruct (c_keys c) as [|k0 ks]; [done|]. injection Hk as ->. by destruct (c_flag c =? TDHS_IN). }
  destruct (read_visits c t (key_of key0) (range_end c) Hflag) as (l & Hl & El & Hlen).
  assert (entries_of c (range_end c) (table t) (used_keys c) = live l ++ entries_of c (range_end c) (table t) later) as Ee by (rewrite Eu, El; done).
  unfold selected in *. rewrite Ee in *. unfold enough in Hfuel. rewrite Eu, steps_of_cons in Hfuel. rewrite Eu in Hin. destruct Hin as [Hsp Htn].
  apply (scan_ok process f c field_idx buf kinfo (range_end c) never_killed Q Hf (fun row => passes row (c_filters c) field_idx) fuel later l
    (Scan t p true 0 (key_of key0) (c_limit c) (c_start c)) 0); try done.
  - unfold later. pose proof (r_parts _ _ _ _ _ _ _ R). destruct (c_flag c =? TDHS_IN); [by apply Forall_drop|by constructor].
  - rewrite El. apply Hsp.
  - by left.
  - apply list.Forall_forall. intros row Hrow. apply Htest, (r_rows _ _ _ _ _ _ _ R). by rewrite Ee.
  - cbn [tbl]. lia.
Qed.

(** The whole routine, for a handler with a meaning. *)
Lemma do_find_ok (process : list (nat * Z) -> T -> find_state -> option (Z * Z * T * find_state)) f Q create end_handler
    d rt c kinfo fields field_idx fuel key_length t p (s : S) r1 s1 rc db σ p' :
  resolved (table t) d rt c kinfo fields field_idx -> enough (table t) c fuel -> conforms (process fields) f c (range_end c) Q -> in_turn f c (range_end c) Q (used_keys c) -> Forall Q (selected (table t) c field_idx) ->
  let r0 := Response (tdhs_init_response (packet (resp (st p)))) (buf (resp (st p))) in
  create fields s r0 = Some (EASY_OK, r1, s1) ->
  feed f (selected (table t) c field_idx) (table t, set_resp r1 (set_resp r0 p)) = Some (rc, db, (σ, p')) -> exists t', table t' = σ /\
  do_find pool_addr fill malloc create process end_handler fuel (Some (Some d)) true key_length true t p s rt c =
  if rc =? EASY_OK then
    if fine db then match end_handler with None => Some (EASY_OK, t', p', s1) | Some g => p ← g p'; Some (EASY_OK, t', p, s1) end
    else if bool_decide (ended db) then match end_handler with None => Some (EASY_OK, t', p', s1) | Some g => p ← g p'; Some (EASY_OK, t', p, s1) end
    else fail pool_addr fill t' p' s1 CLIENT_STATUS_DB_ERROR db
  else Some (rc, t', p', s1).
Proof.
  intros R Hfuel Hf Hin HQ r0 Hcreate Hfeed. unfold do_find, do_find_locked. cbn [negb].
  destruct (r_index _ _ _ _ _ _ _ R) as (i & -> & Hki). cbn [mbind option_bind fst snd]. change (EASY_OK =? EASY_OK) with true. cbn [negb].
  rewrite (r_fields _ _ _ _ _ _ _ R). cbn [mbind option_bind fst snd]. change (EASY_OK =? EASY_OK) with true. cbn [negb].
  destruct (filter_prepared _ d rt c kinfo fields field_idx R) as (size & b & buf & -> & Eb & Ebuf & Htest). cbn [mbind option_bind].
  rewrite Eb, Ebuf. cbn [mbind option_bind]. rewrite Hki. cbn [mbind option_bind].
  destruct (stack_liker_ok (key_length i)) as (kb & Ekb & _). rewrite Ekb. rewrite bool_decide_eq_true_2 by done.
  unfold find_records. fold r0. cbn [resp st set_resp on_stream snd]. fold (set_resp r0 p).
  rewrite Hcreate. cbn [mbind option_bind]. change (EASY_OK =? EASY_OK) with true. cbn [negb].
  destruct (r_cond _ _ _ _ _ _ _ R) as (Hkeys & Hne & Hflag & _ & _ & _ & Hbt). pose proof (r_parts _ _ _ _ _ _ _ R) as Hparts.
  destruct (c_keys c !! O) as [key0|] eqn:Ek0; [|by destruct (c_keys c)]. cbn [mbind option_bind].
  assert (forall key i, c_keys c !! i = Some key -> parse_index kinfo (count key) = EASY_OK) as Hpi.
  { intros key j Hj. unfold parse_index. eapply Forall_lookup_1 in Hparts; [|exact Hj]. cbn in Hparts.
    destruct (Z.ltb_spec (count (key_part kinfo)) (count key)); [lia|done]. }
  rewrite (Hpi key0 O Ek0). change (EASY_OK =? EASY_OK) with true. cbn [negb]. unfold prepare_keybuf. rewrite key_parts.
  assert (forall t0, table t0 = table t -> exists t', table t' = σ /\ (l ← scan_loop (process fields) c field_idx buf kinfo (range_end c) fuel 0
      (Scan t0 (set_resp r1 (set_resp r0 p)) true 0 (key_of key0) (c_limit c) (c_start c));
      after_scan pool_addr fill end_handler s1 l) =
    if rc =? EASY_OK then
      if fine db then match end_handler with None => Some (EASY_OK, t', p', s1) | Some g => p ← g p'; Some (EASY_OK, t', p, s1) end
      else if bool_decide (ended db) then match end_handler with None => Some (EASY_OK, t', p', s1) | Some g => p ← g p'; Some (EASY_OK, t', p, s1) end
      else fail pool_addr fill t' p' s1 CLIENT_STATUS_DB_ERROR db
    else Some (rc, t', p', s1)) as Hscan.
  { intros t0 E0. rewrite <- E0 in R, Hfuel, Hfeed, HQ. pose proof (scan_start (process fields) f Q d rt c kinfo fields field_idx buf t0 (set_resp r1 (set_resp r0 p)) key0 fuel R Ek0 Hfuel Hf Hin HQ Htest) as Hs.
    rewrite Hfeed in Hs. cbn [scanned] in Hs. destruct (rc =? EASY_OK); [|destruct Hs as (t' & -> & Et); by exists t'].
    destruct Hs as (r & t' & -> & Et & Hb). exists t'. split; [done|]. cbn [mbind option_bind after_scan].
    destruct (fine db) eqn:Edb; [destruct Hb as [->|[->|[->| ->]]]; done|]. subst r. unfold fine in Edb. apply orb_false_iff in Edb as [-> ->]. cbn [negb andb]. unfold ended.
    case_bool_decide as Hd; [destruct Hd as [-> | ->]; done|]. destruct (Z.eqb_spec db HA_ERR_KEY_NOT_FOUND); [tauto|]. destruct (Z.eqb_spec db HA_ERR_END_OF_FILE); [tauto|done]. }
  assert (forall y : option (Z * T * find_state * S), (x ← y; unlock pool_addr fill true x) = y) as Hun by (by intros [[[[? ?] ?] ?]|]).
  destruct (c_flag c =? TDHS_BETWEEN) eqn:Ebt.
  - apply Z.eqb_eq in Ebt. specialize (Hbt Ebt). destruct (c_keys c !! 1%nat) as [key1|] eqn:Ek1.
    2: { apply lookup_ge_None in Ek1. unfold count in Hbt. lia. }
    assert (range_end c = key_of key1) as Ee by (unfold range_end; by rewrite Ebt, Z.eqb_refl, Ek1).
    cbn [mbind option_bind negb]. rewrite (Hpi key1 1%nat Ek1). change (EASY_OK =? EASY_OK) with true. cbn [negb]. rewrite key_parts, <- Ee.
    destruct (Hscan (store_parts (store_parts t 0 key0) 0 key1)) as (t' & Eσ & Et); [by rewrite !store_parts_table|]. exists t'. split; [done|]. etrans; [apply Hun|exact Et].
  - assert (range_end c = key_of key0) as Ee by (unfold range_end; by rewrite Ebt, Ek0).
    destruct (Hscan (store_parts t 0 key0)) as (t' & Eσ & Et); [by rewrite store_parts_table|]. exists t'. split; [done|]. rewrite Ee in Et. etrans; [apply Hun|exact Et].
Qed.

(** The whole routine, for a handler that only looks at the records. *)
Lemma do_find_reading (f : list (nat * Z) -> list (option V) -> find_state -> option (Z * find_state)) create end_handler
    d rt c kinfo fields field_idx fuel key_length t p (s : S) r1 s1 rc p' :
  resolved (table t) d rt c kinfo fields field_idx -> enough (table t) c fuel ->
  let r0 := Response (tdhs_init_response (packet (resp (st p)))) (buf (resp (st p))) in
  create fields s r0 = Some (EASY_OK, r1, s1) ->
  pass_on (f fields) (selected (table t) c field_idx) (set_resp r1 (set_resp r0 p)) = Some (rc, p') -> exists t',
  do_find pool_addr fill malloc create (fun fields => read_only (f fields)) end_handler fuel (Some (Some d)) true key_length true t p s rt c =
  if rc =? EASY_OK then
    match end_handler with None => Some (EASY_OK, t', p', s1) | Some g => p ← g p'; Some (EASY_OK, t', p, s1) end
  else Some (rc, t', p', s1).
Proof.
  intros R Hfuel r0 Hcreate Hfeed. pose proof (feed_looking (f fields) (selected (table t) c field_idx) (table t) (set_resp r1 (set_resp r0 p))) as E. rewrite Hfeed in E. cbn [mbind option_bind fst snd] in E.
  destruct (do_find_ok (fun fields => read_only (f fields)) (looking (f fields)) (fun _ => True) create end_handler d rt c kinfo fields field_idx fuel key_length t p s r1 s1 rc 0 (table t) p' R Hfuel
    (looking_conforms (f fields) c (range_end c)) (leaves_in_turn _ _ _ _ _ (looking_leaves (f fields))) (proj2 (list.Forall_forall _ _) (fun _ _ => I)) Hcreate E) as (t' & _ & Edo). exists t'. etrans; [exact Edo|]. by change (fine 0) with true.
Qed.

Lemma send_fields_ok closed fields row o p : project fields row = Some o ->
  send_fields closed fields row p = x ← response_record closed o (st p); Some (fst x, on_stream x p).
Proof. intros Ho. unfold send_fields. by rewrite Ho. Qed.

(** Sending the records handed over is sending them all. *)
Lemma feed_send closed fields rows out : Forall2 (fun row o => project fields row = Some o) rows out -> forall p,
  pass_on (send_fields closed fields) rows p = x ← response_records closed out (st p); Some (fst x, on_stream x p).
Proof.
  induction 1 as [|row o rows out Ho _ IH]; intros p; [by destruct p|].
  cbn [pass_on response_records]. rewrite (send_fields_ok _ _ _ _ _ Ho).
  destruct (response_record closed o (st p)) as [[rc st1]|]; [|done]. cbn [mbind option_bind fst].
  destruct (negb (rc =? EASY_OK)); [done|]. rewrite IH. cbn [st on_stream snd].
  by destruct (response_records closed out st1) as [[rc2 st2]|].
Qed.

Lemma selected_sub σ c field_idx row : row ∈ selected σ c field_idx -> row ∈ entries_of c (range_end c) σ (used_keys c).
Proof.
  unfold selected, window. intros Hr.
  assert (row ∈ List.filter (fun row => passes row (c_filters c) field_idx) (entries_of c (range_end c) σ (used_keys c))) as Hf.
  { destruct (is_unlimited c); [by eapply subseteq_drop|]. by eapply subseteq_drop, subseteq_take. }
  apply list_elem_of_In, filter_In in Hf as [Hf _]. by apply list_elem_of_In.
Qed.

Lemma project_ok fields row o : project fields row = Some o -> (forall v, Some v ∈ row -> count (val_str v) < 2 ^ 32) -> Forall field_ok o.
Proof.
  unfold project. destruct (mapM _ fields) as [l|] eqn:E; [|done]. intros [= <-] Hv. apply mapM_Some in E.
  apply Forall_map. induction E as [|x y xs ys Hxy _ IH]; constructor; [|exact IH]. intros v' Hv'. destruct y as [v|]; [|done].
  injection Hv' as <-. apply Hv. by eapply list_elem_of_lookup_2.
Qed.

Definition init_response (p : find_state) : response := Response (tdhs_init_response (packet (resp (st p)))) (buf (resp (st p))).
Definition seq_of (p : find_state) : Z := seq_id (packet (resp (st p))).
Definition rev_of (p : find_state) : Z := reserved (packet (resp (st p))).

(** C4 (refinement).  A GET request whose names are found, whatever the table
    contains: do_find ends, and the response it streams is the number and types
    of the fields followed by the fields of exactly the records the condition
    selects, in the order of the index or its reverse as the operator says: for
    each key in turn the records equal to, below, above or between, those that
    pass every filter, without the first [start], and [limit] at most.  Only
    if the connection is closed on the way it stops, having sent a part of it. *)
Theorem do_get_spec closed size d rt c kinfo fields field_idx fuel key_length t p (s : S) r1 s1 :
  resolved (table t) d rt c kinfo fields field_idx -> enough (table t) c fuel ->
  (forall row v, row ∈ entries_of c (range_end c) (table t) (used_keys c) -> Some v ∈ row -> count (val_str v) < 2 ^ 32) ->
  TDH_SOCKET_HEADER_LENGTH + size < 2 ^ 32 -> word (seq_of p) -> word (rev_of p) -> sent (st p) = [] ->
  create_response_for_data pool_addr fill size fields s (init_response p) = Some (EASY_OK, r1, s1) ->
  exists rc t' p' out, do_get pool_addr fill malloc closed size fuel (Some (Some d)) true key_length true t p s rt c = Some (rc, t', p', s1) /\
  Forall2 (fun row o => project fields row = Some o) (selected (table t) c field_idx) out /\
  let D := htonl_bytes (count fields) ++ map snd fields ++ concat (map enc_row out) in
  let cap := data_cap size (map snd fields) in
  (rc = EASY_OK /\ complete cap (seq_of p) (rev_of p) D (st p') \/
   rc = EASY_ASYNC /\ broken cap (seq_of p) (rev_of p) closed D (st p')).
Proof.
  intros R Hfuel Hval Hsz Hseq Hrev Hsent Hcreate.
  destruct (parse_field_loop_idx d _ [] _ _ (r_fields _ _ _ _ _ _ _ R) eq_refl) as [Hidx Hlen]; [done|cbn; lia|].
  assert (exists out, Forall2 (fun row o => project fields row = Some o) (selected (table t) c field_idx) out) as [out Hout].
  { assert (Forall (fun row => exists o, project fields row = Some o) (selected (table t) c field_idx)) as Hall.
    { apply list.Forall_forall. intros row Hr. apply project_some. by rewrite (r_rows _ _ _ _ _ _ _ R row (selected_sub _ _ _ _ Hr)). }
    induction Hall as [|row rows [o Ho] _ [out IH]]; [by exists []|]. exists (o :: out). by constructor. }
  assert (Forall (Forall field_ok) out) as Hfok.
  { apply Forall_lookup_2. intros i o Ho. destruct (Forall2_lookup_r _ _ _ _ _ Hout Ho) as (row & Hrow & Hp).
    apply (project_ok fields row o Hp). intros v Hv. apply (Hval row); [|done].
    apply (selected_sub (table t) c field_idx). by eapply list_elem_of_lookup_2. }
  assert (count (map snd fields) = count fields) as Hcm by (unfold count; by rewrite length_map).
  assert (TDH_SOCKET_HEADER_LENGTH + 4 + count (map snd fields) < 2 ^ 32) as Hcount.
  { rewrite Hcm. unfold TDH_SOCKET_HEADER_LENGTH, count, REQUEST_MAX_FIELD_NUM in *. lia. }
  destruct (write_data_header_ok pool_addr fill size s (init_response p) (map snd fields) Hcount Hsz) as (rc0 & r' & s' & E & Hcase); [done|done|].
  unfold create_response_for_data in Hcreate. rewrite Hcm in E. rewrite Hcreate in E. injection E as <- <- <-.
  destruct Hcase as [[? _]|[_ Hst]]; [done|].
  set (p1 := set_resp r1 (set_resp (init_response p) p)). set (cap := data_cap size (map snd fields)) in *.
  assert (TDH_SOCKET_HEADER_LENGTH + 4 <= cap < 2 ^ 32) as Hcap by (unfold cap, data_cap, TDH_SOCKET_HEADER_LENGTH, count in *; lia).
  destruct (response_records_ok cap (seq_of p) (rev_of p) Hcap Hseq Hrev closed out Hfok (htonl_bytes (count fields) ++ map snd fields) (st p1))
    as ([rc st'] & Erec & Hx).
  { exists [], (htonl_bytes (count fields) ++ map snd fields). split; [|done]. rewrite <- Hcm.
    unfold p1, set_resp, on_stream. cbn [st snd sent]. rewrite Hsent. apply Hst. }
  pose proof (feed_send closed fields _ _ Hout p1) as Hfeed. rewrite Erec in Hfeed. cbn [mbind option_bind fst] in Hfeed.
  destruct (do_find_reading (send_fields closed) (create_response_for_data pool_addr fill size) None d rt c kinfo fields field_idx fuel key_length
    t p s r1 s1 rc _ R Hfuel Hcreate Hfeed) as (t' & Edo).
  exists rc, t', (on_stream (rc, st') p1), out. split; [|split; [done|]].
  - etrans; [exact Edo|]. by destruct (Z.eqb_spec rc EASY_OK) as [->|].
  - cbv zeta. rewrite <- app_assoc in Hx. destruct Hx as [[Hrc Hd]|[Hrc Hbr]]; cbn [fst snd] in *; [left|by right].
    split; [done|]. by eapply delivered_sealed.
Qed.

Lemma feed_count rows : forall p, 0 <= change_row_num p -> change_row_num p + count rows < 2 ^ 32 ->
  pass_on count_one rows p = Some (EASY_OK, FindState (st p) (update_row_num p) (change_row_num p + count rows) (modified p) (retcode p)).
Proof.
  induction rows as [|row rows IH]; intros p H0' Hlt.
  { cbn [pass_on]. unfold count. cbn [List.length]. rewrite Z.add_0_r. by destruct p. }
  cbn [pass_on count_one mbind option_bind]. change (EASY_OK =? EASY_OK) with true. cbn [negb].
  unfold count in *. cbn [List.length] in *. rewrite Nat2Z.inj_succ in *. rewrite IH; cbn [st update_row_num change_row_num modified retcode];
    rewrite ?wrapu_small by lia; [|lia..]. do 2 f_equal. f_equal. lia.
Qed.

(** A COUNT request whose names are found answers with the number of
    records the condition selects, in decimal, below 2^31. *)
Theorem do_count_spec d rt c kinfo fields field_idx fuel key_length t p (s : S) r1 s1 :
  resolved (table t) d rt c kinfo fields field_idx -> enough (table t) c fuel -> count (selected (table t) c field_idx) < 2 ^ 31 -> change_row_num p = 0 ->
  word (seq_of p) -> word (rev_of p) ->
  create_response_for_count pool_addr fill s (init_response p) = Some (EASY_OK, r1, s1) ->
  exists t' p', do_count pool_addr fill malloc fuel (Some (Some d)) true key_length true t p s rt c = Some (EASY_OK, t', p', s1) /\
  answers (init_response p) (TdhsResponse.columns MYSQL_TYPE_LONG 1 ++ enc_str (udec (count (selected (table t) c field_idx)))) (resp (st p')).
Proof.
  intros R Hfuel Hn Hp0 Hseq Hrev Hcreate. set (n := count (selected (table t) c field_idx)) in *.
  assert (0 <= n) by (unfold n, count; lia).
  set (p1 := set_resp r1 (set_resp (init_response p) p)).
  pose proof (feed_count (selected (table t) c field_idx) p1) as Hfeed. fold n in Hfeed. cbn [p1 set_resp on_stream change_row_num] in Hfeed.
  rewrite Hp0 in Hfeed. specialize (Hfeed ltac:(lia) ltac:(lia)). rewrite Z.add_0_l in Hfeed.
  destruct (do_find_reading (fun _ => count_one) (fun _ => create_response_for_count pool_addr fill) (Some end_count_record) d rt c kinfo fields
    field_idx fuel key_length t p s r1 s1 EASY_OK _ R Hfuel Hcreate Hfeed) as (t' & Edo).
  destruct (numbers_ok pool_addr fill s (init_response p) 10 1 11 [udec n]) as (rc & r' & s' & E & Hcase); try done.
  { pose proof (udec_count n 10 ltac:(lia) ltac:(lia) ltac:(lia)). repeat constructor; lia. }
  unfold create_response_for_count in Hcreate. rewrite Hcreate in E. injection E as <- <- <-.
  destruct Hcase as [?|(_ & r2 & Ef & Ha)]; [done|]. cbn [foldr] in Ef.
  destruct (write_number 11 (udec n) r1) as [r3|] eqn:Ew; [|done]. injection Ef as ->.
  cbn [map concat] in Ha. rewrite app_nil_r in Ha. eexists t', _. split.
  - etrans; [exact Edo|]. change (EASY_OK =? EASY_OK) with true. unfold end_count_record, write_count_ender_to_response.
    cbn [change_row_num st resp on_stream set_resp snd p1]. rewrite sdec_udec by lia. rewrite Ew. done.
  - exact Ha.
Qed.
End reading_requests.
End find.

(** ** A table in memory *)

(** The index of a small table: the value of its first column, and the record or
    a deleted entry. *)
Definition demo_index : list (Z * option (list (option Z))) :=
  [(7, Some [Some 7; Some 13]); (7, None); (7, Some [Some 7; Some 5]); (8, Some [Some 8; Some 40]); (9, Some [Some 9; None]); (9, Some [Some 9; Some 20])].

(** What is ahead, the current record, and the key stored into it. *)
Record mem_table := MemTable { ahead : list (option (list (option Z))); current : list (option Z); stored : Z }.

Definition go (none : Z) (l : list (option (list (option Z)))) (t : mem_table) : Z * mem_table :=
  match l with
  | [] => (none, MemTable [] (current t) (stored t))
  | None :: l => (HA_ERR_RECORD_DELETED, MemTable l (current t) (stored t))
  | Some row :: l => (0, MemTable l row (stored t))
  end.
Definition go_on (t : mem_table) : Z * mem_table := go HA_ERR_END_OF_FILE (ahead t) t.
Definition go_first (l : list (option (list (option Z)))) (t : mem_table) : Z * mem_table := go HA_ERR_KEY_NOT_FOUND l t.

Definition part (P : Z -> bool) : list (option (list (option Z))) := map snd (List.filter (fun x => P (fst x)) demo_index).
Definition demo_same (k : Z) (row : list (option Z)) : bool := match row with Some v :: _ => v =? k | _ => false end.
Definition demo_number (key : list (list Z)) : Z := match key with s :: _ => digits_val 0 (text s) | [] => 0 end.

#[export] Instance mem_handler : Handler mem_table Z Z := {
  store_key_part t i s := match i with O => MemTable (ahead t) (current t) (digits_val 0 (default [] s)) | _ => t end;
  key_copy t n := match n with O => 0 | _ => stored t end;
  index_read_map t k f := go_first match f with
    | HA_READ_KEY_EXACT => part (fun x => x =? k)
    | HA_READ_KEY_OR_NEXT => part (fun x => x =? k) ++ part (fun x => k <? x)
    | HA_READ_AFTER_KEY => part (fun x => k <? x)
    | HA_READ_KEY_OR_PREV => rev (part (fun x => x <? k) ++ part (fun x => x =? k))
    | HA_READ_BEFORE_KEY => rev (part (fun x => x <? k)) end t;
  index_read_last_map t k := go_first (if decide (part (fun x => x =? k) = []) then [] else rev (part (fun x => x <? k) ++ part (fun x => x =? k))) t;
  read_range_first t k e := go_first (part (fun x => (k <=? x) && (x <=? e))) t;
  read_range_next := go_on; index_prev := go_on; index_next := go_on; index_next_same t _ := go_on t;
  key_cmp_if_same t k := demo_same k (current t);
  record := current; killed _ := false; val_str := udec;
  val_int t j := match current t !! j with Some (Some v) => v | _ => 0 end;
  store_record t := t; set_null t _ := t; field_store t _ _ := (0, t); field_store_int t _ _ := (0, t); save_now t _ := (0, t);
  ha_update_row t := (0, t); ha_delete_row t := (0, t) }.

Lemma go_visits none l : none = HA_ERR_END_OF_FILE \/ none = HA_ERR_KEY_NOT_FOUND -> forall t, visits (V := Z) go_on l (go none l t).
Proof.
  revert none. induction l as [|[row|] l IH]; intros none Hn t; [exact Hn|..]; cbn; split_and!; try done; apply IH; by left.
Qed.

Lemma part_same P row : Some row ∈ part P -> exists v l, row = Some v :: l /\ P v = true.
Proof.
  unfold part. intros Hr. apply list_elem_of_In, in_map_iff in Hr as ([v r] & E & Hin). cbn in E. subst r.
  apply filter_In in Hin as [Hin HP]. exists v. cbn in Hin, HP.
  repeat (destruct Hin as [Hin|Hin]; [injection Hin as <- <- || discriminate Hin; by eexists|]). done.
Qed.

Lemma store_rest key : forall t i, (0 < i)%nat -> store_parts (T := mem_table) t i key = t.
Proof. induction key as [|s0 key IH]; intros t i Hi; [done|]. cbn [store_parts store_key_part]. destruct i; [lia|]. apply IH. lia. Qed.

#[export] Instance mem_cursor : Cursor (T := mem_table) (K := Z) (V := Z) unit.
Proof.
  refine {| table _ := tt; below _ k := part (fun x => x <? k); equal _ k := part (fun x => x =? k); above _ k := part (fun x => k <? x);
    within _ k e := part (fun x => (k <=? x) && (x <=? e)); key_of := demo_number; same_key := demo_same |}.
  all: try (intros; apply go_visits; by right). all: try done.
  - intros t [|s0 key]; [done|]. cbn [store_parts List.length]. rewrite store_rest by lia. cbn. unfold demo_number. destruct s0; [done|].
    unfold count. cbn [List.length]. by destruct (Z.eqb_spec (Z.of_nat (S (List.length s0))) 0); [lia|].
  - intros _ k row (v & l & -> & Hv)%part_same. exact Hv.
  - intros _ k row (v & l & -> & Hv)%part_same. cbn. lia.
  - intros t k Hne. cbn. destruct (decide _) as [E|]; [done|]. apply go_visits. by right.
  - intros t k He. cbn. destruct (decide _) as [E|Hn]; [by right|done].
Defined.

(** The second and third of the records with key 7 or 9 whose N is above 4. *)
Definition demo_request : table_v := TableV [] [] [80; 0] [[110; 0]; [73; 68; 0]].
Definition demo_cond : cond_v := CondV [[[55; 0]]; [[57; 0]]] 5 1 2 [FilterV [110; 0] 3 [52; 0]].
Definition demo_state : find_state := FindState (Stream demo_response [] false 0) 0 0 false EASY_OK.
Definition demo_mem : mem_table := MemTable [] [] 0.

Example demo_selected : selected tt demo_cond [1%nat] = [[Some 7; Some 5]; [Some 9; Some 20]].
Proof. vm_compute. reflexivity. Qed.

Lemma mem_alive (t : mem_table) : killed t = false.
Proof. done. Qed.

Lemma short_str s : bytes_ok s -> (List.length s < 100)%nat -> (exists s', s = s' ++ [0]) -> str_ok s.
Proof. intros Hb Hl He. split; [done|]. split; [lia|by right]. Qed.

Lemma demo_resolved : resolved tt demo_table demo_request demo_cond (IndexInfo [80] [[105; 100]]) [(1%nat, 3); (0%nat, 3)] [1%nat].
Proof.
  assert (forall s, s = [55; 0] \/ s = [57; 0] \/ s = [52; 0] \/ s = [110; 0] -> str_ok s) as Hstr.
  { intros s [->|[->|[->| ->]]]; (apply short_str; [unfold bytes_ok; repeat (constructor; [lia|]); constructor|cbn; lia|]);
      [by exists [55]|by exists [57]|by exists [52]|by exists [110]]. }
  split.
  - exists O. by vm_compute.
  - by vm_compute.
  - by vm_compute.
  - by vm_compute.
  - assert (forall s, s = [55; 0] \/ s = [57; 0] -> key_ok [s]) as Hkey.
    { intros s Hs. split; [done|]. split; [done|]. intros [|i] x Hx; [injection Hx as <-; apply Hstr; tauto|done]. }
    split; [|split; [done|split; [done|split; [done|split; [done|split; [|done]]]]]].
    + split; [done|]. intros [|[|i]] x Hx; [injection Hx as <-; apply Hkey; tauto|injection Hx as <-; apply Hkey; tauto|done].
    + split; [done|]. intros [|i] x Hx; [|done]. injection Hx as <-. split; [apply Hstr; tauto|]. split; [apply Hstr; tauto|]. done.
  - repeat (constructor; [done|]). constructor.
  - intros row Hr. vm_compute in Hr. apply list_elem_of_In in Hr. repeat (destruct Hr as [<-|Hr]; [done|]). done.
Qed.

Lemma do_get_spec_witness : exists t' p' s' out,
  do_get 0 (fun _ => 170) (fun _ => true) (fun _ => false) 8 20 (Some (Some demo_table)) true (fun _ => 4) true demo_mem demo_state
    EasyPool.demo_pool demo_request demo_cond = Some (EASY_OK, t', p', s') /\
  Forall2 (fun row o => project [(1%nat, 3); (0%nat, 3)] row = Some o) [[Some 7; Some 5]; [Some 9; Some 20]] out /\
  complete 28 7 0 (htonl_bytes 2 ++ [3; 3] ++ concat (map enc_row out)) (st p').
Proof.
  destruct (create_response_for_data 0 (fun _ => 170) 8 [(1%nat, 3); (0%nat, 3)] EasyPool.demo_pool (init_response demo_state))
    as [[[rc r1] s1]|] eqn:E; [|vm_compute in E; discriminate E].
  assert (rc = EASY_OK) as -> by (vm_compute in E; by injection E as <- _ _).
  destruct (do_get_spec 0 (fun _ => 170) (fun _ => true) mem_alive (fun _ => eq_refl) (fun _ => false) 8 demo_table demo_request demo_cond
    (IndexInfo [80] [[105; 100]]) [(1%nat, 3); (0%nat, 3)] [1%nat] 20 (fun _ => 4) demo_mem demo_state EasyPool.demo_pool r1 s1)
    as (rc & t' & p' & out & Edo & Hout & Hcase).
  - exact demo_resolved.
  - vm_compute. lia.
  - intros row v Hr Hv. vm_compute in Hr. apply list_elem_of_In in Hr. apply list_elem_of_In in Hv.
    repeat (destruct Hr as [<-|Hr]; [repeat (destruct Hv as [Hv|Hv]; [injection Hv as <- || discriminate Hv; vm_compute; reflexivity|]); done|]). done.
  - done.
  - done.
  - done.
  - done.
  - exact E.
  - destruct Hcase as [[-> Hc]|[_ (fs & f & _ & _ & Hcl & _)]]; [|discriminate Hcl].
    exists t', p', s1, out. split; [exact Edo|]. split; [exact Hout|exact Hc].
Defined.

Lemma do_count_spec_witness : exists t' p' s',
  do_count 0 (fun _ => 170) (fun _ => true) 20 (Some (Some demo_table)) true (fun _ => 4) true demo_mem demo_state
    EasyPool.demo_pool demo_request demo_cond = Some (EASY_OK, t', p', s') /\
  answers (init_response demo_state) [0; 0; 0; 1; 3; 0; 0; 0; 1; 50] (resp (st p')).
Proof.
  destruct (create_response_for_count 0 (fun _ => 170) EasyPool.demo_pool (init_response demo_state))
    as [[[rc r1] s1]|] eqn:E; [|vm_compute in E; discriminate E].
  assert (rc = EASY_OK) as -> by (vm_compute in E; by injection E as <- _ _).
  destruct (do_count_spec 0 (fun _ => 170) (fun _ => true) mem_alive (fun _ => eq_refl) demo_table demo_request demo_cond
    (IndexInfo [80] [[105; 100]]) [(1%nat, 3); (0%nat, 3)] [1%nat] 20 (fun _ => 4) demo_mem demo_state EasyPool.demo_pool r1 s1)
    as (t' & p' & Edo & Ha); [exact demo_resolved|vm_compute; lia|vm_compute; reflexivity|done|done|done|exact E|].
  exists t', p', s1. split; [exact Edo|exact Ha].
Defined.
End TdhsFind.
