(* ===== verification/TdhsEdit.v ===== *)
(** * Updating and deleting records

    What UPDATE and DELETE requests do to a table: the routine of TdhsFind with
    [update_record] and [delete_record], against what is to happen to each selected
    record.  The storage engine is the interface [Editor], an extension of [Cursor]:
    it edits the record at hand, and what is still to be read does not change, as long
    as an update leaves the record where it is in the index ([keeps_place]).  The last
    section is about an update of the key the routine walks along, in an index kept in
    order. *)

From Stdlib Require Import ZArith Lia.
From stdpp Require Import base list numbers option sets.
From S2P Require Import Prelude CString EasyPool TdhsDefine TdhsRead TdhsProtocol TdhsDecode TdhsFormat TdhsResponse TdhsTable TdhsFind.

Local Open Scope Z_scope.

Module TdhsEdit.
Import TdhsDefine TdhsRead TdhsProtocol TdhsFormat TdhsResponse TdhsTable TdhsFind.

Section edit.
Context {T K V : Type} `{Handler T K V} `{Fields V} {C : Type}.
Abbreviation row := (list (option V)).

(** ** The engine *)

(** The result of reading on from two positions. *)
Definition alike (follows : T -> T -> Prop) (x y : Z * T) : Prop :=
  fst x = fst y /\ (fst x = 0 -> record (snd x) = record (snd y)) /\ follows (snd x) (snd y).

(** Values of fields are stored as [put_text], [put_int] and [put_now] say, which may
    refuse; [put] and [drop_row] are what becomes of the table when a record is
    replaced or deleted, if [put_code] and [drop_code] are zero.  [original] is the
    record kept by store_record, and [follows] relates states from which reading goes
    on the same.  An update that [keeps_place] leaves the columns of the index walked
    along (and what else determines the record's place in it) as they were: the records
    still to be read are then the same, which an engine does not promise otherwise.
    Editing a record does not touch those of a key it does not have. *)
Class Editor `{!Cursor (T := T) (K := K) (V := V) C} := {
  original : T -> row;
  follows : T -> T -> Prop;
  put_text : row -> nat -> list Z -> Z * row;
  put_int : row -> nat -> Z -> Z * row;
  put_now : row -> nat -> Z * row;
  int_of : row -> nat -> Z;
  put_code : C -> row -> row -> Z; put : C -> row -> row -> C;
  drop_code : C -> row -> Z; drop_row : C -> row -> C;
  keeps_place : row -> row -> Prop;
  keeps_key : forall r new k, keeps_place r new -> same_key k new = same_key k r;
  put_others : forall σ r new k, keeps_place r new -> same_key k r = false -> live (equal (put σ r new) k) = live (equal σ k);
  put_length : forall σ r new k e, keeps_place r new -> (walk_length (put σ r new) k e <= walk_length σ k e)%nat;
  drop_others : forall σ r k, same_key k r = false -> live (equal (drop_row σ r) k) = live (equal σ k);
  drop_length : forall σ r k e, (walk_length (drop_row σ r) k e <= walk_length σ k e)%nat;
  follows_pre :: PreOrder follows;
  follows_next : forall t t', follows t t' -> alike follows (index_next t) (index_next t');
  follows_prev : forall t t', follows t t' -> alike follows (index_prev t) (index_prev t');
  follows_same : forall t t' k, follows t t' -> alike follows (index_next_same t k) (index_next_same t' k);
  follows_range : forall t t', follows t t' -> alike follows (read_range_next t) (read_range_next t');
  val_int_ok : forall t j, val_int t j = int_of (record t) j;
  stored_ok : forall t, let t' := store_record t in record t' = record t /\ original t' = record t /\ table t' = table t /\ follows t t';
  null_ok : forall t j, let t' := set_null t j in record t' = <[j := None]> (record t) /\ original t' = original t /\ table t' = table t /\ follows t t';
  text_ok : forall t j s, let x := field_store t j s in (fst x, record (snd x)) = put_text (record t) j s /\ original (snd x) = original t /\ table (snd x) = table t /\ follows t (snd x);
  int_ok : forall t j n, let x := field_store_int t j n in (fst x, record (snd x)) = put_int (record t) j n /\ original (snd x) = original t /\ table (snd x) = table t /\ follows t (snd x);
  now_ok : forall t j, let x := save_now t j in (fst x, record (snd x)) = put_now (record t) j /\ original (snd x) = original t /\ table (snd x) = table t /\ follows t (snd x);
  update_ok : forall t, let x := ha_update_row t in let code := put_code (table t) (original t) (record t) in
    fst x = code /\ table (snd x) = (if code =? 0 then put (table t) (original t) (record t) else table t) /\ (keeps_place (original t) (record t) -> follows t (snd x));
  delete_ok : forall t, let x := ha_delete_row t in let code := drop_code (table t) (record t) in
    fst x = code /\ table (snd x) = (if code =? 0 then drop_row (table t) (record t) else table t) /\ follows t (snd x) }.

Section editor.
Context `{Editor}.

(** A walk goes on the same from related states. *)
Lemma visits_alike (next : T -> Z * T) : (forall t t', follows t t' -> alike follows (next t) (next t')) -> forall l x y, alike follows x y -> visits next l x -> visits next l y.
Proof.
  intros Hn. induction l as [|[r|] l IH]; intros x y (E & Er & F) Hv; cbn [visits] in *; rewrite <- E; [done| |].
  - destruct Hv as (E0 & <- & Hv). split_and!; [done|by rewrite Er|by apply (IH (next (snd x))), Hv; apply Hn].
  - destruct Hv as (E0 & Hv). split; [done|]. by apply (IH (next (snd x))), Hv; apply Hn.
Qed.

Lemma follows_prev_same t t' k : follows t t' -> alike follows (index_prev_same t k) (index_prev_same t' k).
Proof.
  intros F. apply follows_prev in F as (E & Er & F). unfold index_prev_same. destruct (index_prev t) as [r u], (index_prev t') as [r' u']. cbn [fst snd] in *. subst r'.
  destruct (Z.eqb_spec r 0) as [->|]; split_and!; cbn [fst snd]; auto. by rewrite !cmp_same, Er.
Qed.

Lemma follows_walks c e t t' : follows t t' -> walks_on c e t t'.
Proof.
  intros F k l. apply visits_alike; [|]; intros; unfold read; repeat case_match; auto using follows_next, follows_prev, follows_same, follows_range, follows_prev_same.
Qed.

(** ** What happens to a record *)

Inductive outcome := Done (σ : C) | Same | Gone | Stopped (code : Z).

(** The new value of a field, as [update_record] computes it. *)
Definition edit_field (r : row) (j : nat) (x : value_v) : Z * row :=
  let n := if count (v_value x) =? 0 then 0 else atoll_text (v_value x) in
  if v_flag x =? 0 then if count (v_value x) =? 0 then (0, <[j := None]> r) else put_text r j (text (v_value x))
  else if v_flag x =? 1 then put_int r j (i64 (int_of r j + n))
  else if v_flag x =? 2 then put_int r j (i64 (int_of r j - n))
  else if v_flag x =? 3 then put_now r j
  else (0, r).

(** The new record, unless a field refuses its value. *)
Fixpoint edit_row (l : list (nat * value_v)) (r : row) : option row :=
  match l with
  | [] => Some r
  | (j, x) :: l => let '(rc, r) := edit_field r j x in if rc <? 0 then None else edit_row l r
  end.

Definition update_effect (l : list (nat * value_v)) (σ : C) (r : row) : outcome :=
  match edit_row l r with
  | None => Stopped FIELD_STORE_ERROR
  | Some new =>
      let code := put_code σ r new in
      if code =? 0 then Done (put σ r new) else if code =? HA_ERR_RECORD_IS_THE_SAME then Same else if code =? HA_ERR_RECORD_DELETED then Gone else Stopped code
  end.

Definition delete_effect (σ : C) (r : row) : outcome :=
  let code := drop_code σ r in if code =? 0 then Done (drop_row σ r) else if code =? HA_ERR_RECORD_DELETED then Gone else Stopped code.

(** The records one after the other: the table in the end, how many records were
    matched and changed, and the code that stopped it, or zero. *)
Fixpoint effects (eff : C -> row -> outcome) (rows : list row) (σ : C) : C * nat * nat * Z :=
  match rows with
  | [] => (σ, O, O, 0)
  | r :: rows =>
      match eff σ r with
      | Done σ => let '(σ, m, n, v) := effects eff rows σ in (σ, S m, S n, v)
      | Same => let '(σ, m, n, v) := effects eff rows σ in (σ, S m, n, v)
      | Gone => effects eff rows σ
      | Stopped v => (σ, O, O, v)
      end
  end.

(** When nothing is refused, every record is edited. *)
Lemma effects_all eff f rows : (forall σ r, r ∈ rows -> eff σ r = Done (f σ r)) -> forall σ, effects eff rows σ = (foldl f σ rows, List.length rows, List.length rows, 0).
Proof.
  induction rows as [|r rows IH]; intros Hf σ; [done|]. cbn [effects]. rewrite Hf by left. rewrite IH; [done|]. intros σ' r' Hr. apply Hf. by right.
Qed.

(** What the handler returns for an outcome, and the state after it. *)
Definition returned (o : outcome) (x : C * find_state) : Z * Z * (C * find_state) :=
  let '(σ, p) := x in
  match o with
  | Done σ => (EASY_OK, 0, (σ, changed 1 1 p))
  | Same => (EASY_OK, 0, (σ, FindState (st p) (u32 (update_row_num p + 1)) (change_row_num p) (modified p) (retcode p)))
  | Gone => (EASY_OK, HA_ERR_RECORD_DELETED, (σ, p))
  | Stopped v => (EASY_OK, v, (σ, p))
  end.
Definition meaning (eff : C -> row -> outcome) (r : row) (x : C * find_state) : option (Z * Z * (C * find_state)) := Some (returned (eff (fst x) r) x).

Lemma effects_few eff rows σ : let '(_, m, n, _) := effects eff rows σ in (n <= m <= List.length rows)%nat.
Proof.
  revert σ. induction rows as [|r rows IH]; intros σ; cbn [effects List.length]; [lia|].
  destruct (eff σ r) as [σ1| | |v]; [specialize (IH σ1)|specialize (IH σ)|specialize (IH σ)|]; try destruct (effects eff rows _) as [[[? ?] ?] ?]; lia.
Qed.
Lemma delete_counts rows : forall σ σ' m n v, effects delete_effect rows σ = (σ', m, n, v) -> m = n.
Proof.
  induction rows as [|r rows IH]; intros σ σ' m n v E; cbn [effects] in E; [by injection E as _ <- <- _|]. unfold delete_effect in E at 1.
  destruct (drop_code σ r =? 0); [|destruct (drop_code σ r =? HA_ERR_RECORD_DELETED); [by eapply IH|by injection E as _ <- <- _]].
  destruct (effects delete_effect rows (drop_row σ r)) as [[[? ?] ?] ?] eqn:E2. injection E as _ <- <- _. f_equal. by eapply IH.
Qed.

(** One field, and all. *)
Lemma update_field_ok t j x : let y := update_field t j x in
  (fst y, record (snd y)) = edit_field (record t) j x /\ original (snd y) = original t /\ table (snd y) = table t /\ follows t (snd y).
Proof.
  cbv zeta. unfold update_field, edit_field. rewrite !val_int_ok. set (n := if count (v_value x) =? 0 then 0 else atoll_text (v_value x)).
  destruct (v_flag x =? 0); [destruct (count (v_value x) =? 0); [|apply text_ok]|destruct (v_flag x =? 1); [apply int_ok|destruct (v_flag x =? 2); [apply int_ok|destruct (v_flag x =? 3); [apply now_ok|by split_and!]]]].
  cbn [fst snd]. by destruct (null_ok t j) as (-> & ?).
Qed.

Lemma update_fields_ok fields : forall vs t, (List.length fields <= List.length vs)%nat -> exists b t', update_fields t fields vs = Some (b, t') /\
  original t' = original t /\ table t' = table t /\ follows t t' /\ (if b then edit_row (zip (map fst fields) vs) (record t) = Some (record t') else edit_row (zip (map fst fields) vs) (record t) = None).
Proof.
  induction fields as [|[j ty] fields IH]; intros vs t Hl; [by exists true, t|]. destruct vs as [|x vs]; [cbn in Hl; lia|]. cbn [update_fields head mbind option_bind map fst zip zip_with edit_row tail].
  destruct (update_field_ok t j x) as (E & Eo & Et & F). destruct (update_field t j x) as [rc t1]. cbn [fst snd] in *. rewrite <- E. destruct (rc <? 0); [by exists false, t1|].
  destruct (IH vs t1 ltac:(cbn in Hl; lia)) as (b & t' & -> & Eo' & Et' & F' & Eb). exists b, t'. split_and!; [done|congruence|congruence|by etrans|done].
Qed.

(** The new values leave a record where it is. *)
Definition stays (l : list (nat * value_v)) (r : row) : Prop := forall new, edit_row l r = Some new -> keeps_place r new.

Lemma update_conforms vs fields c e : (List.length fields <= List.length vs)%nat -> let l := zip (map fst fields) vs in conforms (update_record vs fields) (meaning (update_effect l)) c e (stays l).
Proof.
  intros Hl l t p HQ. unfold l, stays, meaning, update_effect, update_record. cbn [fst returned]. destruct (stored_ok t) as (Er & Eo & Et & F). destruct (update_fields_ok fields vs (store_record t) Hl) as (b & t1 & -> & Eo1 & Et1 & F1 & Eb).
  rewrite Er in Eb. cbn [mbind option_bind]. assert (follows t t1) as F2 by (by etrans). destruct b; rewrite Eb; cbn [negb]; [|exists t1; split_and!; [done|congruence|by apply follows_walks]].
  destruct (update_ok t1) as (E2 & Et2 & F3). destruct (ha_update_row t1) as [ret t2]. cbn [fst snd] in *. assert (table t1 = table t) as Et' by congruence. assert (original t1 = record t) as Eo' by congruence. specialize (HQ _ Eb). rewrite Et', Eo', <- E2 in *. specialize (F3 HQ).
  assert (walks_on c e t t2) as W by (apply follows_walks; by etrans). destruct (Z.eqb_spec ret 0) as [->|N0]; [by exists t2|]. destruct (Z.eqb_spec ret HA_ERR_RECORD_IS_THE_SAME) as [->|N1]; [by exists t2|].
  destruct (Z.eqb_spec ret HA_ERR_RECORD_DELETED) as [->|N2]; by exists t2.
Qed.

Lemma delete_conforms c e : conforms delete_record (meaning delete_effect) c e (fun _ => True).
Proof.
  intros t p _. unfold meaning, delete_effect, delete_record. cbn [fst returned]. destruct (delete_ok t) as (E & Et & F). destruct (ha_delete_row t) as [ret t1]. cbn [fst snd] in *. rewrite <- E in *.
  pose proof (follows_walks c e _ _ F) as W. destruct (Z.eqb_spec ret 0) as [->|N0]; [by exists t1|]. destruct (Z.eqb_spec ret HA_ERR_RECORD_DELETED) as [->|N1]; by exists t1.
Qed.

(** No record has two of the keys of a request that looks up several. *)
Fixpoint apart (keys : list (list (list Z))) : Prop :=
  match keys with
  | [] => True
  | key :: keys => Forall (fun key' => forall r, same_key (key_of key) r = true -> same_key (key_of key') r = false) keys /\ apart keys
  end.

Lemma live_in (l : list (entry (V := V))) r : r ∈ live l -> Some r ∈ l.
Proof.
  induction l as [|[r'|] l IH]; [by intros ?%elem_of_nil| |]; rewrite ?live_some, ?live_none; intros Hr; [|right; by apply IH].
  apply elem_of_cons in Hr as [->|Hr]; [by left|right; by apply IH].
Qed.

Lemma effect_in_turn eff c e (Q : row -> Prop) :
  (forall σ r σ', eff σ r = Done σ' -> Q r -> forall k, (same_key k r = false -> live (equal σ' k) = live (equal σ k)) /\ (walk_length σ' k e <= walk_length σ k e)%nat) ->
  apart (used_keys c) -> in_turn (meaning eff) c e Q (used_keys c).
Proof.
  intros He Ha. destruct (Z.eqb_spec (c_flag c) TDHS_IN) as [Ec|Nc]; [|unfold used_keys; rewrite (proj2 (Z.eqb_neq _ _) Nc); by destruct (c_keys c)].
  induction (used_keys c) as [|key keys IH]; [done|]. destruct Ha as [Hk Ha]. split; [|by apply IH]. intros σ0 r Hr HQ. eapply list.Forall_impl; [exact Hk|]. intros key' Hd.
  unfold spares, matching. rewrite Ec in *. cbn in Hr |- *. apply live_in, equal_same, Hd in Hr. intros σ p rc db σ' p'. unfold meaning. cbn [fst]. destruct (eff σ r) as [σ1| | |v] eqn:E; cbn [returned]; intros [= _ _ <- _]; [|done..].
  destruct (He _ _ _ E HQ (key_of key')) as [E1 E2]. split; [by apply E1|done].
Qed.
Lemma update_in_turn l c e : apart (used_keys c) -> in_turn (meaning (update_effect l)) c e (stays l) (used_keys c).
Proof.
  apply effect_in_turn. intros σ r σ' E HQ k. unfold update_effect in E. destruct (edit_row l r) as [new|] eqn:En; [|done]. specialize (HQ _ En).
  destruct (put_code σ r new =? 0); [injection E as <-; split; [by apply put_others|by apply put_length]|]. by repeat case_match.
Qed.
Lemma delete_in_turn c e : apart (used_keys c) -> in_turn (meaning delete_effect) c e (fun _ => True) (used_keys c).
Proof.
  apply effect_in_turn. intros σ r σ' E _ k. unfold delete_effect in E.
  destruct (drop_code σ r =? 0); [injection E as <-; split; [apply drop_others|apply drop_length]|]. by repeat case_match.
Qed.

(** The outcome of a record does not stop with a code the loop ignores. *)
Definition stops_well (eff : C -> row -> outcome) : Prop := forall σ r v, eff σ r = Stopped v -> fine v = false.
Lemma update_stops_well l : stops_well (update_effect l).
Proof.
  intros σ r v. unfold update_effect, fine. destruct (edit_row l r); [|by intros [= <-]]. destruct (Z.eqb_spec (put_code σ r l0) 0); [done|]. destruct (put_code σ r l0 =? HA_ERR_RECORD_IS_THE_SAME); [done|].
  destruct (Z.eqb_spec (put_code σ r l0) HA_ERR_RECORD_DELETED); [done|]. intros [= <-]. by rewrite (proj2 (Z.eqb_neq _ _) n), (proj2 (Z.eqb_neq _ _) n0).
Qed.
Lemma delete_stops_well : stops_well delete_effect.
Proof.
  intros σ r v. unfold delete_effect, fine. destruct (Z.eqb_spec (drop_code σ r) 0); [done|]. destruct (Z.eqb_spec (drop_code σ r) HA_ERR_RECORD_DELETED); [done|].
  intros [= <-]. by rewrite (proj2 (Z.eqb_neq _ _) n), (proj2 (Z.eqb_neq _ _) n0).
Qed.

Lemma effects_stop eff (Hw : stops_well eff) rows : forall σ σ' m n v, effects eff rows σ = (σ', m, n, v) -> v = 0 \/ fine v = false.
Proof.
  induction rows as [|r rows IH]; intros σ σ' m n v E; cbn [effects] in E; [injection E; by left|]. destruct (eff σ r) as [σ1| | |v1] eqn:Ee.
  - destruct (effects eff rows σ1) as [[[? ?] ?] ?] eqn:E2. injection E as _ _ _ <-. by eapply IH.
  - destruct (effects eff rows σ) as [[[? ?] ?] ?] eqn:E2. injection E as _ _ _ <-. by eapply IH.
  - by eapply IH.
  - injection E as _ _ _ <-. right. by eapply Hw.
Qed.

(** The state of the request after [m] records were matched and [n] changed. *)
Definition counted (m n : nat) (p : find_state) : find_state :=
  FindState (st p) (update_row_num p + Z.of_nat m) (change_row_num p + Z.of_nat n) (modified p || (0 <? n)%nat) (retcode p).

Lemma feed_effects eff (Hw : stops_well eff) rows : forall σ p σ' m n v, effects eff rows σ = (σ', m, n, v) -> 0 <= update_row_num p -> 0 <= change_row_num p ->
  update_row_num p + Z.of_nat m < 2 ^ 32 -> change_row_num p + Z.of_nat n < 2 ^ 32 -> feed (meaning eff) rows (σ, p) = Some (EASY_OK, v, (σ', counted m n p)).
Proof.
  induction rows as [|r rows IH]; intros σ p σ' m n v E Hu Hc Hm Hn; cbn [effects feed] in *.
  - injection E as <- <- <- <-. unfold counted. rewrite !Z.add_0_r, orb_false_r. by destruct p.
  - change (meaning eff r (σ, p)) with (Some (returned (eff σ r) (σ, p))). destruct (eff σ r) as [σ1| | |v1] eqn:Ee; cbn [returned mbind option_bind].
    + destruct (effects eff rows σ1) as [[[σ2 m2] n2] v2] eqn:E2. injection E as <- <- <- <-. change (EASY_OK =? EASY_OK) with true. change (fine 0) with true. cbn [andb].
      rewrite (IH _ _ _ _ _ _ E2); unfold changed; cbn [update_row_num change_row_num]; rewrite ?wrapu_small by lia; [|lia..]. do 2 f_equal. unfold counted. cbn [st update_row_num change_row_num modified retcode].
      do 2 f_equal; [lia|lia|]. by rewrite orb_true_r.
    + destruct (effects eff rows σ) as [[[σ2 m2] n2] v2] eqn:E2. injection E as <- <- <- <-. change (EASY_OK =? EASY_OK) with true. change (fine 0) with true. cbn [andb].
      rewrite (IH _ _ _ _ _ _ E2); cbn [update_row_num change_row_num]; rewrite ?wrapu_small by lia; [|lia..]. do 2 f_equal. unfold counted. cbn [st update_row_num change_row_num modified retcode].
      do 2 f_equal. lia.
    + change (EASY_OK =? EASY_OK) with true. change (fine HA_ERR_RECORD_DELETED) with true. cbn [andb]. by apply IH.
    + injection E as <- <- <- <-. rewrite (Hw _ _ _ Ee), andb_false_r. unfold counted. rewrite !Z.add_0_r, orb_false_r. by destruct p.
Qed.

(** ** The requests *)

Section requests.
Context `{!FieldsLaws V} {S : Type} `{EasyPool.PoolOps S}.
Variables (pool_addr : Z) (fill : nat -> Z) (malloc : Z -> bool).
Hypotheses (never_killed : forall t, killed t = false) (malloc_ok : forall n, malloc n = true).

(** The answer of a statement that edits: two numbers in decimal, or the code that
    stopped it. *)
Definition edit_answer (p : find_state) (s1 : S) (x : option (answer (T := T) (S := S))) (σ : C) (m n : nat) (v : Z) : Prop :=
  exists t' p', table t' = σ /\ modified p' = modified p || (0 <? n)%nat /\
    if (v =? 0) || bool_decide (ended v) then
      x = Some (EASY_OK, t', p', s1) /\
      answers (init_response p) (TdhsResponse.columns MYSQL_TYPE_LONG 2 ++ enc_str (udec (Z.of_nat m)) ++ enc_str (udec (Z.of_nat n))) (resp (st p'))
    else x = fail pool_addr fill t' p' s1 CLIENT_STATUS_DB_ERROR v.

Lemma do_edit_ok process eff Q (Hw : stops_well eff) d rt c kinfo fields field_idx fuel key_length t p (s : S) r1 s1 σ m n v :
  resolved (table t) d rt c kinfo fields field_idx -> enough (table t) c fuel -> conforms (process fields) (meaning eff) c (range_end c) Q -> in_turn (meaning eff) c (range_end c) Q (used_keys c) -> Forall Q (selected (table t) c field_idx) ->
  update_row_num p = 0 -> change_row_num p = 0 -> word (seq_of p) -> word (rev_of p) ->
  create_response_for_update pool_addr fill s (init_response p) = Some (EASY_OK, r1, s1) ->
  effects eff (selected (table t) c field_idx) (table t) = (σ, m, n, v) -> Z.of_nat m < 2 ^ 31 -> Z.of_nat n < 2 ^ 31 ->
  edit_answer p s1 (do_find pool_addr fill malloc (fun _ => create_response_for_update pool_addr fill) process (Some end_update_record) fuel (Some (Some d)) true key_length true t p s rt c) σ m n v.
Proof.
  intros R Hfuel Hc Hin HQ Hu0 Hc0 Hseq Hrev Hcreate E Hm Hn. set (p1 := set_resp r1 (set_resp (init_response p) p)).
  assert (update_row_num p1 = 0 /\ change_row_num p1 = 0) as [Eu Ec] by done.
  pose proof (feed_effects eff Hw _ _ p1 _ _ _ _ E ltac:(lia) ltac:(lia) ltac:(lia) ltac:(lia)) as Hfeed.
  destruct (do_find_ok pool_addr fill malloc never_killed malloc_ok process (meaning eff) Q (fun _ => create_response_for_update pool_addr fill) (Some end_update_record) d rt c kinfo fields field_idx fuel key_length t p s r1 s1
    EASY_OK v σ (counted m n p1) R Hfuel Hc Hin HQ Hcreate Hfeed) as (t' & Et & Edo). change (EASY_OK =? EASY_OK) with true in Edo. cbv iota in Edo.
  destruct (numbers_ok pool_addr fill s (init_response p) 10 2 11 [udec (Z.of_nat m); udec (Z.of_nat n)]) as (rc & r' & s' & Er & Hcase); try done.
  { pose proof (udec_count (Z.of_nat m) 10 ltac:(lia) ltac:(lia) ltac:(lia)). pose proof (udec_count (Z.of_nat n) 10 ltac:(lia) ltac:(lia) ltac:(lia)). repeat constructor; lia. }
  unfold create_response_for_update in Hcreate. rewrite Hcreate in Er. injection Er as <- <- <-. destruct Hcase as [?|(_ & r2 & Ef & Ha)]; [done|].
  assert (end_update_record (counted m n p1) = Some (set_resp r2 (counted m n p1))) as Eend.
  { unfold end_update_record, write_update_ender_to_response, counted. cbn [update_row_num change_row_num st resp]. rewrite Eu, Ec, !Z.add_0_l, !sdec_udec by lia. cbn [p1 set_resp on_stream snd st resp] in *. cbn [foldr] in Ef.
    destruct (write_number 11 (udec (Z.of_nat m)) r1) as [r3|]; [|done]. cbn [mbind option_bind] in *. destruct (write_number 11 (udec (Z.of_nat n)) r3); [|done]. by injection Ef as ->. }
  cbn [map concat] in Ha. rewrite app_nil_r in Ha. rewrite Eend in Edo. cbn [mbind option_bind] in Edo. unfold edit_answer.
  destruct ((v =? 0) || bool_decide (ended v)) eqn:Ev.
  - exists t', (set_resp r2 (counted m n p1)). split_and!; [done|done| |exact Ha]. etrans; [exact Edo|]. destruct (fine v) eqn:Efv; [done|]. destruct (bool_decide (ended v)); [done|]. rewrite orb_false_r in Ev. unfold fine in Efv. by rewrite Ev in Efv.
  - exists t', (counted m n p1). split_and!; [done|done|]. etrans; [exact Edo|]. apply orb_false_iff in Ev as [Ev0 Ev1]. rewrite Ev1. apply Z.eqb_neq in Ev0. by destruct (effects_stop eff Hw _ _ _ _ _ _ E) as [?| ->].
Qed.

(** C5 (refinement).  An UPDATE request that is not killed, has memory for its buffers
    and its answer and selects fewer than 2^31 records, whose names are found, with a
    value for each field, whose new values leave every selected record at its place in the index
    walked along (an update of the columns of that index is excluded), and of whose
    keys, if it looks up several, no record has two: each of the records the condition
    selects is replaced by the record with the new values, in order, once; the answer
    says how many were matched and how many changed.  If a field or the engine refuses
    a record, that is the end: the answer is an error with the code, and the records
    before it stay changed. *)
Theorem do_update_spec vs d rt c kinfo fields field_idx fuel key_length t p (s : S) r1 s1 :
  resolved (table t) d rt c kinfo fields field_idx -> enough (table t) c fuel -> apart (used_keys c) -> (List.length fields <= List.length vs)%nat ->
  Forall (stays (zip (map fst fields) vs)) (selected (table t) c field_idx) ->
  update_row_num p = 0 -> change_row_num p = 0 -> word (seq_of p) -> word (rev_of p) -> count (selected (table t) c field_idx) < 2 ^ 31 ->
  create_response_for_update pool_addr fill s (init_response p) = Some (EASY_OK, r1, s1) ->
  let rows := selected (table t) c field_idx in let l := zip (map fst fields) vs in
  let x := do_update pool_addr fill malloc vs fuel (Some (Some d)) true key_length true t p s rt c in
  (exists σ m n v, effects (update_effect l) rows (table t) = (σ, m, n, v) /\ edit_answer p s1 x σ m n v) /\
  (forall new, (forall σ r, r ∈ rows -> edit_row l r = Some (new r) /\ put_code σ r (new r) = 0) ->
     edit_answer p s1 x (foldl (fun σ r => put σ r (new r)) (table t) rows) (List.length rows) (List.length rows) 0).
Proof.
  intros R Hfuel Hin Hl Hst Hu0 Hc0 Hseq Hrev Hcnt Hcreate rows l x.
  assert (forall σ m n v, effects (update_effect l) rows (table t) = (σ, m, n, v) -> edit_answer p s1 x σ m n v) as Hall.
  { intros σ m n v E. pose proof (effects_few (update_effect l) rows (table t)) as Hfew. rewrite E in Hfew. unfold count in Hcnt. fold rows in Hcnt.
    eapply (do_edit_ok (update_record vs) (update_effect l) (stays l) (update_stops_well l) d rt c kinfo fields field_idx); try done; [by apply update_conforms|by apply update_in_turn|lia|lia]. }
  split.
  - destruct (effects (update_effect l) rows (table t)) as [[[σ m] n] v] eqn:E. exists σ, m, n, v. split; [done|]. by apply Hall.
  - intros new Hnew. apply Hall, effects_all. intros σ r Hr. destruct (Hnew σ r Hr) as [E1 E2]. unfold update_effect. by rewrite E1, E2.
Qed.

(** C6 (refinement).  A DELETE request that is not killed, has memory for its buffers
    and its answer and selects fewer than 2^31 records, whose names are found, and of
    whose keys, if it looks up several (IN), no record has two: it deletes each of the records the
    condition selects, in order, once, until the engine refuses one, and answers with
    their number or with the code; records deleted before the refusal stay deleted. *)
Theorem do_delete_spec d rt c kinfo fields field_idx fuel key_length t p (s : S) r1 s1 :
  resolved (table t) d rt c kinfo fields field_idx -> enough (table t) c fuel -> apart (used_keys c) ->
  update_row_num p = 0 -> change_row_num p = 0 -> word (seq_of p) -> word (rev_of p) -> count (selected (table t) c field_idx) < 2 ^ 31 ->
  create_response_for_update pool_addr fill s (init_response p) = Some (EASY_OK, r1, s1) ->
  let rows := selected (table t) c field_idx in
  let x := do_delete pool_addr fill malloc fuel (Some (Some d)) true key_length true t p s rt c in
  (exists σ n v, effects delete_effect rows (table t) = (σ, n, n, v) /\ edit_answer p s1 x σ n n v) /\
  ((forall σ r, r ∈ rows -> drop_code σ r = 0) -> edit_answer p s1 x (foldl drop_row (table t) rows) (List.length rows) (List.length rows) 0).
Proof.
  intros R Hfuel Hin Hu0 Hc0 Hseq Hrev Hcnt Hcreate rows x.
  assert (forall σ m n v, effects delete_effect rows (table t) = (σ, m, n, v) -> edit_answer p s1 x σ m n v) as Hall.
  { intros σ m n v E. pose proof (effects_few delete_effect rows (table t)) as Hfew. rewrite E in Hfew. unfold count in Hcnt. fold rows in Hcnt.
    eapply (do_edit_ok (fun _ => delete_record) delete_effect (fun _ => True) delete_stops_well d rt c kinfo fields field_idx); try done; [by apply delete_conforms|by apply delete_in_turn|by apply list.Forall_forall|lia|lia]. }
  split.
  - destruct (effects delete_effect rows (table t)) as [[[σ m] n] v] eqn:E. assert (m = n) as -> by exact (delete_counts rows (table t) _ _ _ _ E). exists σ, n, v. split; [done|]. by apply Hall.
  - intros Hcode. apply Hall, effects_all. intros σ r Hr. unfold delete_effect. by rewrite Hcode.
Qed.
End requests.

End editor.
End edit.
(** ** A table in memory that keeps its place *)

(** The records of the table, those still to be read, the record at hand, the one
    kept, and the key stored. *)
Record desk := Desk { contents : list (list (option Z)); to_read : list (list (option Z)); at_hand : list (option Z); kept_row : list (option Z); key_stored : Z }.

Definition desk_set (r : list (option Z)) (t : desk) : desk := Desk (contents t) (to_read t) r (kept_row t) (key_stored t).
Definition desk_table (l : list (list (option Z))) (t : desk) : desk := Desk l (to_read t) (at_hand t) (kept_row t) (key_stored t).
Definition desk_read (l : list (list (option Z))) (t : desk) : Z * desk :=
  match l with [] => (HA_ERR_END_OF_FILE, Desk (contents t) [] (at_hand t) (kept_row t) (key_stored t)) | r :: l => (0, Desk (contents t) l r (kept_row t) (key_stored t)) end.
Definition desk_next (t : desk) : Z * desk := desk_read (to_read t) t.

Definition with_key (P : Z -> bool) (l : list (list (option Z))) : list (list (option Z)) := List.filter (fun r => match r with Some v :: _ => P v | _ => false end) l.
Fixpoint replace_first (old : list (option Z)) (new : option (list (option Z))) (l : list (list (option Z))) : list (list (option Z)) :=
  match l with [] => [] | r :: l => if decide (r = old) then from_option (fun r => [r]) [] new ++ l else r :: replace_first old new l end.

(** A text that starts with ['!'] is refused. *)
Definition cell_text (r : list (option Z)) (j : nat) (s : list Z) : Z * list (option Z) := match s with 33 :: _ => (-1, r) | _ => (0, <[j := Some (digits_val 0 s)]> r) end.
Definition cell_int (r : list (option Z)) (j : nat) (n : Z) : Z * list (option Z) := (0, <[j := Some n]> r).
Definition cell_value (r : list (option Z)) (j : nat) : Z := match r !! j with Some (Some v) => v | _ => 0 end.
Definition row_code (old new : list (option Z)) : Z := if decide (old = new) then HA_ERR_RECORD_IS_THE_SAME else 0.

#[export] Instance desk_handler : Handler desk Z Z := {
  store_key_part t i s := match i with O => Desk (contents t) (to_read t) (at_hand t) (kept_row t) (digits_val 0 (default [] s)) | _ => t end;
  key_copy t n := match n with O => 0 | _ => key_stored t end;
  index_read_map t k f := desk_read match f with
    | HA_READ_KEY_EXACT => with_key (fun x => x =? k) (contents t)
    | HA_READ_KEY_OR_NEXT => with_key (fun x => x =? k) (contents t) ++ with_key (fun x => k <? x) (contents t)
    | HA_READ_AFTER_KEY => with_key (fun x => k <? x) (contents t)
    | HA_READ_KEY_OR_PREV => rev (with_key (fun x => x <? k) (contents t) ++ with_key (fun x => x =? k) (contents t))
    | HA_READ_BEFORE_KEY => rev (with_key (fun x => x <? k) (contents t)) end t;
  index_read_last_map t k := desk_read (if decide (with_key (fun x => x =? k) (contents t) = []) then [] else rev (with_key (fun x => x <? k) (contents t) ++ with_key (fun x => x =? k) (contents t))) t;
  read_range_first t k e := desk_read (with_key (fun x => (k <=? x) && (x <=? e)) (contents t)) t;
  read_range_next := desk_next; index_prev := desk_next; index_next := desk_next; index_next_same t _ := desk_next t;
  key_cmp_if_same t k := demo_same k (at_hand t);
  record := at_hand; killed _ := false; val_str := udec; val_int t j := cell_value (at_hand t) j;
  store_record t := Desk (contents t) (to_read t) (at_hand t) (at_hand t) (key_stored t);
  set_null t j := desk_set (<[j := None]> (at_hand t)) t;
  field_store t j s := let '(rc, r) := cell_text (at_hand t) j s in (rc, desk_set r t);
  field_store_int t j n := let '(rc, r) := cell_int (at_hand t) j n in (rc, desk_set r t);
  save_now t j := let '(rc, r) := cell_int (at_hand t) j 0 in (rc, desk_set r t);
  ha_update_row t := let code := row_code (kept_row t) (at_hand t) in (code, if code =? 0 then desk_table (replace_first (kept_row t) (Some (at_hand t)) (contents t)) t else t);
  ha_delete_row t := (0, desk_table (replace_first (at_hand t) None (contents t)) t) }.

Definition entries (l : list (list (option Z))) : list (entry (V := Z)) := map Some l.

Lemma desk_visits l : forall t, visits (V := Z) desk_next (entries l) (desk_read l t).
Proof. induction l as [|r l IH]; intros t; [by left|]. cbn. split_and!; [done|done|apply IH]. Qed.
Lemma entries_app l l' : entries (l ++ l') = entries l ++ entries l'.
Proof. apply map_app. Qed.
Lemma entries_rev l : entries (rev l) = rev (entries l).
Proof. apply map_rev. Qed.
Lemma entries_with_key P l r : Some r ∈ entries (with_key P l) -> exists v r', r = Some v :: r' /\ P v = true.
Proof.
  intros Hr. apply list_elem_of_In, in_map_iff in Hr as (r' & [= ->] & Hin). apply filter_In in Hin as [_ Hp]. destruct r as [|[v|] r]; [done| |done]. by exists v, r.
Qed.
Lemma desk_parts key : forall t i, (0 < i)%nat -> store_parts (T := desk) t i key = t.
Proof. induction key as [|s key IH]; intros t i Hi; [done|]. cbn [store_parts store_key_part desk_handler]. destruct i; [lia|]. apply IH. lia. Qed.
Lemma desk_read_table l t : contents (snd (desk_read l t)) = contents t.
Proof. by destruct l. Qed.

#[export] Instance desk_cursor : Cursor (T := desk) (K := Z) (V := Z) (list (list (option Z))).
Proof.
  refine {| table := contents; below σ k := entries (with_key (fun x => x <? k) σ); equal σ k := entries (with_key (fun x => x =? k) σ); above σ k := entries (with_key (fun x => k <? x) σ);
    within σ k e := entries (with_key (fun x => (k <=? x) && (x <=? e)) σ); key_of := demo_number; same_key := demo_same |}.
  all: try (intros; apply desk_read_table).
  all: try (intros; rewrite <- ?entries_app, <- ?entries_rev; apply desk_visits).
  - intros t [|s key]; [done|]. cbn [store_parts List.length]. rewrite desk_parts by lia. cbn. unfold demo_number. destruct s; [done|].
    unfold count. cbn [List.length]. by destruct (Z.eqb_spec (Z.of_nat (S (List.length s))) 0); [lia|].
  - done.
  - intros σ k r (v & r' & -> & Hv)%entries_with_key. exact Hv.
  - intros σ k r (v & r' & -> & Hv)%entries_with_key. cbn. lia.
  - intros t k Hne. rewrite <- entries_app, <- entries_rev. cbn. destruct (decide _) as [E|]; [by rewrite E in Hne|]. apply desk_visits.
  - intros t k He. cbn. destruct (decide _) as [E|Hn]; [by left|]. destruct Hn. by apply map_eq_nil in He.
  - intros t [|i] s; done.
Defined.

Lemma with_key_replace P old new l : head new = head old -> (List.length (with_key P (replace_first old (Some new) l)) = List.length (with_key P l)) /\
  (match old with Some v :: _ => P v = false | _ => True end -> with_key P (replace_first old (Some new) l) = with_key P l).
Proof.
  intros Hh. induction l as [|r l [IH1 IH2]]; [done|]. cbn [replace_first]. destruct (decide (r = old)) as [->|]; cbn [from_option app with_key List.filter].
  - destruct old as [|[v|] old], new as [|[v'|] new]; try done. injection Hh as ->. split; [by destruct (P v)|]. by intros ->.
  - fold (with_key P (replace_first old (Some new) l)) (with_key P l). destruct (match r with Some v :: _ => P v | _ => false end); cbn [List.length]; (split; [by rewrite ?IH1|]); intros Ho; by rewrite IH2.
Qed.
Lemma with_key_remove P old l : (List.length (with_key P (replace_first old None l)) <= List.length (with_key P l))%nat /\
  (match old with Some v :: _ => P v = false | _ => True end -> with_key P (replace_first old None l) = with_key P l).
Proof.
  induction l as [|r l [IH1 IH2]]; [done|]. cbn [replace_first]. destruct (decide (r = old)) as [->|]; cbn [from_option app with_key List.filter].
  - fold (with_key P l). destruct old as [|[v|] old]; [done| |done]. split; [destruct (P v); cbn [List.length]; lia|]. by intros ->.
  - fold (with_key P (replace_first old None l)) (with_key P l). destruct (match r with Some v :: _ => P v | _ => false end); cbn [List.length]; (split; [lia|]); intros Ho; by rewrite IH2.
Qed.
Lemma demo_same_false k r : demo_same k r = false -> match r with Some v :: _ => (v =? k) = false | _ => True end.
Proof. by destruct r as [|[v|] r]. Qed.

#[export] Instance desk_editor : Editor (T := desk) (K := Z) (V := Z) (C := list (list (option Z))).
Proof.
  assert (forall t t', to_read t = to_read t' -> fst (desk_next t) = fst (desk_next t') /\ (fst (desk_next t) = 0 -> at_hand (snd (desk_next t)) = at_hand (snd (desk_next t'))) /\ to_read (snd (desk_next t)) = to_read (snd (desk_next t'))) as Hn.
  { intros t t' E. unfold desk_next. rewrite <- E. by destruct (to_read t). }
  refine {| original := kept_row; follows t t' := to_read t = to_read t'; put_text := cell_text; put_int := cell_int; put_now r j := cell_int r j 0; int_of := cell_value;
    put_code _ := row_code; put σ old new := replace_first old (Some new) σ; drop_code _ _ := 0; drop_row σ r := replace_first r None σ; keeps_place r new := head new = head r |}.
  all: try (intros; by apply Hn). all: try done.
  - intros r new k E. cbn. destruct r as [|? r], new as [|? new]; try done. by injection E as ->.
  - intros σ r new k E Hk. cbn. by rewrite (proj2 (with_key_replace _ r new σ E) (demo_same_false _ _ Hk)).
  - intros σ r new k e E. unfold walk_length. cbn. unfold entries. by rewrite !length_map, !(proj1 (with_key_replace _ r new σ E)).
  - intros σ r k Hk. cbn. by rewrite (proj2 (with_key_remove _ r σ) (demo_same_false _ _ Hk)).
  - intros σ r k e. unfold walk_length. cbn. unfold entries. rewrite !length_map. repeat apply Nat.add_le_mono; apply with_key_remove.
  - split; [by intros t|by intros t t' t'' -> ->].
  - intros t j s. cbn. by destruct (cell_text (at_hand t) j s).
  - intros t. cbn. by destruct (row_code (kept_row t) (at_hand t) =? 0).
Defined.

(** The second and third of the records with a key from 7 on whose N is above 4. *)
Definition edit_rows : list (list (option Z)) := [[Some 7; Some 13]; [Some 7; Some 5]; [Some 7; Some 4]; [Some 8; Some 40]; [Some 9; None]].
Definition edit_desk : desk := Desk edit_rows [] [] [] 0.
Definition edit_request : table_v := TableV [] [] [80; 0] [[110; 0]].
Definition edit_cond : cond_v := CondV [[[55; 0]]] 1 1 2 [FilterV [110; 0] 3 [52; 0]].
(** The same, of the records with key 7 or 8. *)
Definition in_cond : cond_v := CondV [[[55; 0]]; [[56; 0]]] TDHS_IN 1 2 [FilterV [110; 0] 3 [52; 0]].
Definition add_one : list value_v := [ValueV 1 [49; 0]].

Example edit_selected : selected edit_rows edit_cond [1%nat] = [[Some 7; Some 5]; [Some 8; Some 40]].
Proof. vm_compute. reflexivity. Qed.

Lemma edit_resolved c : c = edit_cond \/ c = in_cond -> resolved (T := desk) edit_rows demo_table edit_request c (IndexInfo [80] [[105; 100]]) [(1%nat, 3)] [1%nat].
Proof.
  assert (forall s, s ∈ [[55; 0]; [56; 0]; [52; 0]; [110; 0]] -> str_ok s) as Hstr.
  { intros s Hs. apply list_elem_of_In in Hs. repeat (destruct Hs as [<-|Hs]; [apply short_str; [unfold bytes_ok; repeat (constructor; [lia|]); constructor|cbn; lia|by eexists [_]]|]). done. }
  assert (forall s, s ∈ [[55; 0]; [56; 0]] -> key_ok [s]) as Hkey.
  { intros s Hs. split; [done|]. split; [done|]. intros [|i] x Hx; [injection Hx as <-; apply Hstr; set_solver|done]. }
  assert (all_ok filter_ok (c_filters edit_cond)) as Hf.
  { split; [done|]. intros [|i] x Hx; [|done]. injection Hx as <-. split; [apply Hstr; set_solver|]. split; [apply Hstr; set_solver|]. done. }
  intros Hc.
  split.
  - exists O. by vm_compute.
  - by vm_compute.
  - by destruct Hc as [->| ->]; vm_compute.
  - by destruct Hc as [->| ->]; vm_compute.
  - destruct Hc as [->| ->]; (split; [split; [done|]|done]); intros i x Hx; repeat (destruct i as [|i]; [injection Hx as <-; apply Hkey; set_solver|]); done.
  - destruct Hc as [->| ->]; repeat (constructor; [done|]); constructor.
  - intros row Hr. assert (row ∈ edit_rows) as Hr' by (destruct Hc as [->| ->]; vm_compute in Hr; set_solver). clear Hr. apply list_elem_of_In in Hr'. repeat (destruct Hr' as [<-|Hr']; [done|]). done.
Qed.

Lemma desk_alive (t : desk) : killed t = false.
Proof. done. Qed.

Definition made : response * (EasyPool.slots * EasyPool.easy_pool_t) := Eval vm_compute in match create_response_for_update 0 (fun _ => 170) EasyPool.demo_pool (init_response demo_state) with Some (_, r, s) => (r, s) | None => (resp (st demo_state), EasyPool.demo_pool) end.

Lemma edit_stays : Forall (stays (zip (map fst [(1%nat, 3)]) add_one)) (selected edit_rows edit_cond [1%nat]).
Proof. rewrite edit_selected. repeat constructor; intros new E; vm_compute in E; by injection E as <-. Qed.
Lemma in_apart : apart (T := desk) (used_keys in_cond).
Proof.
  split; [|by repeat constructor]. constructor; [|constructor]. intros r. change (key_of [[55; 0]]) with 7. change (key_of [[56; 0]]) with 8. cbn. destruct r as [|[v|] r]; cbn; try done. lia.
Qed.

(** N goes up by one in the two records, and nothing else changes. *)
Lemma do_update_spec_witness : edit_answer 0 (fun _ => 170) demo_state (snd made)
  (do_update 0 (fun _ => 170) (fun _ => true) add_one 20 (Some (Some demo_table)) true (fun _ => 4) true edit_desk demo_state EasyPool.demo_pool edit_request edit_cond)
  [[Some 7; Some 13]; [Some 7; Some 6]; [Some 7; Some 4]; [Some 8; Some 41]; [Some 9; None]] 2 2 0.
Proof.
  destruct (do_update_spec 0 (fun _ => 170) (fun _ => true) desk_alive (fun _ => eq_refl) add_one demo_table edit_request edit_cond (IndexInfo [80] [[105; 100]]) [(1%nat, 3)] [1%nat] 20 (fun _ => 4)
    edit_desk demo_state EasyPool.demo_pool (fst made) (snd made)) as [(σ & m & n & v & E & Ha) _];
    [apply edit_resolved; by left|vm_compute; lia|by split|done|exact edit_stays|done|done|done|done|vm_compute; reflexivity|vm_compute; reflexivity|].
  vm_compute in E. injection E as <- <- <- <-. exact Ha.
Defined.

(** Two records are deleted, of two keys. *)
Lemma do_delete_spec_witness : edit_answer 0 (fun _ => 170) demo_state (snd made)
  (do_delete 0 (fun _ => 170) (fun _ => true) 20 (Some (Some demo_table)) true (fun _ => 4) true edit_desk demo_state EasyPool.demo_pool edit_request in_cond)
  [[Some 7; Some 13]; [Some 7; Some 4]; [Some 9; None]] 2 2 0.
Proof.
  destruct (do_delete_spec 0 (fun _ => 170) (fun _ => true) desk_alive (fun _ => eq_refl) demo_table edit_request in_cond (IndexInfo [80] [[105; 100]]) [(1%nat, 3)] [1%nat] 20 (fun _ => 4)
    edit_desk demo_state EasyPool.demo_pool (fst made) (snd made)) as [(σ & n & v & E & Ha) _];
    [apply edit_resolved; by right|vm_compute; lia|exact in_apart|done|done|done|done|vm_compute; reflexivity|vm_compute; reflexivity|].
  vm_compute in E. injection E as <- <- _ <-. exact Ha.
Defined.

(** ** A table whose index is kept in order *)

(** The keys in the index, the key last read, that of the record at hand and that of
    the one kept.  Reading on goes to the least key above the one last read, as the
    index is now. *)
Record ordered := Ordered { index : list Z; last_read : Z; hand : Z; kept_key : Z }.

Definition least (P : Z -> bool) (l : list Z) : option Z := foldr (fun x m => if P x then Some (from_option (Z.min x) x m) else m) None l.
Definition go_to (P : Z -> bool) (t : ordered) : Z * ordered :=
  match least P (index t) with Some x => (0, Ordered (index t) x x (kept_key t)) | None => (HA_ERR_END_OF_FILE, t) end.
Definition rekey (old new : Z) (l : list Z) : list Z := map (fun x => if x =? old then new else x) l.

#[export] Instance ordered_handler : Handler ordered Z Z := {
  store_key_part t _ _ := t; key_copy _ _ := 0;
  index_read_map t k _ := go_to (fun x => k <=? x) t; index_read_last_map t k := go_to (fun x => k <=? x) t;
  read_range_first t k e := go_to (fun x => (k <=? x) && (x <=? e)) t; read_range_next t := go_to (fun x => last_read t <? x) t;
  index_prev t := (HA_ERR_END_OF_FILE, t); index_next t := go_to (fun x => last_read t <? x) t; index_next_same t _ := (HA_ERR_END_OF_FILE, t);
  key_cmp_if_same t k := hand t =? k; record t := [Some (hand t)]; killed _ := false; val_str := udec; val_int t _ := hand t;
  store_record t := Ordered (index t) (last_read t) (hand t) (hand t);
  set_null t _ := t; field_store t _ _ := (0, t); field_store_int t _ n := (0, Ordered (index t) (last_read t) n (kept_key t)); save_now t _ := (0, t);
  ha_update_row t := (0, Ordered (rekey (kept_key t) (hand t) (index t)) (last_read t) (hand t) (kept_key t));
  ha_delete_row t := (0, Ordered (List.filter (fun x => negb (x =? hand t)) (index t)) (last_read t) (hand t) (kept_key t)) }.

(** UPDATE t SET id = id + 1 WHERE id >= k LIMIT [n], without a limit for 0. *)
Definition from_cond (n : Z) : cond_v := CondV [] TDHS_GE 0 n [].
Abbreviation chase n := (scan_loop (update_record (T := ordered) add_one [(0%nat, 3)]) (from_cond n) [] [] (IndexInfo [] []) 0).

Lemma chase_step n fuel r v (t : ordered) p first k left : index t = [v] -> (if first : bool then k <= v else last_read t < v) -> 0 <= v < 2 ^ 62 -> n = 0 \/ 0 < left < 2 ^ 32 ->
  chase n (S fuel) r (Scan t p first 0 k left 0) = chase n fuel 0 (Scan (Ordered [v + 1] v (v + 1) v) (changed 1 1 p) false 0 k (if n =? 0 then left else left - 1) 0).
Proof.
  intros Et Hk Hv Hn. destruct t as [ix lr h kk]. cbn [index last_read] in *. subst ix. cbn [scan_loop tbl acc is_first in_index key_buf limit skip]. unfold is_unlimited. cbn [c_limit from_cond].
  assert (negb ((n =? 0) || negb (left =? 0)) = false) as ->. { destruct Hn as [->|Hl]; [done|]. destruct (Z.eqb_spec left 0); [lia|]. by rewrite orb_true_r. }
  change (killed _) with false. cbv iota. assert (read (from_cond n) 0 first (Ordered [v] lr h kk) k = (0, Ordered [v] v v kk)) as ->.
  { unfold read. destruct first; cbn; unfold go_to; cbn [index least foldr]; [destruct (Z.leb_spec k v); [done|lia]|destruct (Z.ltb_spec lr v); [done|lia]]. }
  cbn [negb andb]. change (0 =? 0) with true. change (0 =? HA_ERR_RECORD_DELETED) with false. cbn [negb andb c_filters from_cond]. change (0 <? count []) with false. cbv iota. cbn [mbind option_bind negb].
  assert (update_record (T := ordered) add_one [(0%nat, 3)] (Ordered [v] v v kk) p = Some (EASY_OK, 0, Ordered [v + 1] v (v + 1) v, changed 1 1 p)) as ->.
  { unfold update_record, update_fields, update_field. cbn [store_record ordered_handler hand last_read index head mbind option_bind add_one v_flag v_value]. change (1 =? 0) with false. change (1 =? 1) with true. cbv iota.
    change (count [49; 0] =? 0) with false. cbv iota. change (atoll_text [49; 0]) with 1. cbn [val_int field_store_int ordered_handler hand index last_read kept_key fst snd]. change (0 <? 0) with false. cbv iota. cbn [negb ha_update_row ordered_handler hand kept_key index last_read rekey map].
    rewrite wraps_small by lia. cbn [mbind option_bind negb index hand kept_key last_read rekey map]. by rewrite !Z.eqb_refl. }
  cbn [mbind option_bind]. change (EASY_OK =? EASY_OK) with true. cbn [negb andb]. f_equal. f_equal. rewrite andb_true_r. destruct (Z.eqb_spec n 0) as [->|]; [done|]. cbn [negb]. by rewrite wrapu_small by lia.
Qed.



End TdhsEdit.
