(* ===== verification/TdhsContext.v ===== *)
(** * TDHSocket/tdh_socket_dbcontext.cpp and tdh_socket_request_thread.cpp: open
    tables, locks, transactions and batches

    A worker thread owns a database context.  It takes the requests that wait,
    opens the tables they name, locks them, executes the requests, commits or
    rolls back, and keeps the tables for the next round.  The MySQL session is an
    interface; a chain of packets (a request, or a batch and its parts) is the list
    of its packets, each with its decoded request and its response.  [None] is a
    step outside the objects the code has. *)

From Stdlib Require Import ZArith Lia.
From stdpp Require Import base list numbers option.
From S2P Require Import Prelude CString EasyHash EasyPool TdhsDefine TdhsRead TdhsProtocol TdhsFormat TdhsResponse TdhsTable TdhsFind.

Local Open Scope Z_scope.

Module TdhsContext.
Import TdhsDefine TdhsRead TdhsProtocol TdhsFormat TdhsResponse TdhsTable TdhsFind.

(** ** The server *)

Definition SQLCOM_SELECT : Z := 0.
Definition SQLCOM_UPDATE : Z := 4.
Definition SQLCOM_INSERT : Z := 5.
Definition SQLCOM_DELETE : Z := 7.

(** What a session ([D]) does: an open table is a number, with its names, its
    description and the state of its handler ([T]). *)
Class Server (D T : Type) := {
  open_table_in : D -> list Z -> list Z -> bool -> option nat * D;
  close_thread_tables : D -> D;
  table_names : D -> nat -> list Z * list Z;
  describe : D -> nat -> table_desc;
  index_key_length : D -> nat -> nat -> Z;
  handler_of : D -> nat -> T;
  put_handler : D -> nat -> T -> D;
  mysql_lock_tables : D -> list nat -> bool * D;
  mysql_unlock_tables : D -> D;
  row_binlog : D -> D;
  invalidate : D -> nat -> D;
  trans_commit_stmt : D -> bool * D;
  trans_rollback_stmt : D -> D;
  set_command : D -> Z -> D;
  not_killed : D -> D;
  clear_error : D -> D }.

(** What an insertion needs of a handler besides storing fields. *)
Class Writer (T : Type) := {
  empty_record : T -> T;
  clear_null_flags : T -> T;
  next_number_field : T -> bool -> T;
  start_stmt : T -> T;
  ha_write_row : T -> Z * T;
  insert_id : T -> Z }.

(** ** The tables that are open *)

Record opened_table_t := Opened { mysql_table : option nat; is_modified : bool }.
(** An [opened_table_t]: of the array for cached tables, or of the pool. *)
Inductive obj := CachedObj (i : nat) | PoolObj (i : nat).
#[export] Instance obj_eq : EqDecision obj.
Proof. solve_decision. Defined.

(** [hash]: the entries of the hash table, the newest first (EasyHash). *)
Record table_cache := Cache {
  hash : list (obj * Z); cached_table : list (option nat * Z); for_cached : list opened_table_t;
  pool_objs : option (list opened_table_t); already_cached : nat; opened_num : nat; last_opened : nat;
  need_lock : list nat; need_close : bool }.

Definition DBCONTEXT_MAX_CACHE_LOCK_TABLES : nat := 128.
Definition hash_size : Z := 16.

Definition set_hash v c := Cache v (cached_table c) (for_cached c) (pool_objs c) (already_cached c) (opened_num c) (last_opened c) (need_lock c) (need_close c).
Definition set_cached v c := Cache (hash c) v (for_cached c) (pool_objs c) (already_cached c) (opened_num c) (last_opened c) (need_lock c) (need_close c).
Definition set_for_cached v c := Cache (hash c) (cached_table c) v (pool_objs c) (already_cached c) (opened_num c) (last_opened c) (need_lock c) (need_close c).
Definition set_pool_objs v c := Cache (hash c) (cached_table c) (for_cached c) v (already_cached c) (opened_num c) (last_opened c) (need_lock c) (need_close c).
Definition set_already_cached v c := Cache (hash c) (cached_table c) (for_cached c) (pool_objs c) v (opened_num c) (last_opened c) (need_lock c) (need_close c).
Definition set_opened_num v c := Cache (hash c) (cached_table c) (for_cached c) (pool_objs c) (already_cached c) v (last_opened c) (need_lock c) (need_close c).
Definition set_last_opened v c := Cache (hash c) (cached_table c) (for_cached c) (pool_objs c) (already_cached c) (opened_num c) v (need_lock c) (need_close c).
Definition set_need_lock v c := Cache (hash c) (cached_table c) (for_cached c) (pool_objs c) (already_cached c) (opened_num c) (last_opened c) v (need_close c).
Definition set_need_close v c := Cache (hash c) (cached_table c) (for_cached c) (pool_objs c) (already_cached c) (opened_num c) (last_opened c) (need_lock c) v.

Definition lookup_obj (c : table_cache) (o : obj) : option opened_table_t :=
  match o with CachedObj i => for_cached c !! i | PoolObj i => pool_objs c ≫= fun l => l !! i end.
Definition alter_obj (f : opened_table_t -> opened_table_t) (c : table_cache) (o : obj) : table_cache :=
  match o with
  | CachedObj i => set_for_cached (alter f i (for_cached c)) c
  | PoolObj i => set_pool_objs (option_map (alter f i) (pool_objs c)) c
  end.

(** A table is put into the hash table and into the array of tables to lock. *)
Definition add_opened (o : obj) (key : Z) (t : nat) (c : table_cache) : table_cache :=
  let c := set_hash ((o, key) :: hash c) c in
  let c := if (opened_num c <? DBCONTEXT_MAX_CACHE_LOCK_TABLES)%nat
           then set_need_lock (take (opened_num c) (need_lock c) ++ [t]) c else c in
  set_opened_num (S (opened_num c)) c.

(** [strncmp(a, b, n) == 0] for strings of at least [n] bytes. *)
Fixpoint strncmp_eq (n : nat) (a b : list Z) : bool :=
  match n, a, b with
  | O, _, _ => true
  | S n, x :: a, y :: b => (x =? y) && ((x =? 0) || strncmp_eq n a b)
  | _, _, _ => false
  end.

(** [easy_hash_for_each]: bucket after bucket. *)
Definition for_each (c : table_cache) : list (obj * Z) :=
  concat (map (fun i => List.filter (fun e => EasyHash.bucket_of (hash_size - 1) (snd e) =? Z.of_nat i) (hash c))
              (seq 0 (Z.to_nat hash_size))).

Section context.
Context {D T : Type} `{Server D T}.

Definition compare_table_info (d : D) (rt : table_v) (t : nat) : bool :=
  let '(db, name) := table_names d t in
  (List.length (text (t_db rt)) =? List.length db)%nat && (List.length (text (t_table rt)) =? List.length name)%nat &&
  strncmp_eq (List.length db) (t_db rt) db && strncmp_eq (List.length name) (t_table rt) name.

(** [easy_hash_find_ex]. *)
Fixpoint find_ex (d : D) (c : table_cache) (key : Z) (rt : table_v) (l : list (obj * Z)) : option (option obj) :=
  match l with
  | [] => Some None
  | (o, k) :: l =>
      if k =? key then
        x ← lookup_obj c o;
        t ← mysql_table x;
        if compare_table_info d rt t then Some (Some o) else find_ex d c key rt l
      else find_ex d c key rt l
  end.

(** The cached tables, from number [i] on, are put back. *)
Fixpoint reuse_cached (n i : nat) (d : D) (c : table_cache) : option table_cache :=
  match n with
  | O => Some c
  | S n =>
      x ← cached_table c !! i;
      c ← match x with
          | (None, _) => Some c
          | (Some t, h) =>
              _ ← for_cached c !! i;
              let c := alter_obj (fun o => Opened (Some t) (is_modified o)) c (CachedObj i) in
              key ← (if 0 <? h then Some h
                     else let '(db, name) := table_names d t in make_hash_code_for_table db name);
              let c := add_opened (CachedObj i) key t c in
              Some (set_cached (<[i := (None, 0)]> (cached_table c)) c)
          end;
      reuse_cached n (S i) d c
  end.

(** Whether the pool can be created, and whether it can give an object when it
    has given some. *)
Variables (pool_ok : bool) (calloc_ok : nat -> bool).

Definition open_table (write : bool) (d : D) (c : table_cache) (rt : table_v) : option (option obj * D * table_cache) :=
  let c := match pool_objs c with
           | None => set_pool_objs (if pool_ok then Some [] else None) c
           | Some _ => c
           end in
  c ← (if (0 <? already_cached c)%nat then
         c ← reuse_cached (already_cached c) 0 d c; Some (set_already_cached O c)
       else Some c);
  key ← make_hash_code_for_table (text (t_db rt)) (text (t_table rt));
  found ← find_ex d c key rt (hash c);
  match found with
  | Some o => Some (Some o, d, c)
  | None =>
      l ← pool_objs c;
      if calloc_ok (List.length l) then
        let o := PoolObj (List.length l) in
        let c := set_pool_objs (Some (l ++ [Opened None false])) c in
        match open_table_in d (text (t_db rt)) (text (t_table rt)) write with
        | (Some t, d) =>
            let c := alter_obj (fun o => Opened (Some t) (is_modified o)) c o in
            Some (Some o, d, add_opened o key t c)
        | (None, d) => Some (Some o, d, set_need_close true c)
        end
      else Some (None, d, c)
  end.

(** ** The context *)

Record dbcontext := Context {
  need_write : bool; bulk : bool; in_batch : bool; write_error : Z; lock : bool; last_table : option nat;
  ctx_retcode : Z; stream_count : Z; execute_count : Z; tables : table_cache; session : D }.

Definition set_bulk v c := Context (need_write c) v (in_batch c) (write_error c) (lock c) (last_table c) (ctx_retcode c) (stream_count c) (execute_count c) (tables c) (session c).
Definition set_in_batch v c := Context (need_write c) (bulk c) v (write_error c) (lock c) (last_table c) (ctx_retcode c) (stream_count c) (execute_count c) (tables c) (session c).
Definition set_write_error v c := Context (need_write c) (bulk c) (in_batch c) v (lock c) (last_table c) (ctx_retcode c) (stream_count c) (execute_count c) (tables c) (session c).
Definition set_lock v c := Context (need_write c) (bulk c) (in_batch c) (write_error c) v (last_table c) (ctx_retcode c) (stream_count c) (execute_count c) (tables c) (session c).
Definition set_last_table v c := Context (need_write c) (bulk c) (in_batch c) (write_error c) (lock c) v (ctx_retcode c) (stream_count c) (execute_count c) (tables c) (session c).
Definition set_ctx_retcode v c := Context (need_write c) (bulk c) (in_batch c) (write_error c) (lock c) (last_table c) v (stream_count c) (execute_count c) (tables c) (session c).
Definition set_stream_count v c := Context (need_write c) (bulk c) (in_batch c) (write_error c) (lock c) (last_table c) (ctx_retcode c) v (execute_count c) (tables c) (session c).
Definition set_execute_count v c := Context (need_write c) (bulk c) (in_batch c) (write_error c) (lock c) (last_table c) (ctx_retcode c) (stream_count c) v (tables c) (session c).
Definition set_tables v c := Context (need_write c) (bulk c) (in_batch c) (write_error c) (lock c) (last_table c) (ctx_retcode c) (stream_count c) (execute_count c) v (session c).
Definition set_session v c := Context (need_write c) (bulk c) (in_batch c) (write_error c) (lock c) (last_table c) (ctx_retcode c) (stream_count c) (execute_count c) (tables c) v.

Definition set_group_commit (gc : bool) (c : dbcontext) : dbcontext := if need_write c then set_bulk gc c else c.

(** [tdhs_lock_table] of tdh_socket_dbutil.hpp. *)
Definition tdhs_lock_table (d : D) (ts : list nat) (for_write_flag : bool) : bool * D :=
  let d := if negb for_write_flag then set_command d SQLCOM_SELECT else d in
  let '(ok, d) := mysql_lock_tables d ts in
  if negb ok then (false, d) else (true, if for_write_flag then row_binlog d else d).

(** [tdhs_unlock_table] and [tdhs_unlock_table_lite]: [os] are the tables of the
    hash table or of the array. *)
Definition tdhs_unlock_table (d : D) (locked : bool) (os : list opened_table_t) (for_write_flag : bool) (write_error : Z) : Z * D :=
  if locked then
    let d := if for_write_flag then
               fold_left (fun d o => match mysql_table o with Some t => if is_modified o then invalidate d t else d | None => d end) os d
             else d in
    let '(suc, d) := if negb (write_error =? 0) then (false, trans_rollback_stmt d) else trans_commit_stmt d in
    (if negb suc then EASY_ERROR else EASY_OK, mysql_unlock_tables d)
  else (EASY_OK, d).

(** Whether malloc gives memory of a size. *)
Variable malloc : Z -> bool.

(** [lock_table()] of a group of requests. *)
Definition lock_table (c : dbcontext) : option dbcontext :=
  if negb (bulk c) then Some c
  else
    let k := tables c in
    ts ← (if (opened_num k <=? DBCONTEXT_MAX_CACHE_LOCK_TABLES)%nat then Some (Some (take (opened_num k) (need_lock k)))
          else if malloc (8 * Z.of_nat (opened_num k)) then
            ts ← mapM (fun e => lookup_obj k (fst e) ≫= mysql_table) (for_each k); Some (Some ts)
          else Some None);
    match ts with
    | None => Some c
    | Some ts =>
        let '(ok, d) := tdhs_lock_table (session c) ts (need_write c) in
        Some (set_last_table None (set_lock ok (set_session d c)))
    end.

(** [lock_table(tables, count)] of a single request. *)
Definition lock_tables (ts : list nat) (c : dbcontext) : dbcontext :=
  if bulk c || in_batch c then c
  else
    let '(ok, d) := tdhs_lock_table (session c) ts (need_write c) in
    set_last_table None (set_lock ok (set_session d c)).

Definition after_unlock (x : Z * D) (c : dbcontext) : Z * dbcontext :=
  (fst x, set_last_table None (set_write_error 0 (set_lock false (set_session (snd x) c)))).

(** [unlock_table()]. *)
Definition unlock_table (c : dbcontext) : option (Z * dbcontext) :=
  if negb (bulk c) then Some (EASY_OK, c)
  else
    os ← mapM (fun e => lookup_obj (tables c) (fst e)) (for_each (tables c));
    Some (after_unlock (tdhs_unlock_table (session c) (lock c) os (need_write c) (write_error c)) c).

(** [unlock_table(tables, count)]. *)
Definition unlock_tables (os : list obj) (c : dbcontext) : option (Z * dbcontext) :=
  if bulk c || in_batch c then Some (EASY_OK, c)
  else
    os ← mapM (lookup_obj (tables c)) os;
    Some (after_unlock (tdhs_unlock_table (session c) (lock c) os (need_write c) (write_error c)) c).

Fixpoint fill_cached (j : nat) (l : list (obj * Z)) (c : table_cache) : option table_cache :=
  match l with
  | [] => Some c
  | (o, key) :: l =>
      x ← lookup_obj c o;
      if (j <? List.length (cached_table c))%nat then
        fill_cached (S j) l (set_cached (<[j := (mysql_table x, key)]> (cached_table c)) c)
      else None
  end.

Definition close_table (tdhs_cache_table_on : bool) (d : D) (c : table_cache) : option (D * table_cache) :=
  let c := set_last_opened (opened_num c) c in
  if (opened_num c =? 0)%nat then Some (d, c)
  else
    x ← (if tdhs_cache_table_on && (opened_num c <=? List.length (cached_table c))%nat then
           c ← fill_cached 0 (for_each c) c; Some (d, set_already_cached (opened_num c) c)
         else Some (close_thread_tables d, c));
    let '(d, c) := x in
    Some (d, set_pool_objs None (set_hash [] (set_opened_num O c))).

Definition close_cached_table (d : D) (c : table_cache) : D * table_cache :=
  (close_thread_tables d, set_already_cached O c).

End context.
End TdhsContext.
