(* ===== verification/TdhsContextProofs.v ===== *)
(** * The tables a context keeps open

    Opening, caching and closing tables neither loses nor duplicates one, and a
    request gets the table it names. *)

From Stdlib Require Import ZArith Lia.
From stdpp Require Import base list numbers option.
From S2P Require Import Prelude CString EasyHash TdhsDefine TdhsRead TdhsFormat TdhsTable TdhsContext.

Local Open Scope Z_scope.

Module TdhsContextProofs.
Import TdhsDefine TdhsRead TdhsFormat TdhsTable TdhsContext.

Lemma make_hash_some db name : name <> [] -> exists h, make_hash_code_for_table db name = Some h.
Proof.
  intros Hn. unfold make_hash_code_for_table. destruct (list.last name) as [c|] eqn:E; [|by apply last_None in E].
  cbn [mbind option_bind]. case_match; [|by eexists].
  assert (forall i, (i < List.length name)%nat -> exists j, digits_from name i = Some j) as Hd.
  { induction i as [|i IH]; intros Hi; cbn [digits_from]; destruct (lookup_lt_is_Some_2 name _ Hi) as [x ->]; cbn [mbind option_bind];
      case_match; try by eexists. apply IH. lia. }
  destruct (Hd (List.length name - 1)%nat) as [j ->]; [destruct name; [done|cbn; lia]|]. by eexists.
Qed.

(** ** Walking through the hash table *)

Lemma bucket_in_range key : 0 <= EasyHash.bucket_of (hash_size - 1) key < hash_size.
Proof.
  unfold EasyHash.bucket_of, hash_size. change (16 - 1) with (Z.ones 4). rewrite Z.land_ones by lia. apply Z.mod_pos_bound. lia.
Qed.

(** A list cut into classes [0 .. n-1] is a permutation of it. *)
Lemma classes_perm {A} (f : A -> Z) (l : list A) n : (forall x, x ∈ l -> 0 <= f x < Z.of_nat n) ->
  concat (map (fun i => List.filter (fun x => f x =? Z.of_nat i) l) (seq 0 n)) ≡ₚ l.
Proof.
  assert (forall l, concat (map (fun i => List.filter (fun x => f x =? Z.of_nat i) l) (seq 0 n)) ≡ₚ
    List.filter (fun x => (0 <=? f x) && (f x <? Z.of_nat n)) l) as Hp.
  { intros l'. induction n as [|n IH].
    - symmetry. replace (List.filter _ l') with (@nil A); [done|].
      induction l' as [|x l' IH]; [done|]. cbn [List.filter]. rewrite <- IH.
      destruct (Z.leb_spec 0 (f x)), (Z.ltb_spec (f x) (Z.of_nat 0)); cbn [andb]; [lia|done..].
    - rewrite seq_S, map_app, concat_app, IH. cbn [map concat]. rewrite app_nil_r. cbn [Nat.add]. clear IH.
      induction l' as [|x l' IH]; [done|]. cbn [List.filter].
      destruct (Z.eqb_spec (f x) (Z.of_nat n)), (Z.leb_spec 0 (f x)), (Z.ltb_spec (f x) (Z.of_nat n)), (Z.ltb_spec (f x) (Z.of_nat (S n)));
        cbn [andb]; try lia; try (cbn [app]; by rewrite IH); try exact IH.
      rewrite <- Permutation_middle. by rewrite IH. }
  intros Hl. rewrite Hp. clear Hp. induction l as [|x l IH]; [done|]. cbn.
  pose proof (Hl x ltac:(by left)). destruct (Z.leb_spec 0 (f x)), (Z.ltb_spec (f x) (Z.of_nat n)); try lia. cbn.
  rewrite IH; [done|]. intros y Hy. apply Hl. by right.
Qed.

Lemma for_each_perm k : for_each k ≡ₚ hash k.
Proof. apply (classes_perm (fun e => EasyHash.bucket_of (hash_size - 1) (snd e))). intros x _. apply bucket_in_range. Qed.

(** ** The invariant *)

(** The table behind an entry. *)
Definition table_at (k : table_cache) (o : obj) : option nat := x ← lookup_obj k o; mysql_table x.

(** The tables in the hash table, in use. *)
Definition in_use (k : table_cache) : list nat := omap (fun e => table_at k (fst e)) (hash k).

(** The array of tables to lock is that of the tables in use, as long as they fit. *)
Definition lock_list (k : table_cache) (u : list nat) : Prop :=
  (opened_num k <= DBCONTEXT_MAX_CACHE_LOCK_TABLES)%nat -> take (opened_num k) (need_lock k) ≡ₚ u.

Record cache_ok (k : table_cache) : Prop := {
  ok_len : List.length (for_cached k) = List.length (cached_table k);
  ok_hash : Forall (fun e => is_Some (table_at k (fst e))) (hash k);
  ok_nodup : NoDup (hash k).*1;
  ok_num : opened_num k = List.length (hash k);
  ok_cached : (already_cached k <= List.length (cached_table k))%nat;
  ok_either : (0 < already_cached k)%nat -> hash k = [];
  ok_lock : lock_list k (in_use k) }.

(** The tables open in the session, in use or kept. *)
Definition tables_open (k : table_cache) : list nat :=
  omap (fun e => table_at k (fst e)) (hash k) ++ omap fst (take (already_cached k) (cached_table k)).

Lemma lookup_alter_obj f k o : lookup_obj (alter_obj f k o) o = option_map f (lookup_obj k o).
Proof.
  destruct o as [i|i]; cbn [alter_obj lookup_obj set_for_cached set_pool_objs for_cached pool_objs].
  - apply list_lookup_alter_eq.
  - destruct (pool_objs k) as [l|]; [|done]. apply list_lookup_alter_eq.
Qed.
Lemma lookup_alter_other f k o o' : o <> o' -> lookup_obj (alter_obj f k o) o' = lookup_obj k o'.
Proof.
  intros Hne. destruct o as [i|i], o' as [j|j]; cbn [alter_obj lookup_obj set_for_cached set_pool_objs for_cached pool_objs]; try done.
  - apply list_lookup_alter_ne. congruence.
  - destruct (pool_objs k) as [l|]; [|done]. apply list_lookup_alter_ne. congruence.
Qed.

(** Adding an entry changes no object. *)
Lemma lookup_add_opened o h t k o' : lookup_obj (add_opened o h t k) o' = lookup_obj k o'.
Proof. unfold add_opened. cbn [opened_num set_hash]. by case_match; destruct o'. Qed.

Lemma add_opened_fields o h t k :
  hash (add_opened o h t k) = (o, h) :: hash k /\ cached_table (add_opened o h t k) = cached_table k /\
  for_cached (add_opened o h t k) = for_cached k /\ pool_objs (add_opened o h t k) = pool_objs k /\
  already_cached (add_opened o h t k) = already_cached k /\ opened_num (add_opened o h t k) = S (opened_num k) /\
  need_close (add_opened o h t k) = need_close k.
Proof. unfold add_opened. cbn [opened_num set_hash]. by case_match. Qed.

Lemma add_opened_lock o h t k u : lock_list k u -> lock_list (add_opened o h t k) (t :: u).
Proof.
  unfold lock_list, add_opened. cbn [opened_num set_hash]. destruct (Nat.ltb_spec (opened_num k) DBCONTEXT_MAX_CACHE_LOCK_TABLES);
    cbn [opened_num need_lock set_opened_num set_need_lock set_hash]; [|lia].
  intros Hl _. rewrite take_ge; [|rewrite length_app, length_take; cbn; lia]. rewrite Hl by lia. symmetry. apply Permutation_cons_append.
Qed.

(** Steps that touch neither keep the array. *)
Lemma lock_list_same k k' u u' : opened_num k' = opened_num k -> need_lock k' = need_lock k -> u' = u -> lock_list k u -> lock_list k' u'.
Proof. unfold lock_list. by intros -> -> ->. Qed.

(** What the execution of requests leaves as it is. *)
Definition cache_shape (k : table_cache) :=
  (hash k, cached_table k, List.length (for_cached k), already_cached k, opened_num k, need_lock k, need_close k).
Definition same_objects (k k' : table_cache) : Prop :=
  forall o, option_map mysql_table (lookup_obj k' o) = option_map mysql_table (lookup_obj k o).

Lemma same_table_at k k' o : same_objects k k' -> table_at k' o = table_at k o.
Proof. intros Hs. specialize (Hs o). unfold table_at. destruct (lookup_obj k' o), (lookup_obj k o); cbn in *; congruence. Qed.
Lemma same_is_Some k k' o : same_objects k k' -> is_Some (lookup_obj k o) -> is_Some (lookup_obj k' o).
Proof. intros Hs [x Hx]. specialize (Hs o). rewrite Hx in Hs. cbn in Hs. destruct (lookup_obj k' o); [by eexists|done]. Qed.
Lemma cache_ok_same k k' : cache_shape k' = cache_shape k -> same_objects k k' -> cache_ok k -> cache_ok k'.
Proof.
  intros [= Eh Ec Ef Ea Eo El En] Hs [Hlen Hhash Hnd Hnum Hca Hei Hlock].
  assert (in_use k' = in_use k) as Hu.
  { unfold in_use. rewrite Eh. apply list_omap_ext, Forall_Forall2_diag, list.Forall_forall. intros e _. by apply same_table_at. }
  split; rewrite ?Eh, ?Ec, ?Ef, ?Ea, ?Eo; try done; [|by apply (lock_list_same k _ (in_use k))].
  eapply list.Forall_impl; [exact Hhash|]. intros e. by rewrite (same_table_at _ _ _ Hs).
Qed.
Lemma alter_shape f k o : cache_shape (alter_obj f k o) = cache_shape k.
Proof. destruct o; unfold cache_shape; cbn; by rewrite ?length_alter. Qed.

Section tables.
Context {D T : Type} `{Server D T}.
Variables (pool_ok : bool) (calloc_ok : nat -> bool).

(** Tables have names. *)
Definition named (d : D) : Prop := forall t, snd (table_names d t) <> [].

(** The key of an entry is the hash of the names of its table. *)
Definition key_for (d : D) (t : nat) (h : Z) : Prop := uncurry make_hash_code_for_table (table_names d t) = Some h.
Definition entries_keyed (d : D) (k : table_cache) : Prop :=
  Forall (fun e => forall t, table_at k (fst e) = Some t -> key_for d t (snd e)) (hash k).
Record keyed (d : D) (k : table_cache) : Prop := {
  key_hash : entries_keyed d k;
  key_cached : forall i t h, (i < already_cached k)%nat -> cached_table k !! i = Some (Some t, h) -> 0 < h -> key_for d t h }.

(** The invariant while the first [i] cached tables have been put back. *)
Record reusing (i : nat) (k : table_cache) : Prop := {
  re_len : List.length (for_cached k) = List.length (cached_table k);
  re_hash : Forall (fun e => is_Some (table_at k (fst e)) /\ exists j, fst e = CachedObj j /\ (j < i)%nat) (hash k);
  re_nodup : NoDup (hash k).*1;
  re_num : opened_num k = List.length (hash k);
  re_lock : lock_list k (in_use k) }.

Lemma reuse_cached_ok (d : D) n : named d -> forall i k, reusing i k -> (i + n <= List.length (cached_table k))%nat ->
  exists k', reuse_cached n i d k = Some k' /\ reusing (i + n) k' /\
    in_use k' ≡ₚ in_use k ++ omap fst (take n (drop i (cached_table k))) /\
    List.length (cached_table k') = List.length (cached_table k) /\ pool_objs k' = pool_objs k /\ need_close k' = need_close k /\
    (entries_keyed d k -> (forall j t h, (i <= j < i + n)%nat -> cached_table k !! j = Some (Some t, h) -> 0 < h -> key_for d t h) -> entries_keyed d k').
Proof.
  intros Hd. induction n as [|n IH]; intros i k Hk Hn; cbn [reuse_cached].
  { exists k. rewrite Nat.add_0_r. split_and!; try done. cbn. by rewrite app_nil_r. }
  destruct (lookup_lt_is_Some_2 (cached_table k) i ltac:(lia)) as [[t h] Hx]. rewrite Hx. cbn [mbind option_bind].
  rewrite (drop_S _ _ _ Hx). cbn [take omap list_omap fst].
  destruct t as [t|].
  2: { cbn [mbind option_bind]. destruct (IH (S i) k) as (k' & -> & Hk' & Hp & Hl' & Hp' & Hn' & Hky); [|lia|].
       - destruct Hk as [? Hhash ? ? ?]. split; try done. eapply list.Forall_impl; [exact Hhash|]. intros e (? & j & ? & ?). split; [done|]. exists j. split; [done|lia].
       - exists k'. rewrite <- Nat.add_succ_comm. split_and!; try done. intros He Hkey. apply Hky; [done|]. intros j ? ? ?. apply (Hkey j). lia. }
  destruct Hk as [Hlen Hhash Hnd Hnum Hlock].
  destruct (lookup_lt_is_Some_2 (for_cached k) i ltac:(lia)) as [ob Hob]. rewrite Hob. cbn [mbind option_bind].
  set (k1 := alter_obj _ k (CachedObj i)).
  assert (exists key, (if 0 <? h then Some h else let '(db, name) := table_names d t in make_hash_code_for_table db name) = Some key /\
    ((0 < h -> key_for d t h) -> key_for d t key)) as (key & -> & Hkt).
  { destruct (Z.ltb_spec 0 h) as [Hh|Hh]; [exists h; split; [done|]; by intros Hk; apply Hk|].
    unfold key_for. pose proof (Hd t) as Hne. destruct (table_names d t) as [db name]. destruct (make_hash_some db name Hne) as [key E]. by exists key. }
  cbn [mbind option_bind]. set (k2 := add_opened (CachedObj i) key t k1). set (k3 := set_cached _ k2).
  destruct (add_opened_fields (CachedObj i) key t k1) as (Fh & Fc & Ff & Fp & Fa & Fo & Fn). fold k2 in Fh, Fc, Ff, Fp, Fa, Fo, Fn.
  assert (forall o, lookup_obj k3 o = lookup_obj k1 o) as Hl3 by (intros o; rewrite <- (lookup_add_opened (CachedObj i) key t k1); by destruct o).
  assert (table_at k3 (CachedObj i) = Some t) as Hti.
  { unfold table_at. rewrite Hl3. unfold k1. rewrite lookup_alter_obj. cbn [lookup_obj]. by rewrite Hob. }
  assert (forall j, (j < i)%nat -> table_at k3 (CachedObj j) = table_at k (CachedObj j)) as Htj.
  { intros j Hj. unfold table_at. rewrite Hl3. unfold k1. rewrite lookup_alter_other; [done|]. intros [= ->]. lia. }
  assert (hash k3 = (CachedObj i, key) :: hash k) as Hh3 by exact Fh.
  assert (cached_table k3 = <[i := (None, 0)]> (cached_table k)) as Hc3 by (change (<[i := (None, 0)]> (cached_table k2) = <[i := (None, 0)]> (cached_table k)); by rewrite Fc).
  assert (in_use k3 = t :: in_use k) as Hu3.
  { unfold in_use. rewrite Hh3. cbn [omap list_omap fst]. rewrite Hti. f_equal. apply list_omap_ext.
    apply Forall_Forall2_diag. eapply list.Forall_impl; [exact Hhash|]. intros e (_ & j & -> & Hj). by apply Htj. }
  destruct (IH (S i) k3) as (k' & -> & Hk' & Hp & Hl' & Hp' & Hn' & Hky).
  - split.
    + rewrite Hc3. change (for_cached k3) with (for_cached k2). rewrite Ff, length_insert. unfold k1. cbn [alter_obj for_cached set_for_cached]. by rewrite length_alter.
    + rewrite Hh3. constructor; [cbn [fst]; rewrite Hti; split; [by eexists|]; exists i; split; [done|lia]|].
      eapply list.Forall_impl; [exact Hhash|]. intros e (Hs & j & Ej & Hj). rewrite Ej in *. rewrite Htj by done. split; [done|]. exists j. split; [done|lia].
    + rewrite Hh3. cbn [fmap list_fmap fst]. apply list.NoDup_cons. split; [|done]. intros Hin.
      apply list_elem_of_fmap in Hin as (e & E & He). rewrite list.Forall_forall in Hhash. destruct (Hhash e He) as (_ & j & Ej & Hj).
      rewrite Ej in E. injection E as <-. lia.
    + rewrite Hh3. change (opened_num k3) with (opened_num k2). rewrite Fo. cbn [List.length]. by rewrite <- Hnum.
    + rewrite Hu3. apply (lock_list_same k2 k3 (t :: in_use k)); try done. by apply add_opened_lock.
  - rewrite Hc3, length_insert. lia.
  - exists k'. rewrite <- Nat.add_succ_comm. split_and!; [done|done| |..].
    + rewrite Hp, Hu3, Hc3, drop_insert_lt by lia. by rewrite <- Permutation_middle.
    + by rewrite Hl', Hc3, length_insert.
    + rewrite Hp'. exact Fp.
    + rewrite Hn'. exact Fn.
    + intros Hked Hkey. apply Hky.
      * unfold entries_keyed. rewrite Hh3. constructor.
        { cbn [fst snd]. rewrite Hti. intros ? [= <-]. apply Hkt. apply (Hkey i); [lia|done]. }
        apply list.Forall_forall. intros e He t'. unfold entries_keyed in Hked. rewrite list.Forall_forall in Hhash, Hked.
        destruct (Hhash e He) as (_ & j & Ej & Hj). specialize (Hked e He t'). rewrite Ej in *. by rewrite Htj.
      * intros j t' h' Hj. rewrite Hc3, list_lookup_insert_ne by lia. apply Hkey. lia.
Qed.

(** The cached tables put back. *)
Lemma reuse_ok (d : D) k : named d -> cache_ok k -> exists k',
  (if (0 <? already_cached k)%nat then k ← reuse_cached (already_cached k) 0 d k; Some (set_already_cached O k) else Some k) = Some k' /\
  cache_ok k' /\ (keyed d k -> keyed d k') /\ already_cached k' = O /\ in_use k' ≡ₚ tables_open k /\ pool_objs k' = pool_objs k /\
  need_close k' = need_close k /\ List.length (for_cached k') = List.length (for_cached k).
Proof.
  intros Hd Hok. pose proof Hok as [Hlen Hhash Hnd Hnum Hca Hei Hlock]. destruct (Nat.ltb_spec 0 (already_cached k)) as [Hlt|Hge].
  - destruct (reuse_cached_ok d (already_cached k) Hd 0 k) as (k' & -> & Hk' & Hp & Hl & Hpo & Hn & Hky); [|done|].
    { split; try done. rewrite (Hei Hlt). constructor. }
    cbn [mbind option_bind]. eexists. split; [done|]. destruct Hk' as [Rl Rh Rn Rm Rk]. split_and!; try done.
    + split; try done; [|cbn; lia..]. eapply list.Forall_impl; [exact Rh|]. by intros e [? _].
    + intros [Hkh Hkc]. split; [|cbn; lia]. apply Hky; [done|]. intros j t h Hj. apply Hkc. lia.
    + cbn. congruence.
  - exists k. assert (already_cached k = O) as E0 by lia. split_and!; try done. unfold tables_open. rewrite E0. cbn. by rewrite app_nil_r.
Qed.

Definition asks (d : D) (rt : table_v) (t : nat) : Prop := compare_table_info d rt t = true.

Lemma find_ex_ok (d : D) k key rt l : Forall (fun e => is_Some (table_at k (fst e))) l ->
  exists r, find_ex d k key rt l = Some r /\
    match r with
    | Some o => exists t, (o, key) ∈ l /\ table_at k o = Some t /\ asks d rt t
    | None => forall o t, (o, key) ∈ l -> table_at k o = Some t -> ~ asks d rt t
    end.
Proof.
  induction 1 as [|[o h] l [t Ht] _ (r & IH & Hr)]; cbn [find_ex fst] in *.
  { exists None. split; [done|]. intros o t Ho. by apply elem_of_nil in Ho. }
  assert (match r with
    | Some o' => exists t, (o', key) ∈ (o, h) :: l /\ table_at k o' = Some t /\ asks d rt t
    | None => (h = key -> ~ asks d rt t) -> forall o' t, (o', key) ∈ (o, h) :: l -> table_at k o' = Some t -> ~ asks d rt t
    end) as Hr'.
  { destruct r as [o'|].
    - destruct Hr as (t' & Hin & ?). exists t'. split; [by right|done].
    - intros Hhead o' t' Hin Ht'. apply elem_of_cons in Hin as [[= -> ->]|Hin]; [|by eapply Hr].
      assert (t' = t) as -> by congruence. by apply Hhead. }
  destruct (Z.eqb_spec h key) as [->|Hne].
  - unfold table_at in Ht. destruct (lookup_obj k o) as [x|] eqn:Ex; [|done]. cbn [mbind option_bind] in *. rewrite Ht. cbn [mbind option_bind].
    destruct (compare_table_info d rt t) eqn:Ec.
    + exists (Some o). split; [done|]. exists t. split_and!; [by left| |done]. unfold table_at. by rewrite Ex.
    + exists r. split; [done|]. destruct r; [done|]. apply Hr'. intros _. unfold asks. congruence.
  - exists r. split; [done|]. destruct r; [done|]. by apply Hr'.
Qed.

Lemma fresh_pool k : pool_objs k = None -> cache_ok k ->
  cache_ok (set_pool_objs (Some []) k) /\ tables_open (set_pool_objs (Some []) k) = tables_open k /\
  is_Some (pool_objs (set_pool_objs (Some []) k)) /\ Forall (fun e => table_at (set_pool_objs (Some []) k) (fst e) = table_at k (fst e)) (hash k).
Proof.
  intros Hp [Hlen Hhash Hnd Hnum Hca Hei Hlock].
  assert (Forall (fun e => table_at (set_pool_objs (Some []) k) (fst e) = table_at k (fst e)) (hash k)) as Hsame.
  { eapply list.Forall_impl; [exact Hhash|]. intros [[i|i] h] [t Ht]; [done|]. unfold table_at in Ht. cbn in Ht. by rewrite Hp in Ht. }
  split_and!; [|unfold tables_open; f_equal; by apply list_omap_ext, Forall_Forall2_diag|by eexists|done].
  split; try done.
  - rewrite list.Forall_forall in *. intros e He. cbn [hash set_pool_objs] in He. rewrite (Hsame e He). by apply Hhash.
  - apply (lock_list_same k _ (in_use k)); try done. by apply list_omap_ext, Forall_Forall2_diag.
Qed.

(** Keys under the same changes. *)
Lemma keyed_names (d d' : D) k : (forall t, table_names d' t = table_names d t) -> keyed d k -> keyed d' k.
Proof.
  intros Hn [Hh Hc]. split.
  - eapply list.Forall_impl; [exact Hh|]. intros e He t Ht. unfold key_for. rewrite Hn. by apply He.
  - intros i t h Hi Ht Hpos. unfold key_for. rewrite Hn. by apply (Hc i).
Qed.

Lemma keyed_same (d : D) k k' : hash k' = hash k -> cached_table k' = cached_table k -> already_cached k' = already_cached k ->
  Forall (fun e => table_at k' (fst e) = table_at k (fst e)) (hash k) -> keyed d k -> keyed d k'.
Proof.
  intros Eh Ec Ea Hs [Hh Hc]. split.
  - unfold entries_keyed in *. rewrite Eh. rewrite list.Forall_forall in *. intros e He t. rewrite (Hs e He). by apply Hh.
  - rewrite Ea, Ec. exact Hc.
Qed.

(** A new object of the pool; it is not in the hash table. *)
Lemma new_object k l o : cache_ok k -> pool_objs k = Some l -> o = PoolObj (List.length l) ->
  let k1 := set_pool_objs (Some (l ++ [Opened None false])) k in
  cache_ok k1 /\ in_use k1 = in_use k /\ lookup_obj k1 o = Some (Opened None false) /\ o ∉ (hash k1).*1 /\
  Forall (fun e => table_at k1 (fst e) = table_at k (fst e)) (hash k).
Proof.
  intros [Hlen Hhash Hnd Hnum Hca Hei Hlock] Hp -> k1.
  assert (forall e, e ∈ hash k -> table_at k1 (fst e) = table_at k (fst e) /\ fst e <> PoolObj (List.length l)) as Hsame.
  { rewrite list.Forall_forall in Hhash. intros [[i|i] h] He; [done|]. destruct (Hhash _ He) as [t Ht]. unfold table_at in *. cbn in *.
    rewrite Hp in *. cbn in *. destruct (l !! i) as [x|] eqn:Ex; [|done]. pose proof (lookup_lt_Some _ _ _ Ex).
    rewrite lookup_app_l, Ex by done. split; [done|]. intros [= ->]. lia. }
  assert (in_use k1 = in_use k) as Hu by (apply list_omap_ext, Forall_Forall2_diag, list.Forall_forall; intros e He; by apply Hsame).
  split_and!; [|done|..].
  - split; try done; [|by apply (lock_list_same k _ (in_use k))].
    apply list.Forall_forall. intros e He. rewrite (proj1 (Hsame e He)). rewrite list.Forall_forall in Hhash. by apply Hhash.
  - cbn. apply list_lookup_middle. done.
  - intros Hin. apply list_elem_of_fmap in Hin as (e & E & He). by apply (proj2 (Hsame e He)).
  - apply list.Forall_forall. intros e He. by apply Hsame.
Qed.

(** The table opened for it. *)
Lemma add_table k o key t : cache_ok k -> lookup_obj k o = Some (Opened None false) -> o ∉ (hash k).*1 ->
  let k' := add_opened o key t (alter_obj (fun x => Opened (Some t) (is_modified x)) k o) in
  (already_cached k = O -> cache_ok k') /\ in_use k' = t :: in_use k /\ table_at k' o = Some t /\ already_cached k' = already_cached k /\ need_close k' = need_close k.
Proof.
  intros [Hlen Hhash Hnd Hnum Hca Hei Hlock] Ho Hno k'. set (k1 := alter_obj _ k o) in *.
  destruct (add_opened_fields o key t k1) as (Fh & Fc & Ff & Fp & Fa & Fo & Fn). fold k' in Fh, Fc, Ff, Fp, Fa, Fo, Fn.
  assert (hash k1 = hash k /\ cached_table k1 = cached_table k /\ already_cached k1 = already_cached k /\ opened_num k1 = opened_num k /\
    need_close k1 = need_close k /\ List.length (for_cached k1) = List.length (for_cached k)) as (G1 & G2 & G3 & G4 & G5 & G6).
  { unfold k1. destruct o; cbn; by rewrite ?length_alter. }
  assert (table_at k' o = Some t) as Hto by (unfold table_at, k'; rewrite lookup_add_opened; unfold k1; by rewrite lookup_alter_obj, Ho).
  assert (forall e, e ∈ hash k -> table_at k' (fst e) = table_at k (fst e)) as Hsame.
  { intros e He. unfold table_at, k'. rewrite lookup_add_opened. unfold k1. rewrite lookup_alter_other; [done|].
    intros ->. apply Hno. apply list_elem_of_fmap. by exists e. }
  assert (in_use k' = t :: in_use k) as Hu'.
  { unfold in_use. rewrite Fh, G1. cbn [omap list_omap fst]. rewrite Hto. f_equal.
    apply list_omap_ext, Forall_Forall2_diag, list.Forall_forall. exact Hsame. }
  split_and!; [|done|done|congruence|congruence].
  intros H0. split.
  - by rewrite Ff, Fc, G6, G2.
  - rewrite Fh, G1. constructor; [by eexists|]. apply list.Forall_forall. intros e He. rewrite (Hsame e He).
    rewrite list.Forall_forall in Hhash. by apply Hhash.
  - rewrite Fh, G1. cbn [fmap list_fmap fst]. by apply list.NoDup_cons.
  - rewrite Fo, Fh, G4, G1. cbn [List.length]. by rewrite Hnum.
  - rewrite Fa, Fc, G3, G2. done.
  - rewrite Fa, G3. lia.
  - rewrite Hu'. apply add_opened_lock. apply (lock_list_same k _ (in_use k)); try done. by destruct o.
Qed.

Lemma keyed_add (d d' : D) k o key t : (forall t', t' ∈ in_use k -> table_names d' t' = table_names d t') -> already_cached k = O ->
  keyed d k -> key_for d' t key -> lookup_obj k o = Some (Opened None false) -> o ∉ (hash k).*1 ->
  keyed d' (add_opened o key t (alter_obj (fun x => Opened (Some t) (is_modified x)) k o)).
Proof.
  intros Hn H0 [Hh _] Hk Ho Hno. set (k1 := alter_obj _ k o).
  destruct (add_opened_fields o key t k1) as (Fh & Fc & Ff & Fp & Fa & Fo & Fn).
  assert (hash k1 = hash k /\ already_cached k1 = O) as (G1 & G2) by (unfold k1; destruct o; done).
  split; [|intros i; rewrite Fa, G2; lia]. unfold entries_keyed in *. rewrite Fh, G1. constructor.
  - intros t'. unfold table_at. cbn [fst snd]. rewrite lookup_add_opened. unfold k1. rewrite lookup_alter_obj, Ho. by intros [= <-].
  - apply list.Forall_forall. intros e He t'. unfold table_at. rewrite lookup_add_opened. unfold k1. rewrite lookup_alter_other.
    2: { intros ->. apply Hno, list_elem_of_fmap. by exists e. }
    intros Ht'. unfold key_for. rewrite Hn; [|unfold in_use; apply list_elem_of_omap; by exists e].
    rewrite list.Forall_forall in Hh. by apply (Hh e He).
Qed.

(** The tables after the server was asked for one. *)
Definition grown (new : option nat) (l l' : list nat) : Prop :=
  l' ≡ₚ match new with Some t => t :: l | None => l end.

(** What the code relies on when it opens a table, with the tables [l] open: the
    table is a new one, it has the names asked for, and those of the others stay. *)
Definition opens_by_name (d : D) (l : list nat) (db name : list Z) (write : bool) : Prop :=
  let x := open_table_in d db name write in
  forall t, (fst x = Some t -> t ∉ l /\ table_names (snd x) t = (db, name)) /\ (fst x <> Some t -> table_names (snd x) t = table_names d t).

Lemma strncmp_eq_spec l r : forall b, nonzero l -> List.length l = List.length b -> strncmp_eq (List.length b) (l ++ r) b = bool_decide (l = b).
Proof.
  induction l as [|x l IH]; intros [|y b] Hl Hb; try done. cbn [List.length strncmp_eq app]. apply list.Forall_cons in Hl as [Hx Hl].
  injection Hb as Hb. rewrite (IH b Hl Hb). destruct (Z.eqb_spec x y) as [->|Hne], (Z.eqb_spec y 0); cbn [andb orb]; try done;
    repeat case_bool_decide; try done; try congruence; destruct (Z.eqb_spec x 0); congruence.
Qed.

Lemma text_split s : str_ok s -> exists r, s = text s ++ r.
Proof. intros _. exists (drop (List.length s - 1) s). unfold text. by rewrite take_drop. Qed.

(** The comparison of the hash table is that of the names. *)
Lemma asks_spec (d : D) rt t : str_ok (t_db rt) -> str_ok (t_table rt) -> nonzero (text (t_db rt)) -> nonzero (text (t_table rt)) ->
  asks d rt t <-> table_names d t = (text (t_db rt), text (t_table rt)).
Proof.
  intros Hd Ht Nd Nt. unfold asks, compare_table_info. destruct (table_names d t) as [db name].
  destruct (text_split _ Hd) as [r1 E1]. destruct (text_split _ Ht) as [r2 E2].
  rewrite !andb_true_iff, !Nat.eqb_eq. split.
  - intros [[[L1 L2] C1] C2]. rewrite E1 in C1. rewrite E2 in C2. rewrite strncmp_eq_spec in C1, C2 by done.
    apply bool_decide_eq_true in C1, C2. by rewrite C1, C2.
  - intros [= -> ->]. split_and!; [done|done|rewrite E1 at 2|rewrite E2 at 2]; rewrite strncmp_eq_spec by done; by apply bool_decide_eq_true.
Qed.

(** Objects do not go away while a round opens its tables. *)
Definition keeps (k k' : table_cache) : Prop := forall o, is_Some (lookup_obj k o) -> is_Some (lookup_obj k' o).

Lemma keeps_lengths k k' : List.length (for_cached k') = List.length (for_cached k) ->
  (forall l, pool_objs k = Some l -> exists l', pool_objs k' = Some l' /\ (List.length l <= List.length l')%nat) -> keeps k k'.
Proof.
  intros Hf Hp [i|i]; cbn [lookup_obj].
  - rewrite !lookup_lt_is_Some. lia.
  - intros [x Hx]. destruct (pool_objs k) as [l|]; [|done]. cbn in Hx. destruct (Hp l eq_refl) as (l' & -> & Hl). cbn.
    apply lookup_lt_Some in Hx. apply lookup_lt_is_Some. lia.
Qed.

(** The ways open_table goes; [k] is the state with the cached tables put back. *)
Lemma open_table_cases write (d : D) k0 rt : named d -> cache_ok k0 -> text (t_table rt) <> [] -> (pool_ok = true \/ is_Some (pool_objs k0)) ->
  let x := open_table_in d (text (t_db rt)) (text (t_table rt)) write in
  exists k key o d' k', open_table pool_ok calloc_ok write d k0 rt = Some (o, d', k') /\
  make_hash_code_for_table (text (t_db rt)) (text (t_table rt)) = Some key /\
  cache_ok k /\ (keyed d k0 -> keyed d k) /\ in_use k ≡ₚ tables_open k0 /\ cache_ok k' /\ already_cached k' = O /\ keeps k0 k' /\
  ((exists ob t, o = Some ob /\ (ob, key) ∈ hash k /\ table_at k ob = Some t /\ asks d rt t /\ d' = d /\ k' = k) \/
   (forall ob t, (ob, key) ∈ hash k -> table_at k ob = Some t -> ~ asks d rt t) /\
   (o = None /\ d' = d /\ k' = k \/
    exists ob, o = Some ob /\ is_Some (lookup_obj k' ob) /\ d' = snd x /\ table_at k' ob = fst x /\ (fst x = None -> need_close k' = true) /\
      in_use k' = match fst x with Some t => t :: in_use k | None => in_use k end /\
      (opens_by_name d (in_use k) (text (t_db rt)) (text (t_table rt)) write -> keyed d k -> keyed d' k'))).
Proof.
  intros Hd Hk Hname Hpool x. unfold open_table.
  set (k1 := match pool_objs k0 with Some _ => k0 | None => _ end).
  assert (cache_ok k1 /\ tables_open k1 = tables_open k0 /\ is_Some (pool_objs k1) /\ (keyed d k0 -> keyed d k1) /\ keeps k0 k1) as (Hk1 & <- & Hp1 & Hkey1 & Hkp1).
  { unfold k1. destruct (pool_objs k0) as [l|] eqn:Ep.
    { split; [done|split; [done|split; [eexists; exact Ep|split; [done|intros o Ho; exact Ho]]]]. }
    destruct Hpool as [->|[? ?]]; [|done].
    destruct (fresh_pool k0 Ep Hk) as (? & ? & ? & ?). split_and!; try done; [by apply (keyed_same d k0)|]. apply keeps_lengths; [done|]. by rewrite Ep. }
  clearbody k1. destruct (reuse_ok d k1 Hd Hk1) as (k & -> & Hk2 & Hky & Ha & Hu & Hp & Hn & Hf).
  assert (keeps k0 k) as Hkp2. { intros o Ho. apply Hkp1 in Ho. revert o Ho. apply keeps_lengths; [done|]. intros l Hl. exists l. split; [congruence|done]. }
  cbn [mbind option_bind]. destruct (make_hash_some (text (t_db rt)) (text (t_table rt)) Hname) as [key Ekey]. rewrite Ekey. cbn [mbind option_bind].
  destruct (find_ex_ok d k key rt (hash k) (ok_hash _ Hk2)) as (r & -> & Hr). cbn [mbind option_bind]. exists k, key. destruct r as [o|].
  { destruct Hr as (t & Hin & Ht & Hask). eexists _, _, _. split; [done|]. split_and!; try done; [by auto|]. left. by exists o, t. }
  rewrite Hp. destruct Hp1 as [l Hl]. rewrite Hl. cbn [mbind option_bind]. destruct (calloc_ok (List.length l)).
  2: { eexists _, _, _. split; [done|]. split_and!; try done; [by auto|]. right. split; [done|]. by left. }
  set (o := PoolObj (List.length l)). set (k2 := set_pool_objs _ k).
  destruct (new_object k l o Hk2) as (Hk3 & Hu3 & Hx3 & Hno & Hsame); [congruence|done|]. fold k2 in Hk3, Hu3, Hx3, Hsame.
  assert (keyed d k -> keyed d k2) as Hkey3 by (by apply (keyed_same d k)).
  assert (keeps k0 k2) as Hkp3.
  { intros ob Hob. apply Hkp2 in Hob. revert ob Hob. apply keeps_lengths; [done|]. intros l' Hl'. eexists. split; [done|]. rewrite length_app.
    assert (l' = l) as -> by congruence. lia. }
  unfold opens_by_name. fold x. destruct x as [[t|] d'] eqn:Eo; cbn [fst snd]; eexists _, _, _; (split; [done|]).
  - destruct (add_table k2 o key t Hk3 Hx3 Hno) as (G1 & G2 & G3 & G4 & _).
    split_and!; try done; [by auto|by apply G1|by rewrite G4|..].
    { intros ob Hob. rewrite lookup_add_opened. apply Hkp3 in Hob. destruct (decide (o = ob)) as [<-|Hne].
      - rewrite lookup_alter_obj, Hx3. by eexists.
      - by rewrite lookup_alter_other. }
    right. split; [done|]. right. exists o. split_and!; try done.
    + rewrite lookup_add_opened, lookup_alter_obj, Hx3. by eexists.
    + by rewrite G2, Hu3.
    + intros Hserver Hkd. destruct (Hserver t) as [Ht _]. destruct (Ht eq_refl) as [Hfresh Hnew].
      apply (keyed_add d d' k2 o key t); try done; [|by apply Hkey3|unfold key_for; by rewrite Hnew].
      intros t' Ht'. apply Hserver. intros [= ->]. apply Hfresh. by rewrite <- Hu3.
  - split_and!; try done; [by auto|by destruct Hk3|]. right. split; [done|]. right. exists o. split_and!; try done.
    + change (table_at k2 o = None). unfold table_at. by rewrite Hx3.
    + intros Hserver Hkd. apply (keyed_names d d'); [by intros t; apply Hserver|]. destruct (Hkey3 Hkd). by split.
Qed.

(** C24 (invariant).  A request for a table, with the invariant and memory for the pool: unless the
    object for it is refused, the request gets an object.  If a table of the names
    asked for is open, in use or kept from an earlier round, the server is not
    asked and the object is that of such a table; otherwise the object is that of
    the table the server opens, or has none if the server refuses, and then all
    tables will be closed after this round.  No open table is lost, none is
    opened twice, and the invariant holds. *)
Theorem open_table_spec write (d : D) k rt : let db := text (t_db rt) in let name := text (t_table rt) in
  named d -> cache_ok k -> keyed d k -> str_ok (t_db rt) -> str_ok (t_table rt) -> nonzero db -> nonzero name -> name <> [] ->
  (pool_ok = true \/ is_Some (pool_objs k)) -> opens_by_name d (tables_open k) db name write ->
  exists o d' k', open_table pool_ok calloc_ok write d k rt = Some (o, d', k') /\ cache_ok k' /\ keyed d' k' /\ already_cached k' = O /\
  match o with
  | None => d' = d /\ grown None (tables_open k) (in_use k')
  | Some o =>
      (exists t, table_at k' o = Some t /\ t ∈ tables_open k /\ table_names d t = (db, name) /\ d' = d /\ grown None (tables_open k) (in_use k')) \/
      ((forall t, t ∈ tables_open k -> table_names d t <> (db, name)) /\
       let x := open_table_in d db name write in
       d' = snd x /\ table_at k' o = fst x /\ (fst x = None -> need_close k' = true) /\ grown (fst x) (tables_open k) (in_use k'))
  end.
Proof.
  intros db name Hd Hk Hkey Sd St Nd Nt Hname Hpool Hserver.
  destruct (open_table_cases write d k rt Hd Hk Hname Hpool) as (k1 & key & o & d' & k' & -> & Ekey & Hk1 & Hkey1 & Hu1 & Hk' & Ha & _ & Hcase).
  apply Hkey1 in Hkey. eexists _, _, _. split; [done|]. destruct Hcase as [(ob & t & -> & Hin & Ht & Hask & -> & ->)|[Hnone Hcase]].
  { apply asks_spec in Hask; [|done..]. split_and!; try done. left. exists t. split_and!; try done.
    rewrite <- Hu1. unfold in_use. apply list_elem_of_omap. by exists (ob, key). }
  assert (forall t, t ∈ tables_open k -> table_names d t <> (db, name)) as Hno.
  { intros t Ht Et. rewrite <- Hu1 in Ht. unfold in_use in Ht. apply list_elem_of_omap in Ht as ([o1 h] & Hin & Ho).
    pose proof (key_hash _ _ Hkey) as Hkh. unfold entries_keyed in Hkh. rewrite list.Forall_forall in Hkh. specialize (Hkh _ Hin t Ho). unfold key_for in Hkh.
    rewrite Et in Hkh. cbn [uncurry snd] in Hkh. fold db name in Ekey. assert (h = key) as -> by congruence.
    apply (Hnone o1 t Hin Ho). by apply asks_spec. }
  destruct Hcase as [(-> & -> & ->)|(ob & -> & _ & -> & Hta & Hnc & Hu & Hkd)]; [by split_and!|].
  split_and!; try done.
  - apply Hkd; [|done]. intros t. destruct (Hserver t) as [H1 H2]. split; [|exact H2]. intros Ht. destruct (H1 Ht) as [Hf Hn].
    split; [|done]. by rewrite Hu1.
  - right. split_and!; try done. unfold grown. rewrite Hu. fold db name. destruct (fst _); by rewrite Hu1.
Qed.

(** ** Closing *)

(** The array of cached tables while entries are written to it. *)
Lemma fill_cached_ok l : forall j k, Forall (fun e => is_Some (table_at k (fst e))) l -> (j + List.length l <= List.length (cached_table k))%nat ->
  exists ct, fill_cached j l k = Some (set_cached ct k) /\ List.length ct = List.length (cached_table k) /\
    take (j + List.length l) ct = take j (cached_table k) ++ map (fun e => (table_at k (fst e), snd e)) l.
Proof.
  induction l as [|[o h] l IH]; intros j k Hl Hj; cbn [fill_cached List.length map] in *.
  { exists (cached_table k). rewrite Nat.add_0_r, app_nil_r. by destruct k. }
  apply list.Forall_cons in Hl as [[t Ht] Hl]. unfold table_at in Ht. cbn [fst] in Ht. destruct (lookup_obj k o) as [x|] eqn:Ex; [|done].
  cbn [mbind option_bind] in *. destruct (Nat.ltb_spec j (List.length (cached_table k))); [|lia].
  set (k1 := set_cached _ k). assert (forall o, table_at k1 o = table_at k o) as Hs by (intros []; done).
  destruct (IH (S j) k1) as (ct & -> & Hlen & Htake).
  { eapply list.Forall_impl; [exact Hl|]. intros e. by rewrite Hs. }
  { cbn. rewrite length_insert. lia. }
  exists ct. split; [done|]. split; [by rewrite Hlen; cbn; rewrite length_insert|].
  rewrite <- Nat.add_succ_comm, Htake. cbn [cached_table k1 set_cached]. rewrite (take_S_r _ _ (mysql_table x, h)) by (by apply list_lookup_insert_eq).
  rewrite take_insert_ge, <- app_assoc by lia. cbn [app fst snd]. unfold table_at at 2. rewrite Ex. cbn [mbind option_bind]. done.
Qed.

Lemma omap_tables k (l : list (obj * Z)) : omap fst (map (fun e => (table_at k (fst e), snd e)) l) = omap (fun e => table_at k (fst e)) l.
Proof. induction l as [|e l IH]; [done|]. cbn. by rewrite IH. Qed.

(** At the end of a round. *)
Lemma close_table_ok cache_on (d : D) k : cache_ok k -> exists d' k', close_table cache_on d k = Some (d', k') /\
  cache_ok k' /\ hash k' = [] /\ last_opened k' = List.length (hash k) /\ (keyed d k -> keyed d k') /\
  (d' = d /\ tables_open k' ≡ₚ tables_open k /\ (hash k = [] \/ cache_on = true /\ (List.length (hash k) <= List.length (cached_table k))%nat) \/
   d' = close_thread_tables d /\ tables_open k' = [] /\ (cache_on = false \/ (List.length (cached_table k) < List.length (hash k))%nat)).
Proof.
  intros Hk. pose proof Hk as [Hlen Hhash Hnd Hnum Hca Hei Hlock]. unfold close_table. set (k0 := set_last_opened (opened_num k) k).
  change (opened_num k0) with (opened_num k). change (cached_table k0) with (cached_table k). rewrite Hnum.
  destruct (Nat.eqb_spec (List.length (hash k)) 0) as [E0|Hne].
  { apply nil_length_inv in E0. eexists _, _. split; [done|]. split_and!; [by split|done|done| |].
    - by intros [].
    - left. split_and!; [done|done|by left]. }
  assert (already_cached k = O) as Ha. { destruct (already_cached k); [done|]. rewrite Hei in Hne by lia. done. }
  pose proof (for_each_perm k) as Hperm. change (for_each k0) with (for_each k).
  destruct (cache_on && (List.length (hash k) <=? List.length (cached_table k))%nat) eqn:Ec.
  - apply andb_true_iff in Ec as [-> Ele%Nat.leb_le].
    destruct (fill_cached_ok (for_each k) 0 k0) as (ct & -> & Hct & Htake).
    { rewrite Hperm. exact Hhash. }
    { rewrite Hperm. exact Ele. }
    cbn [mbind option_bind Nat.add]. rewrite Hperm in Htake at 1. rewrite take_0 in Htake. cbn [app Nat.add] in Htake. eexists _, _. split; [done|]. split_and!; [|done|done| |].
    + split; cbn [for_cached cached_table set_pool_objs set_hash set_opened_num set_already_cached set_cached opened_num already_cached hash k0 set_last_opened];
        first [by rewrite Hct|rewrite Hct, Hnum; exact Ele|done|constructor].
    + intros Hkey. split; [constructor|]. cbn [already_cached cached_table set_pool_objs set_hash set_opened_num set_already_cached set_cached k0 set_last_opened].
      intros i t h Hi Ht _. change (i < opened_num k)%nat in Hi. rewrite Hnum in Hi. assert (take (List.length (hash k)) ct !! i = Some (Some t, h)) as Hx by (by rewrite lookup_take_lt).
      rewrite Htake in Hx. apply list_lookup_fmap_Some in Hx as (e & [= Et ->] & He). apply list_elem_of_lookup_2 in He. rewrite Hperm in He.
      pose proof (key_hash _ _ Hkey) as Hh. unfold entries_keyed in Hh. rewrite list.Forall_forall in Hh. by apply (Hh e He).
    + left. split_and!; [done| |by right]. unfold tables_open.
      change (omap fst (take (opened_num k) ct) ≡ₚ in_use k ++ omap fst (take (already_cached k) (cached_table k))).
      rewrite Hnum, Htake, Ha, omap_tables. cbn [firstn omap list_omap]. rewrite app_nil_r. unfold in_use. by rewrite Hperm.
  - cbn [mbind option_bind]. eexists _, _. split; [done|]. split_and!; [|done|done| |].
    + split; try done; constructor.
    + intros _. split; [constructor|]. cbn [already_cached set_pool_objs set_hash set_opened_num k0 set_last_opened]. rewrite Ha. lia.
    + right. split_and!; [done| |].
      * unfold tables_open. cbn [hash already_cached set_pool_objs set_hash set_opened_num k0 set_last_opened]. by rewrite Ha.
      * apply andb_false_iff in Ec as [->|E]; [by left|right]. by apply Nat.leb_gt in E.
Qed.

(** C35 (invariant).  From the invariant of the cache and of the keys of its tables: at the end of a
    round the tables in use are all kept for the next one, if the
    cache is on and has room, or all closed; either way none is left in the hash
    table, and the next request finds the kept ones. *)
Theorem close_table_spec cache_on (d : D) k : cache_ok k -> keyed d k -> exists d' k', close_table cache_on d k = Some (d', k') /\
  cache_ok k' /\ hash k' = [] /\ last_opened k' = List.length (hash k) /\ keyed d k' /\
  (d' = d /\ tables_open k' ≡ₚ tables_open k /\ (hash k = [] \/ cache_on = true /\ (List.length (hash k) <= List.length (cached_table k))%nat) \/
   d' = close_thread_tables d /\ tables_open k' = [] /\ (cache_on = false \/ (List.length (cached_table k) < List.length (hash k))%nat)).
Proof.
  intros Hk Hkey. destruct (close_table_ok cache_on d k Hk) as (d' & k' & E & ? & ? & ? & ? & ?). exists d', k'. by auto 10.
Qed.

(** ** Locking *)

Lemma mapM_lookup {A B} (f : A -> option B) l : Forall (fun x => is_Some (f x)) l -> mapM f l = Some (omap f l).
Proof. induction 1 as [|x l [y Hy] _ IH]; [done|]. cbn. rewrite Hy, IH. done. Qed.

(** A group of requests takes one lock, on the tables it uses and on no other,
    each once, however many they are; only if there are more than fit into the
    array of the context and the memory for a larger one is refused, there is no
    lock. *)
Theorem lock_table_spec malloc (c : dbcontext (D := D)) : bulk c = true -> cache_ok (tables c) ->
  exists c', lock_table malloc c = Some c' /\
  (c' = c /\ (DBCONTEXT_MAX_CACHE_LOCK_TABLES < List.length (hash (tables c)))%nat /\ malloc (8 * Z.of_nat (List.length (hash (tables c)))) = false \/
   exists ts, ts ≡ₚ in_use (tables c) /\ let x := tdhs_lock_table (session c) ts (need_write c) in
     c' = set_last_table None (set_lock (fst x) (set_session (snd x) c))).
Proof.
  intros Hb [_ Hhash _ Hnum _ _ Hlock]. unfold lock_table. rewrite Hb. cbn [negb].
  destruct (Nat.leb_spec (opened_num (tables c)) DBCONTEXT_MAX_CACHE_LOCK_TABLES) as [Hle|Hgt].
  - specialize (Hlock Hle). cbn [mbind option_bind]. destruct (tdhs_lock_table _ _ _) as [ok d] eqn:E. eexists. split; [done|]. right. eexists. split; [exact Hlock|]. by rewrite E.
  - rewrite Hnum in *. destruct (malloc _) eqn:Em; cbn [mbind option_bind]; [|eexists; split; [done|]; by left].
    change (fun e : obj * Z => lookup_obj (tables c) (fst e) ≫= mysql_table) with (fun e : obj * Z => table_at (tables c) (fst e)).
    rewrite mapM_lookup by (by rewrite for_each_perm). cbn [mbind option_bind].
    destruct (tdhs_lock_table _ _ _) as [ok d] eqn:E. eexists. split; [done|]. right. eexists. rewrite E. split; [|done]. by rewrite for_each_perm.
Qed.

End tables.
End TdhsContextProofs.
