(* ===== verification/TdhsExecute.v ===== *)
(** * TDHSocket/tdh_socket_dbcontext.cpp: execution of requests and batches

    [execute] and what it calls, and the loops of the worker threads of
    tdh_socket_request_thread.cpp around it. *)

From Stdlib Require Import ZArith Lia.
From stdpp Require Import base list numbers option.
From S2P Require Import Prelude CString EasyHash EasyPool TdhsDefine TdhsRead TdhsProtocol TdhsFormat TdhsResponse TdhsTable TdhsFind TdhsContext.

Local Open Scope Z_scope.

Module TdhsExecute.
Import TdhsDefine TdhsRead TdhsProtocol TdhsFormat TdhsResponse TdhsTable TdhsFind TdhsContext.

Definition CLIENT_STATUS_NOT_IMPLEMENTED : Z := 501.
Definition CLIENT_STATUS_REQUEST_TIME_OUT : Z := 408.
Definition NOT_IMPLEMENTED : Z := 10.
Definition REQUEST_TIME_OUT : Z := 11.

(** A packet of a chain: what it asks for, the table that was opened for it, the
    response, what was streamed before it, and whether the connection is found
    closed when a part of the stream is sent. *)
Inductive work := Single (r : request_v) | Batch | Unknown.
Record job := Job {
  j_work : work; j_opened : option obj; j_resp : response; j_sent : list (list Z); j_closed : nat -> bool }.
Definition set_opened v j := Job (j_work j) v (j_resp j) (j_sent j) (j_closed j).
Definition set_j_resp v j := Job (j_work j) (j_opened j) v (j_sent j) (j_closed j).
Definition answered (s : stream) j := Job (j_work j) (j_opened j) (resp s) (sent s) (j_closed j).
Definition code_of (j : job) : Z := command_id_or_response_code (packet (j_resp j)).

(** The answers that claim success; the header of a batch is not one. *)
Definition succeeded (code : Z) : bool := (200 <=? code) && (code <? 300) && negb (code =? CLIENT_STATUS_MULTI_STATUS).

Section execute.
Context {D T K V P : Type} `{Handler T K V} `{!Server D T} `{!Writer T} `{!Fields V} `{EasyPool.PoolOps P}.
Variables (pool_addr : Z) (fill : nat -> Z) (malloc : Z -> bool) (tdhs_write_buff_size : Z) (scan_fuel : nat).

(** ** Insertion *)

Definition insert_field (t : T) (j : nat) (x : value_v) : Z * T :=
  if (v_flag x =? 0) || (v_flag x =? 1) || (v_flag x =? 2) then
    if count (v_value x) =? 0 then (0, set_null t j) else field_store t j (text (v_value x))
  else if v_flag x =? 3 then save_now t j
  else (0, t).

Fixpoint insert_fields (t : T) (field_idx : list (nat * Z)) (vs : list value_v) : option (bool * T) :=
  match field_idx with
  | [] => Some (true, t)
  | (j, _) :: field_idx =>
      x ← head vs;
      let '(rc, t) := insert_field t j x in
      if rc <? 0 then Some (false, t) else insert_fields t field_idx (tail vs)
  end.

(** [last]: the table of the last insertion, number [ti] the one of this. *)
Definition do_insert (d : table_desc) (locked : bool) (ti : nat) (last : option nat) (t : T) (p : find_state) (s : P)
    (rt : table_v) (vs : list value_v) : option (answer (T := T) (S := P) * option nat) :=
  let failed t p s status code := x ← fail pool_addr fill t p s status code; Some (x, last) in
  if negb locked then failed t p s CLIENT_STATUS_SERVER_ERROR FAILED_TO_LOCK_TABLE
  else
    pf ← parse_field d rt;
    if negb (fst pf =? EASY_OK) then failed t p s CLIENT_STATUS_NOT_FOUND FAILED_TO_MISSING_FIELD
    else
      let p := set_resp (Response (tdhs_init_response (packet (resp (st p)))) (buf (resp (st p)))) p in
      x ← create_response_for_insert pool_addr fill s (resp (st p));
      let '(rc, r, s) := x in
      let p := set_resp r p in
      if negb (rc =? EASY_OK) then failed t p s CLIENT_STATUS_SERVER_ERROR NOT_ENOUGH_MEMORY
      else
        y ← insert_fields (clear_null_flags (empty_record t)) (snd pf) vs;
        let '(stored, t) := y in
        if negb stored then failed t p s CLIENT_STATUS_DB_ERROR FIELD_STORE_ERROR
        else
          let t := next_number_field t true in
          let t := if negb (bool_decide (last = Some ti)) && bool_decide (is_Some last) then start_stmt t else t in
          let last := Some ti in
          let '(r, t) := ha_write_row t in
          let id := u64 (insert_id t) in
          let t := next_number_field t false in
          if r =? 0 then
            rs ← write_insert_ender_to_response id (resp (st p));
            Some (EASY_OK, t, set_resp rs (FindState (st p) (update_row_num p) (change_row_num p) true (retcode p)), s, last)
          else x ← fail pool_addr fill t p s CLIENT_STATUS_DB_ERROR r; Some (x, last).

(** ** One request *)

(** do_find for the four request types, then the insertion. *)
Definition run_request (closed : nat -> bool) (r : request_v) (d : table_desc) (key_length : nat -> Z) (locked : bool)
    (ti : nat) (last : option nat) (t : T) (p : find_state) (s : P) : option (answer (T := T) (S := P) * option nat) :=
  let find create process end_handler rt c :=
    x ← do_find_locked pool_addr fill malloc create process end_handler scan_fuel (Some (Some d)) locked key_length t p s rt c;
    Some (x, last) in
  match r with
  | GetV rt c => find (create_response_for_data pool_addr fill tdhs_write_buff_size) (response_handler closed) None rt c
  | CountV rt c => find (fun _ => create_response_for_count pool_addr fill) (fun _ => count_record) (Some end_count_record) rt c
  | UpdateV rt c vs => find (fun _ => create_response_for_update pool_addr fill) (update_record vs) (Some end_update_record) rt c
  | DeleteV rt c => find (fun _ => create_response_for_update pool_addr fill) (fun _ => delete_record) (Some end_update_record) rt c
  | InsertV rt vs => do_insert d locked ti last t p s rt vs
  end.

Definition command_of (r : request_v) : Z :=
  match r with
  | GetV _ _ | CountV _ _ => SQLCOM_SELECT
  | UpdateV _ _ _ => SQLCOM_UPDATE
  | DeleteV _ _ => SQLCOM_DELETE
  | InsertV _ _ => SQLCOM_INSERT
  end.

Definition respond_error (j : job) (s : P) (status code : Z) : option (Z * job * P) :=
  x ← tdhs_response_error pool_addr fill s (j_resp j) status code;
  let '(rc, r, s) := x in Some (rc, set_j_resp r j, s).

(** The request under the lock of its table, which the destructor of
    table_locker_for_context releases. *)
Definition do_request (c : dbcontext (D := D)) (j : job) (r : request_v) (s : P) : option (Z * dbcontext * job * P) :=
  let c := set_session (set_command (session c) (command_of r)) c in
  match j_opened j with
  | None => x ← respond_error j s CLIENT_STATUS_SERVER_ERROR NOT_ENOUGH_MEMORY; let '(rc, j, s) := x in Some (rc, c, j, s)
  | Some o =>
      ot ← lookup_obj (tables c) o;
      match mysql_table ot with
      | None => x ← respond_error j s CLIENT_STATUS_NOT_FOUND FAILED_TO_OPEN_TABLE; let '(rc, j, s) := x in Some (rc, c, j, s)
      | Some ti =>
          let c := lock_tables [ti] c in
          let p := FindState (Stream (j_resp j) [] false (stream_count c)) 0 0 (is_modified ot) (ctx_retcode c) in
          x ← run_request (j_closed j) r (describe (session c) ti) (index_key_length (session c) ti) (lock c) ti (last_table c)
                (handler_of (session c) ti) p s;
          let '(rc, t, p, s, last) := x in
          let c := set_last_table last (set_session (put_handler (session c) ti t) c) in
          let c := set_tables (alter_obj (fun ot => Opened (mysql_table ot) (modified p)) (tables c) o) c in
          y ← unlock_tables [o] c;
          let '(u, c) := y in
          z ← unlock pool_addr fill (u =? EASY_OK) (rc, t, p, s);
          let '(rc, t, p, s) := z in
          Some (rc, set_stream_count (use_stream_count (st p)) (set_ctx_retcode (retcode p) c), answered (st p) j, s)
      end
  end.

(** ** Batches *)

(** [FSIZE(256)] and the bits of the array. *)
Definition bloom_fsize : Z := 32.
Definition GETBIT (a : list bool) (n : Z) : bool := default false (a !! Z.to_nat n).
Definition SETBIT (a : list bool) (n : Z) : list bool := <[Z.to_nat n := true]> a.

(** The addresses of the [opened_table_t]. *)
Variable address : obj -> Z.

(** The tables of a batch, each once; the arrays have [batch_num] elements. *)
Fixpoint collect_tables (k : table_cache) (batch_num : Z) (js : list job) (bloom : list bool) (opened : list obj) (ts : list nat)
    : option (list obj * list nat) :=
  match js with
  | [] => Some (opened, ts)
  | j :: js =>
      match j_opened j with
      | None => collect_tables k batch_num js bloom opened ts
      | Some o =>
          ot ← lookup_obj k o;
          match mysql_table ot with
          | None => collect_tables k batch_num js bloom opened ts
          | Some t =>
              let bit := address o mod bloom_fsize in
              let is_container := if GETBIT bloom bit then bool_decide (o ∈ opened) else false in
              if is_container then collect_tables k batch_num js bloom opened ts
              else if Z.of_nat (List.length opened) <? batch_num then
                collect_tables k batch_num js (SETBIT bloom bit) (opened ++ [o]) (ts ++ [t])
              else None
          end
      end
  end.

(** The answers of a batch that was not committed, up to an error. *)
Fixpoint fail_commits (js : list job) (s : P) : option (Z * list job * P) :=
  match js with
  | [] => Some (EASY_OK, [], s)
  | j :: js =>
      if succeeded (code_of j) then
        x ← respond_error j s CLIENT_STATUS_SERVER_ERROR FAILED_TO_COMMIT;
        let '(rc, j, s) := x in
        if negb (rc =? EASY_OK) then Some (EASY_ERROR, j :: js, s)
        else y ← fail_commits js s; let '(rc, js, s) := y in Some (rc, j :: js, s)
      else y ← fail_commits js s; let '(rc, js, s) := y in Some (rc, j :: js, s)
  end.

Definition result : Type := Z * dbcontext (D := D) * job * list job * P.

Fixpoint execute (fuel : nat) (c : dbcontext) (j : job) (rest : list job) (s : P) : option result :=
  match fuel with
  | O => None
  | Datatypes.S fuel =>
      let c := set_session (clear_error (not_killed (session c))) (set_ctx_retcode EASY_OK c) in
      x ← match j_work j with
          | Single r => y ← do_request c j r s; let '(ret, c, j, s) := y in Some (ret, c, j, rest, s)
          | Batch => if bulk c then do_batch fuel c j rest s else do_batch_with_lock fuel c j rest s
          | Unknown =>
              y ← tdhs_response_error_global pool_addr fill s (j_resp j) CLIENT_STATUS_NOT_IMPLEMENTED NOT_IMPLEMENTED;
              let '(ret, r, s) := y in Some (ret, c, set_j_resp r j, [], s)
          end;
      let '(ret, c, j, rest, s) := x in
      let c := set_session (not_killed (session c)) (set_stream_count 0 (set_execute_count (u64 (execute_count c + 1)) c)) in
      Some (if negb (ctx_retcode c =? EASY_OK) then ctx_retcode c else ret, c, j, rest, s)
  end
with do_batch (fuel : nat) (c : dbcontext) (j : job) (rest : list job) (s : P) : option result :=
  match fuel with
  | O => None
  | Datatypes.S fuel =>
      let '(rc, r, s) := tdhs_response_batch pool_addr fill s (j_resp j) in
      let j := set_j_resp r j in
      if negb (rc =? EASY_OK) then Some (EASY_ERROR, c, j, rest, s)
      else
        x ← batch_packets fuel (set_in_batch true c) rest s;
        let '(ret, c, rest, s) := x in
        Some (ret, set_in_batch false c, j, rest, s)
  end
with batch_packets (fuel : nat) (c : dbcontext) (js : list job) (s : P) : option (Z * dbcontext * list job * P) :=
  match fuel with
  | O => None
  | Datatypes.S fuel =>
      match js with
      | [] => Some (EASY_OK, c, [], s)
      | b :: js =>
          x ← execute fuel c b js s;
          let '(ret, c, b, js, s) := x in
          if negb (ret =? EASY_OK) then Some (ret, set_write_error 1 c, b :: js, s)
          else
            let c := if 300 <=? code_of b then set_write_error 1 c else c in
            y ← batch_packets fuel c js s;
            let '(ret, c, js, s) := y in Some (ret, c, b :: js, s)
      end
  end
with do_batch_with_lock (fuel : nat) (c : dbcontext) (j : job) (rest : list job) (s : P) : option result :=
  match fuel with
  | O => None
  | Datatypes.S fuel =>
      let batch_num := reserved (packet (j_resp j)) in
      match stack_liker malloc (u64 (8 * batch_num * 2)) with
      | None =>
          x ← respond_error j s CLIENT_STATUS_SERVER_ERROR NOT_ENOUGH_MEMORY;
          let '(rc, j, s) := x in Some (rc, c, j, rest, s)
      | Some _ =>
          x ← collect_tables (tables c) batch_num rest (replicate (8 * Z.to_nat bloom_fsize) false) [] [];
          let '(opened, ts) := x in
          let c := lock_tables ts c in
          y ← do_batch fuel c j rest s;
          let '(ret, c, j, rest, s) := y in
          u ← unlock_tables opened c;
          let '(u, c) := u in
          if negb (u =? EASY_OK) && (ret =? EASY_OK) then
            z ← fail_commits (j :: rest) s;
            let '(rc, js, s) := z in
            match js with
            | j :: rest => Some (if negb (rc =? EASY_OK) then EASY_ERROR else ret, c, j, rest, s)
            | [] => None
            end
          else Some (ret, c, j, rest, s)
      end
  end.

Definition execute_fuel (rest : list job) : nat := 4 * List.length rest + 5.

(** ** tdh_socket_handler.cpp: a request with a time-out *)

(** A request that waits: its chain of packets, its pool (a number, since requests
    of one message share theirs), whether its connection was closed, the time-out
    of the connection in milliseconds and the time it is looked at. *)
Record request := Req {
  r_head : job; r_rest : list job; r_pool : nat; r_closed : bool; r_time_out : Z; r_now : Z; r_retcode : Z }.
Definition set_chain (j : job) (rest : list job) (r : request) : request :=
  Req j rest (r_pool r) (r_closed r) (r_time_out r) (r_now r) (r_retcode r).
Definition set_retcode v (r : request) : request :=
  Req (r_head r) (r_rest r) (r_pool r) (r_closed r) (r_time_out r) (r_now r) v.

Definition on_server_process (c : dbcontext) (r : request) (s : P) : option result :=
  let timeout := u32 (r_time_out r * 1000) in
  if (0 <? r_time_out r) && (timeout <? u64 (r_now r - start_time (packet (j_resp (r_head r))))) then
    x ← tdhs_response_error_global pool_addr fill s (j_resp (r_head r)) CLIENT_STATUS_REQUEST_TIME_OUT REQUEST_TIME_OUT;
    let '(rc, rs, s) := x in Some (rc, c, set_j_resp rs (r_head r), [], s)
  else execute (execute_fuel (r_rest r)) c (r_head r) (r_rest r) s.

(** ** tdh_socket_request_thread.cpp: a round of a worker thread *)

Variables (pool_ok : bool) (calloc_ok : nat -> bool).

(** A packet of a type that is not known is not decoded, and has no table. *)
Definition open_job (c : dbcontext) (j : job) : option (dbcontext * job) :=
  match j_work j with
  | Single r =>
      x ← open_table pool_ok calloc_ok (need_write c) (session c) (tables c) (table_of r);
      let '(o, d, k) := x in
      Some (set_session d (set_tables k c), match o with Some _ => set_opened o j | None => j end)
  | _ => Some (c, j)
  end.
Fixpoint open_jobs (c : dbcontext) (js : list job) : option (dbcontext * list job) :=
  match js with
  | [] => Some (c, [])
  | j :: js =>
      x ← open_job c j; let '(c, j) := x in
      y ← open_jobs c js; let '(c, js) := y in Some (c, j :: js)
  end.
Fixpoint open_requests (c : dbcontext) (rs : list request) : option (dbcontext * list request) :=
  match rs with
  | [] => Some (c, [])
  | r :: rs =>
      x ← open_job c (r_head r); let '(c, j) := x in
      y ← open_jobs c (r_rest r); let '(c, js) := y in
      z ← open_requests c rs; let '(c, rs) := z in Some (c, set_chain j js r :: rs)
  end.

(** A request that returns EASY_ASYNC is gone; the others are answered. *)
Fixpoint process_requests (c : dbcontext) (rs : list request) (pools : list P) : option (dbcontext * list request * list P) :=
  match rs with
  | [] => Some (c, [], pools)
  | r :: rs =>
      if r_closed r then
        y ← process_requests c rs pools;
        let '(c, rs, pools) := y in Some (c, set_retcode EASY_ERROR r :: rs, pools)
      else
        s ← pools !! r_pool r;
        x ← on_server_process c r s;
        let '(ret, c, j, rest, s) := x in
        y ← process_requests c rs (<[r_pool r := s]> pools);
        let '(c, rs, pools) := y in
        Some (c, if ret =? EASY_ASYNC then rs else set_retcode ret (set_chain j rest r) :: rs, pools)
  end.

(** The answers of a request whose group was not committed; the last return code
    counts. *)
Fixpoint fail_group (js : list job) (ret : Z) (s : P) : option (Z * list job * P) :=
  match js with
  | [] => Some (ret, [], s)
  | j :: js =>
      if succeeded (code_of j) then
        x ← respond_error j s CLIENT_STATUS_SERVER_ERROR FAILED_TO_COMMIT;
        let '(ret, j, s) := x in
        y ← fail_group js ret s; let '(ret, js, s) := y in Some (ret, j :: js, s)
      else y ← fail_group js ret s; let '(ret, js, s) := y in Some (ret, j :: js, s)
  end.
Fixpoint do_responses (commit_ret : Z) (rs : list request) (pools : list P) : option (list request * list P) :=
  match rs with
  | [] => Some ([], pools)
  | r :: rs =>
      if negb (commit_ret =? EASY_OK) && (r_retcode r =? EASY_OK) then
        s ← pools !! r_pool r;
        x ← fail_group (r_head r :: r_rest r) (r_retcode r) s;
        let '(ret, js, s) := x in
        y ← do_responses commit_ret rs (<[r_pool r := s]> pools);
        let '(rs, pools) := y in
        match js with
        | j :: js => Some (set_retcode ret (set_chain j js r) :: rs, pools)
        | [] => None
        end
      else y ← do_responses commit_ret rs pools; let '(rs, pools) := y in Some (r :: rs, pools)
  end.

Definition close_tables (cache_on : bool) (c : dbcontext) : option dbcontext :=
  x ← close_table cache_on (session c) (tables c);
  let '(d, k) := x in Some (set_session d (set_tables k c)).

Definition doreq_for_read (cache_on : bool) (c : dbcontext) (rs : list request) (pools : list P)
    : option (dbcontext * list request * list P) :=
  x ← open_requests c rs; let '(c, rs) := x in
  if (List.length rs =? 0)%nat then Some (c, [], pools)
  else
    c ← lock_table malloc c;
    x ← process_requests c rs pools; let '(c, rs, pools) := x in
    x ← unlock_table c; let '(_, c) := x in
    c ← close_tables cache_on c;
    Some (c, rs, pools).

Definition doreq_for_write (cache_on group_commit : bool) (c : dbcontext) (rs : list request) (pools : list P)
    : option (dbcontext * list request * list P) :=
  let c := set_group_commit group_commit c in
  x ← open_requests c rs; let '(c, rs) := x in
  if (List.length rs =? 0)%nat then Some (c, [], pools)
  else
    c ← lock_table malloc c;
    x ← process_requests c rs pools; let '(c, rs, pools) := x in
    x ← unlock_table c; let '(commit_ret, c) := x in
    c ← close_tables cache_on c;
    x ← do_responses commit_ret rs pools; let '(rs, pools) := x in
    Some (c, rs, pools).

Definition close_cached (c : dbcontext) : dbcontext :=
  let '(d, k) := close_cached_table (session c) (tables c) in set_session d (set_tables k c).

(** The tasks of this round and those left for the next one. *)
Definition take_tasks (write : bool) (limits : Z) (tasks : list request) : list request * list request :=
  if write && (0 <? limits) && (limits <? count tasks)
  then (take (Z.to_nat limits) tasks, drop (Z.to_nat limits) tasks) else (tasks, []).

Definition on_wakeup (cache_on group_commit : bool) (limits : Z) (c : dbcontext) (tasks : list request) (pools : list P)
    : option (dbcontext * list request * list P * list request) :=
  let c := if negb cache_on then close_cached c else c in
  let '(rs, later) := take_tasks (need_write c) limits tasks in
  x ← (if need_write c then doreq_for_write cache_on group_commit c rs pools else doreq_for_read cache_on c rs pools);
  let '(c, rs, pools) := x in
  let c := if need_close (tables c) then let c := close_cached c in set_tables (set_need_close false (tables c)) c else c in
  Some (c, rs, pools, later).

End execute.
End TdhsExecute.
