(* ===== verification/TdhsExecuteProofs.v ===== *)
(** * Transactions: what is committed and what is answered

    A batch is executed completely or not at all, and no answer claims success for
    changes that were not committed. *)

From Stdlib Require Import ZArith Lia.
From stdpp Require Import base list numbers option.
From S2P Require Import Prelude CString EasyHash EasyPool TdhsDefine TdhsRead TdhsProtocol TdhsFormat TdhsResponse TdhsTable TdhsFind TdhsContext TdhsContextProofs TdhsExecute.

Local Open Scope Z_scope.

Module TdhsExecuteProofs.
Import TdhsDefine TdhsRead TdhsProtocol TdhsFormat TdhsResponse TdhsTable TdhsFind TdhsContext TdhsContextProofs TdhsExecute.

Abbreviation code r := (command_id_or_response_code (packet r)).

(** ** Response codes *)

Lemma append_code l r r' : append l r = Some r' -> code r' = code r.
Proof.
  unfold append. destruct (buf r); [|done]. cbn [mbind option_bind]. case_match; [done|].
  destruct (puts _ _ _); [|done]. by intros [= <-].
Qed.
Lemma append_each_code l : forall r r', append_each l r = Some r' -> code r' = code r.
Proof.
  induction l as [|x l IH]; intros r r'; cbn [append_each]; [by intros [= <-]|].
  destruct (append [x] r) as [r1|] eqn:E; [|done]. intros H. by rewrite (IH _ _ H), (append_code _ _ _ E).
Qed.
Lemma write_number_code cap t r r' : write_number cap t r = Some r' -> code r' = code r.
Proof.
  unfold write_number. destruct (append _ r) as [r1|] eqn:E1; [|done]. cbn [mbind option_bind].
  destruct (gets _ _ _); [|done]. cbn [mbind option_bind].
  destruct (append _ (add_length 4 r1)) as [r2|] eqn:E2; [|done]. intros [= <-]. cbn.
  rewrite (append_code _ _ _ E2). cbn. by rewrite (append_code _ _ _ E1).
Qed.

Section codes.
Context {P : Type} `{EasyPool.PoolOps P}.
Variables (pool_addr : Z) (fill : nat -> Z).

Lemma response_error_some (s : P) r status c :
  exists rc r' s', tdhs_response_error pool_addr fill s r status c = Some (rc, r', s') /\ code r' = status /\
    (rc = EASY_OK \/ rc = EASY_ERROR).
Proof.
  unfold tdhs_response_error. destruct (create_buf _ _ _ _) as [[b|] s1] eqn:E.
  - pose proof (create_buf_filled pool_addr fill s (4 + TDH_SOCKET_HEADER_LENGTH) b s1 (set_length 4 (set_code status (packet r)))
      ltac:(unfold TDH_SOCKET_HEADER_LENGTH; lia) E) as Hf.
    destruct (append_filled _ _ (htonl_bytes c) _ Hf) as (b1 & Hb & _); [done|].
    rewrite Hb. cbn [mbind option_bind]. eexists _, _, _. split; [done|]. cbn. auto.
  - eexists _, _, _. split; [done|]. cbn. auto.
Qed.

Lemma response_error_code (s : P) r status c rc r' s' :
  tdhs_response_error pool_addr fill s r status c = Some (rc, r', s') -> code r' = status.
Proof. intros E. destruct (response_error_some s r status c) as (? & ? & ? & E' & Hc & _). by simplify_eq. Qed.

Lemma update_header_code (s : P) r ty fs n rc r' s' :
  write_update_header_to_response pool_addr fill s r ty fs n = Some (rc, r', s') -> code r' = code r.
Proof.
  unfold write_update_header_to_response. destruct (create_buf _ _ _ _) as [[b|] s1]; [|by intros [= <- <- <-]].
  destruct (append _ _) as [r1|] eqn:E1; [|done]. cbn [mbind option_bind].
  destruct (append_each _ r1) as [r2|] eqn:E2; [|done]. intros [= <- <- <-]. cbn.
  by rewrite (append_each_code _ _ _ E2), (append_code _ _ _ E1).
Qed.

End codes.

(** ** Requests that write *)

Definition is_write (r : request_v) : Prop := match r with GetV _ _ | CountV _ _ => False | _ => True end.

Section requests.
Context {D T K V P : Type} `{Handler T K V} `{!Server D T} `{!Writer T} `{!Fields V} `{EasyPool.PoolOps P}.
Variables (pool_addr : Z) (fill : nat -> Z) (malloc : Z -> bool) (tdhs_write_buff_size : Z) (scan_fuel : nat).

(** The loop keeps what every handled record keeps. *)
Lemma scan_loop_keeps {Q} (I : Q -> Prop) process (c : cond_v) field_idx filter_buf kinfo (between : K) :
  (forall (t : T) p rc db t' p', I p -> process t p = Some (rc, db, t', p') -> I p') ->
  forall fuel r s l, I (acc s) -> scan_loop (V := V) process c field_idx filter_buf kinfo between fuel r s = Some l ->
  match l with Break _ _ p | Killed _ p | BadKey _ _ p | Returned _ _ p => I p end.
Proof.
  intros Hp. induction fuel as [|fuel IH]; intros r s l Hs; [done|]. cbn [scan_loop].
  case_match; [by intros [= <-]|]. case_match; [by intros [= <-]|].
  destruct (read _ _ _ _ _) as [r1 t1]. case_match.
  { case_match; [|by intros [= <-]]. destruct (c_keys c !! _); [|done]. cbn [mbind option_bind].
    case_match; [by intros [= <-]|]. destruct (prepare_keybuf _ _). by apply IH. }
  case_match; [by apply IH|]. destruct (if 0 <? count (c_filters c) then _ else _) as [pass|]; [|done]. cbn [mbind option_bind].
  destruct pass; cbn [negb]; [|by apply IH]. destruct (skip s =? 0); [|by apply IH].
  destruct (process t1 (acc s)) as [[[[pr pd] t2] p2]|] eqn:E; [|done]. cbn [mbind option_bind].
  pose proof (Hp _ _ _ _ _ _ Hs E). case_match; [by intros [= <-]|]. case_match; [by intros [= <-]|]. by apply IH.
Qed.

(** A response is an error or a success with the lock held. *)
Definition verdict (locked : bool) (p : find_state) : Prop :=
  code (resp (st p)) = CLIENT_STATUS_OK /\ locked = true \/ 400 <= code (resp (st p)) < 600.

Lemma fail_verdict (t : T) p (s : P) status c rc t' p' s' locked : 400 <= status < 600 ->
  fail pool_addr fill t p s status c = Some (rc, t', p', s') -> verdict locked p' /\ retcode p' = retcode p.
Proof.
  intros Hs. unfold fail. destruct (tdhs_response_error _ _ _ _ _ _) as [[[rc1 r1] s1]|] eqn:E; [|done].
  cbn [mbind option_bind]. intros [= <- <- <- <-].
  split; [|done]. right. change (resp (st (set_resp r1 p))) with r1. by rewrite (response_error_code _ _ _ _ _ _ _ _ _ E).
Qed.

(** The handlers of updates and deletions do not touch the response. *)
Lemma update_record_keeps vs fields (t : T) p rc db t' p' : update_record vs fields t p = Some (rc, db, t', p') ->
  st p' = st p /\ retcode p' = retcode p.
Proof.
  unfold update_record. destruct (update_fields _ _ _) as [[[] t1]|]; [| |done]; cbn [mbind option_bind negb]; [|by intros [= <- <- <- <-]].
  destruct (ha_update_row t1) as [r t2]. case_match; [by intros [= <- <- <- <-]|]. case_match; by intros [= <- <- <- <-].
Qed.
Lemma delete_record_keeps (t : T) p rc db t' p' : delete_record t p = Some (rc, db, t', p') ->
  st p' = st p /\ retcode p' = retcode p.
Proof. unfold delete_record. destruct (ha_delete_row t) as [r t1]. case_match; by intros [= <- <- <- <-]. Qed.

Lemma end_update_verdict p p' : end_update_record p = Some p' ->
  code (resp (st p')) = code (resp (st p)) /\ retcode p' = retcode p.
Proof.
  unfold end_update_record, write_update_ender_to_response. destruct (write_number _ _ _) as [r1|] eqn:E1; [|done].
  cbn [mbind option_bind]. destruct (write_number _ _ r1) as [r2|] eqn:E2; [|done]. intros [= <-].
  split; [|done]. change (resp (st (set_resp r2 p))) with r2.
  by rewrite (write_number_code _ _ _ _ E2), (write_number_code _ _ _ _ E1).
Qed.

(** do_find for updates and deletions. *)
Lemma find_verdict process fuel d locked key_length (t : T) p (s : P) rt c rc t' p' s' :
  (forall fields t p rc db t' p', process fields t p = Some (rc, db, t', p') -> st p' = st p /\ retcode p' = retcode p) ->
  do_find_locked (V := V) pool_addr fill malloc (fun _ => create_response_for_update pool_addr fill) process (Some end_update_record)
    fuel (Some (Some d)) locked key_length t p s rt c = Some (rc, t', p', s') ->
  verdict locked p' /\ retcode p' = retcode p.
Proof.
  intros Hp. unfold do_find_locked.
  destruct locked; cbn [negb]; [|by apply fail_verdict].
  destruct (tdhs_open_index _ _) as [[e1 i]|]; [|done]. cbn [mbind option_bind fst snd].
  case_match; [by apply fail_verdict|]. destruct (parse_field _ _) as [[e2 fields]|]; [|done]. cbn [mbind option_bind fst snd].
  case_match; [by apply fail_verdict|].
  match goal with |- mbind _ ?x = _ -> _ => destruct x as [[[field_idx n]|]|]; [| |done] end; cbn [mbind option_bind];
    [|by apply fail_verdict].
  destruct (stack_liker malloc n); [|by apply fail_verdict].
  match goal with |- mbind _ ?x = _ -> _ => destruct x as [filter_buf|]; [|done] end. cbn [mbind option_bind].
  destruct (indexes d !! i) as [kinfo|]; [|done]. cbn [mbind option_bind].
  destruct (stack_liker malloc _); [|by apply fail_verdict].
  unfold find_records. cbn [resp st set_resp on_stream snd].
  destruct (create_response_for_update _ _ _ _) as [[[rc1 r1] s1]|] eqn:Ec; [|done].
  apply update_header_code in Ec. change (code r1 = CLIENT_STATUS_OK) in Ec. cbn [mbind option_bind].
  set (p1 := set_resp r1 _). assert (code (resp (st p1)) = CLIENT_STATUS_OK /\ retcode p1 = retcode p) as Hp1 by done.
  clearbody p1.
  assert (forall t2 x s2 status c2, 400 <= status < 600 -> st x = st p1 -> retcode x = retcode p1 ->
    fail pool_addr fill t2 x s2 status c2 = Some (rc, t', p', s') -> verdict true p' /\ retcode p' = retcode p) as Hfail.
  { intros t2 x s2 status c2 Hst Hx Hr Hf. destruct (fail_verdict t2 x s2 status c2 _ _ _ _ true Hst Hf) as [Hv Hr2].
    split; [done|]. rewrite Hr2, Hr. apply Hp1. }
  case_match; [by eapply Hfail|]. destruct (c_keys c !! 0%nat) as [key|]; [|done]. cbn [mbind option_bind].
  case_match; [by eapply Hfail|]. destruct (prepare_keybuf t key) as [k t1].
  assert (forall e t2, (l ← scan_loop (process fields) c field_idx filter_buf kinfo e fuel 0 (Scan t2 p1 true 0 k (c_limit c) (c_start c));
    after_scan pool_addr fill (Some end_update_record) s1 l) = Some (rc, t', p', s') -> verdict true p' /\ retcode p' = retcode p) as Hstart.
  { intros e t2. destruct (scan_loop _ _ _ _ _ _ _ _ _) as [lf|] eqn:El; [|done]. cbn [mbind option_bind].
    apply (scan_loop_keeps (fun x : find_state => st x = st p1 /\ retcode x = retcode p1)) in El;
      [|intros ? ? ? ? ? ? [] E; destruct (Hp _ _ _ _ _ _ _ E); split; congruence|done].
    destruct lf as [r2 t3 p3|t3 p3|ret t3 p3|ret t3 p3]; cbn [after_scan]; destruct El as [Hst Hr].
    - case_match; [by eapply Hfail|]. destruct (end_update_record p3) as [p4|] eqn:E4; [|done]. intros [= <- <- <- <-].
      apply end_update_verdict in E4 as [Hc4 Hr4]. unfold verdict. rewrite Hc4, Hr4, Hst, Hr. split; [left; split; [apply Hp1|done]|apply Hp1].
    - by eapply Hfail.
    - by eapply Hfail.
    - intros [= <- <- <- <-]. unfold verdict. rewrite Hst, Hr. split; [left; split; [apply Hp1|done]|apply Hp1]. }
  case_match; [|by apply Hstart]. case_match; [by eapply Hfail|]. destruct (c_keys c !! 1%nat) as [key1|]; [|done].
  cbn [mbind option_bind]. case_match; [by eapply Hfail|]. destruct (prepare_keybuf t1 key1) as [e t2]. apply Hstart.
Qed.

Lemma insert_verdict d locked ti last (t : T) p (s : P) rt vs rc t' p' s' last' :
  do_insert pool_addr fill d locked ti last t p s rt vs = Some (rc, t', p', s', last') ->
  verdict locked p' /\ retcode p' = retcode p.
Proof.
  unfold do_insert.
  assert (forall (t : T) q (s : P) status c (l : option nat), 400 <= status < 600 -> retcode q = retcode p ->
    (x ← fail pool_addr fill t q s status c; Some (x, l)) = Some (rc, t', p', s', last') ->
    verdict locked p' /\ retcode p' = retcode p) as Hfail.
  { intros t1 q s1 status c l Hst Hq. destruct (fail _ _ _ _ _ _ _) as [[[[rc1 t2] p2] s2]|] eqn:E; [|done]. intros [= <- <- <- <- <-].
    destruct (fail_verdict _ _ _ _ _ _ _ _ _ locked Hst E) as [Hv ->]. done. }
  destruct locked; cbn [negb]; [|by apply Hfail].
  destruct (parse_field _ _) as [[e2 fields]|]; [|done]. cbn [mbind option_bind fst snd].
  case_match; [by apply Hfail|]. cbn [resp st set_resp on_stream snd].
  destruct (create_response_for_insert _ _ _ _) as [[[rc1 r1] s1]|] eqn:Ec; [|done].
  apply update_header_code in Ec. change (code r1 = CLIENT_STATUS_OK) in Ec. cbn [mbind option_bind].
  case_match; [by apply Hfail|]. destruct (insert_fields _ _ _) as [[stored t1]|]; [|done]. cbn [mbind option_bind].
  case_match; [by apply Hfail|]. destruct (ha_write_row _) as [r t2]. case_match; [|by apply Hfail].
  destruct (write_insert_ender_to_response _ _) as [r2|] eqn:Er; [|done]. intros [= <- <- <- <- <-].
  apply write_number_code in Er. split; [|done]. left. split; [|done]. change (code r2 = CLIENT_STATUS_OK). by rewrite Er.
Qed.

(** The errors are always answered. *)
Lemma fail_some (t : T) p (s : P) status c : is_Some (fail pool_addr fill t p s status c).
Proof.
  unfold fail. destruct (response_error_some pool_addr fill s (resp (st p)) status c) as (rc & r & s' & -> & _). by eexists.
Qed.

(** An insertion with a value for each field is always answered. *)
Lemma insert_some d locked ti last (t : T) p (s : P) rt vs :
  Forall str_ok (t_fields rt) -> (List.length (t_fields rt) <= REQUEST_MAX_FIELD_NUM)%nat -> List.length vs = List.length (t_fields rt) ->
  is_Some (do_insert pool_addr fill d locked ti last t p s rt vs).
Proof.
  intros Hf Hn Hv. unfold do_insert.
  assert (forall (t : T) p (s : P) status c (l : option nat), is_Some (x ← fail pool_addr fill t p s status c; Some (x, l))) as Hfail.
  { intros t1 p1 s1 status c l. destruct (fail_some t1 p1 s1 status c) as [x ->]. by eexists. }
  destruct locked; cbn [negb]; [|apply Hfail].
  destruct (parse_field_loop_ok d (t_fields rt) [] Hf Hn) as (rc & idx & E & Hx). unfold parse_field. rewrite E. cbn [mbind option_bind fst snd].
  case_match; [apply Hfail|]. assert (List.length idx = List.length vs) as Hl.
  { destruct Hx as [(_ & idx' & -> & H2)|[-> _]]; [|done]. apply Forall2_length in H2. cbn [app]. congruence. }
  unfold create_response_for_insert.
  match goal with |- context [write_update_header_to_response _ _ _ ?r _ _ _] =>
    destruct (write_update_header_ok pool_addr fill s r MYSQL_TYPE_LONG 48 1) as (rc1 & r1 & s1 & E1 & Hr1); [done..|] end.
  rewrite E1. cbn [mbind option_bind]. case_match; [apply Hfail|].
  destruct Hr1 as [[-> _]|[_ Hr1]]; [done|].
  assert (forall idx vs (t : T), List.length idx = List.length vs -> exists y, insert_fields t idx vs = Some y) as Hins.
  { clear. induction idx as [|[j ty] idx IH]; intros [|x vs] t Hl; try done; [by eexists|]. cbn [insert_fields head mbind option_bind].
    destruct (insert_field t j x) as [rc t1]. case_match; [by eexists|]. apply IH. by injection Hl. }
  destruct (Hins idx vs (clear_null_flags (empty_record t)) Hl) as [[stored t1] ->]. cbn [mbind option_bind].
  destruct stored; cbn [negb]; [|apply Hfail]. destruct (ha_write_row _) as [r t2]. case_match; [|apply Hfail].
  set (id := u64 (insert_id t2)). assert (0 <= id < 2 ^ 64) as Hid by (apply Z.mod_pos_bound; lia).
  pose proof (udec_count id 20 ltac:(lia) ltac:(lia) ltac:(lia)) as Hud.
  destruct (write_number_ok (update_cap 48 1) _ _ _ 48 _ (udec id) _ ltac:(done) Hr1) as (r2 & E2 & _).
  { unfold count in Hud. lia. }
  { change (count (TdhsResponse.columns MYSQL_TYPE_LONG 1)) with 5. unfold update_cap, TDH_SOCKET_HEADER_LENGTH. lia. }
  unfold write_insert_ender_to_response. match goal with |- context [write_number 48 _ ?r] => change r with r1 end. rewrite E2. by eexists.
Qed.

Lemma run_request_verdict closed r d kl locked ti last (t : T) p (s : P) rc t' p' s' last' : is_write r ->
  run_request (V := V) pool_addr fill malloc tdhs_write_buff_size scan_fuel closed r d kl locked ti last t p s = Some (rc, t', p', s', last') ->
  verdict locked p' /\ retcode p' = retcode p.
Proof.
  destruct r as [| |rt c vs|rt c|rt vs]; intros Hw; try done; cbn [run_request]; [| |apply insert_verdict];
    (destruct (do_find_locked _ _ _ _ _ _ _ _ _ _ _ _ _ _ _) as [[[[rc1 t1] p1] s1]|] eqn:E; [|done]);
    intros [= <- <- <- <- <-]; revert E; apply find_verdict; intros ? ? ? ? ? ? ?.
  - apply update_record_keeps.
  - apply delete_record_keeps.
Qed.

End requests.

(** ** The server *)

(** What the code relies on: [durable] is what the session has committed to the
    database, [working] what a commit would make durable.  Apart from a commit no
    call changes the former; a failed commit is a rollback. *)
Class Transactions (D T : Type) `{Server D T} := {
  content : Type; durable : D -> content; working : D -> content;
  durable_open : forall d db name w, durable (snd (open_table_in d db name w)) = durable d;
  durable_close : forall d, durable (close_thread_tables d) = durable d;
  durable_put : forall d t h, durable (put_handler d t h) = durable d;
  durable_lock : forall d ts, durable (snd (mysql_lock_tables d ts)) = durable d;
  durable_unlock : forall d, durable (mysql_unlock_tables d) = durable d;
  durable_binlog : forall d, durable (row_binlog d) = durable d;
  durable_invalidate : forall d t, durable (invalidate d t) = durable d;
  durable_command : forall d c, durable (set_command d c) = durable d;
  durable_not_killed : forall d, durable (not_killed d) = durable d;
  durable_clear_error : forall d, durable (clear_error d) = durable d;
  durable_rollback : forall d, durable (trans_rollback_stmt d) = durable d;
  commit_failed : forall d, fst (trans_commit_stmt d) = false -> durable (snd (trans_commit_stmt d)) = durable d;
  commit_done : forall d, fst (trans_commit_stmt d) = true -> durable (snd (trans_commit_stmt d)) = working d;
  working_invalidate : forall d t, working (invalidate d t) = working d }.

Create HintDb server.
#[export] Hint Rewrite @durable_open @durable_close @durable_put @durable_lock @durable_unlock @durable_binlog
  @durable_invalidate @durable_command @durable_not_killed @durable_clear_error @durable_rollback : server.
Section transactions.
Context {D T K V P : Type} `{Handler T K V} `{!Server D T} `{!Writer T} `{!Fields V} `{EasyPool.PoolOps P} `{!Transactions D T}.
Variables (pool_addr : Z) (fill : nat -> Z) (malloc : Z -> bool) (tdhs_write_buff_size : Z) (scan_fuel : nat) (address : obj -> Z).

Abbreviation run_request := (run_request (T := T) (V := V) (P := P) pool_addr fill malloc tdhs_write_buff_size scan_fuel).
Abbreviation do_request := (do_request (D := D) (T := T) (V := V) (P := P) pool_addr fill malloc tdhs_write_buff_size scan_fuel).
Abbreviation execute := (execute (D := D) (T := T) (V := V) (P := P) pool_addr fill malloc tdhs_write_buff_size scan_fuel address).
Abbreviation do_batch := (do_batch (D := D) (T := T) (V := V) (P := P) pool_addr fill malloc tdhs_write_buff_size scan_fuel address).
Abbreviation batch_packets := (batch_packets (D := D) (T := T) (V := V) (P := P) pool_addr fill malloc tdhs_write_buff_size scan_fuel address).
Abbreviation do_batch_with_lock := (do_batch_with_lock (D := D) (T := T) (V := V) (P := P) pool_addr fill malloc tdhs_write_buff_size scan_fuel address).

(** The end of a transaction. *)
Lemma unlock_spec (d : D) locked os write we : let x := tdhs_unlock_table d locked os write we in
  (locked = false /\ x = (EASY_OK, d)) \/
  (locked = true /\ fst x = EASY_OK /\ we = 0 /\ durable (snd x) = working d) \/
  (locked = true /\ fst x = EASY_ERROR /\ durable (snd x) = durable d).
Proof.
  unfold tdhs_unlock_table. destruct locked; [|by left]. right.
  set (d1 := if write then _ else d).
  assert (durable d1 = durable d /\ working d1 = working d) as [Hd Hw].
  { unfold d1. destruct write; [|done]. clear d1. revert d. induction os as [|o os IH]; intros d; [done|]. cbn [fold_left].
    destruct (mysql_table o), (is_modified o); try apply IH.
    destruct (IH (invalidate d n)) as [-> ->]. by rewrite durable_invalidate, working_invalidate. }
  clearbody d1. destruct (Z.eqb_spec we 0) as [->|Hwe]; cbn [negb].
  - pose proof (commit_done d1) as Hc. pose proof (commit_failed d1) as Hf. destruct (trans_commit_stmt d1) as [[] d2]; cbn [fst snd negb] in *.
    + left. split_and!; try done. rewrite durable_unlock, Hc, Hw by done. done.
    + right. split_and!; try done. by rewrite durable_unlock, Hf, Hd by done.
  - right. cbn [fst snd negb]. split_and!; try done. by rewrite durable_unlock, durable_rollback, Hd.
Qed.

(** What the requests of a transaction leave alone. *)
Record steady (c c' : dbcontext (D := D)) : Prop := {
  same_write : need_write c' = need_write c;
  same_bulk : bulk c' = bulk c;
  same_batch : in_batch c' = in_batch c;
  same_lock : lock c' = lock c;
  same_durable : durable (session c') = durable (session c);
  same_shape : cache_shape (tables c') = cache_shape (tables c);
  same_tables : same_objects (tables c) (tables c') }.

#[export] Instance steady_refl : Reflexive steady.
Proof. by constructor. Qed.
#[export] Instance steady_trans : Transitive steady.
Proof. intros c1 c2 c3 [] []. constructor; congruence. Qed.

Lemma steady_session c d : durable d = durable (session c) -> steady c (set_session d c).
Proof. by constructor. Qed.

Lemma alter_same_tables f k o o' : (forall x, mysql_table (f x) = mysql_table x) ->
  option_map mysql_table (lookup_obj (alter_obj f k o) o') = option_map mysql_table (lookup_obj k o').
Proof.
  intros Hf. assert (forall (l : list opened_table_t) i j, option_map mysql_table (alter f i l !! j) = option_map mysql_table (l !! j)) as Hl.
  { intros l i j. destruct (decide (i = j)) as [->|Hij].
    - rewrite list_lookup_alter_eq. destruct (l !! j); cbn; [by rewrite Hf|done].
    - by rewrite list_lookup_alter_ne. }
  destruct o as [i|i], o' as [j|j]; cbn [alter_obj lookup_obj set_for_cached set_pool_objs for_cached pool_objs]; try done.
  destruct (pool_objs k) as [l|]; [|done]. apply Hl.
Qed.

(** A request that is answered whatever the server holds. *)
Definition runs (r : request_v) : Prop :=
  forall closed d kl locked ti last t p s, is_Some (run_request closed r d kl locked ti last t p s).
Definition part_of (c : dbcontext (D := D)) (j : job) : Prop :=
  (exists r, j_work j = Single r /\ is_write r /\ runs r) /\
  (forall o, j_opened j = Some o -> is_Some (lookup_obj (tables c) o)).

Lemma part_steady c c' j : steady c c' -> part_of c j -> part_of c' j.
Proof.
  intros Hs [Hr Ho]. split; [done|]. intros o Hj. apply (same_is_Some (tables c)); [apply Hs|by apply Ho].
Qed.

(** The answer of a part: success only under the lock. *)
Definition part_answer (c : dbcontext (D := D)) (j : job) : Prop :=
  code_of j = CLIENT_STATUS_OK /\ lock c = true \/ 400 <= code_of j < 600.

Lemma respond_error_ok j (s : P) status c : exists rc j' s', respond_error pool_addr fill j s status c = Some (rc, j', s') /\
  code_of j' = status /\ j_work j' = j_work j /\ (rc = EASY_OK \/ rc = EASY_ERROR).
Proof.
  unfold respond_error. destruct (response_error_some pool_addr fill s (j_resp j) status c) as (rc & r & s' & -> & Hc & Hrc).
  cbn [mbind option_bind]. by eexists _, _, _.
Qed.

Lemma do_request_ok c j (s : P) r : bulk c || in_batch c = true -> part_of c j -> j_work j = Single r ->
  exists rc c' j' s', do_request c j r s = Some (rc, c', j', s') /\ steady c c' /\ write_error c' = write_error c /\
    ctx_retcode c' = ctx_retcode c /\ part_answer c j'.
Proof.
  intros Hb [(r0 & Hj & Hw & Hrun) Ho] Hr. assert (r0 = r) as -> by congruence. unfold TdhsExecute.do_request.
  set (c1 := set_session _ c). assert (steady c c1) as Hs1 by (apply steady_session, durable_command).
  assert (bulk c1 || in_batch c1 = true) as Hb1 by done.
  assert (write_error c1 = write_error c /\ ctx_retcode c1 = ctx_retcode c /\ lock c1 = lock c) as (He1 & Hr1 & Hl1) by done.
  assert (tables c1 = tables c) as Ht1 by done. clearbody c1.
  destruct (j_opened j) as [o|] eqn:Eo.
  2: { destruct (respond_error_ok j s CLIENT_STATUS_SERVER_ERROR NOT_ENOUGH_MEMORY) as (rc & j' & s' & -> & Hc & _).
       cbn [mbind option_bind]. eexists _, _, _, _. split_and!; [done|done|done|done|]. right. by rewrite Hc. }
  destruct (Ho o eq_refl) as [ot Hot]. rewrite Ht1, Hot. cbn [mbind option_bind]. destruct (mysql_table ot) as [ti|] eqn:Et.
  2: { destruct (respond_error_ok j s CLIENT_STATUS_NOT_FOUND FAILED_TO_OPEN_TABLE) as (rc & j' & s' & -> & Hc & _).
       cbn [mbind option_bind]. eexists _, _, _, _. split_and!; [done|done|done|done|]. right. by rewrite Hc. }
  unfold lock_tables. rewrite Hb1. cbv zeta.
  match goal with |- context [run_request ?a ?b ?d ?e ?f ?g ?h ?i ?p ?s] => destruct (Hrun a d e f g h i p s) as [[[[[rc t] p'] s'] last] Hx]; set (p0 := p) in * end.
  rewrite Hx. cbn [mbind option_bind]. destruct (run_request_verdict _ _ _ _ _ _ _ _ _ _ _ _ _ _ _ _ _ _ _ _ Hw Hx) as [Hv Hret].
  unfold unlock_tables. cbn [bulk in_batch set_tables set_last_table set_session]. rewrite Hb1. cbn [mbind option_bind].
  change (EASY_OK =? EASY_OK) with true. unfold TdhsFind.unlock. cbn [negb andb mbind option_bind].
  eexists _, _, _, _. split; [done|]. split; [|split; [done|split]].
  - etrans; [exact Hs1|]. constructor; try done.
    + cbn. apply durable_put.
    + apply alter_shape.
    + intros o'. cbn [tables set_stream_count set_ctx_retcode set_tables]. by apply alter_same_tables.
  - cbn. rewrite Hret. by unfold p0.
  - unfold part_answer, verdict in *. rewrite <- Hl1. exact Hv.
Qed.

(** ** The equations of execute *)

Lemma execute_request_eq fuel c j rest (s : P) :
  execute (Datatypes.S fuel) c j rest s =
  let c := set_session (clear_error (not_killed (session c))) (set_ctx_retcode EASY_OK c) in
  x ← match j_work j with
      | Single r => y ← do_request c j r s; let '(ret, c, j, s) := y in Some (ret, c, j, rest, s)
      | Batch => if bulk c then do_batch fuel c j rest s else do_batch_with_lock fuel c j rest s
      | Unknown =>
          y ← tdhs_response_error_global pool_addr fill s (j_resp j) CLIENT_STATUS_NOT_IMPLEMENTED NOT_IMPLEMENTED;
          let '(ret, r, s) := y in Some (ret, c, set_j_resp r j, [], s)
      end;
  let '(ret, c, j, rest, s) := x in
  let c := set_session (not_killed (session c)) (set_stream_count 0 (set_execute_count (u64 (execute_count c + 1)) c)) in
  Some (if negb (ctx_retcode c =? EASY_OK) then ctx_retcode c else ret, c, j, rest, s).
Proof. reflexivity. Qed.

Lemma do_batch_eq fuel c j rest (s : P) :
  do_batch (Datatypes.S fuel) c j rest s =
  let '(rc, r, s) := tdhs_response_batch pool_addr fill s (j_resp j) in
  let j := set_j_resp r j in
  if negb (rc =? EASY_OK) then Some (EASY_ERROR, c, j, rest, s)
  else
    x ← batch_packets fuel (set_in_batch true c) rest s;
    let '(ret, c, rest, s) := x in
    Some (ret, set_in_batch false c, j, rest, s).
Proof. reflexivity. Qed.

Lemma batch_packets_eq fuel c b js (s : P) :
  batch_packets (Datatypes.S fuel) c (b :: js) s =
  x ← execute fuel c b js s;
  let '(ret, c, b, js, s) := x in
  if negb (ret =? EASY_OK) then Some (ret, set_write_error 1 c, b :: js, s)
  else
    y ← batch_packets fuel (if 300 <=? code_of b then set_write_error 1 c else c) js s;
    let '(ret, c, js, s) := y in Some (ret, c, b :: js, s).
Proof. reflexivity. Qed.

Lemma with_lock_eq fuel c j rest (s : P) :
  do_batch_with_lock (Datatypes.S fuel) c j rest s =
  let batch_num := reserved (packet (j_resp j)) in
  match stack_liker malloc (u64 (8 * batch_num * 2)) with
  | None =>
      x ← respond_error pool_addr fill j s CLIENT_STATUS_SERVER_ERROR NOT_ENOUGH_MEMORY;
      let '(rc, j, s) := x in Some (rc, c, j, rest, s)
  | Some _ =>
      x ← collect_tables address (tables c) batch_num rest (replicate (8 * Z.to_nat bloom_fsize) false) [] [];
      let '(opened, ts) := x in
      y ← do_batch fuel (lock_tables ts c) j rest s;
      let '(ret, c, j, rest, s) := y in
      u ← unlock_tables opened c;
      let '(u, c) := u in
      if negb (u =? EASY_OK) && (ret =? EASY_OK) then
        z ← fail_commits pool_addr fill (j :: rest) s;
        let '(rc, js, s) := z in
        match js with
        | j :: rest => Some (if negb (rc =? EASY_OK) then EASY_ERROR else ret, c, j, rest, s)
        | [] => None
        end
      else Some (ret, c, j, rest, s)
  end.
Proof. reflexivity. Qed.

Lemma execute_part fuel c j rest (s : P) : bulk c || in_batch c = true -> part_of c j ->
  exists ret c' j' s', execute (Datatypes.S fuel) c j rest s = Some (ret, c', j', rest, s') /\ steady c c' /\
    write_error c' = write_error c /\ ctx_retcode c' = EASY_OK /\ part_answer c j'.
Proof.
  intros Hb Hp. destruct Hp as [(r & Hj & Hwr) Ho] eqn:Ep. rewrite execute_request_eq. cbv zeta. rewrite Hj.
  set (c1 := set_session _ (set_ctx_retcode _ c)).
  assert (steady c c1) as Hs1 by (constructor; try done; cbn; by rewrite durable_clear_error, durable_not_killed).
  destruct (do_request_ok c1 j s r Hb (part_steady _ _ _ Hs1 Hp) Hj) as (rc & c2 & j' & s' & -> & Hs2 & Hw2 & Hr2 & Ha).
  cbn [mbind option_bind]. cbv zeta. cbn [ctx_retcode set_session set_stream_count set_execute_count]. rewrite Hr2.
  change (ctx_retcode c1 =? EASY_OK) with true. cbn [negb].
  eexists _, _, _, _. split; [done|]. split_and!; [|exact Hw2|exact Hr2|exact Ha].
  etrans; [exact Hs1|]. etrans; [exact Hs2|]. constructor; try done. cbn. apply durable_not_killed.
Qed.

(** Parts executed once each, in order, with success. *)
Inductive applied : dbcontext (D := D) -> list job -> list job -> dbcontext (D := D) -> Prop :=
  | applied_nil c : applied c [] [] c
  | applied_cons c c1 c2 j j' js js' fuel s s' :
      execute fuel c j js s = Some (EASY_OK, c1, j', js, s') -> code_of j' = CLIENT_STATUS_OK ->
      applied c1 js js' c2 -> applied c (j :: js) (j' :: js') c2.

Lemma applied_ok c js js' c' : applied c js js' c' -> Forall (fun j => code_of j = CLIENT_STATUS_OK) js'.
Proof. induction 1; constructor; done. Qed.

Lemma batch_packets_ok fuel : forall js c (s : P), (List.length js < fuel)%nat -> in_batch c = true -> Forall (part_of c) js ->
  ctx_retcode c = EASY_OK ->
  exists ret c' js' s', batch_packets fuel c js s = Some (ret, c', js', s') /\ steady c c' /\ ctx_retcode c' = EASY_OK /\
    (ret = EASY_OK /\ write_error c' = write_error c /\ applied c js js' c' /\ (js = [] \/ lock c = true) \/
     write_error c' = 1 /\ (ret = EASY_OK -> Forall (part_answer c) js')).
Proof.
  induction fuel as [|fuel IH]; intros js c s Hf Hb Hjs Hret; [lia|]. destruct js as [|j js].
  { eexists _, _, _, _. split; [done|]. split_and!; try done. left. split_and!; try done; [constructor|by left]. }
  cbn [List.length] in Hf. apply list.Forall_cons in Hjs as [Hj Hjs]. destruct fuel as [|fuel]; [lia|].
  destruct (execute_part fuel c j js s) as (ret & c1 & j' & s1 & E & Hs1 & Hw1 & Hr1 & Ha); [by rewrite Hb, orb_true_r|done|].
  rewrite batch_packets_eq, E. cbn [mbind option_bind]. destruct (Z.eqb_spec ret EASY_OK) as [->|Hne]; cbn [negb].
  2: { eexists _, _, _, _. split; [done|]. split_and!; [|done|].
       - etrans; [exact Hs1|]. by constructor.
       - right. by split. }
  set (c2 := if 300 <=? code_of j' then set_write_error 1 c1 else c1).
  assert (steady c c2) as Hs2 by (etrans; [exact Hs1|]; unfold c2; case_match; [by constructor|done]).
  assert (ctx_retcode c2 = EASY_OK) as Hr2 by (unfold c2; by case_match).
  destruct (IH js c2 s1) as (ret & c3 & js' & s3 & E3 & Hs3 & Hr3 & Hcase); [lia|by rewrite (same_batch _ _ Hs2)| |done|].
  { eapply list.Forall_impl; [exact Hjs|]. intros x. by apply part_steady. }
  rewrite E3. cbn [mbind option_bind]. eexists _, _, _, _. split; [done|]. split; [by etrans|]. split; [done|].
  assert (forall x, part_answer c2 x -> part_answer c x) as Hpa by (intros x; unfold part_answer; by rewrite (same_lock _ _ Hs2)).
  destruct Ha as [[Hc Hl]|Hc].
  - assert (c2 = c1) as E2 by (unfold c2; by rewrite Hc). rewrite E2 in *. destruct Hcase as [(-> & Hw & Hap & _)|[Hw Hall]].
    + left. split_and!; [done|by rewrite Hw|by econstructor|by right].
    + right. split; [done|]. intros Hok. constructor; [by left|]. eapply list.Forall_impl; [by apply Hall|done].
  - assert (write_error c2 = 1) as Hw2 by (unfold c2; by destruct (Z.leb_spec 300 (code_of j')); [|lia]).
    right. split.
    + destruct Hcase as [(_ & Hw & _)|[Hw _]]; congruence.
    + intros Hok. constructor; [by right|]. destruct Hcase as [(_ & _ & Hap & Hl)|[_ Hall]].
      * pose proof (applied_ok _ _ _ _ Hap) as Hall. destruct Hl as [->|Hl]; [inversion Hap; subst; constructor|].
        eapply list.Forall_impl; [exact Hall|]. intros x Hx. apply Hpa. by left.
      * eapply list.Forall_impl; [by apply Hall|done].
Qed.

(** ** The lock of a batch *)

Lemma fail_commits_ok js : forall (s : P), exists rc js' s', fail_commits pool_addr fill js s = Some (rc, js', s') /\
  List.length js' = List.length js /\ (rc = EASY_OK -> Forall (fun j => succeeded (code_of j) = false) js').
Proof.
  induction js as [|j js IH]; intros s; cbn [fail_commits]; [by eexists _, _, _|].
  destruct (succeeded (code_of j)) eqn:Es.
  - destruct (respond_error_ok j s CLIENT_STATUS_SERVER_ERROR FAILED_TO_COMMIT) as (rc & j' & s1 & -> & Hc & _). cbn [mbind option_bind].
    destruct (Z.eqb_spec rc EASY_OK); cbn [negb]; [|by eexists _, _, _].
    destruct (IH s1) as (rc2 & js' & s2 & -> & Hl & Hf). cbn [mbind option_bind]. eexists _, _, _. split; [done|].
    split; [by cbn; rewrite Hl|]. intros Hok. constructor; [by rewrite Hc|by apply Hf].
  - destruct (IH s) as (rc2 & js' & s2 & -> & Hl & Hf). cbn [mbind option_bind]. eexists _, _, _. split; [done|].
    split; [by cbn; rewrite Hl|]. intros Hok. constructor; [done|by apply Hf].
Qed.

(** The tables a batch uses, as a reference: the open ones, each at its first use. *)
Definition table_of_job (k : table_cache) (j : job) : option obj :=
  o ← j_opened j; x ← lookup_obj k o; _ ← mysql_table x; Some o.
Fixpoint first_uses (k : table_cache) (seen : list obj) (js : list job) : list obj :=
  match js with
  | [] => seen
  | j :: js =>
      match table_of_job k j with
      | Some o => first_uses k (if bool_decide (o ∈ seen) then seen else seen ++ [o]) js
      | None => first_uses k seen js
      end
  end.

Definition marks (bloom : list bool) (opened : list obj) : Prop :=
  List.length bloom = (8 * Z.to_nat bloom_fsize)%nat /\ forall o, o ∈ opened -> GETBIT bloom (address o mod bloom_fsize) = true.

Lemma marks_add bloom opened o : marks bloom opened -> marks (SETBIT bloom (address o mod bloom_fsize)) (opened ++ [o]).
Proof.
  intros [Hl Hm]. unfold marks, GETBIT, SETBIT in *. split; [by rewrite length_insert|]. intros o' Ho.
  destruct (decide (Z.to_nat (address o mod bloom_fsize) = Z.to_nat (address o' mod bloom_fsize))) as [E|E].
  - rewrite E, list_lookup_insert_eq; [done|]. rewrite Hl. pose proof (Z.mod_pos_bound (address o') bloom_fsize). unfold bloom_fsize in *. lia.
  - rewrite list_lookup_insert_ne by done. apply elem_of_app in Ho as [Ho| ->%list_elem_of_singleton]; [by apply Hm|done].
Qed.

Lemma collect_tables_ok k n js : forall bloom opened ts, marks bloom opened -> Z.of_nat (List.length opened + List.length js) <= n ->
  (forall j o, j ∈ js -> j_opened j = Some o -> is_Some (lookup_obj k o)) ->
  Forall2 (fun o t => exists x, lookup_obj k o = Some x /\ mysql_table x = Some t) opened ts -> NoDup opened ->
  exists ts', collect_tables address k n js bloom opened ts = Some (first_uses k opened js, ts') /\
    Forall2 (fun o t => exists x, lookup_obj k o = Some x /\ mysql_table x = Some t) (first_uses k opened js) ts' /\
    NoDup (first_uses k opened js).
Proof.
  induction js as [|j js IH]; intros bloom opened ts Hm Hn Ho Hts Hnd; cbn [collect_tables first_uses List.length] in *; [by exists ts|].
  assert (forall j o, j ∈ js -> j_opened j = Some o -> is_Some (lookup_obj k o)) as Ho' by (intros j1 o1 H1; apply Ho; by right).
  unfold table_of_job. destruct (j_opened j) as [o|] eqn:Ej; cbn [mbind option_bind]; [|by apply IH; [|lia|..]].
  destruct (Ho j o ltac:(by left) Ej) as [x Hx]. rewrite Hx. cbn [mbind option_bind].
  destruct (mysql_table x) as [t|] eqn:Et; cbn [mbind option_bind]; [|by apply IH; [|lia|..]].
  assert ((if GETBIT bloom (address o mod bloom_fsize) then bool_decide (o ∈ opened) else false) = bool_decide (o ∈ opened)) as ->.
  { case_match eqn:Eb; [done|]. symmetry. apply bool_decide_eq_false. intros Hin. apply Hm in Hin. congruence. }
  case_bool_decide as Hin; [by apply IH; [|lia|..]|]. destruct (Z.ltb_spec (Z.of_nat (List.length opened)) n); [|lia].
  apply IH; [by apply marks_add|rewrite length_app; cbn; lia|done| |].
  - apply Forall2_app; [done|]. constructor; [by exists x|constructor].
  - apply list.NoDup_app. split_and!; [done| |apply NoDup_singleton]. intros o' Ho1 ->%list_elem_of_singleton. done.
Qed.

(** ** Batches *)

Lemma lock_durable (d : D) ts w : durable (snd (tdhs_lock_table d ts w)) = durable d.
Proof.
  unfold tdhs_lock_table. set (d1 := if negb w then _ else d).
  assert (durable d1 = durable d) as <- by (unfold d1; case_match; [apply durable_command|done]). clearbody d1.
  pose proof (durable_lock d1 ts) as Hl. destruct (mysql_lock_tables d1 ts) as [[] d2]; cbn [negb snd] in *; [|done].
  destruct w; [|done]. by rewrite durable_binlog.
Qed.

(** From one context to another nothing was committed. *)
Record begun (c c' : dbcontext (D := D)) : Prop := {
  begun_bulk : bulk c' = bulk c;
  begun_durable : durable (session c') = durable (session c);
  begun_error : write_error c' = write_error c;
  begun_retcode : ctx_retcode c' = ctx_retcode c;
  begun_tables : tables c' = tables c }.

Lemma lock_tables_ok ts (c : dbcontext (D := D)) : begun c (lock_tables ts c) /\ in_batch (lock_tables ts c) = in_batch c.
Proof.
  unfold lock_tables. case_match; [by split|]. pose proof (lock_durable (session c) ts (need_write c)) as Hd.
  destruct (tdhs_lock_table _ _ _) as [ok d]. by split.
Qed.

(** The parts of a batch were executed once each with success and made durable,
    or nothing was (because nothing could be executed, or because all was undone),
    and then no answer that is sent claims success. *)
Definition all_or_nothing (c : dbcontext (D := D)) (js : list job) (ret : Z) (c' : dbcontext (D := D)) (j' : job) (js' : list job) : Prop :=
  (exists part part' c1 c2, durable (session c1) = durable (session c) /\ applied c1 part part' c2 /\
     durable (session c') = working (session c2) /\
     (ret = EASY_OK /\ part = js /\ part' = js' \/ ret = EASY_ERROR /\ part = [])) \/
  (durable (session c') = durable (session c) /\
     (ret = EASY_OK -> Forall (fun j => succeeded (code_of j) = false) (j' :: js'))).

Lemma part_answer_no_lock c j : lock c = false -> part_answer c j -> succeeded (code_of j) = false.
Proof. unfold part_answer, succeeded. intros Hl [[_ ?]|Hc]; [congruence|]. destruct (Z.ltb_spec (code_of j) 300); [lia|]. by rewrite andb_false_r. Qed.

Lemma response_batch_ok (s : P) j : exists rc r s', tdhs_response_batch pool_addr fill s (j_resp j) = (rc, r, s') /\
  code r = CLIENT_STATUS_MULTI_STATUS /\ (rc = EASY_OK \/ rc = EASY_ERROR).
Proof. unfold tdhs_response_batch. destruct (create_buf _ _ _ _) as [[b|] s1]; eexists _, _, _; (split; [done|]); auto. Qed.

(** do_batch up to the end of the transaction. *)
Lemma do_batch_ok fuel c j rest (s : P) : (List.length rest < fuel)%nat -> in_batch c = false -> ctx_retcode c = EASY_OK ->
  Forall (part_of c) rest ->
  exists ret c' j' rest' s', do_batch (Datatypes.S fuel) c j rest s = Some (ret, c', j', rest', s') /\ steady c c' /\ ctx_retcode c' = EASY_OK /\
    code_of j' = CLIENT_STATUS_MULTI_STATUS /\
    (ret = EASY_ERROR /\ c' = c \/
     ret = EASY_OK /\ write_error c' = write_error c /\ (rest = [] \/ lock c = true) /\
       (exists c1 c2, durable (session c1) = durable (session c) /\ applied c1 rest rest' c2 /\ session c' = session c2) \/
     write_error c' = 1 /\ (ret = EASY_OK -> Forall (part_answer c) rest')).
Proof.
  intros Hf Hb Hr Hp. rewrite do_batch_eq. destruct (response_batch_ok s j) as (rc & r & s1 & -> & Hc & [->| ->]); cbn [negb Z.eqb].
  2: { eexists _, _, _, _, _. split; [done|]. split_and!; [reflexivity|done|done|by left]. }
  change (negb (EASY_OK =? EASY_OK)) with false. cbv iota.
  destruct (batch_packets_ok fuel rest (set_in_batch true c) s1 Hf eq_refl) as (ret & c' & rest' & s' & -> & Hs & Hr' & Hcase).
  { eapply list.Forall_impl; [exact Hp|]. done. }
  { done. }
  cbn [mbind option_bind]. eexists _, _, _, _, _. split; [done|]. split_and!; [|done|done|].
  { destruct Hs. by constructor. }
  right. destruct Hcase as [(-> & Hw & Ha & Hl)|Hw]; [left|by right]. split_and!; try done. by exists (set_in_batch true c), c'.
Qed.

(** The context between transactions. *)
Definition idle (c : dbcontext (D := D)) : Prop := in_batch c = false /\ lock c = false /\ write_error c = 0.

(** How a transaction ended: without a lock there was none, and otherwise it was
    committed or undone. *)
Definition ended_with (u : Z) (c c' : dbcontext (D := D)) : Prop :=
  lock c = false /\ u = EASY_OK /\ durable (session c') = durable (session c) \/
  lock c = true /\ u = EASY_OK /\ write_error c = 0 /\ durable (session c') = working (session c) \/
  lock c = true /\ u = EASY_ERROR /\ durable (session c') = durable (session c).

Lemma after_unlock_ok os c : in_batch c = false ->
  let x := after_unlock (tdhs_unlock_table (session c) (lock c) os (need_write c) (write_error c)) c in
  ended_with (fst x) c (snd x) /\ idle (snd x) /\ ctx_retcode (snd x) = ctx_retcode c /\ tables (snd x) = tables c.
Proof.
  intros Hb. pose proof (unlock_spec (session c) (lock c) os (need_write c) (write_error c)) as Hu.
  unfold after_unlock, ended_with. destruct (tdhs_unlock_table _ _ _ _ _) as [u d]. cbn in *. split; [|done].
  destruct Hu as [[-> [= -> ->]]|[(-> & -> & -> & ->)|(-> & -> & ->)]]; auto 10.
Qed.

(** The end of a batch: the answers follow the outcome. *)
Lemma batch_end c c1 c2 j2 rest rest2 ret opened (s : P) : bulk c2 = false -> in_batch c2 = false -> write_error c1 = 0 ->
  (forall o, o ∈ opened -> is_Some (lookup_obj (tables c2) o)) -> durable (session c1) = durable (session c) -> steady c1 c2 ->
  code_of j2 = CLIENT_STATUS_MULTI_STATUS ->
  (ret = EASY_ERROR /\ c2 = c1 \/
   ret = EASY_OK /\ write_error c2 = write_error c1 /\ (rest = [] \/ lock c1 = true) /\
     (exists c3 c4, durable (session c3) = durable (session c1) /\ applied c3 rest rest2 c4 /\ session c2 = session c4) \/
   write_error c2 = 1 /\ (ret = EASY_OK -> Forall (part_answer c1) rest2)) ->
  exists ret' c' j' rest' s', (u ← unlock_tables opened c2;
      let '(u, c) := u in
      if negb (u =? EASY_OK) && (ret =? EASY_OK) then
        z ← fail_commits pool_addr fill (j2 :: rest2) s;
        let '(rc, js, s) := z in
        match js with
        | j :: rest => Some (if negb (rc =? EASY_OK) then EASY_ERROR else ret, c, j, rest, s)
        | [] => None
        end
      else Some (ret, c, j2, rest2, s)) = Some (ret', c', j', rest', s') /\
    ctx_retcode c' = ctx_retcode c2 /\ all_or_nothing c rest ret' c' j' rest' /\ idle c'.
Proof.
  intros Hbulk Hb Hwe Hop Hd Hs Hcj Hcase. unfold unlock_tables. rewrite Hbulk, Hb. cbn [orb].
  rewrite mapM_lookup by (by apply list.Forall_forall). set (os := omap _ opened). cbn [mbind option_bind].
  destruct (after_unlock_ok os c2 Hb) as (He & Hi & Hr & _). destruct (after_unlock _ c2) as [u c3]. cbn [fst snd] in *.
  assert (durable (session c2) = durable (session c)) as Hd2 by (by rewrite (same_durable _ _ Hs)).
  destruct He as [(Hl & -> & Hd3)|[(Hl & -> & Hw & Hd3)|(Hl & -> & Hd3)]].
  - change (negb (EASY_OK =? EASY_OK)) with false. cbn [andb]. eexists _, _, _, _, _. split; [done|]. split_and!; [done| |done].
    right. split; [congruence|]. intros ->. constructor; [by rewrite Hcj|]. rewrite (same_lock _ _ Hs) in Hl.
    destruct Hcase as [[? _]|[(_ & _ & [->|?] & c4 & c5 & _ & Ha & _)|[_ Ha]]]; [done|by inversion Ha|congruence|].
    eapply list.Forall_impl; [by apply Ha|]. intros x. by apply part_answer_no_lock.
  - change (negb (EASY_OK =? EASY_OK)) with false. cbn [andb]. eexists _, _, _, _, _. split; [done|]. split_and!; [done| |done].
    left. destruct Hcase as [[-> ->]|[(-> & _ & _ & c4 & c5 & Hd4 & Ha & E)|[Hw1 _]]]; [| |congruence].
    + exists [], [], c1, c1. split_and!; [done|constructor|done|by right].
    + exists rest, rest2, c4, c5. split_and!; [congruence|done|congruence|by left].
  - change (negb (EASY_ERROR =? EASY_OK)) with true. cbn [andb]. destruct (Z.eqb_spec ret EASY_OK) as [->|Hne].
    + destruct (fail_commits_ok (j2 :: rest2) s) as (rc & js' & s' & -> & Hlen & Hf). cbn [mbind option_bind].
      destruct js' as [|j' js']; [done|]. eexists _, _, _, _, _. split; [done|]. split_and!; [done| |done].
      right. split; [congruence|]. destruct (Z.eqb_spec rc EASY_OK) as [->|?]; cbn [negb]; [|done]. auto.
    + eexists _, _, _, _, _. split; [done|]. split_and!; [done| |done]. right. split; [congruence|done].
Qed.

(** What execute does after its switch. *)
Lemma execute_end (x : option (result (D := D) (P := P))) (Q : Z -> D -> job -> list job -> Prop) :
  (forall ret d j rest, Q ret d j rest -> Q ret (not_killed d) j rest) ->
  (exists ret c' j' rest' s', x = Some (ret, c', j', rest', s') /\ ctx_retcode c' = EASY_OK /\ Q ret (session c') j' rest' /\ idle c') ->
  exists ret c' j' rest' s', (x0 ← x;
    let '(ret, c, j, rest, s) := x0 in
    let c := set_session (not_killed (session c)) (set_stream_count 0 (set_execute_count (u64 (execute_count c + 1)) c)) in
    Some (if negb (ctx_retcode c =? EASY_OK) then ctx_retcode c else ret, c, j, rest, s)) =
    Some (ret, c', j', rest', s') /\ Q ret (session c') j' rest' /\ idle c'.
Proof.
  intros HQ (ret & c' & j' & rest' & s' & -> & Hr & Hq & Hi). cbn [mbind option_bind]. eexists _, _, _, _, _. split; [done|].
  cbn [ctx_retcode set_session set_stream_count set_execute_count session]. rewrite Hr. split; [by apply HQ|done].
Qed.

(** C1 (refinement).  With group commit off, a batch is a transaction: whatever fails (the memory,
    a lock, a part of it, the commit), its parts are executed completely, each once
    and in order, and made durable with every answer a success, or none of their
    changes is durable and no answer sent claims success.  The context is ready
    for the next request. *)
Theorem batch_atomic c j rest (s : P) :
  bulk c = false -> idle c -> j_work j = Batch ->
  Forall (part_of c) rest -> Forall (fun b => succeeded (code_of b) = false) rest -> count rest <= reserved (packet (j_resp j)) ->
  exists ret c' j' rest' s', execute (execute_fuel rest) c j rest s = Some (ret, c', j', rest', s') /\
    all_or_nothing c rest ret c' j' rest' /\ idle c'.
Proof.
  intros Hbulk (Hb & Hlk & Hwe) Hj Hp Hfresh Hn. unfold execute_fuel. set (fuel := (4 * List.length rest + 2)%nat).
  replace (4 * List.length rest + 5)%nat with (Datatypes.S (Datatypes.S (Datatypes.S fuel))) by lia. rewrite execute_request_eq, Hj. cbv zeta.
  set (c0 := set_session _ (set_ctx_retcode _ c)).
  assert (begun (set_ctx_retcode EASY_OK c) c0) as Hc0 by (constructor; try done; cbn; by rewrite durable_clear_error, durable_not_killed).
  assert (idle c0) as Hi0 by done. clearbody c0. destruct Hc0 as [Hbulk0 Hd0 Hwe0 Hr0 Ht0]. cbn in Hbulk0, Hd0, Hwe0, Hr0, Ht0.
  rewrite Hbulk0, Hbulk.
  apply (execute_end _ (fun ret d j' rest' => all_or_nothing c rest ret (set_session d c) j' rest')).
  { intros ret d j' rest'. unfold all_or_nothing. cbn [session set_session]. by rewrite durable_not_killed. }
  rewrite with_lock_eq. cbv zeta. destruct (stack_liker malloc _).
  2: { destruct (respond_error_ok j s CLIENT_STATUS_SERVER_ERROR NOT_ENOUGH_MEMORY) as (rc & j' & s' & -> & Hc & _). cbn [mbind option_bind].
       eexists _, _, _, _, _. split; [done|]. split_and!; try done. right. split; [done|]. intros _. constructor; [by rewrite Hc|done]. }
  assert (Forall (part_of c0) rest) as Hp0 by (eapply list.Forall_impl; [exact Hp|]; intros x; unfold part_of; by rewrite Ht0).
  destruct (collect_tables_ok (tables c0) (reserved (packet (j_resp j))) rest (replicate (8 * Z.to_nat bloom_fsize) false) [] [])
    as (ts & -> & Hts & _).
  { split; [by rewrite length_replicate|]. intros o Ho. by apply elem_of_nil in Ho. }
  { unfold count in Hn. cbn. lia. }
  { intros b o Hb1 Ho. apply list_elem_of_In in Hb1. rewrite List.Forall_forall in Hp0. by apply (proj2 (Hp0 b Hb1)). }
  { constructor. }
  { constructor. }
  cbn [mbind option_bind]. destruct (lock_tables_ok ts c0) as [Hl1 Hb1]. set (c1 := lock_tables ts c0) in *. clearbody c1.
  destruct Hl1 as [Hbulk1 Hd1 Hwe1 Hr1 Ht1].
  destruct (do_batch_ok fuel c1 j rest s) as (ret & c2 & j2 & rest2 & s2 & E & Hs2 & Hr2 & Hcj & Hcase);
    [lia|rewrite Hb1; apply Hi0|by rewrite Hr1| |].
  { eapply list.Forall_impl; [exact Hp0|]. intros x. unfold part_of. by rewrite Ht1. }
  rewrite E. cbn [mbind option_bind].
  destruct (batch_end c c1 c2 j2 rest rest2 ret (first_uses (tables c0) [] rest) s2) as (ret' & c' & j' & rest' & s' & Eend & Hr' & Hall & Hi');
    [rewrite (same_bulk _ _ Hs2); congruence|rewrite (same_batch _ _ Hs2), Hb1; apply Hi0|congruence| |congruence|done..|].
  { intros o Ho. apply list_elem_of_lookup in Ho as [i Hi]. destruct (Forall2_lookup_l _ _ _ _ _ Hts Hi) as (t & _ & x & Hx & _).
    pose proof (same_tables _ _ Hs2 o) as Hsame. rewrite Ht1, Hx in Hsame. cbn in Hsame. by destruct (lookup_obj (tables c2) o). }
  eexists _, _, _, _, _. split; [exact Eend|]. split_and!; [congruence|done|done].
Qed.

End transactions.
End TdhsExecuteProofs.
