(* ===== verification/TdhsGroup.v ===== *)
(** * Group commit

    A writing thread executes the requests that wait as one transaction: they are
    made durable together, or none is and no answer claims success. *)

From Stdlib Require Import ZArith Lia.
From stdpp Require Import base list numbers option.
From S2P Require Import Prelude CString EasyHash EasyPool TdhsDefine TdhsRead TdhsProtocol TdhsFormat TdhsResponse TdhsTable TdhsFind TdhsContext TdhsContextProofs TdhsExecute TdhsExecuteProofs.

Local Open Scope Z_scope.

Module TdhsGroup.
Import TdhsDefine TdhsRead TdhsProtocol TdhsFormat TdhsResponse TdhsTable TdhsFind TdhsContext TdhsContextProofs TdhsExecute TdhsExecuteProofs.

Section group.
Context {D T K V P : Type} `{Handler T K V} `{!Server D T} `{!Writer T} `{!Fields V} `{EasyPool.PoolOps P} `{!Transactions D T}.
Variables (pool_addr : Z) (fill : nat -> Z) (malloc : Z -> bool) (tdhs_write_buff_size : Z) (scan_fuel : nat) (address : obj -> Z).
Variables (calloc_ok : nat -> bool).
(** Every table of the server has a name. *)
Hypothesis tables_named : forall d : D, named d.

Abbreviation runs := (runs (T := T) (V := V) (P := P) pool_addr fill malloc tdhs_write_buff_size scan_fuel).
Abbreviation part_of := (part_of (D := D) (T := T) (V := V) (P := P) pool_addr fill malloc tdhs_write_buff_size scan_fuel).
Abbreviation open_job := (open_job (D := D) true calloc_ok).
Abbreviation open_jobs := (open_jobs (D := D) true calloc_ok).
Abbreviation open_requests := (open_requests (D := D) true calloc_ok).
Abbreviation on_server_process := (on_server_process (D := D) (T := T) (V := V) (P := P) pool_addr fill malloc tdhs_write_buff_size scan_fuel address).
Abbreviation process_requests := (process_requests (D := D) (T := T) (V := V) (P := P) pool_addr fill malloc tdhs_write_buff_size scan_fuel address).
Abbreviation doreq_for_write := (doreq_for_write (D := D) (T := T) (V := V) (P := P) pool_addr fill malloc tdhs_write_buff_size scan_fuel address true calloc_ok).

(** ** Opening the tables of a group *)

(** What a client sends: a request that writes, with the name of its table. *)
Definition fresh_job (j : job) : Prop :=
  j_opened j = None /\ exists w, j_work j = Single w /\ is_write w /\ runs w /\ text (t_table (table_of w)) <> [].
Definition fresh (r : request) : Prop :=
  fresh_job (r_head r) /\ r_rest r = [] \/ j_work (r_head r) = Batch /\ Forall fresh_job (r_rest r).
(** The same with the tables open. *)
Definition ready (c : dbcontext (D := D)) (r : request) : Prop :=
  part_of c (r_head r) /\ r_rest r = [] \/ j_work (r_head r) = Batch /\ Forall (part_of c) (r_rest r).

Record opening (c c' : dbcontext (D := D)) : Prop := {
  op_write : need_write c' = need_write c;
  op_bulk : bulk c' = bulk c;
  op_batch : in_batch c' = in_batch c;
  op_lock : lock c' = lock c;
  op_error : write_error c' = write_error c;
  op_durable : durable (session c') = durable (session c);
  op_cache : cache_ok (tables c) -> cache_ok (tables c');
  op_keeps : keeps (tables c) (tables c') }.

#[export] Instance opening_refl : Reflexive opening.
Proof. constructor; try done. by intros o. Qed.
#[export] Instance opening_trans : Transitive opening.
Proof. intros c1 c2 c3 [] []. constructor; try congruence; [auto|]. intros o Ho. auto. Qed.

Lemma part_keeps c c' j : keeps (tables c) (tables c') -> part_of c j -> part_of c' j.
Proof. intros Hk [Hr Ho]. split; [done|]. intros o Hj. apply Hk. by apply Ho. Qed.
Lemma ready_keeps c c' r : keeps (tables c) (tables c') -> ready c r -> ready c' r.
Proof.
  intros Hs [[Hp Hr]|[Hj Hr]]; [left; split; [by eapply part_keeps|done]|right; split; [done|]].
  eapply list.Forall_impl; [exact Hr|]. intros j. by apply part_keeps.
Qed.

Lemma open_job_ok c j : fresh_job j -> cache_ok (tables c) -> exists c' j', open_job c j = Some (c', j') /\ opening c c' /\ part_of c' j'.
Proof.
  intros (Ho & w & Hw & Hwr & Hrun & Hn) Hk. unfold TdhsExecute.open_job. rewrite Hw.
  destruct (open_table_cases true calloc_ok (need_write c) (session c) (tables c) (table_of w) (tables_named _) Hk Hn (or_introl eq_refl))
    as (k & key & o & d' & k' & -> & _ & Hk1 & _ & _ & Hk2 & _ & Hkeep & Hcase).
  cbn [mbind option_bind]. eexists _, _. split; [done|].
  assert (durable d' = durable (session c) /\ (forall ob, o = Some ob -> is_Some (lookup_obj k' ob))) as [Hd Hob].
  { destruct Hcase as [(ob & t & -> & _ & Ht & _ & -> & ->)|[_ [(-> & -> & ->)|(ob & -> & Hl & -> & _)]]]; (split; [by rewrite ?durable_open|]); intros x [= <-].
    - unfold table_at in Ht. destruct (lookup_obj k ob); [by eexists|done].
    - done. }
  split; [by constructor|]. split.
  - exists w. by destruct o.
  - destruct o as [ob|]; cbn [j_opened set_opened]; intros x Hx; [by apply Hob|congruence].
Qed.

Lemma open_jobs_ok js : forall c, Forall fresh_job js -> cache_ok (tables c) ->
  exists c' js', open_jobs c js = Some (c', js') /\ opening c c' /\ Forall (part_of c') js'.
Proof.
  induction js as [|j js IH]; intros c Hj Hk; cbn [TdhsExecute.open_jobs].
  { eexists _, _. split; [done|]. split; [reflexivity|constructor]. }
  apply list.Forall_cons in Hj as [Hj Hjs]. destruct (open_job_ok c j Hj Hk) as (c1 & j' & -> & Ho & Hp). cbn [mbind option_bind].
  destruct (IH c1 Hjs (op_cache _ _ Ho Hk)) as (c2 & js' & -> & Ho2 & Hps). cbn [mbind option_bind]. eexists _, _. split; [done|].
  split; [by etrans|]. constructor; [eapply part_keeps; [apply Ho2|done]|done].
Qed.

Lemma open_requests_ok rs : forall c, Forall fresh rs -> cache_ok (tables c) ->
  exists c' rs', open_requests c rs = Some (c', rs') /\ opening c c' /\ Forall (ready c') rs' /\ map r_pool rs' = map r_pool rs.
Proof.
  induction rs as [|r rs IH]; intros c Hr Hk; cbn [TdhsExecute.open_requests].
  { eexists _, _. split; [done|]. split_and!; [reflexivity|constructor|done]. }
  apply list.Forall_cons in Hr as [Hr Hrs].
  assert (exists c1 j c2 js, open_job c (r_head r) = Some (c1, j) /\ open_jobs c1 (r_rest r) = Some (c2, js) /\ opening c c2 /\
    ready c2 (set_chain j js r)) as (c1 & j & c2 & js & -> & E2 & Ho & Hready).
  { destruct Hr as [[Hj Hn]|[Hj Hjs]].
    - destruct (open_job_ok c _ Hj Hk) as (c1 & j' & -> & Ho & Hp). rewrite Hn. eexists _, _, _, _. split_and!; [done|done|done|]. by left.
    - destruct (open_jobs_ok (r_rest r) c Hjs Hk) as (c2 & js & E & Ho & Hp). unfold TdhsExecute.open_job. rewrite Hj.
      eexists _, _, _, _. split_and!; [done|exact E|done|]. by right. }
  cbn [mbind option_bind]. rewrite E2. cbn [mbind option_bind].
  destruct (IH c2 Hrs (op_cache _ _ Ho Hk)) as (c3 & rs' & -> & Ho3 & Hrs' & Hp). cbn [mbind option_bind]. eexists _, _. split; [done|].
  split_and!; [by etrans| |by cbn; rewrite Hp]. constructor; [eapply ready_keeps; [apply Ho3|done]|done].
Qed.

(** ** Executing a group *)

Definition unsuccessful (j : job) : Prop := succeeded (code_of j) = false.
(** The answers that are sent: those of requests with the return code EASY_OK. *)
Definition chain (r : request) : list job := r_head r :: r_rest r.
Definition sends (Q : job -> Prop) (js : request -> list job) (r : request) : Prop := r_retcode r = EASY_OK -> Forall Q (js r).

(** A request in a group.  Unless the whole group is to be undone, a batch that is
    answered has only successful parts. *)
Record served (c : dbcontext (D := D)) (ret : Z) (c' : dbcontext (D := D)) (j' : job) (rest' : list job) : Prop := {
  served_steady : steady c c';
  served_error : write_error c' = 1 \/ write_error c' = write_error c /\ (ret = EASY_OK -> Forall (fun b => code_of b = CLIENT_STATUS_OK) rest');
  served_no_lock : lock c = false -> ret = EASY_OK -> Forall unsuccessful (j' :: rest') }.

Lemma batch_served fuel c j rest (s : P) : (List.length rest < fuel)%nat -> bulk c = true -> in_batch c = false -> j_work j = Batch -> Forall (part_of c) rest ->
  exists ret c' j' rest' s',
    execute pool_addr fill malloc tdhs_write_buff_size scan_fuel address (Datatypes.S (Datatypes.S fuel)) c j rest s = Some (ret, c', j', rest', s') /\
    served c ret c' j' rest'.
Proof.
  intros Hf Hb Hi Hj Hp. rewrite execute_request_eq, Hj. cbv zeta. set (c0 := set_session _ (set_ctx_retcode _ c)).
  assert (steady c c0) as Hs0 by (constructor; try done; cbn; by rewrite durable_clear_error, durable_not_killed).
  change (bulk c0) with (bulk c). rewrite Hb.
  destruct (do_batch_ok pool_addr fill malloc tdhs_write_buff_size scan_fuel address fuel c0 j rest s Hf Hi eq_refl)
    as (ret & c1 & j' & rest' & s' & -> & Hs1 & Hr & Hc & Hcase).
  { eapply list.Forall_impl; [exact Hp|]. intros x. by apply part_steady. }
  cbn [mbind option_bind]. cbv zeta. set (c2 := set_session _ (set_stream_count _ _)). change (ctx_retcode c2) with (ctx_retcode c1). rewrite Hr.
  change (negb (EASY_OK =? EASY_OK)) with false. cbv iota.
  eexists _, _, _, _, _. split; [done|].
  assert (steady c c1) as Hs by (by etrans). split.
  - etrans; [exact Hs|]. constructor; try done. cbn. apply durable_not_killed.
  - change (write_error c2) with (write_error c1). change (write_error c) with (write_error c0).
    destruct Hcase as [[-> ->]|[(-> & -> & _ & c3 & c4 & _ & Ha & _)|[-> _]]]; [by right| |by left].
    right. split; [done|]. intros _. by eapply applied_ok.
  - intros Hl Hok. constructor; [unfold unsuccessful; by rewrite Hc|].
    destruct Hcase as [[-> _]|[(_ & _ & [->|Hl'] & c3 & c4 & _ & Ha & _)|[_ Hall]]]; [done|inversion Ha; constructor|change (lock c = true) in Hl'; congruence|].
    eapply list.Forall_impl; [by apply Hall|]. intros x. by apply part_answer_no_lock.
Qed.

Lemma serve_ok c r (s : P) : bulk c = true -> in_batch c = false -> ready c r ->
  exists ret c' j' rest' s', on_server_process c r s = Some (ret, c', j', rest', s') /\ served c ret c' j' rest'.
Proof.
  intros Hb Hi Hr. unfold TdhsExecute.on_server_process. cbv zeta. destruct (_ && _).
  - unfold tdhs_response_error_global. destruct (response_error_some pool_addr fill s (Response (set_next None (packet (j_resp (r_head r)))) (buf (j_resp (r_head r))))
      CLIENT_STATUS_REQUEST_TIME_OUT REQUEST_TIME_OUT) as (rc & r1 & s1 & -> & Hc & _). cbn [mbind option_bind]. eexists _, _, _, _, _. split; [done|].
    split; [reflexivity|right; by split|]. intros _ _. constructor; [|done]. unfold unsuccessful, code_of. cbn [j_resp set_j_resp]. by rewrite Hc.
  - unfold execute_fuel. destruct Hr as [[Hp Hn]|[Hj Hp]].
    + rewrite Hn. destruct (execute_part pool_addr fill malloc tdhs_write_buff_size scan_fuel address 4 c (r_head r) [] s) as (ret & c' & j' & s' & E & Hs & Hw & Hret & Ha);
        [by rewrite Hb|done|]. eexists _, _, _, _, _. split; [exact E|]. split; [done|right; by split|]. intros Hl _. constructor; [|done].
      by eapply part_answer_no_lock.
    + replace (4 * List.length (r_rest r) + 5)%nat with (Datatypes.S (Datatypes.S (4 * List.length (r_rest r) + 3))) by lia. apply batch_served; try done. lia.
Qed.

Definition has_pool (pools : list P) (r : request) : Prop := (r_pool r < List.length pools)%nat.

(** The whole group. *)
Record all_served (c : dbcontext (D := D)) (pools : list P) (c' : dbcontext (D := D)) (rs' : list request) (pools' : list P) : Prop := {
  all_steady : steady c c';
  all_error : write_error c' = 1 \/ write_error c' = write_error c /\ Forall (sends (fun b => code_of b = CLIENT_STATUS_OK) r_rest) rs';
  all_no_lock : lock c = false -> Forall (sends unsuccessful chain) rs';
  all_pools : List.length pools' = List.length pools;
  all_has_pool : Forall (has_pool pools) rs' }.

Lemma process_requests_ok rs : forall c (pools : list P), bulk c = true -> in_batch c = false -> Forall (ready c) rs -> Forall (has_pool pools) rs ->
  exists c' rs' pools', process_requests c rs pools = Some (c', rs', pools') /\ all_served c pools c' rs' pools'.
Proof.
  induction rs as [|r rs IH]; intros c pools Hb Hi Hr Hp; cbn [TdhsExecute.process_requests].
  { eexists _, _, _. split; [done|]. split; [reflexivity|right; split; [done|constructor]|intros; constructor|done|constructor]. }
  apply list.Forall_cons in Hr as [Hr Hrs]. apply list.Forall_cons in Hp as [Hp Hps]. destruct (r_closed r).
  - destruct (IH c pools Hb Hi Hrs Hps) as (c' & rs' & pools' & -> & [Hs He Hl Hlen Hp']). cbn [mbind option_bind]. eexists _, _, _. split; [done|].
    split; [done| |intros Hlk; constructor; [done|auto]|done|by constructor].
    destruct He as [He|[He Hf]]; [by left|right; split; [done|by constructor]].
  - destruct (lookup_lt_is_Some_2 pools _ Hp) as [s ->]. cbn [mbind option_bind].
    destruct (serve_ok c r s Hb Hi Hr) as (ret & c1 & j & rest & s1 & -> & [Hs1 He1 Hl1]). cbn [mbind option_bind].
    destruct (IH c1 (<[r_pool r := s1]> pools)) as (c' & rs' & pools' & -> & [Hs He Hl Hlen Hp']).
    { by rewrite (same_bulk _ _ Hs1). }
    { by rewrite (same_batch _ _ Hs1). }
    { eapply list.Forall_impl; [exact Hrs|]. intros x. apply ready_keeps. intros o. apply same_is_Some, Hs1. }
    { eapply list.Forall_impl; [exact Hps|]. intros x. unfold has_pool. by rewrite length_insert. }
    cbn [mbind option_bind]. eexists _, _, _. split; [done|].
    assert (Forall (has_pool pools) rs') as Hp2 by (eapply list.Forall_impl; [exact Hp'|]; intros x; unfold has_pool; by rewrite length_insert).
    rewrite length_insert in Hlen. rewrite (same_lock _ _ Hs1) in Hl. split; [by etrans| | |done|].
    + destruct He as [He|[He Hf]]; [by left|]. destruct He1 as [He1|[He1 Hf1]]; [left; congruence|]. right. split; [congruence|].
      case_match; [done|]. by constructor.
    + intros Hlk. case_match; [by auto|]. constructor; [|by auto]. intros Hok. by apply Hl1.
    + case_match; [done|]. by constructor.
Qed.

(** ** The answers *)

Lemma fail_group_ok js : forall ret (s : P), exists ret' js' s', fail_group pool_addr fill js ret s = Some (ret', js', s') /\
  List.length js' = List.length js /\ Forall unsuccessful js'.
Proof.
  induction js as [|j js IH]; intros ret s; cbn [fail_group]; [eexists _, _, _; split; [done|]; split; [done|constructor]|].
  destruct (succeeded (code_of j)) eqn:Es.
  - destruct (respond_error_ok pool_addr fill j s CLIENT_STATUS_SERVER_ERROR FAILED_TO_COMMIT) as (rc & j' & s1 & -> & Hc & _). cbn [mbind option_bind].
    destruct (IH rc s1) as (ret' & js' & s2 & -> & Hl & Hf). cbn [mbind option_bind]. eexists _, _, _. split; [done|].
    split; [by cbn; rewrite Hl|]. constructor; [unfold unsuccessful; by rewrite Hc|done].
  - destruct (IH ret s) as (ret' & js' & s2 & -> & Hl & Hf). cbn [mbind option_bind]. eexists _, _, _. split; [done|].
    split; [by cbn; rewrite Hl|]. by constructor.
Qed.

Lemma do_responses_ok commit_ret rs : forall (pools : list P), Forall (has_pool pools) rs ->
  exists rs' pools', do_responses pool_addr fill commit_ret rs pools = Some (rs', pools') /\
  (commit_ret = EASY_OK /\ rs' = rs /\ pools' = pools \/ commit_ret <> EASY_OK /\ Forall (sends unsuccessful chain) rs').
Proof.
  destruct (Z.eqb_spec commit_ret EASY_OK) as [->|Hne].
  - intros pools _. exists rs, pools. split; [|by left]. revert pools. induction rs as [|r rs IH]; intros pools; [done|]. cbn [do_responses].
    change (negb (EASY_OK =? EASY_OK)) with false. cbn [andb]. by rewrite IH.
  - induction rs as [|r rs IH]; intros pools Hp; cbn [do_responses]; [eexists _, _; split; [done|]; right; by split|].
    apply list.Forall_cons in Hp as [Hp Hps]. destruct (Z.eqb_spec commit_ret EASY_OK); [done|]. cbn [negb andb].
    destruct (Z.eqb_spec (r_retcode r) EASY_OK) as [Hok|Herr].
    + destruct (lookup_lt_is_Some_2 pools _ Hp) as [s ->]. cbn [mbind option_bind].
      destruct (fail_group_ok (r_head r :: r_rest r) (r_retcode r) s) as (ret & js & s1 & -> & Hl & Hf). cbn [mbind option_bind].
      destruct (IH (<[r_pool r := s1]> pools)) as (rs' & pools' & -> & Hcase).
      { eapply list.Forall_impl; [exact Hps|]. intros x. unfold has_pool. by rewrite length_insert. }
      cbn [mbind option_bind]. destruct js as [|j js]; [done|]. eexists _, _. split; [done|]. right. split; [done|].
      destruct Hcase as [[? _]|[_ Hall]]; [done|]. constructor; [|done]. by intros _.
    + destruct (IH pools Hps) as (rs' & pools' & -> & Hcase). cbn [mbind option_bind]. eexists _, _. split; [done|]. right. split; [done|].
      destruct Hcase as [[? _]|[_ Hall]]; [done|]. constructor; [by intros ?|done].
Qed.

(** ** The round *)

(** The context between two rounds. *)
Definition resting (c : dbcontext (D := D)) : Prop := need_write c = true /\ idle c /\ cache_ok (tables c).

Lemma unlock_table_ok c : bulk c = true -> in_batch c = false -> cache_ok (tables c) -> exists u c', unlock_table c = Some (u, c') /\
  ended_with u c c' /\ idle c' /\ tables c' = tables c /\ need_write c' = need_write c.
Proof.
  intros Hb Hi Hk. unfold unlock_table. rewrite Hb. cbn [negb].
  rewrite mapM_lookup.
  2: { rewrite for_each_perm. eapply list.Forall_impl; [apply Hk|]. intros e [t Ht]. unfold table_at in Ht. destruct (lookup_obj (tables c) (fst e)); [by eexists|done]. }
  cbn [mbind option_bind]. set (os := omap _ _). destruct (after_unlock_ok os c Hi) as (He & Hid & _ & Ht).
  eexists _, _. split; [apply f_equal, surjective_pairing|]. split_and!; done.
Qed.

Lemma lock_table_ok c : bulk c = true -> cache_ok (tables c) -> exists c', lock_table malloc c = Some c' /\ begun c c' /\ in_batch c' = in_batch c /\ need_write c' = need_write c.
Proof.
  intros Hb Hk. unfold lock_table. rewrite Hb. cbn [negb].
  assert (exists ts, (if (opened_num (tables c) <=? DBCONTEXT_MAX_CACHE_LOCK_TABLES)%nat then Some (Some (take (opened_num (tables c)) (need_lock (tables c))))
          else if malloc (8 * Z.of_nat (opened_num (tables c))) then
            ts ← mapM (fun e => lookup_obj (tables c) (fst e) ≫= mysql_table) (for_each (tables c)); Some (Some ts)
          else Some None) = Some ts) as [ts ->].
  { case_match; [by eexists|]. case_match; [|by eexists]. rewrite mapM_lookup; [by eexists|]. rewrite for_each_perm. apply Hk. }
  cbn [mbind option_bind]. destruct ts as [ts|]; [|by eexists]. pose proof (lock_durable (session c) ts (need_write c)) as Hd.
  destruct (tdhs_lock_table _ _ _) as [ok d]. eexists. split; [done|]. by split.
Qed.

(** C2 (safety).  A group of requests is one transaction.  Either the changes of all of them
    become durable with one commit, and then a batch among them that is answered
    was executed completely; or, whatever failed (a lock, a part of a batch, the
    commit), no change of any of them is durable, and no answer sent claims
    success.  The thread can go on with the next group. *)
Theorem group_commit cache_on c rs (pools : list P) : resting c -> Forall fresh rs -> Forall (has_pool pools) rs ->
  exists c' rs' pools', doreq_for_write cache_on true c rs pools = Some (c', rs', pools') /\ resting c' /\
  ((exists c1 rs1 c2 c3, open_requests (set_group_commit true c) rs = Some (c1, rs1) /\ lock_table malloc c1 = Some c2 /\ lock c2 = true /\
      process_requests c2 rs1 pools = Some (c3, rs', pools') /\ durable (session c') = working (session c3) /\
      Forall (sends (fun b => code_of b = CLIENT_STATUS_OK) r_rest) rs') \/
   durable (session c') = durable (session c) /\ Forall (sends unsuccessful chain) rs').
Proof.
  intros (Hnw & (Hib & Hlk & Hwe) & Hk) Hfresh Hpools. unfold TdhsExecute.doreq_for_write, set_group_commit. rewrite Hnw. set (c0 := set_bulk true c).
  destruct (open_requests_ok rs c0 Hfresh Hk) as (c1 & rs1 & -> & Hop & Hready & Hmap). cbn [mbind option_bind].
  assert (Forall (has_pool pools) rs1) as Hp1.
  { apply (list.Forall_fmap r_pool (fun n => n < List.length pools)%nat). change (r_pool <$> rs1) with (map r_pool rs1). rewrite Hmap.
    by apply (list.Forall_fmap r_pool (fun n => n < List.length pools)%nat). }
  pose proof (op_cache _ _ Hop Hk) as Hk1.
  destruct (Nat.eqb_spec (List.length rs1) 0) as [E0|Hne].
  { apply nil_length_inv in E0 as ->. eexists _, _, _. split; [done|]. destruct Hop as [O1 O2 O3 O4 O5 O6 O7 O8]. split; [|right; by split].
    split; [by rewrite O1|]. split; [|done]. unfold idle. rewrite O3, O4, O5. by split_and!. }
  destruct (lock_table_ok c1) as (c2 & E2 & Hbeg & Hib2 & Hnw2); [by rewrite (op_bulk _ _ Hop)|done|]. rewrite E2. cbn [mbind option_bind].
  destruct Hbeg as [Hb2 Hd2 Hwe2 Hr2 Ht2].
  assert (bulk c2 = true) as Hbulk by (by rewrite Hb2, (op_bulk _ _ Hop)).
  assert (in_batch c2 = false) as Hbatch by (rewrite Hib2, (op_batch _ _ Hop); exact Hib).
  assert (write_error c2 = 0) as Herr by (rewrite Hwe2, (op_error _ _ Hop); exact Hwe).
  destruct (process_requests_ok rs1 c2 pools Hbulk Hbatch) as (c3 & rs2 & pools2 & E3 & [Hs He Hl Hlen Hp3]); [|done|].
  { eapply list.Forall_impl; [exact Hready|]. intros r. apply ready_keeps. rewrite Ht2. by intros o. }
  rewrite E3. cbn [mbind option_bind].
  assert (cache_ok (tables c3)) as Hk3 by (apply (cache_ok_same (tables c2)); [apply Hs|apply Hs|by rewrite Ht2]).
  destruct (unlock_table_ok c3) as (u & c4 & -> & Hend & Hidle & Ht4 & Hnw4); [by rewrite (same_bulk _ _ Hs)|by rewrite (same_batch _ _ Hs)|done|]. cbn [mbind option_bind].
  unfold close_tables. rewrite Ht4. destruct (close_table_ok cache_on (session c4) (tables c3) Hk3) as (d5 & k5 & -> & Hk5 & _ & _ & _ & Hd5). cbn [mbind option_bind].
  assert (durable d5 = durable (session c4)) as Hdur by (destruct Hd5 as [[-> _]|[-> _]]; [done|apply durable_close]).
  destruct (do_responses_ok u rs2 pools2) as (rs3 & pools3 & -> & Hresp).
  { eapply list.Forall_impl; [exact Hp3|]. intros r. unfold has_pool. by rewrite Hlen. }
  cbn [mbind option_bind]. eexists _, _, _. split; [done|]. split.
  { split; [|by split]. cbn. by rewrite Hnw4, (same_write _ _ Hs), Hnw2, (op_write _ _ Hop). }
  cbn [session set_session set_tables]. rewrite Hdur.
  assert (durable (session c3) = durable (session c)) as Hd3 by (rewrite (same_durable _ _ Hs), Hd2, (op_durable _ _ Hop); done).
  destruct Hend as [(Hl3 & -> & ->)|[(Hl3 & -> & Hw3 & ->)|(Hl3 & -> & ->)]].
  - right. split; [done|]. destruct Hresp as [(_ & -> & _)|[? _]]; [|done]. apply Hl. by rewrite <- (same_lock _ _ Hs).
  - left. destruct Hresp as [(_ & -> & ->)|[? _]]; [|done]. exists c1, rs1, c2, c3. split_and!; try done.
    + by rewrite <- (same_lock _ _ Hs).
    + destruct He as [?|[_ ?]]; [congruence|done].
  - right. split; [done|]. destruct Hresp as [[? _]|[_ ?]]; done.
Qed.

End group.
End TdhsGroup.
