(* ===== verification/TdhsDemo.v ===== *)
(** * A small server

    An instance of the interfaces of a worker thread: a server with one list of
    rows, of which some are committed.  The theorems on tables, batches and groups
    are applied to it, and some rounds are computed. *)

From Stdlib Require Import ZArith Lia.
From stdpp Require Import base list numbers option.
From S2P Require Import Prelude CString EasyHash EasyPool TdhsDefine TdhsRead TdhsProtocol TdhsFormat TdhsResponse TdhsTable TdhsFind TdhsContext TdhsContextProofs TdhsExecute TdhsExecuteProofs TdhsGroup.

Local Open Scope Z_scope.

Module TdhsDemo.
Import TdhsDefine TdhsRead TdhsProtocol TdhsFormat TdhsResponse TdhsTable TdhsFind TdhsContext TdhsContextProofs TdhsExecute TdhsExecuteProofs TdhsGroup.

(** ** The instance *)

(** The rows written so far and the one being filled. *)
Record sheet := Sheet { rows : list (list Z); row : list Z }.
Definition nothing (t : sheet) : Z * sheet := (HA_ERR_END_OF_FILE, t).
(** A value that starts with ['!'] is refused. *)
Definition write_cell (t : sheet) (v : list Z) : Z * sheet :=
  match v with 33 :: _ => (-1, t) | _ => (0, Sheet (rows t) (row t ++ v)) end.

#[export] Instance sheet_handler : Handler sheet Z Z := {
  store_key_part t _ _ := t; key_copy _ _ := 0;
  index_read_map t _ _ := nothing t; index_read_last_map t _ := nothing t;
  read_range_first t _ _ := nothing t; read_range_next := nothing;
  index_prev := nothing; index_next := nothing; index_next_same t _ := nothing t;
  key_cmp_if_same _ _ := false; record _ := []; killed _ := false; val_str := udec; val_int _ _ := 0;
  store_record t := t; set_null t _ := t; field_store t _ v := write_cell t v; field_store_int t _ _ := (0, t); save_now t _ := (0, t);
  ha_update_row t := (0, t); ha_delete_row t := (0, t) }.
#[export] Instance sheet_writer : Writer sheet := {
  empty_record t := Sheet (rows t) []; clear_null_flags t := t; next_number_field t _ := t; start_stmt t := t;
  ha_write_row t := (0, Sheet (rows t ++ [row t]) (row t));
  insert_id t := Z.of_nat (List.length (rows t)) }.

(** What is committed, what would be, the names of the open tables, and whether
    the next commit works. *)
Record ledger := Ledger { kept : list (list Z); wrote : list (list Z); opened_names : list (list Z * list Z); commits : bool }.

#[export] Instance ledger_server : Server ledger sheet := {
  open_table_in d db name _ :=
    match name with
    | [120] => (None, d)
    | _ => (Some (List.length (opened_names d)), Ledger (kept d) (wrote d) (opened_names d ++ [(db, name)]) (commits d))
    end;
  close_thread_tables d := Ledger (kept d) (wrote d) [] (commits d);
  table_names d t := match opened_names d !! t with Some (db, c :: name) => (db, c :: name) | _ => ([100], [116]) end;
  describe _ _ := demo_table; index_key_length _ _ _ := 4;
  handler_of d _ := Sheet (wrote d) [];
  put_handler d _ h := Ledger (kept d) (rows h) (opened_names d) (commits d);
  mysql_lock_tables d _ := (true, d); mysql_unlock_tables d := d; row_binlog d := d; invalidate d _ := d;
  trans_commit_stmt d :=
    if commits d then (true, Ledger (wrote d) (wrote d) (opened_names d) true)
    else (false, Ledger (kept d) (kept d) (opened_names d) true);
  trans_rollback_stmt d := Ledger (kept d) (kept d) (opened_names d) (commits d);
  set_command d _ := d; not_killed d := d; clear_error d := d }.

#[export] Instance ledger_transactions : Transactions ledger sheet.
Proof.
  refine {| durable d := kept d; working d := wrote d |}; try done.
  - intros d db name w. unfold open_table_in. cbn [ledger_server]. repeat case_match; done.
  - intros d. cbn. by destruct (commits d).
  - intros d. cbn. by destruct (commits d).
Defined.

Lemma ledger_named (d : ledger) : named d.
Proof. intros t. cbn. destruct (opened_names d !! t) as [[db [|c name]]|]; done. Qed.

(** ** Requests *)

Definition demo_insert (v : Z) : request_v := InsertV (TableV [100; 0] [116; 0] [] [[110; 0]]) [ValueV 0 [v; 0]].
Definition demo_job (w : work) (n : Z) : job := Job w None (Response (Packet 16 7 n 0 0 None zero_request 0 None) None) [] (fun _ => false).
Definition single (v : Z) : job := demo_job (Single (demo_insert v)) 0.
Definition demo_cache (n : nat) : table_cache := Cache [] (replicate n (None, 0)) (replicate n (Opened None false)) None 0 0 0 [] false.
Definition demo_context (commits : bool) : dbcontext (D := ledger) :=
  Context true false false 0 false None 0 0 0 (demo_cache 2) (Ledger [] [] [] commits).
Definition demo_pools := [EasyPool.demo_pool; EasyPool.demo_pool; EasyPool.demo_pool].
Definition one (j : job) (rest : list job) (p : nat) : request := Req j rest p false 0 0 0.

Abbreviation demo_round commits group rs :=
  (doreq_for_write 0 (fun _ => 170) (fun _ => true) 8 4 (fun _ => 0) true (fun _ => true) true group (demo_context commits) rs demo_pools).
(** What is committed, and the return and response codes. *)
Definition outcome (x : option (dbcontext (D := ledger) * list request * list (EasyPool.slots * EasyPool.easy_pool_t))) :=
  y ← x; let '(c, rs, _) := y in Some (kept (session c), map (fun r => (r_retcode r, code_of (r_head r), map code_of (r_rest r))) rs).

(** One request and a batch of two, with group commit: all committed. *)
Example group_done : outcome (demo_round true true [one (single 65) [] 0; one (demo_job Batch 2) [single 66; single 67] 1]) =
  Some ([[65]; [66]; [67]], [(0, 200, []); (0, 207, [200; 200])]).
Proof. vm_compute. reflexivity. Qed.
(** The second part of the batch fails: nothing is committed. *)
Example group_undone : outcome (demo_round true true [one (single 65) [] 0; one (demo_job Batch 2) [single 66; single 33] 1]) =
  Some ([], [(0, 500, []); (0, 207, [500; 502])]).
Proof. vm_compute. reflexivity. Qed.
(** The commit fails: no answer claims success. *)
Example group_not_committed : outcome (demo_round false true [one (single 65) [] 0; one (demo_job Batch 2) [single 66; single 67] 1]) =
  Some ([], [(0, 500, []); (0, 207, [500; 500])]).
Proof. vm_compute. reflexivity. Qed.
(** Without group commit the request stands alone; the batch is undone. *)
Example alone : outcome (demo_round true false [one (single 65) [] 0; one (demo_job Batch 2) [single 66; single 33] 1]) =
  Some ([[65]], [(0, 200, []); (0, 207, [500; 502])]).
Proof. vm_compute. reflexivity. Qed.

(** A batch inside a batch: the header of the inner one executes the requests after
    it, and the loop of the outer one executes them again; the row 66 is there
    twice, with group commit and without, and every answer is a success. *)
Example nested_batch_twice :
  outcome (demo_round true true [one (demo_job Batch 3) [single 65; demo_job Batch 0; single 66] 1]) =
    Some ([[65]; [66]; [66]], [(0, 207, [200; 207; 200])]) /\
  outcome (demo_round true false [one (demo_job Batch 3) [single 65; demo_job Batch 2; single 66] 1]) =
    Some ([[65]; [66]; [66]], [(0, 207, [200; 207; 200])]).
Proof. vm_compute. by split. Qed.

(** ** Witnesses *)

Lemma demo_fresh v n : fresh_job (P := EasyPool.slots * EasyPool.easy_pool_t) (K := Z) (V := Z) (T := sheet) 0 (fun _ => 170) (fun _ => true) 8 n (single v).
Proof.
  split; [done|]. exists (demo_insert v). split_and!; try done.
  intros closed d kl locked ti last t p s. apply insert_some; [|cbn; unfold REQUEST_MAX_FIELD_NUM; lia|done].
  constructor; [|constructor]. apply short_str; [|cbn; lia|by exists [110]]. unfold bytes_ok. repeat (constructor; [lia|]). constructor.
Qed.

Lemma demo_cache_ok n : cache_ok (demo_cache n).
Proof.
  split; cbn [for_cached cached_table hash opened_num already_cached demo_cache]; try done; [by rewrite !length_replicate|apply NoDup_nil_2|lia|by intros _].
Qed.

Lemma group_commit_witness : exists c' rs' pools',
  demo_round true true [one (single 65) [] 0; one (demo_job Batch 2) [single 66; single 67] 1] = Some (c', rs', pools') /\
  resting c' /\ kept (session c') = [[65]; [66]; [67]] /\ Forall (sends (fun b => code_of b = CLIENT_STATUS_OK) r_rest) rs'.
Proof.
  destruct (group_commit 0 (fun _ => 170) (fun _ => true) 8 4 (fun _ => 0) (fun _ => true) ledger_named true (demo_context true)
    [one (single 65) [] 0; one (demo_job Batch 2) [single 66; single 67] 1] demo_pools) as (c' & rs' & pools' & E & Hr & Hcase).
  - split; [done|]. split; [done|]. apply demo_cache_ok.
  - constructor; [left; split; [apply demo_fresh|done]|constructor; [right; split; [done|]|constructor]].
    constructor; [apply demo_fresh|constructor; [apply demo_fresh|constructor]].
  - unfold has_pool. cbn. repeat (constructor; [cbn; lia|]). constructor.
  - exists c', rs', pools'. pose proof group_done as Ho. rewrite E in Ho. injection Ho as Hk _.
    split; [exact E|]. split; [exact Hr|]. split; [exact Hk|].
    destruct Hcase as [(c1 & rs1 & c2 & c3 & _ & _ & _ & _ & _ & Hall)|[Hd _]]; [exact Hall|].
    cbn in Hd. rewrite Hk in Hd. discriminate Hd.
Defined.

(** The context with the table open, and a request for it. *)
Definition demo_opened : dbcontext (D := ledger) :=
  Context true false false 0 false None 0 0 0
    (Cache [(PoolObj 0, 7)] (replicate 2 (None, 0)) (replicate 2 (Opened None false)) (Some [Opened (Some 0%nat) false]) 0 1 0 [0%nat] false)
    (Ledger [] [] [([100], [116])] true).
Definition demo_part (v : Z) : job := set_opened (Some (PoolObj 0)) (single v).

Lemma batch_atomic_witness : exists ret c' j' rest' s',
  execute 0 (fun _ => 170) (fun _ => true) 8 4 (fun _ => 0) (execute_fuel [demo_part 66; demo_part 67]) demo_opened (demo_job Batch 2) [demo_part 66; demo_part 67] EasyPool.demo_pool =
    Some (ret, c', j', rest', s') /\ idle c' /\ kept (session c') = [[66]; [67]] /\
  all_or_nothing 0 (fun _ => 170) (fun _ => true) 8 4 (fun _ => 0) demo_opened [demo_part 66; demo_part 67] ret c' j' rest'.
Proof.
  destruct (batch_atomic 0 (fun _ => 170) (fun _ => true) 8 4 (fun _ => 0) demo_opened (demo_job Batch 2) [demo_part 66; demo_part 67] EasyPool.demo_pool)
    as (ret & c' & j' & rest' & s' & E & Hall & Hi); [reflexivity|split; [reflexivity|split; reflexivity]|reflexivity|..].
  - assert (forall v, part_of (D := ledger) 0 (fun _ => 170) (fun _ => true) 8 4 (P := EasyPool.slots * EasyPool.easy_pool_t) demo_opened (demo_part v)) as Hp.
    { intros v. destruct (demo_fresh v 4) as (_ & w & Hw & H1 & H2 & _). split; [by exists w|]. intros o [= <-]. by eexists. }
    constructor; [apply Hp|constructor; [apply Hp|constructor]].
  - constructor; [reflexivity|constructor; [reflexivity|constructor]].
  - vm_compute. discriminate.
  - exists ret, c', j', rest', s'. split; [exact E|]. split; [exact Hi|]. split; [|exact Hall].
    assert (option_map (fun x => kept (session (snd (fst (fst (fst x))))))
      (execute 0 (fun _ => 170) (fun _ => true) 8 4 (fun _ => 0) (execute_fuel [demo_part 66; demo_part 67]) demo_opened (demo_job Batch 2) [demo_part 66; demo_part 67] EasyPool.demo_pool) =
      Some [[66]; [67]]) as Hk by (vm_compute; reflexivity).
    rewrite E in Hk. injection Hk as Hk. exact Hk.
Defined.

Definition key_t : Z := Eval vm_compute in default 0 (make_hash_code_for_table [100] [116]).
(** Two tables, t in use and u kept from an earlier round. *)
Definition used_cache : table_cache :=
  Cache [(PoolObj 0, key_t)] (replicate 2 (None, 0)) (replicate 2 (Opened None false)) (Some [Opened (Some 0%nat) false]) 0 1 0 [0%nat] false.
Definition kept_cache : table_cache :=
  Cache [] [(Some 0%nat, key_t); (None, 0)] (replicate 2 (Opened None false)) None 1 0 1 [] false.
Definition one_open : ledger := Ledger [] [] [([100], [116])] true.

Lemma used_cache_ok : cache_ok used_cache /\ keyed one_open used_cache.
Proof.
  split; split; try done; try (cbn; lia).
  - constructor; [by eexists|constructor].
  - apply NoDup_singleton.
  - by intros _.
  - constructor; [|constructor]. intros t [= <-]. reflexivity.
Qed.
Lemma kept_cache_ok : cache_ok kept_cache /\ keyed one_open kept_cache.
Proof.
  split; split; try done; try (cbn; lia).
  - apply NoDup_nil_2.
  - by intros _.
  - constructor.
  - intros [|i] t h Hi; cbn in Hi; [|lia]. intros [= <- <-] _. reflexivity.
Qed.

(** The second request for t gets the table that was kept; the server has no
    part in it. *)
Lemma open_table_spec_witness : exists o k', open_table true (fun _ => true) true one_open kept_cache (TableV [100; 0] [116; 0] [] []) = Some (Some o, one_open, k') /\
  cache_ok k' /\ table_at k' o = Some 0%nat.
Proof.
  destruct (open_table_spec true (fun _ => true) true one_open kept_cache (TableV [100; 0] [116; 0] [] [])) as (o & d' & k' & E & Hk & _ & _ & Hcase).
  - apply ledger_named.
  - apply kept_cache_ok.
  - apply kept_cache_ok.
  - apply short_str; [unfold bytes_ok; repeat (constructor; [lia|]); constructor|cbn; lia|by exists [100]].
  - apply short_str; [unfold bytes_ok; repeat (constructor; [lia|]); constructor|cbn; lia|by exists [116]].
  - unfold nonzero. repeat (constructor; [lia|]). constructor.
  - unfold nonzero. repeat (constructor; [lia|]). constructor.
  - done.
  - by left.
  - intros t. split; [intros [= <-]; split; [vm_compute; intros Hin; apply list_elem_of_In in Hin; destruct Hin as [Hin|[]]; discriminate Hin|reflexivity]|].
    intros Ht. cbn in Ht |- *. destruct t as [|[|t]]; [reflexivity|by destruct Ht|reflexivity].
  - assert (option_map (fun x => (fst (fst x), snd (fst x))) (open_table true (fun _ => true) true one_open kept_cache (TableV [100; 0] [116; 0] [] [])) =
      Some (Some (CachedObj 0), one_open)) as Ho by (vm_compute; reflexivity).
    rewrite E in Ho. injection Ho as -> ->. exists (CachedObj 0), k'. split; [exact E|]. split; [exact Hk|].
    destruct Hcase as [(t & Ht & Hin & _)|[Hno _]].
    + rewrite Ht. vm_compute in Hin. apply list_elem_of_In in Hin. destruct Hin as [<-|[]]. reflexivity.
    + destruct (Hno 0%nat); [vm_compute; apply list_elem_of_In; by left|reflexivity].
Defined.

Lemma close_table_spec_witness : exists k', close_table true one_open used_cache = Some (one_open, k') /\ cache_ok k' /\ keyed one_open k' /\ hash k' = [] /\
  tables_open k' ≡ₚ [0%nat].
Proof.
  destruct (close_table_spec true one_open used_cache) as (d' & k' & E & Hk & Hh & _ & Hkey & Hcase); [apply used_cache_ok..|].
  destruct Hcase as [(-> & Hp & _)|(_ & _ & [Hc|Hc])]; [|discriminate Hc|cbn in Hc; lia].
  exists k'. split; [exact E|]. split; [exact Hk|]. split; [exact Hkey|]. split; [exact Hh|exact Hp].
Defined.

Lemma lock_table_spec_witness : exists ts c', lock_table (fun _ => true) (set_bulk true demo_opened) = Some c' /\ lock c' = true /\
  ts ≡ₚ in_use (tables demo_opened) /\ snd (tdhs_lock_table (session demo_opened) ts true) = session c'.
Proof.
  destruct (lock_table_spec (fun _ => true) (set_bulk true demo_opened)) as (c' & E & Hcase); [reflexivity| |].
  { split; try done; try (cbn; lia); [constructor; [by eexists|constructor]|apply NoDup_singleton|by intros _]. }
  destruct Hcase as [(_ & Hgt & _)|(ts & Hp & ->)]; [cbn in Hgt; unfold DBCONTEXT_MAX_CACHE_LOCK_TABLES in Hgt; lia|].
  exists ts. eexists. split; [exact E|]. split; [reflexivity|]. split; [exact Hp|reflexivity].
Defined.

End TdhsDemo.
